(* ===== verification/_CoqProject ===== *)
-Q . S2P
Prelude.v
Buffer.v
Provider.v
Hkdf.v
Curve.v
Vpool.v
Ratchet.v
SessionState.v
Ratcheting.v
Window.v
CipherKeys.v
Protobuf.v
ProtobufSpec.v
Wire.v
Protocol.v
SessionSerial.v
SessionRecord.v
PreKeys.v
SenderKey.v
SessionInv.v
Store.v
SessionBuilder.v
SessionCipher.v
Delivery.v
Handshake.v
Frame.v
KeyHelper.v
GroupCipher.v
GroupKeys.v
Group.v
GroupFrame.v
Order.v
Digest.v
KeyList.v
Fingerprint.v
Consistency.v
Limbs.v
Donna.v
DonnaField.v
DonnaBytes.v
DonnaLadder.v
DonnaLink.v
Scalar.v
ScalarSpec.v
Fe.v
FeSpec.v
Sha512.v
Sha512Spec.v
Prime.v
Field25519.v
Edwards.v
GeBase.v
Ge.v
GeSpec.v
GeTable.v
GeMult.v
GeSlide.v
XEd.v
XEdSpec.v
XEdSign.v
Montgomery.v
CurveLink.v
Labels.v
GenEd.v
GenVrf.v
LabelsSpec.v
GroupOrder.v
Elligator.v
GenEdSpec.v
VrfSpec.v
VrfLink.v
RefCount.v
RefCountInv.v
RefOps.v
RefRules.v
RefOpsSpec.v
RefStateSpec.v
RefSenderSpec.v
RefDecodeSpec.v
RefApi.v
