(* ===== verification/Prelude.v ===== *)
(** * Verification of libsignal-protocol-c

    The program is the Signal protocol library under
    src/libsignal-protocol-c/src.  Two parties agree on a root key from their
    identity keys and pre keys (ratchet.c), keep one [session_state] each
    (session_state.c), derive one set of message keys per message from sending
    and receiving chains (session_cipher.c), and exchange protobuf messages
    with a MAC (protocol.c, protobuf-c/protobuf-c.c).

    ** Files and the code they model

    - Prelude: bytes, machine integers, result codes (signal_protocol.h), the
      state and error monad, the allocator, the relations [keeps], [safe] and
      [ends], shared tactics and lemmas.
    - Buffer: [signal_buffer], [signal_buffer_list], [signal_int_list] and
      [signal_constant_memcmp] (signal_protocol.c, utarray.h).
    - Provider: the callbacks of [signal_crypto_provider] and the entry points
      of the curve25519 directory as type classes, with classes for the laws
      individual theorems use, and [Toy], an executable instance of all of
      them.
    - Hkdf: hkdf.c.   Curve: curve.c.   Vpool: vpool.c and vpool.h.
    - Ratchet: chain, root and message keys (ratchet.c, first half).
    - SessionState: the state record and its operations (session_state.c).
    - Ratcheting: the Alice, Bob and symmetric initializers (ratchet.c, second
      half).
    - Window: an abstract receiver that only counts, shared by sessions and
      groups.
    - CipherKeys: the receiving key schedule and payload cipher
      (session_cipher.c, lines 500 to 760).
    - Protobuf, ProtobufSpec: size, pack and unpack of the protobuf-c runtime,
      and their correctness for any well-formed descriptor table.
    - Wire: the tables of the generated WhisperTextProtocol, LocalStorageProtocol
      and FingerprintProtocol files.
    - Protocol: the four message types (protocol.c).
    - SessionSerial: serialization of session states (session_state.c);
      SessionRecord: records with archived states (session_record.c);
      PreKeys: pre keys, signed pre keys, bundles (session_pre_key.c);
      SenderKey: sender keys, states and records (sender_key.c,
      sender_key_state.c, sender_key_record.c); SessionInv: which operations
      keep a session storable.
    - Store: the application's five stores as a class with laws, and the
      wrappers of signal_protocol.c that call them.
    - SessionBuilder: session_builder.c.   SessionCipher: the handlers of
      session_cipher.c over the stores.
    - Delivery, Handshake, Frame: what those handlers guarantee together, for
      one message, for the first message and for failures.
    - KeyHelper: key_helper.c.
    - GroupCipher: group_cipher.c and group_session_builder.c; GroupKeys, Group
      and GroupFrame: their refinement of Window, the group conversation and
      failures.
    - Order: strcmp and qsort; Digest: the SHA-512 callbacks; KeyList: lists
      of public keys (curve.c); Fingerprint: fingerprint.c; Consistency:
      device_consistency.c and the VRF calls of curve.c.
    - Limbs: checked machine arithmetic and arrays; Donna: every function of
      curve25519/curve25519-donna.c; DonnaField, DonnaBytes, DonnaLadder: its
      field arithmetic, its encoding and its Montgomery ladder; DonnaLink: the
      interface of Provider discharged by it.
    - Scalar, ScalarSpec: scalars modulo the order of the Ed25519 group
      (curve25519/ed25519/sc_reduce.c, sc_muladd.c and the sc_*.c files of
      additions/); Fe, FeSpec: its field (the fe_*.c files); Sha512, Sha512Spec:
      nacl_sha512/.
    - Prime, Field25519, Edwards: the reference the group is compared with, the
      field of 2^255 - 19 elements and the group of the twisted Edwards curve.
    - GeBase, Ge: the records, tables and functions of the ge_*.c files; GeSpec,
      GeTable, GeMult, GeSlide: their point formulas and encoding, their tables,
      their signed digits and their sliding windows against the group.
    - XEd: sign.c, open.c, and sign_modified.c, open_modified.c, curve_sigs.c,
      xeddsa.c and zeroize.c of additions/; XEdSpec, XEdSign: when they accept,
      and that they accept what they signed.
    - Montgomery: the ladder as multiplication on the Edwards curve; CurveLink:
      the interfaces of Provider discharged by the code.
    - Labels, GenEd, GenVrf: gen_labelset.c, gen_eddsa.c with point_isreduced.c, and
      gen_veddsa.c with gen_x.c, of additions/generalized/; LabelsSpec, GenEdSpec,
      VrfSpec: what they hash, when they accept and that they accept what they
      signed; GroupOrder, Elligator: the exponent of the group, and hashing to it
      (elligator.c, ge_montx_to_p3.c); VrfLink: the VRF interface of Consistency
      discharged by the code.
    - RefCount: the heap of reference-counted objects ([signal_type_base] of
      signal_protocol_internal.h), [signal_type_init], [signal_type_ref] and
      [signal_type_unref] of signal_protocol.c, and the destroy functions of all
      29 structs; RefOps: the constructors, setters and list operations that
      share objects, and the deserialization of session states, on that heap.
      RefCountInv: who owns what, and what a release does; RefRules: a program
      logic for computations on the heap; RefOpsSpec, RefStateSpec, RefSenderSpec,
      RefDecodeSpec: a specification in it for every operation of RefOps;
      RefApi: programs that call them in any order.

    ** How C is modelled

    A function that returns a negative code on failure is a computation of the
    monad [M]: it maps the state it can change to a result [Ok], [Err code],
    [Hang] (a loop that never ends) or [Abort] (a failed assertion, a null
    dereference or a read outside a buffer) and the state it leaves behind, so
    that a failing call keeps the changes made before the failure.  Objects
    changed through a pointer are the first component of the state; the second
    is the [world]: a counter of the allocations that will still succeed and
    the application's data behind the callbacks.  Theorems about results are
    stated in a [calm] world, where allocations succeed; theorems about safety
    and bounds hold in every world.  Integers are [Z], wrapped where the C type
    wraps ([u8], [u32], [usize]); in the curve25519 directory signed operations
    are checked and a limb that was never written cannot be read ([Limbs]).  Buffers and keys are byte lists; a possibly
    null pointer is an [option].  Zeroing and logging have no effect on the model.

    What objects hold and who owns them are modelled apart.  In the files above
    an object is its contents, so sharing is copying; in the files Ref* a struct
    is the list of its owning pointers, on a heap where every [malloc] is a cell,
    and an access to a cell that was freed, a second [free], a pointer that was
    never set and a failed [assert] are [Abort].  There a field is given its
    value when the struct is allocated, unless something can fail in between; a
    linked list is the list of its nodes; a pointer cleared in a struct that is
    being destroyed is not written; addresses can be reused.

    ** What the theorems show

    - Key agreement: HKDF is RFC 5869 for every length its counter can count
      ([Hkdf]), diverging beyond; both handshake roles derive the same keys
      ([Ratcheting.x3dh_agreement]) and the symmetric handshake has exactly one
      Alice.
    - The double ratchet: the receiver refines an abstract machine that only
      counts ([CipherKeys.receive_refines]), hence no replay and acceptance in
      any order; two parties stay in sync under any interleaving of sends,
      receives, losses and ratchet turns ([CipherKeys.conversation_in_sync]).
    - Bounds: the session state never holds more than five receiver chains of
      2000 stored keys.
    - Messages between stores: a first message, built from a bundle and sent
      as bytes, is read by its addressee and leaves both stores with peer
      sessions ([Handshake.first_message_delivered]); later messages are
      delivered whenever the window accepts their counter
      ([Delivery.message_delivered]); an operation that fails leaves the stores
      as they were ([Frame], [GroupFrame]).
    - Groups: a distribution message hands over the chain, and deliveries in
      any order are answered as the abstract window says ([Group]).
    - The wire format: packing writes what was announced, unpacking inverts it,
      and unpacking arbitrary bytes never reads outside them ([Wire]); each
      message survives creation and parsing, its MAC or signature verifies, and
      the parsers are total on untrusted input ([Protocol]).
    - Storage: sessions, records, pre keys and sender keys read back as they
      were written, and reading is total ([SessionSerial], [SessionRecord],
      [PreKeys], [SenderKey]); generated keys are valid ([KeyHelper]).
    - Comparison of identities: scanned fingerprints match exactly when the
      keys do, and neither display nor consistency codes depend on the order in
      which keys or signatures are listed ([Fingerprint], [Consistency]).
    - Curve25519: the limb code multiplies modulo 2^255 - 19 without signed
      overflow, encodes canonically, and as a whole computes the X25519 function
      of RFC 7748 ([DonnaField], [DonnaBytes],
      [DonnaLadder.donna_computes_x25519]).
    - Ed25519: scalar reduction and multiply-add are exact modulo the group
      order, and the field operations modulo the prime, with every intermediate
      limb in range ([ScalarSpec], [FeSpec]); SHA-512 is the function of FIPS
      180-4 ([Sha512Spec.sha512_correct]).
    - The Ed25519 group: the prime and the group order are prime by Pocklington
      certificates ([Prime]), addition on the curve is complete and associative
      ([Edwards]); the point formulas, the encoding, all entries of the tables
      and the three multiplications compute in that group ([GeSpec], [GeTable],
      [GeSlide.ed25519_multiplication]).
    - Signatures: [XEdSpec.curve25519_verify_exact] says exactly when a signature
      is accepted; signatures of all three schemes verify ([XEdSign],
      [CurveLink.curve25519_signature_verifies]); the ladder of donna multiplies in
      the same group, so agreement holds for the code
      ([CurveLink.donna_agreement]), and the laws curve.c relies on are theorems
      ([CurveLink.library_keys_work]).
    - The VRF: every hash maps to the curve and into the subgroup of prime order
      ([Elligator.hash_to_point_total], [GroupOrder.exponent]); signatures over labels
      verify ([GenEdSpec]), label sets separate the uses of the hash
      ([LabelsSpec.labelset_encoding]), and the output of the VRF does not depend on
      the random bytes ([VrfSpec.vrf_output_deterministic]), so that devices agree
      ([VrfLink.library_devices_agree]).
    - Memory: giving up a reference frees exactly what no other reference reaches
      ([RefCountInv.signal_type_unref_exact]); programs that pass on only
      references they hold never touch freed memory, and have freed everything
      when they have given everything up ([RefApi.api_programs_safe]), whichever
      allocations fail, but for those of [sender_message_key_create]; stored sessions of a known version are read without loss
      or leak ([RefDecodeSpec.session_state_deserialize_owned]).
    - Functions that do not do what they mean to:
      [Buffer.signal_buffer_list_copy_bug], [Hkdf.hkdf_expand_diverges],
      [Protocol.distribution_create_nomem],
      [SessionSerial.sender_chain_error_ignored],
      [SenderKey.sender_message_key_create_nomem],
      [RefSenderSpec.sender_message_key_create_unset],
      [RefDecodeSpec.session_state_deserialize_bad_version],
      [LabelsSpec.labelset_validate_overread], [LabelsSpec.labelset_add_full].

    ** Fuel and bounds

    [message_keys_loop] and [sender_key_loop] get 2001 rounds, one more than the
    guards before them admit; [scan_members] one round more than the input has
    bytes, each round using at least one; [PB_DEPTH] is 4, the deepest nesting of the descriptor
    tables; [hkdf_expand_loop] gets any fuel in the divergence theorem and
    enough in the correctness theorem; [unref_depth] is 4, since a record holds
    states, a state key pairs and a key pair keys ([RefCountInv.rank]).  The loops that trim
    a list run once per surplus element.  Programs of [RefApi] make fewer than
    2^29 - 1 calls, so that no reference count wraps.  Round trips of messages assume packed
    sizes below 2^26, where the 32-bit lengths of protobuf-c do not wrap and its
    table of scanned members suffices.

    ** Not modelled

    The application's crypto and store callbacks are parameters.  So are the
    entry points of the curve25519 directory where curve.c calls them; their
    interfaces are discharged with the modelled code, for agreement and signatures by
    [CurveLink] and for the VRF by [VrfLink].  There a message that hashes to the
    neutral point cannot be signed; that no message does is not shown.
    Locks, zeroing and logging have no effect on the model.  On the heap of
    RefCount the constructors and parsers of the protocol messages, the device
    consistency messages, key generation, the other deserializers and the
    handlers of sessions and groups are not modelled; their results are, in the files above.  Of protobuf-c the field types, labels and
    services no message of the library uses are left out.  Random integers are
    read from the random callback as a little-endian machine reads them.
    [qsort] is the merge sort of stdpp; [Order] shows that any sorted
    permutation is the same list up to elements that compare equal. *)
From stdpp Require Export prelude numbers list.
From Stdlib Require Ascii String.
Global Open Scope Z_scope.

(** * Machine data *)

(** Bytes are integers in [0, 256); buffers are lists of bytes. *)
Abbreviation bytes := (list Z).

Definition is_byte (b : Z) : Prop := 0 <= b < 256.
Definition wf_bytes (bs : bytes) : Prop := Forall is_byte bs.

(** [uint32_t] and [uint8_t] arithmetic wraps. *)
Definition u32 (z : Z) : Z := z `mod` 2 ^ 32.
Definition u8 (z : Z) : Z := z `mod` 2 ^ 8.
Definition usize (z : Z) : Z := z `mod` 2 ^ 64.
Definition is_u32 (z : Z) : Prop := 0 <= z < 2 ^ 32.
Definition SIZE_MAX : Z := 2 ^ 64 - 1.

(** [zlen bs] is the [size_t] length of a buffer. *)
Definition zlen {A} (l : list A) : Z := Z.of_nat (length l).

(** ASCII string literals used as HKDF info. *)
Definition str_bytes (s : String.string) : bytes :=
  (λ a, Z.of_N (Ascii.N_of_ascii a)) <$> String.list_ascii_of_string s.

(** * Result codes (signal_protocol.h) *)

Definition SG_SUCCESS : Z := 0.
Definition SG_ERR_NOMEM : Z := -12.
Definition SG_ERR_INVAL : Z := -22.
Definition SG_ERR_UNKNOWN : Z := -1000.
Definition SG_ERR_DUPLICATE_MESSAGE : Z := -1001.
Definition SG_ERR_INVALID_KEY : Z := -1002.
Definition SG_ERR_INVALID_KEY_ID : Z := -1003.
Definition SG_ERR_INVALID_MAC : Z := -1004.
Definition SG_ERR_INVALID_MESSAGE : Z := -1005.
Definition SG_ERR_INVALID_VERSION : Z := -1006.
Definition SG_ERR_LEGACY_MESSAGE : Z := -1007.
Definition SG_ERR_NO_SESSION : Z := -1008.
Definition SG_ERR_STALE_KEY_EXCHANGE : Z := -1009.
Definition SG_ERR_UNTRUSTED_IDENTITY : Z := -1010.
Definition SG_ERR_VRF_SIG_VERIF_FAILED : Z := -1011.
Definition SG_ERR_INVALID_PROTO_BUF : Z := -1100.

(** * The state and error monad

    A C function that returns a negative code on failure is a computation
    [M S A]: it maps the state it can change to a result and the state it
    leaves behind.  A failing call keeps the changes made before the failure,
    as the C code does.  [Hang] is the outcome of a loop that never leaves its
    body, [Abort] that of a failed [assert] or a null dereference. *)

Inductive res (A : Type) : Type :=
| Ok (a : A)
| Err (e : Z)
| Hang
| Abort.
Global Arguments Ok {A} a.
Global Arguments Err {A} e.
Global Arguments Hang {A}.
Global Arguments Abort {A}.

Definition M (S A : Type) : Type := S → res A * S.

Definition ret {S A} (a : A) : M S A := λ s, (Ok a, s).
Definition fail {S A} (e : Z) : M S A := λ s, (Err e, s).
Definition hang {S A} : M S A := λ s, (Hang, s).
Definition abort {S A} : M S A := λ s, (Abort, s).
Definition bind {S A B} (m : M S A) (k : A → M S B) : M S B := λ s,
  match m s with
  | (Ok a, s') => k a s'
  | (Err e, s') => (Err e, s')
  | (Hang, s') => (Hang, s')
  | (Abort, s') => (Abort, s')
  end.
Definition get {S} : M S S := λ s, (Ok s, s).
Definition put {S} (s : S) : M S unit := λ _, (Ok tt, s).
Definition of_res {S A} (r : res A) : M S A := λ s, (r, s).

(** [try m] runs [m] and hands its outcome, success or error code, to the
    continuation: the C idiom of testing the returned [int]. *)
Definition try {S A} (m : M S A) : M S (A + Z) := λ s,
  match m s with
  | (Ok a, s') => (Ok (inl a), s')
  | (Err e, s') => (Ok (inr e), s')
  | (Hang, s') => (Hang, s')
  | (Abort, s') => (Abort, s')
  end.

Declare Scope sg_scope.
Delimit Scope sg_scope with sg.
Notation "'let*' x := m 'in' k" := (bind m (λ x, k))
  (at level 200, x binder, m at level 100, k at level 200,
   format "'let*'  x  :=  m  'in' '/' k") : sg_scope.
Global Open Scope sg_scope.

(** Objects changed through a pointer are the first component of the state. *)
Definition lift {T S A} (m : M S A) : M (T * S) A := λ '(t, s),
  let '(r, s') := m s in (r, (t, s')).
Definition get_obj {T S} : M (T * S) T := λ '(t, s), (Ok t, (t, s)).
Definition put_obj {T S} (t : T) : M (T * S) unit := λ '(_, s), (Ok tt, (t, s)).

(** [with_obj t m] runs [m] on a fresh object [t] and returns its final value:
    a local variable whose address is passed to [m]. *)
Definition with_obj {T S A} (t : T) (m : M (T * S) A) : M S (A * T) := λ s,
  match m (t, s) with
  | (Ok a, (t', s')) => (Ok (a, t'), s')
  | (Err e, (_, s')) => (Err e, s')
  | (Hang, (_, s')) => (Hang, s')
  | (Abort, (_, s')) => (Abort, s')
  end.

(** * The world: allocator and application data

    [w_mem = None]: every allocation succeeds.  [w_mem = Some n]: the next [n]
    allocations succeed and all later ones fail.  [w_user] is the data behind
    the [user_data] pointers of the application's callbacks. *)

Record world (U : Type) : Type := World { w_mem : option nat; w_user : U }.
Global Arguments World {U} w_mem w_user.
Global Arguments w_mem {U} w.
Global Arguments w_user {U} w.

(** A world in which no allocation fails. *)
Abbreviation calm u := (World None u).

Definition malloc {U} : M (world U) bool := λ w,
  match w_mem w with
  | None => (Ok true, w)
  | Some O => (Ok false, w)
  | Some (S n) => (Ok true, World (Some n) (w_user w))
  end.

(** [p = malloc(..); if(!p) return SG_ERR_NOMEM;] *)
Definition alloc {U} : M (world U) unit :=
  let* ok := malloc in if (ok : bool) then ret tt else fail SG_ERR_NOMEM.

(** [if(!p) { result = e; goto complete; }] *)
Definition non_null {S A} (o : option A) (e : Z) : M S A :=
  match o with Some a => ret a | None => fail e end.

(** [if(result == e) result = e'] at the end of a function. *)
Definition remap_error {S A} (f : Z → Z) (m : M S A) : M S A := λ s,
  match m s with
  | (Err e, s') => (Err (f e), s')
  | r => r
  end.

(** An application callback over its [user_data]. *)
Definition callback {U A} (f : U → res A * U) : M (world U) A := λ w,
  let '(r, u) := f (w_user w) in (r, World (w_mem w) u).

(** [for x in xs: ys.append(f(x))], stopping at the first error. *)
Fixpoint mapM_list {S A B} (f : A → M S B) (xs : list A) : M S (list B) :=
  match xs with
  | [] => ret []
  | x :: xs => let* y := f x in let* ys := mapM_list f xs in ret (y :: ys)
  end.

(** [if(p) { result = f(p); ... }] *)
Definition opt_mapM {S A B} (f : A → M S B) (o : option A) : M S (option B) :=
  match o with Some a => let* b := f a in ret (Some b) | None => ret None end.

(** * What a computation may change

    [keeps R m]: whatever its outcome, [m] relates the states before and after
    by [R].  Used with a preorder [R] it is closed under sequencing, so a bound
    on the effects of a handler follows from those of its calls. *)

Definition keeps {S A} (R : S → S → Prop) (m : M S A) : Prop :=
  ∀ s, R s (m s).2.

(** Only the allocator advances; the application's data is untouched. *)
Definition same_user {U} (w w' : world U) : Prop := w_user w = w_user w'.

Definition same_user2 {T U} (s s' : T * world U) : Prop := same_user s.2 s'.2.

Create HintDb keeps discriminated.

Lemma keeps_ret {S A} (R : S → S → Prop) `{!Reflexive R} (a : A) :
  keeps R (ret a).
Proof. by intros s. Qed.

Lemma keeps_fail {S A} (R : S → S → Prop) `{!Reflexive R} e :
  keeps R (fail (A:=A) e).
Proof. by intros s. Qed.

Lemma keeps_hang {S A} (R : S → S → Prop) `{!Reflexive R} :
  keeps R (hang (A:=A)).
Proof. by intros s. Qed.

Lemma keeps_abort {S A} (R : S → S → Prop) `{!Reflexive R} :
  keeps R (abort (A:=A)).
Proof. by intros s. Qed.

Lemma keeps_of_res {S A} (R : S → S → Prop) `{!Reflexive R} (r : res A) :
  keeps R (of_res r).
Proof. by intros s. Qed.

Lemma keeps_bind {S A B} (R : S → S → Prop) `{!Transitive R}
    (m : M S A) (k : A → M S B) :
  keeps R m → (∀ a, keeps R (k a)) → keeps R (bind m k).
Proof.
  intros Hm Hk s. unfold bind. specialize (Hm s).
  destruct (m s) as [[a|e| |] s'] eqn:E; simpl in *; [|done..].
  etrans; [exact Hm | apply Hk].
Qed.

Lemma keeps_try {S A} (R : S → S → Prop) (m : M S A) :
  keeps R m → keeps R (try m).
Proof.
  intros Hm s. specialize (Hm s). unfold try.
  by destruct (m s) as [[a|e| |] s'].
Qed.

Lemma keeps_non_null {S A} (R : S → S → Prop) `{!Reflexive R} (o : option A) e :
  keeps R (non_null o e).
Proof. destruct o; [apply keeps_ret | apply keeps_fail]; done. Qed.

Lemma keeps_mapM {S A B} (R : S → S → Prop) `{!PreOrder R}
    (f : A → M S B) (xs : list A) :
  (∀ x, keeps R (f x)) → keeps R (mapM_list f xs).
Proof.
  intros Hf. induction xs as [|x xs IH]; simpl; [apply keeps_ret, _|].
  apply keeps_bind; [apply _|done|]. intros y.
  apply keeps_bind; [apply _|done|]. intros ys. apply keeps_ret, _.
Qed.

Lemma keeps_opt_mapM {S A B} (R : S → S → Prop) `{!PreOrder R}
    (f : A → M S B) (o : option A) :
  (∀ x, keeps R (f x)) → keeps R (opt_mapM f o).
Proof.
  intros Hf. destruct o; simpl; [|apply keeps_ret, _].
  apply keeps_bind; [apply _|done|]. intros y. apply keeps_ret, _.
Qed.

#[export] Instance same_user_preorder U : PreOrder (@same_user U).
Proof. split; unfold same_user; [done|]. intros ??? -> ->; done. Qed.

#[export] Instance same_user2_preorder T U : PreOrder (@same_user2 T U).
Proof. split; unfold same_user2; [intros ?; done|]. intros ???; apply transitivity. Qed.

Lemma keeps_lift {T U A} (m : M (world U) A) :
  keeps same_user m → keeps (@same_user2 T U) (lift m).
Proof. intros H [t w]. specialize (H w). unfold lift. by destruct (m w). Qed.

Lemma keeps_get_obj {T U} : keeps (@same_user2 T U) get_obj.
Proof. by intros [t w]. Qed.

Lemma keeps_put_obj {T U} (t : T) : keeps (@same_user2 T U) (put_obj t).
Proof. by intros [t' w]. Qed.

Lemma keeps_with_obj {T U A} (t : T) (m : M (T * world U) A) :
  keeps same_user2 m → keeps same_user (with_obj t m).
Proof.
  intros H w. specialize (H (t, w)). unfold with_obj.
  by destruct (m (t, w)) as [[a|e| |] [t' w']].
Qed.

Lemma keeps_malloc {U} : keeps (@same_user U) malloc.
Proof. intros [[[|n]|] u]; done. Qed.

#[export] Hint Resolve keeps_ret keeps_fail keeps_hang keeps_abort keeps_of_res keeps_bind
  keeps_try keeps_non_null keeps_mapM keeps_opt_mapM keeps_malloc
  keeps_lift keeps_get_obj keeps_put_obj keeps_with_obj : keeps.
#[export] Hint Extern 0 (Reflexive _) => typeclasses eauto : keeps.
#[export] Hint Extern 0 (Transitive _) => typeclasses eauto : keeps.
#[export] Hint Extern 0 (PreOrder _) => typeclasses eauto : keeps.

(** Splits on the tests and pattern matches of a handler and closes what the
    hints know. *)
Ltac keeps_solve :=
  repeat first
    [ progress intros
    | match goal with
      | |- keeps _ (bind _ _) => apply keeps_bind; [typeclasses eauto| |]
      | |- keeps _ (mapM_list _ _) => apply keeps_mapM; [typeclasses eauto|]
      | |- keeps _ (opt_mapM _ _) => apply keeps_opt_mapM; [typeclasses eauto|]
      | |- keeps _ (try _) => apply keeps_try
      | |- keeps _ (match ?x with _ => _ end) => destruct x
      | |- keeps _ (let '(_, _) := ?x in _) => destruct x
      end
    | solve [eauto 3 with keeps] ].

Lemma keeps_alloc {U} : keeps (@same_user U) alloc.
Proof. unfold alloc. keeps_solve. Qed.
#[export] Hint Resolve keeps_alloc : keeps.

(** * Total correctness

    [safe m Q]: from every state, so under every allocation outcome, [m] ends
    without reading out of bounds and returns a result that satisfies [Q]. *)

Definition safe {S A} (m : M S A) (Q : A → Prop) : Prop :=
  ∀ s, match (m s).1 with Ok a => Q a | Err _ | Hang | Abort => False end.

Lemma safe_ret {S A} (a : A) (Q : A → Prop) : Q a → safe (S:=S) (ret a) Q.
Proof. by intros H s. Qed.

Lemma safe_bind {S A B} (m : M S A) (k : A → M S B) Q R :
  safe m Q → (∀ a, Q a → safe (k a) R) → safe (bind m k) R.
Proof.
  intros Hm Hk s. specialize (Hm s). unfold bind.
  destruct (m s) as [[a|e| |] s']; try done. by apply Hk.
Qed.

Lemma safe_mono {S A} (m : M S A) (Q R : A → Prop) :
  safe m Q → (∀ a, Q a → R a) → safe m R.
Proof. intros Hm H s. specialize (Hm s). destruct (m s).1; auto. Qed.

Lemma safe_malloc {U} (Q : bool → Prop) : (∀ b, Q b) → safe (@malloc U) Q.
Proof. intros H [[[|n]|] u]; apply H. Qed.

(** [ends m Q]: from every state [m] ends, with an error code or with a result
    that satisfies [Q]; it neither hangs nor crashes. *)
Definition ends {S A} (m : M S A) (Q : A → Prop) : Prop :=
  ∀ s, match (m s).1 with Ok a => Q a | Err _ => True | Hang | Abort => False end.

Create HintDb ends discriminated.

Lemma ends_ret {S A} (a : A) (Q : A → Prop) : Q a → ends (S:=S) (ret a) Q.
Proof. by intros H s. Qed.

Lemma ends_fail {S A} e (Q : A → Prop) : ends (S:=S) (fail e) Q.
Proof. by intros s. Qed.

Lemma ends_bind {S A B} (m : M S A) (k : A → M S B) Q R :
  ends m Q → (∀ a, Q a → ends (k a) R) → ends (bind m k) R.
Proof.
  intros Hm Hk s. specialize (Hm s). unfold bind.
  destruct (m s) as [[a|e| |] s']; try done. by apply Hk.
Qed.

Lemma ends_mono {S A} (m : M S A) (Q R : A → Prop) :
  ends m Q → (∀ a, Q a → R a) → ends m R.
Proof. intros Hm H s. specialize (Hm s). destruct (m s).1; auto. Qed.

Lemma ends_safe {S A} (m : M S A) (Q : A → Prop) : safe m Q → ends m Q.
Proof. intros Hm s. specialize (Hm s). by destruct (m s).1. Qed.

Lemma ends_non_null {S A} (o : option A) e (Q : A → Prop) :
  (∀ a, o = Some a → Q a) → ends (S:=S) (non_null o e) Q.
Proof. destruct o; intros H s; simpl; auto. Qed.

Lemma ends_mapM {S A B} (f : A → M S B) (l : list A) (Q : B → Prop) :
  (∀ a, a ∈ l → ends (f a) Q) → ends (mapM_list f l) (Forall Q).
Proof.
  induction l as [|a l IH]; intros Hf; cbn [mapM_list]; [by apply ends_ret|].
  eapply ends_bind; [apply Hf; left|]. intros b Hb.
  eapply ends_bind; [apply IH; intros x Hx; apply Hf; by right|]. intros bs Hbs.
  apply ends_ret. by constructor.
Qed.

Lemma ends_opt_mapM {S A B} (f : A → M S B) (o : option A) (Q : B → Prop) :
  (∀ a, ends (f a) Q) → ends (opt_mapM f o) (λ r, ∀ b, r = Some b → Q b).
Proof.
  intros Hf. destruct o as [a|]; simpl; [|by apply ends_ret].
  eapply ends_bind; [apply Hf|]. intros b Hb. apply ends_ret. naive_solver.
Qed.

Lemma ends_try {S A} (m : M S A) (Q : A → Prop) :
  ends m Q → ends (try m) (λ r, ∀ a, r = inl a → Q a).
Proof.
  intros Hm s. specialize (Hm s). unfold try.
  destruct (m s) as [[a|e| |] s']; simpl in *; naive_solver.
Qed.

Lemma ends_alloc {U} : ends (@alloc U) (λ _, True).
Proof. intros [[[|n]|] u]; done. Qed.
#[export] Hint Resolve ends_ret ends_fail ends_alloc : ends.

(** [maintains P m Q]: from a state that satisfies [P], [m] leaves one that
    does, whatever its outcome, and a successful result satisfies [Q]. *)
Definition maintains {S A} (P : S → Prop) (m : M S A) (Q : A → Prop) : Prop :=
  ∀ s, P s → P (m s).2 ∧ match (m s).1 with Ok a => Q a | _ => True end.

(** The same for an invariant of the object alone. *)
Definition obj_inv {T S} (P : T → Prop) (s : T * S) : Prop := P s.1.

Lemma maintains_ret {S A} (P : S → Prop) (a : A) (Q : A → Prop) : Q a → maintains P (ret a) Q.
Proof. by intros H s Hs. Qed.

Lemma maintains_fail {S A} (P : S → Prop) e (Q : A → Prop) : maintains P (fail e) Q.
Proof. by intros s Hs. Qed.

Lemma maintains_hang {S A} (P : S → Prop) (Q : A → Prop) : maintains P hang Q.
Proof. by intros s Hs. Qed.

Lemma maintains_bind {S A B} (P : S → Prop) (m : M S A) (k : A → M S B) Q R :
  maintains P m Q → (∀ a, Q a → maintains P (k a) R) → maintains P (bind m k) R.
Proof.
  intros Hm Hk s Hs. destruct (Hm s Hs) as [Hs' Ha]. unfold bind.
  destruct (m s) as [[a|e| |] s']; try done. by apply Hk.
Qed.

Lemma maintains_mono {S A} (P : S → Prop) (m : M S A) (Q R : A → Prop) :
  maintains P m Q → (∀ a, Q a → R a) → maintains P m R.
Proof.
  intros Hm H s Hs. destruct (Hm s Hs) as [Hs' Ha]. split; [done|]. destruct (m s).1; auto.
Qed.

Lemma maintains_non_null {S A} (P : S → Prop) (o : option A) e (Q : A → Prop) :
  (∀ a, o = Some a → Q a) → maintains P (non_null o e) Q.
Proof. intros H s Hs. destruct o; simpl; auto. Qed.

(** What a computation returns, whatever the state. *)
Lemma maintains_lift {T S A} (P : T → Prop) (m : M S A) (Q : A → Prop) :
  maintains (λ _, True) m Q → maintains (obj_inv P) (lift m) Q.
Proof.
  intros Hm [t s] Ht. unfold lift. destruct (Hm s I) as [_ Ha].
  by destruct (m s) as [r s'].
Qed.

Lemma maintains_get_obj {T S} (P : T → Prop) : maintains (obj_inv (S:=S) P) get_obj P.
Proof. intros [t s] Ht. done. Qed.

Lemma maintains_put_obj {T S} (P : T → Prop) t :
  P t → maintains (obj_inv (S:=S) P) (put_obj t) (λ _, True).
Proof. intros Ht [t' s] _. done. Qed.

Lemma maintains_run {S A} (P : S → Prop) (m : M S A) (Q : A → Prop) s r s' :
  maintains P m Q → P s → m s = (r, s') → P s'.
Proof. intros Hm Hs E. destruct (Hm s Hs) as [H _]. by rewrite E in H. Qed.

(** * Generic lemmas *)

Lemma bind_ok {S A B} (m : M S A) (k : A → M S B) s a s' :
  m s = (Ok a, s') → bind m k s = k a s'.
Proof. intros H. unfold bind. by rewrite H. Qed.

Lemma bind_err {S A B} (m : M S A) (k : A → M S B) s e s' :
  m s = (Err e, s') → bind m k s = (Err e, s').
Proof. intros H. unfold bind. by rewrite H. Qed.

(** A successful sequence is a success of each part. *)
Lemma bind_ok_inv {S A B} (m : M S A) (k : A → M S B) s b s'' :
  bind m k s = (Ok b, s'') → ∃ a s', m s = (Ok a, s') ∧ k a s' = (Ok b, s'').
Proof.
  unfold bind. destruct (m s) as [[a|e| |] s'] eqn:E; intros H; [|done..].
  by exists a, s'.
Qed.

(** Loops and optional steps that leave the state alone. *)
Lemma mapM_list_run {S A B} (f : A → M S B) (g : A → B) (l : list A) s :
  Forall (λ a, f a s = (Ok (g a), s)) l → mapM_list f l s = (Ok (g <$> l), s).
Proof.
  induction 1 as [|a l Ha _ IH]; [done|]. cbn [mapM_list].
  by rewrite (bind_ok _ _ _ _ _ Ha), (bind_ok _ _ _ _ _ IH).
Qed.

Lemma opt_mapM_run {S A B} (f : A → M S B) (g : A → B) (o : option A) s :
  (∀ a, o = Some a → f a s = (Ok (g a), s)) → opt_mapM f o s = (Ok (g <$> o), s).
Proof.
  intros H. destruct o as [a|]; [|done]. simpl.
  by rewrite (bind_ok _ _ _ _ _ (H a eq_refl)).
Qed.

Lemma lift_run {T S A} (m : M S A) (t : T) s r s' :
  m s = (r, s') → lift m (t, s) = (r, (t, s')).
Proof. intros H. simpl. by rewrite H. Qed.

Lemma alloc_calm {U} (u : U) : alloc (calm u) = (Ok tt, calm u).
Proof. done. Qed.

Lemma u32_small z : is_u32 z → u32 z = z.
Proof. intros H. by apply Z.mod_small. Qed.

Lemma usize_small z : 0 <= z <= SIZE_MAX → usize z = z.
Proof. intros H. apply Z.mod_small. unfold SIZE_MAX in H. lia. Qed.

Lemma u32_range z : is_u32 (u32 z).
Proof. apply Z.mod_pos_bound. done. Qed.

Lemma zlen_app {A} (l k : list A) : zlen (l ++ k) = zlen l + zlen k.
Proof. unfold zlen. rewrite length_app. lia. Qed.

Lemma zlen_cons {A} (x : A) l : zlen (x :: l) = 1 + zlen l.
Proof. unfold zlen. simpl. lia. Qed.

Lemma zlen_nonneg {A} (l : list A) : 0 <= zlen l.
Proof. unfold zlen. lia. Qed.

Lemma zlen_length {A} (l : list A) n : zlen l = Z.of_nat n ↔ length l = n.
Proof. unfold zlen. lia. Qed.

Lemma filter_absent (l : list Z) c : c ∉ l → filter (.≠ c) l = l.
Proof.
  induction l as [|x l IH]; [done|]. intros [Hx Hn]%not_elem_of_cons.
  rewrite filter_cons_True by done. by rewrite IH.
Qed.

Lemma filter_present_perm (l : list Z) c :
  NoDup l → c ∈ l → c :: filter (.≠ c) l ≡ₚ l.
Proof.
  intros Hd Hc. apply list_elem_of_split in Hc as (l1 & l2 & ->).
  apply NoDup_app in Hd as (_ & H1 & [H2 _]%NoDup_cons).
  rewrite filter_app, filter_cons_False by naive_solver.
  rewrite !filter_absent by (done || (intros ?; eapply H1; [done|left])).
  apply Permutation_middle.
Qed.

(** A test that all bytes pass. *)
Lemma byte_forall (P : Z → bool) x : forallb P (Z.of_nat <$> seq 0 256) = true → is_byte x → P x = true.
Proof.
  rewrite forallb_forall. intros H Hx. apply H. apply list_elem_of_In, list_elem_of_fmap.
  unfold is_byte in Hx. exists (Z.to_nat x). split; [lia|]. apply elem_of_seq. lia.
Qed.
Lemma wf_bytes_app l k : wf_bytes (l ++ k) ↔ wf_bytes l ∧ wf_bytes k.
Proof. apply Forall_app. Qed.

Lemma wf_bytes_take n l : wf_bytes l → wf_bytes (take n l).
Proof. apply Forall_take. Qed.

Lemma wf_bytes_drop n l : wf_bytes l → wf_bytes (drop n l).
Proof. apply Forall_drop. Qed.

(** Steps through the head call of a goal [bind m k s = _]: by an equation for
    the call, or by giving its value and final state. *)
Tactic Notation "step" uconstr(H) := erewrite bind_ok by (apply H); cbn beta iota.
Tactic Notation "step_to" uconstr(a) uconstr(s) "by" tactic3(t) :=
  erewrite (bind_ok _ _ _ a s) by t; cbn beta iota.
Tactic Notation "step_goal" uconstr(a) uconstr(s) :=
  erewrite (bind_ok _ _ _ a s); [cbn beta iota|].

(** Steps through the head call of a goal [ends (bind m k) Q]. *)
Tactic Notation "ends_step" uconstr(H) := eapply ends_bind; [apply H | intros ? ?].

(** The same for [maintains P (bind m k) Q]. *)
Tactic Notation "keep_step" uconstr(H) := eapply maintains_bind; [apply H | intros ? ?].
