(* ===== verification/Buffer.v ===== *)
(** Buffers, lists of buffers and comparison helpers (signal_protocol.c).

    A [signal_buffer] is a byte list whose length is the C [len] field.  The
    lists ([signal_buffer_list], [signal_int_list]) are [UT_array]s: their
    elements and their capacity [n], which decides when [realloc] is called. *)

From S2P Require Import Prelude.

(** [sizeof(struct signal_buffer)]: a [size_t] and a flexible array. *)
Definition sizeof_signal_buffer : Z := 8.

Section Defs.
Context {U : Type}.

(** The contents of a fresh buffer are indeterminate in C; every caller
    overwrites them, and the model fills them with zeros. *)
Definition signal_buffer_alloc (len : Z) : M (world U) (option bytes) :=
  if SIZE_MAX - sizeof_signal_buffer <? len then ret None
  else
    let* ok := malloc in
    ret (if (ok : bool) then Some (replicate (Z.to_nat len) 0) else None).

Definition signal_buffer_create (data : bytes) : M (world U) (option bytes) :=
  let* buffer := signal_buffer_alloc (zlen data) in
  match buffer with
  | None => ret None
  | Some _ => ret (Some data)
  end.

Definition signal_buffer_copy (buffer : bytes) : M (world U) (option bytes) :=
  signal_buffer_create buffer.

Definition signal_buffer_n_copy (buffer : bytes) (n : Z) : M (world U) (option bytes) :=
  let len := Z.min (zlen buffer) n in
  signal_buffer_create (take (Z.to_nat len) buffer).

Definition signal_buffer_append (buffer data : bytes) : M (world U) (option bytes) :=
  let previous_alloc := sizeof_signal_buffer + zlen buffer in
  if SIZE_MAX - previous_alloc <? zlen data then ret None
  else
    let* ok := malloc in
    ret (if (ok : bool) then Some (buffer ++ data) else None).
End Defs.

(** The loop accumulates the differences of all [n] positions; [i] runs over
    both arrays, which hold at least [n] bytes. *)
Fixpoint constant_memcmp_loop (n : nat) (c1 c2 : bytes) (result : Z) : Z :=
  match n, c1, c2 with
  | S n, b1 :: c1, b2 :: c2 =>
      constant_memcmp_loop n c1 c2 (Z.lor result (Z.lxor b1 b2))
  | _, _, _ => result
  end.

Definition signal_constant_memcmp (s1 s2 : bytes) (n : nat) : Z :=
  constant_memcmp_loop n s1 s2 0.

(** [buffer1 == buffer2] compares pointers: equal pointers hold equal data, for
    which the last branch also gives 0. *)
Definition signal_buffer_compare (buffer1 buffer2 : option bytes) : Z :=
  match buffer1, buffer2 with
  | None, None => 0
  | None, Some _ => -1
  | Some _, None => 1
  | Some b1, Some b2 =>
      if zlen b1 <? zlen b2 then -1
      else if zlen b2 <? zlen b1 then 1
      else signal_constant_memcmp b1 b2 (length b1)
  end.

(** ** UT_array *)

Record ut_array (A : Type) : Type := UtArray { ut_elems : list A; ut_n : Z }.
Global Arguments UtArray {A} ut_elems ut_n.
Global Arguments ut_elems {A} u.
Global Arguments ut_n {A} u.

Definition utarray_len {A} (a : ut_array A) : Z := zlen (ut_elems a).

(** [while(i + by > n) n = n ? 2*n : 8]; 64 doublings exceed any [size_t]. *)
Fixpoint utarray_grow (fuel : nat) (need n : Z) : Z :=
  match fuel with
  | O => n
  | S fuel =>
      if n <? need then utarray_grow fuel need (if n =? 0 then 8 else 2 * n) else n
  end.

Global Arguments utarray_grow : simpl never.

Section Lists.
Context {U A : Type}.

Definition utarray_reserve (by_ : Z) : M (ut_array A * world U) unit :=
  let* a := get_obj in
  if ut_n a <? utarray_len a + by_ then
    let a' := UtArray (ut_elems a) (utarray_grow 64 (utarray_len a + by_) (ut_n a)) in
    let* _ := put_obj a' in
    let* ok := lift malloc in
    if (ok : bool) then ret tt else fail SG_ERR_NOMEM
  else ret tt.

Definition utarray_push_back (p : A) : M (ut_array A * world U) unit :=
  let* _ := utarray_reserve 1 in
  let* a := get_obj in
  put_obj (UtArray (ut_elems a ++ [p]) (ut_n a)).
End Lists.

(** ** signal_buffer_list and signal_int_list *)

(** Elements are pointers, null when a copy could not be allocated. *)
Abbreviation signal_buffer_list := (ut_array (option bytes)).
Abbreviation signal_int_list := (ut_array Z).

Section BufferList.
Context {U : Type}.

Definition signal_buffer_list_alloc : M (world U) (option signal_buffer_list) :=
  let* ok := malloc in
  if (ok : bool) then
    let* ok := malloc in
    ret (if (ok : bool) then Some (UtArray [] 0) else None)
  else ret None.

(** The loop body, for the indices [i, i + n) of the source list. *)
Fixpoint signal_buffer_list_copy_loop (n : nat) (i : nat)
    : M (signal_buffer_list * world U) unit :=
  match n with
  | O => ret tt
  | S n =>
      let* list := get_obj in
      match ut_elems list !! i with
      | Some (Some buffer) =>
          let* buffer_copy := lift (signal_buffer_copy buffer) in
          let* _ := utarray_push_back buffer_copy in
          signal_buffer_list_copy_loop n (S i)
      | _ => abort
      end
  end.

(** [utarray_push_back] is applied to [list->values], the source. *)
Definition signal_buffer_list_copy
    : M (signal_buffer_list * world U) (option signal_buffer_list) :=
  let* result_list := lift signal_buffer_list_alloc in
  match result_list with
  | None => ret None
  | Some result_list =>
      let* list := get_obj in
      let* r := lift (try (with_obj result_list (utarray_reserve (utarray_len list)))) in
      match r with
      | inr _ => ret None
      | inl (_, result_list) =>
          let* e := try (signal_buffer_list_copy_loop (length (ut_elems list)) 0) in
          match e with
          | inl _ => ret (Some result_list)
          | inr _ => ret None
          end
      end
  end.

Definition signal_buffer_list_push_back (buffer : option bytes)
    : M (signal_buffer_list * world U) unit :=
  utarray_push_back buffer.

Definition signal_buffer_list_size (list : signal_buffer_list) : Z := utarray_len list.

(** Both assertions fail the call. *)
Definition signal_buffer_list_at (list : signal_buffer_list) (index : Z)
    : res bytes :=
  if index <? utarray_len list then
    match ut_elems list !! Z.to_nat index with
    | Some (Some value) => Ok value
    | _ => Abort
    end
  else Abort.

Definition signal_int_list_alloc : M (world U) (option signal_int_list) :=
  let* ok := malloc in
  if (ok : bool) then
    let* ok := malloc in
    ret (if (ok : bool) then Some (UtArray [] 0) else None)
  else ret None.

Definition signal_int_list_push_back (value : Z) : M (signal_int_list * world U) unit :=
  utarray_push_back value.

Definition signal_int_list_size (list : signal_int_list) : Z := utarray_len list.

Definition signal_int_list_at (list : signal_int_list) (index : Z) : res Z :=
  if index <? utarray_len list then
    match ut_elems list !! Z.to_nat index with
    | Some value => Ok value
    | None => Abort
    end
  else Abort.
End BufferList.

(** ** Lemmas *)

Lemma signal_buffer_alloc_calm {U} (u : U) len :
  len <= SIZE_MAX - 8 →
  signal_buffer_alloc len (calm u) = (Ok (Some (replicate (Z.to_nat len) 0)), calm u).
Proof.
  intros H. unfold signal_buffer_alloc, sizeof_signal_buffer.
  by rewrite (proj2 (Z.ltb_ge _ _)) by lia.
Qed.

Lemma signal_buffer_create_calm {U} (u : U) data :
  zlen data <= SIZE_MAX - 8 →
  signal_buffer_create data (calm u) = (Ok (Some data), calm u).
Proof.
  intros H. unfold signal_buffer_create.
  by rewrite (bind_ok _ _ _ _ _ (signal_buffer_alloc_calm u _ H)).
Qed.

Lemma signal_buffer_append_calm {U} (u : U) buffer data :
  zlen buffer + zlen data <= SIZE_MAX - 8 →
  signal_buffer_append buffer data (calm u) = (Ok (Some (buffer ++ data)), calm u).
Proof.
  intros H. unfold signal_buffer_append, sizeof_signal_buffer.
  by rewrite (proj2 (Z.ltb_ge _ _)) by lia.
Qed.

Lemma ends_signal_buffer_alloc {U} len :
  ends (S:=world U) (signal_buffer_alloc len) (λ _, True).
Proof. intros [[[|n]|] u]; unfold signal_buffer_alloc; by destruct (_ <? _). Qed.

Lemma ends_signal_buffer_create {U} d :
  ends (S:=world U) (signal_buffer_create d) (λ r, ∀ b, r = Some b → b = d).
Proof.
  eapply ends_bind; [apply ends_signal_buffer_alloc|]. intros [b|] _; apply ends_ret; naive_solver.
Qed.

Lemma keeps_signal_buffer_alloc {U} len : keeps (@same_user U) (signal_buffer_alloc len).
Proof. unfold signal_buffer_alloc. keeps_solve. Qed.
#[export] Hint Resolve keeps_signal_buffer_alloc : keeps.
Lemma keeps_signal_buffer_create {U} d : keeps (@same_user U) (signal_buffer_create d).
Proof. unfold signal_buffer_create. keeps_solve. Qed.
Lemma keeps_signal_buffer_append {U} b d : keeps (@same_user U) (signal_buffer_append b d).
Proof. unfold signal_buffer_append. keeps_solve. Qed.
#[export] Hint Resolve keeps_signal_buffer_create keeps_signal_buffer_append : keeps.

(** *** Constant-time comparison *)

Lemma lor_byte a b : is_byte a → is_byte b → is_byte (Z.lor a b).
Proof.
  unfold is_byte. intros [? ?] [? ?]. split; [by apply Z.lor_nonneg|].
  destruct (decide (Z.lor a b = 0)) as [->|Hne]; [lia|].
  change 256 with (2 ^ 8). apply Z.log2_lt_pow2; [pose proof (proj2 (Z.lor_nonneg a b)); lia|].
  rewrite Z.log2_lor by done. apply Z.max_lub_lt.
  - destruct (decide (a = 0)) as [->|]; [done|]. apply Z.log2_lt_pow2; lia.
  - destruct (decide (b = 0)) as [->|]; [done|]. apply Z.log2_lt_pow2; lia.
Qed.

Lemma lxor_byte a b : is_byte a → is_byte b → is_byte (Z.lxor a b).
Proof.
  unfold is_byte. intros [? ?] [? ?]. split; [apply Z.lxor_nonneg; lia|].
  destruct (decide (Z.lxor a b = 0)) as [->|Hne]; [lia|].
  assert (0 <= Z.lxor a b) by (apply Z.lxor_nonneg; lia).
  change 256 with (2 ^ 8). apply Z.log2_lt_pow2; [lia|].
  eapply Z.le_lt_trans; [by apply Z.log2_lxor|]. apply Z.max_lub_lt.
  - destruct (decide (a = 0)) as [->|]; [done|]. apply Z.log2_lt_pow2; lia.
  - destruct (decide (b = 0)) as [->|]; [done|]. apply Z.log2_lt_pow2; lia.
Qed.

Lemma constant_memcmp_loop_zero n c1 c2 r :
  n = length c1 → n = length c2 →
  constant_memcmp_loop n c1 c2 r = 0 ↔ r = 0 ∧ c1 = c2.
Proof.
  revert c1 c2 r. induction n as [|n IH]; intros [|b1 c1] [|b2 c2] r H1 H2;
    simplify_eq/=; [naive_solver|].
  rewrite IH by done. rewrite Z.lor_eq_0_iff, Z.lxor_eq_0_iff. naive_solver.
Qed.

Lemma constant_memcmp_loop_byte n c1 c2 r :
  wf_bytes c1 → wf_bytes c2 → is_byte r → is_byte (constant_memcmp_loop n c1 c2 r).
Proof.
  intros H1. revert n c2 r. induction H1 as [|b1 c1 Hb H1 IH]; intros [|n] c2 r H2 Hr; try done.
  destruct H2 as [|b2 c2 Hb2 H2]; [done|]. simpl. apply IH; [done|].
  auto using lor_byte, lxor_byte.
Qed.

Lemma memcmp_eq_iff s1 s2 n :
  length s1 = n → length s2 = n → signal_constant_memcmp s1 s2 n = 0 ↔ s1 = s2.
Proof.
  intros H1 H2. unfold signal_constant_memcmp.
  rewrite constant_memcmp_loop_zero by done. naive_solver.
Qed.

(** *** Lists *)

Lemma utarray_push_back_calm {U A} (u : U) (p : A) a :
  ∃ n, utarray_push_back p (a, calm u) =
    (Ok tt, (UtArray (ut_elems a ++ [p]) n, calm u)).
Proof.
  unfold utarray_push_back, utarray_reserve. destruct a as [l n].
  unfold bind at 1, bind at 1. simpl.
  destruct (n <? _); simpl; eexists; reflexivity.
Qed.

Lemma utarray_reserve_calm {U A} (u : U) by_ (a : ut_array A) :
  ∃ n, utarray_reserve by_ (a, calm u) = (Ok tt, (UtArray (ut_elems a) n, calm u)).
Proof.
  unfold utarray_reserve. destruct a as [l n]. unfold bind at 1. simpl.
  destruct (n <? _); simpl; eexists; reflexivity.
Qed.

Lemma signal_buffer_list_copy_loop_calm {U} (u : U) (pre todo done_ : list bytes) n :
  Forall (λ b, zlen b <= SIZE_MAX - 8) todo →
  ∃ n', signal_buffer_list_copy_loop (length todo) (length pre)
    (UtArray (Some <$> (pre ++ todo ++ done_)) n, calm u)
  = (Ok tt, (UtArray (Some <$> (pre ++ todo ++ done_ ++ todo)) n', calm u)).
Proof.
  intros Hsz. revert pre done_ n. induction Hsz as [|b todo Hb Hsz IH]; intros pre done_ n.
  { exists n. simpl. unfold ret. by rewrite app_nil_r. }
  simpl. unfold bind at 1. simpl.
  rewrite list_lookup_fmap, lookup_app_r, Nat.sub_diag by lia. simpl.
  rewrite (bind_ok _ _ _ _ _ (lift_run _ _ _ _ _ (signal_buffer_create_calm u b Hb))).
  destruct (utarray_push_back_calm u (Some b)
    (UtArray (Some <$> (pre ++ b :: todo ++ done_)) n)) as [n1 Hp].
  rewrite (bind_ok _ _ _ _ _ Hp). simpl.
  destruct (IH (pre ++ [b]) (done_ ++ [b]) n1) as [n' HI].
  rewrite length_app in HI; simpl in HI. rewrite Nat.add_1_r in HI.
  exists n'.
  replace ((Some <$> (pre ++ b :: todo ++ done_)) ++ [Some b])
    with (Some <$> ((pre ++ [b]) ++ todo ++ done_ ++ [b]))
    by (rewrite !fmap_app, !fmap_cons, !fmap_app, <-!app_assoc; simpl; by rewrite <-?app_assoc).
  rewrite HI. by rewrite <-!app_assoc.
Qed.

(** [signal_buffer_list_copy] returns an empty list and doubles the list it
    was asked to copy: the loop appends to [list] instead of [result_list]. *)
Theorem signal_buffer_list_copy_bug {U} (u : U) (l : list bytes) (n : Z) :
  Forall (λ b, zlen b <= SIZE_MAX - 8) l →
  ∃ r n', signal_buffer_list_copy (UtArray (Some <$> l) n, calm u)
    = (Ok (Some r), (UtArray (Some <$> (l ++ l)) n', calm u))
  ∧ ut_elems r = [].
Proof.
  intros Hsz. set (src := UtArray (Some <$> l) n : signal_buffer_list).
  destruct (utarray_reserve_calm u (utarray_len src)
    (UtArray [] 0 : signal_buffer_list)) as [m Hr].
  destruct (signal_buffer_list_copy_loop_calm u [] l [] n Hsz) as [n' HL].
  simpl in HL. rewrite !app_nil_r in HL.
  exists (UtArray [] m), n'. split; [|done]. unfold signal_buffer_list_copy.
  step_to (Some (UtArray [] 0)) (src, calm u) by done.
  step_to src (src, calm u) by done.
  step_to (inl (tt, UtArray [] m)) (src, calm u)
    by (unfold lift, try, with_obj; by rewrite Hr).
  unfold bind, try. simpl. rewrite length_fmap. fold src in HL. by rewrite HL.
Qed.

Lemma signal_buffer_list_copy_bug_witness :
  ∃ r n', signal_buffer_list_copy (UtArray (Some <$> [[1]; [2; 3]]) 8, calm tt)
    = (Ok (Some r), (UtArray (Some <$> ([[1]; [2; 3]] ++ [[1]; [2; 3]])) n', calm tt))
  ∧ ut_elems r = [].
Proof.
  apply (signal_buffer_list_copy_bug tt [[1]; [2; 3]] 8).
  repeat constructor; discriminate.
Defined.
