(* ===== verification/Provider.v ===== *)
(** The two cryptographic interfaces the library is built on.

    [CryptoProvider]: the callbacks of [signal_crypto_provider] that the
    application installs with [signal_context_set_crypto_provider]; they are
    not part of the sources.  [Curve25519]: the entry points of the
    src/curve25519 tree that curve.c calls.  The law classes state the
    documented behaviour that individual theorems rely on. *)

From S2P Require Import Prelude.

Class CryptoProvider (U : Type) : Type := {
  hmac_ctx : Type;
  hmac_sha256_init_func : bytes → res hmac_ctx;
  hmac_sha256_update_func : hmac_ctx → bytes → res hmac_ctx;
  hmac_sha256_final_func : hmac_ctx → res bytes;
  random_func : nat → U → res bytes * U;
  (** cipher, key, iv, text *)
  encrypt_func : Z → bytes → bytes → bytes → res bytes;
  decrypt_func : Z → bytes → bytes → bytes → res bytes
}.

Class Curve25519 : Type := {
  (** secret, point: the returned [int] and the 32 output bytes *)
  curve25519_donna : bytes → bytes → Z * bytes;
  (** private key, message, random: the returned [int] and the signature *)
  curve25519_sign : bytes → bytes → bytes → Z * bytes;
  (** signature, public key, message; 0 on success *)
  curve25519_verify : bytes → bytes → bytes → Z
}.

Definition SG_CIPHER_AES_CTR_NOPADDING : Z := 1.
Definition SG_CIPHER_AES_CBC_PKCS5 : Z := 2.

(** ** The wrappers of signal_protocol.c *)

Section Wrappers.
Context {U : Type} {CP : CryptoProvider U}.

Definition signal_crypto_random (len : nat) : M (world U) bytes :=
  callback (random_func len).
Definition signal_hmac_sha256_init (key : bytes) : M (world U) hmac_ctx :=
  of_res (hmac_sha256_init_func key).
Definition signal_hmac_sha256_update (c : hmac_ctx) (data : bytes) : M (world U) hmac_ctx :=
  of_res (hmac_sha256_update_func c data).
Definition signal_hmac_sha256_final (c : hmac_ctx) : M (world U) bytes :=
  of_res (hmac_sha256_final_func c).
Definition signal_encrypt (cipher : Z) (key iv plaintext : bytes) : M (world U) bytes :=
  of_res (encrypt_func cipher key iv plaintext).
Definition signal_decrypt (cipher : Z) (key iv ciphertext : bytes) : M (world U) bytes :=
  of_res (decrypt_func cipher key iv ciphertext).
End Wrappers.

(** ** Laws *)

(** The callbacks compute a keyed function of the concatenated input and its
    output is 32 bytes: the definition of HMAC-SHA256 as a stream interface. *)
Class HmacLaws {U} (CP : CryptoProvider U) : Type := {
  hmac : bytes → bytes → bytes;
  hmac_abs : hmac_ctx → bytes → bytes → Prop;
  hmac_init_ok k : ∃ c, hmac_sha256_init_func k = Ok c ∧ hmac_abs c k [];
  hmac_update_ok c k d x : hmac_abs c k d →
    ∃ c', hmac_sha256_update_func c x = Ok c' ∧ hmac_abs c' k (d ++ x);
  hmac_final_ok c k d : hmac_abs c k d → hmac_sha256_final_func c = Ok (hmac k d);
  hmac_length k d : length (hmac k d) = 32%nat
}.

(** The inputs the library gives the cipher callbacks: one of the two AES
    modes, a 32-byte key and a 16-byte iv. *)
Definition cipher_input (c : Z) (k iv : bytes) : Prop :=
  (c = SG_CIPHER_AES_CTR_NOPADDING ∨ c = SG_CIPHER_AES_CBC_PKCS5) ∧
  length k = 32%nat ∧ length iv = 16%nat.

(** On such inputs [encrypt] succeeds and [decrypt] undoes it. *)
Class CipherLaws {U} (CP : CryptoProvider U) : Type := {
  cipher_enc : Z → bytes → bytes → bytes → bytes;
  encrypt_ok c k iv p : cipher_input c k iv → encrypt_func c k iv p = Ok (cipher_enc c k iv p);
  decrypt_encrypt c k iv p : cipher_input c k iv →
    decrypt_func c k iv (cipher_enc c k iv p) = Ok p
}.

(** The random source fills the buffer it is given. *)
Class RandomLaws {U} (CP : CryptoProvider U) : Type := {
  random_ok n u : ∃ bs u', random_func n u = (Ok bs, u') ∧ length bs = n;
  random_wf n u bs u' : random_func n u = (Ok bs, u') → wf_bytes bs
}.

(** The encoding of the base point. *)
Definition basepoint : bytes := 9 :: replicate 31 0.

(** Diffie-Hellman: [donna] never fails, yields 32 bytes, and the shared secret
    does not depend on who computes it. *)
Class DhLaws (C : Curve25519) : Type := {
  dh : bytes → bytes → bytes;
  donna_ok s p : curve25519_donna s p = (0, dh s p);
  dh_length s p : length (dh s p) = 32%nat;
  dh_comm a b : dh a (dh b basepoint) = dh b (dh a basepoint)
}.

(** The form of a Curve25519 private key: 32 bytes, the low three bits of the first
    byte clear and the top two bits of the last byte 01. *)
Definition clamped (sk : bytes) : Prop :=
  length sk = 32%nat ∧ wf_bytes sk ∧ ∃ b0 b31, sk !! 0%nat = Some b0 ∧ sk !! 31%nat = Some b31 ∧
    Z.land b0 7 = 0 ∧ Z.testbit b31 6 = true ∧ Z.testbit b31 7 = false.

(** Signatures made with such a private key verify under its public key. *)
Class SignLaws (C : Curve25519) (D : DhLaws C) : Type := {
  sign_ok sk msg rnd : clamped sk →
    ∃ sig, curve25519_sign sk msg rnd = (0, sig) ∧ length sig = 64%nat;
  sign_verify sk msg rnd sig : clamped sk → curve25519_sign sk msg rnd = (0, sig) →
    curve25519_verify sig (dh sk basepoint) msg = 0
}.

Lemma keeps_of_res_user {U A} (r : res A) : keeps (@same_user U) (of_res r).
Proof. apply keeps_of_res, _. Qed.

Section Keeps.
Context {U : Type} {CP : CryptoProvider U}.
Lemma keeps_hmac_init k : keeps (@same_user U) (signal_hmac_sha256_init k).
Proof. apply keeps_of_res, _. Qed.
Lemma keeps_hmac_update c d : keeps (@same_user U) (signal_hmac_sha256_update c d).
Proof. apply keeps_of_res, _. Qed.
Lemma keeps_hmac_final c : keeps (@same_user U) (signal_hmac_sha256_final c).
Proof. apply keeps_of_res, _. Qed.
Lemma keeps_signal_encrypt c k i p : keeps (@same_user U) (signal_encrypt c k i p).
Proof. apply keeps_of_res, _. Qed.
Lemma keeps_signal_decrypt c k i p : keeps (@same_user U) (signal_decrypt c k i p).
Proof. apply keeps_of_res, _. Qed.
End Keeps.
#[export] Hint Resolve keeps_hmac_init keeps_hmac_update keeps_hmac_final
  keeps_signal_encrypt keeps_signal_decrypt : keeps.

(** One-chunk HMAC, the shape of most calls. *)
Lemma hmac_once {U} {CP : CryptoProvider U} {HL : HmacLaws CP} (w : world U) k d :
  (let* c := signal_hmac_sha256_init k in
   let* c := signal_hmac_sha256_update c d in
   signal_hmac_sha256_final c) w = (Ok (hmac k d), w).
Proof.
  destruct (hmac_init_ok k) as (c & Hi & Ha).
  destruct (hmac_update_ok c k [] d Ha) as (c' & Hu & Ha').
  unfold bind, signal_hmac_sha256_init, signal_hmac_sha256_update,
    signal_hmac_sha256_final, of_res.
  by rewrite Hi, Hu, (hmac_final_ok _ _ _ Ha').
Qed.

(** ** A concrete provider

    Not cryptography: a small computable instance of the interfaces, which
    shows that the laws can hold and lets examples run. *)
Module Toy.
Definition mix (acc b : Z) : Z := (acc * 31 + b + 7) `mod` 65536.
Definition digest (k d : bytes) : Z := foldl mix 1 (k ++ [zlen k `mod` 256] ++ d).
Definition expand (seed : Z) (n : nat) : bytes :=
  (λ i, (seed / 256 + seed * Z.of_nat i + Z.of_nat i) `mod` 256) <$> seq 0 n.
Definition hmac_fun (k d : bytes) : bytes := expand (digest k d) 32.
Definition stream (c : Z) (k iv : bytes) (n : nat) : bytes :=
  expand (digest (c :: k) iv) n.
Definition crypt (c : Z) (k iv p : bytes) : bytes :=
  zip_with Z.lxor p (stream c k iv (length p)).

(** The user data is the seed of the random source. *)
#[export] Instance provider : CryptoProvider Z := {|
  hmac_ctx := bytes * bytes;
  hmac_sha256_init_func k := Ok (k, []);
  hmac_sha256_update_func c x := Ok (c.1, c.2 ++ x);
  hmac_sha256_final_func c := Ok (hmac_fun c.1 c.2);
  random_func n u := (Ok (expand (u + 1) n), u + 1);
  encrypt_func c k iv p := Ok (crypt c k iv p);
  decrypt_func c k iv p := Ok (crypt c k iv p)
|}.

Lemma expand_length s n : length (expand s n) = n.
Proof. unfold expand. by rewrite length_fmap, length_seq. Qed.

Lemma wf_expand s n : wf_bytes (expand s n).
Proof.
  unfold expand. apply Forall_fmap, Forall_forall. intros i _. by apply Z.mod_pos_bound.
Qed.

Lemma crypt_length c k iv p : length (crypt c k iv p) = length p.
Proof.
  unfold crypt, stream. rewrite length_zip_with, expand_length. lia.
Qed.

Lemma lxor_zip_twice p q :
  length p = length q → zip_with Z.lxor (zip_with Z.lxor p q) q = p.
Proof.
  revert q. induction p as [|x p IH]; intros [|y q] H; simplify_eq/=; [done|].
  rewrite IH by done. f_equal.
  by rewrite Z.lxor_assoc, Z.lxor_nilpotent, Z.lxor_0_r.
Qed.

#[export] Instance hmac_laws : HmacLaws provider.
Proof.
  refine {| hmac := hmac_fun; hmac_abs c k d := c = (k, d);
            hmac_length k d := expand_length _ _ |}.
  - intros k. by exists (k, []).
  - intros c k d x ->. by exists (k, d ++ x).
  - by intros c k d ->.
Defined.

#[export] Instance cipher_laws : CipherLaws provider.
Proof.
  refine {| cipher_enc := crypt; encrypt_ok c k iv p _ := eq_refl |}.
  intros c k iv p _. simpl. f_equal. unfold crypt at 1.
  rewrite crypt_length. unfold crypt. apply lxor_zip_twice.
  unfold stream. by rewrite expand_length.
Defined.

#[export] Instance random_laws : RandomLaws provider.
Proof.
  constructor.
  - intros n u. simpl. eexists _, _. split; [done|]. apply expand_length.
  - intros n u bs u' [= <- _]. apply wf_expand.
Defined.

(** Scalar multiplication modulo a prime on one byte, padded to 32. *)
Definition scalar (s : bytes) : Z := foldr (λ b acc, (b + 7 * acc) `mod` 65536) 1 s.
Definition exp_byte (s p : bytes) : Z :=
  (scalar s * default 0 (head p)) `mod` 251.
Definition dh_fun (s p : bytes) : bytes := exp_byte s p :: replicate 31 0.

#[export] Instance curve : Curve25519 := {|
  curve25519_donna s p := (0, dh_fun s p);
  curve25519_sign sk msg rnd := (0, hmac_fun (dh_fun sk basepoint) msg ++ replicate 32 0);
  curve25519_verify sig pk msg :=
    if decide (take 32 sig = hmac_fun pk msg) then 0 else -1
|}.

#[export] Instance dh_laws : DhLaws curve.
Proof.
  refine {| dh := dh_fun; donna_ok s p := eq_refl; dh_length s p := eq_refl |}.
  intros a b. unfold dh_fun, exp_byte. simpl. f_equal.
  rewrite !Z.mul_mod_idemp_r by done. f_equal. lia.
Defined.

#[export] Instance sign_laws : SignLaws curve dh_laws.
Proof.
  constructor.
  - intros. eexists. split; [reflexivity|].
    unfold hmac_fun. by rewrite length_app, expand_length.
  - intros sk msg rnd sig _ H%(f_equal snd). change (hmac_fun (dh_fun sk basepoint) msg
      ++ replicate 32 0 = sig) in H. subst sig.
    unfold curve25519_verify, curve, dh, dh_laws.
    rewrite take_app_length' by (symmetry; apply expand_length).
    by rewrite decide_True.
Defined.
End Toy.
