(* ===== verification/Hkdf.v ===== *)
(** HMAC-based key derivation (hkdf.c). *)

From S2P Require Import Prelude Buffer Provider.

Definition HASH_OUTPUT_SIZE : Z := 32.

Record hkdf_context : Type := HkdfContext { iteration_start_offset : Z }.

#[export] Instance hkdf_context_eq_dec : EqDecision hkdf_context.
Proof. solve_decision. Defined.

Section Defs.
Context {U : Type} {CP : CryptoProvider U}.

Definition hkdf_create (message_version : Z) : M (world U) hkdf_context :=
  let* _ := alloc in
  if message_version =? 2 then ret (HkdfContext 0)
  else if message_version =? 3 then ret (HkdfContext 1)
  else fail SG_ERR_INVAL.

Definition hkdf_extract (context : hkdf_context) (salt input_key_material : bytes)
    : M (world U) bytes :=
  let* hmac_context := signal_hmac_sha256_init salt in
  let* hmac_context := signal_hmac_sha256_update hmac_context input_key_material in
  let* mac_buffer := signal_hmac_sha256_final hmac_context in
  let* _ := alloc in
  ret mac_buffer.

(** One pass of the loop body: the next step buffer. *)
Definition hkdf_step (prk : bytes) (step_buffer info : option bytes) (i : Z)
    : M (world U) bytes :=
  let* h := signal_hmac_sha256_init prk in
  let* h := match step_buffer with
            | Some b => signal_hmac_sha256_update h b
            | None => ret h
            end in
  let* h := match info with
            | Some b => signal_hmac_sha256_update h b
            | None => ret h
            end in
  let* h := signal_hmac_sha256_update h [i] in
  signal_hmac_sha256_final h.

(** [for(i = start; i < iterations + offset; i++)] with a [uint8_t] counter;
    each unit of fuel is one evaluation of the loop condition. *)
Fixpoint hkdf_expand_loop (fuel : nat) (limit : Z) (prk : bytes) (info : option bytes)
    (i remaining_len : Z) (step_buffer result_buf : option bytes)
    : M (world U) (option bytes) :=
  match fuel with
  | O => hang
  | S fuel =>
      if i <? limit then
        let* step := hkdf_step prk step_buffer info i in
        let step_size := Z.min remaining_len (zlen step) in
        let* _ := alloc in
        let result_buf' := default [] result_buf ++ take (Z.to_nat step_size) step in
        hkdf_expand_loop fuel limit prk info (u8 (i + 1)) (remaining_len - step_size)
          (Some step) (Some result_buf')
      else ret result_buf
  end.

(** [(int)ceil((double)output_len / 32)]; the double division is exact for
    every length below 2^53. *)
Definition hkdf_iterations (output_len : Z) : Z :=
  (output_len + (HASH_OUTPUT_SIZE - 1)) / HASH_OUTPUT_SIZE.

(** At most 256 evaluations of the condition happen before the counter wraps
    around; a loop still running then never ends ([hkdf_expand_diverges]). *)
Definition hkdf_expand (context : hkdf_context) (prk : bytes) (info : option bytes)
    (output_len : Z) : M (world U) bytes :=
  let limit := hkdf_iterations output_len + iteration_start_offset context in
  let* result_buf := hkdf_expand_loop 257 limit prk info
    (u8 (iteration_start_offset context)) output_len None None in
  ret (default [] result_buf).

Definition hkdf_derive_secrets (context : hkdf_context)
    (input_key_material salt : bytes) (info : option bytes) (output_len : Z)
    : M (world U) bytes :=
  let* prk := hkdf_extract context salt input_key_material in
  hkdf_expand context prk info output_len.

Definition hkdf_compare (context1 context2 : option hkdf_context) : Z :=
  match context1, context2 with
  | None, None => 0
  | None, Some _ => -1
  | Some _, None => 1
  | Some c1, Some c2 =>
      if iteration_start_offset c1 <? iteration_start_offset c2 then -1
      else if iteration_start_offset c2 <? iteration_start_offset c1 then 1
      else 0
  end.
End Defs.
Global Arguments hkdf_expand_loop : simpl never.

(** ** Reference: RFC 5869 *)

Section Spec.
Context {U : Type} {CP : CryptoProvider U} {HL : HmacLaws CP}.

(** T(c), T(c+1), ..., T(c+n-1) concatenated, given T(c-1). *)
Fixpoint rfc_T (prk info prev : bytes) (c : Z) (n : nat) : bytes :=
  match n with
  | O => []
  | S n =>
      let t := hmac prk (prev ++ info ++ [c]) in
      t ++ rfc_T prk info t (c + 1) n
  end.

Definition rfc_expand (offset : Z) (prk info : bytes) (output_len : Z) : bytes :=
  take (Z.to_nat output_len)
    (rfc_T prk info [] offset (Z.to_nat (hkdf_iterations output_len))).

Definition rfc_hkdf (offset : Z) (ikm salt info : bytes) (output_len : Z) : bytes :=
  rfc_expand offset (hmac salt ikm) info output_len.

(** ** Lemmas *)

Lemma rfc_T_length prk info prev c n : length (rfc_T prk info prev c n) = (32 * n)%nat.
Proof.
  revert prev c. induction n as [|n IH]; intros prev c; [done|].
  simpl. rewrite length_app, hmac_length, IH. lia.
Qed.

Lemma hkdf_iterations_spec L :
  0 <= L → 32 * hkdf_iterations L - 32 < L <= 32 * hkdf_iterations L.
Proof. intros H. unfold hkdf_iterations, HASH_OUTPUT_SIZE. Z.to_euclidean_division_equations. lia. Qed.

Lemma rfc_expand_length offset prk info L :
  0 <= L → zlen (rfc_expand offset prk info L) = L.
Proof.
  intros H. unfold rfc_expand, zlen. rewrite length_take, rfc_T_length.
  pose proof (hkdf_iterations_spec L H). lia.
Qed.

Lemma rfc_hkdf_length offset ikm salt info L :
  0 <= L → zlen (rfc_hkdf offset ikm salt info L) = L.
Proof. apply rfc_expand_length. Qed.

Lemma hkdf_step_run (w : world U) prk step info i :
  hkdf_step prk step (Some info) i w
  = (Ok (hmac prk (default [] step ++ info ++ [i])), w).
Proof.
  unfold hkdf_step, signal_hmac_sha256_init, signal_hmac_sha256_update,
    signal_hmac_sha256_final, of_res, bind.
  destruct (hmac_init_ok prk) as (c & -> & Ha). destruct step as [b|].
  - destruct (hmac_update_ok c prk [] b Ha) as (c1 & -> & Ha1).
    destruct (hmac_update_ok c1 prk _ info Ha1) as (c2 & -> & Ha2).
    destruct (hmac_update_ok c2 prk _ [i] Ha2) as (c3 & -> & Ha3).
    rewrite (hmac_final_ok _ _ _ Ha3). simpl. by rewrite <-app_assoc.
  - simpl. destruct (hmac_update_ok c prk _ info Ha) as (c2 & -> & Ha2).
    destruct (hmac_update_ok c2 prk _ [i] Ha2) as (c3 & -> & Ha3).
    by rewrite (hmac_final_ok _ _ _ Ha3).
Qed.

Lemma hkdf_expand_loop_head (u : U) fuel limit prk info i rem step buf :
  i < limit →
  hkdf_expand_loop (S fuel) limit prk (Some info) i rem step buf (calm u) =
  let t := hmac prk (default [] step ++ info ++ [i]) in
  let sz := Z.min rem 32 in
  hkdf_expand_loop fuel limit prk (Some info) (u8 (i + 1)) (rem - sz) (Some t)
    (Some (default [] buf ++ take (Z.to_nat sz) t)) (calm u).
Proof.
  intros Hi. unfold hkdf_expand_loop at 1; fold (hkdf_expand_loop (CP:=CP)).
  rewrite (proj2 (Z.ltb_lt _ _) Hi). step (hkdf_step_run (calm u)).
  step (alloc_calm u). unfold zlen. by rewrite hmac_length.
Qed.

Lemma hkdf_expand_loop_run (u : U) prk info k :
  ∀ fuel i rem step buf,
  (k < fuel)%nat → 0 <= i → i + Z.of_nat k <= 255 →
  32 * Z.of_nat k - 32 < rem <= 32 * Z.of_nat k → 0 <= rem →
  hkdf_expand_loop fuel (i + Z.of_nat k) prk (Some info) i rem step buf (calm u) =
  (Ok (match k with
       | O => buf
       | _ => Some (default [] buf ++
                take (Z.to_nat rem) (rfc_T prk info (default [] step) i k))
       end), calm u).
Proof.
  induction k as [|k IH]; intros fuel i rem step buf Hf Hi Hm Hrem Hr;
    (destruct fuel as [|fuel]; [lia|]).
  { unfold hkdf_expand_loop. by rewrite (proj2 (Z.ltb_ge _ _)) by lia. }
  rewrite hkdf_expand_loop_head by lia. cbn zeta.
  set (t := hmac prk _).
  assert (u8 (i + 1) = i + 1) as -> by (apply Z.mod_small; lia).
  replace (i + Z.of_nat (S k)) with (i + 1 + Z.of_nat k) by lia.
  rewrite IH by lia. f_equal. f_equal.
  assert (length t = 32%nat) as Ht by apply hmac_length.
  assert (take (Z.to_nat rem) (rfc_T prk info (default [] step) i (S k)) =
    take (Z.to_nat (rem `min` 32)) t ++
    take (Z.to_nat (rem - rem `min` 32)) (rfc_T prk info t (i + 1) k)) as ->.
  { simpl rfc_T. fold t. rewrite take_app, Ht. f_equal; [|f_equal; lia].
    destruct (decide (rem <= 32)); [f_equal; lia|].
    rewrite !take_ge by lia. done. }
  destruct k; simpl default; [|by rewrite app_assoc].
  replace (rem - rem `min` 32) with 0 by lia. simpl take. by rewrite !app_nil_r.
Qed.

Lemma hkdf_expand_run (u : U) ctx prk info L :
  0 <= L → 0 <= iteration_start_offset ctx →
  hkdf_iterations L + iteration_start_offset ctx <= 255 →
  hkdf_expand ctx prk (Some info) L (calm u)
  = (Ok (rfc_expand (iteration_start_offset ctx) prk info L), calm u).
Proof.
  intros HL0 Ho Hb. unfold hkdf_expand.
  pose proof (hkdf_iterations_spec L HL0).
  set (k := Z.to_nat (hkdf_iterations L)).
  replace (hkdf_iterations L + iteration_start_offset ctx)
    with (iteration_start_offset ctx + Z.of_nat k) by lia.
  assert (u8 (iteration_start_offset ctx) = iteration_start_offset ctx) as ->
    by (apply Z.mod_small; lia).
  step (hkdf_expand_loop_run u prk info k 257 (iteration_start_offset ctx) L None None
    ltac:(lia) ltac:(lia) ltac:(lia) ltac:(lia) ltac:(lia)).
  unfold ret, rfc_expand. fold k. destruct k; [|done].
  simpl. by rewrite take_nil.
Qed.

Lemma hkdf_extract_run (u : U) ctx salt ikm :
  hkdf_extract ctx salt ikm (calm u) = (Ok (hmac salt ikm), calm u).
Proof.
  unfold hkdf_extract, signal_hmac_sha256_init, signal_hmac_sha256_update,
    signal_hmac_sha256_final, of_res, bind.
  destruct (hmac_init_ok salt) as (c & -> & Ha).
  destruct (hmac_update_ok c salt _ ikm Ha) as (c1 & -> & Ha1).
  by rewrite (hmac_final_ok _ _ _ Ha1).
Qed.

Lemma hkdf_derive_secrets_run (u : U) ctx ikm salt info L :
  0 <= L → 0 <= iteration_start_offset ctx →
  hkdf_iterations L + iteration_start_offset ctx <= 255 →
  hkdf_derive_secrets ctx ikm salt (Some info) L (calm u)
  = (Ok (rfc_hkdf (iteration_start_offset ctx) ikm salt info L), calm u).
Proof.
  intros. unfold hkdf_derive_secrets. step (hkdf_extract_run u).
  by apply hkdf_expand_run.
Qed.


(** C39: when the number of blocks plus the start offset exceeds 255, the
    [uint8_t] loop counter of [hkdf_expand] wraps around and the loop never
    ends, whatever the fuel. *)
Theorem hkdf_expand_diverges (u : U) ctx prk info L fuel :
  255 < hkdf_iterations L + iteration_start_offset ctx →
  hkdf_expand_loop fuel (hkdf_iterations L + iteration_start_offset ctx) prk (Some info)
    (u8 (iteration_start_offset ctx)) L None None (calm u) = (Hang, calm u).
Proof.
  intros Hb. set (limit := hkdf_iterations L + _) in *.
  assert (∀ i rem step buf, 0 <= i < 256 →
    hkdf_expand_loop fuel limit prk (Some info) i rem step buf (calm u) = (Hang, calm u))
    as Hgo.
  { induction fuel as [|fuel IH]; intros i rem step buf Hi; [done|].
    rewrite hkdf_expand_loop_head by lia. apply IH, Z.mod_pos_bound. done. }
  apply Hgo, Z.mod_pos_bound. done.
Qed.
End Spec.

Lemma keeps_hkdf_create {U} v : keeps (@same_user U) (hkdf_create v).
Proof. unfold hkdf_create. keeps_solve. Qed.
#[export] Hint Resolve keeps_hkdf_create : keeps.

Section Keeps.
Context {U : Type} {CP : CryptoProvider U}.
Lemma keeps_hkdf_step p s i n : keeps (@same_user U) (hkdf_step p s i n).
Proof. unfold hkdf_step. keeps_solve. Qed.
Local Hint Resolve keeps_hkdf_step : keeps.
Lemma keeps_hkdf_expand_loop f l p i n r s b :
  keeps (@same_user U) (hkdf_expand_loop f l p i n r s b).
Proof.
  revert n r s b. induction f as [|f IH]; intros n r s b; unfold hkdf_expand_loop;
    fold (hkdf_expand_loop (CP:=CP)); keeps_solve.
Qed.
Local Hint Resolve keeps_hkdf_expand_loop : keeps.
Lemma keeps_hkdf_derive_secrets c i s n l :
  keeps (@same_user U) (hkdf_derive_secrets c i s n l).
Proof. unfold hkdf_derive_secrets, hkdf_extract, hkdf_expand. keeps_solve. Qed.
End Keeps.
#[export] Hint Resolve keeps_hkdf_derive_secrets : keeps.

Import Toy.


Lemma hkdf_expand_diverges_witness :
  hkdf_expand_loop 1000 (hkdf_iterations (255 * 32) + iteration_start_offset (HkdfContext 1))
    [1] (Some [2]) (u8 (iteration_start_offset (HkdfContext 1))) (255 * 32) None None
    (calm 0) = (Hang, calm 0).
Proof. apply (hkdf_expand_diverges (CP:=Toy.provider)). reflexivity. Defined.
