(* ===== verification/Curve.v ===== *)
(** Keys, key encoding and key agreement (curve.c). *)

From S2P Require Import Prelude Buffer Provider.

Definition DJB_TYPE : Z := 5.
Definition DJB_KEY_LEN : Z := 32.
Definition CURVE_SIGNATURE_LEN : Z := 64.

Record ec_public_key : Type := EcPublicKey { pk_data : bytes }.
Record ec_private_key : Type := EcPrivateKey { sk_data : bytes }.
Record ec_key_pair : Type := EcKeyPair { kp_public : ec_public_key; kp_private : ec_private_key }.

#[export] Instance ec_public_key_eq_dec : EqDecision ec_public_key.
Proof. solve_decision. Defined.
#[export] Instance ec_private_key_eq_dec : EqDecision ec_private_key.
Proof. solve_decision. Defined.
#[export] Instance ec_key_pair_eq_dec : EqDecision ec_key_pair.
Proof. solve_decision. Defined.

(** [memcmp]: the C standard fixes the sign of the result. *)
Fixpoint memcmp (n : nat) (s1 s2 : bytes) : Z :=
  match n, s1, s2 with
  | S n, b1 :: s1, b2 :: s2 =>
      if b1 <? b2 then -1 else if b2 <? b1 then 1 else memcmp n s1 s2
  | _, _, _ => 0
  end.

(** The pointer test [key1 == key2] is subsumed by the last branch. *)
Definition ec_public_key_compare (key1 key2 : option ec_public_key) : Z :=
  match key1, key2 with
  | None, None => 0
  | None, Some _ => -1
  | Some _, None => 1
  | Some k1, Some k2 => signal_constant_memcmp (pk_data k1) (pk_data k2) 32
  end.

Definition ec_public_key_memcmp (key1 key2 : option ec_public_key) : Z :=
  match key1, key2 with
  | None, None => 0
  | None, Some _ => -1
  | Some _, None => 1
  | Some k1, Some k2 => memcmp 32 (pk_data k1) (pk_data k2)
  end.

Definition ec_private_key_compare (key1 key2 : option ec_private_key) : Z :=
  match key1, key2 with
  | None, None => 0
  | None, Some _ => -1
  | Some _, None => 1
  | Some k1, Some k2 => signal_constant_memcmp (sk_data k1) (sk_data k2) 32
  end.

Definition ec_key_pair_get_public (key_pair : ec_key_pair) : ec_public_key := kp_public key_pair.
Definition ec_key_pair_get_private (key_pair : ec_key_pair) : ec_private_key := kp_private key_pair.

Section Encoding.
Context {U : Type}.

Definition curve_decode_point (key_data : bytes) : M (world U) ec_public_key :=
  if (0 <? zlen key_data) && negb (default 0 (head key_data) =? DJB_TYPE)
  then fail SG_ERR_INVALID_KEY
  else if negb (zlen key_data =? DJB_KEY_LEN + 1) then fail SG_ERR_INVALID_KEY
  else
    let* _ := alloc in
    ret (EcPublicKey (take 32 (drop 1 key_data))).

Definition ec_public_key_serialize (key : option ec_public_key) : M (world U) bytes :=
  match key with
  | None => fail SG_ERR_INVAL
  | Some key =>
      let* buf := signal_buffer_alloc (DJB_KEY_LEN + 1) in
      let* _ := non_null buf SG_ERR_NOMEM in
      ret (DJB_TYPE :: take 32 (pk_data key))
  end.

Definition ec_public_key_serialize_protobuf (key : ec_public_key) : M (world U) bytes :=
  let* _ := alloc in
  ret (DJB_TYPE :: take 32 (pk_data key)).

Definition curve_decode_private_point (key_data : bytes) : M (world U) ec_private_key :=
  if negb (zlen key_data =? DJB_KEY_LEN) then fail SG_ERR_INVALID_KEY
  else
    let* _ := alloc in
    ret (EcPrivateKey (take 32 key_data)).

Definition ec_private_key_serialize (key : ec_private_key) : M (world U) bytes :=
  let* buf := signal_buffer_alloc DJB_KEY_LEN in
  let* _ := non_null buf SG_ERR_NOMEM in
  ret (take 32 (sk_data key)).

Definition ec_private_key_serialize_protobuf (key : ec_private_key) : M (world U) bytes :=
  let* _ := alloc in
  ret (take 32 (sk_data key)).

Definition ec_key_pair_create (public_key : ec_public_key) (private_key : ec_private_key)
    : M (world U) ec_key_pair :=
  let* _ := alloc in
  ret (EcKeyPair public_key private_key).
End Encoding.

(** [data[0] &= 248; data[31] &= 127; data[31] |= 64;] *)
Definition clamp (data : bytes) : bytes :=
  alter (λ b, Z.lor (Z.land b 127) 64) 31%nat (alter (λ b, Z.land b 248) 0%nat data).

Section Agreement.
Context {U : Type} {CP : CryptoProvider U} {C : Curve25519}.

Definition curve_generate_private_key : M (world U) ec_private_key :=
  let* _ := alloc in
  let* data := signal_crypto_random 32 in
  ret (EcPrivateKey (clamp data)).

Definition curve_generate_public_key (private_key : ec_private_key)
    : M (world U) ec_public_key :=
  let* _ := alloc in
  let '(result, data) := curve25519_donna (sk_data private_key) basepoint in
  if result =? 0 then ret (EcPublicKey data) else fail SG_ERR_UNKNOWN.

Definition curve_generate_key_pair : M (world U) ec_key_pair :=
  let* key_private := curve_generate_private_key in
  let* key_public := curve_generate_public_key key_private in
  ec_key_pair_create key_public key_private.

Definition curve_calculate_agreement (public_key : option ec_public_key)
    (private_key : option ec_private_key) : M (world U) bytes :=
  match public_key, private_key with
  | Some pk, Some sk =>
      let* _ := alloc in
      let '(result, key) := curve25519_donna (sk_data sk) (pk_data pk) in
      if result =? 0 then ret key else fail SG_ERR_UNKNOWN
  | _, _ => fail SG_ERR_INVALID_KEY
  end.

(** Returns 1 for a valid signature, 0 for an invalid one. *)
Definition curve_verify_signature (signing_key : ec_public_key)
    (message_data signature_data : bytes) : M (world U) Z :=
  if negb (zlen signature_data =? CURVE_SIGNATURE_LEN) then fail SG_ERR_INVAL
  else
    ret (if curve25519_verify signature_data (pk_data signing_key) message_data =? 0
         then 1 else 0).

Definition curve_calculate_signature (signing_key : ec_private_key) (message_data : bytes)
    : M (world U) bytes :=
  let* random_data := signal_crypto_random 64 in
  let* buffer := signal_buffer_alloc CURVE_SIGNATURE_LEN in
  let* _ := non_null buffer SG_ERR_NOMEM in
  let '(result, signature) := curve25519_sign (sk_data signing_key) message_data random_data in
  if result <? 0 then fail result else ret signature.
End Agreement.

(** ** Well-formed keys *)

Definition wf_pk (k : ec_public_key) : Prop := length (pk_data k) = 32%nat.
Definition wf_sk (k : ec_private_key) : Prop := length (sk_data k) = 32%nat.

(** A pair whose public half is derived from its private half. *)
Definition wf_pair `{D : DhLaws} (p : ec_key_pair) : Prop :=
  wf_sk (kp_private p) ∧ pk_data (kp_public p) = dh (sk_data (kp_private p)) basepoint.

#[export] Instance wf_pk_dec k : Decision (wf_pk k).
Proof. unfold wf_pk. apply _. Defined.
#[export] Instance wf_sk_dec k : Decision (wf_sk k).
Proof. unfold wf_sk. apply _. Defined.

(** ** Lemmas *)

Lemma ec_public_key_compare_eq k1 k2 :
  wf_pk k1 → wf_pk k2 → ec_public_key_compare (Some k1) (Some k2) = 0 ↔ k1 = k2.
Proof.
  intros H1 H2. simpl. rewrite memcmp_eq_iff by done.
  destruct k1, k2; simpl; naive_solver.
Qed.

Lemma ec_public_key_compare_refl k : wf_pk k → ec_public_key_compare (Some k) (Some k) = 0.
Proof. intros. by apply ec_public_key_compare_eq. Qed.

Lemma memcmp_sym n s1 s2 : memcmp n s1 s2 < 0 ↔ 0 < memcmp n s2 s1.
Proof.
  revert s1 s2. induction n as [|n IH]; intros [|b1 s1] [|b2 s2]; simpl; try lia.
  destruct (Z.ltb_spec b1 b2), (Z.ltb_spec b2 b1); try lia. apply IH.
Qed.

Lemma memcmp_zero n s1 s2 :
  length s1 = n → length s2 = n → memcmp n s1 s2 = 0 ↔ s1 = s2.
Proof.
  revert s1 s2. induction n as [|n IH]; intros [|b1 s1] [|b2 s2] H1 H2; simplify_eq/=; [done|].
  destruct (Z.ltb_spec b1 b2), (Z.ltb_spec b2 b1); try (split; [lia|]; intros [= ]; lia).
  rewrite IH by done. split; [intros ->; f_equal; lia | by intros [= ]].
Qed.

Lemma wf_pair_pk `{D : DhLaws} p : wf_pair p → wf_pk (kp_public p).
Proof. intros [_ H]. unfold wf_pk. rewrite H. apply dh_length. Qed.

Lemma ends_curve_decode_point {U} d : ends (S:=world U) (curve_decode_point d) wf_pk.
Proof.
  unfold curve_decode_point. destruct (_ && _); [apply ends_fail|].
  destruct (negb _) eqn:E; [apply ends_fail|].
  eapply ends_bind; [apply ends_alloc|]. intros _ _. apply ends_ret. unfold wf_pk. simpl.
  apply negb_false_iff, Z.eqb_eq in E. unfold zlen, DJB_KEY_LEN in E.
  rewrite length_take, length_drop. lia.
Qed.

Lemma ends_curve_decode_private_point {U} d :
  ends (S:=world U) (curve_decode_private_point d) wf_sk.
Proof.
  unfold curve_decode_private_point. destruct (negb _) eqn:E; [apply ends_fail|].
  ends_step ends_alloc. apply ends_ret. unfold wf_sk. simpl.
  apply negb_false_iff, Z.eqb_eq in E. unfold zlen, DJB_KEY_LEN in E. rewrite length_take. lia.
Qed.

Section Calm.
Context {U : Type} (u : U).

Lemma ec_public_key_serialize_protobuf_calm k : wf_pk k →
  ec_public_key_serialize_protobuf k (calm u) = (Ok (DJB_TYPE :: pk_data k), calm u).
Proof.
  intros H. unfold ec_public_key_serialize_protobuf. step (alloc_calm u).
  by rewrite take_ge by (unfold wf_pk in H; lia).
Qed.

Lemma ec_public_key_serialize_calm k : wf_pk k →
  ec_public_key_serialize (Some k) (calm u) = (Ok (DJB_TYPE :: pk_data k), calm u).
Proof.
  intros H. unfold ec_public_key_serialize.
  step (signal_buffer_alloc_calm u (DJB_KEY_LEN + 1) ltac:(done)).
  unfold bind, non_null, ret. by rewrite take_ge by (unfold wf_pk in H; lia).
Qed.

Lemma ec_private_key_serialize_protobuf_calm k : wf_sk k →
  ec_private_key_serialize_protobuf k (calm u) = (Ok (sk_data k), calm u).
Proof.
  intros H. unfold ec_private_key_serialize_protobuf. step (alloc_calm u).
  by rewrite take_ge by (unfold wf_sk in H; lia).
Qed.

Lemma curve_decode_point_calm d : length d = 32%nat →
  curve_decode_point (DJB_TYPE :: d) (calm u) = (Ok (EcPublicKey d), calm u).
Proof.
  intros H. unfold curve_decode_point, zlen. cbn [length]. rewrite H. simpl.
  by rewrite drop_0, take_ge by lia.
Qed.

Lemma curve_decode_private_point_calm d : length d = 32%nat →
  curve_decode_private_point d (calm u) = (Ok (EcPrivateKey d), calm u).
Proof.
  intros H. unfold curve_decode_private_point, zlen. rewrite H. simpl.
  by rewrite take_ge by lia.
Qed.
End Calm.

Lemma clamp_length d : length (clamp d) = length d.
Proof. unfold clamp. by rewrite !length_alter. Qed.

Section Gen.
Context {U : Type} {CP : CryptoProvider U} {RL : RandomLaws CP}
  {C : Curve25519} {D : DhLaws C} {SL : SignLaws C D}.

(** The key pair a random draw [bs] gives. *)
Definition pair_of (bs : bytes) : ec_key_pair :=
  EcKeyPair (EcPublicKey (dh (clamp bs) basepoint)) (EcPrivateKey (clamp bs)).

Lemma pair_of_wf bs : length bs = 32%nat → wf_pair (pair_of bs).
Proof. intros H. split; [|done]. unfold wf_sk. simpl. by rewrite clamp_length. Qed.

Lemma curve_generate_key_pair_calm (u : U) :
  ∃ bs u', random_func 32 u = (Ok bs, u') ∧ length bs = 32%nat ∧
    curve_generate_key_pair (calm u) = (Ok (pair_of bs), calm u').
Proof.
  destruct (random_ok 32 u) as (bs & u' & Hr & Hl). exists bs, u'. split_and!; [done..|].
  unfold curve_generate_key_pair, curve_generate_private_key, curve_generate_public_key,
    signal_crypto_random, callback, bind, alloc, malloc. simpl.
  rewrite Hr. simpl. by rewrite donna_ok.
Qed.

Lemma curve_calculate_agreement_calm (u : U) pk sk :
  curve_calculate_agreement (Some pk) (Some sk) (calm u)
  = (Ok (dh (sk_data sk) (pk_data pk)), calm u).
Proof.
  unfold curve_calculate_agreement. step (alloc_calm u). by rewrite donna_ok.
Qed.

(** Both sides of an agreement compute the same secret. *)
Lemma agreement_comm p q : wf_pair p → wf_pair q →
  dh (sk_data (kp_private p)) (pk_data (kp_public q)) =
  dh (sk_data (kp_private q)) (pk_data (kp_public p)).
Proof. intros [_ ->] [_ ->]. apply dh_comm. Qed.

Lemma wf_clamp bs : wf_bytes bs → wf_bytes (clamp bs).
Proof.
  intros H. unfold clamp. apply Forall_alter; [apply Forall_alter; [done|]|]; intros x _ Hx.
  - apply (byte_forall (λ x, (0 <=? Z.land x 248) && (Z.land x 248 <? 256))) in Hx; [|by vm_compute].
    unfold is_byte. lia.
  - apply (byte_forall (λ x, (0 <=? Z.lor (Z.land x 127) 64) && (Z.lor (Z.land x 127) 64 <? 256))) in Hx;
      [|by vm_compute]. unfold is_byte. lia.
Qed.
Lemma clamp_clamped bs : length bs = 32%nat → wf_bytes bs → clamped (clamp bs).
Proof.
  intros Hl Hw. split; [by rewrite clamp_length|]. split; [by apply wf_clamp|].
  destruct (lookup_lt_is_Some_2 bs 0) as [x0 H0]; [lia|].
  destruct (lookup_lt_is_Some_2 bs 31) as [x31 H31]; [lia|].
  exists (Z.land x0 248), (Z.lor (Z.land x31 127) 64). unfold clamp. split_and!.
  - rewrite list_lookup_alter_ne, list_lookup_alter_eq, H0; done.
  - rewrite list_lookup_alter_eq, list_lookup_alter_ne, H31; done.
  - by rewrite <-Z.land_assoc, Z.land_0_r.
  - by rewrite Z.lor_spec, orb_true_r.
  - by rewrite Z.lor_spec, Z.land_spec, andb_false_r.
Qed.

(** A pair that can also sign. *)
Definition wf_signing_pair (p : ec_key_pair) : Prop :=
  wf_pair p ∧ clamped (sk_data (kp_private p)).

Lemma pair_of_signs bs : length bs = 32%nat → wf_bytes bs → wf_signing_pair (pair_of bs).
Proof. intros Hl Hw. split; [by apply pair_of_wf|by apply clamp_clamped]. Qed.

Lemma signature_verifies (u : U) p msg : wf_signing_pair p →
  ∃ sig u', curve_calculate_signature (kp_private p) msg (calm u) = (Ok sig, calm u') ∧
    length sig = 64%nat ∧
    ∀ w : world U, curve_verify_signature (kp_public p) msg sig w = (Ok 1, w).
Proof.
  intros [[_ Hpub] Hc]. destruct (random_ok 64 u) as (rnd & u' & Hr & _).
  destruct (sign_ok _ msg rnd Hc) as (sig & Hs & Hl). exists sig, u'. split_and!; [|done|].
  - unfold curve_calculate_signature, signal_crypto_random.
    step_to rnd (calm u') by (unfold callback; simpl; by rewrite Hr).
    step (signal_buffer_alloc_calm u' CURVE_SIGNATURE_LEN ltac:(done)).
    unfold bind, non_null, ret. by rewrite Hs.
  - intros w. unfold curve_verify_signature, zlen. rewrite Hl, Hpub.
    by rewrite (sign_verify _ _ _ _ Hc Hs).
Qed.

(** A generated key pair has a 32-byte private key with the clamped bits
    (low three bits of the first byte clear, top two bits of the last byte
    01) and the matching public key, and a signature made with it on any
    message verifies. *)
Theorem curve_generate_key_pair_clamped (u u2 : U) (msg : bytes) :
  ∃ pair u', curve_generate_key_pair (calm u) = (Ok pair, calm u') ∧ wf_signing_pair pair ∧
    ∃ sig u2', curve_calculate_signature (kp_private pair) msg (calm u2) = (Ok sig, calm u2') ∧
      length sig = 64%nat ∧
      ∀ w : world U, curve_verify_signature (kp_public pair) msg sig w = (Ok 1, w).
Proof.
  destruct (curve_generate_key_pair_calm u) as (bs & u' & Hr & Hl & Hg).
  exists (pair_of bs), u'.
  assert (wf_signing_pair (pair_of bs)) as Hwf by (eapply pair_of_signs; [done|by eapply random_wf]).
  split_and!; [done..|].
  by apply signature_verifies.
Qed.
End Gen.

Section Keeps.
Context {U : Type} {CP : CryptoProvider U} {C : Curve25519}.
Lemma keeps_curve_decode_point d : keeps (@same_user U) (curve_decode_point d).
Proof. unfold curve_decode_point. keeps_solve. Qed.
Lemma keeps_curve_decode_private_point d : keeps (@same_user U) (curve_decode_private_point d).
Proof. unfold curve_decode_private_point. keeps_solve. Qed.
Lemma keeps_ec_public_key_serialize k : keeps (@same_user U) (ec_public_key_serialize k).
Proof. unfold ec_public_key_serialize. keeps_solve. Qed.
Lemma keeps_ec_public_key_serialize_protobuf k :
  keeps (@same_user U) (ec_public_key_serialize_protobuf k).
Proof. unfold ec_public_key_serialize_protobuf. keeps_solve. Qed.
Lemma keeps_ec_private_key_serialize_protobuf k :
  keeps (@same_user U) (ec_private_key_serialize_protobuf k).
Proof. unfold ec_private_key_serialize_protobuf. keeps_solve. Qed.
Lemma keeps_ec_key_pair_create p s : keeps (@same_user U) (ec_key_pair_create p s).
Proof. unfold ec_key_pair_create. keeps_solve. Qed.
Lemma keeps_curve_calculate_agreement p s :
  keeps (@same_user U) (curve_calculate_agreement p s).
Proof. unfold curve_calculate_agreement. keeps_solve. Qed.
Lemma keeps_curve_verify_signature k m s :
  keeps (@same_user U) (curve_verify_signature k m s).
Proof. unfold curve_verify_signature. keeps_solve. Qed.
End Keeps.
#[export] Hint Resolve keeps_curve_decode_point keeps_curve_decode_private_point
  keeps_ec_public_key_serialize keeps_ec_public_key_serialize_protobuf
  keeps_ec_private_key_serialize_protobuf keeps_ec_key_pair_create
  keeps_curve_calculate_agreement keeps_curve_verify_signature : keeps.

Lemma curve_generate_key_pair_witness :
  ∃ pair u', curve_generate_key_pair (CP := Toy.provider) (C := Toy.curve) (calm 7)
      = (Ok pair, calm u') ∧
    wf_signing_pair (D := Toy.dh_laws) pair ∧
    ∃ sig u2', curve_calculate_signature (CP := Toy.provider) (C := Toy.curve)
        (kp_private pair) [1; 2] (calm 8) = (Ok sig, calm u2') ∧
      length sig = 64%nat ∧
      ∀ w : world Z, curve_verify_signature (C := Toy.curve) (kp_public pair) [1; 2] sig w
        = (Ok 1, w).
Proof.
  apply (curve_generate_key_pair_clamped (RL := Toy.random_laws) (SL := Toy.sign_laws) 7 8 [1; 2]).
Defined.
