(* ===== verification/Vpool.v ===== *)
(** The growable byte pool (vpool.c), used to accumulate agreement secrets.

    The used bytes [v_buf[0 .. v_off)] are the list [vp_data]; [vp_gap] is the
    distance [v_buf - v_basebuf] and [vp_size] the size of the allocation. *)

From S2P Require Import Prelude.

Definition EFBIG : Z := 27.
Definition ENOMEM : Z := 12.
Definition ERANGE : Z := 34.

Record vpool : Type := Vpool {
  vp_data : bytes; vp_gap : Z; vp_size : Z; vp_blksize : Z; vp_limit : Z; vp_lasterr : Z }.

Definition vp_off (p : vpool) : Z := zlen (vp_data p).

Inductive vpool_trunc := VPOOL_EXCLUDE | VPOOL_INCLUDE.

Definition vpool_init (blksize limit : Z) : vpool :=
  Vpool [] 0 0 (if blksize =? 0 then 4096 else blksize)
    (if limit =? 0 then SIZE_MAX else limit) 0.

Definition vpool_is_empty (p : vpool) : bool := vp_off p =? 0.

Definition vpool_shift (p : vpool) : vpool :=
  Vpool (vp_data p) 0 (vp_size p) (vp_blksize p) (vp_limit p) (vp_lasterr p).

(** The new size, or the error. *)
Definition vpool_new_size (p : vpool) (datsize : Z) : Z + Z :=
  if datsize <=? vp_size p - vp_off p then inl (vp_size p)
  else if vp_limit p - vp_off p <? datsize then inr EFBIG
  else
    let need := usize (vp_off p + datsize) in
    let rem := need `mod` vp_blksize p in
    if negb (rem =? 0) then
      if usize (datsize + (vp_blksize p - rem)) <=? vp_limit p - vp_off p
      then inl (usize (need + (vp_blksize p - rem)))
      else inl (vp_limit p)
    else inl need.

Definition vpool_set_lasterr (e : Z) (p : vpool) : vpool :=
  Vpool (vp_data p) (vp_gap p) (vp_size p) (vp_blksize p) (vp_limit p) e.

Section Ops.
Context {U : Type}.

(** Returns 0 or an errno value. *)
Definition vpool_resize (datsize : Z) : M (vpool * world U) Z :=
  let* pool := get_obj in
  match vpool_new_size pool datsize with
  | inr error => ret error
  | inl size =>
      if vp_size pool <? size then
        let* ok := lift malloc in
        if (ok : bool) then
          let* _ := put_obj (Vpool (vp_data pool) 0 size (vp_blksize pool)
            (vp_limit pool) (vp_lasterr pool)) in
          ret 0
        else ret ENOMEM
      else if (vp_size pool - vp_off pool) - vp_gap pool <? datsize then
        let* _ := put_obj (vpool_shift pool) in ret 0
      else ret 0
  end.

(** Whether the inserted region could be placed (a non-null result). *)
Definition vpool_insert (where_ : Z) (data : bytes) : M (vpool * world U) bool :=
  let* error := vpool_resize (zlen data) in
  let* pool := get_obj in
  if negb (error =? 0) then
    let* _ := put_obj (vpool_set_lasterr error pool) in ret false
  else
    let where_ := Z.to_nat (if vp_off pool <? where_ then vp_off pool else where_) in
    let* _ := put_obj (Vpool (take where_ (vp_data pool) ++ data ++ drop where_ (vp_data pool))
      (vp_gap pool) (vp_size pool) (vp_blksize pool) (vp_limit pool) 0) in
    ret true.

(** Opens a gap whose bytes are what the memory holds, [hole]: any bytes. *)
Definition vpool_expand (where_ : Z) (hole : bytes) : M (vpool * world U) bool :=
  let* error := vpool_resize (zlen hole) in
  let* pool := get_obj in
  if negb (error =? 0) then
    let* _ := put_obj (vpool_set_lasterr error pool) in ret false
  else
    let where_ := Z.to_nat (if vp_off pool <? where_ then vp_off pool else where_) in
    let* _ := put_obj (Vpool (take where_ (vp_data pool) ++ hole ++ drop where_ (vp_data pool))
      (vp_gap pool) (vp_size pool) (vp_blksize pool) (vp_limit pool) 0) in
    ret true.
End Ops.

Definition vpool_truncate (where_ size : Z) (how : vpool_trunc) (p : vpool) : Z * vpool :=
  if (vp_off p <=? where_) || (vp_off p <? size) || (vp_off p - size <? where_)
  then (ERANGE, vpool_set_lasterr ERANGE p)
  else
    let w := Z.to_nat where_ in
    let n := Z.to_nat size in
    match how with
    | VPOOL_EXCLUDE =>
        if where_ =? 0 then
          (0, Vpool (drop n (vp_data p)) (vp_gap p + size) (vp_size p) (vp_blksize p)
                (vp_limit p) 0)
        else
          (0, Vpool (take w (vp_data p) ++ drop (w + n) (vp_data p)) (vp_gap p) (vp_size p)
                (vp_blksize p) (vp_limit p) 0)
    | VPOOL_INCLUDE =>
        (0, Vpool (take n (drop w (vp_data p))) (vp_gap p + where_) (vp_size p) (vp_blksize p)
              (vp_limit p) 0)
    end.

Definition vpool_reset (p : vpool) : vpool := Vpool [] 0 0 (vp_blksize p) (vp_limit p) 0.
Definition vpool_wipe (p : vpool) : vpool :=
  Vpool [] (vp_gap p) (vp_size p) (vp_blksize p) (vp_limit p) 0.
Definition vpool_export (p : vpool) : bytes * vpool := (vp_data p, vpool_reset p).

(** ** Properties *)

(** The used bytes lie inside the allocation and the sizes are [size_t]s. *)
Definition vpool_inv (p : vpool) : Prop :=
  0 <= vp_gap p ∧ vp_gap p + vp_off p <= vp_size p ∧ vp_size p <= SIZE_MAX ∧
  0 < vp_blksize p ∧ vp_limit p <= SIZE_MAX ∧ vp_size p <= vp_limit p.

Lemma vpool_new_size_ok p d n :
  vpool_inv p → 0 <= d → vp_off p + d + vp_blksize p <= SIZE_MAX →
  vpool_new_size p d = inl n →
  vp_off p + d <= n ∧ vp_size p <= n ∧ n <= vp_limit p.
Proof.
  intros (H1 & H2 & H3 & H4 & H5 & H6) Hd Hsz. unfold vpool_new_size.
  pose proof (zlen_nonneg (vp_data p)) as Ho. unfold vp_off in *.
  destruct (Z.leb_spec d (vp_size p - zlen (vp_data p))); [intros [= <-]; lia|].
  destruct (Z.ltb_spec (vp_limit p - zlen (vp_data p)) d); [done|].
  rewrite (usize_small (zlen _ + d)) by lia.
  pose proof (Z.mod_pos_bound (zlen (vp_data p) + d) (vp_blksize p) H4).
  rewrite !usize_small by lia.
  destruct (Z.eqb_spec ((zlen (vp_data p) + d) `mod` vp_blksize p) 0); simpl;
    [intros [= <-]; lia|].
  destruct (Z.leb_spec (d + (vp_blksize p - (zlen (vp_data p) + d) `mod` vp_blksize p))
    (vp_limit p - zlen (vp_data p))); intros [= <-]; lia.
Qed.

(** Resizing keeps the data and, when it reports success, leaves room for
    [d] more bytes behind it. *)
Lemma vpool_resize_spec {U} p (w : world U) d :
  vpool_inv p → 0 <= d → vp_off p + d + vp_blksize p <= SIZE_MAX →
  ∃ e p' w', vpool_resize d (p, w) = (Ok e, (p', w')) ∧ vpool_inv p' ∧
    vp_data p' = vp_data p ∧ same_user w w' ∧
    (e = 0 → vp_gap p' + vp_off p' + d <= vp_size p').
Proof.
  intros Hi Hd Hsz. unfold vpool_resize, bind. simpl.
  destruct (vpool_new_size p d) as [n|e] eqn:En.
  2: { exists e, p, w. split_and!; try done. unfold vpool_new_size in En. intros ->.
       repeat case_match; simplify_eq. }
  destruct (vpool_new_size_ok p d n Hi Hd Hsz En) as (Hn1 & Hn2 & Hn3).
  pose proof Hi as (H1 & H2 & H3 & H4 & H5 & H6).
  pose proof (zlen_nonneg (vp_data p)) as Ho.
  destruct (Z.ltb_spec (vp_size p) n).
  - unfold lift, malloc. destruct (w_mem w) as [[|k]|] eqn:Em; simpl.
    + exists ENOMEM, p, w. by split_and!.
    + eexists 0, _, _. split_and!; [reflexivity| |done|done|];
        unfold vpool_inv, vp_off in *; simpl; lia.
    + eexists 0, _, _. split_and!; [reflexivity| |done|done|];
        unfold vpool_inv, vp_off in *; simpl; lia.
  - destruct (Z.ltb_spec (vp_size p - vp_off p - vp_gap p) d).
    + eexists 0, _, _. split_and!; [reflexivity| |done|done|];
        unfold vpool_inv, vp_off in *; simpl; lia.
    + eexists 0, _, _. split_and!; [reflexivity|done|done|done|];
        unfold vp_off in *; lia.
Qed.

(** [vpool_insert] at any position either fails and keeps the pool's
    bytes, or places exactly the given bytes there; in both cases the used
    region stays inside the allocation, so no byte is written outside it. *)
Theorem vpool_insert_spec {U} (p : vpool) (w : world U) (where_ : Z) (data : bytes) :
  vpool_inv p → 0 <= where_ → vp_off p + zlen data + vp_blksize p <= SIZE_MAX →
  ∃ ok p' w', vpool_insert where_ data (p, w) = (Ok ok, (p', w')) ∧ vpool_inv p' ∧
    same_user w w' ∧
    vp_data p' = (if (ok : bool)
      then take (Z.to_nat where_) (vp_data p) ++ data ++ drop (Z.to_nat where_) (vp_data p)
      else vp_data p).
Proof.
  intros Hi Hw Hsz.
  destruct (vpool_resize_spec p w (zlen data) Hi (zlen_nonneg data) Hsz)
    as (e & p1 & w1 & Hr & Hi1 & Hd & Hu & Hroom).
  unfold vpool_insert. step Hr. unfold bind. simpl.
  destruct (Z.eqb_spec e 0) as [->|He]; simpl.
  - eexists true, _, _. split_and!; [reflexivity| |done|].
    + specialize (Hroom eq_refl). destruct Hi1 as (H1 & H2 & H3 & H4 & H5 & H6).
      unfold vpool_inv, vp_off, zlen in *. simpl. rewrite !length_app, length_take, length_drop.
      lia.
    + simpl. rewrite Hd. destruct (Z.ltb_spec (vp_off p1) where_) as [Hlt|Hge]; [|done].
      unfold vp_off, zlen in *. rewrite Hd in *.
      rewrite !take_ge, !drop_ge by lia. done.
  - eexists false, _, _. split_and!; [reflexivity| |done|done].
    done.
Qed.

(** In a world without allocation failures only the limit can stop a resize. *)
Lemma vpool_resize_calm {U} (u : U) p d :
  vp_off p + d <= vp_limit p →
  ∃ p', vpool_resize d (p, calm u) = (Ok 0, (p', calm u)) ∧ vp_limit p' = vp_limit p ∧
    vp_blksize p' = vp_blksize p.
Proof.
  intros Hlim. unfold vpool_resize, vpool_new_size, bind. simpl.
  destruct (d <=? vp_size p - vp_off p) eqn:E1.
  2: rewrite (proj2 (Z.ltb_ge _ _)) by lia.
  all: repeat case_match; simplify_eq/=; eexists; (split; [reflexivity|]); done.
Qed.

Lemma vpool_append_calm {U} (u : U) p data :
  vpool_inv p → vp_off p + zlen data <= vp_limit p →
  vp_off p + zlen data + vp_blksize p <= SIZE_MAX →
  ∃ p', vpool_insert (vp_off p) data (p, calm u) = (Ok true, (p', calm u)) ∧ vpool_inv p' ∧
    vp_data p' = vp_data p ++ data ∧ vp_limit p' = vp_limit p ∧ vp_blksize p' = vp_blksize p.
Proof.
  intros Hi Hlim Hsz.
  destruct (vpool_resize_calm u p (zlen data) Hlim) as (p1 & Hr & Hl & Hb).
  destruct (vpool_resize_spec p (calm u) (zlen data) Hi (zlen_nonneg data) Hsz)
    as (e & p1' & w1 & Hr' & Hi1 & Hd & _ & Hroom).
  rewrite Hr in Hr'. injection Hr' as <- <- <-. specialize (Hroom eq_refl).
  unfold vpool_insert. step Hr. unfold bind, get_obj, put_obj. cbn beta iota.
  assert (vp_off p1 = vp_off p) as Ho by (unfold vp_off; by rewrite Hd).
  rewrite Ho in *. simpl. rewrite (proj2 (Z.ltb_ge _ _)) by lia.
  eexists. split_and!; [reflexivity| | |done|done].
  - destruct Hi1 as (I1 & I2 & I3 & I4 & I5 & I6). unfold vpool_inv, vp_off, zlen in *. simpl.
    rewrite !length_app, length_take, length_drop. lia.
  - simpl. rewrite Hd. unfold vp_off, zlen. rewrite take_ge, drop_ge by lia.
    by rewrite app_nil_r.
Qed.

Lemma vpool_init_inv b l : 0 <= b → 0 <= l <= SIZE_MAX → vpool_inv (vpool_init b l).
Proof.
  intros Hb Hl. unfold vpool_inv, vpool_init, vp_off, zlen. simpl.
  unfold SIZE_MAX in *.
  destruct (Z.eqb_spec b 0), (Z.eqb_spec l 0); lia.
Qed.

Lemma keeps_vpool_insert {U} w0 d : keeps (@same_user2 vpool U) (vpool_insert w0 d).
Proof. unfold vpool_insert, vpool_resize. keeps_solve. Qed.
#[export] Hint Resolve keeps_vpool_insert : keeps.

Lemma vpool_insert_witness :
  ∃ ok p' w', vpool_insert 1 [7; 8] (Vpool [1; 2] 0 2 1024 SIZE_MAX 0, World (Some 1%nat) tt)
      = (Ok ok, (p', w')) ∧ vpool_inv p' ∧ same_user (World (Some 1%nat) tt) w' ∧
    vp_data p' = (if (ok : bool)
      then take (Z.to_nat 1) [1; 2] ++ [7; 8] ++ drop (Z.to_nat 1) [1; 2] else [1; 2]).
Proof.
  apply (vpool_insert_spec (Vpool [1; 2] 0 2 1024 SIZE_MAX 0) (World (Some 1%nat) tt) 1 [7; 8]);
    unfold vpool_inv, vp_off, zlen, SIZE_MAX; simpl; lia.
Defined.
