(* ===== verification/Ratchet.v ===== *)
(** Chain keys, root keys and identity keys (ratchet.c, first half).

    A chain key steps forward with [ratchet_chain_key_create_next] and yields
    the keys of one message with [ratchet_chain_key_get_message_keys]; a root
    key is stepped by a Diffie-Hellman agreement with
    [ratchet_root_key_create_chain].  [ck_next], [ck_message_keys] and
    [rk_chain] are the key schedule these functions implement. *)

From stdpp Require Import strings.
From S2P Require Import Prelude Buffer Provider Hkdf Curve.

Definition DERIVED_MESSAGE_SECRETS_SIZE : Z := 80.
Definition DERIVED_ROOT_SECRETS_SIZE : Z := 64.
Definition RATCHET_CIPHER_KEY_LENGTH : Z := 32.
Definition RATCHET_MAC_KEY_LENGTH : Z := 32.
Definition RATCHET_IV_LENGTH : Z := 16.

Record ratchet_chain_key : Type := RatchetChainKey {
  ck_kdf : hkdf_context; ck_key : bytes; ck_index : Z }.
Record ratchet_root_key : Type := RatchetRootKey {
  rk_kdf : hkdf_context; rk_key : bytes }.
Record ratchet_message_keys : Type := RatchetMessageKeys {
  mk_cipher_key : bytes; mk_mac_key : bytes; mk_iv : bytes; mk_counter : Z }.
Record ratchet_identity_key_pair : Type := RatchetIdentityKeyPair {
  ik_public : ec_public_key; ik_private : ec_private_key }.

#[export] Instance ratchet_chain_key_eq_dec : EqDecision ratchet_chain_key.
Proof. solve_decision. Defined.
#[export] Instance ratchet_root_key_eq_dec : EqDecision ratchet_root_key.
Proof. solve_decision. Defined.
#[export] Instance ratchet_message_keys_eq_dec : EqDecision ratchet_message_keys.
Proof. solve_decision. Defined.
#[export] Instance ratchet_identity_key_pair_eq_dec : EqDecision ratchet_identity_key_pair.
Proof. solve_decision. Defined.

Definition zero_salt : bytes := replicate 32 0.
Definition message_key_info : bytes := Eval vm_compute in str_bytes "WhisperMessageKeys".
Definition ratchet_info : bytes := Eval vm_compute in str_bytes "WhisperRatchet".

Section Defs.
Context {U : Type} {CP : CryptoProvider U} {C : Curve25519}.

Definition ratchet_chain_key_create (kdf : option hkdf_context) (key : option bytes)
    (index : Z) : M (world U) ratchet_chain_key :=
  match kdf, key with
  | Some kdf, Some key =>
      let* _ := alloc in
      let* _ := alloc in
      ret (RatchetChainKey kdf key index)
  | _, _ => fail SG_ERR_INVAL
  end.

Definition ratchet_chain_key_get_key (chain_key : ratchet_chain_key) : M (world U) bytes :=
  let* buf := signal_buffer_alloc (zlen (ck_key chain_key)) in
  let* _ := non_null buf SG_ERR_NOMEM in
  ret (ck_key chain_key).

Definition ratchet_chain_key_get_key_protobuf (chain_key : ratchet_chain_key)
    : M (world U) bytes :=
  let* _ := alloc in
  ret (ck_key chain_key).

Definition ratchet_chain_key_get_index (chain_key : ratchet_chain_key) : Z :=
  ck_index chain_key.

Definition ratchet_chain_key_get_base_material (chain_key : ratchet_chain_key) (seed : bytes)
    : M (world U) bytes :=
  let* output_buffer :=
    (let* c := signal_hmac_sha256_init (ck_key chain_key) in
     let* c := signal_hmac_sha256_update c seed in
     signal_hmac_sha256_final c) in
  let* _ := alloc in
  ret output_buffer.

Definition ratchet_chain_key_get_message_keys (chain_key : ratchet_chain_key)
    : M (world U) ratchet_message_keys :=
  let* input_key_material := ratchet_chain_key_get_base_material chain_key [1] in
  let* key_material_data := hkdf_derive_secrets (ck_kdf chain_key)
    input_key_material zero_salt (Some message_key_info) DERIVED_MESSAGE_SECRETS_SIZE in
  if negb (zlen key_material_data =?
           RATCHET_CIPHER_KEY_LENGTH + RATCHET_MAC_KEY_LENGTH + RATCHET_IV_LENGTH)
  then fail SG_ERR_UNKNOWN
  else
    ret (RatchetMessageKeys
           (take 32 key_material_data)
           (take 32 (drop 32 key_material_data))
           (take 16 (drop (32 + 32) key_material_data))
           (ck_index chain_key)).

Definition ratchet_chain_key_create_next (chain_key : ratchet_chain_key)
    : M (world U) ratchet_chain_key :=
  let* next_key := ratchet_chain_key_get_base_material chain_key [2] in
  ratchet_chain_key_create (Some (ck_kdf chain_key)) (Some next_key)
    (u32 (ck_index chain_key + 1)).

Definition ratchet_root_key_create (kdf : option hkdf_context) (key : option bytes)
    : M (world U) ratchet_root_key :=
  match kdf, key with
  | Some kdf, Some key =>
      let* _ := alloc in
      let* _ := alloc in
      ret (RatchetRootKey kdf key)
  | _, _ => fail SG_ERR_INVAL
  end.

Definition ratchet_root_key_create_chain (root_key : ratchet_root_key)
    (their_ratchet_key : option ec_public_key)
    (our_ratchet_key_private : option ec_private_key)
    : M (world U) (ratchet_root_key * ratchet_chain_key) :=
  match their_ratchet_key, our_ratchet_key_private with
  | Some _, Some _ =>
      let* shared_secret :=
        curve_calculate_agreement their_ratchet_key our_ratchet_key_private in
      let* derived_secret := hkdf_derive_secrets (rk_kdf root_key) shared_secret
        (rk_key root_key) (Some ratchet_info) DERIVED_ROOT_SECRETS_SIZE in
      if negb (zlen derived_secret =? DERIVED_ROOT_SECRETS_SIZE) then fail SG_ERR_UNKNOWN
      else
        let* new_root_key :=
          ratchet_root_key_create (Some (rk_kdf root_key)) (Some (take 32 derived_secret)) in
        let* new_chain_key :=
          ratchet_chain_key_create (Some (rk_kdf root_key))
            (Some (take 32 (drop 32 derived_secret))) 0 in
        ret (new_root_key, new_chain_key)
  | _, _ => fail SG_ERR_INVAL
  end.

Definition ratchet_root_key_get_key (root_key : ratchet_root_key) : M (world U) bytes :=
  let* buf := signal_buffer_alloc (zlen (rk_key root_key)) in
  let* _ := non_null buf SG_ERR_NOMEM in
  ret (rk_key root_key).

Definition ratchet_root_key_get_key_protobuf (root_key : ratchet_root_key)
    : M (world U) bytes :=
  let* _ := alloc in
  ret (rk_key root_key).

Definition ratchet_root_key_compare (key1 key2 : option ratchet_root_key) : Z :=
  match key1, key2 with
  | None, None => 0
  | None, Some _ => -1
  | Some _, None => 1
  | Some k1, Some k2 =>
      let kdf_compare := hkdf_compare (Some (rk_kdf k1)) (Some (rk_kdf k2)) in
      if negb (kdf_compare =? 0) then kdf_compare
      else if zlen (rk_key k1) <? zlen (rk_key k2) then -1
      else if zlen (rk_key k2) <? zlen (rk_key k1) then 1
      else signal_constant_memcmp (rk_key k1) (rk_key k2) (length (rk_key k1))
  end.

Definition ratchet_identity_key_pair_create (public_key : ec_public_key)
    (private_key : ec_private_key) : M (world U) ratchet_identity_key_pair :=
  let* _ := alloc in
  ret (RatchetIdentityKeyPair public_key private_key).
End Defs.

(** ** The key schedule *)

(** The kdf of a session of version 2 or 3. *)
Definition wf_kdf (kdf : hkdf_context) : Prop := 0 <= iteration_start_offset kdf <= 1.

Definition wf_mk (mk : ratchet_message_keys) : Prop :=
  length (mk_cipher_key mk) = 32%nat ∧ length (mk_mac_key mk) = 32%nat ∧
  length (mk_iv mk) = 16%nat.

Section Schedule.
Context {U : Type} {CP : CryptoProvider U} {HL : HmacLaws CP}.

Definition ck_next (ck : ratchet_chain_key) : ratchet_chain_key :=
  RatchetChainKey (ck_kdf ck) (hmac (ck_key ck) [2]) (u32 (ck_index ck + 1)).

Definition ck_material (ck : ratchet_chain_key) : bytes :=
  rfc_hkdf (iteration_start_offset (ck_kdf ck)) (hmac (ck_key ck) [1])
    zero_salt message_key_info 80.

Definition ck_message_keys (ck : ratchet_chain_key) : ratchet_message_keys :=
  RatchetMessageKeys (take 32 (ck_material ck)) (take 32 (drop 32 (ck_material ck)))
    (take 16 (drop (32 + 32) (ck_material ck))) (ck_index ck).

(** [n] steps ahead. *)
Fixpoint ck_advance (n : nat) (ck : ratchet_chain_key) : ratchet_chain_key :=
  match n with
  | O => ck
  | S n => ck_advance n (ck_next ck)
  end.

Definition rk_secret (rk : ratchet_root_key) (shared : bytes) : bytes :=
  rfc_hkdf (iteration_start_offset (rk_kdf rk)) shared (rk_key rk) ratchet_info 64.

Definition rk_chain (rk : ratchet_root_key) (shared : bytes)
    : ratchet_root_key * ratchet_chain_key :=
  (RatchetRootKey (rk_kdf rk) (take 32 (rk_secret rk shared)),
   RatchetChainKey (rk_kdf rk) (take 32 (drop 32 (rk_secret rk shared))) 0).

(** *** Lemmas *)

Lemma get_base_material_calm (u : U) ck seed :
  ratchet_chain_key_get_base_material ck seed (calm u)
  = (Ok (hmac (ck_key ck) seed), calm u).
Proof. unfold ratchet_chain_key_get_base_material. by step (hmac_once (calm u)). Qed.

Lemma create_next_calm (u : U) ck :
  ratchet_chain_key_create_next ck (calm u) = (Ok (ck_next ck), calm u).
Proof. unfold ratchet_chain_key_create_next. by step (get_base_material_calm u). Qed.

Lemma ck_material_length ck : length (ck_material ck) = 80%nat.
Proof. apply zlen_length, rfc_hkdf_length. done. Qed.

Lemma get_message_keys_calm (u : U) ck :
  wf_kdf (ck_kdf ck) →
  ratchet_chain_key_get_message_keys ck (calm u) = (Ok (ck_message_keys ck), calm u).
Proof.
  intros [Hk1 Hk2]. unfold ratchet_chain_key_get_message_keys.
  step (get_base_material_calm u).
  step (hkdf_derive_secrets_run u (ck_kdf ck) (hmac (ck_key ck) [1]) zero_salt
    message_key_info 80 ltac:(done) Hk1
    ltac:(change (hkdf_iterations 80) with 3; lia)).
  fold (ck_material ck). unfold zlen. rewrite ck_material_length. done.
Qed.

Lemma ck_message_keys_wf ck : wf_mk (ck_message_keys ck).
Proof.
  unfold wf_mk, ck_message_keys. simpl.
  rewrite !length_take, !length_drop, ck_material_length. done.
Qed.

Lemma rk_secret_length rk s : length (rk_secret rk s) = 64%nat.
Proof. apply zlen_length, rfc_hkdf_length. done. Qed.

Lemma create_chain_calm {C : Curve25519} {D : DhLaws C} (u : U) rk pk sk :
  wf_kdf (rk_kdf rk) →
  ratchet_root_key_create_chain rk (Some pk) (Some sk) (calm u)
  = (Ok (rk_chain rk (dh (sk_data sk) (pk_data pk))), calm u).
Proof.
  intros [Hk1 Hk2]. unfold ratchet_root_key_create_chain.
  step (curve_calculate_agreement_calm u).
  step (hkdf_derive_secrets_run u (rk_kdf rk) (dh (sk_data sk) (pk_data pk)) (rk_key rk)
    ratchet_info 64 ltac:(done) Hk1
    ltac:(change (hkdf_iterations 64) with 2; lia)).
  fold (rk_secret rk (dh (sk_data sk) (pk_data pk))).
  unfold zlen. rewrite rk_secret_length. done.
Qed.

Lemma ck_advance_S n ck : ck_advance (S n) ck = ck_next (ck_advance n ck).
Proof. revert ck. induction n as [|n IH]; intros ck; [done|]. apply IH. Qed.

Lemma ck_advance_add n m ck : ck_advance (n + m) ck = ck_advance m (ck_advance n ck).
Proof. revert ck. induction n as [|n IH]; intros ck; [done|]. apply IH. Qed.

Lemma ck_advance_kdf n ck : ck_kdf (ck_advance n ck) = ck_kdf ck.
Proof. revert ck. induction n as [|n IH]; intros ck; [done|]. simpl. by rewrite IH. Qed.

Lemma ck_advance_index n ck :
  is_u32 (ck_index ck) → ck_index (ck_advance n ck) = u32 (ck_index ck + Z.of_nat n).
Proof.
  revert ck. induction n as [|n IH]; intros ck H.
  { simpl. rewrite Z.add_0_r. by rewrite u32_small. }
  simpl ck_advance. rewrite IH by apply u32_range. simpl. unfold u32.
  rewrite Z.add_mod_idemp_l by done. f_equal. lia.
Qed.

(** One step of a receiving or sending chain.  [create_next] moves the
    index up by one modulo 2^32 and replaces the key by its HMAC of the byte 2;
    [get_message_keys] splits the 80 bytes that HKDF derives from the key's HMAC
    of the byte 1 into cipher key, MAC key and IV, tagged with the index. *)
Theorem ratchet_chain_step (u : U) (ck : ratchet_chain_key) :
  wf_kdf (ck_kdf ck) →
  ∃ material cipher_key mac_key iv,
    ratchet_chain_key_create_next ck (calm u)
      = (Ok (RatchetChainKey (ck_kdf ck) (hmac (ck_key ck) [2]) (u32 (ck_index ck + 1))), calm u) ∧
    ratchet_chain_key_get_message_keys ck (calm u)
      = (Ok (RatchetMessageKeys cipher_key mac_key iv (ck_index ck)), calm u) ∧
    material = rfc_hkdf (iteration_start_offset (ck_kdf ck)) (hmac (ck_key ck) [1])
      (replicate 32 0) (str_bytes "WhisperMessageKeys") 80 ∧
    material = cipher_key ++ mac_key ++ iv ∧
    length cipher_key = 32%nat ∧ length mac_key = 32%nat ∧ length iv = 16%nat.
Proof.
  intros Hk. exists (ck_material ck), (mk_cipher_key (ck_message_keys ck)),
    (mk_mac_key (ck_message_keys ck)), (mk_iv (ck_message_keys ck)).
  rewrite create_next_calm, get_message_keys_calm by done.
  destruct (ck_message_keys_wf ck) as (H1 & H2 & H3).
  split_and!; try done. cbn [ck_message_keys mk_cipher_key mk_mac_key mk_iv] in *.
  rewrite <-drop_drop, (take_ge (drop 32 (drop 32 (ck_material ck)))), !take_drop; [done|].
  rewrite !length_drop, ck_material_length. lia.
Qed.

End Schedule.
Global Arguments ck_advance : simpl never.

Section Keeps.
Context {U : Type} {CP : CryptoProvider U} {C : Curve25519}.
Lemma keeps_ratchet_chain_key_create k b i : keeps (@same_user U) (ratchet_chain_key_create k b i).
Proof. unfold ratchet_chain_key_create. keeps_solve. Qed.
Lemma keeps_ratchet_root_key_create k b : keeps (@same_user U) (ratchet_root_key_create k b).
Proof. unfold ratchet_root_key_create. keeps_solve. Qed.
Local Hint Resolve keeps_ratchet_chain_key_create keeps_ratchet_root_key_create : keeps.
Lemma keeps_get_message_keys k : keeps (@same_user U) (ratchet_chain_key_get_message_keys k).
Proof.
  unfold ratchet_chain_key_get_message_keys, ratchet_chain_key_get_base_material. keeps_solve.
Qed.
Lemma keeps_create_next k : keeps (@same_user U) (ratchet_chain_key_create_next k).
Proof.
  unfold ratchet_chain_key_create_next, ratchet_chain_key_get_base_material. keeps_solve.
Qed.
Lemma keeps_create_chain r p s : keeps (@same_user U) (ratchet_root_key_create_chain r p s).
Proof. unfold ratchet_root_key_create_chain. keeps_solve. Qed.
Lemma keeps_get_key_protobuf k : keeps (@same_user U) (ratchet_chain_key_get_key_protobuf k).
Proof. unfold ratchet_chain_key_get_key_protobuf. keeps_solve. Qed.
Lemma keeps_root_get_key_protobuf k : keeps (@same_user U) (ratchet_root_key_get_key_protobuf k).
Proof. unfold ratchet_root_key_get_key_protobuf. keeps_solve. Qed.
Lemma keeps_identity_create p s : keeps (@same_user U) (ratchet_identity_key_pair_create p s).
Proof. unfold ratchet_identity_key_pair_create. keeps_solve. Qed.
End Keeps.
#[export] Hint Resolve keeps_ratchet_chain_key_create keeps_ratchet_root_key_create
  keeps_get_message_keys keeps_create_next keeps_create_chain keeps_get_key_protobuf
  keeps_root_get_key_protobuf keeps_identity_create : keeps.

Import Toy.

Lemma ratchet_chain_step_witness :
  let ck := RatchetChainKey (HkdfContext 1) (replicate 32 3) (2 ^ 32 - 1) in
  ∃ material cipher_key mac_key iv,
    ratchet_chain_key_create_next ck (calm 0)
      = (Ok (RatchetChainKey (ck_kdf ck) (hmac (ck_key ck) [2]) (u32 (ck_index ck + 1))), calm 0) ∧
    ratchet_chain_key_get_message_keys ck (calm 0)
      = (Ok (RatchetMessageKeys cipher_key mac_key iv (ck_index ck)), calm 0) ∧
    material = rfc_hkdf (iteration_start_offset (ck_kdf ck)) (hmac (ck_key ck) [1])
      (replicate 32 0) (str_bytes "WhisperMessageKeys") 80 ∧
    material = cipher_key ++ mac_key ++ iv ∧
    length cipher_key = 32%nat ∧ length mac_key = 32%nat ∧ length iv = 16%nat.
Proof. apply (ratchet_chain_step (CP:=Toy.provider)). split; discriminate. Defined.

