(* ===== verification/SessionState.v ===== *)
(** The session state and its operations (session_state.c without the
    serialization half).

    Setters that cannot fail are functions [session_state -> session_state];
    operations that allocate or return a code are computations over
    [session_state * world].  A node reached through the pointer returned by
    [session_state_find_receiver_chain] is the first match of the list, so a
    change through that pointer is [update_receiver_chain]. *)

From S2P Require Import Prelude Buffer Provider Hkdf Curve Ratchet.

Definition MAX_MESSAGE_KEYS : nat := 2000.
Definition MAX_RECEIVER_CHAINS : nat := 5.

Record session_state_sender_chain : Type := SenderChain {
  sc_ratchet_key_pair : option ec_key_pair;
  sc_chain_key : option ratchet_chain_key }.

Record session_state_receiver_chain : Type := ReceiverChain {
  rc_ratchet_key : option ec_public_key;
  rc_chain_key : option ratchet_chain_key;
  rc_message_keys : list ratchet_message_keys }.

Record session_pending_key_exchange : Type := PendingKeyExchange {
  pke_sequence : Z;
  pke_local_base_key : option ec_key_pair;
  pke_local_ratchet_key : option ec_key_pair;
  pke_local_identity_key : option ratchet_identity_key_pair }.

Record session_pending_pre_key : Type := PendingPreKey {
  ppk_has_pre_key_id : bool;
  ppk_pre_key_id : Z;
  ppk_signed_pre_key_id : Z;
  ppk_base_key : option ec_public_key }.

Record session_state : Type := SessionState {
  ss_session_version : Z;
  ss_local_identity_public : option ec_public_key;
  ss_remote_identity_public : option ec_public_key;
  ss_root_key : option ratchet_root_key;
  ss_previous_counter : Z;
  ss_has_sender_chain : bool;
  ss_sender_chain : session_state_sender_chain;
  ss_receiver_chains : list session_state_receiver_chain;
  ss_has_pending_key_exchange : bool;
  ss_pending_key_exchange : session_pending_key_exchange;
  ss_has_pending_pre_key : bool;
  ss_pending_pre_key : session_pending_pre_key;
  ss_remote_registration_id : Z;
  ss_local_registration_id : Z;
  ss_needs_refresh : bool;
  ss_alice_base_key : option ec_public_key }.

#[export] Instance session_state_sender_chain_eq_dec : EqDecision session_state_sender_chain.
Proof. solve_decision. Defined.
#[export] Instance session_pending_key_exchange_eq_dec : EqDecision session_pending_key_exchange.
Proof. solve_decision. Defined.
#[export] Instance session_pending_pre_key_eq_dec : EqDecision session_pending_pre_key.
Proof. solve_decision. Defined.
#[export] Instance session_state_receiver_chain_eq_dec : EqDecision session_state_receiver_chain.
Proof. solve_decision. Defined.
#[export] Instance session_state_eq_dec : EqDecision session_state.
Proof. solve_decision. Defined.

(** ** Field updates *)

Definition no_sender_chain : session_state_sender_chain := SenderChain None None.
Definition no_pending_key_exchange : session_pending_key_exchange :=
  PendingKeyExchange 0 None None None.
Definition no_pending_pre_key : session_pending_pre_key := PendingPreKey false 0 0 None.

Definition session_state_zero : session_state :=
  SessionState 2 None None None 0 false no_sender_chain [] false no_pending_key_exchange
    false no_pending_pre_key 0 0 false None.

Definition session_state_create {U} : M (world U) session_state :=
  let* _ := alloc in ret session_state_zero.

Definition session_state_set_session_version (v : Z) (s : session_state) : session_state :=
  let '(SessionState _ li ri rk pc hs sc rc hx px hp pp rr lr nr ab) := s in
  SessionState v li ri rk pc hs sc rc hx px hp pp rr lr nr ab.
Definition session_state_set_local_identity_key (k : ec_public_key) (s : session_state) : session_state :=
  let '(SessionState v _ ri rk pc hs sc rc hx px hp pp rr lr nr ab) := s in
  SessionState v (Some k) ri rk pc hs sc rc hx px hp pp rr lr nr ab.
Definition session_state_set_remote_identity_key (k : ec_public_key) (s : session_state) : session_state :=
  let '(SessionState v li _ rk pc hs sc rc hx px hp pp rr lr nr ab) := s in
  SessionState v li (Some k) rk pc hs sc rc hx px hp pp rr lr nr ab.
Definition session_state_set_root_key (k : ratchet_root_key) (s : session_state) : session_state :=
  let '(SessionState v li ri _ pc hs sc rc hx px hp pp rr lr nr ab) := s in
  SessionState v li ri (Some k) pc hs sc rc hx px hp pp rr lr nr ab.
Definition session_state_set_previous_counter (c : Z) (s : session_state) : session_state :=
  let '(SessionState v li ri rk _ hs sc rc hx px hp pp rr lr nr ab) := s in
  SessionState v li ri rk c hs sc rc hx px hp pp rr lr nr ab.
Definition session_state_set_sender_chain (kp : ec_key_pair) (ck : ratchet_chain_key)
    (s : session_state) : session_state :=
  let '(SessionState v li ri rk pc _ _ rc hx px hp pp rr lr nr ab) := s in
  SessionState v li ri rk pc true (SenderChain (Some kp) (Some ck)) rc hx px hp pp rr lr nr ab.
Definition set_receiver_chains (l : list session_state_receiver_chain) (s : session_state)
    : session_state :=
  let '(SessionState v li ri rk pc hs sc _ hx px hp pp rr lr nr ab) := s in
  SessionState v li ri rk pc hs sc l hx px hp pp rr lr nr ab.
Definition set_sender_chain_record (c : session_state_sender_chain) (s : session_state)
    : session_state :=
  let '(SessionState v li ri rk pc hs _ rc hx px hp pp rr lr nr ab) := s in
  SessionState v li ri rk pc hs c rc hx px hp pp rr lr nr ab.
Definition session_state_set_pending_key_exchange (sequence : Z)
    (our_base_key our_ratchet_key : ec_key_pair) (our_identity_key : ratchet_identity_key_pair)
    (s : session_state) : session_state :=
  let '(SessionState v li ri rk pc hs sc rc _ _ hp pp rr lr nr ab) := s in
  SessionState v li ri rk pc hs sc rc true
    (PendingKeyExchange sequence (Some our_base_key) (Some our_ratchet_key) (Some our_identity_key))
    hp pp rr lr nr ab.
Definition session_state_set_unacknowledged_pre_key_message (pre_key_id : option Z)
    (signed_pre_key_id : Z) (base_key : ec_public_key) (s : session_state) : session_state :=
  let '(SessionState v li ri rk pc hs sc rc hx px _ _ rr lr nr ab) := s in
  let pp := match pre_key_id with
            | Some i => PendingPreKey true i signed_pre_key_id (Some base_key)
            | None => PendingPreKey false 0 signed_pre_key_id (Some base_key)
            end in
  SessionState v li ri rk pc hs sc rc hx px true pp rr lr nr ab.
Definition session_state_clear_unacknowledged_pre_key_message (s : session_state) : session_state :=
  let '(SessionState v li ri rk pc hs sc rc hx px _ _ rr lr nr ab) := s in
  SessionState v li ri rk pc hs sc rc hx px false no_pending_pre_key rr lr nr ab.
Definition session_state_set_remote_registration_id (id : Z) (s : session_state) : session_state :=
  let '(SessionState v li ri rk pc hs sc rc hx px hp pp _ lr nr ab) := s in
  SessionState v li ri rk pc hs sc rc hx px hp pp id lr nr ab.
Definition session_state_set_local_registration_id (id : Z) (s : session_state) : session_state :=
  let '(SessionState v li ri rk pc hs sc rc hx px hp pp rr _ nr ab) := s in
  SessionState v li ri rk pc hs sc rc hx px hp pp rr id nr ab.
(** [assert(value == 0 || value == 1)] *)
Definition session_state_set_needs_refresh (value : bool) (s : session_state) : session_state :=
  let '(SessionState v li ri rk pc hs sc rc hx px hp pp rr lr _ ab) := s in
  SessionState v li ri rk pc hs sc rc hx px hp pp rr lr value ab.
Definition session_state_set_alice_base_key (k : ec_public_key) (s : session_state) : session_state :=
  let '(SessionState v li ri rk pc hs sc rc hx px hp pp rr lr nr _) := s in
  SessionState v li ri rk pc hs sc rc hx px hp pp rr lr nr (Some k).

(** ** Reads *)

Definition session_state_get_sender_ratchet_key (s : session_state) : option ec_public_key :=
  match sc_ratchet_key_pair (ss_sender_chain s) with
  | Some kp => Some (ec_key_pair_get_public kp)
  | None => None
  end.
Definition session_state_get_sender_chain_key (s : session_state) : option ratchet_chain_key :=
  sc_chain_key (ss_sender_chain s).
Definition session_state_get_pending_key_exchange_sequence (s : session_state) : Z :=
  if ss_has_pending_key_exchange s then pke_sequence (ss_pending_key_exchange s) else 0.
Definition session_state_get_pending_key_exchange_base_key (s : session_state) : option ec_key_pair :=
  if ss_has_pending_key_exchange s then pke_local_base_key (ss_pending_key_exchange s) else None.
Definition session_state_get_pending_key_exchange_ratchet_key (s : session_state) : option ec_key_pair :=
  if ss_has_pending_key_exchange s then pke_local_ratchet_key (ss_pending_key_exchange s) else None.
Definition session_state_get_pending_key_exchange_identity_key (s : session_state)
    : option ratchet_identity_key_pair :=
  if ss_has_pending_key_exchange s then pke_local_identity_key (ss_pending_key_exchange s) else None.

(** [DL_FOREACH .. if(ec_public_key_compare(..) == 0) { result = cur_node; break; }] *)
Fixpoint find_receiver_chain (l : list session_state_receiver_chain) (eph : ec_public_key)
    : option session_state_receiver_chain :=
  match l with
  | [] => None
  | rc :: l =>
      if ec_public_key_compare (rc_ratchet_key rc) (Some eph) =? 0 then Some rc
      else find_receiver_chain l eph
  end.
Definition session_state_find_receiver_chain (s : session_state) (eph : ec_public_key)
    : option session_state_receiver_chain :=
  find_receiver_chain (ss_receiver_chains s) eph.

Definition session_state_get_receiver_chain_key (s : session_state) (eph : ec_public_key)
    : option ratchet_chain_key :=
  match session_state_find_receiver_chain s eph with
  | Some node => rc_chain_key node
  | None => None
  end.

Fixpoint has_message_keys (l : list ratchet_message_keys) (counter : Z) : bool :=
  match l with
  | [] => false
  | mk :: l => if mk_counter mk =? counter then true else has_message_keys l counter
  end.
Definition session_state_has_message_keys (s : session_state) (eph : ec_public_key) (counter : Z)
    : bool :=
  match session_state_find_receiver_chain s eph with
  | None => false
  | Some chain => has_message_keys (rc_message_keys chain) counter
  end.

(** ** Changes to the receiver chains *)

Fixpoint update_receiver_chain (l : list session_state_receiver_chain) (eph : ec_public_key)
    (f : session_state_receiver_chain → session_state_receiver_chain)
    : list session_state_receiver_chain :=
  match l with
  | [] => []
  | rc :: l =>
      if ec_public_key_compare (rc_ratchet_key rc) (Some eph) =? 0 then f rc :: l
      else rc :: update_receiver_chain l eph f
  end.

(** [while(count > max) { DL_DELETE(head, head); --count; }] *)
Fixpoint trim_front {A} (max : nat) (l : list A) : list A :=
  match l with
  | [] => []
  | x :: l' => if (max <? length l)%nat then trim_front max l' else l
  end.

(** The first node with the counter is unlinked and its keys returned. *)
Fixpoint remove_message_keys (l : list ratchet_message_keys) (counter : Z)
    : option ratchet_message_keys * list ratchet_message_keys :=
  match l with
  | [] => (None, [])
  | mk :: l =>
      if mk_counter mk =? counter then (Some mk, l)
      else let '(r, l') := remove_message_keys l counter in (r, mk :: l')
  end.

Section Ops.
Context {U : Type}.

Definition session_state_remove_message_keys (eph : ec_public_key) (counter : Z)
    : M (session_state * world U) (option ratchet_message_keys) :=
  let* state := get_obj in
  match session_state_find_receiver_chain state eph with
  | None => ret None
  | Some chain =>
      let '(r, keys) := remove_message_keys (rc_message_keys chain) counter in
      let* _ := put_obj (set_receiver_chains
        (update_receiver_chain (ss_receiver_chains state) eph (λ rc,
           ReceiverChain (rc_ratchet_key rc) (rc_chain_key rc) keys)) state) in
      ret r
  end.

Definition session_state_set_message_keys (eph : ec_public_key) (mk : ratchet_message_keys)
    : M (session_state * world U) unit :=
  let* state := get_obj in
  match session_state_find_receiver_chain state eph with
  | None => ret tt
  | Some chain =>
      let* _ := lift alloc in
      put_obj (set_receiver_chains
        (update_receiver_chain (ss_receiver_chains state) eph (λ rc,
           ReceiverChain (rc_ratchet_key rc) (rc_chain_key rc)
             (trim_front MAX_MESSAGE_KEYS (rc_message_keys rc ++ [mk])))) state)
  end.

Definition session_state_add_receiver_chain (sender_ratchet_key : ec_public_key)
    (chain_key : ratchet_chain_key) : M (session_state * world U) unit :=
  let* _ := lift alloc in
  let* state := get_obj in
  put_obj (set_receiver_chains
    (trim_front MAX_RECEIVER_CHAINS
       (ss_receiver_chains state ++
          [ReceiverChain (Some sender_ratchet_key) (Some chain_key) []])) state).

Definition session_state_set_receiver_chain_key (eph : ec_public_key)
    (chain_key : ratchet_chain_key) : M (session_state * world U) unit :=
  let* state := get_obj in
  match session_state_find_receiver_chain state eph with
  | None => fail SG_ERR_UNKNOWN
  | Some _ =>
      put_obj (set_receiver_chains
        (update_receiver_chain (ss_receiver_chains state) eph (λ rc,
           ReceiverChain (rc_ratchet_key rc) (Some chain_key) (rc_message_keys rc))) state)
  end.

Definition session_state_set_sender_chain_key (chain_key : ratchet_chain_key)
    : M (session_state * world U) unit :=
  let* state := get_obj in
  if ss_has_sender_chain state then
    put_obj (set_sender_chain_record
      (SenderChain (sc_ratchet_key_pair (ss_sender_chain state)) (Some chain_key)) state)
  else fail SG_ERR_UNKNOWN.
End Ops.

(** ** Lemmas *)

Ltac ss_destruct s := destruct s as [v li ri rk pc hs sc rc hx px hp pp rr lr nr ab].

Lemma set_receiver_chains_get l s : ss_receiver_chains (set_receiver_chains l s) = l.
Proof. by ss_destruct s. Qed.
Lemma set_receiver_chains_twice l k s :
  set_receiver_chains l (set_receiver_chains k s) = set_receiver_chains l s.
Proof. by ss_destruct s. Qed.
Lemma set_receiver_chains_id s : set_receiver_chains (ss_receiver_chains s) s = s.
Proof. by ss_destruct s. Qed.

Lemma trim_front_drop {A} max (l : list A) : trim_front max l = drop (length l - max) l.
Proof.
  induction l as [|x l IH]; [by rewrite drop_nil|]. cbn [trim_front].
  destruct (Nat.ltb_spec max (length (x :: l))) as [H|H].
  - rewrite IH. simpl in *. by replace (S (length l) - max)%nat with (S (length l - max))%nat by lia.
  - by replace (length (x :: l) - max)%nat with 0%nat by lia.
Qed.

Lemma trim_front_le {A} max (l : list A) : (length l ≤ max)%nat → trim_front max l = l.
Proof. intros H. rewrite trim_front_drop. by replace (length l - max)%nat with 0%nat by lia. Qed.

Lemma trim_front_length {A} max (l : list A) : (length (trim_front max l) ≤ max)%nat.
Proof. rewrite trim_front_drop, length_drop. lia. Qed.

Lemma trim_front_suffix {A} max (l : list A) : trim_front max l `suffix_of` l.
Proof. rewrite trim_front_drop. exists (take (length l - max) l). by rewrite take_drop. Qed.

Lemma trim_front_sublist {A} max (l : list A) : trim_front max l `sublist_of` l.
Proof. rewrite trim_front_drop. apply sublist_drop. Qed.

(** Trimming after each append is trimming once at the end. *)
Lemma trim_front_trim_app {A} max (l k : list A) :
  trim_front max (trim_front max l ++ k) = trim_front max (l ++ k).
Proof.
  rewrite !trim_front_drop, !length_app, length_drop.
  set (t := take (length l - max) l). set (d := drop (length l - max) l).
  assert (length t = length l - max)%nat as Ht by (unfold t; rewrite length_take; lia).
  replace l with (t ++ d) at 4 by apply take_drop. rewrite <-app_assoc.
  rewrite (drop_app_ge t) by lia. f_equal. lia.
Qed.

Lemma trim_front_fmap {A B} (f : A → B) max l :
  f <$> trim_front max l = trim_front max (f <$> l).
Proof. by rewrite !trim_front_drop, length_fmap, fmap_drop. Qed.

(** The newest element survives a trim. *)
Lemma trim_front_snoc {A} max (l : list A) x :
  (0 < max)%nat → trim_front max (l ++ [x]) = trim_front (max - 1) l ++ [x].
Proof.
  intros H. rewrite !trim_front_drop, length_app. simpl.
  rewrite drop_app_le by lia. do 2 f_equal. lia.
Qed.

(** Whether node [rc] is the one for [eph]. *)
Definition rc_matches (eph : ec_public_key) (rc : session_state_receiver_chain) : Prop :=
  ec_public_key_compare (rc_ratchet_key rc) (Some eph) = 0.
#[export] Instance rc_matches_dec eph rc : Decision (rc_matches eph rc).
Proof. unfold rc_matches. apply _. Defined.

Lemma find_receiver_chain_app l k eph :
  find_receiver_chain l eph = None →
  find_receiver_chain (l ++ k) eph = find_receiver_chain k eph.
Proof.
  induction l as [|rc l IH]; [done|]. simpl. destruct (_ =? 0); [done|]. apply IH.
Qed.

Lemma find_receiver_chain_drop n l eph :
  find_receiver_chain l eph = None → find_receiver_chain (drop n l) eph = None.
Proof.
  revert n. induction l as [|rc l IH]; intros [|n]; [done..|]. simpl.
  destruct (_ =? 0); [done|]. apply IH.
Qed.

(** A chain that was just added is the one found for its ratchet key. *)
Lemma find_receiver_chain_added l eph ck :
  find_receiver_chain l eph = None → wf_pk eph →
  find_receiver_chain (trim_front MAX_RECEIVER_CHAINS
    (l ++ [ReceiverChain (Some eph) (Some ck) []])) eph
  = Some (ReceiverChain (Some eph) (Some ck) []).
Proof.
  intros H Hw. rewrite trim_front_snoc by (unfold MAX_RECEIVER_CHAINS; lia).
  rewrite find_receiver_chain_app by (rewrite trim_front_drop; by apply find_receiver_chain_drop).
  cbn [find_receiver_chain rc_ratchet_key]. by rewrite ec_public_key_compare_refl.
Qed.

Lemma find_update_receiver_chain l eph f :
  (∀ rc, rc_ratchet_key (f rc) = rc_ratchet_key rc) →
  find_receiver_chain (update_receiver_chain l eph f) eph = f <$> find_receiver_chain l eph.
Proof.
  intros Hf. induction l as [|rc l IH]; [done|]. simpl.
  destruct (ec_public_key_compare (rc_ratchet_key rc) (Some eph) =? 0) eqn:E; simpl.
  - by rewrite Hf, E.
  - by rewrite E.
Qed.

Lemma update_update_receiver_chain l eph f g :
  (∀ rc, rc_ratchet_key (f rc) = rc_ratchet_key rc) →
  update_receiver_chain (update_receiver_chain l eph f) eph g
  = update_receiver_chain l eph (λ rc, g (f rc)).
Proof.
  intros Hf. induction l as [|rc l IH]; [done|]. simpl.
  destruct (ec_public_key_compare (rc_ratchet_key rc) (Some eph) =? 0) eqn:E; simpl.
  - by rewrite Hf, E.
  - by rewrite E, IH.
Qed.

Lemma update_receiver_chain_ext l eph f g rc :
  find_receiver_chain l eph = Some rc → f rc = g rc →
  update_receiver_chain l eph f = update_receiver_chain l eph g.
Proof.
  induction l as [|rc' l IH]; [done|]. simpl.
  destruct (_ =? 0); [by intros [= ->] ->|]. intros. f_equal. auto.
Qed.

Lemma update_receiver_chain_length l eph f :
  length (update_receiver_chain l eph f) = length l.
Proof. induction l as [|rc l IH]; [done|]. simpl. destruct (_ =? 0); simpl; auto. Qed.

Lemma update_receiver_chain_Forall P l eph f :
  Forall P l → (∀ rc, find_receiver_chain l eph = Some rc → P rc → P (f rc)) →
  Forall P (update_receiver_chain l eph f).
Proof.
  induction 1 as [|rc l Hrc Hl IH]; [constructor|]. simpl. intros Hf.
  destruct (_ =? 0); constructor; auto.
Qed.

Lemma find_receiver_chain_Forall (P : session_state_receiver_chain → Prop) l eph rc :
  Forall P l → find_receiver_chain l eph = Some rc → P rc.
Proof.
  induction 1 as [|rc' l Hrc Hl IH]; [done|]. simpl. destruct (_ =? 0); [by intros [= <-]|auto].
Qed.

(** *** Stored message keys *)

Lemma remove_message_keys_spec l c :
  match remove_message_keys l c with
  | (Some mk, l') => ∃ l1 l2, l = l1 ++ mk :: l2 ∧ l' = l1 ++ l2 ∧ mk_counter mk = c ∧
      c ∉ mk_counter <$> l1
  | (None, l') => l' = l ∧ c ∉ mk_counter <$> l
  end.
Proof.
  induction l as [|mk l IH]; simpl.
  { split; [done|]. by apply not_elem_of_nil. }
  destruct (Z.eqb_spec (mk_counter mk) c) as [E|E].
  - exists [], l. split_and!; try done. by apply not_elem_of_nil.
  - destruct (remove_message_keys l c) as [[mk'|] l'].
    + destruct IH as (l1 & l2 & -> & -> & Hc & Hn). exists (mk :: l1), l2.
      split_and!; try done. simpl. by apply not_elem_of_cons.
    + destruct IH as [-> Hn]. split; [done|]. by apply not_elem_of_cons.
Qed.

(** ** The invariant of a session state

    At most five receiver chains; in each one at most [MAX_MESSAGE_KEYS] saved
    message keys, all for counters the chain has passed, each counter once. *)

Definition receiver_chain_inv (rc : session_state_receiver_chain) : Prop :=
  (length (rc_message_keys rc) ≤ MAX_MESSAGE_KEYS)%nat ∧
  NoDup (mk_counter <$> rc_message_keys rc) ∧
  match rc_chain_key rc with
  | Some ck => is_u32 (ck_index ck) ∧
      Forall (λ mk, 0 <= mk_counter mk < ck_index ck) (rc_message_keys rc)
  | None => rc_message_keys rc = []
  end.

Definition session_state_inv (s : session_state) : Prop :=
  (length (ss_receiver_chains s) ≤ MAX_RECEIVER_CHAINS)%nat ∧
  Forall receiver_chain_inv (ss_receiver_chains s).

Section Calm.
Context {U : Type}.

Lemma add_receiver_chain_calm (u : U) s eph ck :
  session_state_add_receiver_chain eph ck (s, calm u) =
  (Ok tt, (set_receiver_chains (trim_front MAX_RECEIVER_CHAINS
     (ss_receiver_chains s ++ [ReceiverChain (Some eph) (Some ck) []])) s, calm u)).
Proof. done. Qed.

Lemma set_message_keys_calm (u : U) s eph mk rc :
  session_state_find_receiver_chain s eph = Some rc →
  session_state_set_message_keys eph mk (s, calm u) =
  (Ok tt, (set_receiver_chains
     (update_receiver_chain (ss_receiver_chains s) eph (λ rc,
        ReceiverChain (rc_ratchet_key rc) (rc_chain_key rc)
          (trim_front MAX_MESSAGE_KEYS (rc_message_keys rc ++ [mk])))) s, calm u)).
Proof. intros H. unfold session_state_set_message_keys, bind. simpl. by rewrite H. Qed.

Lemma set_receiver_chain_key_run (w : world U) s eph ck rc :
  session_state_find_receiver_chain s eph = Some rc →
  session_state_set_receiver_chain_key eph ck (s, w) =
  (Ok tt, (set_receiver_chains
     (update_receiver_chain (ss_receiver_chains s) eph (λ rc,
        ReceiverChain (rc_ratchet_key rc) (Some ck) (rc_message_keys rc))) s, w)).
Proof. intros H. unfold session_state_set_receiver_chain_key, bind. simpl. by rewrite H. Qed.
End Calm.

Lemma add_receiver_chain_inv s eph ck :
  session_state_inv s → is_u32 (ck_index ck) →
  session_state_inv (set_receiver_chains (trim_front MAX_RECEIVER_CHAINS
    (ss_receiver_chains s ++ [ReceiverChain (Some eph) (Some ck) []])) s).
Proof.
  intros [Hl Hf] Hi. unfold session_state_inv. rewrite set_receiver_chains_get.
  split; [apply trim_front_length|]. rewrite trim_front_drop. apply Forall_drop, Forall_app.
  split; [done|]. constructor; [|done]. unfold receiver_chain_inv. simpl.
  split_and!; [lia|by apply NoDup_nil_2|apply Hi|constructor].
Qed.

(** C37: the bounds of a session state hold under every operation that changes
    its receiver chains, also when an allocation fails: adding a chain,
    saving, taking out and consuming message keys, and stepping a chain
    forward keep at most five chains and 2000 saved keys per chain. *)
Theorem session_state_ops_bounded {U} (eph : ec_public_key) (ck : ratchet_chain_key)
    (mk : ratchet_message_keys) (c : Z) (s : session_state) (w : world U) :
  let bounded s := (length (ss_receiver_chains s) ≤ MAX_RECEIVER_CHAINS)%nat ∧
    Forall (λ rc, (length (rc_message_keys rc) ≤ MAX_MESSAGE_KEYS)%nat) (ss_receiver_chains s) in
  bounded s →
  bounded (session_state_add_receiver_chain eph ck (s, w)).2.1 ∧
  bounded (session_state_set_message_keys eph mk (s, w)).2.1 ∧
  bounded (session_state_remove_message_keys eph c (s, w)).2.1 ∧
  bounded (session_state_set_receiver_chain_key eph ck (s, w)).2.1.
Proof.
  intros bounded [Hl Hf].
  assert (∀ f, (∀ rc, (length (rc_message_keys rc) ≤ MAX_MESSAGE_KEYS)%nat →
      session_state_find_receiver_chain s eph = Some rc →
      (length (rc_message_keys (f rc)) ≤ MAX_MESSAGE_KEYS)%nat) →
    bounded (set_receiver_chains (update_receiver_chain (ss_receiver_chains s) eph f) s)) as Hup.
  { intros f Hf'. unfold bounded. rewrite set_receiver_chains_get, update_receiver_chain_length.
    split; [done|]. apply update_receiver_chain_Forall; [done|]. intros rc Hrc Hlen. auto. }
  split_and!.
  - unfold session_state_add_receiver_chain, bind, lift, alloc, malloc.
    destruct w as [[[|n]|] u]; simpl; [done| |];
      (unfold bounded; rewrite set_receiver_chains_get; split; [apply trim_front_length|];
       rewrite trim_front_drop; apply Forall_drop, Forall_app; split; [done|];
       constructor; simpl; [lia|constructor]).
  - unfold session_state_set_message_keys, bind, lift, alloc, malloc. simpl.
    destruct (session_state_find_receiver_chain s eph) as [rc|] eqn:E; [|done].
    destruct w as [[[|n]|] u]; simpl; [done| |];
      (apply Hup; intros; apply trim_front_length).
  - unfold session_state_remove_message_keys, bind. simpl.
    destruct (session_state_find_receiver_chain s eph) as [rc|] eqn:E; [|done].
    pose proof (remove_message_keys_spec (rc_message_keys rc) c) as Hr.
    destruct (remove_message_keys _ c) as [r keys]. simpl. apply Hup. simpl.
    intros rc' Hlen [= <-]. destruct r as [m|].
    + destruct Hr as (l1 & l2 & Hl1 & -> & _). rewrite Hl1 in Hlen.
      rewrite length_app in *. simpl in *. lia.
    + by destruct Hr as [-> _].
  - unfold session_state_set_receiver_chain_key, bind. simpl.
    destruct (session_state_find_receiver_chain s eph) as [rc|] eqn:E; [|done].
    simpl. apply Hup. done.
Qed.

Lemma session_state_ops_bounded_witness :
  let eph := EcPublicKey (replicate 32 1) in
  let ck := RatchetChainKey (HkdfContext 1) [] 0 in
  let mk := RatchetMessageKeys [] [] [] 0 in
  let s := session_state_zero in
  let w := World (Some 1%nat) tt in
  let bounded s := (length (ss_receiver_chains s) ≤ MAX_RECEIVER_CHAINS)%nat ∧
    Forall (λ rc, (length (rc_message_keys rc) ≤ MAX_MESSAGE_KEYS)%nat) (ss_receiver_chains s) in
  bounded (session_state_add_receiver_chain eph ck (s, w)).2.1 ∧
  bounded (session_state_set_message_keys eph mk (s, w)).2.1 ∧
  bounded (session_state_remove_message_keys eph 7 (s, w)).2.1 ∧
  bounded (session_state_set_receiver_chain_key eph ck (s, w)).2.1.
Proof.
  apply session_state_ops_bounded. split; [unfold MAX_RECEIVER_CHAINS; simpl; lia | constructor].
Defined.
