(* ===== verification/Ratcheting.v ===== *)
(** Session initialization (ratchet.c, second half): the three- or
    four-part Diffie-Hellman handshake that gives both parties a root key and
    a first chain key. *)

From stdpp Require Import strings.
From S2P Require Import Prelude Buffer Provider Hkdf Curve Vpool Ratchet SessionState.

Definition CIPHERTEXT_CURRENT_VERSION : Z := 3.
Definition CIPHERTEXT_UNSUPPORTED_VERSION : Z := 1.

Record symmetric_signal_protocol_parameters : Type := SymmetricParameters {
  sp_our_identity_key : ratchet_identity_key_pair;
  sp_our_base_key : ec_key_pair;
  sp_our_ratchet_key : ec_key_pair;
  sp_their_base_key : ec_public_key;
  sp_their_ratchet_key : ec_public_key;
  sp_their_identity_key : ec_public_key }.

Record alice_signal_protocol_parameters : Type := AliceParameters {
  ap_our_identity_key : ratchet_identity_key_pair;
  ap_our_base_key : ec_key_pair;
  ap_their_identity_key : ec_public_key;
  ap_their_signed_pre_key : ec_public_key;
  ap_their_one_time_pre_key : option ec_public_key;
  ap_their_ratchet_key : ec_public_key }.

Record bob_signal_protocol_parameters : Type := BobParameters {
  bp_our_identity_key : ratchet_identity_key_pair;
  bp_our_signed_pre_key : ec_key_pair;
  bp_our_one_time_pre_key : option ec_key_pair;
  bp_our_ratchet_key : ec_key_pair;
  bp_their_identity_key : ec_public_key;
  bp_their_base_key : ec_public_key }.

Definition discontinuity_data : bytes := replicate 32 255.
Definition text_info : bytes := Eval vm_compute in str_bytes "WhisperText".

Section Defs.
Context {U : Type} {CP : CryptoProvider U} {C : Curve25519}.

Definition symmetric_signal_protocol_parameters_create
    (our_identity_key : option ratchet_identity_key_pair)
    (our_base_key our_ratchet_key : option ec_key_pair)
    (their_base_key their_ratchet_key their_identity_key : option ec_public_key)
    : M (world U) symmetric_signal_protocol_parameters :=
  match our_identity_key, our_base_key, our_ratchet_key,
        their_base_key, their_ratchet_key, their_identity_key with
  | Some oi, Some ob, Some or_, Some tb, Some tr, Some ti =>
      let* _ := alloc in ret (SymmetricParameters oi ob or_ tb tr ti)
  | _, _, _, _, _, _ => fail SG_ERR_INVAL
  end.

Definition alice_signal_protocol_parameters_create
    (our_identity_key : option ratchet_identity_key_pair)
    (our_base_key : option ec_key_pair)
    (their_identity_key their_signed_pre_key their_one_time_pre_key
     their_ratchet_key : option ec_public_key)
    : M (world U) alice_signal_protocol_parameters :=
  match our_identity_key, our_base_key, their_identity_key,
        their_signed_pre_key, their_ratchet_key with
  | Some oi, Some ob, Some ti, Some ts, Some tr =>
      let* _ := alloc in ret (AliceParameters oi ob ti ts their_one_time_pre_key tr)
  | _, _, _, _, _ => fail SG_ERR_INVAL
  end.

Definition bob_signal_protocol_parameters_create
    (our_identity_key : option ratchet_identity_key_pair)
    (our_signed_pre_key our_one_time_pre_key our_ratchet_key : option ec_key_pair)
    (their_identity_key their_base_key : option ec_public_key)
    : M (world U) bob_signal_protocol_parameters :=
  match our_identity_key, our_signed_pre_key, our_ratchet_key,
        their_identity_key, their_base_key with
  | Some oi, Some os, Some or_, Some ti, Some tb =>
      let* _ := alloc in ret (BobParameters oi os our_one_time_pre_key or_ ti tb)
  | _, _, _, _, _ => fail SG_ERR_INVAL
  end.

(** Every error of the derivation, not only a short output, becomes
    [SG_ERR_UNKNOWN]. *)
Definition ratcheting_session_calculate_derived_keys (secret : bytes)
    : M (world U) (ratchet_root_key * ratchet_chain_key) :=
  let* kdf := hkdf_create 3 in
  let* r := try (hkdf_derive_secrets kdf secret zero_salt (Some text_info) 64) in
  match r with
  | inr _ => fail SG_ERR_UNKNOWN
  | inl output =>
      if negb (zlen output =? 64) then fail SG_ERR_UNKNOWN
      else
        let* root_key := ratchet_root_key_create (Some kdf) (Some (take 32 output)) in
        let* chain_key :=
          ratchet_chain_key_create (Some kdf) (Some (take 32 (drop 32 output))) 0 in
        ret (root_key, chain_key)
  end.

(** [if(vpool_insert(&vp, vpool_get_length(&vp), ..)) .. else SG_ERR_NOMEM] *)
Definition vpool_add (vp : vpool) (data : bytes) : M (world U) vpool :=
  let* r := with_obj vp (vpool_insert (vp_off vp) data) in
  if (r.1 : bool) then ret r.2 else fail SG_ERR_NOMEM.

Definition vpool_add_agreement (vp : vpool) (pk : ec_public_key) (sk : ec_private_key)
    : M (world U) vpool :=
  let* agreement := curve_calculate_agreement (Some pk) (Some sk) in
  vpool_add vp agreement.

Definition ratcheting_session_alice_initialize (p : alice_signal_protocol_parameters)
    : M (session_state * world U) unit :=
  let* sending_ratchet_key := lift curve_generate_key_pair in
  let* vp := lift (vpool_add (vpool_init 1024 0) discontinuity_data) in
  let* vp := lift (vpool_add_agreement vp (ap_their_signed_pre_key p)
                     (ik_private (ap_our_identity_key p))) in
  let* vp := lift (vpool_add_agreement vp (ap_their_identity_key p)
                     (ec_key_pair_get_private (ap_our_base_key p))) in
  let* vp := lift (vpool_add_agreement vp (ap_their_signed_pre_key p)
                     (ec_key_pair_get_private (ap_our_base_key p))) in
  let* vp := match ap_their_one_time_pre_key p with
             | Some otk => lift (vpool_add_agreement vp otk
                                   (ec_key_pair_get_private (ap_our_base_key p)))
             | None => ret vp
             end in
  if vpool_is_empty vp then fail SG_ERR_UNKNOWN
  else
    let* derived := lift (ratcheting_session_calculate_derived_keys (vp_data vp)) in
    let* sending := lift (ratchet_root_key_create_chain derived.1
      (Some (ap_their_ratchet_key p)) (Some (ec_key_pair_get_private sending_ratchet_key))) in
    let* _ := session_state_add_receiver_chain (ap_their_ratchet_key p) derived.2 in
    let* state := get_obj in
    put_obj
      (session_state_set_root_key sending.1
      (session_state_set_sender_chain sending_ratchet_key sending.2
      (session_state_set_local_identity_key (ik_public (ap_our_identity_key p))
      (session_state_set_remote_identity_key (ap_their_identity_key p)
      (session_state_set_session_version CIPHERTEXT_CURRENT_VERSION state))))).

Definition ratcheting_session_bob_initialize (p : bob_signal_protocol_parameters)
    : M (session_state * world U) unit :=
  let* vp := lift (vpool_add (vpool_init 1024 0) discontinuity_data) in
  let* vp := lift (vpool_add_agreement vp (bp_their_identity_key p)
                     (ec_key_pair_get_private (bp_our_signed_pre_key p))) in
  let* vp := lift (vpool_add_agreement vp (bp_their_base_key p)
                     (ik_private (bp_our_identity_key p))) in
  let* vp := lift (vpool_add_agreement vp (bp_their_base_key p)
                     (ec_key_pair_get_private (bp_our_signed_pre_key p))) in
  let* vp := match bp_our_one_time_pre_key p with
             | Some otk => lift (vpool_add_agreement vp (bp_their_base_key p)
                                   (ec_key_pair_get_private otk))
             | None => ret vp
             end in
  if vpool_is_empty vp then fail SG_ERR_UNKNOWN
  else
    let* derived := lift (ratcheting_session_calculate_derived_keys (vp_data vp)) in
    let* state := get_obj in
    put_obj
      (session_state_set_root_key derived.1
      (session_state_set_sender_chain (bp_our_ratchet_key p) derived.2
      (session_state_set_local_identity_key (ik_public (bp_our_identity_key p))
      (session_state_set_remote_identity_key (bp_their_identity_key p)
      (session_state_set_session_version CIPHERTEXT_CURRENT_VERSION state))))).

Definition ratcheting_session_symmetric_is_alice (p : symmetric_signal_protocol_parameters)
    : bool :=
  ec_public_key_memcmp (Some (ec_key_pair_get_public (sp_our_base_key p)))
    (Some (sp_their_base_key p)) <? 0.

Definition ratcheting_session_symmetric_initialize (p : symmetric_signal_protocol_parameters)
    : M (session_state * world U) unit :=
  if ratcheting_session_symmetric_is_alice p then
    let* alice := lift (alice_signal_protocol_parameters_create
      (Some (sp_our_identity_key p)) (Some (sp_our_base_key p))
      (Some (sp_their_identity_key p)) (Some (sp_their_base_key p)) None
      (Some (sp_their_ratchet_key p))) in
    ratcheting_session_alice_initialize alice
  else
    let* bob := lift (bob_signal_protocol_parameters_create
      (Some (sp_our_identity_key p)) (Some (sp_our_base_key p)) None
      (Some (sp_our_ratchet_key p)) (Some (sp_their_identity_key p))
      (Some (sp_their_base_key p))) in
    ratcheting_session_bob_initialize bob.
End Defs.

(** ** What initialization computes *)

Section Spec.
Context {U : Type} {CP : CryptoProvider U} {HL : HmacLaws CP} {RL : RandomLaws CP}
  {C : Curve25519} {D : DhLaws C}.

Definition x3dh_derive (secret : bytes) : ratchet_root_key * ratchet_chain_key :=
  let out := rfc_hkdf 1 secret zero_salt text_info 64 in
  (RatchetRootKey (HkdfContext 1) (take 32 out),
   RatchetChainKey (HkdfContext 1) (take 32 (drop 32 out)) 0).

(** The input of the derivation: 32 bytes of 0xFF and the agreements. *)
Definition x3dh_secret (d1 d2 d3 : bytes) (d4 : option bytes) : bytes :=
  discontinuity_data ++ d1 ++ d2 ++ d3 ++ default [] d4.

Definition alice_secret (p : alice_signal_protocol_parameters) : bytes :=
  let agree pk (sk : ec_private_key) := dh (sk_data sk) (pk_data pk) in
  x3dh_secret (agree (ap_their_signed_pre_key p) (ik_private (ap_our_identity_key p)))
    (agree (ap_their_identity_key p) (kp_private (ap_our_base_key p)))
    (agree (ap_their_signed_pre_key p) (kp_private (ap_our_base_key p)))
    ((λ otk, agree otk (kp_private (ap_our_base_key p))) <$> ap_their_one_time_pre_key p).

Definition bob_secret (p : bob_signal_protocol_parameters) : bytes :=
  let agree pk (sk : ec_private_key) := dh (sk_data sk) (pk_data pk) in
  x3dh_secret (agree (bp_their_identity_key p) (kp_private (bp_our_signed_pre_key p)))
    (agree (bp_their_base_key p) (ik_private (bp_our_identity_key p)))
    (agree (bp_their_base_key p) (kp_private (bp_our_signed_pre_key p)))
    ((λ otk, agree (bp_their_base_key p) (kp_private otk)) <$> bp_our_one_time_pre_key p).

Definition alice_initialized (p : alice_signal_protocol_parameters) (kp : ec_key_pair)
    (s : session_state) : session_state :=
  let derived := x3dh_derive (alice_secret p) in
  let sending := rk_chain derived.1
    (dh (sk_data (kp_private kp)) (pk_data (ap_their_ratchet_key p))) in
  session_state_set_root_key sending.1
    (session_state_set_sender_chain kp sending.2
    (session_state_set_local_identity_key (ik_public (ap_our_identity_key p))
    (session_state_set_remote_identity_key (ap_their_identity_key p)
    (session_state_set_session_version CIPHERTEXT_CURRENT_VERSION
    (set_receiver_chains (trim_front MAX_RECEIVER_CHAINS (ss_receiver_chains s ++
       [ReceiverChain (Some (ap_their_ratchet_key p)) (Some derived.2) []])) s))))).

Definition bob_initialized (p : bob_signal_protocol_parameters) (s : session_state)
    : session_state :=
  let derived := x3dh_derive (bob_secret p) in
  session_state_set_root_key derived.1
    (session_state_set_sender_chain (bp_our_ratchet_key p) derived.2
    (session_state_set_local_identity_key (ik_public (bp_our_identity_key p))
    (session_state_set_remote_identity_key (bp_their_identity_key p)
    (session_state_set_session_version CIPHERTEXT_CURRENT_VERSION s)))).

(** *** Lemmas *)

Lemma calculate_derived_keys_calm (u : U) secret :
  ratcheting_session_calculate_derived_keys secret (calm u)
  = (Ok (x3dh_derive secret), calm u).
Proof.
  unfold ratcheting_session_calculate_derived_keys.
  step_to (HkdfContext 1) (calm u) by done.
  assert (hkdf_derive_secrets (HkdfContext 1) secret zero_salt (Some text_info) 64 (calm u)
    = (Ok (rfc_hkdf 1 secret zero_salt text_info 64), calm u)) as Hd.
  { apply (hkdf_derive_secrets_run u (HkdfContext 1)); by apply Z.leb_le. }
  step_to (inl (rfc_hkdf 1 secret zero_salt text_info 64)) (calm u)
    by (unfold try; by rewrite Hd).
  unfold zlen. rewrite (proj1 (zlen_length _ 64) (rfc_hkdf_length _ _ _ _ 64 ltac:(done))).
  done.
Qed.

Definition small_pool (p : vpool) : Prop :=
  vpool_inv p ∧ vp_limit p = SIZE_MAX ∧ vp_blksize p = 1024.

Lemma vpool_add_calm (u : U) p d :
  small_pool p → vp_off p + zlen d <= 2 ^ 40 →
  ∃ p', vpool_add p d (calm u) = (Ok p', calm u) ∧ small_pool p' ∧
    vp_data p' = vp_data p ++ d.
Proof.
  intros (Hi & Hl & Hb) Hsz.
  destruct (vpool_append_calm u p d Hi) as (p' & Hr & Hi' & Hd & Hl' & Hb');
    [unfold SIZE_MAX in *; lia..|].
  exists p'. split; [|split; [split_and!; congruence|done]].
  unfold vpool_add, bind, with_obj. by rewrite Hr.
Qed.

Lemma vpool_add_agreement_calm (u : U) p pk sk :
  small_pool p → vp_off p <= 900 →
  ∃ p', vpool_add_agreement p pk sk (calm u) = (Ok p', calm u) ∧ small_pool p' ∧
    vp_data p' = vp_data p ++ dh (sk_data sk) (pk_data pk) ∧ vp_off p' = vp_off p + 32.
Proof.
  intros Hp Hsz.
  assert (zlen (dh (sk_data sk) (pk_data pk)) = 32) as Hd
    by (unfold zlen; by rewrite dh_length).
  destruct (vpool_add_calm u p (dh (sk_data sk) (pk_data pk)) Hp) as (p' & Hr & Hp' & Hdata);
    [lia|].
  exists p'. split_and!; [|done|done|unfold vp_off; rewrite Hdata, zlen_app, Hd; lia].
  unfold vpool_add_agreement. by step (curve_calculate_agreement_calm u).
Qed.

Lemma vpool_start_calm (u : U) :
  ∃ p, vpool_add (vpool_init 1024 0) discontinuity_data (calm u) = (Ok p, calm u) ∧
    small_pool p ∧ vp_data p = discontinuity_data ∧ vp_off p = 32.
Proof.
  destruct (vpool_add_calm u (vpool_init 1024 0) discontinuity_data) as (p & Hr & Hp & Hd).
  - split; [|done]. by apply vpool_init_inv.
  - by apply Z.leb_le.
  - exists p. split_and!; try done. unfold vp_off. by rewrite Hd.
Qed.

(** Steps over one [vpool_add_agreement] in either handshake. *)
Local Ltac add_agreement u vp Hp Ho :=
  let vp' := fresh "vp" in let Hr := fresh "Hr" in let Hd := fresh "Hd" in
  let Hp' := fresh "Hp" in let Ho' := fresh "Ho" in
  match goal with
  | |- bind (lift (vpool_add_agreement vp ?pk ?sk)) _ _ = _ =>
      destruct (vpool_add_agreement_calm u vp pk sk Hp ltac:(rewrite ?Ho; lia))
        as (vp' & Hr & Hp' & Hd & Ho');
      rewrite Ho in Ho'; step (lift_run _ _ _ _ _ Hr)
  end.

Lemma alice_initialize_calm (u : U) p s :
  ∃ bs u', random_func 32 u = (Ok bs, u') ∧ length bs = 32%nat ∧
    ratcheting_session_alice_initialize p (s, calm u)
    = (Ok tt, (alice_initialized p (pair_of bs) s, calm u')).
Proof.
  destruct (curve_generate_key_pair_calm u) as (bs & u' & Hrand & Hl & Hg).
  exists bs, u'. split_and!; [done..|]. unfold ratcheting_session_alice_initialize.
  step (lift_run _ _ _ _ _ Hg).
  destruct (vpool_start_calm u') as (vp & Hr & Hp & Hd & Ho).
  step (lift_run _ _ _ _ _ Hr).
  add_agreement u' vp Hp Ho. add_agreement u' vp0 Hp0 Ho0. add_agreement u' vp1 Hp1 Ho1.
  assert (∃ vp3, match ap_their_one_time_pre_key p with
    | Some otk => lift (vpool_add_agreement vp2 otk
                          (ec_key_pair_get_private (ap_our_base_key p)))
    | None => ret vp2 end (s, calm u') = (Ok vp3, (s, calm u')) ∧
    vp_data vp3 = alice_secret p ∧ vp_off vp3 ≠ 0) as (vp3 & Hr3 & Hd3 & Ho3).
  { assert (vp_data vp2 = alice_secret (AliceParameters (ap_our_identity_key p)
      (ap_our_base_key p) (ap_their_identity_key p) (ap_their_signed_pre_key p) None
      (ap_their_ratchet_key p))) as Hbase.
    { rewrite Hd2, Hd1, Hd0, Hd. unfold alice_secret, x3dh_secret. simpl.
      by rewrite app_nil_r, <-!app_assoc. }
    destruct (ap_their_one_time_pre_key p) as [otk|] eqn:Eo.
    - destruct (vpool_add_agreement_calm u' vp2 otk (kp_private (ap_our_base_key p)) Hp2
        ltac:(lia)) as (vp3 & Hr3 & _ & Hd3 & Ho3).
      exists vp3. split_and!; [by apply lift_run| |lia].
      rewrite Hd3, Hbase. unfold alice_secret, x3dh_secret. simpl. rewrite Eo. simpl.
      by rewrite app_nil_r, <-!app_assoc.
    - exists vp2. split_and!; [done| |lia]. rewrite Hbase.
      unfold alice_secret. simpl. by rewrite Eo. }
  step Hr3. unfold vpool_is_empty. rewrite (proj2 (Z.eqb_neq _ _) Ho3), Hd3.
  step (lift_run _ _ _ _ _ (calculate_derived_keys_calm u' (alice_secret p))).
  step (lift_run _ _ _ _ _ (create_chain_calm u' (x3dh_derive (alice_secret p)).1
    (ap_their_ratchet_key p) (kp_private (pair_of bs)) ltac:(unfold wf_kdf; simpl; lia))).
  step (add_receiver_chain_calm u'). done.
Qed.

Lemma bob_initialize_calm (u : U) p s :
  ratcheting_session_bob_initialize p (s, calm u) = (Ok tt, (bob_initialized p s, calm u)).
Proof.
  unfold ratcheting_session_bob_initialize.
  destruct (vpool_start_calm u) as (vp & Hr & Hp & Hd & Ho).
  step (lift_run _ _ _ _ _ Hr).
  add_agreement u vp Hp Ho. add_agreement u vp0 Hp0 Ho0. add_agreement u vp1 Hp1 Ho1.
  assert (∃ vp3, match bp_our_one_time_pre_key p with
    | Some otk => lift (vpool_add_agreement vp2 (bp_their_base_key p)
                          (ec_key_pair_get_private otk))
    | None => ret vp2 end (s, calm u) = (Ok vp3, (s, calm u)) ∧
    vp_data vp3 = bob_secret p ∧ vp_off vp3 ≠ 0) as (vp3 & Hr3 & Hd3 & Ho3).
  { assert (vp_data vp2 = bob_secret (BobParameters (bp_our_identity_key p)
      (bp_our_signed_pre_key p) None (bp_our_ratchet_key p) (bp_their_identity_key p)
      (bp_their_base_key p))) as Hbase.
    { rewrite Hd2, Hd1, Hd0, Hd. unfold bob_secret, x3dh_secret. simpl.
      by rewrite app_nil_r, <-!app_assoc. }
    destruct (bp_our_one_time_pre_key p) as [otk|] eqn:Eo.
    - destruct (vpool_add_agreement_calm u vp2 (bp_their_base_key p) (kp_private otk) Hp2
        ltac:(lia)) as (vp3 & Hr3 & _ & Hd3 & Ho3).
      exists vp3. split_and!; [by apply lift_run| |lia].
      rewrite Hd3, Hbase. unfold bob_secret, x3dh_secret. simpl. rewrite Eo. simpl.
      by rewrite app_nil_r, <-!app_assoc.
    - exists vp2. split_and!; [done| |lia]. rewrite Hbase.
      unfold bob_secret. simpl. by rewrite Eo. }
  step Hr3. unfold vpool_is_empty. rewrite (proj2 (Z.eqb_neq _ _) Ho3), Hd3.
  step (lift_run _ _ _ _ _ (calculate_derived_keys_calm u (bob_secret p))). done.
Qed.

(** Alice's and Bob's parameters for one handshake. *)
Definition x3dh_alice (idA : ec_key_pair) (baseA : ec_key_pair) (idB spkB : ec_key_pair)
    (otkB : option ec_key_pair) (ratchetB : ec_key_pair) : alice_signal_protocol_parameters :=
  AliceParameters (RatchetIdentityKeyPair (kp_public idA) (kp_private idA)) baseA
    (kp_public idB) (kp_public spkB) (kp_public <$> otkB) (kp_public ratchetB).
Definition x3dh_bob (idA : ec_key_pair) (baseA : ec_key_pair) (idB spkB : ec_key_pair)
    (otkB : option ec_key_pair) (ratchetB : ec_key_pair) : bob_signal_protocol_parameters :=
  BobParameters (RatchetIdentityKeyPair (kp_public idB) (kp_private idB)) spkB otkB ratchetB
    (kp_public idA) (kp_public baseA).

Lemma x3dh_secrets_agree idA baseA idB spkB otkB ratchetB :
  wf_pair idA → wf_pair baseA → wf_pair idB → wf_pair spkB →
  (∀ k, otkB = Some k → wf_pair k) →
  alice_secret (x3dh_alice idA baseA idB spkB otkB ratchetB)
  = bob_secret (x3dh_bob idA baseA idB spkB otkB ratchetB).
Proof.
  intros HA Ha HB Hs Ho. unfold alice_secret, bob_secret. simpl.
  rewrite (agreement_comm idA spkB), (agreement_comm baseA idB),
    (agreement_comm baseA spkB) by done.
  f_equal. destruct otkB as [k|]; [|done]. simpl. f_equal. apply agreement_comm; auto.
Qed.

(** C6: after the handshake the two parties agree.  Whatever pre-existing
    states they start from, Alice's receiving chain for Bob's ratchet key is
    Bob's sending chain; Alice's sending chain and root key are what one
    Diffie-Hellman step of Bob's root key against Alice's ratchet key gives;
    identities are crossed and both sessions have version 3. *)
Theorem x3dh_agreement (uA uB : U) (idA baseA idB spkB ratchetB : ec_key_pair)
    (otkB : option ec_key_pair) (sA sB : session_state) :
  wf_pair idA → wf_pair baseA → wf_pair idB → wf_pair spkB → wf_pair ratchetB →
  (∀ k, otkB = Some k → wf_pair k) →
  session_state_find_receiver_chain sA (kp_public ratchetB) = None →
  ∃ kpA sA' uA' sB' rootB,
    ratcheting_session_alice_initialize (x3dh_alice idA baseA idB spkB otkB ratchetB)
      (sA, calm uA) = (Ok tt, (sA', calm uA')) ∧
    ratcheting_session_bob_initialize (x3dh_bob idA baseA idB spkB otkB ratchetB)
      (sB, calm uB) = (Ok tt, (sB', calm uB)) ∧
    wf_pair kpA ∧
    sc_ratchet_key_pair (ss_sender_chain sA') = Some kpA ∧
    sc_ratchet_key_pair (ss_sender_chain sB') = Some ratchetB ∧
    session_state_get_receiver_chain_key sA' (kp_public ratchetB)
      = session_state_get_sender_chain_key sB' ∧
    ss_root_key sB' = Some rootB ∧
    (let step := rk_chain rootB
       (dh (sk_data (kp_private ratchetB)) (pk_data (kp_public kpA))) in
     ss_root_key sA' = Some step.1 ∧
     session_state_get_sender_chain_key sA' = Some step.2) ∧
    ss_local_identity_public sA' = ss_remote_identity_public sB' ∧
    ss_remote_identity_public sA' = ss_local_identity_public sB' ∧
    ss_session_version sA' = 3 ∧ ss_session_version sB' = 3.
Proof.
  intros HA Ha HB Hs Hr Ho Hfind.
  destruct (alice_initialize_calm uA (x3dh_alice idA baseA idB spkB otkB ratchetB) sA)
    as (bs & uA' & _ & Hl & HrA).
  pose proof (pair_of_wf bs Hl) as Hkp.
  eexists (pair_of bs), _, uA', _, _.
  split_and!; [exact HrA | apply bob_initialize_calm | exact Hkp | ..];
    rewrite ?(x3dh_secrets_agree _ _ _ _ _ ratchetB HA Ha HB Hs Ho);
    unfold alice_initialized, bob_initialized;
    rewrite ?(x3dh_secrets_agree _ _ _ _ _ ratchetB HA Ha HB Hs Ho); destruct sA, sB;
    try done.
  - unfold session_state_get_receiver_chain_key, session_state_find_receiver_chain. simpl.
    by rewrite find_receiver_chain_added by (done || by apply wf_pair_pk).
  - simpl. unfold session_state_get_sender_chain_key. simpl.
    by rewrite (agreement_comm (pair_of bs) ratchetB).
Qed.

End Spec.

Import Toy.

Lemma x3dh_agreement_witness :
  let k n := pair_of (replicate 32 n) in
  ∃ kpA sA' uA' sB' rootB,
    ratcheting_session_alice_initialize (x3dh_alice (k 9) (k 17) (k 25) (k 33) (Some (k 41)) (k 33))
      (session_state_zero, calm 0) = (Ok tt, (sA', calm uA')) ∧
    ratcheting_session_bob_initialize (x3dh_bob (k 9) (k 17) (k 25) (k 33) (Some (k 41)) (k 33))
      (session_state_zero, calm 1) = (Ok tt, (sB', calm 1)) ∧
    wf_pair kpA ∧
    sc_ratchet_key_pair (ss_sender_chain sA') = Some kpA ∧
    sc_ratchet_key_pair (ss_sender_chain sB') = Some (k 33) ∧
    session_state_get_receiver_chain_key sA' (kp_public (k 33))
      = session_state_get_sender_chain_key sB' ∧
    ss_root_key sB' = Some rootB ∧
    (let step := rk_chain rootB
       (dh (sk_data (kp_private (k 33))) (pk_data (kp_public kpA))) in
     ss_root_key sA' = Some step.1 ∧
     session_state_get_sender_chain_key sA' = Some step.2) ∧
    ss_local_identity_public sA' = ss_remote_identity_public sB' ∧
    ss_remote_identity_public sA' = ss_local_identity_public sB' ∧
    ss_session_version sA' = 3 ∧ ss_session_version sB' = 3.
Proof.
  apply (x3dh_agreement (CP:=Toy.provider)); try (apply pair_of_wf; reflexivity); [|reflexivity].
  intros ? [= <-]. apply pair_of_wf; reflexivity.
Defined.

