(* ===== verification/Window.v ===== *)
(** The abstract receiver of a chain of message keys.

    It only counts: the next counter of the chain and the skipped counters it
    still accepts, at most 2000 of them.  The receiving side of a session
    (CipherKeys) and of a group session (GroupKeys) refine it with the keys
    their chains give. *)

From S2P Require Import Prelude SessionState.

(** The next counter of the chain and the skipped ones, oldest first. *)
Record recv : Type := Recv { r_next : Z; r_skipped : list Z }.

Inductive verdict := Accept | Duplicate | TooFar.
#[export] Instance verdict_eq_dec : EqDecision verdict.
Proof. solve_decision. Defined.

Definition recv_step (r : recv) (c : Z) : verdict * recv :=
  if c <? r_next r then
    if decide (c ∈ r_skipped r) then (Accept, Recv (r_next r) (filter (.≠ c) (r_skipped r)))
    else (Duplicate, r)
  else if 2000 <? c - r_next r then (TooFar, r)
  else (Accept, Recv (c + 1)
    (trim_front MAX_MESSAGE_KEYS (r_skipped r ++ seqZ (r_next r) (c - r_next r)))).

Fixpoint recv_run (r : recv) (cs : list Z) : list verdict * recv :=
  match cs with
  | [] => ([], r)
  | c :: cs => let '(v, r') := recv_step r c in
      let '(vs, r'') := recv_run r' cs in (v :: vs, r'')
  end.

Definition recv_inv (r : recv) : Prop :=
  0 <= r_next r < 2 ^ 32 ∧ (length (r_skipped r) ≤ MAX_MESSAGE_KEYS)%nat ∧
  NoDup (r_skipped r) ∧ Forall (λ c, 0 <= c < r_next r) (r_skipped r).

Lemma recv_skip_elem r c x :
  x ∈ trim_front MAX_MESSAGE_KEYS (r_skipped r ++ seqZ (r_next r) (c - r_next r)) →
  x ∈ r_skipped r ∨ r_next r <= x < c.
Proof.
  intros Hx. pose proof (elem_of_sublist _ _ _ Hx (trim_front_sublist _ _)) as [|Hs]%elem_of_app;
    [by left|]. apply elem_of_seqZ in Hs. lia.
Qed.

Lemma recv_step_inv r c :
  recv_inv r → 0 <= c < 2 ^ 32 - 1 → recv_inv (recv_step r c).2.
Proof.
  intros (Hn & Hl & Hd & Hf) Hc. unfold recv_step.
  destruct (Z.ltb_spec c (r_next r)).
  { case_decide; [|done]. unfold recv_inv. simpl. split_and!; [lia..| | |].
    - etrans; [apply length_filter|done].
    - by apply NoDup_filter.
    - apply Forall_forall. intros x [_ Hx]%list_elem_of_filter.
      rewrite Forall_forall in Hf. by apply Hf. }
  destruct (Z.ltb_spec 2000 (c - r_next r)); [done|]. unfold recv_inv. simpl.
  rewrite Forall_forall in Hf.
  split_and!; [lia..|apply trim_front_length| |].
  - eapply sublist_NoDup; [|apply trim_front_sublist]. apply NoDup_app.
    split_and!; [done| |apply NoDup_seqZ]. intros x Hx%Hf Hx'%elem_of_seqZ. lia.
  - apply Forall_forall. intros x [Hx%Hf|Hx]%recv_skip_elem; lia.
Qed.

(** Once accepted, a counter is neither ahead of the chain nor skipped, and
    stays so. *)
Definition spent (r : recv) (c : Z) : Prop := c < r_next r ∧ c ∉ r_skipped r.

Lemma recv_step_spends r c : recv_inv r → (recv_step r c).1 = Accept → spent (recv_step r c).2 c.
Proof.
  intros (Hn & Hl & Hd & Hf). rewrite Forall_forall in Hf. unfold recv_step.
  destruct (Z.ltb_spec c (r_next r)).
  { case_decide; [|done]. intros _. split; [done|]. simpl. rewrite list_elem_of_filter. naive_solver. }
  destruct (Z.ltb_spec 2000 (c - r_next r)); [done|]. intros _. split; simpl; [lia|].
  intros [Hx%Hf|Hx]%recv_skip_elem; lia.
Qed.

Lemma recv_step_spent r c d : spent r d → spent (recv_step r c).2 d.
Proof.
  intros [Hd1 Hd2]. unfold recv_step.
  destruct (Z.ltb_spec c (r_next r)).
  { case_decide; [|done]. split; [done|]. simpl. rewrite list_elem_of_filter. naive_solver. }
  destruct (Z.ltb_spec 2000 (c - r_next r)); [done|]. split; simpl; [lia|].
  intros [Hx|Hx]%recv_skip_elem; [done|lia].
Qed.

Lemma recv_step_spent_duplicate r c : spent r c → recv_step r c = (Duplicate, r).
Proof.
  intros [H1 H2]. unfold recv_step. rewrite (proj2 (Z.ltb_lt _ _) H1). by rewrite decide_False.
Qed.

Lemma recv_run_app r cs ds :
  recv_run r (cs ++ ds) =
  ((recv_run r cs).1 ++ (recv_run (recv_run r cs).2 ds).1, (recv_run (recv_run r cs).2 ds).2).
Proof.
  revert r. induction cs as [|c cs IH]; intros r; simpl; [by destruct (recv_run r ds)|].
  destruct (recv_step r c) as [v r']. rewrite IH.
  by destruct (recv_run r' cs).
Qed.

Lemma recv_run_spent_duplicate r cs i c :
  spent r c → cs !! i = Some c → (recv_run r cs).1 !! i = Some Duplicate.
Proof.
  revert r i. induction cs as [|d cs IH]; intros r i Hs Hi; [done|]. simpl.
  pose proof (recv_step_spent r d c Hs) as Hs'.
  destruct i as [|i]; simpl in Hi.
  - injection Hi as ->. rewrite recv_step_spent_duplicate by done.
    by destruct (recv_run r cs).
  - destruct (recv_step r d) as [v r']. specialize (IH r' i Hs' Hi).
    by destruct (recv_run r' cs).
Qed.

(** Whatever is delivered and in whatever order, no counter is accepted
    twice. *)
Lemma recv_run_once r cs i j c :
  recv_inv r → Forall (λ c, 0 <= c < 2 ^ 32 - 1) cs → (i < j)%nat →
  cs !! i = Some c → cs !! j = Some c →
  (recv_run r cs).1 !! i = Some Accept → (recv_run r cs).1 !! j = Some Duplicate.
Proof.
  revert r i j. induction cs as [|d cs IH]; intros r i j Hr Hf Hij Hi Hj; [done|].
  apply Forall_cons in Hf as [Hd Hf]. simpl.
  destruct j as [|j]; [lia|]. pose proof (recv_step_inv r d Hr Hd) as Hr'.
  pose proof (recv_step_spends r d Hr) as Hs.
  destruct (recv_step r d) as [v r']. simpl in *.
  specialize (IH r'). pose proof (recv_run_spent_duplicate r' cs j c) as Hdup.
  destruct (recv_run r' cs) as [vs r'']. destruct i as [|i]; simpl in *.
  - injection Hi as ->. intros [= ->]. auto.
  - intros Ha. apply (IH i j Hr' Hf ltac:(lia) Hi Hj Ha).
Qed.

(** The counters below [bound] that are still to come. *)
Definition outstanding (r : recv) (bound : Z) : list Z :=
  r_skipped r ++ seqZ (r_next r) (bound - r_next r).

Lemma recv_step_outstanding r bound c cs :
  recv_inv r → c :: cs ≡ₚ outstanding r bound →
  (length (outstanding r bound) ≤ MAX_MESSAGE_KEYS)%nat → r_next r <= bound →
  let '(v, r') := recv_step r c in
  v = Accept ∧ cs ≡ₚ outstanding r' bound ∧
  (length (outstanding r' bound) ≤ MAX_MESSAGE_KEYS)%nat ∧ r_next r' <= bound.
Proof.
  intros (_ & _ & Hd & Hs) Hp Hlen Hb. rewrite Forall_forall in Hs.
  assert (c ∈ outstanding r bound) as Hc by (rewrite <-Hp; left).
  pose proof (Permutation_length Hp) as Hpl. simpl in Hpl.
  cut (let '(v, r') := recv_step r c in
       v = Accept ∧ cs ≡ₚ outstanding r' bound ∧ r_next r' <= bound).
  { destruct (recv_step r c) as [v r']. intros (-> & Hp' & Hb').
    split_and!; try done. rewrite <-(Permutation_length Hp'). lia. }
  unfold recv_step. unfold outstanding in *. destruct (Z.ltb_spec c (r_next r)) as [Hlt|Hge].
  - assert (c ∈ r_skipped r) as Hcs.
    { apply elem_of_app in Hc as [?|Hc%elem_of_seqZ]; [done|lia]. }
    rewrite decide_True by done. simpl. split_and!; try done.
    apply (Permutation_cons_inv (a:=c)). rewrite Hp.
    rewrite <-(filter_present_perm _ _ Hd Hcs) at 1. done.
  - apply elem_of_app in Hc as [Hc%Hs|Hc%elem_of_seqZ]; [lia|].
    rewrite length_app, length_seqZ in Hlen. unfold MAX_MESSAGE_KEYS in *.
    rewrite (proj2 (Z.ltb_ge _ _)) by lia. simpl.
    rewrite trim_front_le by (rewrite length_app, length_seqZ; lia).
    split_and!; [done| |lia]. apply (Permutation_cons_inv (a:=c)). rewrite Hp.
    replace (bound - r_next r) with ((c - r_next r) + (1 + (bound - (c + 1)))) by lia.
    rewrite seqZ_app by lia. rewrite (seqZ_cons (r_next r + (c - r_next r))) by lia.
    replace (r_next r + (c - r_next r)) with c by lia.
    replace (Z.pred (1 + (bound - (c + 1)))) with (bound - (c + 1)) by lia.
    rewrite <-(app_assoc (r_skipped r)). rewrite <-Z.add_1_r. solve_Permutation.
Qed.

(** All of them, in any order, are accepted, and none remains. *)
Lemma recv_run_outstanding r bound cs :
  recv_inv r → bound < 2 ^ 32 → cs ≡ₚ outstanding r bound →
  (length (outstanding r bound) ≤ MAX_MESSAGE_KEYS)%nat → r_next r <= bound →
  recv_run r cs = (replicate (length cs) Accept, Recv bound []).
Proof.
  revert r. induction cs as [|c cs IH]; intros r Hr Hb2 Hp Hlen Hb.
  { symmetry in Hp. apply Permutation_nil_r in Hp. unfold outstanding in Hp.
    apply app_nil in Hp as [Hs Hn]. apply (f_equal length) in Hn. rewrite length_seqZ in Hn.
    destruct r as [n sk]. simpl in *. subst. do 2 f_equal. lia. }
  pose proof (recv_step_outstanding r bound c cs Hr Hp Hlen Hb) as Hst. simpl.
  assert (0 <= c < 2 ^ 32 - 1) as Hc.
  { assert (c ∈ outstanding r bound) as Hc by (rewrite <-Hp; left).
    destruct Hr as (Hn & _ & _ & Hs). rewrite Forall_forall in Hs.
    apply elem_of_app in Hc as [Hc%Hs|Hc%elem_of_seqZ]; lia. }
  pose proof (recv_step_inv r c Hr Hc) as Hr'.
  destruct (recv_step r c) as [v r']. destruct Hst as (-> & Hp' & Hlen' & Hb').
  by rewrite (IH r' Hr' Hb2 Hp' Hlen' Hb').
Qed.
