(* ===== verification/CipherKeys.v ===== *)
(** The key schedule of a received message (session_cipher.c, lines 557-721
    and 794-866): finding or creating the receiving chain for a ratchet key,
    walking it to the message's counter while saving the keys it skips, and
    the payload cipher.

    [receive_refines] shows that the code refines the abstract receiver of
    Window with the keys the sender's chain gives. *)

From S2P Require Import Prelude Buffer Provider Hkdf Curve Vpool Ratchet SessionState Ratcheting.
From S2P Require Import Window.

Section Defs.
Context {U : Type} {CP : CryptoProvider U} {C : Curve25519}.

(** A failure after [session_state_set_root_key] leaves the new root key in
    the state, as in the code. *)
Definition session_cipher_get_or_create_chain_key (their_ephemeral : ec_public_key)
    : M (session_state * world U) ratchet_chain_key :=
  let* state := get_obj in
  match session_state_get_receiver_chain_key state their_ephemeral with
  | Some result_key => ret result_key
  | None =>
      let* root_key := non_null (ss_root_key state) SG_ERR_UNKNOWN in
      let* our_ephemeral :=
        non_null (sc_ratchet_key_pair (ss_sender_chain state)) SG_ERR_UNKNOWN in
      let* receiver := lift (ratchet_root_key_create_chain root_key
        (Some their_ephemeral) (Some (ec_key_pair_get_private our_ephemeral))) in
      let* our_new_ephemeral := lift curve_generate_key_pair in
      let* sender := lift (ratchet_root_key_create_chain receiver.1
        (Some their_ephemeral) (Some (ec_key_pair_get_private our_new_ephemeral))) in
      let* _ := put_obj (session_state_set_root_key sender.1 state) in
      let* _ := session_state_add_receiver_chain their_ephemeral receiver.2 in
      let* state := get_obj in
      let* previous := non_null (session_state_get_sender_chain_key state) SG_ERR_UNKNOWN in
      let index := ratchet_chain_key_get_index previous in
      let index := if 0 <? index then index - 1 else index in
      let* _ := put_obj
        (session_state_set_sender_chain our_new_ephemeral sender.2
          (session_state_set_previous_counter index state)) in
      ret receiver.2
  end.

(** [while(ratchet_chain_key_get_index(cur_chain_key) < counter)] *)
Fixpoint message_keys_loop (fuel : nat) (their_ephemeral : ec_public_key)
    (cur_chain_key : ratchet_chain_key) (counter : Z)
    : M (session_state * world U) ratchet_chain_key :=
  match fuel with
  | O => hang
  | S fuel =>
      if ratchet_chain_key_get_index cur_chain_key <? counter then
        let* message_keys := lift (ratchet_chain_key_get_message_keys cur_chain_key) in
        let* _ := session_state_set_message_keys their_ephemeral message_keys in
        let* next_chain_key := lift (ratchet_chain_key_create_next cur_chain_key) in
        message_keys_loop fuel their_ephemeral next_chain_key counter
      else ret cur_chain_key
  end.

(** The guard before the loop bounds it by 2000 steps. *)
Definition session_cipher_get_or_create_message_keys (their_ephemeral : ec_public_key)
    (chain_key : ratchet_chain_key) (counter : Z)
    : M (session_state * world U) ratchet_message_keys :=
  if counter <? ratchet_chain_key_get_index chain_key then
    let* removed := session_state_remove_message_keys their_ephemeral counter in
    match removed with
    | Some message_keys => ret message_keys
    | None => fail SG_ERR_DUPLICATE_MESSAGE
    end
  else if 2000 <? u32 (counter - ratchet_chain_key_get_index chain_key) then
    fail SG_ERR_INVALID_MESSAGE
  else
    let* cur_chain_key := message_keys_loop 2001 their_ephemeral chain_key counter in
    let* next_chain_key := lift (ratchet_chain_key_create_next cur_chain_key) in
    let* _ := session_state_set_receiver_chain_key their_ephemeral next_chain_key in
    lift (ratchet_chain_key_get_message_keys cur_chain_key).

(** The iv of a version 2 message: the counter, big endian. *)
Definition counter_iv (counter : Z) : bytes :=
  [u8 (Z.shiftr counter 24); u8 (Z.shiftr counter 16); u8 (Z.shiftr counter 8); u8 counter]
  ++ replicate 12 0.

Definition session_cipher_get_ciphertext (version : Z) (message_keys : ratchet_message_keys)
    (plaintext : bytes) : M (world U) bytes :=
  if 3 <=? version then
    signal_encrypt SG_CIPHER_AES_CBC_PKCS5 (mk_cipher_key message_keys) (mk_iv message_keys)
      plaintext
  else
    signal_encrypt SG_CIPHER_AES_CTR_NOPADDING (mk_cipher_key message_keys)
      (counter_iv (mk_counter message_keys)) plaintext.

Definition session_cipher_get_plaintext (version : Z) (message_keys : ratchet_message_keys)
    (ciphertext : bytes) : M (world U) bytes :=
  if 3 <=? version then
    signal_decrypt SG_CIPHER_AES_CBC_PKCS5 (mk_cipher_key message_keys) (mk_iv message_keys)
      ciphertext
  else
    signal_decrypt SG_CIPHER_AES_CTR_NOPADDING (mk_cipher_key message_keys)
      (counter_iv (mk_counter message_keys)) ciphertext.
End Defs.
Global Arguments message_keys_loop : simpl never.

Lemma message_keys_loop_S {U} {CP : CryptoProvider U} fuel eph ck counter :
  message_keys_loop (S fuel) eph ck counter =
  if ck_index ck <? counter then
    let* message_keys := lift (ratchet_chain_key_get_message_keys ck) in
    let* _ := session_state_set_message_keys eph message_keys in
    let* next_chain_key := lift (ratchet_chain_key_create_next ck) in
    message_keys_loop fuel eph next_chain_key counter
  else ret ck.
Proof. done. Qed.

(** Lines 492-502 of [session_cipher_decrypt_from_state_and_signal_message]. *)
Definition session_cipher_receive_keys {U} {CP : CryptoProvider U} {C : Curve25519}
    (their_ephemeral : ec_public_key) (counter : Z)
    : M (session_state * world U) ratchet_message_keys :=
  let* chain_key := session_cipher_get_or_create_chain_key their_ephemeral in
  session_cipher_get_or_create_message_keys their_ephemeral chain_key counter.

(** ** Refinement *)

Section Spec.
Context {U : Type} {CP : CryptoProvider U} {C : Curve25519} {HL : HmacLaws CP}
  {RL : RandomLaws CP} {DL : DhLaws C}.

(** The chain key and message keys the sender uses for counter [c] of a chain
    that starts at [ck0]. *)
Definition chain_key_at (ck0 : ratchet_chain_key) (c : Z) : ratchet_chain_key :=
  ck_advance (Z.to_nat c) ck0.
Definition keys_at (ck0 : ratchet_chain_key) (c : Z) : ratchet_message_keys :=
  ck_message_keys (chain_key_at ck0 c).

(** The origin of a chain: index 0 and a version 2 or 3 kdf. *)
Definition origin (ck0 : ratchet_chain_key) : Prop :=
  ck_index ck0 = 0 ∧ wf_kdf (ck_kdf ck0).

(** A receiver chain node holding the chain of [ck0] in abstract state [r]. *)
Definition node_of (rk : option ec_public_key) (ck0 : ratchet_chain_key) (r : recv)
    : session_state_receiver_chain :=
  ReceiverChain rk (Some (chain_key_at ck0 (r_next r))) (keys_at ck0 <$> r_skipped r).

Definition set_node (eph : ec_public_key) (rc : session_state_receiver_chain)
    (s : session_state) : session_state :=
  set_receiver_chains (update_receiver_chain (ss_receiver_chains s) eph (λ _, rc)) s.

Lemma chain_key_at_succ ck0 c : 0 <= c → ck_next (chain_key_at ck0 c) = chain_key_at ck0 (c + 1).
Proof.
  intros H. unfold chain_key_at. rewrite <-ck_advance_S. f_equal. lia.
Qed.

Lemma chain_key_at_index ck0 c :
  origin ck0 → is_u32 c → ck_index (chain_key_at ck0 c) = c.
Proof.
  intros [Ho _] Hc. unfold chain_key_at. rewrite ck_advance_index by (rewrite Ho; done).
  rewrite Ho. unfold is_u32 in Hc. rewrite u32_small; unfold is_u32; lia.
Qed.

Lemma chain_key_at_kdf ck0 c : origin ck0 → wf_kdf (ck_kdf (chain_key_at ck0 c)).
Proof. intros [_ H]. unfold chain_key_at. by rewrite ck_advance_kdf. Qed.

Lemma keys_at_counter ck0 c : origin ck0 → is_u32 c → mk_counter (keys_at ck0 c) = c.
Proof. apply chain_key_at_index. Qed.

Lemma remove_keys_at ck0 l c :
  origin ck0 → Forall is_u32 l → NoDup l → is_u32 c →
  remove_message_keys (keys_at ck0 <$> l) c
  = if decide (c ∈ l) then (Some (keys_at ck0 c), keys_at ck0 <$> filter (.≠ c) l)
    else (None, keys_at ck0 <$> l).
Proof.
  intros Ho Hl Hd Hc. induction l as [|x l IH]; [done|].
  apply Forall_cons in Hl as [Hx Hl]. apply NoDup_cons in Hd as [Hn Hd].
  rewrite fmap_cons. cbn [remove_message_keys]. rewrite keys_at_counter by done.
  destruct (Z.eqb_spec x c) as [->|Hne].
  - rewrite decide_True by (by left). rewrite filter_cons_False by naive_solver.
    by rewrite filter_absent.
  - rewrite IH by done. rewrite filter_cons_True by done.
    repeat case_decide; try done; set_solver.
Qed.

(** [set_node] on the node that is there. *)
Lemma find_set_node s eph rc rc' :
  session_state_find_receiver_chain s eph = Some rc → rc_ratchet_key rc' = rc_ratchet_key rc →
  session_state_find_receiver_chain (set_node eph rc' s) eph = Some rc'.
Proof.
  unfold session_state_find_receiver_chain, set_node. rewrite set_receiver_chains_get.
  generalize (ss_receiver_chains s). intros l Hf Hk. induction l as [|x l IH]; [done|].
  simpl in *. destruct (_ =? 0) eqn:E; simpl.
  - injection Hf as ->. by rewrite Hk, E.
  - rewrite E. auto.
Qed.

Lemma update_is_set_node s eph rc f :
  session_state_find_receiver_chain s eph = Some rc →
  set_receiver_chains (update_receiver_chain (ss_receiver_chains s) eph f) s
  = set_node eph (f rc) s.
Proof.
  intros Hf. unfold set_node. f_equal. by eapply update_receiver_chain_ext.
Qed.

Lemma set_node_twice s eph rc rc' rc'' :
  session_state_find_receiver_chain s eph = Some rc → rc_ratchet_key rc' = rc_ratchet_key rc →
  set_node eph rc'' (set_node eph rc' s) = set_node eph rc'' s.
Proof.
  unfold session_state_find_receiver_chain, set_node.
  rewrite set_receiver_chains_get, set_receiver_chains_twice.
  intros Hf Hk. f_equal. induction (ss_receiver_chains s) as [|x l IH]; [done|].
  simpl in *. destruct (_ =? 0) eqn:E; simpl.
  - injection Hf as ->. by rewrite Hk, E.
  - rewrite E. f_equal. auto.
Qed.

Lemma set_node_same s eph rc :
  session_state_find_receiver_chain s eph = Some rc → set_node eph rc s = s.
Proof.
  unfold session_state_find_receiver_chain, set_node. intros Hf.
  rewrite <-(set_receiver_chains_id s) at 3. f_equal. revert Hf.
  induction (ss_receiver_chains s) as [|x l IH]; [done|]. simpl.
  destruct (_ =? 0); [by intros [= ->]|]. intros Hf. f_equal. auto.
Qed.

Lemma set_message_keys_node (u : U) s eph mk rc :
  session_state_find_receiver_chain s eph = Some rc →
  session_state_set_message_keys eph mk (s, calm u) =
  (Ok tt, (set_node eph (ReceiverChain (rc_ratchet_key rc) (rc_chain_key rc)
     (trim_front MAX_MESSAGE_KEYS (rc_message_keys rc ++ [mk]))) s, calm u)).
Proof.
  intros H. rewrite (set_message_keys_calm u s eph mk rc H).
  by rewrite (update_is_set_node s eph rc _ H).
Qed.

Lemma message_keys_loop_calm (u : U) ck0 eph rk k (n : nat) :
  origin ck0 → ∀ fuel a l s,
  session_state_find_receiver_chain s eph = Some (ReceiverChain rk k l) →
  (n < fuel)%nat → 0 <= a → a + Z.of_nat n < 2 ^ 32 →
  (length l ≤ MAX_MESSAGE_KEYS)%nat →
  message_keys_loop fuel eph (chain_key_at ck0 a) (a + Z.of_nat n) (s, calm u)
  = (Ok (chain_key_at ck0 (a + Z.of_nat n)),
     (set_node eph (ReceiverChain rk k (trim_front MAX_MESSAGE_KEYS
        (l ++ (keys_at ck0 <$> seqZ a (Z.of_nat n))))) s, calm u)).
Proof.
  intros Ho. induction n as [|n IH]; intros fuel a l s Hf Hfuel Ha Hb Hl;
    (destruct fuel as [|fuel]; [lia|]); rewrite message_keys_loop_S;
    rewrite chain_key_at_index by (done || unfold is_u32; lia).
  - rewrite (proj2 (Z.ltb_ge _ _)) by lia. rewrite Z.add_0_r. simpl.
    rewrite app_nil_r, trim_front_le by done. by rewrite (set_node_same _ _ _ Hf).
  - rewrite (proj2 (Z.ltb_lt _ _)) by lia.
    step (lift_run _ _ _ _ _ (get_message_keys_calm u _ (chain_key_at_kdf ck0 a Ho))).
    step (set_message_keys_node u _ _ _ _ Hf).
    step (lift_run _ _ _ _ _ (create_next_calm u (chain_key_at ck0 a))).
    rewrite chain_key_at_succ by done. cbn [rc_ratchet_key rc_chain_key rc_message_keys].
    set (l' := trim_front MAX_MESSAGE_KEYS (l ++ [_])).
    set (s' := set_node eph _ s).
    replace (a + Z.of_nat (S n)) with ((a + 1) + Z.of_nat n) by lia.
    rewrite (IH fuel (a + 1) l' s'); [| |lia..|apply trim_front_length].
    2: { by eapply find_set_node. }
    do 2 f_equal. unfold s'. rewrite (set_node_twice _ _ _ _ _ Hf) by done. f_equal. f_equal.
    unfold l'. rewrite trim_front_trim_app, <-app_assoc. do 2 f_equal.
    rewrite (seqZ_cons a) by lia. simpl. do 3 f_equal; lia.
Qed.

(** What the code answers for each verdict. *)
Definition verdict_res (ck0 : ratchet_chain_key) (c : Z) (v : verdict)
    : res ratchet_message_keys :=
  match v with
  | Accept => Ok (keys_at ck0 c)
  | Duplicate => Err SG_ERR_DUPLICATE_MESSAGE
  | TooFar => Err SG_ERR_INVALID_MESSAGE
  end.

Lemma message_keys_refine (u : U) ck0 r rk eph c s :
  origin ck0 → recv_inv r → 0 <= c < 2 ^ 32 - 1 →
  session_state_find_receiver_chain s eph = Some (node_of rk ck0 r) →
  session_cipher_get_or_create_message_keys eph (chain_key_at ck0 (r_next r)) c (s, calm u)
  = (verdict_res ck0 c (recv_step r c).1,
     (set_node eph (node_of rk ck0 (recv_step r c).2) s, calm u)).
Proof.
  intros Ho (Hn & Hl & Hd & Hs) Hc Hf.
  unfold session_cipher_get_or_create_message_keys, ratchet_chain_key_get_index.
  rewrite chain_key_at_index by (done || unfold is_u32; lia). unfold recv_step.
  destruct (Z.ltb_spec c (r_next r)) as [Hlt|Hge].
  - unfold session_state_remove_message_keys, bind. cbn [get_obj put_obj]. rewrite Hf.
    cbn [rc_message_keys node_of]. rewrite remove_keys_at; try done;
      [|eapply Forall_impl; [exact Hs|]; unfold is_u32; simpl; lia|unfold is_u32; lia].
    case_decide; simpl; unfold put_obj, ret, fail.
    + by rewrite (update_is_set_node _ _ _ _ Hf).
    + rewrite (update_is_set_node _ _ _ _ Hf). done.
  - rewrite u32_small by (unfold is_u32; lia).
    destruct (Z.ltb_spec 2000 (c - r_next r)) as [Hfar|Hnear].
    { simpl. by rewrite (set_node_same _ _ _ Hf). }
    pose proof (message_keys_loop_calm u ck0 eph rk (Some (chain_key_at ck0 (r_next r)))
      (Z.to_nat (c - r_next r)) Ho 2001 (r_next r) (keys_at ck0 <$> r_skipped r) s Hf
      ltac:(lia) ltac:(lia) ltac:(lia) ltac:(by rewrite length_fmap)) as Hloop.
    rewrite Z2Nat.id in Hloop by lia.
    replace (r_next r + (c - r_next r)) with c in Hloop by lia.
    rewrite <-fmap_app in Hloop. step Hloop.
    step (lift_run _ _ _ _ _ (create_next_calm u (chain_key_at ck0 c))).
    set (rc' := ReceiverChain rk _ _) in *.
    assert (session_state_find_receiver_chain (set_node eph rc' s) eph = Some rc') as Hf'
      by (by eapply find_set_node).
    step (set_receiver_chain_key_run (calm u) (set_node eph rc' s) eph _ rc' Hf').
    rewrite (update_is_set_node _ _ _ _ Hf'), (set_node_twice _ _ _ _ _ Hf) by done.
    erewrite lift_run by (apply get_message_keys_calm, chain_key_at_kdf, Ho).
    simpl. do 3 f_equal. unfold node_of. simpl.
    rewrite chain_key_at_succ by lia. f_equal. symmetry. apply trim_front_fmap.
Qed.

Definition verdict_sum (ck0 : ratchet_chain_key) (c : Z) (v : verdict)
    : ratchet_message_keys + Z :=
  match v with
  | Accept => inl (keys_at ck0 c)
  | Duplicate => inr SG_ERR_DUPLICATE_MESSAGE
  | TooFar => inr SG_ERR_INVALID_MESSAGE
  end.

(** The keys looked up for a sequence of messages under one ratchet key. *)
Definition receive_all (eph : ec_public_key) (cs : list Z)
    : M (session_state * world U) (list (ratchet_message_keys + Z)) :=
  mapM_list (λ c, try (session_cipher_receive_keys eph c)) cs.

Lemma get_chain_key_present (w : world U) s eph rc ck :
  session_state_find_receiver_chain s eph = Some rc → rc_chain_key rc = Some ck →
  session_cipher_get_or_create_chain_key eph (s, w) = (Ok ck, (s, w)).
Proof.
  intros Hf Hk. unfold session_cipher_get_or_create_chain_key, bind. simpl.
  unfold session_state_get_receiver_chain_key. by rewrite Hf, Hk.
Qed.

Lemma receive_keys_refine (u : U) ck0 r rk eph c s :
  origin ck0 → recv_inv r → 0 <= c < 2 ^ 32 - 1 →
  session_state_find_receiver_chain s eph = Some (node_of rk ck0 r) →
  session_cipher_receive_keys eph c (s, calm u)
  = (verdict_res ck0 c (recv_step r c).1,
     (set_node eph (node_of rk ck0 (recv_step r c).2) s, calm u)).
Proof.
  intros Ho Hr Hc Hf. unfold session_cipher_receive_keys.
  step (get_chain_key_present (calm u) s eph _ _ Hf eq_refl). by apply message_keys_refine.
Qed.

Lemma receive_all_refine (u : U) ck0 rk eph cs : origin ck0 → ∀ r s,
  recv_inv r → Forall (λ c, 0 <= c < 2 ^ 32 - 1) cs →
  session_state_find_receiver_chain s eph = Some (node_of rk ck0 r) →
  receive_all eph cs (s, calm u)
  = (Ok (zip_with (verdict_sum ck0) cs (recv_run r cs).1),
     (set_node eph (node_of rk ck0 (recv_run r cs).2) s, calm u)).
Proof.
  intros Ho. induction cs as [|c cs IH]; intros r s Hr Hcs Hf.
  { simpl. by rewrite (set_node_same _ _ _ Hf). }
  apply Forall_cons in Hcs as [Hc Hcs]. unfold receive_all in *. cbn [mapM_list].
  pose proof (recv_step_inv r c Hr Hc) as Hr'.
  pose proof (receive_keys_refine u ck0 r rk eph c s Ho Hr Hc Hf) as Hk.
  cbn [recv_run]. destruct (recv_step r c) as [v r']. cbn [fst snd] in *.
  step_to (verdict_sum ck0 c v) (set_node eph (node_of rk ck0 r') s, calm u)
    by (unfold try; rewrite Hk; by destruct v).
  erewrite bind_ok by (apply (IH r'); [done..|by eapply find_set_node]).
  rewrite (set_node_twice _ _ _ _ _ Hf) by done. by destruct (recv_run r' cs).
Qed.

(** C4: the receiving side refines the abstract receiver.  For any sequence
    of counters under one ratchet key, the code gives for each the message
    keys the sender's chain has at that counter, the duplicate error or the
    invalid-message error exactly as the abstract receiver accepts, rejects
    as spent, or rejects as more than 2000 ahead; afterwards the chain node
    holds the abstract state: the chain key of the next counter and the keys
    of the skipped counters; the rest of the session is unchanged. *)
Theorem receive_refines (u : U) (ck0 : ratchet_chain_key) (rk : option ec_public_key)
    (eph : ec_public_key) (cs : list Z) (r : recv) (s : session_state) :
  origin ck0 → recv_inv r → Forall (λ c, 0 <= c < 2 ^ 32 - 1) cs →
  session_state_find_receiver_chain s eph = Some (node_of rk ck0 r) →
  receive_all eph cs (s, calm u)
  = (Ok (zip_with (verdict_sum ck0) cs (recv_run r cs).1),
     (set_node eph (node_of rk ck0 (recv_run r cs).2) s, calm u)).
Proof. intros Ho. by apply receive_all_refine. Qed.


(** C26: out-of-order delivery.  However the first [n <= 2000] messages of a
    chain are permuted on the way, each is answered with the keys the sender
    used for it, and in the end no key is left over. *)
Theorem any_order_accepted (u : U) (ck0 : ratchet_chain_key) (rk : option ec_public_key)
    (eph : ec_public_key) (n : Z) (cs : list Z) (s : session_state) :
  origin ck0 → 0 <= n <= 2000 → cs ≡ₚ seqZ 0 n →
  session_state_find_receiver_chain s eph = Some (ReceiverChain rk (Some ck0) []) →
  ∃ s', receive_all eph cs (s, calm u) = (Ok (inl ∘ keys_at ck0 <$> cs), (s', calm u)) ∧
    session_state_find_receiver_chain s' eph = Some (ReceiverChain rk (Some (chain_key_at ck0 n)) []).
Proof.
  intros Ho Hn Hp Hf.
  assert (length (outstanding (Recv 0 []) n) ≤ MAX_MESSAGE_KEYS)%nat as Hlen.
  { unfold outstanding. simpl. rewrite length_seqZ. unfold MAX_MESSAGE_KEYS. lia. }
  assert (recv_inv (Recv 0 [])) as Hi.
  { split_and!; [done..|unfold MAX_MESSAGE_KEYS; simpl; lia|by apply NoDup_nil_2|constructor]. }
  assert (cs ≡ₚ outstanding (Recv 0 []) n) as Hp'.
  { rewrite Hp. unfold outstanding. simpl. by rewrite Z.sub_0_r. }
  assert (Forall (λ c, 0 <= c < 2 ^ 32 - 1) cs) as Hcs.
  { rewrite Hp. apply Forall_forall. intros c Hc%elem_of_seqZ. lia. }
  pose proof (recv_run_outstanding (Recv 0 []) n cs Hi ltac:(lia) Hp' Hlen ltac:(simpl; lia)) as Hrun.
  exists (set_node eph (node_of rk ck0 (Recv n [])) s). split.
  - rewrite (receive_all_refine u ck0 rk eph cs Ho (Recv 0 []) s Hi Hcs Hf), Hrun. simpl.
    do 2 f_equal. clear. induction cs as [|c cs IH]; [done|]. simpl. by rewrite IH.
  - by erewrite find_set_node.
Qed.

(** ** The Diffie-Hellman ratchet of two parties

    [ahead_with a b r]: [a] has stepped the root key once more than [b].  Its
    sending chain is the one [b] will derive when it first sees [a]'s ratchet
    key, and it receives on the chain [b] is sending on, with [r] its abstract
    receiver. *)
Record ahead_with (a b : session_state) (r : recv) : Prop := Ahead {
  ahead_ex : ∃ kpA kpB rkB ckB n m,
    wf_pair kpA ∧ wf_pair kpB ∧ wf_kdf (rk_kdf rkB) ∧ origin ckB ∧ recv_inv r ∧
    is_u32 n ∧ is_u32 m ∧
    ss_sender_chain b = SenderChain (Some kpB) (Some (chain_key_at ckB m)) ∧
    ss_root_key b = Some rkB ∧
    (let chain := rk_chain rkB (dh (sk_data (kp_private kpB)) (pk_data (kp_public kpA))) in
     ss_root_key a = Some chain.1 ∧
     ss_sender_chain a = SenderChain (Some kpA) (Some (chain_key_at chain.2 n))) ∧
    session_state_find_receiver_chain a (kp_public kpB)
      = Some (node_of (Some (kp_public kpB)) ckB r) ∧
    session_state_find_receiver_chain b (kp_public kpA) = None }.

Definition ahead (a b : session_state) : Prop := ∃ r, ahead_with a b r.

(** The new ratchet key [u] will supply is not one the peer has a chain for. *)
Definition fresh_for (u : U) (a : session_state) : Prop :=
  ∀ bs u', random_func 32 u = (Ok bs, u') →
    session_state_find_receiver_chain a (kp_public (pair_of bs)) = None.

(** The state after a ratchet step. *)
Definition ratchet_stepped (rk1 rk2 : ratchet_root_key * ratchet_chain_key)
    (eph : ec_public_key) (kp : ec_key_pair) (pc : Z) (s : session_state) : session_state :=
  session_state_set_sender_chain kp rk2.2
    (session_state_set_previous_counter pc
      (set_receiver_chains (trim_front MAX_RECEIVER_CHAINS
         (ss_receiver_chains s ++ [ReceiverChain (Some eph) (Some rk1.2) []]))
       (session_state_set_root_key rk2.1 s))).

Lemma create_chain_key_calm (u : U) s eph rk kp ck :
  session_state_get_receiver_chain_key s eph = None →
  ss_root_key s = Some rk → wf_kdf (rk_kdf rk) →
  ss_sender_chain s = SenderChain (Some kp) (Some ck) →
  ∃ bs u', random_func 32 u = (Ok bs, u') ∧ length bs = 32%nat ∧
    let rk1 := rk_chain rk (dh (sk_data (kp_private kp)) (pk_data eph)) in
    let rk2 := rk_chain rk1.1 (dh (sk_data (kp_private (pair_of bs))) (pk_data eph)) in
    session_cipher_get_or_create_chain_key eph (s, calm u)
    = (Ok rk1.2, (ratchet_stepped rk1 rk2 eph (pair_of bs)
         (if 0 <? ck_index ck then ck_index ck - 1 else ck_index ck) s, calm u')).
Proof.
  intros Hn Hrk Hk Hsc.
  destruct (curve_generate_key_pair_calm u) as (bs & u' & Hrand & Hl & Hg).
  exists bs, u'. split_and!; [done..|]. intros rk1 rk2.
  unfold session_cipher_get_or_create_chain_key.
  step_to s (s, calm u) by done. rewrite Hn, Hrk, Hsc.
  step_to rk (s, calm u) by done. step_to kp (s, calm u) by done.
  step (lift_run _ _ _ _ _ (create_chain_calm u rk eph (kp_private kp) Hk)).
  step (lift_run _ _ _ _ _ Hg).
  step (lift_run _ _ _ _ _ (create_chain_calm u' rk1.1 eph (kp_private (pair_of bs)) Hk)).
  fold rk1. fold rk2.
  step_to tt (session_state_set_root_key rk2.1 s, calm u') by done.
  step (add_receiver_chain_calm u'). unfold ratchet_stepped. destruct s.
  cbn in Hsc. by subst.
Qed.

Lemma ratchet_stepped_fields rk1 rk2 eph kp pc s :
  let s' := ratchet_stepped rk1 rk2 eph kp pc s in
  ss_root_key s' = Some rk2.1 ∧ ss_sender_chain s' = SenderChain (Some kp) (Some rk2.2) ∧
  ss_previous_counter s' = pc ∧
  ss_receiver_chains s' = trim_front MAX_RECEIVER_CHAINS
    (ss_receiver_chains s ++ [ReceiverChain (Some eph) (Some rk1.2) []]).
Proof. by destruct s. Qed.

Lemma recv_inv_start : recv_inv (Recv 0 []).
Proof.
  split_and!; [done..|unfold MAX_MESSAGE_KEYS; simpl; lia|by apply NoDup_nil_2|constructor].
Qed.

Lemma rk_chain_origin rk shared : wf_kdf (rk_kdf rk) → origin (rk_chain rk shared).2.
Proof. done. Qed.

Lemma find_none_chain_key s eph :
  session_state_find_receiver_chain s eph = None →
  session_state_get_receiver_chain_key s eph = None.
Proof. unfold session_state_get_receiver_chain_key. by intros ->. Qed.

(** A turn of the Diffie-Hellman ratchet.  When [a] is ahead of [b] and
    [b] looks up the chain for [a]'s ratchet key, [b] derives exactly the
    chain [a] sends on (its key at index 0, whatever [a] has sent since),
    makes a step of its own, and is then ahead of [a]. *)
Lemma ratchet_turn (a b : session_state) r :
  ahead_with a b r →
  ∃ kpA ck0 n, origin ck0 ∧ is_u32 n ∧ wf_pair kpA ∧
    ss_sender_chain a = SenderChain (Some kpA) (Some (chain_key_at ck0 n)) ∧
    ∀ u : U, fresh_for u a → ∃ b' u',
    session_cipher_get_or_create_chain_key (kp_public kpA) (b, calm u)
      = (Ok ck0, (b', calm u')) ∧
    session_state_find_receiver_chain b' (kp_public kpA)
      = Some (node_of (Some (kp_public kpA)) ck0 (Recv 0 [])) ∧
    ahead_with b' a (Recv 0 []).
Proof.
  intros [(kpA & kpB & rkB & ckB & n & m & HA & HB & Hk & Ho & Hr & Hn & Hm & Hsb & Hrb &
    [Hra Hsa] & Hfa & Hfb)].
  eexists kpA, _, n. split; [|split_and!; [exact Hn|exact HA|exact Hsa|]]; [by apply rk_chain_origin|].
  intros u Hfresh.
  destruct (create_chain_key_calm u b (kp_public kpA) rkB kpB (chain_key_at ckB m))
    as (bs & u' & Hrand & Hl & Hrun); [by apply find_none_chain_key|done..|].
  cbv zeta in Hrun. set (rk1 := rk_chain rkB _) in *. set (rk2 := rk_chain rk1.1 _) in *.
  eexists _, u'. split; [exact Hrun|].
  match goal with |- _ ∧ ahead_with (ratchet_stepped _ _ _ _ ?pc _) _ _ =>
    destruct (ratchet_stepped_fields rk1 rk2 (kp_public kpA) (pair_of bs) pc b)
      as (H1 & H2 & _ & H4) end.
  assert (session_state_find_receiver_chain (ratchet_stepped rk1 rk2 (kp_public kpA) (pair_of bs)
      (if 0 <? ck_index (chain_key_at ckB m) then ck_index (chain_key_at ckB m) - 1
       else ck_index (chain_key_at ckB m)) b) (kp_public kpA)
    = Some (node_of (Some (kp_public kpA)) rk1.2 (Recv 0 []))) as Hnode.
  { unfold session_state_find_receiver_chain. rewrite H4.
    rewrite find_receiver_chain_added; [done|done|by apply wf_pair_pk]. }
  split; [exact Hnode|].
  constructor. exists (pair_of bs), kpA, rk1.1, rk1.2, 0, n.
  split_and!; try done; [by apply pair_of_wf|apply recv_inv_start| |by eapply Hfresh].
  rewrite H1, H2. unfold rk2.
  by rewrite (agreement_comm kpA (pair_of bs)) by (done || by apply pair_of_wf).
Qed.

(** ** Conversations *)

(** One event of a conversation in which the first party is ahead: either
    party sends (its sending chain moves on), the party ahead receives a
    message of the other's sending chain, or the party behind receives one of
    the chain it has not seen yet, and gets ahead.  Messages may be lost,
    repeated and reordered: the counter is arbitrary.  A chain ends where its
    [uint32_t] counter would wrap. *)
Inductive conv_step : session_state * session_state → session_state * session_state → Prop :=
| conv_send_ahead (u : U) a a' b ck :
    session_state_get_sender_chain_key a = Some ck → ck_index ck < 2 ^ 32 - 1 →
    session_state_set_sender_chain_key (ck_next ck) (a, calm u) = (Ok tt, (a', calm u)) →
    conv_step (a, b) (a', b)
| conv_send_behind (u : U) a b b' ck :
    session_state_get_sender_chain_key b = Some ck → ck_index ck < 2 ^ 32 - 1 →
    session_state_set_sender_chain_key (ck_next ck) (b, calm u) = (Ok tt, (b', calm u)) →
    conv_step (a, b) (a, b')
| conv_recv_ahead (u u' : U) a a' b kp c o :
    sc_ratchet_key_pair (ss_sender_chain b) = Some kp → 0 <= c < 2 ^ 32 - 1 →
    session_cipher_receive_keys (kp_public kp) c (a, calm u) = (o, (a', calm u')) →
    conv_step (a, b) (a', b)
| conv_recv_behind (u u' : U) a b b' kp c o :
    sc_ratchet_key_pair (ss_sender_chain a) = Some kp → 0 <= c < 2 ^ 32 - 1 → fresh_for u a →
    session_cipher_receive_keys (kp_public kp) c (b, calm u) = (o, (b', calm u')) →
    conv_step (a, b) (b', a).

Lemma set_sender_chain_key_ok (u : U) s s' ck :
  session_state_set_sender_chain_key ck (s, calm u) = (Ok tt, (s', calm u)) →
  s' = set_sender_chain_record (SenderChain (sc_ratchet_key_pair (ss_sender_chain s)) (Some ck)) s.
Proof.
  unfold session_state_set_sender_chain_key, bind. simpl.
  destruct (ss_has_sender_chain s); [|done]. by intros [= <-].
Qed.

Lemma set_sender_chain_record_fields c s :
  let s' := set_sender_chain_record c s in
  ss_sender_chain s' = c ∧ ss_root_key s' = ss_root_key s ∧
  ∀ eph, session_state_find_receiver_chain s' eph = session_state_find_receiver_chain s eph.
Proof. by destruct s. Qed.

Lemma set_node_fields eph rc s :
  ss_sender_chain (set_node eph rc s) = ss_sender_chain s ∧
  ss_root_key (set_node eph rc s) = ss_root_key s.
Proof. by destruct s. Qed.

Lemma recv_keeps_ahead (u u' : U) a a' b kp c o r :
  ahead_with a b r → sc_ratchet_key_pair (ss_sender_chain b) = Some kp → 0 <= c < 2 ^ 32 - 1 →
  session_cipher_receive_keys (kp_public kp) c (a, calm u) = (o, (a', calm u')) →
  ahead_with a' b (recv_step r c).2.
Proof.
  intros [(kpA & kpB & rkB & ckB & n & m & HA & HB & Hk & Ho & Hr &
    Hn & Hm & Hsb & Hrb & [Hra Hsa] & Hfa & Hfb)] Hkp Hc Hrun.
  rewrite Hsb in Hkp. injection Hkp as <-.
  rewrite (receive_keys_refine u ckB r _ _ c a Ho Hr Hc Hfa) in Hrun. injection Hrun as _ <- _.
  destruct (set_node_fields (kp_public kpB) (node_of (Some (kp_public kpB)) ckB (recv_step r c).2) a)
    as [E1 E2].
  constructor. exists kpA, kpB, rkB, ckB, n, m.
  split_and!; try done; [by apply recv_step_inv|by rewrite E1, E2|by eapply find_set_node].
Qed.

Lemma send_keeps_ahead (u : U) a b ck r :
  ahead_with a b r → ck_index ck < 2 ^ 32 - 1 →
  (session_state_get_sender_chain_key a = Some ck → ∀ a',
   session_state_set_sender_chain_key (ck_next ck) (a, calm u) = (Ok tt, (a', calm u)) →
   ahead_with a' b r) ∧
  (session_state_get_sender_chain_key b = Some ck → ∀ b',
   session_state_set_sender_chain_key (ck_next ck) (b, calm u) = (Ok tt, (b', calm u)) →
   ahead_with a b' r).
Proof.
  intros [(kpA & kpB & rkB & ckB & n & m & HA & HB & Hk & Ho & Hr &
    Hn & Hm & Hsb & Hrb & [Hra Hsa] & Hfa & Hfb)] Hlt.
  unfold session_state_get_sender_chain_key. rewrite Hsa, Hsb.
  split; intros [= <-] s' ->%set_sender_chain_key_ok; rewrite ?Hsa, ?Hsb; simpl sc_ratchet_key_pair;
    rewrite chain_key_at_index in Hlt by (done || by apply rk_chain_origin);
    unfold is_u32 in *; rewrite chain_key_at_succ by lia;
    match goal with |- context [set_sender_chain_record ?c ?s] =>
      destruct (set_sender_chain_record_fields c s) as (E1 & E2 & E3) end; constructor.
  - exists kpA, kpB, rkB, ckB, (n + 1), m.
    split_and!; try done; try (unfold is_u32; lia); [by rewrite E1, E2|by rewrite E3].
  - exists kpA, kpB, rkB, ckB, n, (m + 1).
    split_and!; try done; try (unfold is_u32; lia); [by rewrite E2|by rewrite E3].
Qed.

Lemma first_receive a b r :
  ahead_with a b r →
  ∃ kpA ck0 n, origin ck0 ∧ is_u32 n ∧ wf_pair kpA ∧
    ss_sender_chain a = SenderChain (Some kpA) (Some (chain_key_at ck0 n)) ∧
    ∀ (u : U) c, fresh_for u a → 0 <= c < 2 ^ 32 - 1 → ∃ b1 b' u',
    ahead_with b1 a (Recv 0 []) ∧
    session_cipher_receive_keys (kp_public kpA) c (b, calm u)
      = (verdict_res ck0 c (recv_step (Recv 0 []) c).1, (b', calm u')) ∧
    session_cipher_receive_keys (kp_public kpA) c (b1, calm u')
      = (verdict_res ck0 c (recv_step (Recv 0 []) c).1, (b', calm u')).
Proof.
  intros Hab. destruct (ratchet_turn a b r Hab) as (kpA & ck0 & n & Ho & Hn & Hkp & Hsa & Hturn).
  exists kpA, ck0, n. split_and!; [done..|]. intros u c Hfr Hc.
  destruct (Hturn u Hfr) as (b1 & u1 & Hrun & Hnode & Hba).
  eexists b1, _, u1. split_and!; [done..| |].
  - unfold session_cipher_receive_keys. rewrite (bind_ok _ _ _ _ _ Hrun).
    exact (message_keys_refine u1 ck0 (Recv 0 []) _ _ c b1 Ho recv_inv_start Hc Hnode).
  - by apply receive_keys_refine; [|apply recv_inv_start|..].
Qed.

Lemma conv_step_ahead p q : ahead p.1 p.2 → conv_step p q → ahead q.1 q.2.
Proof.
  intros [r Hab] Hs.
  destruct Hs as [u a a' b ck Hck Hlt Hset|u a b b' ck Hck Hlt Hset|u u' a a' b kp c o Hkp Hc Hrun
    |u u' a b b' kp c o Hkp Hc Hfr Hrun]; simpl in *.
  - exists r. by eapply (send_keeps_ahead u a b ck).
  - exists r. by eapply (send_keeps_ahead u a b ck).
  - eexists. by eapply recv_keeps_ahead.
  - destruct (first_receive a b r Hab) as (kpA & ck0 & n & Ho & _ & _ & Hsa & Hrecv).
    destruct (Hrecv u c Hfr Hc) as (b1 & b2 & u2 & Hba & H1 & H2).
    rewrite Hsa in Hkp. injection Hkp as ->. rewrite H1 in Hrun. injection Hrun as _ <- _.
    eexists. eapply recv_keeps_ahead; [exact Hba|by rewrite Hsa|done|exact H2].
Qed.

(** The two parties' states after the handshake, from fresh sessions. *)
Lemma x3dh_initialized_ahead idA baseA idB spkB ratchetB otkB kp :
  wf_pair idA → wf_pair baseA → wf_pair idB → wf_pair spkB → wf_pair ratchetB →
  (∀ k, otkB = Some k → wf_pair k) → wf_pair kp →
  ahead_with
    (alice_initialized (x3dh_alice idA baseA idB spkB otkB ratchetB) kp session_state_zero)
    (bob_initialized (x3dh_bob idA baseA idB spkB otkB ratchetB) session_state_zero) (Recv 0 []).
Proof.
  intros HA Ha HB Hs Hr Ho Hkp. unfold alice_initialized, bob_initialized.
  rewrite (x3dh_secrets_agree _ _ _ _ _ ratchetB HA Ha HB Hs Ho).
  set (d := x3dh_derive _).
  constructor. exists kp, ratchetB, d.1, d.2, 0, 0.
  split_and!; try done; [apply recv_inv_start| |].
  - simpl. by rewrite (agreement_comm kp ratchetB).
  - unfold session_state_find_receiver_chain.
    exact (find_receiver_chain_added [] (kp_public ratchetB) d.2 eq_refl (wf_pair_pk _ Hr)).
Qed.

Lemma x3dh_ahead (uA uB : U) idA baseA idB spkB ratchetB otkB a b uA' uB' :
  wf_pair idA → wf_pair baseA → wf_pair idB → wf_pair spkB → wf_pair ratchetB →
  (∀ k, otkB = Some k → wf_pair k) →
  ratcheting_session_alice_initialize (x3dh_alice idA baseA idB spkB otkB ratchetB)
    (session_state_zero, calm uA) = (Ok tt, (a, calm uA')) →
  ratcheting_session_bob_initialize (x3dh_bob idA baseA idB spkB otkB ratchetB)
    (session_state_zero, calm uB) = (Ok tt, (b, calm uB')) →
  ahead_with a b (Recv 0 []).
Proof.
  intros HA Ha HB Hs Hr Ho Hra Hrb.
  destruct (alice_initialize_calm uA (x3dh_alice idA baseA idB spkB otkB ratchetB)
    session_state_zero) as (bs & u' & _ & Hl & HrA).
  rewrite HrA in Hra. injection Hra as <- _. rewrite bob_initialize_calm in Hrb.
  injection Hrb as <- _. by apply x3dh_initialized_ahead; try apply pair_of_wf.
Qed.

End Spec.

(** The payload cipher inverts itself for both message versions. *)
Lemma ciphertext_roundtrip {U} {CP : CryptoProvider U} {CL : CipherLaws CP}
    (w : world U) version mk plaintext :
  wf_mk mk →
  ∃ ct, session_cipher_get_ciphertext version mk plaintext w = (Ok ct, w) ∧
    session_cipher_get_plaintext version mk ct w = (Ok plaintext, w).
Proof.
  intros (Hk & _ & Hi). unfold session_cipher_get_ciphertext, session_cipher_get_plaintext,
    signal_encrypt, signal_decrypt, of_res.
  destruct (3 <=? version); eexists; rewrite encrypt_ok, decrypt_encrypt; try done;
    unfold cipher_input; auto.
Qed.

Import Toy.

(** A session with one fresh receiving chain. *)
Definition witness_eph : ec_public_key := EcPublicKey (replicate 32 7).
Definition witness_chain : ratchet_chain_key :=
  RatchetChainKey (HkdfContext 1) (replicate 32 5) 0.
Definition witness_session : session_state :=
  set_receiver_chains [ReceiverChain (Some witness_eph) (Some witness_chain) []] session_state_zero.

Lemma receive_refines_witness :
  receive_all witness_eph [2; 0; 2; 5000] (witness_session, calm 0)
  = (Ok (zip_with (verdict_sum witness_chain) [2; 0; 2; 5000]
          [Accept; Accept; Duplicate; TooFar]),
     (set_node witness_eph (node_of (Some witness_eph) witness_chain (Recv 3 [1])) witness_session,
      calm 0)).
Proof.
  apply (receive_refines (CP:=Toy.provider) 0 witness_chain (Some witness_eph) witness_eph
    [2; 0; 2; 5000] (Recv 0 []) witness_session);
    [split; [reflexivity|split; discriminate] | apply recv_inv_start
    | repeat constructor; discriminate | reflexivity].
Defined.


Lemma any_order_accepted_witness :
  ∃ s', receive_all witness_eph [2; 0; 1] (witness_session, calm 0)
      = (Ok (inl ∘ keys_at witness_chain <$> [2; 0; 1]), (s', calm 0)) ∧
    session_state_find_receiver_chain s' witness_eph
      = Some (ReceiverChain (Some witness_eph) (Some (chain_key_at witness_chain 3)) []).
Proof.
  apply (any_order_accepted (CP:=Toy.provider) 0 witness_chain (Some witness_eph) witness_eph 3);
    [split; [reflexivity|split; discriminate] | lia | | reflexivity].
  change (seqZ 0 3) with [0; 1; 2]. solve_Permutation.
Defined.

(** A handshake and two turns of the ratchet. *)
Definition witness_pair (n : Z) : ec_key_pair := pair_of (replicate 32 n).
Definition witness_a : session_state :=
  (ratcheting_session_alice_initialize (x3dh_alice (witness_pair 9) (witness_pair 17)
     (witness_pair 25) (witness_pair 33) None (witness_pair 33)) (session_state_zero, calm 0)).2.1.
Definition witness_b : session_state :=
  (ratcheting_session_bob_initialize (x3dh_bob (witness_pair 9) (witness_pair 17)
     (witness_pair 25) (witness_pair 33) None (witness_pair 33)) (session_state_zero, calm 50)).2.1.
Definition witness_turn (a b : session_state) (u : Z) : session_state :=
  match sc_ratchet_key_pair (ss_sender_chain a) with
  | Some kp => (session_cipher_receive_keys (kp_public kp) 1 (b, calm u)).2.1
  | None => b
  end.
Definition witness_b1 : session_state := witness_turn witness_a witness_b 50.
Definition witness_a1 : session_state := witness_turn witness_b1 witness_a 90.

