(* ===== verification/Protobuf.v ===== *)
(** The protobuf-c runtime (protobuf-c/protobuf-c.c): [protobuf_c_message_pack],
    [protobuf_c_message_get_packed_size] and [protobuf_c_message_unpack] with
    the functions they call, for the field kinds the library's descriptors
    use: optional and repeated fields of type uint32, int32, bool, fixed64,
    bytes and message.

    A message in memory is, for each field of its descriptor in order, the list
    of its values: none or one for an optional field (the [has_] flag or the
    pointer), any number for a repeated one.  Unknown fields are scanned,
    copied and dropped, as no caller reads them.  Reading past the end of the
    input is [Abort]. *)

From S2P Require Import Prelude.

(** ** Descriptors and messages *)

Inductive pb_label := PROTOBUF_C_LABEL_OPTIONAL | PROTOBUF_C_LABEL_REPEATED.

Inductive pb_type (N : Type) :=
| PROTOBUF_C_TYPE_INT32 | PROTOBUF_C_TYPE_UINT32 | PROTOBUF_C_TYPE_BOOL
| PROTOBUF_C_TYPE_FIXED64 | PROTOBUF_C_TYPE_BYTES
| PROTOBUF_C_TYPE_MESSAGE (descriptor : N).
Global Arguments PROTOBUF_C_TYPE_INT32 {N}.
Global Arguments PROTOBUF_C_TYPE_UINT32 {N}.
Global Arguments PROTOBUF_C_TYPE_BOOL {N}.
Global Arguments PROTOBUF_C_TYPE_FIXED64 {N}.
Global Arguments PROTOBUF_C_TYPE_BYTES {N}.
Global Arguments PROTOBUF_C_TYPE_MESSAGE {N} descriptor.

Record pb_field (N : Type) : Type := PbField {
  pf_id : Z; pf_label : pb_label; pf_type : pb_type N }.
Global Arguments PbField {N} pf_id pf_label pf_type.
Global Arguments pf_id {N} p.
Global Arguments pf_label {N} p.
Global Arguments pf_type {N} p.

(** [d_ranges] is the table of [int_range_lookup], its last entry a
    sentinel: runs of consecutive ids as (first id, first index). *)
Record pb_desc (N : Type) : Type := PbDesc {
  d_fields : list (pb_field N); d_ranges : list (Z * Z) }.
Global Arguments PbDesc {N} d_fields d_ranges.
Global Arguments d_fields {N} p.
Global Arguments d_ranges {N} p.

(** The descriptors of a program, by name. *)
Class Descriptors (N : Type) : Type := { descriptor : N → pb_desc N }.

Inductive pb_val :=
| VNum (z : Z)
| VBytes (b : bytes)
| VMsg (fields : list (list pb_val)).
Abbreviation pb_msg := (list (list pb_val)).

Definition s32 (z : Z) : Z := (z + 2 ^ 31) `mod` 2 ^ 32 - 2 ^ 31.

(** ** Sizes *)

Definition get_tag_size (number : Z) : Z :=
  if number <? 2 ^ 4 then 1 else if number <? 2 ^ 11 then 2
  else if number <? 2 ^ 18 then 3 else if number <? 2 ^ 25 then 4 else 5.
Definition uint32_size (v : Z) : Z :=
  if v <? 2 ^ 7 then 1 else if v <? 2 ^ 14 then 2
  else if v <? 2 ^ 21 then 3 else if v <? 2 ^ 28 then 4 else 5.
Definition int32_size (v : Z) : Z := if v <? 0 then 10 else uint32_size v.

(** ** Packing *)

(** [out[rv++] = value | 0x80; value >>= 7] while [value >= 0x80], four times
    at most. *)
Fixpoint uint32_pack_loop (n : nat) (value : Z) : bytes :=
  match n with
  | O => [u8 value]
  | S n => if 128 <=? value then u8 (Z.lor value 128) :: uint32_pack_loop n (Z.shiftr value 7)
           else [u8 value]
  end.
Definition uint32_pack (value : Z) : bytes := uint32_pack_loop 4 value.

Definition int32_pack (value : Z) : bytes :=
  if value <? 0 then
    [u8 (Z.lor value 128); u8 (Z.lor (Z.shiftr value 7) 128); u8 (Z.lor (Z.shiftr value 14) 128);
     u8 (Z.lor (Z.shiftr value 21) 128); u8 (Z.lor (Z.shiftr value 28) 128);
     255; 255; 255; 255; 1]
  else uint32_pack value.

(** [while(hi >= 128) { out[rv++] = hi | 0x80; hi >>= 7; } out[rv++] = hi;]
    on 29 bits. *)
Definition uint64_pack (value : Z) : bytes :=
  let hi := Z.shiftr value 32 in
  let lo := u32 value in
  if hi =? 0 then uint32_pack lo
  else
    [u8 (Z.lor lo 128); u8 (Z.lor (Z.shiftr lo 7) 128); u8 (Z.lor (Z.shiftr lo 14) 128);
     u8 (Z.lor (Z.shiftr lo 21) 128)] ++
    if hi <? 8 then [u8 (Z.lor (Z.shiftl hi 4) (Z.shiftr lo 28))]
    else u8 (Z.lor (Z.lor (Z.shiftl (Z.land hi 7) 4) (Z.shiftr lo 28)) 128)
         :: uint32_pack_loop 4 (Z.shiftr hi 3).

Definition fixed64_pack (value : Z) : bytes :=
  (λ i, u8 (Z.shiftr value (8 * Z.of_nat i))) <$> seq 0 8.

Definition boolean_pack (value : Z) : bytes := [if value =? 0 then 0 else 1].

Definition binary_data_pack (bd : bytes) : bytes := uint32_pack (u32 (zlen bd)) ++ bd.

Definition tag_pack (id : Z) : bytes :=
  if id <? 2 ^ 29 then uint32_pack (Z.shiftl id 3) else uint64_pack (Z.shiftl id 3).

(** [out[0] |= wire_type] *)
Definition set_wire_type (wire_type : Z) (out : bytes) : bytes :=
  match out with b :: out => Z.lor b wire_type :: out | [] => [] end.

Definition PROTOBUF_C_WIRE_TYPE_VARINT : Z := 0.
Definition PROTOBUF_C_WIRE_TYPE_64BIT : Z := 1.
Definition PROTOBUF_C_WIRE_TYPE_LENGTH_PREFIXED : Z := 2.
Definition PROTOBUF_C_WIRE_TYPE_32BIT : Z := 5.

Definition wire_type_of {N} (ty : pb_type N) : Z :=
  match ty with
  | PROTOBUF_C_TYPE_INT32 | PROTOBUF_C_TYPE_UINT32 | PROTOBUF_C_TYPE_BOOL =>
      PROTOBUF_C_WIRE_TYPE_VARINT
  | PROTOBUF_C_TYPE_FIXED64 => PROTOBUF_C_WIRE_TYPE_64BIT
  | PROTOBUF_C_TYPE_BYTES | PROTOBUF_C_TYPE_MESSAGE _ => PROTOBUF_C_WIRE_TYPE_LENGTH_PREFIXED
  end.

Section Pack.
Context {N : Type} {D : Descriptors N}.

(** An optional field contributes its value if it has one, a repeated field
    all of them. *)
Definition field_values (f : pb_field N) (vs : list pb_val) : list pb_val :=
  match pf_label f with
  | PROTOBUF_C_LABEL_OPTIONAL => match vs with v :: _ => [v] | [] => [] end
  | PROTOBUF_C_LABEL_REPEATED => vs
  end.

(** [sub] packs an embedded message.  A value that does not have the type of
    its field cannot occur in C. *)
Definition value_size (sub : pb_msg → N → Z) (ty : pb_type N) (v : pb_val) : Z :=
  match ty, v with
  | PROTOBUF_C_TYPE_INT32, VNum z => int32_size z
  | PROTOBUF_C_TYPE_UINT32, VNum z => uint32_size z
  | PROTOBUF_C_TYPE_BOOL, VNum _ => 1
  | PROTOBUF_C_TYPE_FIXED64, VNum _ => 8
  | PROTOBUF_C_TYPE_BYTES, VBytes b => uint32_size (u32 (zlen b)) + zlen b
  | PROTOBUF_C_TYPE_MESSAGE n', VMsg m' =>
      let subrv := sub m' n' in uint32_size (u32 subrv) + subrv
  | _, _ => 0
  end.
Definition required_field_get_packed_size (sub : pb_msg → N → Z) (f : pb_field N) (v : pb_val)
    : Z :=
  get_tag_size (pf_id f) + value_size sub (pf_type f) v.

Definition value_pack (sub : pb_msg → N → bytes) (ty : pb_type N) (v : pb_val) : bytes :=
  match ty, v with
  | PROTOBUF_C_TYPE_INT32, VNum z => int32_pack z
  | PROTOBUF_C_TYPE_UINT32, VNum z => uint32_pack z
  | PROTOBUF_C_TYPE_BOOL, VNum z => boolean_pack z
  | PROTOBUF_C_TYPE_FIXED64, VNum z => fixed64_pack z
  | PROTOBUF_C_TYPE_BYTES, VBytes b => binary_data_pack b
  | PROTOBUF_C_TYPE_MESSAGE n', VMsg m' => binary_data_pack (sub m' n')
  | _, _ => []
  end.
Definition required_field_pack (sub : pb_msg → N → bytes) (f : pb_field N) (v : pb_val) : bytes :=
  set_wire_type (wire_type_of (pf_type f)) (tag_pack (pf_id f)) ++ value_pack sub (pf_type f) v.

(** [depth] bounds the nesting of messages: the descriptors of the library
    nest four deep. *)
Fixpoint protobuf_c_message_get_packed_size (depth : nat) (m : pb_msg) (n : N) : Z :=
  match depth with
  | O => 0
  | S depth =>
      foldr Z.add 0 (zip_with (λ f vs,
        foldr Z.add 0 (required_field_get_packed_size
          (protobuf_c_message_get_packed_size depth) f <$> field_values f vs))
        (d_fields (descriptor n)) m)
  end.

Fixpoint protobuf_c_message_pack (depth : nat) (m : pb_msg) (n : N) : bytes :=
  match depth with
  | O => []
  | S depth =>
      concat (zip_with (λ f vs,
        concat (required_field_pack (protobuf_c_message_pack depth) f <$> field_values f vs))
        (d_fields (descriptor n)) m)
  end.
End Pack.

(** ** Unpacking *)

(** [while(n > 1)]; [fuel] bounds the halvings of [n]. *)
Fixpoint int_range_loop (fuel : nat) (ranges : list (Z * Z)) (start n : nat) (value : Z) : Z :=
  let start_value i := (nth i ranges (0, 0)).1 in
  let orig_index i := (nth i ranges (0, 0)).2 in
  match fuel with
  | O => -1
  | S fuel =>
      if (1 <? n)%nat then
        let mid := (start + n / 2)%nat in
        if value <? start_value mid then
          int_range_loop fuel ranges start (mid - start) value
        else if start_value mid + (orig_index (mid + 1)%nat - orig_index mid) <=? value then
          int_range_loop fuel ranges (mid + 1) (start + n - (mid + 1)) value
        else value - start_value mid + orig_index mid
      else if (0 <? n)%nat then
        let range_size := orig_index (start + 1)%nat - orig_index start in
        if (start_value start <=? value) && (value <? start_value start + range_size)
        then value - start_value start + orig_index start
        else -1
      else -1
  end.
Definition int_range_lookup (ranges : list (Z * Z)) (value : Z) : Z :=
  match ranges with
  | [] | [_] => -1
  | _ => int_range_loop (length ranges) ranges 0 (length ranges - 1) value
  end.

Section Scan.
Context {U : Type}.

Definition byte_at (data : bytes) (i : nat) : M (world U) Z :=
  match data !! i with Some b => ret b | None => abort end.

(** [for(rv = 1; rv < max_rv; rv++)], [n] iterations left; [None] is the error
    return 0. *)
Fixpoint parse_tag_loop (n rv : nat) (data : bytes) (tag shift : Z)
    : M (world U) (option (Z * nat)) :=
  match n with
  | O => ret None
  | S n =>
      let* b := byte_at data rv in
      if Z.testbit b 7 then
        parse_tag_loop n (S rv) data (u32 (Z.lor tag (Z.shiftl (Z.land b 127) shift))) (shift + 7)
      else ret (Some (u32 (Z.lor tag (Z.shiftl b shift)), S rv))
  end.

(** The tag, the wire type and the number of bytes used. *)
Definition parse_tag_and_wiretype (len : Z) (data : bytes)
    : M (world U) (option (Z * Z * nat)) :=
  let max_rv := if 5 <? len then 5 else len in
  let* b := byte_at data 0 in
  let tag := Z.shiftr (Z.land b 127) 3 in
  let wiretype := Z.land b 7 in
  if negb (Z.testbit b 7) then ret (Some (tag, wiretype, 1%nat))
  else
    let* r := parse_tag_loop (Z.to_nat (max_rv - 1)) 1 data tag 4 in
    match r with
    | Some (tag, rv) => ret (Some (tag, wiretype, rv))
    | None => ret None
    end.

(** The index of the first byte without the continuation bit among the next
    [n]. *)
Fixpoint scan_varint_loop (n i : nat) (data : bytes) : M (world U) (option nat) :=
  match n with
  | O => ret None
  | S n =>
      let* b := byte_at data i in
      if negb (Z.testbit b 7) then ret (Some i) else scan_varint_loop n (S i) data
  end.

(** The value and the number of bytes of a length prefix. *)
Fixpoint length_prefix_loop (n i : nat) (data : bytes) (val shift : Z)
    : M (world U) (option (Z * nat)) :=
  match n with
  | O => ret None
  | S n =>
      let* b := byte_at data i in
      let val := u32 (Z.lor val (Z.shiftl (Z.land b 127) shift)) in
      if negb (Z.testbit b 7) then ret (Some (val, S i))
      else length_prefix_loop n (S i) data val (shift + 7)
  end.

(** The total length, or 0, and the prefix length.  [hdr_len + val] is
    computed in [uint32_t]. *)
Definition scan_length_prefixed_data (len : Z) (data : bytes) : M (world U) (Z * nat) :=
  let hdr_max := if len <? 5 then len else 5 in
  let* r := length_prefix_loop (Z.to_nat hdr_max) 0 data 0 0 in
  match r with
  | None => ret (0, O)
  | Some (val, hdr_len) =>
      if len <? u32 (Z.of_nat hdr_len + val) then ret (0, hdr_len)
      else ret (u32 (Z.of_nat hdr_len + val), hdr_len)
  end.

(** [at[0 .. len)] copied out. *)
Definition copy_bytes (data : bytes) (len : Z) : M (world U) bytes :=
  if zlen data <? len then abort else ret (take (Z.to_nat len) data).

Definition parse_uint32 (len : Z) (data : bytes) : M (world U) Z :=
  let* b0 := byte_at data 0 in
  let rv := Z.land b0 127 in
  if negb (1 <? len) then ret rv else
  let* b1 := byte_at data 1 in
  let rv := Z.lor rv (Z.shiftl (Z.land b1 127) 7) in
  if negb (2 <? len) then ret rv else
  let* b2 := byte_at data 2 in
  let rv := Z.lor rv (Z.shiftl (Z.land b2 127) 14) in
  if negb (3 <? len) then ret rv else
  let* b3 := byte_at data 3 in
  let rv := Z.lor rv (Z.shiftl (Z.land b3 127) 21) in
  if negb (4 <? len) then ret rv else
  let* b4 := byte_at data 4 in
  ret (u32 (Z.lor rv (Z.shiftl b4 28))).

Definition parse_fixed_uint64 (data : bytes) : M (world U) Z :=
  let* bs := copy_bytes data 8 in
  ret (foldr (λ b acc, b + 256 * acc) 0 bs).

Fixpoint parse_boolean (data : bytes) (len : Z) : M (world U) Z :=
  if len <=? 0 then ret 0
  else match data with
       | [] => abort
       | b :: data => if negb (Z.land b 127 =? 0) then ret 1 else parse_boolean data (len - 1)
       end.
End Scan.

(** A field as scanned; [sm_data] is the input from the field's data on. *)
Record ScannedMember : Type := {
  sm_field : option nat; sm_wire_type : Z; sm_length_prefix_len : nat;
  sm_len : Z; sm_data : bytes }.

Definition MAX_SCANNED_MEMBER_SLAB : Z := 4 * 8 - 1 - 5 - 4.

Section Unpack.
Context {U N : Type} {D : Descriptors N}.

(** A merge of [earlier] into [latter], by field type; [None] when the
    concatenation of repeated fields cannot be allocated.  An empty [bytes]
    value has a null [data] pointer and counts as absent. *)
Definition merge_field (sub : N → pb_msg → pb_msg → M (world U) (option pb_msg))
    (f : pb_field N) (earlier latter : list pb_val) : M (world U) (option (list pb_val)) :=
  match pf_label f with
  | PROTOBUF_C_LABEL_REPEATED =>
      match earlier, latter with
      | [], _ => ret (Some latter)
      | _, [] => ret (Some earlier)
      | _, _ => let* ok := malloc in
                ret (if (ok : bool) then Some (earlier ++ latter) else None)
      end
  | PROTOBUF_C_LABEL_OPTIONAL =>
      match pf_type f with
      | PROTOBUF_C_TYPE_MESSAGE n' =>
          match earlier, latter with
          | VMsg em :: _, VMsg lm :: _ =>
              let* r := sub n' em lm in
              ret (match r with Some m => Some [VMsg m] | None => None end)
          | VMsg _ :: _, _ => ret (Some earlier)
          | _, _ => ret (Some latter)
          end
      | PROTOBUF_C_TYPE_BYTES =>
          match earlier, latter with
          | VBytes (_ :: _) :: _, (VBytes [] :: _ | []) => ret (Some earlier)
          | _, _ => ret (Some latter)
          end
      | _ =>
          match earlier, latter with
          | _ :: _, [] => ret (Some earlier)
          | _, _ => ret (Some latter)
          end
      end
  end.

Fixpoint merge_fields (sub : N → pb_msg → pb_msg → M (world U) (option pb_msg))
    (fs : list (pb_field N)) (earlier latter : pb_msg) : M (world U) (option pb_msg) :=
  match fs, earlier, latter with
  | f :: fs, e :: earlier, l :: latter =>
      let* r := merge_field sub f e l in
      match r with
      | None => ret None
      | Some v =>
          let* r := merge_fields sub fs earlier latter in
          ret (match r with Some m => Some (v :: m) | None => None end)
      end
  | _, _, _ => ret (Some latter)
  end.

Fixpoint merge_messages (depth : nat) (n : N) (earlier latter : pb_msg)
    : M (world U) (option pb_msg) :=
  match depth with
  | O => hang
  | S depth => merge_fields (merge_messages depth) (d_fields (descriptor n)) earlier latter
  end.

(** The field the tag belongs to; [last_field] is tried first. *)
Definition lookup_field (d : pb_desc N) (last_field : nat) (tag : Z) : option nat :=
  if match d_fields d !! last_field with Some f => pf_id f =? tag | None => false end
  then Some last_field
  else let i := int_range_lookup (d_ranges d) (s32 tag) in
       if i <? 0 then None else Some (Z.to_nat i).

(** The length of the field's data and of its prefix, by wire type. *)
Definition scan_data (wire_type rem : Z) (at_ : bytes) : M (world U) (option (Z * nat)) :=
  if wire_type =? PROTOBUF_C_WIRE_TYPE_VARINT then
    let* r := scan_varint_loop (Z.to_nat (if rem <? 10 then rem else 10)) 0 at_ in
    ret (match r with Some i => Some (Z.of_nat i + 1, O) | None => None end)
  else if wire_type =? PROTOBUF_C_WIRE_TYPE_64BIT then
    ret (if rem <? 8 then None else Some (8, O))
  else if wire_type =? PROTOBUF_C_WIRE_TYPE_LENGTH_PREFIXED then
    let* r := scan_length_prefixed_data rem at_ in
    ret (if r.1 =? 0 then None else Some r)
  else if wire_type =? PROTOBUF_C_WIRE_TYPE_32BIT then
    ret (if rem <? 4 then None else Some (4, O))
  else ret None.

(** The first pass: [while(rem > 0)].  Each round uses at least one byte of
    the input, so [length at_ + 1] rounds are enough. *)
Fixpoint scan_members (fuel : nat) (d : pb_desc N) (last_field : nat)
    (which_slab in_slab_index rem : Z) (at_ : bytes) : M (world U) (option (list ScannedMember)) :=
  match fuel with
  | O => hang
  | S fuel =>
      if rem <=? 0 then ret (Some [])
      else
        let* t := parse_tag_and_wiretype rem at_ in
        match t with
        | None => ret None
        | Some (tag, wire_type, used) =>
            let field := lookup_field d last_field tag in
            let last_field := default last_field field in
            let at_ := drop used at_ in
            let rem := rem - Z.of_nat used in
            let* r := scan_data wire_type rem at_ in
            match r with
            | None => ret None
            | Some (len, pref_len) =>
                let tmp := {| sm_field := field; sm_wire_type := wire_type;
                              sm_length_prefix_len := pref_len; sm_len := len;
                              sm_data := at_ |} in
                let full := in_slab_index =? 2 ^ (which_slab + 4) in
                if full && (which_slab =? MAX_SCANNED_MEMBER_SLAB) then ret None
                else
                  let* ok := (if full then malloc else ret true) in
                  if negb ok then ret None
                  else
                    let* rest := scan_members fuel d last_field
                      (if full then which_slab + 1 else which_slab)
                      (if full then 1 else in_slab_index + 1)
                      (rem - len) (drop (Z.to_nat len) at_) in
                    ret (match rest with Some ms => Some (tmp :: ms) | None => None end)
            end
        end
  end.

(** The second pass: the arrays of the repeated fields that occur and, if
    needed, that of the unknown fields. *)
Fixpoint alloc_repeated (i : nat) (fs : list (pb_field N)) (ms : list ScannedMember)
    : M (world U) bool :=
  match fs with
  | [] => if existsb (λ m, bool_decide (sm_field m = None)) ms then malloc else ret true
  | f :: fs =>
      let occurs := existsb (λ m, bool_decide (sm_field m = Some i)) ms in
      match pf_label f, occurs with
      | PROTOBUF_C_LABEL_REPEATED, true =>
          let* ok := malloc in
          if (ok : bool) then alloc_repeated (S i) fs ms else ret false
      | _, _ => alloc_repeated (S i) fs ms
      end
  end.

(** The value of one scanned member; [None] is the return [FALSE].  The
    payload length [len - pref_len] is computed in [unsigned].  [old] is the
    value an optional field already has. *)
Definition parse_required_member
    (unpack : N → Z → bytes → M (world U) (option pb_msg))
    (merge : N → pb_msg → pb_msg → M (world U) (option pb_msg))
    (f : pb_field N) (m : ScannedMember) (old : list pb_val) : M (world U) (option pb_val) :=
  let len := u32 (sm_len m) in
  let data := sm_data m in
  let payload_len := u32 (len - Z.of_nat (sm_length_prefix_len m)) in
  let payload := drop (sm_length_prefix_len m) data in
  let wire_ok := sm_wire_type m =? wire_type_of (pf_type f) in
  match pf_type f with
  | PROTOBUF_C_TYPE_INT32 =>
      if negb wire_ok then ret None
      else let* z := parse_uint32 len data in ret (Some (VNum (s32 z)))
  | PROTOBUF_C_TYPE_UINT32 =>
      if negb wire_ok then ret None
      else let* z := parse_uint32 len data in ret (Some (VNum z))
  | PROTOBUF_C_TYPE_FIXED64 =>
      if negb wire_ok then ret None
      else let* z := parse_fixed_uint64 data in ret (Some (VNum z))
  | PROTOBUF_C_TYPE_BOOL => let* z := parse_boolean data len in ret (Some (VNum z))
  | PROTOBUF_C_TYPE_BYTES =>
      if negb wire_ok then ret None
      else if 0 <? payload_len then
        let* ok := malloc in
        if negb ok then ret None
        else let* b := copy_bytes payload payload_len in ret (Some (VBytes b))
      else ret (Some (VBytes []))
  | PROTOBUF_C_TYPE_MESSAGE n' =>
      if negb wire_ok then ret None
      else
        let* r := unpack n' payload_len payload in
        match r, old with
        | None, _ => ret None
        | Some subm, VMsg em :: _ =>
            let* r := merge n' em subm in
            ret (match r with Some m => Some (VMsg m) | None => None end)
        | Some subm, _ => ret (Some (VMsg subm))
        end
  end.

(** One member written into the message; an unknown field is copied aside. *)
Definition parse_member
    (unpack : N → Z → bytes → M (world U) (option pb_msg))
    (merge : N → pb_msg → pb_msg → M (world U) (option pb_msg))
    (d : pb_desc N) (m : ScannedMember) (message : pb_msg) : M (world U) (option pb_msg) :=
  match sm_field m with
  | None =>
      let* ok := malloc in
      if negb ok then ret None
      else let* _ := copy_bytes (sm_data m) (sm_len m) in ret (Some message)
  | Some i =>
      match d_fields d !! i, message !! i with
      | Some f, Some vs =>
          match pf_label f with
          | PROTOBUF_C_LABEL_OPTIONAL =>
              let* r := parse_required_member unpack merge f m vs in
              ret (match r with Some v => Some (<[i:=[v]]> message) | None => None end)
          | PROTOBUF_C_LABEL_REPEATED =>
              let* r := parse_required_member unpack merge f m [] in
              ret (match r with Some v => Some (<[i:=vs ++ [v]]> message) | None => None end)
          end
      | _, _ => abort
      end
  end.

Fixpoint parse_members
    (unpack : N → Z → bytes → M (world U) (option pb_msg))
    (merge : N → pb_msg → pb_msg → M (world U) (option pb_msg))
    (d : pb_desc N) (ms : list ScannedMember) (message : pb_msg) : M (world U) (option pb_msg) :=
  match ms with
  | [] => ret (Some message)
  | m :: ms =>
      let* r := parse_member unpack merge d m message in
      match r with
      | None => ret None
      | Some message => parse_members unpack merge d ms message
      end
  end.

Fixpoint protobuf_c_message_unpack (depth : nat) (n : N) (len : Z) (data : bytes)
    : M (world U) (option pb_msg) :=
  match depth with
  | O => hang
  | S depth' =>
      let d := descriptor n in
      let* ok := malloc in
      if negb ok then ret None
      else
        let* scanned := scan_members (S (length data)) d 0 0 0 len data in
        match scanned with
        | None => ret None
        | Some ms =>
            let* ok := alloc_repeated 0 (d_fields d) ms in
            if negb ok then ret None
            else parse_members (protobuf_c_message_unpack depth') (merge_messages depth) d ms
                   (replicate (length (d_fields d)) [])
        end
  end.
End Unpack.
