(* ===== verification/ProtobufSpec.v ===== *)
(** The protobuf wire format: what [protobuf_c_message_pack] writes is what
    [protobuf_c_message_get_packed_size] announced and what
    [protobuf_c_message_unpack] reads back, and unpacking arbitrary input never
    reads past its end. *)

From S2P Require Import Prelude Protobuf.

Local Arguments Z.testbit : simpl never.
Local Arguments Z.land : simpl never.
Local Arguments Z.lor : simpl never.
Local Arguments Z.shiftl : simpl never.
Local Arguments Z.shiftr : simpl never.
(** ** Bits *)

Lemma lor_shiftl_add a b n : 0 <= n → 0 <= a < 2 ^ n → Z.lor a (Z.shiftl b n) = a + b * 2 ^ n.
Proof.
  intros Hn Ha.
  assert (Z.land a (Z.shiftl b n) = 0) as H0.
  { apply Z.bits_inj'. intros i Hi. rewrite Z.land_spec, Z.bits_0.
    destruct (Z.lt_ge_cases i n).
    - rewrite Z.shiftl_spec_low by done. apply andb_false_r.
    - rewrite <-(Z.mod_small a (2 ^ n)) by done. by rewrite Z.mod_pow2_bits_high by lia. }
  rewrite <-Z.lxor_lor by done. rewrite <-Z.add_nocarry_lxor by done.
  by rewrite Z.shiftl_mul_pow2.
Qed.

Lemma land_127 x : Z.land x 127 = x `mod` 128.
Proof. apply (Z.land_ones x 7). done. Qed.

Lemma cont_byte_low x : Z.land (u8 (Z.lor x 128)) 127 = x `mod` 128.
Proof.
  unfold u8. rewrite <-(Z.land_ones _ 8) by done. rewrite <-Z.land_assoc.
  change (Z.land (Z.ones 8) 127) with 127. rewrite Z.land_lor_distr_l.
  change (Z.land 128 127) with 0. rewrite Z.lor_0_r. apply land_127.
Qed.

Lemma cont_byte_bit x : Z.testbit (u8 (Z.lor x 128)) 7 = true.
Proof.
  unfold u8. rewrite Z.mod_pow2_bits_low by done. rewrite Z.lor_spec.
  change (Z.testbit 128 7) with true. apply orb_true_r.
Qed.

Lemma small_byte x : 0 <= x < 128 → u8 x = x ∧ Z.land x 127 = x ∧ Z.testbit x 7 = false.
Proof.
  intros H. split_and!.
  - apply Z.mod_small. lia.
  - rewrite land_127. by apply Z.mod_small.
  - rewrite <-(Z.mod_small x (2 ^ 7)) by done. by apply Z.mod_pow2_bits_high.
Qed.

(** ** Varints *)

Lemma uint32_pack_loop_small n v : 0 <= v < 128 → uint32_pack_loop n v = [v].
Proof.
  intros H. destruct (small_byte v H) as (Hu & _ & _).
  destruct n; simpl; [by rewrite Hu|]. rewrite (proj2 (Z.leb_gt _ _)) by lia. by rewrite Hu.
Qed.

Lemma uint32_pack_loop_length n v : (1 ≤ length (uint32_pack_loop n v) ≤ S n)%nat.
Proof.
  revert v. induction n as [|n IH]; intros v; simpl; [lia|].
  destruct (128 <=? v); simpl; [specialize (IH (Z.shiftr v 7))|]; lia.
Qed.

Lemma shiftr7 v : Z.shiftr v 7 = v / 128.
Proof. by rewrite Z.shiftr_div_pow2. Qed.

Lemma pow128_S n : 128 ^ Z.of_nat (S n) = 128 * 128 ^ Z.of_nat n.
Proof. rewrite Nat2Z.inj_succ, Z.pow_succ_r by lia. done. Qed.

Section Varint.
Context {U : Type} (w : world U).

Lemma byte_at_mid pre b rest : byte_at (pre ++ b :: rest) (length pre) w = (Ok b, w).
Proof. unfold byte_at. by rewrite list_lookup_middle. Qed.

Lemma scan_varint_pack n m v pre rest :
  0 <= v < 128 ^ Z.of_nat (S n) → (length (uint32_pack_loop n v) ≤ m)%nat →
  scan_varint_loop m (length pre) (pre ++ uint32_pack_loop n v ++ rest) w
  = (Ok (Some (length pre + length (uint32_pack_loop n v) - 1)%nat), w).
Proof.
  revert m v pre. induction n as [|n IH]; intros m v pre Hv Hm;
    rewrite ?pow128_S in Hv.
  - rewrite uint32_pack_loop_small in * by lia. destruct m as [|m]; [simpl in Hm; lia|].
    simpl. rewrite (bind_ok _ _ _ _ _ (byte_at_mid pre v rest)).
    destruct (small_byte v) as (_ & _ & ->); [lia|]. simpl. unfold ret. do 3 f_equal. lia.
  - simpl uint32_pack_loop in *. destruct (Z.leb_spec 128 v) as [Hge|Hlt].
    + destruct m as [|m]; [simpl in Hm; lia|]. simpl in Hm |- *.
      rewrite (bind_ok _ _ _ _ _ (byte_at_mid pre _ _)). rewrite cont_byte_bit. simpl.
      rewrite cons_middle, app_assoc.
      replace (S (length pre)) with (length (pre ++ [u8 (Z.lor v 128)]))
        by (rewrite length_app; simpl; lia).
      rewrite (IH m (Z.shiftr v 7)); [|rewrite shiftr7, pow128_S in *|lia].
      * rewrite length_app. simpl. do 3 f_equal. lia.
      * split; [apply Z.div_pos; lia|apply Z.div_lt_upper_bound; lia].
    + destruct (small_byte v) as (Hu & _ & Ht); [lia|]. rewrite Hu in *.
      destruct m as [|m]; [simpl in Hm; lia|].
      simpl. rewrite (bind_ok _ _ _ _ _ (byte_at_mid pre v rest)). rewrite Ht.
      unfold ret. do 3 f_equal. lia.
Qed.

Lemma length_prefix_pack n m v pre rest acc shift :
  0 <= v < 128 ^ Z.of_nat (S n) → (length (uint32_pack_loop n v) ≤ m)%nat →
  0 <= shift → 0 <= acc < 2 ^ shift → acc + v * 2 ^ shift < 2 ^ 32 →
  length_prefix_loop m (length pre) (pre ++ uint32_pack_loop n v ++ rest) acc shift w
  = (Ok (Some (acc + v * 2 ^ shift, (length pre + length (uint32_pack_loop n v))%nat)), w).
Proof.
  revert m v pre acc shift. induction n as [|n IH]; intros m v pre acc shift Hv Hm Hs Ha Hb;
    rewrite ?pow128_S in Hv.
  - rewrite uint32_pack_loop_small in * by lia. destruct m as [|m]; [simpl in Hm; lia|].
    simpl. rewrite (bind_ok _ _ _ _ _ (byte_at_mid pre v rest)).
    destruct (small_byte v) as (_ & -> & ->); [lia|]. simpl.
    rewrite lor_shiftl_add, u32_small by (unfold is_u32; nia).
    unfold ret. do 4 f_equal. lia.
  - simpl uint32_pack_loop in *. destruct (Z.leb_spec 128 v) as [Hge|Hlt].
    + destruct m as [|m]; [simpl in Hm; lia|]. simpl in Hm |- *.
      rewrite (bind_ok _ _ _ _ _ (byte_at_mid pre _ _)). rewrite cont_byte_bit, cont_byte_low. simpl.
      assert (v `mod` 128 <= v) by (apply Z.mod_le; lia).
      pose proof (Z.mod_pos_bound v 128 ltac:(done)) as Hmb.
      pose proof (Z.div_mod v 128 ltac:(done)) as Hdm.
      rewrite lor_shiftl_add, u32_small by (unfold is_u32; nia).
      rewrite cons_middle, app_assoc.
      replace (S (length pre)) with (length (pre ++ [u8 (Z.lor v 128)]))
        by (rewrite length_app; simpl; lia).
      assert (2 ^ (shift + 7) = 128 * 2 ^ shift) as Hp by (rewrite Z.pow_add_r; lia).
      rewrite shiftr7 in *. rewrite (IH m (v / 128)); rewrite ?Hp.
      * rewrite length_app. simpl. do 4 f_equal; [nia|lia].
      * rewrite pow128_S. split; [apply Z.div_pos; lia|apply Z.div_lt_upper_bound; lia].
      * lia.
      * lia.
      * nia.
      * nia.
    + destruct (small_byte v) as (Hu & Hl & Ht); [lia|]. rewrite Hu in *.
      destruct m as [|m]; [simpl in Hm; lia|].
      simpl. rewrite (bind_ok _ _ _ _ _ (byte_at_mid pre v rest)). rewrite Ht, Hl.
      rewrite lor_shiftl_add, u32_small by (unfold is_u32; nia).
      unfold ret. simpl. do 4 f_equal. lia.
Qed.
End Varint.

(** A value and its base-128 digits. *)
Lemma digits128 v :
  0 <= v < 2 ^ 32 → ∃ d0 d1 d2 d3 d4,
    v = d0 + d1 * 2 ^ 7 + d2 * 2 ^ 14 + d3 * 2 ^ 21 + d4 * 2 ^ 28 ∧
    v `mod` 128 = d0 ∧ (v / 128) `mod` 128 = d1 ∧ (v / 128 / 128) `mod` 128 = d2 ∧
    (v / 128 / 128 / 128) `mod` 128 = d3 ∧ v / 128 / 128 / 128 / 128 = d4 ∧
    v / 128 / 128 / 128 = d3 + d4 * 2 ^ 7 ∧ v / 128 / 128 = d2 + d3 * 2 ^ 7 + d4 * 2 ^ 14 ∧
    v / 128 = d1 + d2 * 2 ^ 7 + d3 * 2 ^ 14 + d4 * 2 ^ 21 ∧
    0 <= d0 < 128 ∧ 0 <= d1 < 128 ∧ 0 <= d2 < 128 ∧ 0 <= d3 < 128 ∧ 0 <= d4 < 16.
Proof.
  intros Hv. exists (v `mod` 128), ((v / 128) `mod` 128), ((v / 128 / 128) `mod` 128),
    ((v / 128 / 128 / 128) `mod` 128), (v / 128 / 128 / 128 / 128).
  pose proof (Z.div_mod v 128 ltac:(done)) as E0. pose proof (Z.mod_pos_bound v 128 ltac:(done)).
  set (q1 := v / 128) in *. set (r0 := v `mod` 128) in *. clearbody q1 r0.
  pose proof (Z.div_mod q1 128 ltac:(done)) as E1. pose proof (Z.mod_pos_bound q1 128 ltac:(done)).
  set (q2 := q1 / 128) in *. set (r1 := q1 `mod` 128) in *. clearbody q2 r1.
  pose proof (Z.div_mod q2 128 ltac:(done)) as E2. pose proof (Z.mod_pos_bound q2 128 ltac:(done)).
  set (q3 := q2 / 128) in *. set (r2 := q2 `mod` 128) in *. clearbody q3 r2.
  pose proof (Z.div_mod q3 128 ltac:(done)) as E3. pose proof (Z.mod_pos_bound q3 128 ltac:(done)).
  set (q4 := q3 / 128) in *. set (r3 := q3 `mod` 128) in *. clearbody q4 r3.
  split_and!; try reflexivity; lia.
Qed.

Lemma uint32_size_pack v : 0 <= v < 2 ^ 32 → zlen (uint32_pack v) = uint32_size v.
Proof.
  intros Hv. destruct (digits128 v Hv) as (d0 & d1 & d2 & d3 & d4 & Ev & _ & _ & _ & _ & E4 &
    F3 & F2 & F1 & ? & ? & ? & ? & ?).
  unfold uint32_pack, uint32_size. cbn [uint32_pack_loop]. rewrite !shiftr7, E4, F3, F2, F1.
  clear E4 F3 F2 F1.
  repeat match goal with
  | |- context [128 <=? ?b] => destruct (Z.leb_spec 128 b)
  end; repeat match goal with
  | |- context [?a <? ?b] => destruct (Z.ltb_spec a b)
  end; try reflexivity; exfalso; lia.
Qed.

Definition low4 (b0 b1 b2 b3 : Z) : Z :=
  Z.lor (Z.lor (Z.lor (Z.land b0 127) (Z.shiftl (Z.land b1 127) 7))
    (Z.shiftl (Z.land b2 127) 14)) (Z.shiftl (Z.land b3 127) 21).

Lemma low4_sum b0 b1 b2 b3 :
  low4 b0 b1 b2 b3 = b0 `mod` 128 + b1 `mod` 128 * 2 ^ 7 + b2 `mod` 128 * 2 ^ 14
    + b3 `mod` 128 * 2 ^ 21.
Proof.
  unfold low4. rewrite !land_127.
  pose proof (Z.mod_pos_bound b0 128 ltac:(done)). pose proof (Z.mod_pos_bound b1 128 ltac:(done)).
  pose proof (Z.mod_pos_bound b2 128 ltac:(done)).
  rewrite (lor_shiftl_add (b0 `mod` 128)) by lia.
  rewrite (lor_shiftl_add (b0 `mod` 128 + _)) by lia.
  by rewrite lor_shiftl_add by lia.
Qed.

Lemma parse_uint32_bytes {U} (w : world U) b0 b1 b2 b3 b4 rest len :
  parse_uint32 1 (b0 :: rest) w = (Ok (low4 b0 0 0 0), w) ∧
  parse_uint32 2 (b0 :: b1 :: rest) w = (Ok (low4 b0 b1 0 0), w) ∧
  parse_uint32 3 (b0 :: b1 :: b2 :: rest) w = (Ok (low4 b0 b1 b2 0), w) ∧
  parse_uint32 4 (b0 :: b1 :: b2 :: b3 :: rest) w = (Ok (low4 b0 b1 b2 b3), w) ∧
  (4 < len → parse_uint32 len (b0 :: b1 :: b2 :: b3 :: b4 :: rest) w
    = (Ok (u32 (Z.lor (low4 b0 b1 b2 b3) (Z.shiftl b4 28))), w)).
Proof.
  unfold low4. change (Z.shiftl (Z.land 0 127) 7) with 0. change (Z.shiftl (Z.land 0 127) 14) with 0.
  change (Z.shiftl (Z.land 0 127) 21) with 0. rewrite !Z.lor_0_r.
  split_and!; try reflexivity. intros Hl. unfold parse_uint32.
  rewrite !(proj2 (Z.ltb_lt _ len)) by lia. reflexivity.
Qed.

(** The fifth byte counts with its low four bits. *)
Lemma low5 a b : 0 <= a < 2 ^ 28 → u32 (Z.lor a (Z.shiftl b 28)) = a + b `mod` 16 * 2 ^ 28.
Proof.
  intros Ha. rewrite lor_shiftl_add by lia. unfold u32.
  rewrite (Z.div_mod b 16) at 1 by done.
  replace (a + (16 * (b / 16) + b `mod` 16) * 2 ^ 28)
    with (a + b `mod` 16 * 2 ^ 28 + b / 16 * 2 ^ 32) by lia.
  rewrite Z.mod_add by done. pose proof (Z.mod_pos_bound b 16 ltac:(done)).
  apply Z.mod_small. lia.
Qed.

Lemma cont_byte_mod x : u8 (Z.lor x 128) `mod` 128 = x `mod` 128.
Proof. rewrite <-land_127. apply cont_byte_low. Qed.

Lemma u8_mod128 x : u8 x `mod` 128 = x `mod` 128.
Proof.
  unfold u8. rewrite <-!land_127, <-(Z.land_ones _ 8), <-Z.land_assoc by done. done.
Qed.

Lemma parse_uint32_pack {U} (w : world U) v rest :
  0 <= v < 2 ^ 32 →
  parse_uint32 (zlen (uint32_pack v)) (uint32_pack v ++ rest) w = (Ok v, w).
Proof.
  intros Hv. destruct (digits128 v Hv) as (d0 & d1 & d2 & d3 & d4 & Ev & E0 & E1 & E2 & E3 & E4 &
    F3 & F2 & F1 & ? & ? & ? & ? & ?).
  unfold uint32_pack. cbn [uint32_pack_loop]. rewrite !shiftr7.
  repeat match goal with
  | |- context [128 <=? ?b] => destruct (Z.leb_spec 128 b)
  end; match goal with
  | |- parse_uint32 _ ([?b0; ?b1; ?b2; ?b3; ?b4] ++ _) _ = _ =>
      etrans; [exact (proj2 (proj2 (proj2 (proj2 (parse_uint32_bytes w b0 b1 b2 b3 b4 rest 5)))) eq_refl)|]
  | |- parse_uint32 _ ([?b0; ?b1; ?b2; ?b3] ++ _) _ = _ =>
      etrans; [exact (proj1 (proj2 (proj2 (proj2 (parse_uint32_bytes w b0 b1 b2 b3 0 rest 5)))))|]
  | |- parse_uint32 _ ([?b0; ?b1; ?b2] ++ _) _ = _ =>
      etrans; [exact (proj1 (proj2 (proj2 (parse_uint32_bytes w b0 b1 b2 0 0 rest 5))))|]
  | |- parse_uint32 _ ([?b0; ?b1] ++ _) _ = _ =>
      etrans; [exact (proj1 (proj2 (parse_uint32_bytes w b0 b1 0 0 0 rest 5)))|]
  | |- parse_uint32 _ ([?b0] ++ _) _ = _ =>
      etrans; [exact (proj1 (parse_uint32_bytes w b0 0 0 0 0 rest 5))|]
  end; f_equal; f_equal;
  rewrite ?(proj1 (small_byte (v / 128 / 128 / 128 / 128) ltac:(lia)));
  rewrite ?low5 by (rewrite low4_sum, !cont_byte_mod; lia);
  rewrite low4_sum, ?cont_byte_mod, ?u8_mod128, ?Zmod_0_l, ?E0, ?E1, ?E2, ?E3, ?E4;
  rewrite ?(Z.mod_small d4) by lia; rewrite Ev; clear E0 E1 E2 E3 E4; lia.
Qed.

(** ** Scalar values *)

Lemma cont_byte_mod16 x : u8 (Z.lor x 128) `mod` 16 = x `mod` 16.
Proof.
  unfold u8. rewrite <-(Z.land_ones _ 8), <-!(Z.land_ones _ 4), <-Z.land_assoc by done.
  change (Z.land (Z.ones 8) (Z.ones 4)) with (Z.ones 4). rewrite Z.land_lor_distr_l.
  change (Z.land 128 (Z.ones 4)) with 0. by rewrite Z.lor_0_r.
Qed.

Lemma int32_digits v :
  v `mod` 128 + Z.shiftr v 7 `mod` 128 * 2 ^ 7 + Z.shiftr v 14 `mod` 128 * 2 ^ 14
    + Z.shiftr v 21 `mod` 128 * 2 ^ 21 + Z.shiftr v 28 `mod` 16 * 2 ^ 28 = v `mod` 2 ^ 32.
Proof.
  rewrite !Z.shiftr_div_pow2 by done.
  pose proof (Z.div_mod v 128 ltac:(done)) as E0. pose proof (Z.mod_pos_bound v 128 ltac:(done)).
  assert (v / 2 ^ 14 = v / 128 / 128) as -> by (by rewrite Z.div_div).
  assert (v / 2 ^ 21 = v / 128 / 128 / 128) as -> by (by rewrite !Z.div_div).
  assert (v / 2 ^ 28 = v / 128 / 128 / 128 / 128) as -> by (by rewrite !Z.div_div).
  change (2 ^ 7) with 128.
  set (q1 := v / 128) in *. set (r0 := v `mod` 128) in *. clearbody q1 r0.
  pose proof (Z.div_mod q1 128 ltac:(done)) as E1. pose proof (Z.mod_pos_bound q1 128 ltac:(done)).
  set (q2 := q1 / 128) in *. set (r1 := q1 `mod` 128) in *. clearbody q2 r1.
  pose proof (Z.div_mod q2 128 ltac:(done)) as E2. pose proof (Z.mod_pos_bound q2 128 ltac:(done)).
  set (q3 := q2 / 128) in *. set (r2 := q2 `mod` 128) in *. clearbody q3 r2.
  pose proof (Z.div_mod q3 128 ltac:(done)) as E3. pose proof (Z.mod_pos_bound q3 128 ltac:(done)).
  set (q4 := q3 / 128) in *. set (r3 := q3 `mod` 128) in *. clearbody q4 r3.
  pose proof (Z.div_mod q4 16 ltac:(done)) as E4. pose proof (Z.mod_pos_bound q4 16 ltac:(done)).
  set (q5 := q4 / 16) in *. set (r4 := q4 `mod` 16) in *. clearbody q5 r4.
  apply (Z.mod_unique_pos _ _ q5); lia.
Qed.

Lemma s32_mod v : - 2 ^ 31 <= v < 2 ^ 31 → s32 (v `mod` 2 ^ 32) = v.
Proof.
  intros H. unfold s32. rewrite Z.add_mod_idemp_l by done. rewrite Z.mod_small; lia.
Qed.

Lemma int32_pack_length v : -2 ^ 31 <= v < 2 ^ 31 → zlen (int32_pack v) = int32_size v.
Proof.
  intros H. unfold int32_pack, int32_size. destruct (Z.ltb_spec v 0); [done|].
  apply uint32_size_pack. lia.
Qed.

Lemma parse_int32_pack {U} (w : world U) v rest :
  -2 ^ 31 <= v < 2 ^ 31 →
  ∃ z, parse_uint32 (zlen (int32_pack v)) (int32_pack v ++ rest) w = (Ok z, w) ∧ s32 z = v.
Proof.
  intros H. unfold int32_pack. destruct (Z.ltb_spec v 0) as [Hn|Hn].
  - eexists. split.
    + exact (proj2 (proj2 (proj2 (proj2 (parse_uint32_bytes w _ _ _ _ _ _ 10)))) eq_refl).
    + assert (∀ x, 0 <= x `mod` 128 < 128) as Hb by (intros; by apply Z.mod_pos_bound).
      rewrite low5; rewrite low4_sum, !cont_byte_mod.
      * rewrite cont_byte_mod16, int32_digits. by apply s32_mod.
      * pose proof (Hb v). pose proof (Hb (Z.shiftr v 7)). pose proof (Hb (Z.shiftr v 14)).
        pose proof (Hb (Z.shiftr v 21)). lia.
  - exists v. split; [by apply parse_uint32_pack; lia|].
    rewrite <-(Z.mod_small v (2 ^ 32)) at 1 by lia. by apply s32_mod.
Qed.

Lemma fixed64_bytes v k n :
  0 <= v →
  foldr (λ b acc, b + 256 * acc) 0 ((λ i, u8 (Z.shiftr v (8 * Z.of_nat i))) <$> seq k n)
  = Z.shiftr v (8 * Z.of_nat k) `mod` 256 ^ Z.of_nat n.
Proof.
  intros Hv. revert k. induction n as [|n IH]; intros k; [by rewrite Z.mod_1_r|].
  cbn [seq fmap list_fmap foldr]. rewrite IH. unfold u8.
  replace (8 * Z.of_nat (S k)) with (8 * Z.of_nat k + 8) by lia.
  rewrite <-Z.shiftr_shiftr by lia. set (x := Z.shiftr v (8 * Z.of_nat k)).
  rewrite (Z.shiftr_div_pow2 x 8) by done. change (2 ^ 8) with 256.
  rewrite Nat2Z.inj_succ, Z.pow_succ_r by lia.
  rewrite Z.rem_mul_r by lia. done.
Qed.

Lemma parse_fixed64_pack {U} (w : world U) v rest :
  0 <= v < 2 ^ 64 → parse_fixed_uint64 (fixed64_pack v ++ rest) w = (Ok v, w).
Proof.
  intros Hv. unfold parse_fixed_uint64, copy_bytes.
  assert (length (fixed64_pack v) = 8%nat) as Hl by done.
  rewrite (proj2 (Z.ltb_ge _ _)) by (unfold zlen; rewrite length_app, Hl; lia).
  unfold bind, ret. rewrite take_app_length' by done. do 2 f_equal.
  etrans; [apply fixed64_bytes; lia|]. simpl. rewrite Z.shiftr_0_r. by apply Z.mod_small.
Qed.

Lemma binary_data_pack_length b :
  zlen (binary_data_pack b) = uint32_size (u32 (zlen b)) + zlen b.
Proof.
  unfold binary_data_pack. rewrite zlen_app, uint32_size_pack; [done|apply u32_range].
Qed.

(** ** Well-formed descriptors and messages *)

Section Wf.
Context {N : Type}.

(** Field ids take one byte with their wire type, the range table finds each
    field, and never points past the last one. *)
Definition wf_desc (d : pb_desc N) : Prop :=
  (∀ i f, d_fields d !! i = Some f →
     1 <= pf_id f < 16 ∧ int_range_lookup (d_ranges d) (pf_id f) = Z.of_nat i) ∧
  (∀ tag, int_range_lookup (d_ranges d) tag < Z.of_nat (length (d_fields d))).

Definition wt_val (sub : N → pb_msg → Prop) (ty : pb_type N) (v : pb_val) : Prop :=
  match ty, v with
  | PROTOBUF_C_TYPE_INT32, VNum z => -2 ^ 31 <= z < 2 ^ 31
  | PROTOBUF_C_TYPE_UINT32, VNum z => 0 <= z < 2 ^ 32
  | PROTOBUF_C_TYPE_BOOL, VNum z => z = 0 ∨ z = 1
  | PROTOBUF_C_TYPE_FIXED64, VNum z => 0 <= z < 2 ^ 64
  | PROTOBUF_C_TYPE_BYTES, VBytes _ => True
  | PROTOBUF_C_TYPE_MESSAGE n, VMsg m => sub n m
  | _, _ => False
  end.

Definition wt_field (sub : N → pb_msg → Prop) (f : pb_field N) (vs : list pb_val) : Prop :=
  (pf_label f = PROTOBUF_C_LABEL_OPTIONAL → (length vs ≤ 1)%nat) ∧
  Forall (wt_val sub (pf_type f)) vs.

Context {D : Descriptors N}.

Fixpoint wt_msg (depth : nat) (n : N) (m : pb_msg) : Prop :=
  match depth with
  | O => False
  | S depth => Forall2 (wt_field (wt_msg depth)) (d_fields (descriptor n)) m
  end.

Lemma field_values_wt sub f vs : wt_field sub f vs → field_values f vs = vs.
Proof.
  intros [Hl _]. unfold field_values. destruct (pf_label f); [|done].
  destruct vs as [|v [|]]; [done..|]. specialize (Hl eq_refl). simpl in Hl. lia.
Qed.

(** ** The announced size *)

Lemma tag_pack_small id : 1 <= id < 16 → tag_pack id = [8 * id] ∧ get_tag_size id = 1.
Proof.
  intros H. unfold tag_pack, get_tag_size. rewrite !(proj2 (Z.ltb_lt _ _)) by lia.
  split; [|done]. rewrite Z.shiftl_mul_pow2 by done. unfold uint32_pack.
  rewrite uint32_pack_loop_small by lia. f_equal. lia.
Qed.

Lemma set_wire_type_small id wt :
  1 <= id < 16 → 0 <= wt < 8 → set_wire_type wt (tag_pack id) = [8 * id + wt].
Proof.
  intros Hi Hw. rewrite (proj1 (tag_pack_small id Hi)). cbn [set_wire_type]. f_equal.
  replace (8 * id) with (Z.shiftl id 3) by (rewrite Z.shiftl_mul_pow2; lia).
  rewrite Z.lor_comm, lor_shiftl_add by lia. rewrite Z.shiftl_mul_pow2 by done. lia.
Qed.

Lemma value_size_pack (subZ : pb_msg → N → Z) subB sub ty v :
  (∀ n m, sub n m → subZ m n = zlen (subB m n)) →
  wt_val sub ty v → zlen (value_pack subB ty v) = value_size subZ ty v.
Proof.
  intros Hsub Hwt. destruct ty, v; try done; simpl in *.
  - by apply int32_pack_length.
  - by apply uint32_size_pack.
  - apply binary_data_pack_length.
  - rewrite binary_data_pack_length, Hsub by done. done.
Qed.

Lemma wire_type_of_range (ty : pb_type N) : 0 <= wire_type_of ty < 8.
Proof. by destruct ty. Qed.

Lemma packed_size depth n m :
  (∀ n, wf_desc (descriptor n)) → wt_msg depth n m →
  protobuf_c_message_get_packed_size depth m n = zlen (protobuf_c_message_pack depth m n).
Proof.
  intros Hd. revert n m. induction depth as [|depth IH]; intros n m Hwt; [done|].
  cbn [protobuf_c_message_get_packed_size protobuf_c_message_pack wt_msg] in *.
  assert (∀ f, f ∈ d_fields (descriptor n) → 1 <= pf_id f < 16) as Hid.
  { intros f [i Hi]%list_elem_of_lookup. by destruct (proj1 (Hd n) i f Hi). }
  induction Hwt as [|f vs fs m Hf _ IHf]; [done|]. cbn [zip_with foldr concat].
  rewrite zlen_app, IHf by (intros; apply Hid; by right). f_equal.
  rewrite (field_values_wt _ _ _ Hf). destruct Hf as [_ Hvs].
  pose proof (Hid f ltac:(left)) as Hf.
  induction Hvs as [|v vs Hv _ IHv]; [done|]. cbn [fmap list_fmap foldr concat].
  rewrite zlen_app, <-IHv. f_equal. unfold required_field_get_packed_size, required_field_pack.
  rewrite zlen_app, set_wire_type_small by (done || apply wire_type_of_range).
  rewrite (proj2 (tag_pack_small _ Hf)). f_equal. symmetry. by eapply value_size_pack.
Qed.
(** ** A simple bound on the packed size

    [pb_weight] charges every scalar 15 bytes and every byte string or
    embedded message 10 bytes beyond its contents. *)
Definition val_weight (sub : pb_msg → Z) (v : pb_val) : Z :=
  match v with VNum _ => 15 | VBytes b => 10 + zlen b | VMsg m => 10 + sub m end.
Definition vals_weight (sub : pb_msg → Z) (vs : list pb_val) : Z :=
  foldr Z.add 0 (val_weight sub <$> vs).
Fixpoint pb_weight (depth : nat) (m : pb_msg) : Z :=
  match depth with
  | O => 0
  | S depth => foldr Z.add 0 (vals_weight (pb_weight depth) <$> m)
  end.

Lemma uint32_size_le z : 1 <= uint32_size z <= 5.
Proof. unfold uint32_size. repeat destruct (_ <? _); lia. Qed.

Lemma get_tag_size_le z : 1 <= get_tag_size z <= 5.
Proof. unfold get_tag_size. repeat destruct (_ <? _); lia. Qed.

Lemma sum_nonneg (l : list Z) : Forall (Z.le 0) l → 0 <= foldr Z.add 0 l.
Proof. induction 1; simpl; lia. Qed.

Lemma val_weight_nonneg sub v : (∀ m, 0 <= sub m) → 0 <= val_weight sub v.
Proof.
  intros Hs. destruct v as [z|b|m]; simpl; [lia|pose proof (zlen_nonneg b); lia|].
  pose proof (Hs m). lia.
Qed.

Lemma vals_weight_nonneg sub vs : (∀ m, 0 <= sub m) → 0 <= vals_weight sub vs.
Proof.
  intros Hs. apply sum_nonneg, Forall_fmap, Forall_forall. intros v _.
  by apply val_weight_nonneg.
Qed.

Lemma pb_weight_nonneg depth m : 0 <= pb_weight depth m.
Proof.
  revert m. induction depth as [|depth IH]; intros m; cbn [pb_weight]; [done|].
  apply sum_nonneg, Forall_fmap, Forall_forall. intros vs _. by apply vals_weight_nonneg.
Qed.

Lemma value_size_weight (subZ : pb_msg → N → Z) sub f v :
  (∀ m n, subZ m n <= sub m) → (∀ m, 0 <= sub m) →
  required_field_get_packed_size subZ f v <= val_weight sub v.
Proof.
  intros Hs H0. unfold required_field_get_packed_size.
  pose proof (get_tag_size_le (pf_id f)).
  destruct (pf_type f) as [| | | | |n]; destruct v as [z|b|m]; cbn [value_size val_weight];
    try (pose proof (zlen_nonneg b)); try (pose proof (H0 m)); try lia.
  - unfold int32_size. pose proof (uint32_size_le z). destruct (z <? 0); lia.
  - pose proof (uint32_size_le z). lia.
  - pose proof (uint32_size_le (u32 (zlen b))). lia.
  - pose proof (uint32_size_le (u32 (subZ m n))). pose proof (Hs m n). lia.
Qed.

Lemma field_size_weight (subZ : pb_msg → N → Z) sub f vs :
  (∀ m n, subZ m n <= sub m) → (∀ m, 0 <= sub m) →
  foldr Z.add 0 (required_field_get_packed_size subZ f <$> field_values f vs)
  <= vals_weight sub vs.
Proof.
  intros Hs H0. unfold vals_weight.
  assert (∀ vs, foldr Z.add 0 (required_field_get_packed_size subZ f <$> vs)
    <= foldr Z.add 0 (val_weight sub <$> vs)) as Hle.
  { induction vs0 as [|v vs0 IH]; [done|]. cbn [fmap list_fmap foldr].
    apply Z.add_le_mono; [by apply value_size_weight|done]. }
  unfold field_values. destruct (pf_label f); [|apply Hle].
  destruct vs as [|v vs]; [done|]. cbn [fmap list_fmap foldr].
  apply Z.add_le_mono; [by apply value_size_weight|]. by apply vals_weight_nonneg.
Qed.

Lemma packed_size_weight depth n m :
  protobuf_c_message_get_packed_size depth m n <= pb_weight depth m.
Proof.
  revert m n. induction depth as [|depth IH]; intros m n; [done|].
  cbn [protobuf_c_message_get_packed_size pb_weight].
  generalize (d_fields (descriptor n)) as fs. induction m as [|vs m IHm]; intros [|f fs];
    cbn [zip_with foldr fmap list_fmap]; try lia.
  - pose proof (pb_weight_nonneg (S depth) (vs :: m)) as H. exact H.
  - specialize (IHm fs).
    pose proof (field_size_weight (protobuf_c_message_get_packed_size depth) (pb_weight depth)
      f vs IH (pb_weight_nonneg depth)). by apply Z.add_le_mono.
Qed.
End Wf.

(** ** Reading back what was written *)

Section Roundtrip.
Context {U N : Type} {D : Descriptors N}.
Implicit Types (f : pb_field N) (ty : pb_type N) (sub : pb_msg → N → bytes).

(** The length of the prefix the payload starts with. *)
Definition prefix_len sub ty (v : pb_val) : nat :=
  match ty, v with
  | PROTOBUF_C_TYPE_BYTES, VBytes b => length (uint32_pack (u32 (zlen b)))
  | PROTOBUF_C_TYPE_MESSAGE n', VMsg m' => length (uint32_pack (u32 (zlen (sub m' n'))))
  | _, _ => O
  end.

Lemma scan_varint_small (w : world U) v rem rest :
  0 <= v < 2 ^ 32 → zlen (uint32_pack v) <= rem →
  scan_data PROTOBUF_C_WIRE_TYPE_VARINT rem (uint32_pack v ++ rest) w
  = (Ok (Some (zlen (uint32_pack v), O)), w).
Proof.
  intros Hv Hr. unfold scan_data. cbn [Z.eqb PROTOBUF_C_WIRE_TYPE_VARINT].
  pose proof (uint32_pack_loop_length 4 v) as Hl. fold (uint32_pack v) in Hl.
  unfold zlen in Hr |- *.
  pose proof (scan_varint_pack w 4 (Z.to_nat (if rem <? 10 then rem else 10)) v [] rest) as Hs.
  fold (uint32_pack v) in Hs. cbn [app length] in Hs.
  rewrite (bind_ok _ _ _ _ _ (Hs ltac:(change (128 ^ Z.of_nat 5) with (2 ^ 35); lia)
    ltac:(destruct (Z.ltb_spec rem 10); lia))).
  unfold ret. do 4 f_equal. lia.
Qed.

Lemma scan_prefixed (w : world U) b rem rest :
  zlen b < 2 ^ 31 → zlen (binary_data_pack b) <= rem →
  scan_data PROTOBUF_C_WIRE_TYPE_LENGTH_PREFIXED rem (binary_data_pack b ++ rest) w
  = (Ok (Some (zlen (binary_data_pack b), length (uint32_pack (u32 (zlen b))))), w).
Proof.
  intros Hb Hr. unfold scan_data, binary_data_pack in *.
  cbn [Z.eqb Pos.eqb PROTOBUF_C_WIRE_TYPE_LENGTH_PREFIXED PROTOBUF_C_WIRE_TYPE_VARINT
    PROTOBUF_C_WIRE_TYPE_64BIT].
  pose proof (zlen_nonneg b). rewrite u32_small in * by (unfold is_u32; lia).
  set (p := uint32_pack (zlen b)) in *.
  pose proof (uint32_pack_loop_length 4 (zlen b)) as Hl. fold (uint32_pack (zlen b)) in Hl.
  fold p in Hl. rewrite zlen_app in *. assert (zlen p = Z.of_nat (length p)) as Hp by done.
  assert (scan_length_prefixed_data rem ((p ++ b) ++ rest) w
    = (Ok (zlen p + zlen b, length p), w)) as Hs.
  { unfold scan_length_prefixed_data. rewrite <-app_assoc.
    pose proof (length_prefix_pack w 4 (Z.to_nat (if rem <? 5 then rem else 5)) (zlen b) []
      (b ++ rest) 0 0) as Hs.
    fold (uint32_pack (zlen b)) in Hs. fold p in Hs. cbn [app length] in Hs.
    rewrite Z.mul_1_r, Z.add_0_l, Nat.add_0_l in Hs.
    rewrite (bind_ok _ _ _ _ _ (Hs ltac:(change (128 ^ Z.of_nat 5) with (2 ^ 35); lia)
      ltac:(destruct (Z.ltb_spec rem 5); lia) ltac:(lia) ltac:(lia) ltac:(lia))).
    rewrite u32_small by (unfold is_u32; lia).
    rewrite (proj2 (Z.ltb_ge _ _)) by lia. by rewrite Hp. }
  erewrite bind_ok by exact Hs. cbn [fst]. rewrite (proj2 (Z.eqb_neq _ _)) by lia. done.
Qed.

Lemma scan_value (w : world U) sub P ty v rem rest :
  wt_val P ty v → zlen (value_pack sub ty v) < 2 ^ 31 → zlen (value_pack sub ty v) <= rem →
  scan_data (wire_type_of ty) rem (value_pack sub ty v ++ rest) w
  = (Ok (Some (zlen (value_pack sub ty v), prefix_len sub ty v)), w).
Proof.
  intros Hwt Hb Hr. destruct ty, v; try done; cbn [wt_val value_pack wire_type_of prefix_len] in *.
  - unfold int32_pack in *. destruct (Z.ltb_spec z 0) as [Hn|Hn]; [|apply scan_varint_small; lia].
    unfold scan_data. cbn [Z.eqb PROTOBUF_C_WIRE_TYPE_VARINT].
    change (zlen _) with 10 in Hr. destruct (Z.ltb_spec rem 10); [lia|].
    change (Z.to_nat 10) with 10%nat. cbn [scan_varint_loop app].
    unfold bind, byte_at. cbn [lookup list_lookup]. unfold ret. rewrite !cont_byte_bit. done.
  - by apply scan_varint_small.
  - destruct Hwt as [-> | ->]; [by apply (scan_varint_small w 0)|by apply (scan_varint_small w 1)].
  - unfold scan_data. cbn. change (zlen (fixed64_pack z)) with 8 in *.
    by rewrite (proj2 (Z.ltb_ge _ _)) by done.
  - apply scan_prefixed; [|done]. rewrite binary_data_pack_length in Hb. unfold uint32_size in Hb.
    repeat case_match; lia.
  - apply scan_prefixed; [|done]. rewrite binary_data_pack_length in Hb. unfold uint32_size in Hb.
    repeat case_match; lia.
Qed.

Lemma parse_tag_small (w : world U) id wt rem rest :
  1 <= id < 16 → 0 <= wt < 8 →
  parse_tag_and_wiretype rem ((8 * id + wt) :: rest) w = (Ok (Some (id, wt, 1%nat)), w).
Proof.
  intros Hi Hw. unfold parse_tag_and_wiretype.
  rewrite (bind_ok _ _ _ _ _ (byte_at_mid w [] (8 * id + wt) rest)).
  destruct (small_byte (8 * id + wt) ltac:(lia)) as (_ & Hl & Ht). rewrite Ht. cbn [negb].
  unfold ret. do 5 f_equal.
  - rewrite Hl, Z.shiftr_div_pow2 by done. change (2 ^ 3) with 8.
    rewrite Z.mul_comm, Z.div_add_l by done. rewrite Z.div_small; lia.
  - rewrite (Z.land_ones _ 3) by done. change (2 ^ 3) with 8.
    rewrite Z.add_comm, Z.mul_comm, Z.mod_add by done. by apply Z.mod_small.
Qed.

Lemma lookup_field_wf d last i f :
  wf_desc d → d_fields d !! i = Some f → lookup_field d last (pf_id f) = Some i.
Proof.
  intros [Hd _] Hi. destruct (Hd i f Hi) as [Hr Hl]. unfold lookup_field.
  assert (s32 (pf_id f) = pf_id f) as Hs.
  { unfold s32. rewrite Z.mod_small; lia. }
  rewrite Hs, Hl. rewrite (proj2 (Z.ltb_ge _ _)), Nat2Z.id by lia.
  destruct (d_fields d !! last) as [g|] eqn:Hg; [|done].
  destruct (Z.eqb_spec (pf_id g) (pf_id f)) as [E|]; [|done]. f_equal.
  destruct (Hd last g Hg) as [_ Hl']. rewrite E, Hl in Hl'. lia.
Qed.

(** A value with the index and descriptor of its field. *)
Abbreviation entry := (nat * pb_field N * pb_val)%type.

Definition entry_pack sub (e : entry) : bytes := required_field_pack sub e.1.2 e.2.
Definition entries_pack sub (es : list entry) : bytes := concat (entry_pack sub <$> es).

Definition entry_member sub (e : entry) (tail : bytes) : ScannedMember :=
  let '(i, f, v) := e in
  {| sm_field := Some i; sm_wire_type := wire_type_of (pf_type f);
     sm_length_prefix_len := prefix_len sub (pf_type f) v;
     sm_len := zlen (value_pack sub (pf_type f) v);
     sm_data := value_pack sub (pf_type f) v ++ tail |}.

Fixpoint members_of sub (es : list entry) (rest : bytes) : list ScannedMember :=
  match es with
  | [] => []
  | e :: es => entry_member sub e (entries_pack sub es ++ rest) :: members_of sub es rest
  end.

Definition wf_entry P (d : pb_desc N) (e : entry) : Prop :=
  d_fields d !! e.1.1 = Some e.1.2 ∧ wt_val P (pf_type e.1.2) e.2.

(** How many members the slabs up to this position hold. *)
Definition slab_count (which_slab in_slab_index : Z) : Z :=
  16 * (2 ^ which_slab - 1) + in_slab_index.

Lemma entries_pack_cons sub i f v es :
  1 <= pf_id f < 16 →
  entries_pack sub ((i, f, v) :: es) =
  (8 * pf_id f + wire_type_of (pf_type f)) ::
    (value_pack sub (pf_type f) v ++ entries_pack sub es).
Proof.
  intros Hid. unfold entries_pack, entry_pack. cbn. unfold required_field_pack.
  by rewrite set_wire_type_small by (done || apply wire_type_of_range).
Qed.

Lemma scan_entries (u : U) sub P d es : wf_desc d → ∀ fuel last which ins rest,
  Forall (wf_entry P d) es → zlen (entries_pack sub es) < 2 ^ 31 → (length es < fuel)%nat →
  0 <= which <= MAX_SCANNED_MEMBER_SLAB → 0 <= ins <= 2 ^ (which + 4) →
  slab_count which ins + Z.of_nat (length es) <= 2 ^ 27 - 16 →
  scan_members fuel d last which ins (zlen (entries_pack sub es)) (entries_pack sub es ++ rest)
    (calm u) = (Ok (Some (members_of sub es rest)), calm u).
Proof.
  intros Hd. induction es as [|[[i f] v] es IH]; intros fuel last which ins rest Hes Hsz Hfuel Hw Hin Hc;
    (destruct fuel as [|fuel]; [simpl in Hfuel; lia|]); cbn [scan_members]; [done|].
  apply Forall_cons in Hes as [[Hi Hv] Hes]. cbn [fst snd] in Hi, Hv.
  destruct (proj1 Hd i f Hi) as [Hid _].
  rewrite (entries_pack_cons sub i f v es Hid) in *.
  set (p := value_pack sub (pf_type f) v) in *. set (tail := entries_pack sub es) in *.
  rewrite zlen_cons, zlen_app in *. pose proof (zlen_nonneg p). pose proof (zlen_nonneg tail).
  rewrite (proj2 (Z.leb_gt _ _)) by lia. rewrite <-app_comm_cons, <-app_assoc.
  step (parse_tag_small (calm u) _ _ _ _ Hid (wire_type_of_range (pf_type f))).
  rewrite (lookup_field_wf d last i f Hd Hi). cbn [default drop].
  replace (1 + (zlen p + zlen tail) - Z.of_nat 1) with (zlen p + zlen tail) by lia.
  step (scan_value (calm u) sub P (pf_type f) v (zlen p + zlen tail)
    (tail ++ rest) Hv ltac:(fold p; lia) ltac:(fold p; lia)).
  fold p. unfold slab_count in *. simpl length in Hc, Hfuel. unfold MAX_SCANNED_MEMBER_SLAB in *.
  replace (zlen p + zlen tail - zlen p) with (zlen tail) by lia.
  assert (drop (Z.to_nat (zlen p)) (p ++ tail ++ rest) = tail ++ rest) as Hdrop
    by (unfold zlen; by rewrite Nat2Z.id, drop_app_length).
  rewrite drop_0, Hdrop. rewrite Z.pow_add_r in * by lia. change (2 ^ 4) with 16 in *.
  destruct (Z.eqb_spec ins (2 ^ which * 16)) as [Hfull|Hnot].
  - destruct (Z.eqb_spec which (4 * 8 - 1 - 5 - 4)) as [->|Hne].
    { change (2 ^ (4 * 8 - 1 - 5 - 4)) with (2 ^ 22) in *. lia. }
    cbn [andb]. step_to true (calm u) by done. cbn [negb].
    erewrite bind_ok; [|apply IH; [done|lia|lia|lia| |]]; [done|..];
      rewrite ?(Z.add_comm which 1), ?Z.pow_add_r, ?Z.pow_1_r by lia; nia.
  - cbn [andb]. step_to true (calm u) by done. cbn [negb].
    erewrite bind_ok; [|apply IH; [done|lia|lia|lia| |]]; [done|..];
      rewrite ?Z.pow_add_r by lia; change (2 ^ 4) with 16; lia.
Qed.

Lemma copy_bytes_app (w : world U) b rest :
  copy_bytes (b ++ rest) (zlen b) w = (Ok b, w).
Proof.
  unfold copy_bytes. rewrite (proj2 (Z.ltb_ge _ _)) by (rewrite zlen_app; pose proof (zlen_nonneg rest); lia).
  unfold ret, zlen. by rewrite Nat2Z.id, take_app_length.
Qed.

(** [unp] reads back what [sub] writes, for messages below [2 ^ 31] bytes. *)
Definition reads_back sub (P : N → pb_msg → Prop) (u : U)
    (unp : N → Z → bytes → M (world U) (option pb_msg)) : Prop :=
  ∀ n m rest, P n m → zlen (sub m n) < 2 ^ 26 →
    unp n (zlen (sub m n)) (sub m n ++ rest) (calm u) = (Ok (Some m), calm u).

Lemma parse_entry (u : U) sub P unp mrg i f v tail :
  reads_back sub P u unp → wt_val P (pf_type f) v → zlen (value_pack sub (pf_type f) v) < 2 ^ 26 →
  parse_required_member unp mrg f (entry_member sub (i, f, v) tail) [] (calm u)
  = (Ok (Some v), calm u).
Proof.
  intros Hu Hv Hsz. unfold parse_required_member, entry_member.
  cbn [sm_len sm_data sm_wire_type sm_length_prefix_len].
  set (p := value_pack sub (pf_type f) v) in *. pose proof (zlen_nonneg p).
  rewrite (u32_small (zlen p)) by (unfold is_u32; lia). rewrite Z.eqb_refl. cbn [negb].
  destruct (pf_type f) as [| | | | |n'] eqn:Ety, v as [z|b|m']; try done;
    cbn [value_pack wt_val prefix_len] in *; subst p.
  - destruct (parse_int32_pack (calm u) z tail Hv) as (z' & Hz & Hs). step Hz. by rewrite Hs.
  - by step (parse_uint32_pack (calm u) z tail Hv).
  - destruct Hv as [-> | ->]; [by destruct tail|done].
  - by step (parse_fixed64_pack (calm u) z tail Hv).
  - unfold binary_data_pack in *. rewrite zlen_app in *. pose proof (zlen_nonneg b).
    pose proof (zlen_nonneg (uint32_pack (u32 (zlen b)))).
    replace (_ + zlen b - Z.of_nat _) with (zlen b) by (unfold zlen; lia).
    rewrite !(u32_small (zlen b)) by (unfold is_u32; lia).
    rewrite <-app_assoc, drop_app_length.
    destruct (Z.ltb_spec 0 (zlen b)).
    + step_to true (calm u) by done. cbn [negb]. by step (copy_bytes_app (calm u) b tail).
    + destruct b; [done|]. rewrite zlen_cons in *. pose proof (zlen_nonneg b). lia.
  - unfold binary_data_pack in *. rewrite zlen_app in *. pose proof (zlen_nonneg (sub m' n')).
    pose proof (zlen_nonneg (uint32_pack (u32 (zlen (sub m' n'))))).
    replace (_ + zlen (sub m' n') - Z.of_nat _) with (zlen (sub m' n')) by (unfold zlen; lia).
    rewrite !(u32_small (zlen (sub m' n'))) by (unfold is_u32; lia).
    rewrite <-app_assoc, drop_app_length.
    by step (Hu n' m' tail Hv ltac:(lia)).
Qed.

Lemma alloc_repeated_calm (u : U) i (fs : list (pb_field N)) ms :
  alloc_repeated i fs ms (calm u) = (Ok true, calm u).
Proof.
  revert i. induction fs as [|f fs IH]; intros i; simpl.
  - by destruct (existsb _ ms).
  - destruct (pf_label f); [apply IH|]. destruct (existsb _ ms); [|apply IH].
    step_to true (calm u) by done. apply IH.
Qed.

Fixpoint entries_from (i : nat) (fs : list (pb_field N)) (m : pb_msg) : list entry :=
  match fs, m with
  | f :: fs, vs :: m => ((λ v, (i, f, v)) <$> vs) ++ entries_from (S i) fs m
  | _, _ => []
  end.

Lemma entries_pack_app sub es1 es2 :
  entries_pack sub (es1 ++ es2) = entries_pack sub es1 ++ entries_pack sub es2.
Proof. unfold entries_pack. by rewrite fmap_app, concat_app. Qed.

Lemma pack_entries depth n m P :
  Forall2 (wt_field P) (d_fields (descriptor n)) m →
  protobuf_c_message_pack (S depth) m n
  = entries_pack (protobuf_c_message_pack depth) (entries_from 0 (d_fields (descriptor n)) m).
Proof.
  cbn [protobuf_c_message_pack]. generalize 0%nat. intros i H. revert i.
  induction H as [|f vs fs m Hf _ IH]; intros i; [done|].
  cbn [zip_with concat entries_from]. rewrite entries_pack_app, <-IH. f_equal.
  rewrite (field_values_wt _ _ _ Hf). unfold entries_pack. rewrite <-list_fmap_compose. done.
Qed.

Lemma entries_wf P d i fs m :
  Forall2 (wt_field P) fs m → (∀ j f, fs !! j = Some f → d_fields d !! (i + j)%nat = Some f) →
  Forall (wf_entry P d) (entries_from i fs m).
Proof.
  intros H. revert i. induction H as [|f vs fs m [_ Hf] _ IH]; intros i Hi; [constructor|].
  cbn [entries_from]. apply Forall_app. split.
  - apply Forall_fmap. eapply Forall_impl; [exact Hf|]. intros v Hv. split; [|done].
    simpl. specialize (Hi 0%nat f eq_refl). by rewrite Nat.add_0_r in Hi.
  - apply IH. intros j g Hj. rewrite Nat.add_succ_comm. by apply (Hi (S j)).
Qed.

Lemma members_of_app sub es1 es2 rest :
  members_of sub (es1 ++ es2) rest
  = members_of sub es1 (entries_pack sub es2 ++ rest) ++ members_of sub es2 rest.
Proof.
  induction es1 as [|e es1 IH]; [done|]. cbn [app members_of]. rewrite IH.
  by rewrite entries_pack_app, <-app_assoc.
Qed.

Lemma parse_members_app (w w' : world U) unp mrg (d : pb_desc N) ms1 ms2 msg msg' :
  parse_members unp mrg d ms1 msg w = (Ok (Some msg'), w') →
  parse_members unp mrg d (ms1 ++ ms2) msg w = parse_members unp mrg d ms2 msg' w'.
Proof.
  revert msg w. induction ms1 as [|m ms1 IH]; intros msg w; cbn [parse_members app].
  { unfold ret. by intros [= -> ->]. }
  unfold bind. destruct (parse_member unp mrg d m msg w) as [[[msg1|]| | |] w1]; try done.
  apply IH.
Qed.

Lemma insert_middle {A} (pre post : list A) x y :
  <[length pre := y]> (pre ++ x :: post) = pre ++ y :: post.
Proof. by rewrite insert_app_r_alt, Nat.sub_diag by done. Qed.

Lemma parse_member_entry (u : U) sub P unp mrg d i f v acc pre post tail :
  reads_back sub P u unp → d_fields d !! i = Some f → i = length pre →
  wt_val P (pf_type f) v → zlen (value_pack sub (pf_type f) v) < 2 ^ 26 →
  (pf_label f = PROTOBUF_C_LABEL_OPTIONAL → acc = []) →
  parse_member unp mrg d (entry_member sub (i, f, v) tail) (pre ++ acc :: post) (calm u)
  = (Ok (Some (pre ++ (acc ++ [v]) :: post)), calm u).
Proof.
  intros Hu Hf -> Hv Hsz Hacc. unfold parse_member, entry_member at 1. cbn [sm_field].
  rewrite Hf, list_lookup_middle by done.
  destruct (pf_label f) eqn:El; [rewrite Hacc by done|];
    step (parse_entry u sub P unp mrg (length pre) f v tail Hu Hv Hsz);
    by rewrite insert_middle.
Qed.

Lemma parse_field_entries (u : U) sub P unp mrg d i f vs pre post rest :
  reads_back sub P u unp → d_fields d !! i = Some f → i = length pre → ∀ acc,
  Forall (wt_val P (pf_type f)) vs →
  (pf_label f = PROTOBUF_C_LABEL_OPTIONAL → acc = [] ∧ (length vs ≤ 1)%nat) →
  1 <= pf_id f < 16 → zlen (entries_pack sub ((λ v, (i, f, v)) <$> vs)) < 2 ^ 26 →
  parse_members unp mrg d (members_of sub ((λ v, (i, f, v)) <$> vs) rest) (pre ++ acc :: post)
    (calm u) = (Ok (Some (pre ++ (acc ++ vs) :: post)), calm u).
Proof.
  intros Hu Hf Hi. induction vs as [|v vs IH]; intros acc Hvs Hacc Hid Hsz.
  { simpl. by rewrite app_nil_r. }
  apply Forall_cons in Hvs as [Hv Hvs]. cbn [fmap list_fmap] in Hsz.
  rewrite (entries_pack_cons sub i f v _ Hid), zlen_cons, zlen_app in Hsz.
  pose proof (zlen_nonneg (value_pack sub (pf_type f) v)).
  match type of Hsz with context [zlen (entries_pack ?s ?l)] =>
    pose proof (zlen_nonneg (entries_pack s l)) end.
  cbn [fmap list_fmap members_of parse_members].
  step (parse_member_entry u sub P unp mrg d i f v acc pre post
    (entries_pack sub ((λ v, (i, f, v)) <$> vs) ++ rest) Hu Hf Hi Hv ltac:(lia)
    ltac:(intros E; by destruct (Hacc E))).
  destruct (decide (vs = [])) as [->|Hne]; [done|].
  replace (acc ++ v :: vs) with ((acc ++ [v]) ++ vs) by (by rewrite <-app_assoc).
  apply IH; [done| |done|unfold fmap in *; lia].
  intros E. destruct (Hacc E) as [_ Hl]. destruct vs; [done|]. simpl in Hl. lia.
Qed.

Lemma parse_all_entries (u : U) sub P unp mrg d rest :
  reads_back sub P u unp → wf_desc d → ∀ fs m pre,
  Forall2 (wt_field P) fs m →
  (∀ j f, fs !! j = Some f → d_fields d !! (length pre + j)%nat = Some f) →
  zlen (entries_pack sub (entries_from (length pre) fs m)) < 2 ^ 26 →
  parse_members unp mrg d (members_of sub (entries_from (length pre) fs m) rest)
    (pre ++ replicate (length fs) []) (calm u) = (Ok (Some (pre ++ m)), calm u).
Proof.
  intros Hu Hd fs m pre H. revert pre. induction H as [|f vs fs m [Hl Hvs] Hr IH]; intros pre Hi Hsz.
  { done. }
  cbn [entries_from length replicate] in *. rewrite entries_pack_app, zlen_app in Hsz.
  pose proof (zlen_nonneg (entries_pack sub ((λ v, (length pre, f, v)) <$> vs))).
  pose proof (zlen_nonneg (entries_pack sub (entries_from (S (length pre)) fs m))).
  assert (d_fields d !! length pre = Some f) as Hf.
  { specialize (Hi 0%nat f eq_refl). by rewrite Nat.add_0_r in Hi. }
  rewrite members_of_app. erewrite parse_members_app.
  2: { apply (parse_field_entries u sub P unp mrg d (length pre) f vs pre _ _ Hu Hf eq_refl []);
       [done|intros E; by split; [|apply Hl]|by destruct (proj1 Hd _ _ Hf)|lia]. }
  assert (∀ x, pre ++ vs :: x = (pre ++ [vs]) ++ x) as Ha by (intros; by rewrite <-app_assoc).
  rewrite app_nil_l, (Ha (replicate _ _)), (Ha m).
  replace (S (length pre)) with (length (pre ++ [vs])) in * by (rewrite length_app; simpl; lia).
  apply IH; [|lia]. intros j g Hj. rewrite length_app. simpl.
  replace (length pre + 1 + j)%nat with (length pre + S j)%nat by lia. by apply (Hi (S j)).
Qed.

Lemma unpack_pack (u : U) depth n m rest :
  (∀ n : N, wf_desc (descriptor n)) → wt_msg depth n m →
  zlen (protobuf_c_message_pack depth m n) < 2 ^ 26 →
  protobuf_c_message_unpack depth n (zlen (protobuf_c_message_pack depth m n))
    (protobuf_c_message_pack depth m n ++ rest) (calm u) = (Ok (Some m), calm u).
Proof.
  intros Hd. revert n m rest. induction depth as [|depth IH]; intros n m rest Hwt Hsz; [done|].
  cbn [wt_msg] in Hwt. rewrite (pack_entries depth n m _ Hwt) in *.
  cbn [protobuf_c_message_unpack]. set (d := descriptor n) in *.
  set (sub := protobuf_c_message_pack depth) in *. set (es := entries_from 0 (d_fields d) m) in *.
  assert (Forall (wf_entry (wt_msg depth) d) es) as Hes by (by apply entries_wf).
  assert (Z.of_nat (length es) <= zlen (entries_pack sub es)) as Hlen.
  { clear -Hes Hd. induction Hes as [|[[i f] v] es [Hf _] _ IHes]; [done|].
    rewrite entries_pack_cons by (by destruct (proj1 (Hd n) _ _ Hf)).
    rewrite zlen_cons, zlen_app. pose proof (zlen_nonneg (value_pack sub (pf_type f) v)).
    simpl length. lia. }
  step_to true (calm u) by done. cbn [negb].
  erewrite bind_ok.
  2: { apply (scan_entries u sub (wt_msg depth) d es (Hd n)); try done; [lia| |].
       - rewrite length_app. unfold zlen in Hlen. lia.
       - unfold slab_count. simpl. lia. }
  cbn beta iota. step (alloc_repeated_calm u 0 (d_fields d)). cbn [negb].
  apply (parse_all_entries u sub (wt_msg depth) (protobuf_c_message_unpack depth)
    (merge_messages (S depth)) d rest) with (pre := []); [|apply Hd|done..].
  intros n' m' rest' Hwt' Hsz'. by apply IH.
Qed.
End Roundtrip.

(** ** Memory safety on arbitrary input *)

Section Safe.
Context {U N : Type} {D : Descriptors N}.

Lemma safe_byte_at (data : bytes) (i : nat) :
  (i < length data)%nat → safe (S:=world U) (byte_at data i) (λ b, data !! i = Some b).
Proof.
  intros H w. unfold byte_at. by destruct (lookup_lt_is_Some_2 data i H) as [b ->].
Qed.

Lemma safe_parse_tag_loop n rv data tag shift :
  (rv + n ≤ length data)%nat →
  safe (S:=world U) (parse_tag_loop n rv data tag shift)
    (λ r, match r with Some (_, k) => (rv < k ≤ rv + n)%nat | None => True end).
Proof.
  revert rv tag shift. induction n as [|n IH]; intros rv tag shift H; [by apply safe_ret|].
  cbn [parse_tag_loop]. eapply safe_bind; [apply safe_byte_at; lia|]. intros b _.
  destruct (Z.testbit b 7); [|apply safe_ret; lia].
  eapply safe_mono; [apply IH; lia|]. intros [[t k]|]; [lia|done].
Qed.

Lemma safe_parse_tag len data :
  0 < len <= zlen data →
  safe (S:=world U) (parse_tag_and_wiretype len data)
    (λ r, match r with
          | Some (_, wt, k) => 1 <= Z.of_nat k <= len ∧ ∃ b, data !! 0%nat = Some b ∧ wt = Z.land b 7
          | None => True end).
Proof.
  intros H. unfold zlen in H. unfold parse_tag_and_wiretype.
  eapply safe_bind; [apply safe_byte_at; lia|]. intros b Hb.
  destruct (Z.testbit b 7); cbn [negb]; [|apply safe_ret; split; [lia|by exists b]].
  eapply safe_bind; [apply safe_parse_tag_loop; destruct (Z.ltb_spec 5 len); lia|].
  intros [[t k]|] Hk; apply safe_ret; [|done]. split; [|by exists b].
  destruct (Z.ltb_spec 5 len); lia.
Qed.

Lemma safe_scan_varint n i data :
  (i + n ≤ length data)%nat →
  safe (S:=world U) (scan_varint_loop n i data)
    (λ r, match r with Some j => (i ≤ j < i + n)%nat | None => True end).
Proof.
  revert i. induction n as [|n IH]; intros i H; [by apply safe_ret|].
  cbn [scan_varint_loop]. eapply safe_bind; [apply safe_byte_at; lia|]. intros b _.
  destruct (Z.testbit b 7); cbn [negb]; [|apply safe_ret; lia].
  eapply safe_mono; [apply IH; lia|]. intros [j|]; [lia|done].
Qed.

(** Up to four bytes of prefix denote less than [2 ^ 28]. *)
Lemma safe_length_prefix n i data val shift :
  (i + n ≤ length data)%nat → 0 <= shift → 0 <= val < 2 ^ shift →
  safe (S:=world U) (length_prefix_loop n i data val shift)
    (λ r, match r with
          | Some (v, k) => (i < k ≤ i + n)%nat ∧ 0 <= v < 2 ^ (shift + 7 * (Z.of_nat k - Z.of_nat i))
          | None => True end).
Proof.
  revert i val shift. induction n as [|n IH]; intros i val shift H Hs Hv; [by apply safe_ret|].
  cbn [length_prefix_loop]. eapply safe_bind; [apply safe_byte_at; lia|]. intros b _.
  rewrite land_127. pose proof (Z.mod_pos_bound b 128 ltac:(done)) as Hb.
  rewrite lor_shiftl_add by lia. set (v' := u32 _).
  assert (0 <= v' < 2 ^ (shift + 7)) as Hv'.
  { unfold v', u32. rewrite Z.pow_add_r by lia. change (2 ^ 7) with 128.
    pose proof (Z.mod_pos_bound (val + b `mod` 128 * 2 ^ shift) (2 ^ 32) ltac:(done)).
    pose proof (Z.mod_le (val + b `mod` 128 * 2 ^ shift) (2 ^ 32) ltac:(nia) ltac:(done)). nia. }
  destruct (Z.testbit b 7); cbn [negb].
  - eapply safe_mono; [apply IH; lia|]. intros [[v k]|]; [|done]. intros [Hk Hv2]. split; [lia|].
    replace (shift + 7 * (Z.of_nat k - Z.of_nat i))
      with (shift + 7 + 7 * (Z.of_nat k - Z.of_nat (S i))) by lia. done.
  - apply safe_ret. split; [lia|].
    by replace (shift + 7 * (Z.of_nat (S i) - Z.of_nat i)) with (shift + 7) by lia.
Qed.

(** A five-byte prefix: its value in digits. *)
Lemma length_prefix_5 (w w' : world U) data val :
  length_prefix_loop 5 0 data 0 0 w = (Ok (Some (val, 5%nat)), w') →
  ∃ b0 b1 b2 b3 b4 rest, data = b0 :: b1 :: b2 :: b3 :: b4 :: rest ∧
    val = b0 `mod` 128 + b1 `mod` 128 * 2 ^ 7 + b2 `mod` 128 * 2 ^ 14 + b3 `mod` 128 * 2 ^ 21
      + b4 `mod` 16 * 2 ^ 28.
Proof.
  destruct data as [|b0 data]; [done|]. cbn [length_prefix_loop]. unfold bind at 1, byte_at, ret.
  cbn [lookup list_lookup]. destruct (Z.testbit b0 7); [|done]. cbn [negb].
  destruct data as [|b1 data]; [done|]. unfold bind at 1. cbn [lookup list_lookup].
  destruct (Z.testbit b1 7); [|done]. cbn [negb].
  destruct data as [|b2 data]; [done|]. unfold bind at 1. cbn [lookup list_lookup].
  destruct (Z.testbit b2 7); [|done]. cbn [negb].
  destruct data as [|b3 data]; [done|]. unfold bind at 1. cbn [lookup list_lookup].
  destruct (Z.testbit b3 7); [|done]. cbn [negb].
  destruct data as [|b4 data]; [done|]. unfold bind at 1. cbn [lookup list_lookup].
  destruct (Z.testbit b4 7); [done|]. cbn [negb].
  intros [= <- _]. exists b0, b1, b2, b3, b4, data. split; [done|].
  assert (∀ x, 0 <= x `mod` 128 < 128) as Hb by (intros; by apply Z.mod_pos_bound).
  pose proof (Hb b0). pose proof (Hb b1). pose proof (Hb b2). pose proof (Hb b3).
  rewrite Z.lor_0_l, Z.shiftl_0_r, !land_127.
  rewrite (u32_small (b0 `mod` 128)) by (unfold is_u32; lia).
  rewrite (lor_shiftl_add (b0 `mod` 128)) by lia.
  rewrite (u32_small (b0 `mod` 128 + _)) by (unfold is_u32; lia).
  rewrite (lor_shiftl_add (b0 `mod` 128 + _)) by lia.
  rewrite (u32_small (b0 `mod` 128 + _ + _)) by (unfold is_u32; lia).
  rewrite (lor_shiftl_add (b0 `mod` 128 + _ + _)) by lia.
  rewrite (u32_small (b0 `mod` 128 + _ + _ + _)) by (unfold is_u32; lia).
  rewrite low5 by lia. do 2 f_equal.
  rewrite <-(Z.land_ones _ 7), <-!(Z.land_ones _ 4), <-Z.land_assoc by done. done.
Qed.

Lemma land_7 x y : x `mod` 8 = 7 → y = x → Z.land y 7 = 7.
Proof. intros H ->. by rewrite (Z.land_ones _ 3). Qed.

Lemma mod_mod8 x m : (8 | m) → 0 < m → (x `mod` m) `mod` 8 = x `mod` 8.
Proof. intros Hd Hm. by apply Z.mod_mod_divide. Qed.

(** Either the prefix lies inside the announced length, or the [uint32_t] sum
    of [scan_length_prefixed_data] has wrapped around; then the byte the next
    tag would start with has the invalid wire type 7. *)
Lemma safe_scan_length rem data :
  0 <= rem <= zlen data →
  safe (S:=world U) (scan_length_prefixed_data rem data)
    (λ r, r.1 = 0 ∨ (0 < r.1 <= rem ∧ r.1 < 2 ^ 32 ∧
      (Z.of_nat r.2 <= r.1 ∨
       r.1 < rem ∧ ∃ b, data !! Z.to_nat r.1 = Some b ∧ Z.land b 7 = 7))).
Proof.
  intros Hr w. unfold scan_length_prefixed_data, bind.
  set (n := Z.to_nat (if rem <? 5 then rem else 5)).
  pose proof (safe_length_prefix n 0 data 0 0 ltac:(unfold n, zlen in *; destruct (Z.ltb_spec rem 5); lia)
    ltac:(lia) ltac:(lia) w) as Hs.
  destruct (length_prefix_loop n 0 data 0 0 w) as [[[[val hdr]|]| | |] w'] eqn:E; try done;
    [|by left]. cbn [fst] in Hs. destruct Hs as [Hk Hv].
  replace (0 + 7 * (Z.of_nat hdr - Z.of_nat 0)) with (7 * Z.of_nat hdr) in Hv by lia.
  pose proof (u32_range (Z.of_nat hdr + val)) as Hrange. unfold is_u32 in Hrange.
  destruct (Z.ltb_spec rem (u32 (Z.of_nat hdr + val))) as [|Hle]; [by left|]. unfold ret. cbn [fst snd].
  destruct (decide (u32 (Z.of_nat hdr + val) = 0)) as [|Hne]; [by left|]. right.
  split; [lia|]. split; [lia|].
  destruct (decide (Z.of_nat hdr + val < 2 ^ 32)) as [Hsm|Hbig].
  { left. rewrite u32_small by (unfold is_u32; lia). lia. }
  assert (n ≤ 5)%nat as Hn by (unfold n; destruct (Z.ltb_spec rem 5); lia).
  assert (hdr = 5%nat) as ->.
  { destruct (decide (hdr = 5%nat)); [done|]. exfalso.
    assert (2 ^ (7 * Z.of_nat hdr) <= 2 ^ 28) by (apply Z.pow_le_mono_r; lia). lia. }
  assert (n = 5%nat) as En by lia. rewrite En in E.
  destruct (length_prefix_5 w w' data val E) as (b0 & b1 & b2 & b3 & b4 & rest & -> & Hval).
  assert (∀ x, 0 <= x `mod` 128 < 128) as Hb by (intros; by apply Z.mod_pos_bound).
  pose proof (Hb b0). pose proof (Hb b1). pose proof (Hb b2). pose proof (Hb b3).
  pose proof (Z.mod_pos_bound b4 16 ltac:(done)).
  assert (b1 `mod` 128 = 127 ∧ b2 `mod` 128 = 127 ∧ b3 `mod` 128 = 127 ∧ b4 `mod` 16 = 15)
    as (E1 & E2 & E3 & E4) by lia.
  assert (u32 (Z.of_nat 5 + val) = 5 + val - 2 ^ 32) as Hu.
  { unfold u32. symmetry. apply (Z.mod_unique_pos _ _ 1); lia. }
  assert (rem >= 5) by (unfold n in En; destruct (Z.ltb_spec rem 5); lia).
  rewrite Hu in *. right. split; [lia|].
  assert (5 + val - 2 ^ 32 = 1 ∨ 5 + val - 2 ^ 32 = 2 ∨ 5 + val - 2 ^ 32 = 3 ∨ 5 + val - 2 ^ 32 = 4)
    as [-> | [-> | [-> | ->]]] by lia; eexists; (split; [reflexivity|]); eapply land_7; try reflexivity.
  - by rewrite <-(mod_mod8 b1 128), E1 by (done || by exists 16).
  - by rewrite <-(mod_mod8 b2 128), E2 by (done || by exists 16).
  - by rewrite <-(mod_mod8 b3 128), E3 by (done || by exists 16).
  - by rewrite <-(mod_mod8 b4 16), E4 by (done || by exists 2).
Qed.

Definition scanned_ok (wire_type rem : Z) (data : bytes) (r : Z * nat) : Prop :=
  0 < r.1 <= rem ∧ r.1 < 2 ^ 32 ∧ (wire_type = PROTOBUF_C_WIRE_TYPE_64BIT → r.1 = 8) ∧
  (Z.of_nat r.2 <= r.1 ∨ r.1 < rem ∧ ∃ b, data !! Z.to_nat r.1 = Some b ∧ Z.land b 7 = 7).

Lemma safe_scan_data wire_type rem data :
  0 <= rem <= zlen data →
  safe (S:=world U) (scan_data wire_type rem data)
    (λ r, match r with
          | Some r => scanned_ok wire_type rem data r ∧ wire_type ≠ 7
          | None => True end).
Proof.
  intros Hr. unfold scan_data, scanned_ok.
  destruct (Z.eqb_spec wire_type PROTOBUF_C_WIRE_TYPE_VARINT) as [->|].
  { eapply safe_bind; [apply safe_scan_varint; unfold zlen in *; destruct (Z.ltb_spec rem 10); lia|].
    intros [j|] Hj; apply safe_ret; [|done]. cbn [fst snd].
    split; [|done]. split_and!; try done; destruct (Z.ltb_spec rem 10); lia. }
  destruct (Z.eqb_spec wire_type PROTOBUF_C_WIRE_TYPE_64BIT) as [->|].
  { apply safe_ret. destruct (Z.ltb_spec rem 8); [done|]. cbn [fst snd]. split; [lia|done]. }
  destruct (Z.eqb_spec wire_type PROTOBUF_C_WIRE_TYPE_LENGTH_PREFIXED) as [->|].
  { eapply safe_bind; [by apply safe_scan_length|]. intros r Hs. apply safe_ret.
    destruct (Z.eqb_spec r.1 0); [done|]. split; [naive_solver|done]. }
  destruct (Z.eqb_spec wire_type PROTOBUF_C_WIRE_TYPE_32BIT) as [->|].
  { apply safe_ret. destruct (Z.ltb_spec rem 4); [done|]. cbn [fst snd]. split; [lia|done]. }
  by apply safe_ret.
Qed.

(** A tag byte with wire type 7 ends the scan with an error. *)
Lemma scan_members_bad_tag fuel (d : pb_desc N) last which ins rem data b :
  0 < rem <= zlen data → data !! 0%nat = Some b → Z.land b 7 = 7 → (0 < fuel)%nat →
  safe (S:=world U) (scan_members fuel d last which ins rem data) (λ r, r = None).
Proof.
  intros Hr Hb H7 Hf. destruct fuel as [|fuel]; [lia|]. cbn [scan_members].
  rewrite (proj2 (Z.leb_gt _ _)) by lia.
  eapply safe_bind; [by apply safe_parse_tag|]. intros [[[tag wt] used]|] Hs; [|by apply safe_ret].
  destruct Hs as [_ (b' & Hb' & ->)]. rewrite Hb in Hb'. injection Hb' as <-. rewrite H7.
  eapply safe_bind; [by apply (safe_ret None (λ r, r = None))|]. intros ? ->. by apply safe_ret.
Qed.

(** What the scan guarantees of each member it returns. *)
Definition member_ok (d : pb_desc N) (m : ScannedMember) : Prop :=
  0 < sm_len m <= zlen (sm_data m) ∧ sm_len m < 2 ^ 32 ∧
  Z.of_nat (sm_length_prefix_len m) <= sm_len m ∧
  (sm_wire_type m = PROTOBUF_C_WIRE_TYPE_64BIT → sm_len m = 8) ∧
  match sm_field m with Some i => (i < length (d_fields d))%nat | None => True end.

Lemma lookup_field_lt (d : pb_desc N) last tag i :
  wf_desc d → lookup_field d last tag = Some i → (i < length (d_fields d))%nat.
Proof.
  intros [_ Hd]. unfold lookup_field. specialize (Hd (s32 tag)).
  destruct (d_fields d !! last) as [g|] eqn:Hg.
  - destruct (pf_id g =? tag); [intros [= <-]; by eapply lookup_lt_Some|].
    destruct (Z.ltb_spec (int_range_lookup (d_ranges d) (s32 tag)) 0); [done|]. intros [= <-]. lia.
  - destruct (Z.ltb_spec (int_range_lookup (d_ranges d) (s32 tag)) 0); [done|]. intros [= <-]. lia.
Qed.

Lemma zlen_drop {A} k (l : list A) : (k ≤ length l)%nat → zlen (drop k l) = zlen l - Z.of_nat k.
Proof. intros H. unfold zlen. rewrite length_drop. lia. Qed.

Lemma safe_scan_members fuel (d : pb_desc N) last which ins rem data :
  wf_desc d → 0 <= rem <= zlen data → (length data < fuel)%nat →
  safe (S:=world U) (scan_members fuel d last which ins rem data)
    (λ r, match r with Some ms => Forall (member_ok d) ms | None => True end).
Proof.
  intros Hd. revert last which ins rem data. induction fuel as [|fuel IH];
    intros last which ins rem data Hr Hf; [lia|]. cbn [scan_members].
  destruct (Z.leb_spec rem 0); [apply safe_ret; constructor|].
  eapply safe_bind; [apply safe_parse_tag; lia|].
  intros [[[tag wt] used]|] Hs; [|by apply safe_ret]. destruct Hs as [Hu _].
  unfold zlen in Hr. set (data' := drop used data).
  assert (zlen data' = zlen data - Z.of_nat used) as Hl by (apply zlen_drop; lia).
  eapply safe_bind; [apply (safe_scan_data wt (rem - Z.of_nat used) data'); unfold zlen in *; lia|].
  intros [[len pref]|] Hsc; [|by apply safe_ret]. destruct Hsc as [(Hlen & Hlt & H64 & Hw) _].
  cbn [fst snd] in *. destruct (_ && _); [by apply safe_ret|].
  eapply (safe_bind _ _ (λ _, True)); [destruct (_ =? _); [by apply safe_malloc|by apply safe_ret]|].
  intros [] _; cbn [negb]; [|by apply safe_ret].
  assert (zlen (drop (Z.to_nat len) data') = zlen data' - len) as Hl'.
  { rewrite zlen_drop by (unfold zlen in *; lia). lia. }
  assert (length (drop (Z.to_nat len) data') < fuel)%nat as Hfuel.
  { rewrite length_drop. unfold data'. rewrite length_drop. lia. }
  destruct Hw as [Hp|(Hlr & b & Hb & H7)].
  - eapply safe_bind; [apply IH; [unfold zlen in *; lia|done]|].
    intros [ms|] Hms; apply safe_ret; [|done]. constructor; [|done].
    unfold member_ok. cbn [sm_len sm_data sm_length_prefix_len sm_field].
    split_and!; [lia|unfold zlen in *; lia|lia|lia|done|].
    destruct (lookup_field d last tag) as [i|] eqn:Hi; [|done]. by eapply lookup_field_lt.
  - eapply safe_bind; [eapply scan_members_bad_tag; [|rewrite lookup_drop, Nat.add_0_r; exact Hb|done|]|].
    + unfold zlen in *; lia.
    + lia.
    + intros ? ->. by apply safe_ret.
Qed.

(** [depth] is enough for the messages nested in [n]. *)
Fixpoint nests (depth : nat) (n : N) : Prop :=
  match depth with
  | O => False
  | S depth => Forall (λ f, match pf_type f with
                            | PROTOBUF_C_TYPE_MESSAGE n' => nests depth n'
                            | _ => True end) (d_fields (descriptor n))
  end.

Lemma nests_S depth n : nests depth n → nests (S depth) n.
Proof.
  revert n. induction depth as [|depth IH]; intros n; [done|]. intros H.
  cbn [nests] in H |- *. eapply Forall_impl; [exact H|]. intros f. cbn.
  destruct (pf_type f); try done. apply IH.
Qed.

Definition same_shape (latter : pb_msg) (r : option pb_msg) : Prop :=
  match r with Some m => length m = length latter | None => True end.

Lemma safe_merge_fields sub (fs : list (pb_field N)) earlier latter :
  Forall (λ f, match pf_type f with
               | PROTOBUF_C_TYPE_MESSAGE n' =>
                   ∀ e l, safe (S:=world U) (sub n' e l) (same_shape l)
               | _ => True end) fs →
  safe (S:=world U) (merge_fields sub fs earlier latter) (same_shape latter).
Proof.
  intros Hfs. revert earlier latter. induction Hfs as [|f fs Hf _ IH]; intros earlier latter;
    cbn [merge_fields]; [by apply safe_ret|].
  destruct earlier as [|e earlier], latter as [|l latter]; [by apply safe_ret..|].
  eapply (safe_bind _ _ (λ _, True)).
  - unfold merge_field. destruct (pf_label f).
    + destruct (pf_type f) as [| | | | |n'];
        try (repeat case_match; by apply safe_ret).
      destruct e as [|[| |em] e]; [by apply safe_ret..|].
      destruct l as [|[| |lm] l]; [by apply safe_ret..|].
      eapply safe_bind; [apply Hf|]. intros [m|] _; by apply safe_ret.
    + destruct e; [by apply safe_ret|]. destruct l; [by apply safe_ret|].
      eapply safe_bind; [by apply (safe_malloc (λ _, True))|]. intros ? _. by apply safe_ret.
  - intros [v|] _; [|by apply safe_ret].
    eapply safe_bind; [apply IH|]. intros [m|] Hm; apply safe_ret; simpl in *; lia.
Qed.

Lemma safe_merge depth n earlier latter :
  nests depth n → safe (S:=world U) (merge_messages depth n earlier latter) (same_shape latter).
Proof.
  revert n earlier latter. induction depth as [|depth IH]; intros n earlier latter; [done|].
  intros Hn. cbn [merge_messages nests] in *. apply safe_merge_fields.
  eapply Forall_impl; [exact Hn|]. intros f. cbn. destruct (pf_type f); try done.
  intros. by apply IH.
Qed.

Lemma safe_copy_bytes data len :
  len <= zlen data → safe (S:=world U) (copy_bytes data len) (λ _, True).
Proof.
  intros H. unfold copy_bytes. rewrite (proj2 (Z.ltb_ge _ _)) by lia. by apply safe_ret.
Qed.

Lemma safe_parse_boolean data len :
  len <= zlen data → safe (S:=world U) (parse_boolean data len) (λ _, True).
Proof.
  revert len. induction data as [|b data IH]; intros len H; cbn [parse_boolean].
  - rewrite (proj2 (Z.leb_le _ _)) by (unfold zlen in H; simpl in H; lia). by apply safe_ret.
  - destruct (len <=? 0); [by apply safe_ret|]. destruct (Z.land b 127 =? 0); [|by apply safe_ret].
    apply IH. rewrite zlen_cons in H. lia.
Qed.

Lemma safe_parse_uint32 data len :
  0 < len <= zlen data → safe (S:=world U) (parse_uint32 len data) (λ _, True).
Proof.
  intros H. unfold zlen in H. unfold parse_uint32.
  eapply safe_bind; [apply safe_byte_at; lia|]. intros b0 _.
  destruct (Z.ltb_spec 1 len); cbn [negb]; [|by apply safe_ret].
  eapply safe_bind; [apply safe_byte_at; lia|]. intros b1 _.
  destruct (Z.ltb_spec 2 len); cbn [negb]; [|by apply safe_ret].
  eapply safe_bind; [apply safe_byte_at; lia|]. intros b2 _.
  destruct (Z.ltb_spec 3 len); cbn [negb]; [|by apply safe_ret].
  eapply safe_bind; [apply safe_byte_at; lia|]. intros b3 _.
  destruct (Z.ltb_spec 4 len); cbn [negb]; [|by apply safe_ret].
  eapply safe_bind; [apply safe_byte_at; lia|]. intros b4 _. by apply safe_ret.
Qed.

(** [unp] is safe on inputs at least as long as announced. *)
Definition unpack_safe (ok : N → Prop) (unp : N → Z → bytes → M (world U) (option pb_msg)) : Prop :=
  ∀ n len data, ok n → 0 <= len <= zlen data →
    safe (S:=world U) (unp n len data)
      (λ r, match r with Some m => length m = length (d_fields (descriptor n)) | None => True end).

Lemma safe_parse_required ok unp depth d f m old :
  unpack_safe ok unp → member_ok d m → (∀ n, ok n → nests depth n) →
  match pf_type f with PROTOBUF_C_TYPE_MESSAGE n' => ok n' | _ => True end →
  safe (S:=world U) (parse_required_member unp (merge_messages depth) f m old) (λ _, True).
Proof.
  intros Hu (Hlen & Hlt & Hp & H64 & _) Hn Hok. unfold parse_required_member.
  rewrite (u32_small (sm_len m)) by (unfold is_u32; lia).
  rewrite (u32_small (sm_len m - _)) by (unfold is_u32; lia).
  assert (sm_len m - Z.of_nat (sm_length_prefix_len m)
    <= zlen (drop (sm_length_prefix_len m) (sm_data m))) as Hpl
    by (rewrite zlen_drop; unfold zlen in *; lia).
  destruct (pf_type f) as [| | | | |n']; cbn [wire_type_of].
  - destruct (_ =? _); cbn [negb]; [|by apply safe_ret].
    eapply safe_bind; [by apply safe_parse_uint32|]. intros; by apply safe_ret.
  - destruct (_ =? _); cbn [negb]; [|by apply safe_ret].
    eapply safe_bind; [by apply safe_parse_uint32|]. intros; by apply safe_ret.
  - eapply safe_bind; [by apply safe_parse_boolean; lia|]. intros; by apply safe_ret.
  - destruct (Z.eqb_spec (sm_wire_type m) PROTOBUF_C_WIRE_TYPE_64BIT) as [E|];
      cbn [negb]; [|by apply safe_ret]. specialize (H64 E).
    eapply (safe_bind _ _ (λ _, True)); [|intros; by apply safe_ret].
    eapply safe_bind; [apply safe_copy_bytes; lia|]. intros; by apply safe_ret.
  - destruct (_ =? _); cbn [negb]; [|by apply safe_ret].
    destruct (Z.ltb_spec 0 (sm_len m - Z.of_nat (sm_length_prefix_len m))); [|by apply safe_ret].
    eapply safe_bind; [by apply (safe_malloc (λ _, True))|]. intros [] _; cbn [negb]; [|by apply safe_ret].
    eapply safe_bind; [by apply safe_copy_bytes|]. intros; by apply safe_ret.
  - destruct (_ =? _); cbn [negb]; [|by apply safe_ret].
    eapply safe_bind; [apply Hu; [done|lia]|]. intros [subm|] _; [|by apply safe_ret].
    destruct old as [|[| |em] old]; [by apply safe_ret..|].
    eapply safe_bind; [by apply safe_merge, Hn|]. intros [|] _; by apply safe_ret.
Qed.

Lemma safe_parse_members ok unp depth n ms msg :
  unpack_safe ok unp → Forall (member_ok (descriptor n)) ms → (∀ n, ok n → nests depth n) →
  Forall (λ f, match pf_type f with
               | PROTOBUF_C_TYPE_MESSAGE n' => ok n' | _ => True end) (d_fields (descriptor n)) →
  length msg = length (d_fields (descriptor n)) →
  safe (S:=world U) (parse_members unp (merge_messages depth) (descriptor n) ms msg)
    (λ r, match r with Some m => length m = length (d_fields (descriptor n)) | None => True end).
Proof.
  intros Hu Hms Hn Hok. revert msg. induction Hms as [|m ms Hm _ IH]; intros msg Hl;
    cbn [parse_members]; [by apply safe_ret|].
  eapply (safe_bind _ _ (same_shape msg)).
  - unfold parse_member. pose proof Hm as (Hlen & _ & _ & _ & Hf).
    destruct (sm_field m) as [i|].
    + destruct (lookup_lt_is_Some_2 _ _ Hf) as [f Hi]. rewrite Hi.
      destruct (lookup_lt_is_Some_2 msg i ltac:(lia)) as [vs ->].
      pose proof (Forall_lookup_1 _ _ _ _ Hok Hi) as Hfok. simpl in Hfok.
      destruct (pf_label f); (eapply safe_bind; [by eapply safe_parse_required|]);
        intros [v|] _; apply safe_ret; simpl; try done; by rewrite length_insert.
    + eapply safe_bind; [by apply (safe_malloc (λ _, True))|].
      intros [] _; cbn [negb]; [|by apply safe_ret].
      eapply safe_bind; [apply safe_copy_bytes; lia|]. intros _ _. by apply safe_ret.
  - intros [msg'|] Hs; [|by apply safe_ret]. apply IH. simpl in Hs. lia.
Qed.

Lemma safe_alloc_repeated i (fs : list (pb_field N)) ms :
  safe (S:=world U) (alloc_repeated i fs ms) (λ _, True).
Proof.
  revert i. induction fs as [|f fs IH]; intros i; cbn [alloc_repeated].
  - destruct (existsb _ ms); [by apply safe_malloc|by apply safe_ret].
  - destruct (pf_label f); [apply IH|]. destruct (existsb _ ms); [|apply IH].
    eapply safe_bind; [by apply (safe_malloc (λ _, True))|].
    intros [] _; [apply IH|by apply safe_ret].
Qed.

Lemma unpack_is_safe depth :
  (∀ n : N, wf_desc (descriptor n)) → unpack_safe (nests depth) (protobuf_c_message_unpack depth).
Proof.
  intros Hd. induction depth as [|depth IH]; intros n len data Hn Hl; [done|].
  cbn [protobuf_c_message_unpack].
  eapply safe_bind; [by apply (safe_malloc (λ _, True))|].
  intros [] _; cbn [negb]; [|by apply safe_ret].
  eapply safe_bind; [apply safe_scan_members; [apply Hd|done|lia]|].
  intros [ms|] Hms; [|by apply safe_ret].
  eapply safe_bind; [apply safe_alloc_repeated|]. intros [] _; cbn [negb]; [|by apply safe_ret].
  apply (safe_parse_members (nests depth)); try done; [by apply nests_S|].
  by rewrite length_replicate.
Qed.
End Safe.
