(* ===== verification/Wire.v ===== *)
(** The message descriptors of the generated files WhisperTextProtocol.pb-c.c,
    LocalStorageProtocol.pb-c.c and FingerprintProtocol.pb-c.c: for each message
    its fields in the order of the descriptor table, with id, label and type,
    and its range table. *)

From S2P Require Import Prelude Buffer Protobuf ProtobufSpec.

Inductive pb_name :=
| SignalMessage
| PreKeySignalMessage
| KeyExchangeMessage
| SenderKeyMessage
| SenderKeyDistributionMessage
| DeviceConsistencyCodeMessage
| SessionStructureChainChainKey
| SessionStructureChainMessageKey
| SessionStructureChain
| SessionStructurePendingKeyExchange
| SessionStructurePendingPreKey
| SessionStructure
| RecordStructure
| PreKeyRecordStructure
| SignedPreKeyRecordStructure
| IdentityKeyPairStructure
| SenderKeyStateStructureSenderChainKey
| SenderKeyStateStructureSenderMessageKey
| SenderKeyStateStructureSenderSigningKey
| SenderKeyStateStructure
| SenderKeyRecordStructure
| LogicalFingerprint
| CombinedFingerprints.

Local Abbreviation opt id ty := (PbField id PROTOBUF_C_LABEL_OPTIONAL ty).
Local Abbreviation rep id ty := (PbField id PROTOBUF_C_LABEL_REPEATED ty).
Local Abbreviation uint32 := (PROTOBUF_C_TYPE_UINT32 (N:=pb_name)).
Local Abbreviation bytes_t := (PROTOBUF_C_TYPE_BYTES (N:=pb_name)).
Local Abbreviation msg n := (PROTOBUF_C_TYPE_MESSAGE n).

Definition textsecure__signal_message__descriptor : pb_desc pb_name := PbDesc
  [opt 1 bytes_t (* ratchetKey *);
   opt 2 uint32 (* counter *);
   opt 3 uint32 (* previousCounter *);
   opt 4 bytes_t (* ciphertext *)]
  [(1, 0); (0, 4)].

Definition textsecure__pre_key_signal_message__descriptor : pb_desc pb_name := PbDesc
  [opt 1 uint32 (* preKeyId *);
   opt 2 bytes_t (* baseKey *);
   opt 3 bytes_t (* identityKey *);
   opt 4 bytes_t (* message *);
   opt 5 uint32 (* registrationId *);
   opt 6 uint32 (* signedPreKeyId *)]
  [(1, 0); (0, 6)].

Definition textsecure__key_exchange_message__descriptor : pb_desc pb_name := PbDesc
  [opt 1 uint32 (* id *);
   opt 2 bytes_t (* baseKey *);
   opt 3 bytes_t (* ratchetKey *);
   opt 4 bytes_t (* identityKey *);
   opt 5 bytes_t (* baseKeySignature *)]
  [(1, 0); (0, 5)].

Definition textsecure__sender_key_message__descriptor : pb_desc pb_name := PbDesc
  [opt 1 uint32 (* id *);
   opt 2 uint32 (* iteration *);
   opt 3 bytes_t (* ciphertext *)]
  [(1, 0); (0, 3)].

Definition textsecure__sender_key_distribution_message__descriptor : pb_desc pb_name := PbDesc
  [opt 1 uint32 (* id *);
   opt 2 uint32 (* iteration *);
   opt 3 bytes_t (* chainKey *);
   opt 4 bytes_t (* signingKey *)]
  [(1, 0); (0, 4)].

Definition textsecure__device_consistency_code_message__descriptor : pb_desc pb_name := PbDesc
  [opt 1 uint32 (* generation *);
   opt 2 bytes_t (* signature *)]
  [(1, 0); (0, 2)].

Definition textsecure__session_structure__chain__chain_key__descriptor : pb_desc pb_name := PbDesc
  [opt 1 uint32 (* index *);
   opt 2 bytes_t (* key *)]
  [(1, 0); (0, 2)].

Definition textsecure__session_structure__chain__message_key__descriptor : pb_desc pb_name := PbDesc
  [opt 1 uint32 (* index *);
   opt 2 bytes_t (* cipherKey *);
   opt 3 bytes_t (* macKey *);
   opt 4 bytes_t (* iv *)]
  [(1, 0); (0, 4)].

Definition textsecure__session_structure__chain__descriptor : pb_desc pb_name := PbDesc
  [opt 1 bytes_t (* senderRatchetKey *);
   opt 2 bytes_t (* senderRatchetKeyPrivate *);
   opt 3 (msg SessionStructureChainChainKey) (* chainKey *);
   rep 4 (msg SessionStructureChainMessageKey) (* messageKeys *)]
  [(1, 0); (0, 4)].

Definition textsecure__session_structure__pending_key_exchange__descriptor : pb_desc pb_name := PbDesc
  [opt 1 uint32 (* sequence *);
   opt 2 bytes_t (* localBaseKey *);
   opt 3 bytes_t (* localBaseKeyPrivate *);
   opt 4 bytes_t (* localRatchetKey *);
   opt 5 bytes_t (* localRatchetKeyPrivate *);
   opt 7 bytes_t (* localIdentityKey *);
   opt 8 bytes_t (* localIdentityKeyPrivate *)]
  [(1, 0); (7, 5); (0, 7)].

Definition textsecure__session_structure__pending_pre_key__descriptor : pb_desc pb_name := PbDesc
  [opt 1 uint32 (* preKeyId *);
   opt 2 bytes_t (* baseKey *);
   opt 3 PROTOBUF_C_TYPE_INT32 (* signedPreKeyId *)]
  [(1, 0); (0, 3)].

Definition textsecure__session_structure__descriptor : pb_desc pb_name := PbDesc
  [opt 1 uint32 (* sessionVersion *);
   opt 2 bytes_t (* localIdentityPublic *);
   opt 3 bytes_t (* remoteIdentityPublic *);
   opt 4 bytes_t (* rootKey *);
   opt 5 uint32 (* previousCounter *);
   opt 6 (msg SessionStructureChain) (* senderChain *);
   rep 7 (msg SessionStructureChain) (* receiverChains *);
   opt 8 (msg SessionStructurePendingKeyExchange) (* pendingKeyExchange *);
   opt 9 (msg SessionStructurePendingPreKey) (* pendingPreKey *);
   opt 10 uint32 (* remoteRegistrationId *);
   opt 11 uint32 (* localRegistrationId *);
   opt 12 PROTOBUF_C_TYPE_BOOL (* needsRefresh *);
   opt 13 bytes_t (* aliceBaseKey *)]
  [(1, 0); (0, 13)].

Definition textsecure__record_structure__descriptor : pb_desc pb_name := PbDesc
  [opt 1 (msg SessionStructure) (* currentSession *);
   rep 2 (msg SessionStructure) (* previousSessions *)]
  [(1, 0); (0, 2)].

Definition textsecure__pre_key_record_structure__descriptor : pb_desc pb_name := PbDesc
  [opt 1 uint32 (* id *);
   opt 2 bytes_t (* publicKey *);
   opt 3 bytes_t (* privateKey *)]
  [(1, 0); (0, 3)].

Definition textsecure__signed_pre_key_record_structure__descriptor : pb_desc pb_name := PbDesc
  [opt 1 uint32 (* id *);
   opt 2 bytes_t (* publicKey *);
   opt 3 bytes_t (* privateKey *);
   opt 4 bytes_t (* signature *);
   opt 5 PROTOBUF_C_TYPE_FIXED64 (* timestamp *)]
  [(1, 0); (0, 5)].

Definition textsecure__identity_key_pair_structure__descriptor : pb_desc pb_name := PbDesc
  [opt 1 bytes_t (* publicKey *);
   opt 2 bytes_t (* privateKey *)]
  [(1, 0); (0, 2)].

Definition textsecure__sender_key_state_structure__sender_chain_key__descriptor : pb_desc pb_name := PbDesc
  [opt 1 uint32 (* iteration *);
   opt 2 bytes_t (* seed *)]
  [(1, 0); (0, 2)].

Definition textsecure__sender_key_state_structure__sender_message_key__descriptor : pb_desc pb_name := PbDesc
  [opt 1 uint32 (* iteration *);
   opt 2 bytes_t (* seed *)]
  [(1, 0); (0, 2)].

Definition textsecure__sender_key_state_structure__sender_signing_key__descriptor : pb_desc pb_name := PbDesc
  [opt 1 bytes_t (* public *);
   opt 2 bytes_t (* private *)]
  [(1, 0); (0, 2)].

Definition textsecure__sender_key_state_structure__descriptor : pb_desc pb_name := PbDesc
  [opt 1 uint32 (* senderKeyId *);
   opt 2 (msg SenderKeyStateStructureSenderChainKey) (* senderChainKey *);
   opt 3 (msg SenderKeyStateStructureSenderSigningKey) (* senderSigningKey *);
   rep 4 (msg SenderKeyStateStructureSenderMessageKey) (* senderMessageKeys *)]
  [(1, 0); (0, 4)].

Definition textsecure__sender_key_record_structure__descriptor : pb_desc pb_name := PbDesc
  [rep 1 (msg SenderKeyStateStructure) (* senderKeyStates *)]
  [(1, 0); (0, 1)].

Definition textsecure__logical_fingerprint__descriptor : pb_desc pb_name := PbDesc
  [opt 1 bytes_t (* content *);
   opt 2 bytes_t (* identifier *)]
  [(1, 0); (0, 2)].

Definition textsecure__combined_fingerprints__descriptor : pb_desc pb_name := PbDesc
  [opt 1 uint32 (* version *);
   opt 2 (msg LogicalFingerprint) (* localFingerprint *);
   opt 3 (msg LogicalFingerprint) (* remoteFingerprint *)]
  [(1, 0); (0, 3)].

#[export] Instance signal_descriptors : Descriptors pb_name := {|
  descriptor n := match n with
  | SignalMessage => textsecure__signal_message__descriptor
  | PreKeySignalMessage => textsecure__pre_key_signal_message__descriptor
  | KeyExchangeMessage => textsecure__key_exchange_message__descriptor
  | SenderKeyMessage => textsecure__sender_key_message__descriptor
  | SenderKeyDistributionMessage => textsecure__sender_key_distribution_message__descriptor
  | DeviceConsistencyCodeMessage => textsecure__device_consistency_code_message__descriptor
  | SessionStructureChainChainKey => textsecure__session_structure__chain__chain_key__descriptor
  | SessionStructureChainMessageKey => textsecure__session_structure__chain__message_key__descriptor
  | SessionStructureChain => textsecure__session_structure__chain__descriptor
  | SessionStructurePendingKeyExchange => textsecure__session_structure__pending_key_exchange__descriptor
  | SessionStructurePendingPreKey => textsecure__session_structure__pending_pre_key__descriptor
  | SessionStructure => textsecure__session_structure__descriptor
  | RecordStructure => textsecure__record_structure__descriptor
  | PreKeyRecordStructure => textsecure__pre_key_record_structure__descriptor
  | SignedPreKeyRecordStructure => textsecure__signed_pre_key_record_structure__descriptor
  | IdentityKeyPairStructure => textsecure__identity_key_pair_structure__descriptor
  | SenderKeyStateStructureSenderChainKey => textsecure__sender_key_state_structure__sender_chain_key__descriptor
  | SenderKeyStateStructureSenderMessageKey => textsecure__sender_key_state_structure__sender_message_key__descriptor
  | SenderKeyStateStructureSenderSigningKey => textsecure__sender_key_state_structure__sender_signing_key__descriptor
  | SenderKeyStateStructure => textsecure__sender_key_state_structure__descriptor
  | SenderKeyRecordStructure => textsecure__sender_key_record_structure__descriptor
  | LogicalFingerprint => textsecure__logical_fingerprint__descriptor
  | CombinedFingerprints => textsecure__combined_fingerprints__descriptor
  end |}.

(** Messages nest at most four deep (record, session, chain, key). *)
Definition PB_DEPTH : nat := 4.

Lemma signal_descriptors_wf (n : pb_name) : wf_desc (descriptor n).
Proof.
  split.
  - intros i f Hi. destruct n; simpl in Hi;
      repeat (destruct i as [|i]; [injection Hi as <-; split; [simpl; lia|reflexivity]|simpl in Hi]);
      done.
  - intros tag. destruct n; unfold int_range_lookup; cbn;
      repeat match goal with |- context [if ?b then _ else _] => destruct b eqn:? end;
      rewrite ?andb_true_iff, ?Z.leb_le, ?Z.ltb_lt, ?Z.leb_gt, ?Z.ltb_ge in *; lia.
Qed.

Lemma signal_descriptors_nest (n : pb_name) : nests PB_DEPTH n.
Proof. destruct n; repeat constructor. Qed.

(** ** Fields of a message structure

    Reading: the [has_] flag and value of an optional field, the pointer to an
    embedded message, the array of a repeated one. *)
Definition val_bytes (vs : list pb_val) : option bytes :=
  match vs with VBytes b :: _ => Some b | _ => None end.
Definition val_num (vs : list pb_val) : option Z :=
  match vs with VNum z :: _ => Some z | _ => None end.
Definition val_sub (vs : list pb_val) : option pb_msg :=
  match vs with VMsg m :: _ => Some m | _ => None end.
Fixpoint val_subs (vs : list pb_val) : list pb_msg :=
  match vs with
  | VMsg s :: vs => s :: val_subs vs
  | _ :: vs => val_subs vs
  | [] => []
  end.
Definition pb_field_at (m : pb_msg) (i : nat) : list pb_val := default [] (m !! i).
Definition pb_bytes (m : pb_msg) (i : nat) : option bytes := val_bytes (pb_field_at m i).
Definition pb_num (m : pb_msg) (i : nat) : option Z := val_num (pb_field_at m i).
Definition pb_sub (m : pb_msg) (i : nat) : option pb_msg := val_sub (pb_field_at m i).
Definition pb_subs (m : pb_msg) (i : nat) : list pb_msg := val_subs (pb_field_at m i).

(** The [data] pointer of a binary field is null when it is empty. *)
Definition data_ptr (b : bytes) : option bytes :=
  match b with [] => None | _ => Some b end.

(** Writing: a field set from a value, or left unset. *)
Definition opt_num (o : option Z) : list pb_val :=
  match o with Some z => [VNum z] | None => [] end.
Definition opt_bytes (o : option bytes) : list pb_val :=
  match o with Some b => [VBytes b] | None => [] end.
Definition opt_sub (o : option pb_msg) : list pb_val :=
  match o with Some m => [VMsg m] | None => [] end.

Lemma val_opt_bytes o : val_bytes (opt_bytes o) = o.
Proof. by destruct o. Qed.
Lemma val_opt_num o : val_num (opt_num o) = o.
Proof. by destruct o. Qed.
Lemma val_opt_sub o : val_sub (opt_sub o) = o.
Proof. by destruct o. Qed.
Lemma val_subs_fmap (l : list pb_msg) : val_subs (VMsg <$> l) = l.
Proof. induction l as [|m l IH]; [done|]. cbn. by rewrite <-IH at 2. Qed.

#[export] Hint Rewrite val_opt_bytes val_opt_num val_opt_sub val_subs_fmap : pb_read.

(** Evaluates the field accesses on a message given by its fields. *)
Ltac pb_read :=
  unfold pb_bytes, pb_num, pb_sub, pb_subs, pb_field_at;
  cbn [lookup list_lookup default from_option id val_bytes val_num val_sub];
  autorewrite with pb_read.

Section Api.
Context {U : Type}.

(** The generated [textsecure__*__pack], [__get_packed_size] and [__unpack]
    are calls of the runtime with the message's descriptor. *)
Definition pb_get_packed_size (n : pb_name) (m : pb_msg) : Z :=
  protobuf_c_message_get_packed_size PB_DEPTH m n.
Definition pb_pack (n : pb_name) (m : pb_msg) : bytes := protobuf_c_message_pack PB_DEPTH m n.
Definition pb_unpack (n : pb_name) (data : bytes) : M (world U) (option pb_msg) :=
  protobuf_c_message_unpack PB_DEPTH n (zlen data) data.

(** The common end of the storage serializers: a buffer of the announced size
    is allocated, filled, and the written size checked. *)
Definition pb_to_buffer (n : pb_name) (m : pb_msg) : M (world U) bytes :=
  let len := pb_get_packed_size n m in
  let* buf := signal_buffer_alloc len in
  let* _ := non_null buf SG_ERR_NOMEM in
  if negb (zlen (pb_pack n m) =? len) then fail SG_ERR_INVALID_PROTO_BUF
  else ret (pb_pack n m).

Lemma pb_roundtrip (u : U) n m :
  wt_msg PB_DEPTH n m → zlen (pb_pack n m) < 2 ^ 26 →
  pb_get_packed_size n m = zlen (pb_pack n m) ∧
  pb_unpack n (pb_pack n m) (calm u) = (Ok (Some m), calm u).
Proof.
  intros Hwt Hsz. split; [apply packed_size; [apply signal_descriptors_wf|done]|].
  pose proof (unpack_pack u PB_DEPTH n m [] signal_descriptors_wf Hwt Hsz) as H.
  by rewrite app_nil_r in H.
Qed.

Lemma pb_roundtrip_weight (u : U) n m :
  wt_msg PB_DEPTH n m → pb_weight PB_DEPTH m < 2 ^ 26 →
  pb_get_packed_size n m = zlen (pb_pack n m) ∧ zlen (pb_pack n m) < 2 ^ 26 ∧
  pb_unpack n (pb_pack n m) (calm u) = (Ok (Some m), calm u).
Proof.
  intros Hwt Hw.
  assert (zlen (pb_pack n m) < 2 ^ 26) as Hsz.
  { unfold pb_pack. rewrite <-packed_size by (apply signal_descriptors_wf || done).
    pose proof (packed_size_weight PB_DEPTH n m). lia. }
  destruct (pb_roundtrip u n m Hwt Hsz). done.
Qed.

Lemma pb_to_buffer_calm (u : U) n m :
  wt_msg PB_DEPTH n m → pb_weight PB_DEPTH m < 2 ^ 26 →
  pb_to_buffer n m (calm u) = (Ok (pb_pack n m), calm u).
Proof.
  intros Hwt Hw. destruct (pb_roundtrip_weight u n m Hwt Hw) as (Hs & Hb & _).
  unfold pb_to_buffer. rewrite Hs.
  step (signal_buffer_alloc_calm u (zlen (pb_pack n m)) ltac:(unfold SIZE_MAX; lia)).
  by rewrite Z.eqb_refl.
Qed.

Lemma ends_pb_unpack n d : ends (S:=world U) (pb_unpack n d) (λ _, True).
Proof.
  intros w. pose proof (zlen_nonneg d).
  pose proof (unpack_is_safe PB_DEPTH signal_descriptors_wf n (zlen d) d
    (signal_descriptors_nest n) ltac:(lia) w) as Hs. unfold pb_unpack.
  by destruct (protobuf_c_message_unpack PB_DEPTH n (zlen d) d w) as [[r|e| |] w'].
Qed.

(** C25: for each message type of the library, packing a well-typed message
    writes exactly the number of bytes [protobuf_c_message_get_packed_size]
    announced, which is the size of the buffer the callers allocate, and
    unpacking them, whatever follows in memory, gives the message back. *)
Theorem pb_messages_roundtrip (u : U) (n : pb_name) (m : pb_msg) (rest : bytes) :
  wt_msg PB_DEPTH n m → zlen (pb_pack n m) < 2 ^ 26 →
  pb_get_packed_size n m = zlen (pb_pack n m) ∧
  protobuf_c_message_unpack PB_DEPTH n (pb_get_packed_size n m) (pb_pack n m ++ rest) (calm u)
    = (Ok (Some m), calm u).
Proof.
  intros Hwt Hsz. unfold pb_get_packed_size.
  rewrite (packed_size PB_DEPTH n m signal_descriptors_wf Hwt). split; [done|].
  by apply unpack_pack; [apply signal_descriptors_wf|..].
Qed.

(** C24: unpacking untrusted input is memory safe.  For each message type, on
    arbitrary bytes and whichever allocations fail,
    [protobuf_c_message_unpack] terminates with a message or NULL and never
    reads outside its input, although [scan_length_prefixed_data] and
    [parse_required_member] compute lengths in wrapping 32-bit arithmetic. *)
Theorem pb_unpack_memory_safe (n : pb_name) (data : bytes) (w : world U) :
  ∃ r w', pb_unpack n data w = (Ok r, w').
Proof.
  pose proof (zlen_nonneg data).
  pose proof (unpack_is_safe PB_DEPTH signal_descriptors_wf n (zlen data) data
    (signal_descriptors_nest n) ltac:(lia) w) as Hs. unfold pb_unpack.
  destruct (protobuf_c_message_unpack PB_DEPTH n (zlen data) data w) as [[r|e| |] w']; try done.
  by exists r, w'.
Qed.
End Api.

Lemma pb_messages_roundtrip_witness :
  let m := [[VBytes [5; 7]]; [VNum 300]; []; [VBytes (replicate 200 9)]] in
  pb_get_packed_size SignalMessage m = zlen (pb_pack SignalMessage m) ∧
  protobuf_c_message_unpack PB_DEPTH SignalMessage (pb_get_packed_size SignalMessage m)
    (pb_pack SignalMessage m ++ [255; 255]) (calm tt) = (Ok (Some m), calm tt).
Proof.
  apply pb_messages_roundtrip; [|vm_compute; reflexivity].
  repeat constructor; simpl; lia.
Defined.
