(* ===== verification/Protocol.v ===== *)
(** The messages on the wire (protocol.c): creation, serialization and parsing
    of the four message types, the MAC of a [signal_message] and the signature
    of a [sender_key_message].

    A serialized message is a version byte, a protobuf body and, by type, a
    MAC of 8 bytes, a signature of 64 bytes or nothing.  A null [data] pointer
    with length 0 is the empty buffer. *)

From S2P Require Import Prelude Buffer Provider Curve Protobuf ProtobufSpec Wire Ratcheting.

Definition SIGNAL_MESSAGE_MAC_LENGTH : Z := 8.
Definition SIGNATURE_LENGTH : Z := 64.

Record signal_message : Type := SignalMessage_ {
  msg_message_version : Z;
  msg_sender_ratchet_key : ec_public_key;
  msg_counter : Z;
  msg_previous_counter : Z;
  msg_ciphertext : bytes;
  msg_serialized : bytes }.

Record pre_key_signal_message : Type := PreKeySignalMessage_ {
  pkm_version : Z;
  pkm_registration_id : Z;
  pkm_pre_key_id : option Z;
  pkm_signed_pre_key_id : Z;
  pkm_base_key : ec_public_key;
  pkm_identity_key : ec_public_key;
  pkm_message : signal_message;
  pkm_serialized : bytes }.

Record sender_key_message : Type := SenderKeyMessage_ {
  skm_message_version : Z;
  skm_key_id : Z;
  skm_iteration : Z;
  skm_ciphertext : bytes;
  skm_serialized : bytes }.

(** The pointers [chain_key], [signature_key] and [serialized] can be left
    null, see [sender_key_distribution_message_create]. *)
Record sender_key_distribution_message : Type := SenderKeyDistributionMessage_ {
  skdm_id : Z;
  skdm_iteration : Z;
  skdm_chain_key : option bytes;
  skdm_signature_key : option ec_public_key;
  skdm_serialized : option bytes }.

(** [(version << 4) | CIPHERTEXT_CURRENT_VERSION] as a [uint8_t] *)
Definition version_byte (version : Z) : Z :=
  u8 (Z.lor (Z.shiftl version 4) CIPHERTEXT_CURRENT_VERSION).
(** [(data[0] & 0xF0) >> 4] *)
Definition byte_version (b : Z) : Z := Z.shiftr (Z.land b 240) 4.

Section Defs.
Context {U : Type} {CP : CryptoProvider U} {C : Curve25519}.

(** The common end of the four serializers: a buffer for version byte, body
    and [extra] bytes is allocated, then filled. *)
Definition serialize_body (version extra : Z) (n : pb_name) (m : pb_msg) : M (world U) bytes :=
  let len := pb_get_packed_size n m in
  let* buf := signal_buffer_alloc (1 + len + extra) in
  let* _ := non_null buf SG_ERR_NOMEM in
  if negb (zlen (pb_pack n m) =? len) then fail SG_ERR_INVALID_PROTO_BUF
  else ret (version :: pb_pack n m).

Definition signal_message_serialize (message_version : Z) (sender_ratchet_key : ec_public_key)
    (counter previous_counter : Z) (ciphertext : bytes) : M (world U) bytes :=
  let* ratchetkey := ec_public_key_serialize_protobuf sender_ratchet_key in
  serialize_body (version_byte message_version) 0 SignalMessage
    [[VBytes ratchetkey]; [VNum counter]; [VNum previous_counter]; [VBytes ciphertext]].

Definition signal_message_get_mac (message_version : Z)
    (sender_identity_key receiver_identity_key : ec_public_key) (mac_key serialized : bytes)
    : M (world U) bytes :=
  let* h := signal_hmac_sha256_init mac_key in
  let* h := (if 3 <=? message_version then
    let* sender_key_buffer := ec_public_key_serialize (Some sender_identity_key) in
    let* h := signal_hmac_sha256_update h sender_key_buffer in
    let* receiver_key_buffer := ec_public_key_serialize (Some receiver_identity_key) in
    signal_hmac_sha256_update h receiver_key_buffer
    else ret h) in
  let* h := signal_hmac_sha256_update h serialized in
  let* full_mac_buffer := signal_hmac_sha256_final h in
  if zlen full_mac_buffer <? SIGNAL_MESSAGE_MAC_LENGTH then fail SG_ERR_UNKNOWN
  else
    let* buf := signal_buffer_alloc SIGNAL_MESSAGE_MAC_LENGTH in
    let* _ := non_null buf SG_ERR_NOMEM in
    ret (take 8 full_mac_buffer).

Definition signal_message_create (message_version : Z) (mac_key : bytes)
    (sender_ratchet_key : ec_public_key) (counter previous_counter : Z) (ciphertext : bytes)
    (sender_identity_key receiver_identity_key : ec_public_key) : M (world U) signal_message :=
  let* _ := alloc in
  let* ciphertext_buf := signal_buffer_create ciphertext in
  let* ciphertext := non_null ciphertext_buf SG_ERR_NOMEM in
  let* message_buf := signal_message_serialize message_version sender_ratchet_key counter
    previous_counter ciphertext in
  let* mac_buf := signal_message_get_mac message_version sender_identity_key
    receiver_identity_key mac_key message_buf in
  let* serialized := signal_buffer_append message_buf mac_buf in
  let* serialized := non_null serialized SG_ERR_NOMEM in
  ret (SignalMessage_ message_version sender_ratchet_key counter previous_counter
         ciphertext serialized).

Definition signal_message_deserialize (data : bytes) : M (world U) signal_message :=
  let len := zlen data in
  if len <=? 1 + SIGNAL_MESSAGE_MAC_LENGTH then fail SG_ERR_INVAL
  else
    let version := byte_version (default 0 (head data)) in
    let message_data := drop 1 data in
    let message_len := len - 1 - SIGNAL_MESSAGE_MAC_LENGTH in
    if version <=? CIPHERTEXT_UNSUPPORTED_VERSION then fail SG_ERR_LEGACY_MESSAGE
    else if CIPHERTEXT_CURRENT_VERSION <? version then fail SG_ERR_INVALID_MESSAGE
    else
      let* message_structure := pb_unpack SignalMessage (take (Z.to_nat message_len) message_data) in
      let* m := non_null message_structure SG_ERR_INVALID_PROTO_BUF in
      match pb_bytes m 3, pb_num m 1, pb_bytes m 0 with
      | Some ciphertext, Some counter, Some ratchetkey =>
          let* _ := alloc in
          let* sender_ratchet_key := curve_decode_point ratchetkey in
          let* buf := signal_buffer_alloc (zlen ciphertext) in
          let* _ := non_null buf SG_ERR_NOMEM in
          let* buf := signal_buffer_alloc len in
          let* _ := non_null buf SG_ERR_NOMEM in
          ret (SignalMessage_ version sender_ratchet_key counter (default 0 (pb_num m 2))
                 ciphertext data)
      | _, _, _ => fail SG_ERR_INVALID_MESSAGE
      end.

Definition signal_message_copy (other_message : signal_message) : M (world U) signal_message :=
  signal_message_deserialize (msg_serialized other_message).

(** [true] is the return value 1, [false] 0. *)
Definition signal_message_verify_mac (message : signal_message)
    (sender_identity_key receiver_identity_key : ec_public_key) (mac_key : bytes)
    : M (world U) bool :=
  let serialized := msg_serialized message in
  let message_len := (length serialized - 8)%nat in
  let their_mac := drop message_len serialized in
  let* our_mac := signal_message_get_mac (msg_message_version message) sender_identity_key
    receiver_identity_key mac_key (take message_len serialized) in
  if negb (zlen our_mac =? SIGNAL_MESSAGE_MAC_LENGTH) then fail SG_ERR_UNKNOWN
  else ret (signal_constant_memcmp our_mac their_mac (length our_mac) =? 0).

Definition signal_message_is_legacy (data : bytes) : bool :=
  (1 <=? zlen data) && (byte_version (default 0 (head data)) <=? CIPHERTEXT_UNSUPPORTED_VERSION).

(** *** Pre-key messages *)

Definition pre_key_signal_message_serialize (version registration_id : Z)
    (pre_key_id : option Z) (signed_pre_key_id : Z) (base_key identity_key : ec_public_key)
    (message : signal_message) : M (world U) bytes :=
  let* basekey := ec_public_key_serialize_protobuf base_key in
  let* identitykey := ec_public_key_serialize_protobuf identity_key in
  serialize_body (version_byte version) 0 PreKeySignalMessage
    [opt_num pre_key_id; [VBytes basekey]; [VBytes identitykey];
     [VBytes (msg_serialized message)]; [VNum registration_id]; [VNum signed_pre_key_id]].

Definition pre_key_signal_message_create (message_version registration_id : Z)
    (pre_key_id : option Z) (signed_pre_key_id : Z) (base_key identity_key : ec_public_key)
    (message : signal_message) : M (world U) pre_key_signal_message :=
  let* _ := alloc in
  let* serialized := pre_key_signal_message_serialize message_version registration_id pre_key_id
    signed_pre_key_id base_key identity_key message in
  ret (PreKeySignalMessage_ message_version registration_id pre_key_id signed_pre_key_id
         base_key identity_key message serialized).

Definition pre_key_signal_message_deserialize (data : bytes)
    : M (world U) pre_key_signal_message :=
  let len := zlen data in
  if len <=? 1 then fail SG_ERR_INVAL
  else
    let version := byte_version (default 0 (head data)) in
    if version <? CIPHERTEXT_CURRENT_VERSION then fail SG_ERR_LEGACY_MESSAGE
    else if CIPHERTEXT_CURRENT_VERSION <? version then fail SG_ERR_INVALID_VERSION
    else
      let* message_structure := pb_unpack PreKeySignalMessage (drop 1 data) in
      let* m := non_null message_structure SG_ERR_INVALID_PROTO_BUF in
      match pb_num m 5, pb_bytes m 1, pb_bytes m 2, pb_bytes m 3 with
      | Some signedprekeyid, Some basekey, Some identitykey, Some message =>
          let* _ := alloc in
          let* base_key := curve_decode_point basekey in
          let* identity_key := curve_decode_point identitykey in
          let* inner := signal_message_deserialize message in
          if negb (msg_message_version inner =? version) then fail SG_ERR_INVALID_VERSION
          else
            let* buf := signal_buffer_alloc len in
            let* _ := non_null buf SG_ERR_NOMEM in
            ret (PreKeySignalMessage_ version (default 0 (pb_num m 4)) (pb_num m 0)
                   signedprekeyid base_key identity_key inner data)
      | _, _, _, _ => fail SG_ERR_INVALID_MESSAGE
      end.

Definition pre_key_signal_message_copy (other_message : pre_key_signal_message)
    : M (world U) pre_key_signal_message :=
  pre_key_signal_message_deserialize (pkm_serialized other_message).

(** *** Sender-key messages *)

(** An [SG_ERR_INVALID_KEY] of the signature becomes [SG_ERR_UNKNOWN]. *)
Definition sender_key_message_serialize (key_id iteration : Z) (ciphertext : bytes)
    (signature_key : ec_private_key) : M (world U) bytes :=
  let* body := serialize_body (version_byte CIPHERTEXT_CURRENT_VERSION) SIGNATURE_LENGTH
    SenderKeyMessage [[VNum key_id]; [VNum iteration]; [VBytes ciphertext]] in
  let* r := try (curve_calculate_signature signature_key body) in
  match r with
  | inr e => fail (if e =? SG_ERR_INVALID_KEY then SG_ERR_UNKNOWN else e)
  | inl signature =>
      if negb (zlen signature =? SIGNATURE_LENGTH) then fail SG_ERR_UNKNOWN
      else ret (body ++ signature)
  end.

Definition sender_key_message_create (key_id iteration : Z) (ciphertext : bytes)
    (signature_key : ec_private_key) : M (world U) sender_key_message :=
  let* _ := alloc in
  let* ciphertext_buf := signal_buffer_create ciphertext in
  let* ciphertext := non_null ciphertext_buf SG_ERR_NOMEM in
  let* serialized := sender_key_message_serialize key_id iteration ciphertext signature_key in
  ret (SenderKeyMessage_ CIPHERTEXT_CURRENT_VERSION key_id iteration ciphertext serialized).

Definition sender_key_message_deserialize (data : bytes) : M (world U) sender_key_message :=
  let len := zlen data in
  if len <=? 1 + SIGNATURE_LENGTH then fail SG_ERR_INVAL
  else
    let version := byte_version (default 0 (head data)) in
    let message_len := len - 1 - SIGNATURE_LENGTH in
    if version <? CIPHERTEXT_CURRENT_VERSION then fail SG_ERR_LEGACY_MESSAGE
    else if CIPHERTEXT_CURRENT_VERSION <? version then fail SG_ERR_INVALID_VERSION
    else
      let* message_structure :=
        pb_unpack SenderKeyMessage (take (Z.to_nat message_len) (drop 1 data)) in
      let* m := non_null message_structure SG_ERR_INVALID_PROTO_BUF in
      match pb_num m 0, pb_num m 1, pb_bytes m 2 with
      | Some id, Some iteration, Some ciphertext =>
          let* _ := alloc in
          let* buf := signal_buffer_create ciphertext in
          let* ciphertext := non_null buf SG_ERR_NOMEM in
          let* buf := signal_buffer_create data in
          let* serialized := non_null buf SG_ERR_NOMEM in
          ret (SenderKeyMessage_ version id iteration ciphertext serialized)
      | _, _, _ => fail SG_ERR_INVALID_MESSAGE
      end.

Definition sender_key_message_copy (other_message : sender_key_message)
    : M (world U) sender_key_message :=
  sender_key_message_deserialize (skm_serialized other_message).

(** [fail] unless the signature over all but the last 64 bytes verifies. *)
Definition sender_key_message_verify_signature (message : sender_key_message)
    (signature_key : ec_public_key) : M (world U) unit :=
  let data := skm_serialized message in
  let data_len := (length data - 64)%nat in
  let* r := try (curve_verify_signature signature_key (take data_len data) (drop data_len data)) in
  match r with
  | inl result => if result =? 0 then fail SG_ERR_INVALID_MESSAGE else ret tt
  | inr _ => fail SG_ERR_INVALID_MESSAGE
  end.

(** *** Sender-key distribution messages *)

Definition sender_key_distribution_message_serialize (id iteration : Z) (chain_key : bytes)
    (signature_key : ec_public_key) : M (world U) bytes :=
  let* signingkey := ec_public_key_serialize_protobuf signature_key in
  serialize_body (version_byte CIPHERTEXT_CURRENT_VERSION) 0 SenderKeyDistributionMessage
    [[VNum id]; [VNum iteration]; [VBytes chain_key]; [VBytes signingkey]].

(** When the chain key cannot be copied, [result] is still 0 and the
    incomplete message is returned. *)
Definition sender_key_distribution_message_create (id iteration : Z) (chain_key : bytes)
    (signature_key : ec_public_key) : M (world U) sender_key_distribution_message :=
  let* _ := alloc in
  let* chain_key_buf := signal_buffer_create chain_key in
  match chain_key_buf with
  | None => ret (SenderKeyDistributionMessage_ id iteration None None None)
  | Some chain_key =>
      let* serialized :=
        sender_key_distribution_message_serialize id iteration chain_key signature_key in
      ret (SenderKeyDistributionMessage_ id iteration (Some chain_key) (Some signature_key)
             (Some serialized))
  end.

Definition sender_key_distribution_message_deserialize (data : bytes)
    : M (world U) sender_key_distribution_message :=
  let len := zlen data in
  if len <=? 1 then fail SG_ERR_INVAL
  else
    let version := byte_version (default 0 (head data)) in
    if version <? CIPHERTEXT_CURRENT_VERSION then fail SG_ERR_LEGACY_MESSAGE
    else if CIPHERTEXT_CURRENT_VERSION <? version then fail SG_ERR_INVALID_VERSION
    else
      let* message_structure := pb_unpack SenderKeyDistributionMessage (drop 1 data) in
      let* m := non_null message_structure SG_ERR_INVALID_PROTO_BUF in
      match pb_num m 0, pb_num m 1, pb_bytes m 2, pb_bytes m 3 with
      | Some id, Some iteration, Some chainkey, Some signingkey =>
          let* _ := alloc in
          let* buf := signal_buffer_create chainkey in
          let* chain_key := non_null buf SG_ERR_NOMEM in
          let* signature_key := curve_decode_point signingkey in
          let* buf := signal_buffer_create data in
          let* serialized := non_null buf SG_ERR_NOMEM in
          ret (SenderKeyDistributionMessage_ id iteration (Some chain_key) (Some signature_key)
                 (Some serialized))
      | _, _, _, _ => fail SG_ERR_INVALID_MESSAGE
      end.

(** [assert]s aside, a null [serialized] would be dereferenced. *)
Definition sender_key_distribution_message_copy (other_message : sender_key_distribution_message)
    : M (world U) sender_key_distribution_message :=
  match skdm_serialized other_message with
  | Some serialized => sender_key_distribution_message_deserialize serialized
  | None => abort
  end.
End Defs.

(** ** Lemmas *)

Lemma byte_version_of v : 0 <= v < 16 → byte_version (version_byte v) = v.
Proof.
  intros H. assert (v ∈ seqZ 0 16) as Hv by (apply elem_of_seqZ; lia).
  clear H. revert v Hv. apply Forall_forall. repeat (constructor; [reflexivity|]). constructor.
Qed.

(** ** Specification: what the MAC covers *)

(** The MAC input: from version 3 on, both encoded identity keys, then the
    serialized message. *)
Definition mac_input (version : Z) (sender receiver : ec_public_key) (serialized : bytes) : bytes :=
  (if 3 <=? version then (DJB_TYPE :: pk_data sender) ++ (DJB_TYPE :: pk_data receiver) else [])
  ++ serialized.

Section Mac.
Context {U : Type} {CP : CryptoProvider U} {HL : HmacLaws CP}.

Definition mac_of (version : Z) (sender receiver : ec_public_key) (key serialized : bytes) : bytes :=
  take 8 (hmac key (mac_input version sender receiver serialized)).

Lemma mac_of_length v s r k d : length (mac_of v s r k d) = 8%nat.
Proof. unfold mac_of. rewrite length_take, hmac_length. lia. Qed.

Lemma get_mac_calm (u : U) v sid rid k s :
  wf_pk sid → wf_pk rid →
  signal_message_get_mac v sid rid k s (calm u) = (Ok (mac_of v sid rid k s), calm u).
Proof.
  intros Hs Hr. unfold signal_message_get_mac, mac_of, mac_input.
  destruct (hmac_init_ok k) as (c & Hi & Ha).
  step_to c (calm u) by (unfold signal_hmac_sha256_init, of_res; by rewrite Hi).
  set (pre := if 3 <=? v then (DJB_TYPE :: pk_data sid) ++ (DJB_TYPE :: pk_data rid) else []).
  assert (∃ c', (if 3 <=? v then
      let* sender_key_buffer := ec_public_key_serialize (Some sid) in
      let* h := signal_hmac_sha256_update c sender_key_buffer in
      let* receiver_key_buffer := ec_public_key_serialize (Some rid) in
      signal_hmac_sha256_update h receiver_key_buffer
      else ret c) (calm u) = (Ok c', calm u) ∧ hmac_abs c' k pre) as (c' & Hc' & Ha').
  { subst pre. destruct (3 <=? v); [|by exists c].
    destruct (hmac_update_ok c k [] (DJB_TYPE :: pk_data sid) Ha) as (c1 & E1 & A1).
    destruct (hmac_update_ok c1 k _ (DJB_TYPE :: pk_data rid) A1) as (c2 & E2 & A2).
    exists c2. split; [|done].
    step (ec_public_key_serialize_calm u sid Hs).
    step_to c1 (calm u) by (unfold signal_hmac_sha256_update, of_res; by rewrite E1).
    step (ec_public_key_serialize_calm u rid Hr).
    unfold signal_hmac_sha256_update, of_res; by rewrite E2. }
  step Hc'.
  destruct (hmac_update_ok c' k pre s Ha') as (c3 & E3 & A3).
  step_to c3 (calm u) by (unfold signal_hmac_sha256_update, of_res; by rewrite E3).
  step_to (hmac k (pre ++ s)) (calm u)
    by (unfold signal_hmac_sha256_final, of_res; by rewrite (hmac_final_ok _ _ _ A3)).
  unfold zlen. rewrite hmac_length.
  change (Z.of_nat 32 <? SIGNAL_MESSAGE_MAC_LENGTH) with false. cbn iota.
  by step (signal_buffer_alloc_calm u SIGNAL_MESSAGE_MAC_LENGTH ltac:(done)).
Qed.

Lemma verify_mac_calm (u : U) m sid rid k :
  wf_pk sid → wf_pk rid → (8 <= length (msg_serialized m))%nat →
  let body := take (length (msg_serialized m) - 8) (msg_serialized m) in
  let mac := drop (length (msg_serialized m) - 8) (msg_serialized m) in
  signal_message_verify_mac m sid rid k (calm u)
  = (Ok (bool_decide (mac = mac_of (msg_message_version m) sid rid k body)), calm u).
Proof.
  intros Hs Hr Hl. unfold signal_message_verify_mac.
  step (get_mac_calm u (msg_message_version m) sid rid k
    (take (length (msg_serialized m) - 8) (msg_serialized m)) Hs Hr).
  unfold zlen. rewrite mac_of_length.
  change (negb (Z.of_nat 8 =? SIGNAL_MESSAGE_MAC_LENGTH)) with false. cbn iota.
  unfold ret. do 2 f_equal.
  apply eq_bool_prop_intro. rewrite bool_decide_spec, Is_true_true, Z.eqb_eq.
  rewrite memcmp_eq_iff; [done|apply mac_of_length|rewrite length_drop; lia].
Qed.
End Mac.

Section Roundtrips.
Context {U : Type} {CP : CryptoProvider U}.

Lemma serialize_body_calm (u : U) v extra n m :
  wt_msg PB_DEPTH n m → pb_weight PB_DEPTH m < 2 ^ 26 → 0 <= extra <= 64 →
  serialize_body v extra n m (calm u) = (Ok (v :: pb_pack n m), calm u).
Proof.
  intros Hwt Hw He. destruct (pb_roundtrip_weight u n m Hwt Hw) as (Hs & Hb & _).
  unfold serialize_body. rewrite Hs. pose proof (zlen_nonneg (pb_pack n m)).
  step (signal_buffer_alloc_calm u (1 + zlen (pb_pack n m) + extra)
    ltac:(unfold SIZE_MAX; lia)).
  by rewrite Z.eqb_refl.
Qed.

(** The packed body of a message has room for its key. *)
Lemma pb_pack_size n m : wt_msg PB_DEPTH n m → pb_weight PB_DEPTH m < 2 ^ 26 →
  zlen (pb_pack n m) = pb_get_packed_size n m ∧ zlen (pb_pack n m) < 2 ^ 26.
Proof.
  intros Hwt Hw. by destruct (pb_roundtrip_weight tt n m Hwt Hw) as (Hs & Hb & _).
Qed.

Lemma pb_unpack_nil (u : U) n :
  pb_unpack n [] (calm u) = (Ok (Some (replicate (length (d_fields (descriptor n))) [])), calm u).
Proof. by destruct n. Qed.

(** A body that unpacks to a message with a field set is not empty. *)
Lemma pb_pack_nonempty (u : U) n bs m :
  pb_unpack n bs (calm u) = (Ok (Some m), calm u) →
  m ≠ replicate (length (d_fields (descriptor n))) [] → 0 < zlen bs.
Proof.
  intros H Hm. destruct bs as [|b bs]; [|rewrite zlen_cons; pose proof (zlen_nonneg bs); lia].
  rewrite pb_unpack_nil in H. by simplify_eq.
Qed.

(** *** signal_message *)

Definition signal_message_pb (rk : ec_public_key) (c pc : Z) (ct : bytes) : pb_msg :=
  [[VBytes (DJB_TYPE :: pk_data rk)]; [VNum c]; [VNum pc]; [VBytes ct]].

Lemma signal_message_pb_ok rk c pc ct :
  wf_pk rk → is_u32 c → is_u32 pc → zlen ct < 2 ^ 25 →
  wt_msg PB_DEPTH SignalMessage (signal_message_pb rk c pc ct) ∧
  pb_weight PB_DEPTH (signal_message_pb rk c pc ct) < 2 ^ 26.
Proof.
  intros Hk Hc Hpc Hct. split.
  - repeat constructor; simpl; unfold is_u32 in *; lia.
  - unfold wf_pk, zlen in *. cbn -[Z.pow]. unfold zlen. simpl length. rewrite Hk. lia.
Qed.
Context {HL : HmacLaws CP}.

(** The serialized form of a message without its MAC. *)
Definition signal_message_body (v : Z) (rk : ec_public_key) (c pc : Z) (ct : bytes) : bytes :=
  version_byte v :: pb_pack SignalMessage (signal_message_pb rk c pc ct).

Definition made_signal_message (v : Z) (mac_key : bytes) (rk : ec_public_key) (c pc : Z)
    (ct : bytes) (sid rid : ec_public_key) : signal_message :=
  let body := signal_message_body v rk c pc ct in
  SignalMessage_ v rk c pc ct (body ++ mac_of v sid rid mac_key body).

Lemma signal_message_create_calm (u : U) v mac_key rk c pc ct sid rid :
  wf_pk rk → wf_pk sid → wf_pk rid → is_u32 c → is_u32 pc → zlen ct < 2 ^ 25 →
  signal_message_create v mac_key rk c pc ct sid rid (calm u)
  = (Ok (made_signal_message v mac_key rk c pc ct sid rid), calm u).
Proof.
  intros Hk Hs Hr Hc Hpc Hct.
  destruct (signal_message_pb_ok rk c pc ct Hk Hc Hpc Hct) as [Hwt Hw].
  unfold signal_message_create. step (alloc_calm u).
  step (signal_buffer_create_calm u ct ltac:(unfold SIZE_MAX; lia)).
  step_to ct (calm u) by done.
  step_to (signal_message_body v rk c pc ct) (calm u) by
    (unfold signal_message_serialize;
     step (ec_public_key_serialize_protobuf_calm u rk Hk);
     by apply serialize_body_calm).
  step (get_mac_calm u v sid rid mac_key (signal_message_body v rk c pc ct) Hs Hr).
  destruct (pb_pack_size _ _ Hwt Hw) as [_ Hb].
  step (signal_buffer_append_calm u (signal_message_body v rk c pc ct)
    (mac_of v sid rid mac_key (signal_message_body v rk c pc ct))
    ltac:(unfold signal_message_body; rewrite zlen_cons; unfold zlen in *;
          rewrite mac_of_length; unfold SIZE_MAX; lia)).
  done.
Qed.

Lemma signal_message_deserialize_calm (u : U) v mac_key rk c pc ct sid rid :
  2 <= v <= 3 → wf_pk rk → is_u32 c → is_u32 pc → zlen ct < 2 ^ 25 →
  let m := made_signal_message v mac_key rk c pc ct sid rid in
  signal_message_deserialize (msg_serialized m) (calm u) = (Ok m, calm u).
Proof.
  intros Hv Hk Hc Hpc Hct.
  destruct (signal_message_pb_ok rk c pc ct Hk Hc Hpc Hct) as [Hwt Hw].
  destruct (pb_roundtrip_weight u _ _ Hwt Hw) as (Hsz & Hb & Hun).
  cbn zeta. set (m := made_signal_message v mac_key rk c pc ct sid rid).
  set (body := pb_pack SignalMessage (signal_message_pb rk c pc ct)) in *.
  set (mac := mac_of v sid rid mac_key (signal_message_body v rk c pc ct)).
  assert (msg_serialized m = version_byte v :: body ++ mac) as Hm by done.
  assert (zlen mac = 8) as Hmac by (unfold zlen, mac; by rewrite mac_of_length).
  assert (0 < zlen body) as Hbody by (by eapply pb_pack_nonempty; [exact Hun|]).
  unfold signal_message_deserialize. rewrite Hm, zlen_cons, zlen_app, Hmac.
  unfold SIGNAL_MESSAGE_MAC_LENGTH, CIPHERTEXT_UNSUPPORTED_VERSION, CIPHERTEXT_CURRENT_VERSION.
  rewrite (proj2 (Z.leb_gt _ _)) by lia.
  change (default 0 (head (version_byte v :: body ++ mac))) with (version_byte v).
  rewrite byte_version_of by lia. cbn [drop].
  rewrite (proj2 (Z.leb_gt v 1)), (proj2 (Z.ltb_ge 3 v)) by lia.
  replace (Z.to_nat (1 + (zlen body + 8) - 1 - 8)) with (length body) by (unfold zlen; lia).
  rewrite drop_0, take_app_length.
  step Hun. step_to (signal_message_pb rk c pc ct) (calm u) by done.
  unfold signal_message_pb. pb_read.
  step (alloc_calm u). step (curve_decode_point_calm u (pk_data rk) Hk).
  step (signal_buffer_alloc_calm u (zlen ct) ltac:(unfold SIZE_MAX; lia)).
  step_to (replicate (Z.to_nat (zlen ct)) 0) (calm u) by done.
  step (signal_buffer_alloc_calm u (1 + (zlen body + 8)) ltac:(unfold SIZE_MAX; lia)).
  unfold bind, non_null, ret. rewrite <-Hm. by destruct rk.
Qed.

Lemma made_signal_message_size v mac_key rk c pc ct sid rid :
  wf_pk rk → is_u32 c → is_u32 pc → zlen ct < 2 ^ 24 →
  zlen (msg_serialized (made_signal_message v mac_key rk c pc ct sid rid)) < 2 ^ 25.
Proof.
  intros Hk Hc Hpc Hct.
  destruct (signal_message_pb_ok rk c pc ct Hk Hc Hpc ltac:(lia)) as [Hwt Hw].
  destruct (pb_pack_size _ _ Hwt Hw) as [Hsz _].
  pose proof (packed_size_weight PB_DEPTH SignalMessage (signal_message_pb rk c pc ct)) as Hp.
  unfold made_signal_message, signal_message_body. cbn [msg_serialized].
  rewrite <-app_comm_cons, zlen_cons, zlen_app, Hsz.
  unfold pb_get_packed_size, zlen at 1. rewrite mac_of_length.
  enough (pb_weight PB_DEPTH (signal_message_pb rk c pc ct) < 2 ^ 24 + 100) by lia.
  unfold wf_pk, zlen in *. cbn -[Z.pow Z.add]. unfold zlen. simpl length. rewrite Hk. lia.
Qed.

(** *** pre_key_signal_message *)

Definition pre_key_message_pb (reg : Z) (pkid : option Z) (spkid : Z)
    (base idk : ec_public_key) (inner : bytes) : pb_msg :=
  [opt_num pkid; [VBytes (DJB_TYPE :: pk_data base)]; [VBytes (DJB_TYPE :: pk_data idk)];
   [VBytes inner]; [VNum reg]; [VNum spkid]].

Lemma pre_key_message_pb_ok reg pkid spkid base idk inner :
  wf_pk base → wf_pk idk → is_u32 reg → (∀ z, pkid = Some z → is_u32 z) → is_u32 spkid →
  zlen inner < 2 ^ 25 →
  wt_msg PB_DEPTH PreKeySignalMessage (pre_key_message_pb reg pkid spkid base idk inner) ∧
  pb_weight PB_DEPTH (pre_key_message_pb reg pkid spkid base idk inner) < 2 ^ 26.
Proof.
  intros Hb Hi Hr Hp Hs Hin. split.
  - destruct pkid as [z|]; [specialize (Hp z eq_refl)|]; repeat constructor; simpl;
      unfold is_u32 in *; lia.
  - unfold wf_pk, zlen in *. destruct pkid; cbn -[Z.pow]; unfold zlen; simpl length;
      rewrite Hb, Hi; lia.
Qed.

Definition made_pre_key_message (reg : Z) (pkid : option Z) (spkid : Z)
    (base idk : ec_public_key) (m : signal_message) : pre_key_signal_message :=
  PreKeySignalMessage_ 3 reg pkid spkid base idk m
    (version_byte 3 :: pb_pack PreKeySignalMessage
       (pre_key_message_pb reg pkid spkid base idk (msg_serialized m))).

Lemma pre_key_signal_message_create_calm (u : U) reg pkid spkid base idk m :
  wf_pk base → wf_pk idk → is_u32 reg → (∀ z, pkid = Some z → is_u32 z) → is_u32 spkid →
  zlen (msg_serialized m) < 2 ^ 25 →
  pre_key_signal_message_create 3 reg pkid spkid base idk m (calm u)
  = (Ok (made_pre_key_message reg pkid spkid base idk m), calm u).
Proof.
  intros Hb Hi Hr Hp Hs Hin.
  destruct (pre_key_message_pb_ok reg pkid spkid base idk _ Hb Hi Hr Hp Hs Hin) as [Hwt Hw].
  unfold pre_key_signal_message_create, pre_key_signal_message_serialize.
  step (alloc_calm u).
  step_to (pkm_serialized (made_pre_key_message reg pkid spkid base idk m)) (calm u) by
    (step (ec_public_key_serialize_protobuf_calm u base Hb);
     step (ec_public_key_serialize_protobuf_calm u idk Hi);
     by apply serialize_body_calm).
  done.
Qed.

Lemma pre_key_signal_message_deserialize_calm (u : U) reg pkid spkid base idk m :
  wf_pk base → wf_pk idk → is_u32 reg → (∀ z, pkid = Some z → is_u32 z) → is_u32 spkid →
  zlen (msg_serialized m) < 2 ^ 25 → msg_message_version m = 3 →
  signal_message_deserialize (msg_serialized m) (calm u) = (Ok m, calm u) →
  let pm := made_pre_key_message reg pkid spkid base idk m in
  pre_key_signal_message_deserialize (pkm_serialized pm) (calm u) = (Ok pm, calm u).
Proof.
  intros Hb Hi Hr Hp Hs Hin Hv Hd.
  destruct (pre_key_message_pb_ok reg pkid spkid base idk _ Hb Hi Hr Hp Hs Hin) as [Hwt Hw].
  destruct (pb_roundtrip_weight u _ _ Hwt Hw) as (Hsz & Hlt & Hun).
  cbn zeta. set (pm := made_pre_key_message reg pkid spkid base idk m).
  set (body := pb_pack PreKeySignalMessage
    (pre_key_message_pb reg pkid spkid base idk (msg_serialized m))) in *.
  assert (pkm_serialized pm = version_byte 3 :: body) as Hpm by done.
  assert (0 < zlen body) as Hbody by (eapply pb_pack_nonempty; [exact Hun|by destruct pkid]).
  unfold pre_key_signal_message_deserialize. rewrite Hpm, zlen_cons.
  rewrite (proj2 (Z.leb_gt _ _)) by lia.
  change (byte_version (default 0 (head (version_byte 3 :: body)))) with 3.
  cbn [drop]. rewrite drop_0. change (3 <? CIPHERTEXT_CURRENT_VERSION) with false.
  change (CIPHERTEXT_CURRENT_VERSION <? 3) with false. cbn iota.
  step Hun. step_to (pre_key_message_pb reg pkid spkid base idk (msg_serialized m)) (calm u) by done.
  unfold pre_key_message_pb. pb_read.
  step (alloc_calm u). step (curve_decode_point_calm u (pk_data base) Hb).
  step (curve_decode_point_calm u (pk_data idk) Hi). step Hd.
  rewrite Hv. change (negb (3 =? 3)) with false. cbn iota.
  step (signal_buffer_alloc_calm u (1 + zlen body) ltac:(unfold SIZE_MAX; lia)).
  unfold bind, non_null, ret. subst pm. unfold made_pre_key_message.
  destruct base, idk, pkid; done.
Qed.
End Roundtrips.

(** *** sender_key_message *)

Section SenderKey.
Context {U : Type} {CP : CryptoProvider U} {RL : RandomLaws CP}
  {C : Curve25519} {D : DhLaws C} {SL : SignLaws C D}.

Definition sender_key_message_pb (id it : Z) (ct : bytes) : pb_msg :=
  [[VNum id]; [VNum it]; [VBytes ct]].

Lemma sender_key_message_pb_ok id it ct :
  is_u32 id → is_u32 it → zlen ct < 2 ^ 25 →
  wt_msg PB_DEPTH SenderKeyMessage (sender_key_message_pb id it ct) ∧
  pb_weight PB_DEPTH (sender_key_message_pb id it ct) < 2 ^ 26.
Proof.
  intros Hc Hpc Hct. split; [repeat constructor; simpl; unfold is_u32 in *; lia|].
  cbn -[Z.pow zlen]. lia.
Qed.

Definition sender_key_message_body (id it : Z) (ct : bytes) : bytes :=
  version_byte 3 :: pb_pack SenderKeyMessage (sender_key_message_pb id it ct).

Lemma sender_key_message_create_calm (u : U) id it ct p :
  is_u32 id → is_u32 it → zlen ct < 2 ^ 25 → wf_signing_pair p →
  ∃ sig u',
    sender_key_message_create id it ct (kp_private p) (calm u)
    = (Ok (SenderKeyMessage_ 3 id it ct (sender_key_message_body id it ct ++ sig)), calm u') ∧
    length sig = 64%nat ∧
    ∀ w : world U,
      curve_verify_signature (kp_public p) (sender_key_message_body id it ct) sig w = (Ok 1, w).
Proof.
  intros Hid Hit Hct Hp.
  destruct (sender_key_message_pb_ok id it ct Hid Hit Hct) as [Hwt Hw].
  destruct (signature_verifies u p (sender_key_message_body id it ct) Hp)
    as (sig & u' & Hs & Hl & Hv). exists sig, u'. split_and!; [|done..].
  unfold sender_key_message_create. step (alloc_calm u).
  step (signal_buffer_create_calm u ct ltac:(unfold SIZE_MAX; lia)).
  step_to ct (calm u) by done.
  erewrite (bind_ok _ _ _ (sender_key_message_body id it ct ++ sig) (calm u')); [done|].
  unfold sender_key_message_serialize.
  step (serialize_body_calm u (version_byte CIPHERTEXT_CURRENT_VERSION) SIGNATURE_LENGTH
    SenderKeyMessage _ Hwt Hw ltac:(unfold SIGNATURE_LENGTH; lia)).
  step_to (inl sig) (calm u') by (unfold try; by setoid_rewrite Hs).
  unfold zlen. by rewrite Hl.
Qed.

Lemma sender_key_message_deserialize_calm (u : U) id it ct sig :
  is_u32 id → is_u32 it → zlen ct < 2 ^ 25 → length sig = 64%nat →
  let data := sender_key_message_body id it ct ++ sig in
  sender_key_message_deserialize data (calm u) = (Ok (SenderKeyMessage_ 3 id it ct data), calm u).
Proof.
  intros Hid Hit Hct Hsig.
  destruct (sender_key_message_pb_ok id it ct Hid Hit Hct) as [Hwt Hw].
  destruct (pb_roundtrip_weight u _ _ Hwt Hw) as (Hsz & Hlt & Hun).
  cbn zeta. unfold sender_key_message_body.
  set (body := pb_pack SenderKeyMessage (sender_key_message_pb id it ct)) in *.
  assert (zlen sig = 64) as Hs64 by (unfold zlen; lia).
  assert (0 < zlen body) as Hbody by (by eapply pb_pack_nonempty; [exact Hun|]).
  unfold sender_key_message_deserialize. rewrite <-app_comm_cons, zlen_cons, zlen_app, Hs64.
  unfold SIGNATURE_LENGTH. rewrite (proj2 (Z.leb_gt _ _)) by lia.
  change (byte_version (default 0 (head (version_byte 3 :: body ++ sig)))) with 3.
  cbn [drop]. rewrite drop_0. change (3 <? CIPHERTEXT_CURRENT_VERSION) with false.
  change (CIPHERTEXT_CURRENT_VERSION <? 3) with false. cbn iota.
  replace (Z.to_nat (1 + (zlen body + 64) - 1 - 64)) with (length body) by (unfold zlen; lia).
  rewrite take_app_length. step Hun.
  step_to (sender_key_message_pb id it ct) (calm u) by done.
  unfold sender_key_message_pb. pb_read.
  step (alloc_calm u).
  step (signal_buffer_create_calm u ct ltac:(unfold SIZE_MAX; lia)).
  step_to ct (calm u) by done.
  step (signal_buffer_create_calm u (version_byte 3 :: body ++ sig)
    ltac:(rewrite zlen_cons, zlen_app; unfold SIZE_MAX; lia)).
  done.
Qed.

Lemma verify_signature_calm (w : world U) v id it ct k body sig :
  length sig = 64%nat → (∀ w : world U, curve_verify_signature k body sig w = (Ok 1, w)) →
  sender_key_message_verify_signature (SenderKeyMessage_ v id it ct (body ++ sig)) k w = (Ok tt, w).
Proof.
  intros Hl Hv. unfold sender_key_message_verify_signature. cbn [skm_serialized].
  rewrite length_app, Hl. replace (length body + 64 - 64)%nat with (length body) by lia.
  rewrite take_app_length, drop_app_length.
  step_to (inl 1) w by (unfold try; by rewrite Hv). done.
Qed.

(** *** sender_key_distribution_message *)

Definition distribution_message_pb (id it : Z) (ck : bytes) (sk : ec_public_key) : pb_msg :=
  [[VNum id]; [VNum it]; [VBytes ck]; [VBytes (DJB_TYPE :: pk_data sk)]].

Lemma distribution_message_pb_ok id it ck sk :
  is_u32 id → is_u32 it → zlen ck < 2 ^ 25 → wf_pk sk →
  wt_msg PB_DEPTH SenderKeyDistributionMessage (distribution_message_pb id it ck sk) ∧
  pb_weight PB_DEPTH (distribution_message_pb id it ck sk) < 2 ^ 26.
Proof.
  intros Hc Hpc Hct Hk. split; [repeat constructor; simpl; unfold is_u32 in *; lia|].
  cbn -[Z.pow zlen DJB_TYPE]. rewrite (zlen_cons DJB_TYPE). unfold zlen at 2. rewrite Hk. lia.
Qed.

Definition made_distribution_message (id it : Z) (ck : bytes) (sk : ec_public_key)
    : sender_key_distribution_message :=
  SenderKeyDistributionMessage_ id it (Some ck) (Some sk)
    (Some (version_byte 3 ::
       pb_pack SenderKeyDistributionMessage (distribution_message_pb id it ck sk))).

Lemma distribution_create_calm (u : U) id it ck sk :
  is_u32 id → is_u32 it → zlen ck < 2 ^ 25 → wf_pk sk →
  sender_key_distribution_message_create id it ck sk (calm u)
  = (Ok (made_distribution_message id it ck sk), calm u).
Proof.
  intros Hid Hit Hck Hk.
  destruct (distribution_message_pb_ok id it ck sk Hid Hit Hck Hk) as [Hwt Hw].
  unfold sender_key_distribution_message_create. step (alloc_calm u).
  step (signal_buffer_create_calm u ck ltac:(unfold SIZE_MAX; lia)).
  unfold sender_key_distribution_message_serialize.
  step_to (version_byte 3 :: pb_pack SenderKeyDistributionMessage
      (distribution_message_pb id it ck sk)) (calm u) by
    (step (ec_public_key_serialize_protobuf_calm u sk Hk); by apply serialize_body_calm).
  done.
Qed.

Lemma distribution_deserialize_calm (u : U) id it ck sk data :
  is_u32 id → is_u32 it → zlen ck < 2 ^ 25 → wf_pk sk →
  skdm_serialized (made_distribution_message id it ck sk) = Some data →
  sender_key_distribution_message_deserialize data (calm u)
  = (Ok (made_distribution_message id it ck sk), calm u).
Proof.
  intros Hid Hit Hck Hk [= <-].
  destruct (distribution_message_pb_ok id it ck sk Hid Hit Hck Hk) as [Hwt Hw].
  destruct (pb_roundtrip_weight u _ _ Hwt Hw) as (Hsz & Hlt & Hun).
  unfold made_distribution_message.
  set (body := pb_pack SenderKeyDistributionMessage (distribution_message_pb id it ck sk)) in *.
  assert (0 < zlen body) as Hbody by (by eapply pb_pack_nonempty; [exact Hun|]).
  unfold sender_key_distribution_message_deserialize. rewrite zlen_cons.
  rewrite (proj2 (Z.leb_gt _ _)) by lia.
  change (byte_version (default 0 (head (version_byte 3 :: body)))) with 3.
  cbn [drop]. rewrite drop_0. change (3 <? CIPHERTEXT_CURRENT_VERSION) with false.
  change (CIPHERTEXT_CURRENT_VERSION <? 3) with false. cbn iota.
  step Hun. step_to (distribution_message_pb id it ck sk) (calm u) by done.
  unfold distribution_message_pb. pb_read.
  step (alloc_calm u).
  step (signal_buffer_create_calm u ck ltac:(unfold SIZE_MAX; lia)).
  step_to ck (calm u) by done.
  step (curve_decode_point_calm u (pk_data sk) Hk).
  step (signal_buffer_create_calm u (version_byte 3 :: body)
    ltac:(rewrite zlen_cons; unfold SIZE_MAX; lia)).
  by destruct sk.
Qed.
End SenderKey.

(** ** Totality of the parsers *)

Section Total.
Context {U : Type} {CP : CryptoProvider U} {C : Curve25519}.

(** What an accepted message guarantees its users. *)
Definition wf_signal_message (data : bytes) (m : signal_message) : Prop :=
  2 <= msg_message_version m <= 3 ∧ wf_pk (msg_sender_ratchet_key m) ∧
  msg_serialized m = data ∧ (9 < length data)%nat.

Lemma ends_signal_message_deserialize data :
  ends (S:=world U) (signal_message_deserialize data) (wf_signal_message data).
Proof.
  unfold signal_message_deserialize. destruct (_ <=? _) eqn:El; [apply ends_fail|].
  destruct (_ <=? CIPHERTEXT_UNSUPPORTED_VERSION) eqn:E1; [apply ends_fail|].
  destruct (CIPHERTEXT_CURRENT_VERSION <? _) eqn:E2; [apply ends_fail|].
  apply Z.leb_gt in El, E1. apply Z.ltb_ge in E2.
  unfold CIPHERTEXT_UNSUPPORTED_VERSION, CIPHERTEXT_CURRENT_VERSION in *.
  ends_step ends_pb_unpack. eapply ends_bind; [by apply (ends_non_null _ _ (λ _, True))|].
  intros m _. destruct (pb_bytes m 3), (pb_num m 1), (pb_bytes m 0); try apply ends_fail.
  ends_step ends_alloc. ends_step ends_curve_decode_point. ends_step ends_signal_buffer_alloc.
  eapply ends_bind; [by apply (ends_non_null _ _ (λ _, True))|intros _ _].
  ends_step ends_signal_buffer_alloc.
  eapply ends_bind; [by apply (ends_non_null _ _ (λ _, True))|intros _ _].
  apply ends_ret. unfold SIGNAL_MESSAGE_MAC_LENGTH, zlen in El. split_and!; simpl; [lia..|done|done|lia].
Qed.

Lemma ends_pre_key_signal_message_deserialize data :
  ends (S:=world U) (pre_key_signal_message_deserialize data)
    (λ m, pkm_version m = 3 ∧ wf_pk (pkm_base_key m) ∧ wf_pk (pkm_identity_key m) ∧
       pkm_serialized m = data ∧ msg_message_version (pkm_message m) = 3 ∧
       wf_signal_message (msg_serialized (pkm_message m)) (pkm_message m)).
Proof.
  unfold pre_key_signal_message_deserialize. destruct (_ <=? _) eqn:El; [apply ends_fail|].
  destruct (_ <? CIPHERTEXT_CURRENT_VERSION) eqn:E1; [apply ends_fail|].
  destruct (CIPHERTEXT_CURRENT_VERSION <? _) eqn:E2; [apply ends_fail|].
  apply Z.ltb_ge in E1, E2. unfold CIPHERTEXT_CURRENT_VERSION in *.
  ends_step ends_pb_unpack. eapply ends_bind; [by apply (ends_non_null _ _ (λ _, True))|].
  intros m _. destruct (pb_num m 5), (pb_bytes m 1), (pb_bytes m 2), (pb_bytes m 3);
    try apply ends_fail.
  ends_step ends_alloc. ends_step ends_curve_decode_point. ends_step ends_curve_decode_point.
  eapply ends_bind; [apply ends_signal_message_deserialize|]. intros inner Hinner.
  destruct (negb _) eqn:Ev; [apply ends_fail|]. apply negb_false_iff, Z.eqb_eq in Ev.
  ends_step ends_signal_buffer_alloc.
  eapply ends_bind; [by apply (ends_non_null _ _ (λ _, True))|intros _ _].
  apply ends_ret. split_and!; simpl; try done; [lia..|].
  destruct Hinner as (? & ? & Hser & ?). unfold wf_signal_message. by rewrite Hser.
Qed.

Lemma ends_sender_key_message_deserialize data :
  ends (S:=world U) (sender_key_message_deserialize data)
    (λ m, skm_message_version m = 3 ∧ skm_serialized m = data ∧ (65 < length data)%nat).
Proof.
  unfold sender_key_message_deserialize. destruct (_ <=? _) eqn:El; [apply ends_fail|].
  destruct (_ <? CIPHERTEXT_CURRENT_VERSION) eqn:E1; [apply ends_fail|].
  destruct (CIPHERTEXT_CURRENT_VERSION <? _) eqn:E2; [apply ends_fail|].
  apply Z.leb_gt in El. apply Z.ltb_ge in E1, E2. unfold CIPHERTEXT_CURRENT_VERSION in *.
  ends_step ends_pb_unpack. eapply ends_bind; [by apply (ends_non_null _ _ (λ _, True))|].
  intros m _. destruct (pb_num m 0), (pb_num m 1), (pb_bytes m 2); try apply ends_fail.
  ends_step ends_alloc. ends_step ends_signal_buffer_create.
  eapply ends_bind; [by apply (ends_non_null _ _ (λ _, True))|intros ct _].
  eapply ends_bind; [apply ends_signal_buffer_create|intros o Ho].
  eapply ends_bind; [by apply (ends_non_null _ _ (λ b, b = data))|intros _ ->].
  apply ends_ret. unfold SIGNATURE_LENGTH, zlen in El. split_and!; simpl; [lia|done|lia].
Qed.

Lemma ends_sender_key_distribution_message_deserialize data :
  ends (S:=world U) (sender_key_distribution_message_deserialize data)
    (λ m, skdm_serialized m = Some data ∧ is_Some (skdm_chain_key m) ∧
       ∃ k, skdm_signature_key m = Some k ∧ wf_pk k).
Proof.
  unfold sender_key_distribution_message_deserialize.
  destruct (_ <=? _) eqn:El; [apply ends_fail|].
  destruct (_ <? CIPHERTEXT_CURRENT_VERSION) eqn:E1; [apply ends_fail|].
  destruct (CIPHERTEXT_CURRENT_VERSION <? _) eqn:E2; [apply ends_fail|].
  ends_step ends_pb_unpack. eapply ends_bind; [by apply (ends_non_null _ _ (λ _, True))|].
  intros m _. destruct (pb_num m 0), (pb_num m 1), (pb_bytes m 2), (pb_bytes m 3);
    try apply ends_fail.
  ends_step ends_alloc. ends_step ends_signal_buffer_create.
  eapply ends_bind; [by apply (ends_non_null _ _ (λ _, True))|intros ct _].
  ends_step ends_curve_decode_point.
  eapply ends_bind; [apply ends_signal_buffer_create|intros o Ho].
  eapply ends_bind; [by apply (ends_non_null _ _ (λ b, b = data))|intros _ ->].
  apply ends_ret. split_and!; simpl; [done|by eexists|by eexists].
Qed.

(** C27: parsing untrusted data is total.  On any bytes and whichever
    allocations fail, each of the four deserializers ends with an error code or
    a message: it never crashes or loops.  An accepted message is the one it
    was given, has a supported version, room for its MAC or signature, and
    32-byte keys; the message inside a pre-key message has the same version. *)
Theorem message_parsers_total (data : bytes) (w : world U) :
  match (signal_message_deserialize data w).1 with
  | Ok m => wf_signal_message data m | Err _ => True | _ => False end ∧
  match (pre_key_signal_message_deserialize data w).1 with
  | Ok m => pkm_version m = 3 ∧ wf_pk (pkm_base_key m) ∧ wf_pk (pkm_identity_key m) ∧
      pkm_serialized m = data ∧ msg_message_version (pkm_message m) = 3 ∧
      wf_signal_message (msg_serialized (pkm_message m)) (pkm_message m)
  | Err _ => True | _ => False end ∧
  match (sender_key_message_deserialize data w).1 with
  | Ok m => skm_message_version m = 3 ∧ skm_serialized m = data ∧ (65 < length data)%nat
  | Err _ => True | _ => False end ∧
  match (sender_key_distribution_message_deserialize data w).1 with
  | Ok m => skdm_serialized m = Some data ∧ is_Some (skdm_chain_key m) ∧
      ∃ k, skdm_signature_key m = Some k ∧ wf_pk k
  | Err _ => True | _ => False end.
Proof.
  split_and!; [apply ends_signal_message_deserialize
    | apply ends_pre_key_signal_message_deserialize
    | apply ends_sender_key_message_deserialize
    | apply ends_sender_key_distribution_message_deserialize].
Qed.

(** When memory for the copy of the chain key runs out,
    [sender_key_distribution_message_create] still reports success, with a
    message whose chain key, signature key and serialized form are null:
    [result] is not set on that path. *)
Theorem distribution_create_nomem (id it : Z) (ck : bytes) (sk : ec_public_key) (u : U) :
  sender_key_distribution_message_create id it ck sk (World (Some 1%nat) u)
  = (Ok (SenderKeyDistributionMessage_ id it None None None), World (Some 0%nat) u) ∧
  ∃ w', sender_key_distribution_message_copy
    (SenderKeyDistributionMessage_ id it None None None) (World (Some 0%nat) u) = (Abort, w').
Proof.
  split; [|by eexists].
  unfold sender_key_distribution_message_create, signal_buffer_create, signal_buffer_alloc, bind.
  simpl. by destruct (_ <? _).
Qed.
End Total.

(** ** The round trips *)

Section Claims.
Context {U : Type} {CP : CryptoProvider U} {HL : HmacLaws CP} {RL : RandomLaws CP}
  {C : Curve25519} {D : DhLaws C} {SL : SignLaws C D}.

(** a signal message of version 2 or 3 with 32-bit counters and a
    ciphertext below 32 MB can be created, its serialized form parses back to
    the same message, and the MAC verifies under the key and the identities
    it was made with. *)
Theorem signal_message_roundtrip (u : U) (v : Z) (mac_key ct : bytes) (c pc : Z)
    (rk sid rid : ec_public_key) :
  2 <= v <= 3 → wf_pk rk → wf_pk sid → wf_pk rid → is_u32 c → is_u32 pc → zlen ct < 2 ^ 25 →
  ∃ m, signal_message_create v mac_key rk c pc ct sid rid (calm u) = (Ok m, calm u) ∧
    m = SignalMessage_ v rk c pc ct (msg_serialized m) ∧
    signal_message_deserialize (msg_serialized m) (calm u) = (Ok m, calm u) ∧
    signal_message_verify_mac m sid rid mac_key (calm u) = (Ok true, calm u).
Proof.
  intros Hv Hk Hs Hr Hc Hpc Hct. exists (made_signal_message v mac_key rk c pc ct sid rid).
  split_and!; [by apply signal_message_create_calm|done|by apply signal_message_deserialize_calm|].
  set (m := made_signal_message v mac_key rk c pc ct sid rid).
  set (body := signal_message_body v rk c pc ct).
  assert (length (msg_serialized m) - 8 = length body)%nat as Hlen.
  { unfold m, made_signal_message. cbn [msg_serialized]. rewrite length_app, mac_of_length.
    fold body. lia. }
  rewrite verify_mac_calm; [|done..|].
  - do 2 f_equal. apply bool_decide_eq_true. rewrite Hlen. unfold m, made_signal_message.
    cbn [msg_serialized msg_message_version]. fold body. by rewrite drop_app_length, take_app_length.
  - unfold m, made_signal_message. cbn [msg_serialized]. rewrite length_app, mac_of_length. lia.
Qed.

(** C28: [signal_message_verify_mac] accepts a message exactly when its last 8
    bytes are the truncated HMAC of everything before them, prefixed from
    version 3 on with the sender's and the receiver's identity key. *)
Theorem signal_message_verify_mac_exact (u : U) (m : signal_message)
    (sid rid : ec_public_key) (mac_key body mac : bytes) :
  wf_pk sid → wf_pk rid → msg_serialized m = body ++ mac → length mac = 8%nat →
  ∃ b, signal_message_verify_mac m sid rid mac_key (calm u) = (Ok b, calm u) ∧
    (b = true ↔ mac = take 8 (hmac mac_key
       (if 3 <=? msg_message_version m
        then (5 :: pk_data sid) ++ (5 :: pk_data rid) ++ body else body))).
Proof.
  intros Hs Hr Hm Hl.
  assert (length (msg_serialized m) - 8 = length body)%nat as Hlen
    by (rewrite Hm, length_app; lia).
  eexists. split; [apply verify_mac_calm; [done..|]|].
  { rewrite Hm, length_app. lia. }
  rewrite bool_decide_eq_true, Hlen, Hm, drop_app_length, take_app_length.
  unfold mac_of, mac_input. destruct (3 <=? _); by rewrite <-?app_assoc.
Qed.

(** a pre-key message around a freshly made version-3 message can be
    created and parses back to itself, with its optional one-time pre-key id
    present exactly when it was given. *)
Theorem pre_key_message_roundtrip (u : U) (reg spkid : Z) (pkid : option Z)
    (base idk : ec_public_key) (mac_key ct : bytes) (c pc : Z) (rk sid rid : ec_public_key) :
  wf_pk base → wf_pk idk → is_u32 reg → (∀ z, pkid = Some z → is_u32 z) → is_u32 spkid →
  wf_pk rk → wf_pk sid → wf_pk rid → is_u32 c → is_u32 pc → zlen ct < 2 ^ 24 →
  ∃ m pm, signal_message_create 3 mac_key rk c pc ct sid rid (calm u) = (Ok m, calm u) ∧
    pre_key_signal_message_create 3 reg pkid spkid base idk m (calm u) = (Ok pm, calm u) ∧
    pm = PreKeySignalMessage_ 3 reg pkid spkid base idk m (pkm_serialized pm) ∧
    pre_key_signal_message_deserialize (pkm_serialized pm) (calm u) = (Ok pm, calm u).
Proof.
  intros Hb Hi Hr Hp Hsp Hk Hs Hri Hc Hpc Hct.
  assert (zlen ct < 2 ^ 25) by lia.
  set (m := made_signal_message 3 mac_key rk c pc ct sid rid).
  assert (zlen (msg_serialized m) < 2 ^ 25) by (by apply made_signal_message_size).
  exists m, (made_pre_key_message reg pkid spkid base idk m). split_and!;
    [by apply signal_message_create_calm|by apply pre_key_signal_message_create_calm|done|].
  apply pre_key_signal_message_deserialize_calm; try done.
  by apply signal_message_deserialize_calm.
Qed.

(** A sender-key message signed with a clamped private key parses back to
    itself and its signature verifies under the matching public key. *)
Theorem sender_key_message_roundtrip (u : U) (id it : Z) (ct : bytes) (p : ec_key_pair) :
  is_u32 id → is_u32 it → zlen ct < 2 ^ 25 → wf_signing_pair p →
  ∃ m u', sender_key_message_create id it ct (kp_private p) (calm u) = (Ok m, calm u') ∧
    m = SenderKeyMessage_ 3 id it ct (skm_serialized m) ∧
    sender_key_message_deserialize (skm_serialized m) (calm u) = (Ok m, calm u) ∧
    sender_key_message_verify_signature m (kp_public p) (calm u) = (Ok tt, calm u).
Proof.
  intros Hid Hit Hct Hp.
  destruct (sender_key_message_create_calm u id it ct p Hid Hit Hct Hp) as (sig & u' & Hc & Hl & Hv).
  eexists _, u'. split_and!; [exact Hc|done|by apply sender_key_message_deserialize_calm|].
  by apply verify_signature_calm.
Qed.

End Claims.

Import Toy.

Definition witness_pk (b : Z) : ec_public_key := EcPublicKey (replicate 32 b).

Lemma signal_message_roundtrip_witness :
  ∃ m, signal_message_create 3 [1; 2] (witness_pk 1) 4 0 [9; 9] (witness_pk 2) (witness_pk 3)
      (calm 0) = (Ok m, calm 0) ∧
    m = SignalMessage_ 3 (witness_pk 1) 4 0 [9; 9] (msg_serialized m) ∧
    signal_message_deserialize (msg_serialized m) (calm 0) = (Ok m, calm 0) ∧
    signal_message_verify_mac m (witness_pk 2) (witness_pk 3) [1; 2] (calm 0) = (Ok true, calm 0).
Proof. apply signal_message_roundtrip; (split; lia) || reflexivity || lia. Defined.

Lemma signal_message_verify_mac_witness :
  ∃ b, signal_message_verify_mac
      (SignalMessage_ 3 (witness_pk 1) 4 0 [9] (replicate 20 1 ++ replicate 8 0))
      (witness_pk 2) (witness_pk 3) [1; 2] (calm 0) = (Ok b, calm 0) ∧
    (b = true ↔ replicate 8 0 = take 8 (hmac [1; 2]
       (if 3 <=? 3 then (5 :: replicate 32 2) ++ (5 :: replicate 32 3) ++ replicate 20 1
        else replicate 20 1))).
Proof.
  apply (signal_message_verify_mac_exact 0
    (SignalMessage_ 3 (witness_pk 1) 4 0 [9] (replicate 20 1 ++ replicate 8 0))); reflexivity.
Defined.

Lemma pre_key_message_roundtrip_witness :
  ∃ m pm, signal_message_create 3 [1; 2] (witness_pk 1) 4 0 [9; 9] (witness_pk 2) (witness_pk 3)
      (calm 0) = (Ok m, calm 0) ∧
    pre_key_signal_message_create 3 77 (Some 8) 9 (witness_pk 4) (witness_pk 5) m (calm 0)
      = (Ok pm, calm 0) ∧
    pm = PreKeySignalMessage_ 3 77 (Some 8) 9 (witness_pk 4) (witness_pk 5) m
           (pkm_serialized pm) ∧
    pre_key_signal_message_deserialize (pkm_serialized pm) (calm 0) = (Ok pm, calm 0).
Proof.
  apply pre_key_message_roundtrip; try (reflexivity || (split; lia)).
  intros z [= <-]. split; lia.
Defined.

Lemma sender_key_message_roundtrip_witness :
  let p := pair_of (replicate 32 200) in
  ∃ m u', sender_key_message_create 1 2 [3] (kp_private p) (calm 0) = (Ok m, calm u') ∧
    m = SenderKeyMessage_ 3 1 2 [3] (skm_serialized m) ∧
    sender_key_message_deserialize (skm_serialized m) (calm 0) = (Ok m, calm 0) ∧
    sender_key_message_verify_signature m (kp_public p) (calm 0) = (Ok tt, calm 0).
Proof.
  apply sender_key_message_roundtrip; try (reflexivity || (split; lia)).
  apply pair_of_signs; [done|by repeat constructor].
Defined.

