(* ===== verification/SessionSerial.v ===== *)
(** Serialization of the session state (session_state.c, lines 153-1252).

    A message structure is filled field by field ([session_state_serialize_prepare]
    and its helpers), packed, unpacked and read back
    ([session_state_deserialize_protobuf] and its helpers).  The pure functions
    [session_pb] and the like are the structures a session is stored as. *)

From S2P Require Import Prelude Buffer Provider Hkdf Curve Ratchet SessionState Protobuf.
From S2P Require Import ProtobufSpec Wire.

Section Defs.
Context {U : Type}.

(** ** Filling the message structures *)

Definition session_state_serialize_prepare_chain_chain_key (chain_key : ratchet_chain_key)
    : M (world U) pb_msg :=
  let* _ := alloc in
  let* key := ratchet_chain_key_get_key_protobuf chain_key in
  ret [[VNum (ratchet_chain_key_get_index chain_key)]; [VBytes key]].

Definition session_state_serialize_prepare_message_keys (message_key : ratchet_message_keys)
    : M (world U) pb_msg :=
  let* _ := alloc in
  let* _ := alloc in
  let* _ := alloc in
  ret [[VNum (mk_counter message_key)]; [VBytes (mk_cipher_key message_key)];
       [VBytes (mk_mac_key message_key)]; [VBytes (mk_iv message_key)]].

(** Called with a non-empty list only. *)
Definition session_state_serialize_prepare_chain_message_keys_list
    (message_keys : list ratchet_message_keys) : M (world U) (list pb_msg) :=
  let* _ := alloc in
  mapM_list (λ mk, let* _ := alloc in session_state_serialize_prepare_message_keys mk) message_keys.

(** A key pair as the two fields of its halves. *)
Definition serialize_pair (public_key : ec_public_key) (private_key : ec_private_key)
    : M (world U) (bytes * bytes) :=
  let* pub := ec_public_key_serialize_protobuf public_key in
  let* priv := ec_private_key_serialize_protobuf private_key in
  ret (pub, priv).

Definition session_state_serialize_prepare_sender_chain (chain : session_state_sender_chain)
    : M (world U) pb_msg :=
  let* halves := opt_mapM (λ kp, serialize_pair (ec_key_pair_get_public kp)
    (ec_key_pair_get_private kp)) (sc_ratchet_key_pair chain) in
  let* chain_key := opt_mapM session_state_serialize_prepare_chain_chain_key (sc_chain_key chain) in
  ret [opt_bytes (fst <$> halves); opt_bytes (snd <$> halves); opt_sub chain_key; []].

Definition session_state_serialize_prepare_receiver_chain (chain : session_state_receiver_chain)
    : M (world U) pb_msg :=
  let* key := opt_mapM ec_public_key_serialize_protobuf (rc_ratchet_key chain) in
  let* chain_key := opt_mapM session_state_serialize_prepare_chain_chain_key (rc_chain_key chain) in
  let* message_keys := match rc_message_keys chain with
                       | [] => ret []
                       | l => session_state_serialize_prepare_chain_message_keys_list l
                       end in
  ret [opt_bytes key; []; opt_sub chain_key; VMsg <$> message_keys].

Definition session_state_serialize_prepare_pending_key_exchange
    (exchange : session_pending_key_exchange) : M (world U) pb_msg :=
  let* base := opt_mapM (λ kp, serialize_pair (ec_key_pair_get_public kp)
    (ec_key_pair_get_private kp)) (pke_local_base_key exchange) in
  let* ratchet := opt_mapM (λ kp, serialize_pair (ec_key_pair_get_public kp)
    (ec_key_pair_get_private kp)) (pke_local_ratchet_key exchange) in
  let* identity := opt_mapM (λ kp, serialize_pair (ik_public kp) (ik_private kp))
    (pke_local_identity_key exchange) in
  ret [[VNum (pke_sequence exchange)];
       opt_bytes (fst <$> base); opt_bytes (snd <$> base);
       opt_bytes (fst <$> ratchet); opt_bytes (snd <$> ratchet);
       opt_bytes (fst <$> identity); opt_bytes (snd <$> identity)].

(** [signedprekeyid] is an [int32_t] field. *)
Definition session_state_serialize_prepare_pending_pre_key (pre_key : session_pending_pre_key)
    : M (world U) pb_msg :=
  let* base := opt_mapM ec_public_key_serialize_protobuf (ppk_base_key pre_key) in
  ret [if ppk_has_pre_key_id pre_key then [VNum (ppk_pre_key_id pre_key)] else [];
       opt_bytes base; [VNum (s32 (ppk_signed_pre_key_id pre_key))]].

Definition session_state_serialize_prepare (state : session_state) : M (world U) pb_msg :=
  let* local := opt_mapM ec_public_key_serialize_protobuf (ss_local_identity_public state) in
  let* remote := opt_mapM ec_public_key_serialize_protobuf (ss_remote_identity_public state) in
  let* root := opt_mapM ratchet_root_key_get_key_protobuf (ss_root_key state) in
  let* sender := (if ss_has_sender_chain state then
      let* _ := alloc in
      let* m := session_state_serialize_prepare_sender_chain (ss_sender_chain state) in
      ret (Some m)
    else ret None) in
  let* receivers := match ss_receiver_chains state with
    | [] => ret []
    | chains =>
        let* _ := alloc in
        mapM_list (λ c, let* _ := alloc in session_state_serialize_prepare_receiver_chain c) chains
    end in
  let* exchange := (if ss_has_pending_key_exchange state then
      let* _ := alloc in
      let* m := session_state_serialize_prepare_pending_key_exchange
        (ss_pending_key_exchange state) in
      ret (Some m)
    else ret None) in
  let* pre_key := (if ss_has_pending_pre_key state then
      let* _ := alloc in
      let* m := session_state_serialize_prepare_pending_pre_key (ss_pending_pre_key state) in
      ret (Some m)
    else ret None) in
  let* alice := opt_mapM ec_public_key_serialize_protobuf (ss_alice_base_key state) in
  ret [[VNum (ss_session_version state)]; opt_bytes local; opt_bytes remote; opt_bytes root;
       [VNum (ss_previous_counter state)]; opt_sub sender; VMsg <$> receivers;
       opt_sub exchange; opt_sub pre_key;
       [VNum (ss_remote_registration_id state)]; [VNum (ss_local_registration_id state)];
       [VNum (if ss_needs_refresh state then 1 else 0)]; opt_bytes alice].

Definition session_state_serialize (state : session_state) : M (world U) bytes :=
  let* _ := alloc in
  let* m := session_state_serialize_prepare state in
  pb_to_buffer SessionStructure m.

(** ** Reading them back *)

(** Both halves must be present. *)
Definition decode_pair (pub priv : option bytes)
    : M (world U) (option (ec_public_key * ec_private_key)) :=
  match pub, priv with
  | Some pub, Some priv =>
      let* public_key := curve_decode_point pub in
      let* private_key := curve_decode_private_point priv in
      ret (Some (public_key, private_key))
  | _, _ => ret None
  end.

Definition decode_key_pair (pub priv : option bytes) : M (world U) (option ec_key_pair) :=
  let* halves := decode_pair pub priv in
  opt_mapM (λ p, ec_key_pair_create p.1 p.2) halves.

Definition session_state_deserialize_protobuf_pending_key_exchange (m : pb_msg)
    : M (world U) session_pending_key_exchange :=
  let* base := decode_key_pair (pb_bytes m 1) (pb_bytes m 2) in
  let* ratchet := decode_key_pair (pb_bytes m 3) (pb_bytes m 4) in
  let* halves := decode_pair (pb_bytes m 5) (pb_bytes m 6) in
  let* identity := opt_mapM (λ p, ratchet_identity_key_pair_create p.1 p.2) halves in
  ret (PendingKeyExchange (default 0 (pb_num m 0)) base ratchet identity).

Definition session_state_deserialize_protobuf_pending_pre_key (m : pb_msg)
    : M (world U) session_pending_pre_key :=
  let* base := opt_mapM curve_decode_point (pb_bytes m 1) in
  ret (PendingPreKey (bool_decide (is_Some (pb_num m 0))) (default 0 (pb_num m 0))
         (default 0 (u32 <$> pb_num m 2)) base).

(** [chainkey && chainkey->has_key && chainkey->has_index] *)
Definition decode_chain_key (session_version : Z) (chainkey : option pb_msg)
    : M (world U) (option ratchet_chain_key) :=
  match chainkey with
  | Some ck =>
      match pb_bytes ck 1, pb_num ck 0 with
      | Some key, Some index =>
          let* kdf := hkdf_create (s32 session_version) in
          let* chain_key := ratchet_chain_key_create (Some kdf) (data_ptr key) index in
          ret (Some chain_key)
      | _, _ => ret None
      end
  | None => ret None
  end.

Definition session_state_deserialize_protobuf_sender_chain (session_version : Z) (m : pb_msg)
    : M (world U) session_state_sender_chain :=
  let* halves := decode_key_pair (pb_bytes m 0) (pb_bytes m 1) in
  let* chain_key := decode_chain_key session_version (pb_sub m 2) in
  ret (SenderChain halves chain_key).

(** A field of the wrong length leaves the zeros of [memset]. *)
Definition fixed_bytes (n : nat) (o : option bytes) : bytes :=
  match o with
  | Some b => if (length b =? n)%nat then b else replicate n 0
  | None => replicate n 0
  end.

Definition session_state_deserialize_protobuf_receiver_chain (session_version : Z) (m : pb_msg)
    : M (world U) session_state_receiver_chain :=
  let* key := opt_mapM curve_decode_point (pb_bytes m 0) in
  let* chain_key := decode_chain_key session_version (pb_sub m 2) in
  let* message_keys := mapM_list (λ k,
    let* _ := alloc in
    ret (RatchetMessageKeys (fixed_bytes 32 (pb_bytes k 1)) (fixed_bytes 32 (pb_bytes k 2))
           (fixed_bytes 16 (pb_bytes k 3)) (default 0 (pb_num k 0)))) (pb_subs m 3) in
  ret (ReceiverChain key chain_key message_keys).

(** The result of reading the sender chain is not assigned to [result]: on a
    failure the chain stays null and [has_sender_chain] is set. *)
Definition session_state_deserialize_protobuf (m : pb_msg) : M (world U) session_state :=
  let* result_state := session_state_create in
  let version := default (ss_session_version result_state) (pb_num m 0) in
  let* local := opt_mapM curve_decode_point (pb_bytes m 1) in
  let* remote := opt_mapM curve_decode_point (pb_bytes m 2) in
  let* root := opt_mapM (λ key,
    let* kdf := hkdf_create (s32 version) in
    ratchet_root_key_create (Some kdf) (data_ptr key)) (pb_bytes m 3) in
  let* sender := opt_mapM (λ c,
    let* r := try (session_state_deserialize_protobuf_sender_chain version c) in
    ret (match r with inl chain => chain | inr _ => no_sender_chain end)) (pb_sub m 5) in
  let* receivers := mapM_list (λ c,
    let* _ := alloc in
    session_state_deserialize_protobuf_receiver_chain version c) (pb_subs m 6) in
  let* exchange := opt_mapM session_state_deserialize_protobuf_pending_key_exchange (pb_sub m 7) in
  let* pre_key := opt_mapM session_state_deserialize_protobuf_pending_pre_key (pb_sub m 8) in
  let* alice := opt_mapM curve_decode_point (pb_bytes m 12) in
  ret (SessionState version local remote root (default 0 (pb_num m 4))
         (bool_decide (is_Some sender)) (default no_sender_chain sender) receivers
         (bool_decide (is_Some exchange)) (default no_pending_key_exchange exchange)
         (bool_decide (is_Some pre_key)) (default no_pending_pre_key pre_key)
         (default 0 (pb_num m 9)) (default 0 (pb_num m 10))
         (negb (default 0 (pb_num m 11) =? 0)) alice).

Definition session_state_deserialize (data : bytes) : M (world U) session_state :=
  let* m := pb_unpack SessionStructure data in
  let* m := non_null m SG_ERR_INVALID_PROTO_BUF in
  session_state_deserialize_protobuf m.

Definition session_state_copy (other_state : session_state) : M (world U) session_state :=
  let* data := session_state_serialize other_state in
  session_state_deserialize data.
End Defs.

(** ** The stored form *)

Definition pk_pb (k : ec_public_key) : bytes := DJB_TYPE :: pk_data k.

Definition chain_key_pb (ck : ratchet_chain_key) : pb_msg :=
  [[VNum (ck_index ck)]; [VBytes (ck_key ck)]].
Definition message_keys_pb (mk : ratchet_message_keys) : pb_msg :=
  [[VNum (mk_counter mk)]; [VBytes (mk_cipher_key mk)]; [VBytes (mk_mac_key mk)];
   [VBytes (mk_iv mk)]].
Definition sender_chain_pb (c : session_state_sender_chain) : pb_msg :=
  let kp := sc_ratchet_key_pair c in
  [opt_bytes (pk_pb ∘ kp_public <$> kp); opt_bytes (sk_data ∘ kp_private <$> kp);
   opt_sub (chain_key_pb <$> sc_chain_key c); []].
Definition receiver_chain_pb (c : session_state_receiver_chain) : pb_msg :=
  [opt_bytes (pk_pb <$> rc_ratchet_key c); []; opt_sub (chain_key_pb <$> rc_chain_key c);
   VMsg <$> (message_keys_pb <$> rc_message_keys c)].
Definition pending_key_exchange_pb (x : session_pending_key_exchange) : pb_msg :=
  let base := pke_local_base_key x in
  let ratchet := pke_local_ratchet_key x in
  let identity := pke_local_identity_key x in
  [[VNum (pke_sequence x)];
   opt_bytes (pk_pb ∘ kp_public <$> base); opt_bytes (sk_data ∘ kp_private <$> base);
   opt_bytes (pk_pb ∘ kp_public <$> ratchet); opt_bytes (sk_data ∘ kp_private <$> ratchet);
   opt_bytes (pk_pb ∘ ik_public <$> identity); opt_bytes (sk_data ∘ ik_private <$> identity)].
Definition pending_pre_key_pb (p : session_pending_pre_key) : pb_msg :=
  [if ppk_has_pre_key_id p then [VNum (ppk_pre_key_id p)] else [];
   opt_bytes (pk_pb <$> ppk_base_key p); [VNum (s32 (ppk_signed_pre_key_id p))]].
Definition session_pb (s : session_state) : pb_msg :=
  [[VNum (ss_session_version s)]; opt_bytes (pk_pb <$> ss_local_identity_public s);
   opt_bytes (pk_pb <$> ss_remote_identity_public s); opt_bytes (rk_key <$> ss_root_key s);
   [VNum (ss_previous_counter s)];
   if ss_has_sender_chain s then [VMsg (sender_chain_pb (ss_sender_chain s))] else [];
   VMsg <$> (receiver_chain_pb <$> ss_receiver_chains s);
   if ss_has_pending_key_exchange s
   then [VMsg (pending_key_exchange_pb (ss_pending_key_exchange s))] else [];
   if ss_has_pending_pre_key s then [VMsg (pending_pre_key_pb (ss_pending_pre_key s))] else [];
   [VNum (ss_remote_registration_id s)]; [VNum (ss_local_registration_id s)];
   [VNum (if ss_needs_refresh s then 1 else 0)]; opt_bytes (pk_pb <$> ss_alice_base_key s)].

(** ** Storable sessions

    Serialization keeps neither the kdf of a key, which is recomputed from the
    session version, nor what is behind an unset flag. *)

Definition opt_all {A} (P : A → Prop) (o : option A) : Prop := ∀ a, o = Some a → P a.

Definition stored_pair (kp : ec_key_pair) : Prop := wf_pk (kp_public kp) ∧ wf_sk (kp_private kp).
Definition stored_identity (kp : ratchet_identity_key_pair) : Prop :=
  wf_pk (ik_public kp) ∧ wf_sk (ik_private kp).
Definition stored_chain_key (version : Z) (ck : ratchet_chain_key) : Prop :=
  ck_kdf ck = HkdfContext (version - 2) ∧ length (ck_key ck) = 32%nat ∧ is_u32 (ck_index ck).
Definition stored_root_key (version : Z) (rk : ratchet_root_key) : Prop :=
  rk_kdf rk = HkdfContext (version - 2) ∧ length (rk_key rk) = 32%nat.
Definition stored_message_keys (mk : ratchet_message_keys) : Prop :=
  wf_mk mk ∧ is_u32 (mk_counter mk).
Definition stored_sender_chain (version : Z) (c : session_state_sender_chain) : Prop :=
  opt_all stored_pair (sc_ratchet_key_pair c) ∧
  opt_all (stored_chain_key version) (sc_chain_key c).
Definition stored_receiver_chain (version : Z) (c : session_state_receiver_chain) : Prop :=
  opt_all wf_pk (rc_ratchet_key c) ∧ opt_all (stored_chain_key version) (rc_chain_key c) ∧
  Forall stored_message_keys (rc_message_keys c) ∧
  (length (rc_message_keys c) ≤ MAX_MESSAGE_KEYS)%nat.
Definition stored_pending_key_exchange (x : session_pending_key_exchange) : Prop :=
  is_u32 (pke_sequence x) ∧ opt_all stored_pair (pke_local_base_key x) ∧
  opt_all stored_pair (pke_local_ratchet_key x) ∧
  opt_all stored_identity (pke_local_identity_key x).
Definition stored_pending_pre_key (p : session_pending_pre_key) : Prop :=
  is_u32 (ppk_pre_key_id p) ∧ (ppk_has_pre_key_id p = false → ppk_pre_key_id p = 0) ∧
  is_u32 (ppk_signed_pre_key_id p) ∧ opt_all wf_pk (ppk_base_key p).

Definition storable (s : session_state) : Prop :=
  let v := ss_session_version s in
  (v = 2 ∨ v = 3) ∧ opt_all wf_pk (ss_local_identity_public s) ∧
  opt_all wf_pk (ss_remote_identity_public s) ∧ opt_all (stored_root_key v) (ss_root_key s) ∧
  is_u32 (ss_previous_counter s) ∧
  stored_sender_chain v (ss_sender_chain s) ∧
  (ss_has_sender_chain s = false → ss_sender_chain s = no_sender_chain) ∧
  Forall (stored_receiver_chain v) (ss_receiver_chains s) ∧
  (length (ss_receiver_chains s) ≤ MAX_RECEIVER_CHAINS)%nat ∧
  stored_pending_key_exchange (ss_pending_key_exchange s) ∧
  (ss_has_pending_key_exchange s = false → ss_pending_key_exchange s = no_pending_key_exchange) ∧
  stored_pending_pre_key (ss_pending_pre_key s) ∧
  (ss_has_pending_pre_key s = false → ss_pending_pre_key s = no_pending_pre_key) ∧
  is_u32 (ss_remote_registration_id s) ∧ is_u32 (ss_local_registration_id s) ∧
  opt_all wf_pk (ss_alice_base_key s).

(** ** Filling the structures *)

Section Prepare.
Context {U : Type} (u : U).

Lemma serialize_pks o : opt_all wf_pk o →
  opt_mapM ec_public_key_serialize_protobuf o (calm u) = (Ok (pk_pb <$> o), calm u).
Proof.
  intros H. apply opt_mapM_run. intros k ->. by apply ec_public_key_serialize_protobuf_calm, H.
Qed.

Lemma serialize_pair_calm pub priv : wf_pk pub → wf_sk priv →
  serialize_pair pub priv (calm u) = (Ok (pk_pb pub, sk_data priv), calm u).
Proof.
  intros Hp Hs. unfold serialize_pair.
  step (ec_public_key_serialize_protobuf_calm u pub Hp).
  step (ec_private_key_serialize_protobuf_calm u priv Hs). done.
Qed.

Lemma prepare_pairs {A} (f : A → ec_public_key) (g : A → ec_private_key) o :
  opt_all (λ a, wf_pk (f a) ∧ wf_sk (g a)) o →
  opt_mapM (λ a, serialize_pair (f a) (g a)) o (calm u)
  = (Ok ((λ a, (pk_pb (f a), sk_data (g a))) <$> o), calm u).
Proof. intros H. apply opt_mapM_run. intros a ->. destruct (H a eq_refl). by apply serialize_pair_calm. Qed.

Lemma prepare_chain_keys o :
  opt_mapM session_state_serialize_prepare_chain_chain_key o (calm u)
  = (Ok (chain_key_pb <$> o), calm u).
Proof. by apply opt_mapM_run. Qed.

Lemma prepare_sender_chain_calm v c : stored_sender_chain v c →
  session_state_serialize_prepare_sender_chain c (calm u) = (Ok (sender_chain_pb c), calm u).
Proof.
  intros [Hp _]. unfold session_state_serialize_prepare_sender_chain.
  step (prepare_pairs kp_public kp_private _ Hp). step (prepare_chain_keys (sc_chain_key c)).
  unfold sender_chain_pb, ret. by rewrite <-!option_fmap_compose.
Qed.

Lemma prepare_receiver_chain_calm v c : stored_receiver_chain v c →
  session_state_serialize_prepare_receiver_chain c (calm u) = (Ok (receiver_chain_pb c), calm u).
Proof.
  intros (Hk & _ & _ & _). unfold session_state_serialize_prepare_receiver_chain.
  step (serialize_pks _ Hk). step (prepare_chain_keys (rc_chain_key c)).
  step_goal (message_keys_pb <$> rc_message_keys c) (calm u); [done|].
  destruct (rc_message_keys c) as [|mk l]; [done|].
  unfold session_state_serialize_prepare_chain_message_keys_list. step (alloc_calm u).
  apply mapM_list_run, Forall_forall. done.
Qed.

Lemma prepare_pending_key_exchange_calm x : stored_pending_key_exchange x →
  session_state_serialize_prepare_pending_key_exchange x (calm u)
  = (Ok (pending_key_exchange_pb x), calm u).
Proof.
  intros (_ & Hb & Hr & Hi). unfold session_state_serialize_prepare_pending_key_exchange.
  step (prepare_pairs kp_public kp_private _ Hb). step (prepare_pairs kp_public kp_private _ Hr).
  step (prepare_pairs ik_public ik_private _ Hi).
  unfold pending_key_exchange_pb, ret. by rewrite <-!option_fmap_compose.
Qed.

Lemma prepare_pending_pre_key_calm p : stored_pending_pre_key p →
  session_state_serialize_prepare_pending_pre_key p (calm u) = (Ok (pending_pre_key_pb p), calm u).
Proof.
  intros (_ & _ & _ & Hb). unfold session_state_serialize_prepare_pending_pre_key.
  by step (serialize_pks _ Hb).
Qed.

Lemma if_prepare {A} (b : bool) (f : A → M (world U) pb_msg) g a :
  f a (calm u) = (Ok (g a), calm u) →
  (if b then let* _ := alloc in let* m := f a in ret (Some m) else ret None) (calm u)
  = (Ok (if b then Some (g a) else None), calm u).
Proof. intros H. destruct b; [|done]. step (alloc_calm u). by step H. Qed.

Lemma opt_sub_if (b : bool) m :
  opt_sub (if b then Some m else None) = if b then [VMsg m] else [].
Proof. by destruct b. Qed.

Lemma serialize_prepare_calm s : storable s →
  session_state_serialize_prepare s (calm u) = (Ok (session_pb s), calm u).
Proof.
  intros (Hv & Hl & Hr & Hrk & Hpc & Hsc & _ & Hrc & _ & Hx & _ & Hp & _ & _ & _ & Ha).
  unfold session_state_serialize_prepare.
  step (serialize_pks _ Hl). step (serialize_pks _ Hr).
  step_to (rk_key <$> ss_root_key s) (calm u) by (by apply opt_mapM_run).
  step (if_prepare (ss_has_sender_chain s) _ sender_chain_pb _ (prepare_sender_chain_calm _ _ Hsc)).
  step_goal (receiver_chain_pb <$> ss_receiver_chains s) (calm u).
  - step (if_prepare (ss_has_pending_key_exchange s) _ pending_key_exchange_pb _
      (prepare_pending_key_exchange_calm _ Hx)).
    step (if_prepare (ss_has_pending_pre_key s) _ pending_pre_key_pb _
      (prepare_pending_pre_key_calm _ Hp)).
    step (serialize_pks _ Ha). by rewrite !opt_sub_if.
  - destruct (ss_receiver_chains s) as [|c l]; [done|]. step (alloc_calm u).
    apply mapM_list_run. eapply Forall_impl; [exact Hrc|]. intros c' Hc'.
    step (alloc_calm u). by eapply prepare_receiver_chain_calm.
Qed.
End Prepare.

(** ** Reading the structures back *)

Section Read.
Context {U : Type} (u : U).

Lemma opt_mapM_back {A B} (f : A → M (world U) B) (g : B → A) (o : option B) :
  opt_all (λ b, f (g b) (calm u) = (Ok b, calm u)) o →
  opt_mapM f (g <$> o) (calm u) = (Ok o, calm u).
Proof. intros H. destruct o as [b|]; [|done]. simpl. by rewrite (bind_ok _ _ _ _ _ (H b eq_refl)). Qed.

Lemma decode_pk_pb k : wf_pk k → curve_decode_point (pk_pb k) (calm u) = (Ok k, calm u).
Proof. intros H. unfold pk_pb. rewrite (curve_decode_point_calm u (pk_data k) H). by destruct k. Qed.

Lemma decode_pks o : opt_all wf_pk o →
  opt_mapM curve_decode_point (pk_pb <$> o) (calm u) = (Ok o, calm u).
Proof. intros H. apply opt_mapM_back. intros k ->. by apply decode_pk_pb, H. Qed.

Lemma decode_pair_calm {A} (f : A → ec_public_key) (g : A → ec_private_key) o :
  opt_all (λ a, wf_pk (f a) ∧ wf_sk (g a)) o →
  decode_pair (pk_pb ∘ f <$> o) (sk_data ∘ g <$> o) (calm u)
  = (Ok ((λ a, (f a, g a)) <$> o), calm u).
Proof.
  intros H. destruct o as [a|]; [|done]. destruct (H a eq_refl) as [Hp Hs]. unfold decode_pair.
  cbn [fmap option_fmap option_map compose]. step (decode_pk_pb (f a) Hp).
  step (curve_decode_private_point_calm u (sk_data (g a)) Hs). by destruct (g a).
Qed.

Lemma decode_key_pair_calm o : opt_all stored_pair o →
  decode_key_pair (pk_pb ∘ kp_public <$> o) (sk_data ∘ kp_private <$> o) (calm u)
  = (Ok o, calm u).
Proof.
  intros H. unfold decode_key_pair. step (decode_pair_calm kp_public kp_private o H).
  apply opt_mapM_back. intros [pub priv] _. done.
Qed.

Lemma hkdf_create_calm v : v = 2 ∨ v = 3 →
  hkdf_create (s32 v) (calm u) = (Ok (HkdfContext (v - 2)), calm u).
Proof. by intros [-> | ->]. Qed.

Lemma data_ptr_full key : length key = 32%nat → data_ptr key = Some key.
Proof. by destruct key. Qed.

Lemma decode_chain_key_calm v o : (v = 2 ∨ v = 3) → opt_all (stored_chain_key v) o →
  decode_chain_key v (chain_key_pb <$> o) (calm u) = (Ok o, calm u).
Proof.
  intros Hv H. destruct o as [ck|]; [|done]. destruct (H ck eq_refl) as (Hk & Hl & _).
  unfold decode_chain_key, chain_key_pb. cbn [fmap option_fmap option_map]. pb_read.
  step (hkdf_create_calm v Hv). rewrite (data_ptr_full _ Hl).
  step_to ck (calm u) by (destruct ck; simpl in *; by rewrite Hk). done.
Qed.

Lemma read_sender_chain_calm v c : (v = 2 ∨ v = 3) → stored_sender_chain v c →
  session_state_deserialize_protobuf_sender_chain v (sender_chain_pb c) (calm u)
  = (Ok c, calm u).
Proof.
  intros Hv [Hp Hc]. unfold session_state_deserialize_protobuf_sender_chain, sender_chain_pb.
  pb_read. step (decode_key_pair_calm _ Hp). step (decode_chain_key_calm v _ Hv Hc).
  by destruct c.
Qed.

Lemma fixed_bytes_full n b : length b = n → fixed_bytes n (Some b) = b.
Proof. intros H. unfold fixed_bytes. by rewrite H, Nat.eqb_refl. Qed.

Lemma read_message_keys_calm l : Forall stored_message_keys l →
  mapM_list (λ k,
    let* _ := alloc in
    ret (RatchetMessageKeys (fixed_bytes 32 (pb_bytes k 1)) (fixed_bytes 32 (pb_bytes k 2))
           (fixed_bytes 16 (pb_bytes k 3)) (default 0 (pb_num k 0)))) (message_keys_pb <$> l)
    (calm u) = (Ok l, calm u).
Proof.
  induction 1 as [|mk l Hmk _ IH]; [done|]. rewrite fmap_cons. cbn [mapM_list].
  destruct Hmk as [(H1 & H2 & H3) _].
  step_to mk (calm u) by (step (alloc_calm u); unfold message_keys_pb, ret; pb_read;
    rewrite !fixed_bytes_full by done; by destruct mk).
  by step IH.
Qed.

Lemma read_receiver_chain_calm v c : (v = 2 ∨ v = 3) → stored_receiver_chain v c →
  session_state_deserialize_protobuf_receiver_chain v (receiver_chain_pb c) (calm u)
  = (Ok c, calm u).
Proof.
  intros Hv (Hk & Hc & Hmk & _).
  unfold session_state_deserialize_protobuf_receiver_chain, receiver_chain_pb. pb_read.
  step (decode_pks _ Hk). step (decode_chain_key_calm v _ Hv Hc).
  step (read_message_keys_calm _ Hmk). by destruct c.
Qed.

Lemma read_receiver_chains_calm v l : (v = 2 ∨ v = 3) → Forall (stored_receiver_chain v) l →
  mapM_list (λ c,
    let* _ := alloc in
    session_state_deserialize_protobuf_receiver_chain v c) (receiver_chain_pb <$> l) (calm u)
  = (Ok l, calm u).
Proof.
  intros Hv. induction 1 as [|c l Hc _ IH]; [done|]. rewrite fmap_cons. cbn [mapM_list].
  step_to c (calm u) by (step (alloc_calm u); by apply read_receiver_chain_calm).
  by step IH.
Qed.

Lemma read_pending_key_exchange_calm x : stored_pending_key_exchange x →
  session_state_deserialize_protobuf_pending_key_exchange (pending_key_exchange_pb x) (calm u)
  = (Ok x, calm u).
Proof.
  intros (_ & Hb & Hr & Hi).
  unfold session_state_deserialize_protobuf_pending_key_exchange, pending_key_exchange_pb.
  pb_read. step (decode_key_pair_calm _ Hb). step (decode_key_pair_calm _ Hr).
  step (decode_pair_calm ik_public ik_private _ Hi).
  step_to (pke_local_identity_key x) (calm u)
    by (apply opt_mapM_back; intros [pub priv] _; done).
  by destruct x.
Qed.

Lemma u32_s32 z : is_u32 z → u32 (s32 z) = z.
Proof.
  intros H. unfold u32, s32. rewrite Zminus_mod_idemp_l.
  replace (z + 2 ^ 31 - 2 ^ 31) with z by lia. by apply Z.mod_small.
Qed.

Lemma read_pending_pre_key_calm p : stored_pending_pre_key p →
  session_state_deserialize_protobuf_pending_pre_key (pending_pre_key_pb p) (calm u)
  = (Ok p, calm u).
Proof.
  intros (_ & Hz & Hs & Hb).
  unfold session_state_deserialize_protobuf_pending_pre_key, pending_pre_key_pb.
  pb_read. step (decode_pks _ Hb).
  destruct p as [[] i si b]; simpl in *; rewrite u32_s32 by done; [done|].
  by rewrite Hz.
Qed.

(** An embedded message present exactly when the flag is set. *)
Lemma val_sub_if (b : bool) m :
  val_sub (if b then [VMsg m] else []) = if b then Some m else None.
Proof. by destruct b. Qed.

Lemma opt_mapM_if {A B} (b : bool) (f : A → M (world U) B) a x :
  f a (calm u) = (Ok x, calm u) →
  opt_mapM f (if b then Some a else None) (calm u) = (Ok (if b then Some x else None), calm u).
Proof. intros H. destruct b; [|done]. simpl. by step H. Qed.

(** The sender chain as it is read back: a failure leaves no chain. *)
Definition read_sender (v : Z) (c : pb_msg) : M (world U) session_state_sender_chain :=
  let* r := try (session_state_deserialize_protobuf_sender_chain v c) in
  ret (match r with inl chain => chain | inr _ => no_sender_chain end).

Definition with_sender (o : option session_state_sender_chain) (s : session_state) : session_state :=
  let '(SessionState v li ri rk pc _ _ rc hx px hp pp rr lr nr ab) := s in
  SessionState v li ri rk pc (bool_decide (is_Some o)) (default no_sender_chain o)
    rc hx px hp pp rr lr nr ab.

Lemma read_session_with s (o : option pb_msg) (o' : option session_state_sender_chain) :
  storable s → opt_mapM (read_sender (ss_session_version s)) o (calm u) = (Ok o', calm u) →
  session_state_deserialize_protobuf (<[5%nat:=opt_sub o]> (session_pb s)) (calm u)
  = (Ok (with_sender o' s), calm u).
Proof.
  intros (Hv & Hl & Hr & Hrk & Hpc & Hsc & Hnsc & Hrc & _ & Hx & Hnx & Hp & Hnp & _ & _ & Ha) Ho.
  unfold session_state_deserialize_protobuf, session_pb. cbn [insert list_insert].
  step_to session_state_zero (calm u) by done. pb_read. rewrite !val_sub_if.
  cbn [default from_option id].
  step (decode_pks _ Hl). step (decode_pks _ Hr).
  step_goal (ss_root_key s) (calm u).
  2: { apply opt_mapM_back. intros rk Hs. destruct (Hrk rk Hs) as [Hk Hlen].
       step (hkdf_create_calm _ Hv). rewrite (data_ptr_full _ Hlen).
       destruct rk; simpl in *. by rewrite Hk. }
  step_to o' (calm u) by (exact Ho).
  step (read_receiver_chains_calm _ _ Hv Hrc).
  step (opt_mapM_if (ss_has_pending_key_exchange s) _ _ _ (read_pending_key_exchange_calm _ Hx)).
  step (opt_mapM_if (ss_has_pending_pre_key s) _ _ _ (read_pending_pre_key_calm _ Hp)).
  step (decode_pks _ Ha). unfold ret. do 2 f_equal.
  destruct s as [v li ri rk pc hs sc rc [] x [] p rr lr [] ab]; simpl in *;
    rewrite ?(Hnx eq_refl), ?(Hnp eq_refl); done.
Qed.

Lemma with_sender_id s : (ss_has_sender_chain s = false → ss_sender_chain s = no_sender_chain) →
  with_sender (if ss_has_sender_chain s then Some (ss_sender_chain s) else None) s = s.
Proof.
  destruct s as [v li ri rk pc [] sc rc hx x hp p rr lr nr ab]; simpl; [done|].
  intros H. by rewrite H.
Qed.

Lemma read_session_calm s : storable s →
  session_state_deserialize_protobuf (session_pb s) (calm u) = (Ok s, calm u).
Proof.
  intros Hs. pose proof Hs as (Hv & _ & _ & _ & _ & Hsc & Hnsc & _).
  rewrite <-(with_sender_id s Hnsc) at 2.
  erewrite <-(read_session_with s
    (if ss_has_sender_chain s then Some (sender_chain_pb (ss_sender_chain s)) else None)); [|done|].
  - unfold session_pb. cbn [insert list_insert]. by destruct (ss_has_sender_chain s).
  - apply opt_mapM_if. unfold read_sender.
    step_goal (inl (ss_sender_chain s)) (calm u); [done|].
    unfold try. by rewrite (read_sender_chain_calm _ _ Hv Hsc).
Qed.
End Read.

(** ** Types and sizes *)

(** A field set from an option. *)
Lemma wt_opt_bytes sub id o : wt_field (N:=pb_name) sub
  (PbField id PROTOBUF_C_LABEL_OPTIONAL PROTOBUF_C_TYPE_BYTES) (opt_bytes o).
Proof. split; destruct o; simpl; try lia; repeat constructor. Qed.

Lemma wt_opt_sub {A} (sub : pb_name → pb_msg → Prop) id n (g : A → pb_msg) (o : option A) :
  opt_all (λ a, sub n (g a)) o →
  wt_field sub (PbField id PROTOBUF_C_LABEL_OPTIONAL (PROTOBUF_C_TYPE_MESSAGE n))
    (opt_sub (g <$> o)).
Proof.
  intros H. split; destruct o as [a|]; simpl; try lia; repeat constructor. by apply H.
Qed.

Lemma wt_if_sub (sub : pb_name → pb_msg → Prop) id n (b : bool) m :
  sub n m →
  wt_field sub (PbField id PROTOBUF_C_LABEL_OPTIONAL (PROTOBUF_C_TYPE_MESSAGE n))
    (if b then [VMsg m] else []).
Proof. intros H. split; destruct b; simpl; try lia; by repeat constructor. Qed.

Lemma wt_sub (sub : pb_name → pb_msg → Prop) id n m :
  sub n m →
  wt_field sub (PbField id PROTOBUF_C_LABEL_OPTIONAL (PROTOBUF_C_TYPE_MESSAGE n)) [VMsg m].
Proof. apply (wt_if_sub sub id n true). Qed.

Lemma wt_subs {A} (sub : pb_name → pb_msg → Prop) id n (g : A → pb_msg) (l : list A) :
  Forall (λ a, sub n (g a)) l →
  wt_field sub (PbField id PROTOBUF_C_LABEL_REPEATED (PROTOBUF_C_TYPE_MESSAGE n))
    (VMsg <$> (g <$> l)).
Proof.
  intros H. split; [done|]. rewrite <-list_fmap_compose. apply Forall_fmap.
  eapply Forall_impl; [exact H|]. done.
Qed.

Lemma wt_num (sub : pb_name → pb_msg → Prop) id ty z :
  wt_val sub ty (VNum z) →
  wt_field sub (PbField id PROTOBUF_C_LABEL_OPTIONAL ty) [VNum z].
Proof. intros H. split; simpl; [lia|by repeat constructor]. Qed.

Lemma wt_bytes (sub : pb_name → pb_msg → Prop) id b :
  wt_field sub (PbField id PROTOBUF_C_LABEL_OPTIONAL PROTOBUF_C_TYPE_BYTES) [VBytes b].
Proof. split; simpl; [lia|by repeat constructor]. Qed.

Lemma wt_none (sub : pb_name → pb_msg → Prop) id l ty : wt_field sub (PbField id l ty) [].
Proof. split; [simpl; lia|constructor]. Qed.

Lemma wt_msg_S depth (n : pb_name) m :
  Forall2 (wt_field (wt_msg depth)) (d_fields (descriptor n)) m → wt_msg (S depth) n m.
Proof. done. Qed.

(** One field at a time; numbers and embedded messages are left over. *)
Ltac wt_fields :=
  apply wt_msg_S;
  repeat match goal with
  | |- Forall2 _ _ _ => apply Forall2_nil_2
  | |- Forall2 _ _ _ => apply Forall2_cons_2; [first [apply wt_opt_bytes | apply wt_bytes
      | apply wt_none | apply wt_num | apply wt_opt_sub | apply wt_if_sub | apply wt_sub | apply wt_subs] |]
  end.

Section Types.
Context (d : nat).

Lemma wt_chain_key v ck : stored_chain_key v ck →
  wt_msg (S d) SessionStructureChainChainKey (chain_key_pb ck).
Proof. intros (_ & _ & Hi). wt_fields. exact Hi. Qed.

Lemma wt_message_keys mk : stored_message_keys mk →
  wt_msg (S d) SessionStructureChainMessageKey (message_keys_pb mk).
Proof. intros (_ & Hi). wt_fields. exact Hi. Qed.

Lemma wt_sender_chain v c : stored_sender_chain v c →
  wt_msg (S (S d)) SessionStructureChain (sender_chain_pb c).
Proof. intros (_ & Hc). wt_fields. intros ck Hck. by eapply wt_chain_key, Hc. Qed.

Lemma wt_receiver_chain v c : stored_receiver_chain v c →
  wt_msg (S (S d)) SessionStructureChain (receiver_chain_pb c).
Proof.
  intros (_ & Hc & Hm & _). wt_fields.
  - intros ck Hck. by eapply wt_chain_key, Hc.
  - eapply Forall_impl; [exact Hm|]. apply wt_message_keys.
Qed.

Lemma wt_pending_key_exchange x : stored_pending_key_exchange x →
  wt_msg (S (S d)) SessionStructurePendingKeyExchange (pending_key_exchange_pb x).
Proof. intros (Hs & _). wt_fields. exact Hs. Qed.

Lemma s32_range z : -2 ^ 31 <= s32 z < 2 ^ 31.
Proof. unfold s32. pose proof (Z.mod_pos_bound (z + 2 ^ 31) (2 ^ 32) ltac:(lia)). lia. Qed.

Lemma wt_pending_pre_key p : stored_pending_pre_key p →
  wt_msg (S (S d)) SessionStructurePendingPreKey (pending_pre_key_pb p).
Proof.
  intros (Hs & _ & _ & _). unfold pending_pre_key_pb. destruct (ppk_has_pre_key_id p); wt_fields;
    try exact Hs; apply s32_range.
Qed.

Lemma wt_session s : storable s → wt_msg (S (S (S d))) SessionStructure (session_pb s).
Proof.
  intros (Hv & _ & _ & _ & Hpc & Hsc & _ & Hrc & _ & Hx & _ & Hp & _ & Hrr & Hlr & _). wt_fields.
  - simpl. lia.
  - exact Hpc.
  - by eapply wt_sender_chain.
  - eapply Forall_impl; [exact Hrc|]. intros c Hc. by eapply wt_receiver_chain.
  - by apply wt_pending_key_exchange.
  - by apply wt_pending_pre_key.
  - exact Hrr.
  - exact Hlr.
  - destruct (ss_needs_refresh s); simpl; lia.
Qed.
End Types.

(** The stored size of a session is bounded, because chains and saved keys
    are. *)
Definition SESSION_WEIGHT : Z := 1360000.

Section Weights.
Context (d : nat).

Lemma vals_weight_opt_bytes {A} sub (g : A → bytes) (o : option A) n :
  0 <= n → opt_all (λ a, zlen (g a) = n) o → vals_weight sub (opt_bytes (g <$> o)) <= 10 + n.
Proof.
  intros Hn H. unfold vals_weight. destruct o as [a|]; simpl; [|lia].
  rewrite (H a eq_refl). lia.
Qed.

Lemma vals_weight_opt_sub {A} sub (g : A → pb_msg) (o : option A) n :
  0 <= n → opt_all (λ a, sub (g a) <= n) o → vals_weight sub (opt_sub (g <$> o)) <= 10 + n.
Proof.
  intros Hn H. unfold vals_weight. destruct o as [a|]; simpl; [|lia].
  specialize (H a eq_refl). simpl in H. lia.
Qed.

Lemma vals_weight_if_sub sub (b : bool) m n :
  0 <= n → sub m <= n → vals_weight sub (if b then [VMsg m] else []) <= 10 + n.
Proof. intros Hn H. unfold vals_weight. destruct b; simpl; lia. Qed.

Lemma vals_weight_subs {A} sub (g : A → pb_msg) (l : list A) n :
  Forall (λ a, sub (g a) <= n) l →
  vals_weight sub (VMsg <$> (g <$> l)) <= Z.of_nat (length l) * (10 + n).
Proof.
  intros H. unfold vals_weight. induction H as [|a l Ha _ IH]; [simpl; lia|].
  rewrite !fmap_cons. cbn [foldr val_weight length]. lia.
Qed.

Lemma pk_pb_len k : wf_pk k → zlen (pk_pb k) = 33.
Proof. intros H. unfold pk_pb. rewrite zlen_cons. unfold zlen. rewrite H. done. Qed.

Lemma weight_cons (vs : list pb_val) m :
  pb_weight (S d) (vs :: m) = vals_weight (pb_weight d) vs + pb_weight (S d) m.
Proof. done. Qed.
Lemma weight_nil : pb_weight (S d) [] = 0.
Proof. done. Qed.
Lemma weight_num sub z : vals_weight sub [VNum z] = 15.
Proof. done. Qed.
Lemma weight_bytes sub b : vals_weight sub [VBytes b] = 10 + zlen b.
Proof. unfold vals_weight. simpl. lia. Qed.
Lemma weight_none sub : vals_weight sub [] = 0.
Proof. done. Qed.
End Weights.

Ltac weigh := rewrite ?weight_cons, ?weight_nil, ?weight_num, ?weight_bytes, ?weight_none.

Section SessionWeight.
Context (d : nat).

Lemma weight_chain_key v ck : stored_chain_key v ck → pb_weight (S d) (chain_key_pb ck) <= 57.
Proof. intros (_ & Hl & _). unfold chain_key_pb. weigh. unfold zlen. rewrite Hl. lia. Qed.

Lemma weight_message_keys mk :
  stored_message_keys mk → pb_weight (S d) (message_keys_pb mk) <= 125.
Proof.
  intros [(H1 & H2 & H3) _]. unfold message_keys_pb. weigh. unfold zlen. rewrite H1, H2, H3. lia.
Qed.

Lemma weight_opt_pk sub o : opt_all wf_pk o → vals_weight sub (opt_bytes (pk_pb <$> o)) <= 43.
Proof. intros H. apply (vals_weight_opt_bytes _ _ _ 33); [lia|]. intros k Hk. by apply pk_pb_len, H. Qed.

Lemma weight_opt_pair {A} sub (f : A → ec_public_key) (g : A → ec_private_key) o :
  opt_all (λ a, wf_pk (f a) ∧ wf_sk (g a)) o →
  vals_weight sub (opt_bytes (pk_pb ∘ f <$> o)) + vals_weight sub (opt_bytes (sk_data ∘ g <$> o))
  <= 85.
Proof.
  intros H.
  assert (vals_weight sub (opt_bytes (pk_pb ∘ f <$> o)) <= 10 + 33).
  { apply vals_weight_opt_bytes; [lia|]. intros a Ha. apply pk_pb_len. by destruct (H a Ha). }
  assert (vals_weight sub (opt_bytes (sk_data ∘ g <$> o)) <= 10 + 32); [|lia].
  apply vals_weight_opt_bytes; [lia|]. intros a Ha. destruct (H a Ha) as [_ Hs].
  unfold zlen. simpl. by rewrite Hs.
Qed.

Lemma weight_sender_chain v c :
  stored_sender_chain v c → pb_weight (S (S d)) (sender_chain_pb c) <= 152.
Proof.
  intros [Hp Hc]. unfold sender_chain_pb. weigh.
  pose proof (weight_opt_pair (pb_weight (S d)) kp_public kp_private _ Hp).
  assert (vals_weight (pb_weight (S d)) (opt_sub (chain_key_pb <$> sc_chain_key c)) <= 10 + 57); [|lia].
  apply vals_weight_opt_sub; [lia|]. intros ck Hck. by eapply weight_chain_key, Hc.
Qed.

Lemma weight_receiver_chain v c :
  stored_receiver_chain v c → pb_weight (S (S d)) (receiver_chain_pb c) <= 270110.
Proof.
  intros (Hk & Hc & Hm & Hl). unfold receiver_chain_pb. weigh.
  pose proof (weight_opt_pk (pb_weight (S d)) _ Hk).
  assert (vals_weight (pb_weight (S d)) (opt_sub (chain_key_pb <$> rc_chain_key c)) <= 10 + 57).
  { apply vals_weight_opt_sub; [lia|]. intros ck Hck. by eapply weight_chain_key, Hc. }
  pose proof (vals_weight_subs (pb_weight (S d)) message_keys_pb (rc_message_keys c) 125
    (Forall_impl _ _ _ Hm weight_message_keys)).
  unfold MAX_MESSAGE_KEYS in Hl. lia.
Qed.

Lemma weight_pending_key_exchange x :
  stored_pending_key_exchange x → pb_weight (S (S d)) (pending_key_exchange_pb x) <= 270.
Proof.
  intros (_ & Hb & Hr & Hi). unfold pending_key_exchange_pb. weigh.
  pose proof (weight_opt_pair (pb_weight (S d)) kp_public kp_private _ Hb).
  pose proof (weight_opt_pair (pb_weight (S d)) kp_public kp_private _ Hr).
  pose proof (weight_opt_pair (pb_weight (S d)) ik_public ik_private _ Hi). lia.
Qed.

Lemma weight_pending_pre_key p :
  stored_pending_pre_key p → pb_weight (S (S d)) (pending_pre_key_pb p) <= 73.
Proof.
  intros (_ & _ & _ & Hb). unfold pending_pre_key_pb. weigh.
  pose proof (weight_opt_pk (pb_weight (S d)) _ Hb).
  destruct (ppk_has_pre_key_id p); weigh; lia.
Qed.

Lemma weight_session s : storable s → pb_weight (S (S (S d))) (session_pb s) <= SESSION_WEIGHT.
Proof.
  intros (_ & Hl & Hr & Hrk & _ & Hsc & _ & Hrc & Hn & Hx & _ & Hp & _ & _ & _ & Ha).
  unfold session_pb. weigh. set (sub := pb_weight (S (S d))).
  pose proof (weight_opt_pk sub _ Hl). pose proof (weight_opt_pk sub _ Hr).
  pose proof (weight_opt_pk sub _ Ha).
  assert (vals_weight sub (opt_bytes (rk_key <$> ss_root_key s)) <= 10 + 32).
  { apply vals_weight_opt_bytes; [lia|]. intros rk Hs. destruct (Hrk rk Hs) as [_ Hk].
    unfold zlen. by rewrite Hk. }
  pose proof (vals_weight_if_sub sub (ss_has_sender_chain s) _ 152 ltac:(lia)
    (weight_sender_chain _ _ Hsc)).
  pose proof (vals_weight_if_sub sub (ss_has_pending_key_exchange s) _ 270 ltac:(lia)
    (weight_pending_key_exchange _ Hx)).
  pose proof (vals_weight_if_sub sub (ss_has_pending_pre_key s) _ 73 ltac:(lia)
    (weight_pending_pre_key _ Hp)).
  pose proof (vals_weight_subs sub receiver_chain_pb (ss_receiver_chains s) 270110
    (Forall_impl _ _ _ Hrc (weight_receiver_chain _))).
  unfold MAX_RECEIVER_CHAINS, SESSION_WEIGHT in *. lia.
Qed.
End SessionWeight.

Section Roundtrip.
Context {U : Type} (u : U).

Lemma session_serialize_calm s : storable s →
  session_state_serialize s (calm u) = (Ok (pb_pack SessionStructure (session_pb s)), calm u).
Proof.
  intros Hs. unfold session_state_serialize. step (alloc_calm u). step (serialize_prepare_calm u s Hs).
  apply pb_to_buffer_calm; [by apply wt_session|].
  eapply Z.le_lt_trans; [by apply weight_session|done].
Qed.

Lemma session_deserialize_calm s : storable s →
  session_state_deserialize (pb_pack SessionStructure (session_pb s)) (calm u) = (Ok s, calm u).
Proof.
  intros Hs. unfold session_state_deserialize.
  destruct (pb_roundtrip_weight u SessionStructure (session_pb s)) as (_ & _ & Hun);
    [by apply wt_session|eapply Z.le_lt_trans; [by apply weight_session|done]|].
  step Hun. step_to (session_pb s) (calm u) by done. by apply read_session_calm.
Qed.

Lemma session_copy_calm s : storable s → session_state_copy s (calm u) = (Ok s, calm u).
Proof.
  intros Hs. unfold session_state_copy. step (session_serialize_calm s Hs).
  by apply session_deserialize_calm.
Qed.

(** C32: a session state survives storage.  Serializing a state with version 2
    or 3, keys of the right sizes derived under that version, at most five
    receiver chains and at most 2000 saved keys in each succeeds, and reading
    the bytes back gives the identical state, saved message keys, pending
    exchange and pending pre key included; copying is the identity. *)
Theorem session_state_roundtrip (s : session_state) : storable s →
  ∃ data, session_state_serialize s (calm u) = (Ok data, calm u) ∧
    session_state_deserialize data (calm u) = (Ok s, calm u) ∧
    session_state_copy s (calm u) = (Ok s, calm u).
Proof.
  intros Hs. eexists. split_and!; [by apply session_serialize_calm
    |by apply session_deserialize_calm|by apply session_copy_calm].
Qed.
End Roundtrip.

(** A corrupt sender chain goes unnoticed.  When the stored sender chain of
    a session cannot be read, because a key has the wrong size or type, reading
    the session still succeeds: [result] is not assigned on that call, so the
    session comes back with the flag [has_sender_chain] set and no ratchet key
    pair or chain key behind it. *)
Theorem sender_chain_error_ignored {U} (u : U) (s : session_state) (chain : pb_msg) (e : Z) :
  storable s →
  session_state_deserialize_protobuf_sender_chain (ss_session_version s) chain (calm u)
    = (Err e, calm u) →
  ∃ s', session_state_deserialize_protobuf (<[5%nat:=[VMsg chain]]> (session_pb s)) (calm u)
      = (Ok s', calm u) ∧
    ss_has_sender_chain s' = true ∧ session_state_get_sender_chain_key s' = None ∧
    session_state_get_sender_ratchet_key s' = None ∧
    ss_receiver_chains s' = ss_receiver_chains s ∧ ss_root_key s' = ss_root_key s.
Proof.
  intros Hs Herr. exists (with_sender (Some no_sender_chain) s). split.
  - apply (read_session_with u s (Some chain)); [done|]. cbn [opt_mapM].
    step_to no_sender_chain (calm u)
      by (unfold read_sender; step_to (inr e) (calm u) by (unfold try; by rewrite Herr); done).
    done.
  - by destruct s.
Qed.

(** ** Reading untrusted storage *)

Section Total.
Context {U : Type}.

(** What a session read from storage guarantees whatever the bytes were. *)
Definition read_session_ok (s : session_state) : Prop :=
  opt_all wf_pk (ss_local_identity_public s) ∧ opt_all wf_pk (ss_remote_identity_public s) ∧
  opt_all (λ rk, wf_kdf (rk_kdf rk)) (ss_root_key s) ∧
  opt_all stored_pair (sc_ratchet_key_pair (ss_sender_chain s)) ∧
  Forall (λ c, opt_all wf_pk (rc_ratchet_key c) ∧ opt_all (λ ck, wf_kdf (ck_kdf ck)) (rc_chain_key c) ∧
    Forall wf_mk (rc_message_keys c)) (ss_receiver_chains s) ∧
  opt_all wf_pk (ss_alice_base_key s).

Lemma ends_hkdf_create v : ends (S:=world U) (hkdf_create v) wf_kdf.
Proof.
  unfold hkdf_create. ends_step ends_alloc. unfold wf_kdf.
  destruct (v =? 2); [apply ends_ret; simpl; lia|].
  destruct (v =? 3); [apply ends_ret; simpl; lia|apply ends_fail].
Qed.

Lemma ends_decode_pks o : ends (S:=world U) (opt_mapM curve_decode_point o) (opt_all wf_pk).
Proof. apply ends_opt_mapM. intros. apply ends_curve_decode_point. Qed.

Lemma ends_decode_pair pub priv :
  ends (S:=world U) (decode_pair pub priv) (opt_all (λ p, wf_pk p.1 ∧ wf_sk p.2)).
Proof.
  unfold decode_pair. destruct pub as [pub|], priv as [priv|]; try by apply ends_ret.
  ends_step ends_curve_decode_point. ends_step ends_curve_decode_private_point.
  apply ends_ret. intros p [= <-]. done.
Qed.

Lemma ends_decode_key_pair pub priv :
  ends (S:=world U) (decode_key_pair pub priv) (opt_all stored_pair).
Proof.
  unfold decode_key_pair. eapply ends_bind; [apply ends_decode_pair|]. intros [p|] Hp; simpl.
  - eapply (ends_bind _ _ stored_pair); [|intros kp Hkp; apply ends_ret; by intros ? [= <-]].
    ends_step ends_alloc. apply ends_ret. by apply Hp.
  - by apply ends_ret.
Qed.

Lemma ends_decode_chain_key v o :
  ends (S:=world U) (decode_chain_key v o) (opt_all (λ ck, wf_kdf (ck_kdf ck))).
Proof.
  unfold decode_chain_key. destruct o as [m|]; [|by apply ends_ret].
  destruct (pb_bytes m 1) as [key|], (pb_num m 0) as [i|]; try by apply ends_ret.
  eapply ends_bind; [apply ends_hkdf_create|]. intros kdf Hk.
  unfold ratchet_chain_key_create. destruct (data_ptr key); [|apply ends_fail].
  eapply (ends_bind _ _ (λ ck, wf_kdf (ck_kdf ck))).
  - ends_step ends_alloc. ends_step ends_alloc. by apply ends_ret.
  - intros ck Hck. apply ends_ret. by intros ? [= <-].
Qed.

Lemma fixed_bytes_length n o : length (fixed_bytes n o) = n.
Proof.
  unfold fixed_bytes. destruct o as [b|]; [|apply length_replicate].
  destruct (Nat.eqb_spec (length b) n); [done|apply length_replicate].
Qed.

Lemma ends_read_receiver_chain v m :
  ends (S:=world U) (session_state_deserialize_protobuf_receiver_chain v m)
    (λ c, opt_all wf_pk (rc_ratchet_key c) ∧
       opt_all (λ ck, wf_kdf (ck_kdf ck)) (rc_chain_key c) ∧ Forall wf_mk (rc_message_keys c)).
Proof.
  eapply ends_bind; [apply ends_decode_pks|]. intros key Hkey.
  eapply ends_bind; [apply ends_decode_chain_key|]. intros ck Hck.
  eapply ends_bind; [apply (ends_mapM _ _ wf_mk)|].
  - intros k _. ends_step ends_alloc. apply ends_ret.
    split_and!; simpl; apply fixed_bytes_length.
  - intros mks Hmks. by apply ends_ret.
Qed.

Lemma ends_read_pending_key_exchange m :
  ends (S:=world U) (session_state_deserialize_protobuf_pending_key_exchange m) (λ _, True).
Proof.
  ends_step ends_decode_key_pair. ends_step ends_decode_key_pair. ends_step ends_decode_pair.
  eapply ends_bind; [apply (ends_opt_mapM _ _ (λ _, True))|intros; by apply ends_ret].
  intros p. ends_step ends_alloc. by apply ends_ret.
Qed.

Lemma ends_read_sender v c :
  ends (S:=world U) (read_sender v c) (λ sc, opt_all stored_pair (sc_ratchet_key_pair sc)).
Proof.
  eapply ends_bind.
  - apply (ends_try _ (λ sc, opt_all stored_pair (sc_ratchet_key_pair sc))).
    eapply ends_bind; [apply ends_decode_key_pair|]. intros kp Hkp.
    ends_step ends_decode_chain_key. by apply ends_ret.
  - intros [sc|e] Hr; apply ends_ret; [by apply Hr|done].
Qed.

Lemma ends_read_session m :
  ends (S:=world U) (session_state_deserialize_protobuf m) read_session_ok.
Proof.
  eapply (ends_bind _ _ (λ _, True)); [ends_step ends_alloc; by apply ends_ret|]. intros s0 _.
  eapply ends_bind; [apply ends_decode_pks|]. intros li Hli.
  eapply ends_bind; [apply ends_decode_pks|]. intros ri Hri.
  eapply ends_bind; [apply (ends_opt_mapM _ _ (λ rk, wf_kdf (rk_kdf rk)))|].
  { intros key. eapply ends_bind; [apply ends_hkdf_create|]. intros kdf Hk.
    unfold ratchet_root_key_create. destruct (data_ptr key); [|apply ends_fail].
    ends_step ends_alloc. ends_step ends_alloc. by apply ends_ret. }
  intros rk Hrk. eapply ends_bind; [apply ends_opt_mapM, ends_read_sender|]. intros sc Hsc.
  eapply ends_bind; [apply ends_mapM|].
  { intros c _. ends_step ends_alloc. apply ends_read_receiver_chain. }
  intros rc Hrc.
  eapply ends_bind; [apply ends_opt_mapM, ends_read_pending_key_exchange|]. intros x _.
  eapply ends_bind; [apply (ends_opt_mapM _ _ (λ _, True))|].
  { intros p. ends_step ends_decode_pks. by apply ends_ret. }
  intros p _. eapply ends_bind; [apply ends_decode_pks|]. intros ab Hab.
  apply ends_ret. split_and!; simpl; try done. destruct sc as [sc|]; simpl; [by apply Hsc|done].
Qed.

End Total.

(** ** Witnesses *)

Definition witness_key (b : Z) : ec_public_key := EcPublicKey (replicate 32 b).
Definition witness_keys (c : Z) : ratchet_message_keys :=
  RatchetMessageKeys (replicate 32 1) (replicate 32 2) (replicate 16 3) c.
Definition witness_stored_session : session_state :=
  SessionState 3 (Some (witness_key 1)) (Some (witness_key 2))
    (Some (RatchetRootKey (HkdfContext 1) (replicate 32 9))) 7 true
    (SenderChain (Some (EcKeyPair (witness_key 3) (EcPrivateKey (replicate 32 4))))
       (Some (RatchetChainKey (HkdfContext 1) (replicate 32 5) 12)))
    [ReceiverChain (Some (witness_key 6)) (Some (RatchetChainKey (HkdfContext 1) (replicate 32 7) 5))
       [witness_keys 2; witness_keys 4]]
    false no_pending_key_exchange true
    (PendingPreKey true 77 (2 ^ 32 - 1) (Some (witness_key 8))) 1000 2000 false None.

Lemma witness_stored_session_ok : storable witness_stored_session.
Proof.
  repeat first [ by right | done | lia | progress intros ? | discriminate
    | progress simplify_eq/= | split | constructor ].
Qed.

Lemma session_state_roundtrip_witness :
  ∃ data, session_state_serialize witness_stored_session (calm tt) = (Ok data, calm tt) ∧
    session_state_deserialize data (calm tt) = (Ok witness_stored_session, calm tt) ∧
    session_state_copy witness_stored_session (calm tt) = (Ok witness_stored_session, calm tt).
Proof. apply session_state_roundtrip, witness_stored_session_ok. Defined.

Lemma sender_chain_error_ignored_witness :
  ∃ s', session_state_deserialize_protobuf
      (<[5%nat:=[VMsg [[VBytes [1]]; [VBytes [2]]; []; []]]]> (session_pb witness_stored_session))
      (calm tt) = (Ok s', calm tt) ∧
    ss_has_sender_chain s' = true ∧ session_state_get_sender_chain_key s' = None ∧
    session_state_get_sender_ratchet_key s' = None ∧
    ss_receiver_chains s' = ss_receiver_chains witness_stored_session ∧
    ss_root_key s' = ss_root_key witness_stored_session.
Proof.
  apply (sender_chain_error_ignored tt witness_stored_session _ SG_ERR_INVALID_KEY
    witness_stored_session_ok). reflexivity.
Defined.
