(* ===== verification/SessionRecord.v ===== *)
(** The session record: the current session with a peer and the archived ones
    (session_record.c).

    The [DL] list of archived states is a list, newest first; a node pointer is
    its position. *)

From S2P Require Import Prelude Buffer Provider Hkdf Curve Ratchet SessionState Protobuf.
From S2P Require Import ProtobufSpec Wire SessionSerial.

Definition ARCHIVED_STATES_MAX_LENGTH : nat := 40.

Record session_record : Type := SessionRecord {
  sr_state : option session_state;
  sr_previous_states : list session_state;
  sr_is_fresh : bool }.

(** [count++; if(count > ARCHIVED_STATES_MAX_LENGTH) DL_DELETE(..)] for each
    node in turn. *)
Fixpoint trim_previous_states (count : nat) (l : list session_state) : list session_state :=
  match l with
  | [] => []
  | state :: l =>
      if (ARCHIVED_STATES_MAX_LENGTH <? S count)%nat then trim_previous_states (S count) l
      else state :: trim_previous_states (S count) l
  end.

Section Defs.
Context {U : Type}.

Definition session_record_create (state : option session_state) : M (world U) session_record :=
  let* _ := alloc in
  match state with
  | None => let* state := session_state_create in ret (SessionRecord (Some state) [] true)
  | Some state => ret (SessionRecord (Some state) [] false)
  end.

Definition session_record_serialize (record : session_record) : M (world U) bytes :=
  let* current := opt_mapM (λ state,
    let* _ := alloc in session_state_serialize_prepare state) (sr_state record) in
  let* previous := match sr_previous_states record with
    | [] => ret []
    | states =>
        let* _ := alloc in
        mapM_list (λ state, let* _ := alloc in session_state_serialize_prepare state) states
    end in
  pb_to_buffer RecordStructure [opt_sub current; VMsg <$> previous].

Definition session_record_deserialize (data : bytes) : M (world U) session_record :=
  let* m := pb_unpack RecordStructure data in
  let* m := non_null m SG_ERR_INVALID_PROTO_BUF in
  let* current_state := opt_mapM session_state_deserialize_protobuf (pb_sub m 0) in
  let* record := session_record_create current_state in
  let* previous := mapM_list (λ s,
    let* _ := alloc in session_state_deserialize_protobuf s) (pb_subs m 1) in
  ret (SessionRecord (sr_state record) previous false).

Definition session_record_copy (other_record : session_record) : M (world U) session_record :=
  let* data := session_record_serialize other_record in
  session_record_deserialize data.

(** The two tests of [session_record_has_session_state]. *)
Definition state_matches (version : Z) (alice_base_key : ec_public_key) (state : session_state)
    : bool :=
  (ss_session_version state =? version) &&
  (ec_public_key_compare (ss_alice_base_key state) (Some alice_base_key) =? 0).

(** [assert(record->state)] *)
Definition session_record_has_session_state (record : session_record) (version : Z)
    (alice_base_key : ec_public_key) : M (world U) bool :=
  match sr_state record with
  | None => abort
  | Some state =>
      ret (state_matches version alice_base_key state
           || existsb (state_matches version alice_base_key) (sr_previous_states record))
  end.

Definition session_record_set_state (state : session_state) (record : session_record)
    : session_record :=
  SessionRecord (Some state) (sr_previous_states record) (sr_is_fresh record).

Definition session_record_get_previous_states_remove (node : nat) (record : session_record)
    : session_record :=
  SessionRecord (sr_state record) (delete node (sr_previous_states record)) (sr_is_fresh record).

Definition session_record_promote_state (promoted_state : session_state)
    : M (session_record * world U) unit :=
  let* record := get_obj in
  let* _ := match sr_state record with
    | Some state =>
        let* _ := lift alloc in
        put_obj (SessionRecord None (state :: sr_previous_states record) (sr_is_fresh record))
    | None => ret tt
    end in
  let* record := get_obj in
  put_obj (SessionRecord (Some promoted_state)
    (trim_previous_states 0 (sr_previous_states record)) (sr_is_fresh record)).

Definition session_record_archive_current_state : M (session_record * world U) unit :=
  let* new_state := lift session_state_create in
  session_record_promote_state new_state.
End Defs.

(** ** Lemmas *)

Lemma trim_previous_take c l :
  (c ≤ ARCHIVED_STATES_MAX_LENGTH)%nat →
  trim_previous_states c l = take (ARCHIVED_STATES_MAX_LENGTH - c) l.
Proof.
  assert (∀ c l, (ARCHIVED_STATES_MAX_LENGTH ≤ c)%nat → trim_previous_states c l = []) as Hend.
  { intros c' l'. revert c'. induction l' as [|s l' IH]; intros c' H; [done|].
    cbn [trim_previous_states]. rewrite (proj2 (Nat.ltb_lt _ _)) by lia. apply IH. lia. }
  revert c. induction l as [|s l IH]; intros c H; [by rewrite take_nil|]. cbn [trim_previous_states].
  destruct (decide (c = ARCHIVED_STATES_MAX_LENGTH)) as [->|Hne].
  - rewrite (proj2 (Nat.ltb_lt _ _)), Hend, Nat.sub_diag by lia. done.
  - rewrite (proj2 (Nat.ltb_ge _ _)), IH by lia.
    by replace (ARCHIVED_STATES_MAX_LENGTH - c)%nat
      with (S (ARCHIVED_STATES_MAX_LENGTH - S c))%nat by lia.
Qed.

(** A record as it is stored. *)
Definition record_pb (r : session_record) : pb_msg :=
  [opt_sub (session_pb <$> sr_state r); VMsg <$> (session_pb <$> sr_previous_states r)].

Definition storable_record (r : session_record) : Prop :=
  is_Some (sr_state r) ∧ opt_all storable (sr_state r) ∧
  Forall storable (sr_previous_states r) ∧
  (length (sr_previous_states r) ≤ ARCHIVED_STATES_MAX_LENGTH)%nat.

(** The record with the flag a stored record has. *)
Definition not_fresh (r : session_record) : session_record :=
  SessionRecord (sr_state r) (sr_previous_states r) false.

Lemma wt_record r : storable_record r → wt_msg PB_DEPTH RecordStructure (record_pb r).
Proof.
  intros (_ & Hs & Hp & _). wt_fields.
  - intros s Hr. by apply wt_session, Hs.
  - eapply Forall_impl; [exact Hp|]. apply wt_session.
Qed.

Lemma weight_record r : storable_record r → pb_weight PB_DEPTH (record_pb r) < 2 ^ 26.
Proof.
  intros (_ & Hs & Hp & Hl). unfold record_pb, PB_DEPTH. weigh.
  pose proof (vals_weight_opt_sub (pb_weight 3) session_pb (sr_state r) SESSION_WEIGHT ltac:(done)
    (λ s Hr, weight_session 0 s (Hs s Hr))).
  pose proof (vals_weight_subs (pb_weight 3) session_pb (sr_previous_states r) SESSION_WEIGHT
    (Forall_impl _ _ _ Hp (weight_session 0))).
  unfold ARCHIVED_STATES_MAX_LENGTH, SESSION_WEIGHT in *. lia.
Qed.

Section Roundtrip.
Context {U : Type} (u : U).

Lemma record_serialize_calm r : storable_record r →
  session_record_serialize r (calm u) = (Ok (pb_pack RecordStructure (record_pb r)), calm u).
Proof.
  intros Hr. pose proof Hr as (_ & Hs & Hp & _). unfold session_record_serialize.
  step_goal (session_pb <$> sr_state r) (calm u).
  2: { apply opt_mapM_run. intros s Hs'. step (alloc_calm u). by apply serialize_prepare_calm, Hs. }
  step_goal (session_pb <$> sr_previous_states r) (calm u).
  - apply pb_to_buffer_calm; [by apply wt_record|by apply weight_record].
  - destruct (sr_previous_states r) as [|s l]; [done|]. step (alloc_calm u).
    apply mapM_list_run. eapply Forall_impl; [exact Hp|]. intros s' Hs'.
    step (alloc_calm u). by apply serialize_prepare_calm.
Qed.

Lemma read_sessions_calm l : Forall storable l →
  mapM_list (λ s, let* _ := alloc in session_state_deserialize_protobuf s) (session_pb <$> l)
    (calm u) = (Ok l, calm u).
Proof.
  induction 1 as [|s l Hs _ IH]; [done|]. rewrite fmap_cons. cbn [mapM_list].
  step_to s (calm u) by (step (alloc_calm u); by apply read_session_calm). by step IH.
Qed.

Lemma record_deserialize_calm r : storable_record r →
  session_record_deserialize (pb_pack RecordStructure (record_pb r)) (calm u)
  = (Ok (not_fresh r), calm u).
Proof.
  intros Hr. pose proof Hr as ([s Hst] & Hs & Hp & _). unfold session_record_deserialize.
  destruct (pb_roundtrip_weight u RecordStructure (record_pb r)) as (_ & _ & Hun);
    [by apply wt_record|by apply weight_record|].
  step Hun. step_to (record_pb r) (calm u) by done. unfold record_pb. pb_read.
  step_to (sr_state r) (calm u)
    by (apply (opt_mapM_back u session_state_deserialize_protobuf session_pb);
        intros s' Hs'; by apply read_session_calm, Hs).
  step_to (SessionRecord (sr_state r) [] false) (calm u)
    by (unfold session_record_create; rewrite Hst; by step (alloc_calm u)).
  step (read_sessions_calm _ Hp). done.
Qed.

(** C33: a session record survives storage.  A record with a current session and
    at most forty archived ones, all storable, serializes within the size the
    format can hold, and reading it back gives the same sessions in the same
    order, no longer marked fresh. *)
Theorem session_record_roundtrip (r : session_record) : storable_record r →
  ∃ data, session_record_serialize r (calm u) = (Ok data, calm u) ∧
    session_record_deserialize data (calm u)
      = (Ok (SessionRecord (sr_state r) (sr_previous_states r) false), calm u).
Proof.
  intros Hr. eexists. split; [by apply record_serialize_calm|by apply record_deserialize_calm].
Qed.
End Roundtrip.

Lemma promote_state_run {U} (w : world U) r state promoted :
  sr_state r = Some state →
  session_record_promote_state promoted (r, w) =
  match alloc w with
  | (Ok _, w') =>
      (Ok tt, (SessionRecord (Some promoted)
         (take ARCHIVED_STATES_MAX_LENGTH (state :: sr_previous_states r)) (sr_is_fresh r), w'))
  | (Err e, w') => (Err e, (r, w'))
  | (Hang, w') => (Hang, (r, w'))
  | (Abort, w') => (Abort, (r, w'))
  end.
Proof.
  intros Hs. unfold session_record_promote_state.
  step_to r (r, w) by done. rewrite Hs. unfold bind at 1, bind at 1, lift.
  destruct (alloc w) as [[[]|e| |] w'] eqn:E; [|done..].
  unfold bind. cbn [get_obj put_obj sr_previous_states sr_is_fresh].
  by rewrite trim_previous_take by lia.
Qed.

(** promoting or archiving.  Promoting a state makes it current and puts the
    old current state in front of the archive, from which only states beyond
    the fortieth are dropped; archiving the current state does the same with
    an empty new state.  If memory runs out the record is unchanged. *)
Theorem session_record_promote_spec {U} (r : session_record) (state promoted : session_state)
    (w : world U) :
  sr_state r = Some state →
  let promoted_record s := SessionRecord (Some s)
    (take 40 (state :: sr_previous_states r)) (sr_is_fresh r) in
  (∃ w', session_record_promote_state promoted (r, w) = (Ok tt, (promoted_record promoted, w'))
     ∨ session_record_promote_state promoted (r, w) = (Err SG_ERR_NOMEM, (r, w'))) ∧
  (∃ w', session_record_archive_current_state (r, w)
           = (Ok tt, (promoted_record session_state_zero, w'))
     ∨ session_record_archive_current_state (r, w) = (Err SG_ERR_NOMEM, (r, w'))).
Proof.
  intros Hs. cbn zeta. split.
  - rewrite (promote_state_run w r state promoted Hs).
    destruct w as [[[|n]|] u]; eexists; first [left; reflexivity | right; reflexivity].
  - assert (∀ m m' : option nat, session_state_create (World m w.(w_user))
        = (Ok session_state_zero, World m' w.(w_user)) →
      session_record_archive_current_state (r, World m w.(w_user))
        = session_record_promote_state session_state_zero (r, World m' w.(w_user))) as Ha.
    { intros m m' H. unfold session_record_archive_current_state, bind at 1, lift. by rewrite H. }
    destruct w as [[[|n]|] u]; cbn [w_user] in Ha.
    + exists (World (Some 0%nat) u). by right.
    + rewrite (Ha (Some (S n)) (Some n) eq_refl), (promote_state_run _ r state _ Hs).
      destruct n as [|n]; eexists; first [left; reflexivity | right; reflexivity].
    + rewrite (Ha None None eq_refl), (promote_state_run _ r state _ Hs).
      eexists. left. reflexivity.
Qed.

(** ** Witnesses *)

Definition witness_record : session_record :=
  SessionRecord (Some witness_stored_session) [witness_stored_session; session_state_zero] true.

Lemma session_state_zero_storable : storable session_state_zero.
Proof.
  repeat first [ by left | done | lia | progress intros ? | discriminate
    | progress simplify_eq/= | split | constructor ].
Qed.

Lemma session_record_roundtrip_witness :
  ∃ data, session_record_serialize witness_record (calm tt) = (Ok data, calm tt) ∧
    session_record_deserialize data (calm tt)
      = (Ok (SessionRecord (sr_state witness_record) (sr_previous_states witness_record) false),
         calm tt).
Proof.
  apply session_record_roundtrip. split_and!; [by eexists| | |simpl; unfold ARCHIVED_STATES_MAX_LENGTH; lia].
  - intros s [= <-]. apply witness_stored_session_ok.
  - apply Forall_cons_2; [apply witness_stored_session_ok|].
    apply Forall_cons_2; [apply session_state_zero_storable|apply Forall_nil_2].
Defined.

Lemma session_record_promote_witness :
  let promoted_record s := SessionRecord (Some s)
    (take 40 (witness_stored_session :: sr_previous_states witness_record)) true in
  (∃ w', session_record_promote_state session_state_zero (witness_record, World (Some 1%nat) tt)
       = (Ok tt, (promoted_record session_state_zero, w'))
     ∨ session_record_promote_state session_state_zero (witness_record, World (Some 1%nat) tt)
       = (Err SG_ERR_NOMEM, (witness_record, w'))) ∧
  (∃ w', session_record_archive_current_state (witness_record, World (Some 1%nat) tt)
           = (Ok tt, (promoted_record session_state_zero, w'))
     ∨ session_record_archive_current_state (witness_record, World (Some 1%nat) tt)
       = (Err SG_ERR_NOMEM, (witness_record, w'))).
Proof.
  exact (session_record_promote_spec witness_record witness_stored_session session_state_zero
    (World (Some 1%nat) tt) eq_refl).
Defined.
