(* ===== verification/PreKeys.v ===== *)
(** Pre keys, signed pre keys, pre-key bundles (session_pre_key.c) and the
    stored form of an identity key pair (ratchet.c, lines 479-585). *)

From S2P Require Import Prelude Buffer Provider Hkdf Curve Ratchet SessionState Protobuf.
From S2P Require Import ProtobufSpec Wire SessionSerial.

Definition PRE_KEY_MEDIUM_MAX_VALUE : Z := 16777215.

Record session_pre_key : Type := SessionPreKey {
  spk_id : Z; spk_key_pair : ec_key_pair }.

Record session_signed_pre_key : Type := SessionSignedPreKey {
  sspk_id : Z; sspk_key_pair : ec_key_pair; sspk_timestamp : Z; sspk_signature : bytes }.

Record session_pre_key_bundle : Type := SessionPreKeyBundle {
  spb_registration_id : Z;
  spb_device_id : Z;
  spb_pre_key_id : Z;
  spb_pre_key_public : option ec_public_key;
  spb_signed_pre_key_id : Z;
  spb_signed_pre_key_public : option ec_public_key;
  spb_signed_pre_key_signature : option bytes;
  spb_identity_key : option ec_public_key }.

(** [sizeof(session_signed_pre_key)] without its flexible array. *)
Definition sizeof_session_signed_pre_key : Z := 48.

Section Defs.
Context {U : Type}.

(** ** Pre keys *)

Definition session_pre_key_create (id : Z) (key_pair : ec_key_pair) : M (world U) session_pre_key :=
  let* _ := alloc in
  ret (SessionPreKey id key_pair).

Definition session_pre_key_serialize (pre_key : option session_pre_key) : M (world U) bytes :=
  let* pre_key := non_null pre_key SG_ERR_INVAL in
  let* public_buf :=
    ec_public_key_serialize (Some (ec_key_pair_get_public (spk_key_pair pre_key))) in
  let* private_buf := ec_private_key_serialize (ec_key_pair_get_private (spk_key_pair pre_key)) in
  pb_to_buffer PreKeyRecordStructure
    [[VNum (spk_id pre_key)]; [VBytes public_buf]; [VBytes private_buf]].

Definition session_pre_key_deserialize (data : bytes) : M (world U) session_pre_key :=
  let* m := pb_unpack PreKeyRecordStructure data in
  let* m := non_null m SG_ERR_INVALID_PROTO_BUF in
  match pb_num m 0, pb_bytes m 1, pb_bytes m 2 with
  | Some id, Some publickey, Some privatekey =>
      let* public_key := curve_decode_point publickey in
      let* private_key := curve_decode_private_point privatekey in
      let* key_pair := ec_key_pair_create public_key private_key in
      session_pre_key_create id key_pair
  | _, _, _ => fail SG_ERR_INVALID_KEY
  end.

(** ** Signed pre keys *)

(** [assert(signature)] and [assert(signature_len > 0)] *)
Definition session_signed_pre_key_create (id timestamp : Z) (key_pair : ec_key_pair)
    (signature : bytes) : M (world U) session_signed_pre_key :=
  match signature with
  | [] => abort
  | _ =>
      if SIZE_MAX - sizeof_session_signed_pre_key <? zlen signature then fail SG_ERR_NOMEM
      else
        let* _ := alloc in
        ret (SessionSignedPreKey id key_pair timestamp signature)
  end.

Definition session_signed_pre_key_serialize (pre_key : session_signed_pre_key)
    : M (world U) bytes :=
  let* public_buf :=
    ec_public_key_serialize (Some (ec_key_pair_get_public (sspk_key_pair pre_key))) in
  let* private_buf := ec_private_key_serialize (ec_key_pair_get_private (sspk_key_pair pre_key)) in
  let* signature_buf := signal_buffer_create (sspk_signature pre_key) in
  let* signature := non_null signature_buf SG_ERR_NOMEM in
  pb_to_buffer SignedPreKeyRecordStructure
    [[VNum (sspk_id pre_key)]; [VBytes public_buf]; [VBytes private_buf]; [VBytes signature];
     [VNum (sspk_timestamp pre_key)]].

Definition session_signed_pre_key_deserialize (data : bytes) : M (world U) session_signed_pre_key :=
  let* m := pb_unpack SignedPreKeyRecordStructure data in
  let* m := non_null m SG_ERR_INVALID_PROTO_BUF in
  match pb_num m 0, pb_num m 4, pb_bytes m 1, pb_bytes m 2, pb_bytes m 3 with
  | Some id, Some timestamp, Some publickey, Some privatekey, Some signature =>
      let* public_key := curve_decode_point publickey in
      let* private_key := curve_decode_private_point privatekey in
      let* key_pair := ec_key_pair_create public_key private_key in
      session_signed_pre_key_create id timestamp key_pair signature
  | _, _, _, _, _ => fail SG_ERR_INVALID_KEY
  end.

(** ** Bundles *)

(** The copy of the signature is not checked: without memory the bundle is
    created with a null signature. *)
Definition session_pre_key_bundle_create (registration_id device_id pre_key_id : Z)
    (pre_key_public : option ec_public_key) (signed_pre_key_id : Z)
    (signed_pre_key_public : option ec_public_key) (signed_pre_key_signature_data : bytes)
    (identity_key : option ec_public_key) : M (world U) session_pre_key_bundle :=
  let* _ := alloc in
  let* signature := match signed_pre_key_signature_data with
    | [] => ret None
    | data => signal_buffer_create data
    end in
  ret (SessionPreKeyBundle registration_id device_id pre_key_id pre_key_public
         signed_pre_key_id signed_pre_key_public signature identity_key).

(** ** The stored identity *)

Definition ratchet_identity_key_pair_serialize (key_pair : option ratchet_identity_key_pair)
    : M (world U) bytes :=
  let* key_pair := non_null key_pair SG_ERR_INVAL in
  let* halves := serialize_pair (ik_public key_pair) (ik_private key_pair) in
  pb_to_buffer IdentityKeyPairStructure [[VBytes halves.1]; [VBytes halves.2]].

Definition ratchet_identity_key_pair_deserialize (data : bytes)
    : M (world U) ratchet_identity_key_pair :=
  let* m := pb_unpack IdentityKeyPairStructure data in
  let* m := non_null m SG_ERR_INVALID_PROTO_BUF in
  match pb_bytes m 0, pb_bytes m 1 with
  | Some publickey, Some privatekey =>
      let* public_key := curve_decode_point publickey in
      let* private_key := curve_decode_private_point privatekey in
      ratchet_identity_key_pair_create public_key private_key
  | _, _ => fail SG_ERR_INVALID_KEY
  end.
End Defs.

(** ** Round trips *)

Section Roundtrips.
Context {U : Type} (u : U).

Lemma ec_private_key_serialize_calm k : wf_sk k →
  ec_private_key_serialize k (calm u) = (Ok (sk_data k), calm u).
Proof.
  intros H. unfold ec_private_key_serialize.
  step (signal_buffer_alloc_calm u DJB_KEY_LEN ltac:(done)).
  unfold bind, non_null, ret. by rewrite take_ge by (unfold wf_sk in H; lia).
Qed.

Lemma decode_halves pub priv : wf_pk pub → wf_sk priv → ∀ A (k : _ → _ → M (world U) A),
  (let* public_key := curve_decode_point (pk_pb pub) in
   let* private_key := curve_decode_private_point (sk_data priv) in
   k public_key private_key) (calm u) = k pub priv (calm u).
Proof.
  intros Hp Hs A k. step (decode_pk_pb u pub Hp).
  step (curve_decode_private_point_calm u (sk_data priv) Hs). by destruct priv.
Qed.

Definition pre_key_pb (k : session_pre_key) : pb_msg :=
  [[VNum (spk_id k)]; [VBytes (pk_pb (kp_public (spk_key_pair k)))];
   [VBytes (sk_data (kp_private (spk_key_pair k)))]].

Definition signed_pre_key_pb (k : session_signed_pre_key) : pb_msg :=
  [[VNum (sspk_id k)]; [VBytes (pk_pb (kp_public (sspk_key_pair k)))];
   [VBytes (sk_data (kp_private (sspk_key_pair k)))]; [VBytes (sspk_signature k)];
   [VNum (sspk_timestamp k)]].

Definition identity_pb (k : ratchet_identity_key_pair) : pb_msg :=
  [[VBytes (pk_pb (ik_public k))]; [VBytes (sk_data (ik_private k))]].

Definition storable_pre_key (k : session_pre_key) : Prop :=
  is_u32 (spk_id k) ∧ stored_pair (spk_key_pair k).

Definition storable_signed_pre_key (k : session_signed_pre_key) : Prop :=
  is_u32 (sspk_id k) ∧ stored_pair (sspk_key_pair k) ∧ 0 <= sspk_timestamp k < 2 ^ 64 ∧
  0 < zlen (sspk_signature k) < 2 ^ 25.

Lemma pair_weight pub priv : wf_pk pub → wf_sk priv →
  zlen (pk_pb pub) = 33 ∧ zlen (sk_data priv) = 32.
Proof. intros Hp Hs. split; [by apply pk_pb_len|]. unfold zlen. by rewrite Hs. Qed.

Lemma pre_key_pb_ok k : storable_pre_key k →
  wt_msg PB_DEPTH PreKeyRecordStructure (pre_key_pb k) ∧ pb_weight PB_DEPTH (pre_key_pb k) < 2 ^ 26.
Proof.
  intros (Hi & Hp & Hs). split; [wt_fields; exact Hi|].
  unfold pre_key_pb, PB_DEPTH. weigh. destruct (pair_weight _ _ Hp Hs) as [-> ->]. lia.
Qed.

Lemma signed_pre_key_pb_ok k : storable_signed_pre_key k →
  wt_msg PB_DEPTH SignedPreKeyRecordStructure (signed_pre_key_pb k) ∧
  pb_weight PB_DEPTH (signed_pre_key_pb k) < 2 ^ 26.
Proof.
  intros (Hi & [Hp Hs] & Ht & Hl). split; [wt_fields; [exact Hi|exact Ht]|].
  unfold signed_pre_key_pb, PB_DEPTH. weigh. destruct (pair_weight _ _ Hp Hs) as [-> ->]. lia.
Qed.

Lemma identity_pb_ok k : stored_identity k →
  wt_msg PB_DEPTH IdentityKeyPairStructure (identity_pb k) ∧
  pb_weight PB_DEPTH (identity_pb k) < 2 ^ 26.
Proof.
  intros [Hp Hs]. split; [wt_fields|].
  unfold identity_pb, PB_DEPTH. weigh. destruct (pair_weight _ _ Hp Hs) as [-> ->]. lia.
Qed.

Lemma pre_key_serialize_calm k : storable_pre_key k →
  session_pre_key_serialize (Some k) (calm u)
  = (Ok (pb_pack PreKeyRecordStructure (pre_key_pb k)), calm u).
Proof.
  intros Hk. pose proof Hk as (Hi & Hp & Hs). destruct (pre_key_pb_ok k Hk) as [Hwt Hw].
  unfold session_pre_key_serialize. step_to k (calm u) by done.
  step (ec_public_key_serialize_calm u _ Hp). step (ec_private_key_serialize_calm _ Hs).
  by apply pb_to_buffer_calm.
Qed.

Lemma pre_key_deserialize_calm k : storable_pre_key k →
  session_pre_key_deserialize (pb_pack PreKeyRecordStructure (pre_key_pb k)) (calm u)
  = (Ok k, calm u).
Proof.
  intros Hk. pose proof Hk as (Hi & Hp & Hs). destruct (pre_key_pb_ok k Hk) as [Hwt Hw].
  destruct (pb_roundtrip_weight u _ _ Hwt Hw) as (_ & _ & Hun).
  unfold session_pre_key_deserialize. step Hun. step_to (pre_key_pb k) (calm u) by done.
  unfold pre_key_pb. pb_read. rewrite (decode_halves _ _ Hp Hs). by destruct k as [i []].
Qed.

Lemma signed_pre_key_serialize_calm k : storable_signed_pre_key k →
  session_signed_pre_key_serialize k (calm u)
  = (Ok (pb_pack SignedPreKeyRecordStructure (signed_pre_key_pb k)), calm u).
Proof.
  intros Hk. pose proof Hk as (Hi & [Hp Hs] & _ & Hl).
  destruct (signed_pre_key_pb_ok k Hk) as [Hwt Hw].
  unfold session_signed_pre_key_serialize.
  step (ec_public_key_serialize_calm u _ Hp). step (ec_private_key_serialize_calm _ Hs).
  step (signal_buffer_create_calm u (sspk_signature k) ltac:(unfold SIZE_MAX; lia)).
  step_to (sspk_signature k) (calm u) by done. by apply pb_to_buffer_calm.
Qed.

Lemma signed_pre_key_deserialize_calm k : storable_signed_pre_key k →
  session_signed_pre_key_deserialize (pb_pack SignedPreKeyRecordStructure (signed_pre_key_pb k))
    (calm u) = (Ok k, calm u).
Proof.
  intros Hk. pose proof Hk as (Hi & [Hp Hs] & _ & Hl).
  destruct (signed_pre_key_pb_ok k Hk) as [Hwt Hw].
  destruct (pb_roundtrip_weight u _ _ Hwt Hw) as (_ & _ & Hun).
  unfold session_signed_pre_key_deserialize. step Hun.
  step_to (signed_pre_key_pb k) (calm u) by done.
  unfold signed_pre_key_pb. pb_read. rewrite (decode_halves _ _ Hp Hs).
  unfold ec_key_pair_create. unfold bind at 1. step (alloc_calm u).
  destruct k as [i [pub priv] t sig]. cbn [sspk_signature sspk_key_pair] in *.
  unfold session_signed_pre_key_create, sizeof_session_signed_pre_key.
  rewrite (proj2 (Z.ltb_ge _ _)) by (unfold SIZE_MAX; lia). destruct sig; [|done]. unfold zlen in Hl. simpl in Hl. lia.
Qed.

Lemma identity_serialize_calm k : stored_identity k →
  ratchet_identity_key_pair_serialize (Some k) (calm u)
  = (Ok (pb_pack IdentityKeyPairStructure (identity_pb k)), calm u).
Proof.
  intros Hk. pose proof Hk as [Hp Hs]. destruct (identity_pb_ok k Hk) as [Hwt Hw].
  unfold ratchet_identity_key_pair_serialize. step_to k (calm u) by done.
  step (serialize_pair_calm u _ _ Hp Hs). by apply pb_to_buffer_calm.
Qed.

Lemma identity_deserialize_calm k : stored_identity k →
  ratchet_identity_key_pair_deserialize (pb_pack IdentityKeyPairStructure (identity_pb k)) (calm u)
  = (Ok k, calm u).
Proof.
  intros Hk. pose proof Hk as [Hp Hs]. destruct (identity_pb_ok k Hk) as [Hwt Hw].
  destruct (pb_roundtrip_weight u _ _ Hwt Hw) as (_ & _ & Hun).
  unfold ratchet_identity_key_pair_deserialize. step Hun.
  step_to (identity_pb k) (calm u) by done.
  unfold identity_pb. pb_read. rewrite (decode_halves _ _ Hp Hs). by destruct k.
Qed.

(** pre keys, signed pre keys and identity key pairs survive storage: each
    serializes, and reading the bytes back gives the same object. *)
Theorem stored_keys_roundtrip (k : session_pre_key) (s : session_signed_pre_key)
    (i : ratchet_identity_key_pair) :
  storable_pre_key k → storable_signed_pre_key s → stored_identity i →
  (∃ data, session_pre_key_serialize (Some k) (calm u) = (Ok data, calm u) ∧
     session_pre_key_deserialize data (calm u) = (Ok k, calm u)) ∧
  (∃ data, session_signed_pre_key_serialize s (calm u) = (Ok data, calm u) ∧
     session_signed_pre_key_deserialize data (calm u) = (Ok s, calm u)) ∧
  (∃ data, ratchet_identity_key_pair_serialize (Some i) (calm u) = (Ok data, calm u) ∧
     ratchet_identity_key_pair_deserialize data (calm u) = (Ok i, calm u)).
Proof.
  intros Hk Hs Hi. split_and!; eexists; split.
  - by apply pre_key_serialize_calm.
  - by apply pre_key_deserialize_calm.
  - by apply signed_pre_key_serialize_calm.
  - by apply signed_pre_key_deserialize_calm.
  - by apply identity_serialize_calm.
  - by apply identity_deserialize_calm.
Qed.
End Roundtrips.

Lemma stored_keys_roundtrip_witness :
  let kp := EcKeyPair (witness_key 1) (EcPrivateKey (replicate 32 2)) in
  let k := SessionPreKey 5 kp in
  let s := SessionSignedPreKey 6 kp 1600000000000 (replicate 64 3) in
  let i := RatchetIdentityKeyPair (witness_key 1) (EcPrivateKey (replicate 32 2)) in
  (∃ data, session_pre_key_serialize (Some k) (calm tt) = (Ok data, calm tt) ∧
     session_pre_key_deserialize data (calm tt) = (Ok k, calm tt)) ∧
  (∃ data, session_signed_pre_key_serialize s (calm tt) = (Ok data, calm tt) ∧
     session_signed_pre_key_deserialize data (calm tt) = (Ok s, calm tt)) ∧
  (∃ data, ratchet_identity_key_pair_serialize (Some i) (calm tt) = (Ok data, calm tt) ∧
     ratchet_identity_key_pair_deserialize data (calm tt) = (Ok i, calm tt)).
Proof.
  apply stored_keys_roundtrip.
  - split; [split; simpl; lia|by split].
  - split; [split; simpl; lia|]. split; [by split|]. split; [simpl; lia|].
    unfold zlen. simpl. lia.
  - by split.
Defined.
