(* ===== verification/SenderKey.v ===== *)
(** Sender keys of group sessions: chain and message keys (sender_key.c), the
    state of one sender (sender_key_state.c) and the record of its states
    (sender_key_record.c). *)

From stdpp Require Import strings.
From S2P Require Import Prelude Buffer Provider Hkdf Curve Ratchet SessionState Protobuf.
From S2P Require Import ProtobufSpec Wire SessionSerial.

Definition MAX_STATES : nat := 5.

Record sender_message_key : Type := SenderMessageKey {
  smk_iteration : Z; smk_iv : bytes; smk_cipher_key : bytes; smk_seed : bytes }.

Record sender_chain_key : Type := SenderChainKey {
  sck_iteration : Z; sck_chain_key : bytes }.

Record sender_key_state : Type := SenderKeyState {
  sks_key_id : Z;
  sks_chain_key : sender_chain_key;
  sks_signature_public_key : ec_public_key;
  sks_signature_private_key : option ec_private_key;
  sks_message_keys : list sender_message_key }.

(** Newest state first. *)
Record sender_key_record : Type := SenderKeyRecord {
  skr_states : list sender_key_state }.

Definition group_info : bytes := Eval vm_compute in str_bytes "WhisperGroup".

(** A failure on this path releases the new object, whose pointers have not
    all been set: [malloc] does not clear memory. *)
Definition crash_on_error {S A} (m : M S A) : M S A := λ s,
  match m s with
  | (Err _, s') => (Abort, s')
  | r => r
  end.

Section Defs.
Context {U : Type} {CP : CryptoProvider U}.

(** ** sender_key.c *)

Definition sender_message_key_create (iteration : Z) (seed : option bytes)
    : M (world U) sender_message_key :=
  let* seed := non_null seed SG_ERR_INVAL in
  let* _ := alloc in
  let* parts := crash_on_error (
    let* kdf := hkdf_create 3 in
    let* derivative := hkdf_derive_secrets kdf seed zero_salt (Some group_info) 48 in
    if negb (zlen derivative =? 48) then fail SG_ERR_UNKNOWN
    else
      let* copy := signal_buffer_copy seed in
      let* copy := non_null copy SG_ERR_NOMEM in
      let* iv := signal_buffer_create (take 16 derivative) in
      let* iv := non_null iv SG_ERR_NOMEM in
      ret (derivative, copy, iv)) in
  let* cipher_key := signal_buffer_create (take 32 (drop 16 parts.1.1)) in
  let* cipher_key := non_null cipher_key SG_ERR_NOMEM in
  ret (SenderMessageKey iteration parts.2 cipher_key parts.1.2).

Definition sender_chain_key_create (iteration : Z) (chain_key : option bytes)
    : M (world U) sender_chain_key :=
  let* chain_key := non_null chain_key SG_ERR_INVAL in
  let* _ := alloc in
  let* copy := signal_buffer_copy chain_key in
  let* copy := non_null copy SG_ERR_NOMEM in
  ret (SenderChainKey iteration copy).

Definition sender_chain_key_get_derivative (seed : Z) (key : bytes) : M (world U) bytes :=
  let* hmac_context := signal_hmac_sha256_init key in
  let* hmac_context := signal_hmac_sha256_update hmac_context [seed] in
  signal_hmac_sha256_final hmac_context.

Definition sender_chain_key_create_message_key (key : sender_chain_key)
    : M (world U) sender_message_key :=
  let* derivative := sender_chain_key_get_derivative 1 (sck_chain_key key) in
  sender_message_key_create (sck_iteration key) (Some derivative).

Definition sender_chain_key_create_next (key : sender_chain_key) : M (world U) sender_chain_key :=
  let* derivative := sender_chain_key_get_derivative 2 (sck_chain_key key) in
  sender_chain_key_create (u32 (sck_iteration key + 1)) (Some derivative).

(** ** sender_key_state.c *)

Definition sender_key_state_create (id : Z) (chain_key : option sender_chain_key)
    (signature_public_key : option ec_public_key) (signature_private_key : option ec_private_key)
    : M (world U) sender_key_state :=
  match chain_key, signature_public_key with
  | Some chain_key, Some public_key =>
      let* _ := alloc in
      ret (SenderKeyState id chain_key public_key signature_private_key [])
  | _, _ => fail SG_ERR_INVAL
  end.

Definition sender_key_state_serialize_prepare (state : sender_key_state) : M (world U) pb_msg :=
  let* _ := alloc in
  let* _ := alloc in
  let* public_ := ec_public_key_serialize_protobuf (sks_signature_public_key state) in
  let* private_ := opt_mapM ec_private_key_serialize_protobuf (sks_signature_private_key state) in
  let* keys := match sks_message_keys state with
    | [] => ret []
    | keys =>
        let* _ := alloc in
        mapM_list (λ k, let* _ := alloc in
          ret [[VNum (smk_iteration k)]; [VBytes (smk_seed k)]]) keys
    end in
  ret [[VNum (sks_key_id state)];
       [VMsg [[VNum (sck_iteration (sks_chain_key state))];
              [VBytes (sck_chain_key (sks_chain_key state))]]];
       [VMsg [[VBytes public_]; opt_bytes private_]];
       VMsg <$> keys].

Definition sender_key_state_serialize (state : sender_key_state) : M (world U) bytes :=
  let* _ := alloc in
  let* m := sender_key_state_serialize_prepare state in
  pb_to_buffer SenderKeyStateStructure m.

Definition sender_key_state_set_chain_key (chain_key : sender_chain_key) (state : sender_key_state)
    : sender_key_state :=
  SenderKeyState (sks_key_id state) chain_key (sks_signature_public_key state)
    (sks_signature_private_key state) (sks_message_keys state).

Definition set_sender_message_keys (keys : list sender_message_key) (state : sender_key_state)
    : sender_key_state :=
  SenderKeyState (sks_key_id state) (sks_chain_key state) (sks_signature_public_key state)
    (sks_signature_private_key state) keys.

Definition sender_key_state_has_sender_message_key (state : sender_key_state) (iteration : Z) : bool :=
  existsb (λ k, smk_iteration k =? iteration) (sks_message_keys state).

Definition sender_key_state_add_sender_message_key (message_key : sender_message_key)
    : M (sender_key_state * world U) unit :=
  let* _ := lift alloc in
  let* state := get_obj in
  put_obj (set_sender_message_keys
    (trim_front MAX_MESSAGE_KEYS (sks_message_keys state ++ [message_key])) state).

(** The first key with the iteration is unlinked. *)
Fixpoint remove_sender_message_key (l : list sender_message_key) (iteration : Z)
    : option sender_message_key * list sender_message_key :=
  match l with
  | [] => (None, [])
  | k :: l =>
      if smk_iteration k =? iteration then (Some k, l)
      else let '(r, l') := remove_sender_message_key l iteration in (r, k :: l')
  end.

Definition sender_key_state_remove_sender_message_key (iteration : Z)
    : M (sender_key_state * world U) (option sender_message_key) :=
  let* state := get_obj in
  let '(r, keys) := remove_sender_message_key (sks_message_keys state) iteration in
  let* _ := put_obj (set_sender_message_keys keys state) in
  ret r.

(** One round of the loop over [sendermessagekeys]; an incomplete entry is
    skipped. *)
Definition read_sender_message_key (m : pb_msg) : M (sender_key_state * world U) unit :=
  match pb_num m 0, pb_bytes m 1 with
  | Some iteration, Some seed =>
      let* seed_buffer := lift (signal_buffer_create seed) in
      let* seed_buffer := non_null seed_buffer SG_ERR_NOMEM in
      let* message_key := lift (sender_message_key_create iteration (Some seed_buffer)) in
      sender_key_state_add_sender_message_key message_key
  | _, _ => ret tt
  end.

Definition sender_key_state_deserialize_protobuf (m : pb_msg) : M (world U) sender_key_state :=
  let* chain_key := match pb_sub m 1 with
    | Some ck =>
        match pb_num ck 0, pb_bytes ck 1 with
        | Some iteration, Some seed =>
            let* seed_buffer := signal_buffer_create seed in
            let* seed_buffer := non_null seed_buffer SG_ERR_NOMEM in
            let* chain_key := sender_chain_key_create iteration (Some seed_buffer) in
            ret (Some chain_key)
        | _, _ => ret None
        end
    | None => ret None
    end in
  let signing_key := default [] (pb_sub m 2) in
  let* public_key := opt_mapM curve_decode_point (pb_bytes signing_key 0) in
  let* private_key := opt_mapM curve_decode_private_point (pb_bytes signing_key 1) in
  match pb_num m 0, chain_key, public_key with
  | Some id, Some _, Some _ =>
      let* state := sender_key_state_create id chain_key public_key private_key in
      let* r := with_obj state (mapM_list read_sender_message_key (pb_subs m 3)) in
      ret r.2
  | _, _, _ => fail SG_ERR_INVALID_PROTO_BUF
  end.

Definition sender_key_state_deserialize (data : bytes) : M (world U) sender_key_state :=
  let* m := pb_unpack SenderKeyStateStructure data in
  let* m := non_null m SG_ERR_INVALID_PROTO_BUF in
  sender_key_state_deserialize_protobuf m.

Definition sender_key_state_copy (other_state : sender_key_state) : M (world U) sender_key_state :=
  let* data := sender_key_state_serialize other_state in
  sender_key_state_deserialize data.

(** ** sender_key_record.c *)

Definition sender_key_record_create : M (world U) sender_key_record :=
  let* _ := alloc in ret (SenderKeyRecord []).

Definition sender_key_record_serialize (record : sender_key_record) : M (world U) bytes :=
  let* states := match skr_states record with
    | [] => ret []
    | states =>
        let* _ := alloc in
        mapM_list (λ s, let* _ := alloc in sender_key_state_serialize_prepare s) states
    end in
  pb_to_buffer SenderKeyRecordStructure [VMsg <$> states].

Definition sender_key_record_deserialize (data : bytes) : M (world U) sender_key_record :=
  let* m := pb_unpack SenderKeyRecordStructure data in
  let* m := non_null m SG_ERR_INVALID_PROTO_BUF in
  let* _ := sender_key_record_create in
  let* states := mapM_list (λ s,
    let* state := sender_key_state_deserialize_protobuf s in
    let* _ := alloc in
    ret state) (pb_subs m 0) in
  ret (SenderKeyRecord states).

Definition sender_key_record_copy (other_record : sender_key_record)
    : M (world U) sender_key_record :=
  let* data := sender_key_record_serialize other_record in
  sender_key_record_deserialize data.

Definition sender_key_record_is_empty (record : sender_key_record) : bool :=
  match skr_states record with [] => true | _ => false end.

Definition sender_key_record_get_sender_key_state (record : sender_key_record)
    : M (world U) sender_key_state :=
  match skr_states record with
  | state :: _ => ret state
  | [] => fail SG_ERR_INVALID_KEY_ID
  end.

(** The position of the first state with the id, which stands for the pointer
    the C function returns. *)
Fixpoint find_sender_key_state (l : list sender_key_state) (key_id : Z) : option nat :=
  match l with
  | [] => None
  | s :: l => if sks_key_id s =? key_id then Some O else S <$> find_sender_key_state l key_id
  end.
Definition sender_key_record_get_sender_key_state_by_id (record : sender_key_record) (key_id : Z)
    : M (world U) nat :=
  non_null (find_sender_key_state (skr_states record) key_id) SG_ERR_INVALID_KEY_ID.

(** [while(count > MAX_STATES)] deletes the last node. *)
Definition sender_key_record_add_sender_key_state_impl (id iteration : Z)
    (chain_key : option bytes) (signature_public_key : option ec_public_key)
    (signature_private_key : option ec_private_key) : M (sender_key_record * world U) unit :=
  let* chain_key_element := lift (sender_chain_key_create iteration chain_key) in
  let* state := lift (sender_key_state_create id (Some chain_key_element)
    signature_public_key signature_private_key) in
  let* _ := lift alloc in
  let* record := get_obj in
  put_obj (SenderKeyRecord (take MAX_STATES (state :: skr_states record))).

Definition sender_key_record_add_sender_key_state (id iteration : Z) (chain_key : option bytes)
    (signature_key : option ec_public_key) : M (sender_key_record * world U) unit :=
  sender_key_record_add_sender_key_state_impl id iteration chain_key signature_key None.

Definition sender_key_record_set_sender_key_state (id iteration : Z) (chain_key : option bytes)
    (signature_key_pair : ec_key_pair) : M (sender_key_record * world U) unit :=
  let* _ := put_obj (SenderKeyRecord []) in
  sender_key_record_add_sender_key_state_impl id iteration chain_key
    (Some (ec_key_pair_get_public signature_key_pair))
    (Some (ec_key_pair_get_private signature_key_pair)).
End Defs.


(** ** The sender key schedule *)

Section Schedule.
Context {U : Type} {CP : CryptoProvider U} {HL : HmacLaws CP}.

Definition smk_material (seed : bytes) : bytes := rfc_hkdf 1 seed zero_salt group_info 48.

(** The message key a seed stands for. *)
Definition smk_of (iteration : Z) (seed : bytes) : sender_message_key :=
  SenderMessageKey iteration (take 16 (smk_material seed)) (take 32 (drop 16 (smk_material seed)))
    seed.

Definition sck_message_key (ck : sender_chain_key) : sender_message_key :=
  smk_of (sck_iteration ck) (hmac (sck_chain_key ck) [1]).

Definition sck_next (ck : sender_chain_key) : sender_chain_key :=
  SenderChainKey (u32 (sck_iteration ck + 1)) (hmac (sck_chain_key ck) [2]).

Fixpoint sck_advance (n : nat) (ck : sender_chain_key) : sender_chain_key :=
  match n with
  | O => ck
  | S n => sck_advance n (sck_next ck)
  end.

Lemma sck_advance_S n ck : sck_advance (S n) ck = sck_next (sck_advance n ck).
Proof. revert ck. induction n as [|n IH]; intros ck; [done|]. apply IH. Qed.

Lemma sck_advance_add n m ck : sck_advance (n + m) ck = sck_advance m (sck_advance n ck).
Proof. revert ck. induction n as [|n IH]; intros ck; [done|]. apply IH. Qed.

Lemma sck_advance_iteration n ck : is_u32 (sck_iteration ck) →
  sck_iteration (sck_advance n ck) = u32 (sck_iteration ck + Z.of_nat n).
Proof.
  revert ck. induction n as [|n IH]; intros ck H.
  { simpl. rewrite Z.add_0_r. by rewrite u32_small. }
  simpl sck_advance. rewrite IH by apply u32_range. simpl. unfold u32.
  rewrite Z.add_mod_idemp_l by done. f_equal. lia.
Qed.

Lemma smk_material_length seed : length (smk_material seed) = 48%nat.
Proof. apply zlen_length, rfc_hkdf_length. done. Qed.

Lemma sender_message_key_create_calm (u : U) iteration seed :
  zlen seed <= SIZE_MAX - 8 →
  sender_message_key_create iteration (Some seed) (calm u) = (Ok (smk_of iteration seed), calm u).
Proof.
  intros Hs. unfold sender_message_key_create.
  step_to seed (calm u) by done. step (alloc_calm u).
  assert (length (take 16 (smk_material seed)) = 16%nat) as H16
    by (rewrite length_take, smk_material_length; done).
  assert (length (take 32 (drop 16 (smk_material seed))) = 32%nat) as H32
    by (rewrite length_take, length_drop, smk_material_length; done).
  step_goal (smk_material seed, seed, take 16 (smk_material seed)) (calm u).
  - cbn [fst snd]. step (signal_buffer_create_calm u (take 32 (drop 16 (smk_material seed)))
      ltac:(unfold zlen; rewrite H32; done)). done.
  - unfold crash_on_error. step_to (HkdfContext 1) (calm u) by done.
    step (hkdf_derive_secrets_run u (HkdfContext 1) seed zero_salt group_info 48 ltac:(done)
      ltac:(done) ltac:(done)).
    change (rfc_hkdf _ seed zero_salt group_info 48) with (smk_material seed).
    assert (zlen (smk_material seed) = 48) as -> by (unfold zlen; by rewrite smk_material_length).
    cbn [negb Z.eqb Pos.eqb].
    step_to (Some seed) (calm u) by (by apply signal_buffer_create_calm).
    step_to seed (calm u) by done.
    step (signal_buffer_create_calm u (take 16 (smk_material seed))
      ltac:(unfold zlen; rewrite H16; done)). done.
Qed.

Lemma sender_chain_key_create_calm (u : U) iteration key :
  zlen key <= SIZE_MAX - 8 →
  sender_chain_key_create iteration (Some key) (calm u)
  = (Ok (SenderChainKey iteration key), calm u).
Proof.
  intros Hs. unfold sender_chain_key_create. step_to key (calm u) by done. step (alloc_calm u).
  step_to (Some key) (calm u) by (by apply signal_buffer_create_calm). done.
Qed.

Lemma sender_derivative_calm (u : U) seed key :
  sender_chain_key_get_derivative seed key (calm u) = (Ok (hmac key [seed]), calm u).
Proof. apply (hmac_once (calm u)). Qed.

Lemma hmac_short key msg : zlen (hmac key msg) <= SIZE_MAX - 8.
Proof. unfold zlen. rewrite hmac_length. done. Qed.

Lemma sender_create_message_key_calm (u : U) ck :
  sender_chain_key_create_message_key ck (calm u) = (Ok (sck_message_key ck), calm u).
Proof.
  unfold sender_chain_key_create_message_key. step (sender_derivative_calm u).
  apply sender_message_key_create_calm, hmac_short.
Qed.

Lemma sender_create_next_calm (u : U) ck :
  sender_chain_key_create_next ck (calm u) = (Ok (sck_next ck), calm u).
Proof.
  unfold sender_chain_key_create_next. step (sender_derivative_calm u).
  apply sender_chain_key_create_calm, hmac_short.
Qed.
End Schedule.
Global Arguments sck_advance : simpl never.

(** ** Storage round trip *)

Definition sender_message_key_pb (k : sender_message_key) : pb_msg :=
  [[VNum (smk_iteration k)]; [VBytes (smk_seed k)]].
Definition sender_chain_key_pb (ck : sender_chain_key) : pb_msg :=
  [[VNum (sck_iteration ck)]; [VBytes (sck_chain_key ck)]].
Definition signing_key_pb (s : sender_key_state) : pb_msg :=
  [[VBytes (pk_pb (sks_signature_public_key s))];
   opt_bytes (sk_data <$> sks_signature_private_key s)].
Definition sender_state_pb (s : sender_key_state) : pb_msg :=
  [[VNum (sks_key_id s)]; [VMsg (sender_chain_key_pb (sks_chain_key s))];
   [VMsg (signing_key_pb s)]; VMsg <$> (sender_message_key_pb <$> sks_message_keys s)].
Definition sender_record_pb (r : sender_key_record) : pb_msg :=
  [VMsg <$> (sender_state_pb <$> skr_states r)].

(** The bound of one stored state. *)
Definition SENDER_STATE_WEIGHT : Z := 2 ^ 21.

Section Roundtrip.
Context {U : Type} {CP : CryptoProvider U} {HL : HmacLaws CP} (u : U).

(** A stored message key is the one its seed stands for: only the seed is
    written. *)
Definition stored_sender_message_key (k : sender_message_key) : Prop :=
  is_u32 (smk_iteration k) ∧ length (smk_seed k) = 32%nat ∧
  k = smk_of (smk_iteration k) (smk_seed k).

Definition storable_sender_state (s : sender_key_state) : Prop :=
  is_u32 (sks_key_id s) ∧ is_u32 (sck_iteration (sks_chain_key s)) ∧
  zlen (sck_chain_key (sks_chain_key s)) < 2 ^ 20 ∧
  wf_pk (sks_signature_public_key s) ∧ opt_all wf_sk (sks_signature_private_key s) ∧
  Forall stored_sender_message_key (sks_message_keys s) ∧
  (length (sks_message_keys s) ≤ MAX_MESSAGE_KEYS)%nat.

Definition storable_sender_record (r : sender_key_record) : Prop :=
  Forall storable_sender_state (skr_states r) ∧ (length (skr_states r) ≤ MAX_STATES)%nat.

Lemma wt_sender_state d s : storable_sender_state s →
  wt_msg (S (S d)) SenderKeyStateStructure (sender_state_pb s).
Proof.
  intros (Hid & Hit & _ & _ & _ & Hk & _).
  assert (wt_msg (S d) SenderKeyStateStructureSenderChainKey
    (sender_chain_key_pb (sks_chain_key s))) as Hck by (wt_fields; exact Hit).
  assert (wt_msg (S d) SenderKeyStateStructureSenderSigningKey (signing_key_pb s)) as Hsk
    by wt_fields.
  wt_fields.
  - exact Hid.
  - exact Hck.
  - exact Hsk.
  - eapply Forall_impl; [exact Hk|]. intros k (Hi & _). wt_fields. exact Hi.
Qed.

Lemma weight_sender_message_key d k :
  stored_sender_message_key k → pb_weight (S d) (sender_message_key_pb k) <= 57.
Proof. intros (_ & Hl & _). unfold sender_message_key_pb. weigh. unfold zlen. rewrite Hl. lia. Qed.

Lemma weight_sender_state d s : storable_sender_state s →
  pb_weight (S (S d)) (sender_state_pb s) <= SENDER_STATE_WEIGHT.
Proof.
  intros (_ & _ & Hck & Hp & Hs & Hk & Hl). unfold sender_state_pb. weigh.
  pose proof (vals_weight_subs (pb_weight (S d)) sender_message_key_pb (sks_message_keys s) 57
    (Forall_impl _ _ _ Hk (weight_sender_message_key d))).
  pose proof (vals_weight_if_sub (pb_weight (S d)) true (signing_key_pb s) 100 ltac:(lia)).
  pose proof (vals_weight_if_sub (pb_weight (S d)) true (sender_chain_key_pb (sks_chain_key s))
    (2 ^ 20 + 25) ltac:(lia)) as H1.
  assert (pb_weight (S d) (signing_key_pb s) <= 100).
  { unfold signing_key_pb. weigh. rewrite (pk_pb_len _ Hp).
    pose proof (vals_weight_opt_bytes (pb_weight d) sk_data (sks_signature_private_key s) 32
      ltac:(lia) (λ k Hk, proj2 (zlen_length _ 32) (Hs k Hk))). lia. }
  assert (pb_weight (S d) (sender_chain_key_pb (sks_chain_key s)) <= 2 ^ 20 + 25)
    by (unfold sender_chain_key_pb; weigh; lia).
  unfold MAX_MESSAGE_KEYS, SENDER_STATE_WEIGHT in *. cbn iota in *. lia.
Qed.

Lemma sender_prepare_calm s : storable_sender_state s →
  sender_key_state_serialize_prepare s (calm u) = (Ok (sender_state_pb s), calm u).
Proof.
  intros (_ & _ & _ & Hp & Hs & _). unfold sender_key_state_serialize_prepare.
  do 2 step (alloc_calm u).
  step_to (pk_pb (sks_signature_public_key s)) (calm u) by (by apply ec_public_key_serialize_protobuf_calm).
  step_to (sk_data <$> sks_signature_private_key s) (calm u) by (apply opt_mapM_run;
    intros k Hk; by apply ec_private_key_serialize_protobuf_calm, Hs).
  step_goal (sender_message_key_pb <$> sks_message_keys s) (calm u); [done|].
  destruct (sks_message_keys s) as [|k l]; [done|]. step (alloc_calm u).
  by apply mapM_list_run, Forall_true.
Qed.

Lemma read_sender_keys_calm l s : Forall stored_sender_message_key l →
  (length (sks_message_keys s ++ l) ≤ MAX_MESSAGE_KEYS)%nat →
  ∃ r, mapM_list read_sender_message_key (sender_message_key_pb <$> l) (s, calm u)
    = (Ok r, (set_sender_message_keys (sks_message_keys s ++ l) s, calm u)).
Proof.
  intros Hl. revert s. induction Hl as [|k l (Hi & Hlen & Hk) _ IH]; intros s Hs.
  { exists []. rewrite app_nil_r. by destruct s. }
  set (s' := set_sender_message_keys (sks_message_keys s ++ [k]) s).
  destruct (IH s') as [r Hr]; [by unfold s'; simpl; rewrite <-app_assoc|].
  exists (tt :: r). rewrite fmap_cons. cbn [mapM_list].
  step_goal tt (s', calm u).
  - step Hr. simpl. by rewrite <-app_assoc.
  - unfold read_sender_message_key, sender_message_key_pb. pb_read.
    assert (zlen (smk_seed k) <= SIZE_MAX - 8) by (unfold zlen; rewrite Hlen; done).
    step_to (Some (smk_seed k)) (s, calm u)
      by (apply lift_run; by apply signal_buffer_create_calm).
    step_to (smk_seed k) (s, calm u) by done.
    step_to k (s, calm u)
      by (apply lift_run; rewrite Hk at 3; by apply sender_message_key_create_calm).
    unfold sender_key_state_add_sender_message_key.
    step_to tt (s, calm u) by done. step_to s (s, calm u) by done.
    unfold put_obj. rewrite trim_front_le; [done|].
    rewrite !length_app in *. simpl in *. lia.
Qed.

Lemma read_sender_state_calm s : storable_sender_state s →
  sender_key_state_deserialize_protobuf (sender_state_pb s) (calm u) = (Ok s, calm u).
Proof.
  intros (_ & _ & Hck & Hp & Hs & Hk & Hl). unfold sender_key_state_deserialize_protobuf.
  assert (zlen (sck_chain_key (sks_chain_key s)) <= SIZE_MAX - 8)
    by (unfold SIZE_MAX; lia).
  unfold sender_state_pb, sender_chain_key_pb, signing_key_pb. pb_read.
  cbn [default from_option id lookup list_lookup val_bytes].
  step_goal (Some (sks_chain_key s)) (calm u).
  2: { step (signal_buffer_create_calm u (sck_chain_key (sks_chain_key s)) ltac:(done)).
       step_to (sck_chain_key (sks_chain_key s)) (calm u) by done.
       step (sender_chain_key_create_calm u (sck_iteration (sks_chain_key s))
         (sck_chain_key (sks_chain_key s)) ltac:(done)). by destruct (sks_chain_key s). }
  step_to (Some (sks_signature_public_key s)) (calm u)
    by (simpl; step (decode_pk_pb u _ Hp); done).
  autorewrite with pb_read.
  step_to (sks_signature_private_key s) (calm u) by (apply (opt_mapM_back u); intros k Hk';
    rewrite (curve_decode_private_point_calm u (sk_data k) (Hs k Hk')); by destruct k).
  unfold sender_key_state_create.
  step_to (set_sender_message_keys [] s) (calm u) by (step (alloc_calm u); by destruct s).
  destruct (read_sender_keys_calm _ (set_sender_message_keys [] s) Hk Hl) as [r Hr].
  step_to (r, s) (calm u) by (unfold with_obj; rewrite Hr; by destruct s). done.
Qed.

Lemma wt_sender_record r : storable_sender_record r →
  wt_msg PB_DEPTH SenderKeyRecordStructure (sender_record_pb r).
Proof. intros [H _]. wt_fields. eapply Forall_impl; [exact H|]. apply wt_sender_state. Qed.

Lemma weight_sender_record r : storable_sender_record r →
  pb_weight PB_DEPTH (sender_record_pb r) < 2 ^ 26.
Proof.
  intros [H Hl]. unfold sender_record_pb, PB_DEPTH. weigh.
  pose proof (vals_weight_subs (pb_weight 3) sender_state_pb (skr_states r) SENDER_STATE_WEIGHT
    (Forall_impl _ _ _ H (weight_sender_state 1))).
  unfold MAX_STATES, SENDER_STATE_WEIGHT in *. lia.
Qed.

Lemma sender_record_serialize_calm r : storable_sender_record r →
  sender_key_record_serialize r (calm u)
  = (Ok (pb_pack SenderKeyRecordStructure (sender_record_pb r)), calm u).
Proof.
  intros Hr. pose proof Hr as [Hs _]. unfold sender_key_record_serialize.
  step_goal (sender_state_pb <$> skr_states r) (calm u).
  - apply pb_to_buffer_calm; [by apply wt_sender_record|by apply weight_sender_record].
  - destruct (skr_states r) as [|s l]; [done|]. step (alloc_calm u). apply mapM_list_run.
    eapply Forall_impl; [exact Hs|]. intros s' Hs'. step (alloc_calm u).
    by apply sender_prepare_calm.
Qed.

Lemma sender_record_deserialize_calm r : storable_sender_record r →
  sender_key_record_deserialize (pb_pack SenderKeyRecordStructure (sender_record_pb r)) (calm u)
  = (Ok r, calm u).
Proof.
  intros Hr. pose proof Hr as [Hs _].
  destruct (pb_roundtrip_weight u SenderKeyRecordStructure (sender_record_pb r)) as (_ & _ & Hun);
    [by apply wt_sender_record|by apply weight_sender_record|].
  unfold sender_key_record_deserialize. step Hun. step_to (sender_record_pb r) (calm u) by done.
  step_to (SenderKeyRecord []) (calm u) by done. unfold sender_record_pb. pb_read.
  step_to (skr_states r) (calm u) by (clear Hr Hun; induction Hs as [|s l Hst _ IH]; [done|];
    rewrite fmap_cons; cbn [mapM_list];
    step_to s (calm u) by (step (read_sender_state_calm s Hst); done); by step IH).
  by destruct r.
Qed.

(** sender keys survive storage.  A sender key record within the library's
    bounds (five states, 2000 saved message keys each) serializes, and reading
    it back rederives every saved message key from its seed and gives the same
    record. *)
Theorem sender_key_record_roundtrip (r : sender_key_record) : storable_sender_record r →
  ∃ data, sender_key_record_serialize r (calm u) = (Ok data, calm u) ∧
    sender_key_record_deserialize data (calm u) = (Ok r, calm u).
Proof.
  intros Hr. eexists.
  split; [by apply sender_record_serialize_calm|by apply sender_record_deserialize_calm].
Qed.
End Roundtrip.

(** If memory runs out right after [sender_message_key_create] has allocated
    its object, the error path releases the object's buffers through pointers
    that were never set. *)
Theorem sender_message_key_create_nomem {U} {CP : CryptoProvider U} (u : U) (iteration : Z)
    (seed : bytes) :
  ∃ w', sender_message_key_create iteration (Some seed) (World (Some 1%nat) u) = (Abort, w').
Proof. eexists. reflexivity. Qed.

(** ** Witnesses *)

Import Toy.

Definition witness_sender_record : sender_key_record :=
  SenderKeyRecord [
    SenderKeyState 7 (SenderChainKey 3 (replicate 32 1)) (witness_key 4)
      (Some (EcPrivateKey (replicate 32 5))) [];
    SenderKeyState 8 (SenderChainKey 9 (replicate 32 2)) (witness_key 6) None
      [smk_of 4 (replicate 32 1); smk_of 6 (replicate 32 9)]].

Lemma witness_sender_record_ok : storable_sender_record witness_sender_record.
Proof.
  split; [|simpl; unfold MAX_STATES; lia].
  repeat apply Forall_cons_2; try apply Forall_nil_2; unfold storable_sender_state, is_u32, zlen;
    simpl; split_and!; try lia; try done; try (intros k [= <-]; done);
    try (unfold MAX_MESSAGE_KEYS; lia).
  repeat apply Forall_cons_2; try apply Forall_nil_2; (split; [unfold is_u32; simpl; lia|done]).
Qed.

Lemma sender_key_record_roundtrip_witness :
  ∃ data, sender_key_record_serialize witness_sender_record (calm 0) = (Ok data, calm 0) ∧
    sender_key_record_deserialize data (calm 0) = (Ok witness_sender_record, calm 0).
Proof. apply sender_key_record_roundtrip, witness_sender_record_ok. Defined.
