(* ===== verification/SessionInv.v ===== *)
(** What the session operations keep: a session that can be stored stays so.

    [storable] is the invariant of every session the library holds: keys of
    the right sizes derived under the session's version, at most five receiver
    chains and at most 2000 saved keys in each.  It is preserved by the key
    schedule whatever the outcome, also when memory runs out halfway. *)

From S2P Require Import Prelude Buffer Provider Hkdf Curve Vpool Ratchet SessionState Ratcheting.
From S2P Require Import Window CipherKeys Protobuf ProtobufSpec Wire SessionSerial.

Section Inv.
Context {U : Type} {CP : CryptoProvider U} {C : Curve25519} {HL : HmacLaws CP}
  {RL : RandomLaws CP} {DL : DhLaws C}.
Context (v : Z) (li ri : option ec_public_key).

(** An initialized session of version [v] between the identities [li] and
    [ri]. *)
Definition session_inv (s : session_state) : Prop :=
  storable s ∧ ss_session_version s = v ∧ ss_local_identity_public s = li ∧
  ss_remote_identity_public s = ri ∧ ss_has_sender_chain s = true.

(** ** Keys, whatever the world *)

Abbreviation returns m Q := (maintains (λ _ : world U, True) m Q).

Lemma returns_run {A} (m : M (world U) A) (Q : A → Prop) :
  (∀ w a w', m w = (Ok a, w') → Q a) → returns m Q.
Proof.
  intros H w _. split; [done|]. destruct (m w) as [[a|e| |] w'] eqn:E; try done. by eapply H.
Qed.

Lemma returns_any {A} (m : M (world U) A) : returns m (λ _, True).
Proof. by apply returns_run. Qed.

Lemma returns_base_material ck seed :
  returns (ratchet_chain_key_get_base_material ck seed) (λ b, length b = 32%nat).
Proof.
  unfold ratchet_chain_key_get_base_material.
  eapply (maintains_bind _ _ _ (λ b, length b = 32%nat)).
  - apply returns_run. intros w a w'. rewrite (hmac_once w). intros [= <- _]. apply hmac_length.
  - intros b Hb. keep_step (returns_any alloc). by apply maintains_ret.
Qed.

Lemma returns_create_next ck : stored_chain_key v ck →
  returns (ratchet_chain_key_create_next ck) (stored_chain_key v).
Proof.
  intros (Hk & Hl & Hi). unfold ratchet_chain_key_create_next.
  eapply maintains_bind; [apply returns_base_material|]. intros b Hb.
  unfold ratchet_chain_key_create.
  keep_step (returns_any alloc). keep_step (returns_any alloc). apply maintains_ret.
  split_and!; [done..|apply u32_range].
Qed.

Lemma returns_message_keys ck : stored_chain_key v ck →
  returns (ratchet_chain_key_get_message_keys ck) stored_message_keys.
Proof.
  intros (Hk & Hl & Hi). unfold ratchet_chain_key_get_message_keys.
  keep_step (returns_any (ratchet_chain_key_get_base_material ck [1])).
  eapply maintains_bind; [apply returns_any|]. intros b _.
  destruct (Z.eqb_spec (zlen b) (RATCHET_CIPHER_KEY_LENGTH + RATCHET_MAC_KEY_LENGTH
    + RATCHET_IV_LENGTH)) as [E|E]; [|apply maintains_fail].
  apply (zlen_length b 80) in E. apply maintains_ret. split; [|done].
  unfold wf_mk. simpl. rewrite !length_take, !length_drop, E. done.
Qed.

Lemma returns_create_chain rk pk sk : stored_root_key v rk →
  returns (ratchet_root_key_create_chain rk pk sk)
    (λ r, stored_root_key v r.1 ∧ stored_chain_key v r.2).
Proof.
  intros [Hk Hl]. unfold ratchet_root_key_create_chain.
  destruct pk as [pk|], sk as [sk|]; try apply maintains_fail.
  eapply maintains_bind; [apply returns_any|]. intros shared _.
  eapply maintains_bind; [apply returns_any|]. intros b _.
  destruct (Z.eqb_spec (zlen b) DERIVED_ROOT_SECRETS_SIZE) as [E|E]; [|apply maintains_fail].
  apply (zlen_length b 64) in E. cbn [negb]. unfold ratchet_root_key_create, ratchet_chain_key_create.
  eapply (maintains_bind _ _ _ (stored_root_key v)).
  { keep_step (returns_any alloc). keep_step (returns_any alloc). apply maintains_ret.
    split; [done|]. simpl. by rewrite length_take, E. }
  intros rk' Hrk'. eapply (maintains_bind _ _ _ (stored_chain_key v)).
  { keep_step (returns_any alloc). keep_step (returns_any alloc). apply maintains_ret.
    split_and!; simpl; [done| |done]. by rewrite length_take, length_drop, E. }
  intros ck Hck. by apply maintains_ret.
Qed.

Lemma returns_generate_key_pair : returns curve_generate_key_pair stored_pair.
Proof.
  unfold curve_generate_key_pair.
  eapply (maintains_bind _ _ _ wf_sk).
  { unfold curve_generate_private_key. keep_step (returns_any alloc).
    eapply (maintains_bind _ _ _ (λ b, length b = 32%nat)).
    - apply returns_run. intros [m u] b w'. unfold signal_crypto_random, callback. simpl.
      destruct (random_ok 32 u) as (bs & u' & -> & Hl). intros [= <- _]. done.
    - intros b Hb. apply maintains_ret. unfold wf_sk. simpl. by rewrite clamp_length. }
  intros sk Hsk. eapply (maintains_bind _ _ _ wf_pk).
  { unfold curve_generate_public_key. keep_step (returns_any alloc).
    rewrite donna_ok. apply maintains_ret. apply dh_length. }
  intros pk Hpk. unfold ec_key_pair_create. keep_step (returns_any alloc).
  by apply maintains_ret.
Qed.

(** ** Field updates *)

Local Ltac inv_update :=
  let s := fresh "s" in let H := fresh "H" in
  intros s (H & <- & <- & <- & ?) **; destruct s; unfold session_inv, storable in *; simpl in *;
  destruct H as (? & ? & ? & ? & ? & ? & ? & ? & ? & ? & ? & ? & ? & ? & ? & ?);
  split; [|done]; split; [done|]; split_and!; done || (intros ? [= <-]; done) || idtac.

Lemma inv_set_root_key rk : stored_root_key v rk →
  ∀ s, session_inv s → session_inv (session_state_set_root_key rk s).
Proof. intros Hrk. inv_update. Qed.

Lemma inv_set_previous_counter c : is_u32 c →
  ∀ s, session_inv s → session_inv (session_state_set_previous_counter c s).
Proof. intros Hc. inv_update. Qed.

Lemma inv_set_sender_chain kp ck : stored_pair kp → stored_chain_key v ck →
  ∀ s, session_inv s → session_inv (session_state_set_sender_chain kp ck s).
Proof. intros Hkp Hck. inv_update. split; by intros ? [= <-]. Qed.

Lemma inv_set_receiver_chains l : Forall (stored_receiver_chain v) l →
  (length l ≤ MAX_RECEIVER_CHAINS)%nat →
  ∀ s, session_inv s → session_inv (set_receiver_chains l s).
Proof. intros Hl Hn. inv_update. Qed.

Lemma inv_clear_pre_key s :
  session_inv s → session_inv (session_state_clear_unacknowledged_pre_key_message s).
Proof. revert s. inv_update. Qed.

Lemma inv_set_pre_key id sid base : opt_all is_u32 id → is_u32 sid → wf_pk base →
  ∀ s, session_inv s → session_inv (session_state_set_unacknowledged_pre_key_message id sid base s).
Proof.
  intros Hid Hsid Hb. inv_update.
  split_and!; destruct id as [i|]; simpl; try done; try (by intros ? [= <-]). by apply Hid.
Qed.

Lemma inv_set_remote_registration_id id : is_u32 id →
  ∀ s, session_inv s → session_inv (session_state_set_remote_registration_id id s).
Proof. intros Hid. inv_update. Qed.

Lemma inv_set_local_registration_id id : is_u32 id →
  ∀ s, session_inv s → session_inv (session_state_set_local_registration_id id s).
Proof. intros Hid. inv_update. Qed.

Lemma inv_set_alice_base_key k : wf_pk k →
  ∀ s, session_inv s → session_inv (session_state_set_alice_base_key k s).
Proof. intros Hk. inv_update. Qed.

Lemma inv_sender_chain_key ck : stored_chain_key v ck → ∀ s, session_inv s →
  session_inv (set_sender_chain_record
    (SenderChain (sc_ratchet_key_pair (ss_sender_chain s)) (Some ck)) s).
Proof.
  intros Hck. inv_update; [|congruence]. split; [|by intros ? [= <-]].
  match goal with H : stored_sender_chain _ _ |- _ => apply H end.
Qed.

(** Reads. *)
Lemma inv_chains s : session_inv s → Forall (stored_receiver_chain v) (ss_receiver_chains s) ∧
  (length (ss_receiver_chains s) ≤ MAX_RECEIVER_CHAINS)%nat.
Proof. intros (H & <- & _). destruct H as (_ & _ & _ & _ & _ & _ & _ & H1 & H2 & _). done. Qed.

Lemma inv_sender s : session_inv s → stored_sender_chain v (ss_sender_chain s).
Proof. intros (H & <- & _). destruct H as (_ & _ & _ & _ & _ & H & _). done. Qed.

Lemma inv_root s : session_inv s → opt_all (stored_root_key v) (ss_root_key s).
Proof. intros (H & <- & _). destruct H as (_ & _ & _ & H & _). done. Qed.

Lemma inv_receiver_chain_key s eph : session_inv s →
  opt_all (stored_chain_key v) (session_state_get_receiver_chain_key s eph).
Proof.
  intros [Hc _]%inv_chains ck. unfold session_state_get_receiver_chain_key.
  destruct (session_state_find_receiver_chain s eph) as [rc|] eqn:E; [|done].
  eapply find_receiver_chain_Forall in Hc; [|exact E]. apply Hc.
Qed.

(** ** Operations *)

Abbreviation maintain m Q := (maintains (obj_inv (S := world U) session_inv) m Q).

Lemma inv_update_chain s eph f : session_inv s →
  (∀ rc, session_state_find_receiver_chain s eph = Some rc → stored_receiver_chain v rc →
   stored_receiver_chain v (f rc)) →
  session_inv (set_receiver_chains (update_receiver_chain (ss_receiver_chains s) eph f) s).
Proof.
  intros Hs Hf. destruct (inv_chains s Hs) as [Hc Hl]. apply inv_set_receiver_chains; [| |done].
  - by apply update_receiver_chain_Forall.
  - by rewrite update_receiver_chain_length.
Qed.

Lemma keep_set_message_keys eph mk : stored_message_keys mk →
  maintain (session_state_set_message_keys eph mk) (λ _, True).
Proof.
  intros Hmk. keep_step (maintains_get_obj session_inv).
  destruct (session_state_find_receiver_chain a eph); [|by apply maintains_ret].
  eapply maintains_bind; [apply maintains_lift, returns_any|]. intros _ _.
  apply maintains_put_obj, inv_update_chain; [done|].
  intros rc _ (H1 & H2 & H3 & H4). split_and!; [done..| |apply trim_front_length].
  simpl. rewrite trim_front_drop. apply Forall_drop. apply Forall_app_2; [done|].
  by apply Forall_singleton.
Qed.

Lemma remove_message_keys_stored l c : Forall stored_message_keys l →
  opt_all stored_message_keys (remove_message_keys l c).1 ∧
  Forall stored_message_keys (remove_message_keys l c).2 ∧
  (length (remove_message_keys l c).2 ≤ length l)%nat.
Proof.
  induction 1 as [|mk l Hmk Hl IH]; [done|]. simpl. destruct (_ =? _).
  { simpl. split_and!; [by intros ? [= <-]|done|lia]. }
  destruct (remove_message_keys l c) as [r k]. simpl in *. destruct IH as (H1 & H2 & H3).
  split_and!; [done| |lia]. by constructor.
Qed.

Lemma keep_remove_message_keys eph c :
  maintain (session_state_remove_message_keys eph c) (opt_all stored_message_keys).
Proof.
  keep_step (maintains_get_obj session_inv).
  destruct (session_state_find_receiver_chain a eph) as [rc|] eqn:E;
    [|by apply maintains_ret].
  destruct (inv_chains a ltac:(done)) as [Hc _].
  pose proof (find_receiver_chain_Forall _ _ _ _ Hc E) as (_ & _ & Hk & Hn).
  destruct (remove_message_keys_stored (rc_message_keys rc) c Hk) as (H1 & H2 & H3).
  destruct (remove_message_keys (rc_message_keys rc) c) as [r keys]. simpl in *.
  eapply maintains_bind; [apply maintains_put_obj, inv_update_chain|]; [done| |].
  - intros rc' _ (G1 & G2 & G3 & G4). split_and!; [done..|]. simpl. lia.
  - intros _ _. by apply maintains_ret.
Qed.

Lemma keep_set_receiver_chain_key eph ck : stored_chain_key v ck →
  maintain (session_state_set_receiver_chain_key eph ck) (λ _, True).
Proof.
  intros Hck. keep_step (maintains_get_obj session_inv).
  destruct (session_state_find_receiver_chain a eph); [|apply maintains_fail].
  apply maintains_put_obj, inv_update_chain; [done|].
  intros rc _ (H1 & H2 & H3 & H4). split_and!; [done| |done..]. by intros ? [= <-].
Qed.

Lemma keep_add_receiver_chain eph ck : wf_pk eph → stored_chain_key v ck →
  maintain (session_state_add_receiver_chain eph ck) (λ _, True).
Proof.
  intros Heph Hck. eapply maintains_bind; [apply maintains_lift, returns_any|]. intros _ _.
  keep_step (maintains_get_obj session_inv). destruct (inv_chains a ltac:(done)) as [Hc _].
  apply maintains_put_obj, inv_set_receiver_chains; [|apply trim_front_length|done].
  rewrite trim_front_drop. apply Forall_drop. apply Forall_app_2; [done|].
  apply Forall_singleton. split_and!; [by intros ? [= <-]..|done|simpl; lia].
Qed.

Lemma keep_set_sender_chain_key ck : stored_chain_key v ck →
  maintain (session_state_set_sender_chain_key ck) (λ _, True).
Proof.
  intros Hck. keep_step (maintains_get_obj session_inv).
  destruct (ss_has_sender_chain a); [|apply maintains_fail].
  by apply maintains_put_obj, inv_sender_chain_key.
Qed.

Lemma keep_get_or_create_chain_key eph : wf_pk eph →
  maintain (session_cipher_get_or_create_chain_key eph) (stored_chain_key v).
Proof.
  intros Heph. keep_step (maintains_get_obj session_inv). rename a into s.
  pose proof (inv_receiver_chain_key s eph H) as Hrc.
  destruct (session_state_get_receiver_chain_key s eph) as [ck|];
    [apply maintains_ret; by apply Hrc|].
  keep_step (maintains_non_null _ _ _ _ (inv_root s H)).
  keep_step (maintains_non_null _ _ _ _ (proj1 (inv_sender s H))).
  eapply maintains_bind; [by apply maintains_lift, returns_create_chain|].
  intros receiver [Hr1 Hr2].
  eapply maintains_bind; [apply maintains_lift, returns_generate_key_pair|]. intros kp Hkp.
  eapply maintains_bind; [by apply maintains_lift, returns_create_chain|].
  intros sender [Hs1 Hs2].
  eapply maintains_bind; [by apply maintains_put_obj, inv_set_root_key|]. intros _ _.
  eapply maintains_bind; [by apply keep_add_receiver_chain|]. intros _ _.
  eapply maintains_bind; [apply maintains_get_obj|]. intros s' Hs'.
  keep_step (maintains_non_null _ _ _ _ (proj2 (inv_sender s' Hs'))).
  match goal with H : stored_chain_key v ?p |- _ => rename p into previous; destruct H as (_ & _ & Hi) end.
  eapply maintains_bind; [apply maintains_put_obj|].
  - apply inv_set_sender_chain, inv_set_previous_counter; [done..| |done].
    unfold ratchet_chain_key_get_index, is_u32 in *. destruct (Z.ltb_spec 0 (ck_index previous)); lia.
  - intros _ _. by apply maintains_ret.
Qed.

Lemma keep_message_keys_loop fuel eph ck counter : stored_chain_key v ck →
  maintain (message_keys_loop fuel eph ck counter) (stored_chain_key v).
Proof.
  revert ck. induction fuel as [|fuel IH]; intros ck Hck; [apply maintains_hang|].
  rewrite message_keys_loop_S. destruct (_ <? _); [|by apply maintains_ret].
  eapply maintains_bind; [by apply maintains_lift, returns_message_keys|]. intros mk Hmk.
  eapply maintains_bind; [by apply keep_set_message_keys|]. intros _ _.
  eapply maintains_bind; [by apply maintains_lift, returns_create_next|]. intros next Hnext.
  by apply IH.
Qed.

Lemma keep_receive_keys eph counter : wf_pk eph →
  maintain (session_cipher_receive_keys eph counter) stored_message_keys.
Proof.
  intros Heph. unfold session_cipher_receive_keys.
  eapply maintains_bind; [by apply keep_get_or_create_chain_key|]. intros ck Hck.
  unfold session_cipher_get_or_create_message_keys. destruct (_ <? _).
  { eapply maintains_bind; [apply keep_remove_message_keys|]. intros [mk|] Hmk;
      [|apply maintains_fail]. apply maintains_ret. by apply Hmk. }
  destruct (_ <? _); [apply maintains_fail|].
  eapply maintains_bind; [by apply keep_message_keys_loop|]. intros cur Hcur.
  eapply maintains_bind; [by apply maintains_lift, returns_create_next|]. intros next Hnext.
  eapply maintains_bind; [by apply keep_set_receiver_chain_key|]. intros _ _.
  by apply maintains_lift, returns_message_keys.
Qed.
End Inv.

(** ** New sessions *)

Section New.
Context {U : Type} {CP : CryptoProvider U} {C : Curve25519} {HL : HmacLaws CP} {DL : DhLaws C}.

Lemma rk_chain_stored v rk shared : rk_kdf rk = HkdfContext (v - 2) →
  stored_root_key v (rk_chain rk shared).1 ∧ stored_chain_key v (rk_chain rk shared).2.
Proof.
  intros Hk. unfold rk_chain, stored_root_key, stored_chain_key. simpl.
  rewrite !length_take, length_drop, rk_secret_length. split_and!; done || apply u32_range.
Qed.

Lemma x3dh_derive_stored secret :
  stored_root_key 3 (x3dh_derive secret).1 ∧ stored_chain_key 3 (x3dh_derive secret).2.
Proof.
  unfold x3dh_derive, stored_root_key, stored_chain_key. cbn zeta.
  assert (length (rfc_hkdf 1 secret zero_salt text_info 64) = 64%nat) as Hl
    by (apply zlen_length, rfc_hkdf_length; done).
  cbn [fst snd rk_kdf rk_key ck_kdf ck_key ck_index].
  rewrite !length_take, length_drop, Hl. split_and!; done || apply u32_range.
Qed.

(** A session with nothing but version, identities and sender chain. *)
Lemma base_session_inv li ri kp ck :
  wf_pk li → wf_pk ri → stored_pair kp → stored_chain_key 3 ck →
  session_inv 3 (Some li) (Some ri)
    (session_state_set_sender_chain kp ck
    (session_state_set_local_identity_key li
    (session_state_set_remote_identity_key ri
    (session_state_set_session_version 3 session_state_zero)))).
Proof.
  intros Hl Hr Hkp Hck. unfold session_inv, storable. simpl.
  repeat match goal with
  | |- _ ∧ _ => split
  | |- is_u32 _ => split; simpl; lia
  | |- stored_sender_chain _ _ => split
  | |- stored_pending_key_exchange _ => split
  | |- stored_pending_pre_key _ => split
  | |- Forall _ [] => constructor
  | |- opt_all _ _ => intros ? [= <-]
  end; try done; try (by right); unfold MAX_RECEIVER_CHAINS; simpl; lia.
Qed.

Lemma alice_initialized_inv p kp :
  wf_pk (ik_public (ap_our_identity_key p)) → wf_pk (ap_their_identity_key p) →
  wf_pk (ap_their_ratchet_key p) → stored_pair kp →
  session_inv 3 (Some (ik_public (ap_our_identity_key p))) (Some (ap_their_identity_key p))
    (alice_initialized p kp session_state_zero).
Proof.
  intros Hi Ht Hr Hkp. destruct (x3dh_derive_stored (alice_secret p)) as [Hr1 Hc1].
  destruct (rk_chain_stored 3 (x3dh_derive (alice_secret p)).1
    (dh (sk_data (kp_private kp)) (pk_data (ap_their_ratchet_key p))) ltac:(done)) as [Hr2 Hc2].
  pose proof (base_session_inv _ _ kp _ Hi Ht Hkp Hc2) as Hb.
  eapply (inv_set_receiver_chains _ _ _
    [ReceiverChain (Some (ap_their_ratchet_key p)) (Some (x3dh_derive (alice_secret p)).2) []]) in Hb.
  - eapply inv_set_root_key in Hb; [|exact Hr2]. exact Hb.
  - apply Forall_singleton. split_and!; [by intros ? [= <-]..|done|simpl; lia].
  - unfold MAX_RECEIVER_CHAINS. simpl. lia.
Qed.

Lemma bob_initialized_inv p :
  wf_pk (ik_public (bp_our_identity_key p)) → wf_pk (bp_their_identity_key p) →
  stored_pair (bp_our_ratchet_key p) →
  session_inv 3 (Some (ik_public (bp_our_identity_key p))) (Some (bp_their_identity_key p))
    (bob_initialized p session_state_zero).
Proof.
  intros Hi Ht Hkp. destruct (x3dh_derive_stored (bob_secret p)) as [Hr1 Hc1].
  pose proof (base_session_inv _ _ _ _ Hi Ht Hkp Hc1) as Hb.
  eapply inv_set_root_key in Hb; [|exact Hr1]. exact Hb.
Qed.
End New.
