(* ===== verification/Store.v ===== *)
(** The application's stores and the library's calls of them
    (signal_protocol.c, lines 712-1196).

    [Stores]: the callbacks of the five store structures of signal_protocol.h,
    which the application supplies.  Each takes the application's data and
    returns an [int], what it wrote through its pointers, and the data it
    leaves.  [StoreLaws] states the behaviour their documentation asks for, as
    a view of the data as finite maps. *)

From stdpp Require Export gmap.
From S2P Require Import Prelude Buffer Provider Hkdf Curve Ratchet SessionState Protobuf.
From S2P Require Import ProtobufSpec Wire SessionSerial SessionRecord PreKeys SenderKey.
Global Open Scope Z_scope.

Record signal_protocol_address : Type := Address { addr_name : bytes; addr_device_id : Z }.

Record signal_protocol_sender_key_name : Type := SenderKeyName {
  skn_group_id : bytes; skn_sender : signal_protocol_address }.

#[export] Instance address_eq_dec : EqDecision signal_protocol_address.
Proof. solve_decision. Defined.
#[export] Instance address_countable : Countable signal_protocol_address.
Proof.
  refine (inj_countable' (λ a, (addr_name a, addr_device_id a)) (λ p, Address p.1 p.2) _).
  by intros [].
Defined.
#[export] Instance sender_key_name_eq_dec : EqDecision signal_protocol_sender_key_name.
Proof. solve_decision. Defined.
#[export] Instance sender_key_name_countable : Countable signal_protocol_sender_key_name.
Proof.
  refine (inj_countable' (λ n, (skn_group_id n, skn_sender n)) (λ p, SenderKeyName p.1 p.2) _).
  by intros [].
Defined.

Class Stores (U : Type) : Type := {
  load_session_func : signal_protocol_address → U → Z * option bytes * U;
  get_sub_device_sessions_func : bytes → U → Z * list Z * U;
  store_session_func : signal_protocol_address → bytes → U → Z * U;
  contains_session_func : signal_protocol_address → U → Z * U;
  delete_session_func : signal_protocol_address → U → Z * U;
  delete_all_sessions_func : bytes → U → Z * U;
  load_pre_key : Z → U → Z * option bytes * U;
  store_pre_key : Z → bytes → U → Z * U;
  contains_pre_key : Z → U → Z * U;
  remove_pre_key : Z → U → Z * U;
  load_signed_pre_key : Z → U → Z * option bytes * U;
  store_signed_pre_key : Z → bytes → U → Z * U;
  contains_signed_pre_key : Z → U → Z * U;
  remove_signed_pre_key : Z → U → Z * U;
  get_identity_key_pair : U → Z * (option bytes * option bytes) * U;
  get_local_registration_id : U → Z * Z * U;
  save_identity : signal_protocol_address → option bytes → U → Z * U;
  is_trusted_identity : signal_protocol_address → bytes → U → Z * U;
  store_sender_key : signal_protocol_sender_key_name → bytes → U → Z * U;
  load_sender_key : signal_protocol_sender_key_name → U → Z * option bytes * U
}.

(** A call of the application: the [int] is a value, its sign is for the caller
    to test. *)
Definition app_call {U A} (f : U → A * U) : M (world U) A := λ w,
  let '(a, u) := f (w_user w) in (Ok a, World (w_mem w) u).

(** [if(result < 0) goto complete;] *)
Definition status {S} (result : Z) : M S Z := if result <? 0 then fail result else ret result.

Section Defs.
Context {U : Type} {CP : CryptoProvider U} {ST : Stores U}.

(** ** Sessions *)

Definition signal_protocol_session_load_session (address : signal_protocol_address)
    : M (world U) session_record :=
  let* r := app_call (load_session_func address) in
  let* result := status r.1 in
  if result =? 0 then
    match r.2 with
    | Some _ => fail SG_ERR_UNKNOWN
    | None => session_record_create None
    end
  else if result =? 1 then
    match r.2 with
    | None => fail (-1)
    | Some buffer => session_record_deserialize buffer
    end
  else fail SG_ERR_UNKNOWN.

Definition signal_protocol_session_get_sub_device_sessions (name : bytes)
    : M (world U) (Z * list Z) :=
  app_call (get_sub_device_sessions_func name).

Definition signal_protocol_session_store_session (address : signal_protocol_address)
    (record : session_record) : M (world U) Z :=
  let* buffer := session_record_serialize record in
  let* result := app_call (store_session_func address buffer) in
  status result.

Definition signal_protocol_session_contains_session (address : signal_protocol_address)
    : M (world U) Z :=
  app_call (contains_session_func address).

Definition signal_protocol_session_delete_session (address : signal_protocol_address)
    : M (world U) Z :=
  app_call (delete_session_func address).

Definition signal_protocol_session_delete_all_sessions (name : bytes) : M (world U) Z :=
  app_call (delete_all_sessions_func name).

(** ** Pre keys

    A successful load that left the buffer unset would be dereferenced. *)

Definition signal_protocol_pre_key_load_key (pre_key_id : Z) : M (world U) session_pre_key :=
  let* r := app_call (load_pre_key pre_key_id) in
  let* _ := status r.1 in
  match r.2 with
  | Some buffer => session_pre_key_deserialize buffer
  | None => abort
  end.

Definition signal_protocol_pre_key_store_key (pre_key : session_pre_key) : M (world U) Z :=
  let* buffer := session_pre_key_serialize (Some pre_key) in
  let* result := app_call (store_pre_key (spk_id pre_key) buffer) in
  status result.

Definition signal_protocol_pre_key_contains_key (pre_key_id : Z) : M (world U) Z :=
  app_call (contains_pre_key pre_key_id).

Definition signal_protocol_pre_key_remove_key (pre_key_id : Z) : M (world U) Z :=
  let* result := app_call (remove_pre_key pre_key_id) in
  status result.

Definition signal_protocol_signed_pre_key_load_key (signed_pre_key_id : Z)
    : M (world U) session_signed_pre_key :=
  let* r := app_call (load_signed_pre_key signed_pre_key_id) in
  let* _ := status r.1 in
  match r.2 with
  | Some buffer => session_signed_pre_key_deserialize buffer
  | None => abort
  end.

Definition signal_protocol_signed_pre_key_store_key (pre_key : session_signed_pre_key)
    : M (world U) Z :=
  let* buffer := session_signed_pre_key_serialize pre_key in
  let* result := app_call (store_signed_pre_key (sspk_id pre_key) buffer) in
  status result.

Definition signal_protocol_signed_pre_key_contains_key (signed_pre_key_id : Z) : M (world U) Z :=
  app_call (contains_signed_pre_key signed_pre_key_id).

Definition signal_protocol_signed_pre_key_remove_key (signed_pre_key_id : Z) : M (world U) Z :=
  let* result := app_call (remove_signed_pre_key signed_pre_key_id) in
  status result.

(** ** Identities *)

Definition signal_protocol_identity_get_key_pair : M (world U) ratchet_identity_key_pair :=
  let* r := app_call get_identity_key_pair in
  let* _ := status r.1 in
  match r.2.1 with
  | None => abort
  | Some public_buf =>
      let* public_key := curve_decode_point public_buf in
      match r.2.2 with
      | None => abort
      | Some private_buf =>
          let* private_key := curve_decode_private_point private_buf in
          ratchet_identity_key_pair_create public_key private_key
      end
  end.

Definition signal_protocol_identity_get_local_registration_id : M (world U) Z :=
  let* r := app_call get_local_registration_id in
  let* _ := status r.1 in
  ret r.2.

Definition signal_protocol_identity_save_identity (address : signal_protocol_address)
    (identity_key : option ec_public_key) : M (world U) Z :=
  let* buffer := opt_mapM (λ k, ec_public_key_serialize (Some k)) identity_key in
  let* result := app_call (save_identity address buffer) in
  status result.

Definition signal_protocol_identity_is_trusted_identity (address : signal_protocol_address)
    (identity_key : option ec_public_key) : M (world U) Z :=
  let* buffer := ec_public_key_serialize identity_key in
  let* result := app_call (is_trusted_identity address buffer) in
  status result.

(** ** Sender keys *)

Definition signal_protocol_sender_key_store_key
    (sender_key_name : signal_protocol_sender_key_name) (record : sender_key_record)
    : M (world U) Z :=
  let* buffer := sender_key_record_serialize record in
  let* result := app_call (store_sender_key sender_key_name buffer) in
  status result.

Definition signal_protocol_sender_key_load_key
    (sender_key_name : signal_protocol_sender_key_name) : M (world U) sender_key_record :=
  let* r := app_call (load_sender_key sender_key_name) in
  let* result := status r.1 in
  if result =? 0 then
    match r.2 with
    | Some _ => fail SG_ERR_UNKNOWN
    | None => sender_key_record_create
    end
  else if result =? 1 then
    match r.2 with
    | None => fail (-1)
    | Some buffer => sender_key_record_deserialize buffer
    end
  else fail SG_ERR_UNKNOWN.
End Defs.

(** ** Laws *)

Record store_view : Type := StoreView {
  sv_sessions : gmap signal_protocol_address bytes;
  sv_pre_keys : gmap Z bytes;
  sv_signed_pre_keys : gmap Z bytes;
  sv_identity : bytes * bytes;
  sv_registration_id : Z;
  sv_identities : gmap signal_protocol_address bytes;
  sv_sender_keys : gmap signal_protocol_sender_key_name bytes }.

Definition set_sessions (f : gmap signal_protocol_address bytes → gmap signal_protocol_address bytes)
    (v : store_view) : store_view :=
  StoreView (f (sv_sessions v)) (sv_pre_keys v) (sv_signed_pre_keys v) (sv_identity v)
    (sv_registration_id v) (sv_identities v) (sv_sender_keys v).
Definition set_pre_keys (f : gmap Z bytes → gmap Z bytes) (v : store_view) : store_view :=
  StoreView (sv_sessions v) (f (sv_pre_keys v)) (sv_signed_pre_keys v) (sv_identity v)
    (sv_registration_id v) (sv_identities v) (sv_sender_keys v).
Definition set_signed_pre_keys (f : gmap Z bytes → gmap Z bytes) (v : store_view) : store_view :=
  StoreView (sv_sessions v) (sv_pre_keys v) (f (sv_signed_pre_keys v)) (sv_identity v)
    (sv_registration_id v) (sv_identities v) (sv_sender_keys v).
Definition set_identities
    (f : gmap signal_protocol_address bytes → gmap signal_protocol_address bytes)
    (v : store_view) : store_view :=
  StoreView (sv_sessions v) (sv_pre_keys v) (sv_signed_pre_keys v) (sv_identity v)
    (sv_registration_id v) (f (sv_identities v)) (sv_sender_keys v).
Definition set_sender_keys
    (f : gmap signal_protocol_sender_key_name bytes → gmap signal_protocol_sender_key_name bytes)
    (v : store_view) : store_view :=
  StoreView (sv_sessions v) (sv_pre_keys v) (sv_signed_pre_keys v) (sv_identity v)
    (sv_registration_id v) (sv_identities v) (f (sv_sender_keys v)).

(** What the documentation of the callbacks says of a record that may be
    missing: 1 and the buffer, or 0 and no buffer. *)
Definition found (o : option bytes) : Z * option bytes :=
  match o with Some b => (1, Some b) | None => (0, None) end.
(** And of a key that may be missing. *)
Definition key_found (o : option bytes) : Z * option bytes :=
  match o with Some b => (0, Some b) | None => (SG_ERR_INVALID_KEY_ID, None) end.
Definition present {A} (o : option A) : Z := match o with Some _ => 1 | None => 0 end.

(** Trust on first use: a key is trusted if none is saved for the address or
    it is the saved one. *)
Definition trusts (v : store_view) (a : signal_protocol_address) (key : bytes) : bool :=
  match sv_identities v !! a with Some k => bool_decide (k = key) | None => true end.

(** Reads leave the data alone, writes succeed and change the view as
    documented, and the random source is apart from the stores: drawing from
    it does not change them, nor does saving an identity change what is
    drawn. *)
Class StoreLaws {U} (CP : CryptoProvider U) (ST : Stores U) : Type := {
  view : U → store_view;
  load_session_ok a u : load_session_func a u = (found (sv_sessions (view u) !! a), u);
  store_session_ok a b u : ∃ u', store_session_func a b u = (0, u') ∧
    view u' = set_sessions <[a := b]> (view u);
  contains_session_ok a u : contains_session_func a u = (present (sv_sessions (view u) !! a), u);
  delete_session_ok a u : ∃ u', delete_session_func a u = (present (sv_sessions (view u) !! a), u') ∧
    view u' = set_sessions (delete a) (view u);
  load_pre_key_ok i u : load_pre_key i u = (key_found (sv_pre_keys (view u) !! i), u);
  store_pre_key_ok i b u : ∃ u', store_pre_key i b u = (0, u') ∧
    view u' = set_pre_keys <[i := b]> (view u);
  contains_pre_key_ok i u : contains_pre_key i u = (present (sv_pre_keys (view u) !! i), u);
  remove_pre_key_ok i u : ∃ u', remove_pre_key i u = (0, u') ∧
    view u' = set_pre_keys (delete i) (view u);
  load_signed_pre_key_ok i u :
    load_signed_pre_key i u = (key_found (sv_signed_pre_keys (view u) !! i), u);
  store_signed_pre_key_ok i b u : ∃ u', store_signed_pre_key i b u = (0, u') ∧
    view u' = set_signed_pre_keys <[i := b]> (view u);
  contains_signed_pre_key_ok i u :
    contains_signed_pre_key i u = (present (sv_signed_pre_keys (view u) !! i), u);
  remove_signed_pre_key_ok i u : ∃ u', remove_signed_pre_key i u = (0, u') ∧
    view u' = set_signed_pre_keys (delete i) (view u);
  get_identity_key_pair_ok u : get_identity_key_pair u =
    (0, (Some (sv_identity (view u)).1, Some (sv_identity (view u)).2), u);
  get_local_registration_id_ok u :
    get_local_registration_id u = (0, sv_registration_id (view u), u);
  save_identity_ok a k u : ∃ u', save_identity a k u = (0, u') ∧
    view u' = set_identities (partial_alter (λ _, k) a) (view u);
  is_trusted_identity_ok a k u : is_trusted_identity a k u
    = ((if trusts (view u) a k then 1 else 0), u);
  store_sender_key_ok n b u : ∃ u', store_sender_key n b u = (0, u') ∧
    view u' = set_sender_keys <[n := b]> (view u);
  load_sender_key_ok n u : load_sender_key n u = (found (sv_sender_keys (view u) !! n), u);
  random_view n u : view (random_func n u).2 = view u;
  save_identity_random a k n u :
    (random_func n (save_identity a k u).2).1 = (random_func n u).1
}.

(** ** The calls under these laws *)

Definition record_bytes (r : session_record) : bytes := pb_pack RecordStructure (record_pb r).
Definition sender_record_bytes (r : sender_key_record) : bytes :=
  pb_pack SenderKeyRecordStructure (sender_record_pb r).

(** The record the library works with for a peer: the stored one, or a fresh
    one. *)
Definition holds_record (v : store_view) (a : signal_protocol_address) (r : session_record) : Prop :=
  match sv_sessions v !! a with
  | None => r = SessionRecord (Some session_state_zero) [] true
  | Some b => b = record_bytes r ∧ storable_record r ∧ sr_is_fresh r = false
  end.

Definition holds_sender_record {U} {CP : CryptoProvider U} {HL : HmacLaws CP} (v : store_view)
    (n : signal_protocol_sender_key_name) (r : sender_key_record) : Prop :=
  match sv_sender_keys v !! n with
  | None => r = SenderKeyRecord []
  | Some b => b = sender_record_bytes r ∧ storable_sender_record r
  end.

Section Calm.
Context {U : Type} {CP : CryptoProvider U} {ST : Stores U} {SL : StoreLaws CP ST}.

Lemma app_call_run {A} (f : U → A * U) (u u' : U) m a :
  f u = (a, u') → app_call f (World m u) = (Ok a, World m u').
Proof. intros H. unfold app_call. simpl. by rewrite H. Qed.

Lemma load_session_calm (u : U) a r :
  holds_record (view u) a r →
  signal_protocol_session_load_session a (calm u) = (Ok r, calm u).
Proof.
  unfold holds_record, signal_protocol_session_load_session. intros H.
  step_goal (found (sv_sessions (view u) !! a)) (calm u).
  2: { apply app_call_run, load_session_ok. }
  destruct (sv_sessions (view u) !! a) as [b|].
  - destruct H as (-> & Hs & Hf). step_to 1 (calm u) by done. cbn [found snd].
    change (1 =? 0) with false. change (1 =? 1) with true. cbn iota.
    etrans; [apply (record_deserialize_calm u r Hs)|]. by destruct r; simpl in *; subst.
  - subst r. done.
Qed.

Lemma store_session_calm (u : U) a r :
  storable_record r →
  ∃ u', signal_protocol_session_store_session a r (calm u) = (Ok 0, calm u') ∧
    view u' = set_sessions <[a := record_bytes r]> (view u).
Proof.
  intros Hr. destruct (store_session_ok a (record_bytes r) u) as (u' & Hs & Hv).
  exists u'. split; [|done]. unfold signal_protocol_session_store_session.
  step (record_serialize_calm u r Hr). step_to 0 (calm u') by (by apply app_call_run). done.
Qed.

Lemma contains_session_calm (w : world U) a :
  signal_protocol_session_contains_session a w
  = (Ok (present (sv_sessions (view (w_user w)) !! a)), w).
Proof. destruct w as [m u]. apply app_call_run, contains_session_ok. Qed.

Lemma load_pre_key_calm (u : U) i k :
  sv_pre_keys (view u) !! i = Some (pb_pack PreKeyRecordStructure (pre_key_pb k)) →
  storable_pre_key k → signal_protocol_pre_key_load_key i (calm u) = (Ok k, calm u).
Proof.
  intros Hi Hk. unfold signal_protocol_pre_key_load_key.
  step_goal (key_found (sv_pre_keys (view u) !! i)) (calm u);
    [|apply app_call_run, load_pre_key_ok].
  rewrite Hi. step_to 0 (calm u) by done. by apply pre_key_deserialize_calm.
Qed.

Lemma remove_pre_key_calm (u : U) i :
  ∃ u', signal_protocol_pre_key_remove_key i (calm u) = (Ok 0, calm u') ∧
    view u' = set_pre_keys (delete i) (view u).
Proof.
  destruct (remove_pre_key_ok i u) as (u' & Hs & Hv). exists u'. split; [|done].
  unfold signal_protocol_pre_key_remove_key. step_to 0 (calm u') by (by apply app_call_run). done.
Qed.

Lemma load_signed_pre_key_calm (u : U) i k :
  sv_signed_pre_keys (view u) !! i
    = Some (pb_pack SignedPreKeyRecordStructure (signed_pre_key_pb k)) →
  storable_signed_pre_key k →
  signal_protocol_signed_pre_key_load_key i (calm u) = (Ok k, calm u).
Proof.
  intros Hi Hk. unfold signal_protocol_signed_pre_key_load_key.
  step_goal (key_found (sv_signed_pre_keys (view u) !! i)) (calm u);
    [|apply app_call_run, load_signed_pre_key_ok].
  rewrite Hi. step_to 0 (calm u) by done. by apply signed_pre_key_deserialize_calm.
Qed.

Lemma get_key_pair_calm (u : U) k :
  sv_identity (view u) = (pk_pb (ik_public k), sk_data (ik_private k)) → stored_identity k →
  signal_protocol_identity_get_key_pair (calm u) = (Ok k, calm u).
Proof.
  intros Hi [Hp Hs]. unfold signal_protocol_identity_get_key_pair.
  step_goal (0, (Some (sv_identity (view u)).1, Some (sv_identity (view u)).2)) (calm u);
    [|apply app_call_run, get_identity_key_pair_ok].
  step_to 0 (calm u) by done. rewrite Hi. cbn [fst snd].
  rewrite (decode_halves u _ _ Hp Hs). by destruct k.
Qed.

Lemma get_registration_id_calm (u : U) :
  signal_protocol_identity_get_local_registration_id (calm u)
  = (Ok (sv_registration_id (view u)), calm u).
Proof.
  unfold signal_protocol_identity_get_local_registration_id.
  step_goal (0, sv_registration_id (view u)) (calm u);
    [|apply app_call_run, get_local_registration_id_ok]. done.
Qed.

Lemma save_identity_calm (u : U) a k : wf_pk k →
  ∃ u', signal_protocol_identity_save_identity a (Some k) (calm u) = (Ok 0, calm u') ∧
    view u' = set_identities <[a := pk_pb k]> (view u) ∧
    ∀ n, (random_func n u').1 = (random_func n u).1.
Proof.
  intros Hk. destruct (save_identity_ok a (Some (pk_pb k)) u) as (u' & Hs & Hv).
  exists u'. split_and!; [|done|intros n; rewrite <-(save_identity_random a (Some (pk_pb k)) n u);
    by rewrite Hs]. unfold signal_protocol_identity_save_identity.
  step_to (Some (pk_pb k)) (calm u)
    by (simpl; by step (ec_public_key_serialize_calm u k Hk)).
  step_to 0 (calm u') by (by apply app_call_run). done.
Qed.

Lemma is_trusted_calm (u : U) a k : wf_pk k →
  signal_protocol_identity_is_trusted_identity a (Some k) (calm u)
  = (Ok (if trusts (view u) a (pk_pb k) then 1 else 0), calm u).
Proof.
  intros Hk. unfold signal_protocol_identity_is_trusted_identity.
  step (ec_public_key_serialize_calm u k Hk).
  step_goal (if trusts (view u) a (pk_pb k) then 1 else 0) (calm u).
  2: { apply app_call_run, is_trusted_identity_ok. }
  by destruct (trusts _ _ _).
Qed.

Context {HL : HmacLaws CP}.

Lemma load_sender_key_calm (u : U) n r :
  holds_sender_record (view u) n r →
  signal_protocol_sender_key_load_key n (calm u) = (Ok r, calm u).
Proof.
  unfold holds_sender_record, signal_protocol_sender_key_load_key. intros H.
  step_goal (found (sv_sender_keys (view u) !! n)) (calm u).
  2: { apply app_call_run, load_sender_key_ok. }
  destruct (sv_sender_keys (view u) !! n) as [b|].
  - destruct H as [-> Hs]. step_to 1 (calm u) by done. cbn [found snd].
    change (1 =? 0) with false. change (1 =? 1) with true. cbn iota.
    by apply sender_record_deserialize_calm.
  - subst r. done.
Qed.

Lemma store_sender_key_calm (u : U) n r :
  storable_sender_record r →
  ∃ u', signal_protocol_sender_key_store_key n r (calm u) = (Ok 0, calm u') ∧
    view u' = set_sender_keys <[n := sender_record_bytes r]> (view u).
Proof.
  intros Hr. destruct (store_sender_key_ok n (sender_record_bytes r) u) as (u' & Hs & Hv).
  exists u'. split; [|done]. unfold signal_protocol_sender_key_store_key.
  step (sender_record_serialize_calm u r Hr). step_to 0 (calm u') by (by apply app_call_run). done.
Qed.
End Calm.

(** ** Computations that do not write to the stores *)

Section View.
Context {U : Type} {CP : CryptoProvider U} {ST : Stores U} {SL : StoreLaws CP ST}.

Definition same_view (w w' : world U) : Prop := view (w_user w) = view (w_user w').
Definition same_view2 {T} (s s' : T * world U) : Prop := same_view s.2 s'.2.

#[export] Instance same_view_preorder : PreOrder same_view.
Proof. split; unfold same_view; [done|]. intros ??? -> ->; done. Qed.
#[export] Instance same_view2_preorder T : PreOrder (@same_view2 T).
Proof. split; unfold same_view2; [intros ?; done|]. intros ???; apply transitivity. Qed.

Lemma keeps_view {A} (m : M (world U) A) : keeps same_user m → keeps same_view m.
Proof. intros H w. unfold same_view. by rewrite (H w). Qed.

Lemma keeps_view_lift {T A} (m : M (world U) A) : keeps same_view m → keeps (@same_view2 T) (lift m).
Proof. intros H [t w]. specialize (H w). unfold lift. by destruct (m w). Qed.

Lemma keeps_view_get_obj {T} : keeps (@same_view2 T) get_obj.
Proof. by intros [t w]. Qed.

Lemma keeps_view_put_obj {T} (t : T) : keeps (@same_view2 T) (put_obj t).
Proof. by intros [t' w]. Qed.

Lemma keeps_view_with_obj {T A} (t : T) (m : M (T * world U) A) :
  keeps same_view2 m → keeps same_view (with_obj t m).
Proof.
  intros H w. specialize (H (t, w)). unfold with_obj.
  by destruct (m (t, w)) as [[a|e| |] [t' w']].
Qed.

Lemma keeps_view_random n : keeps same_view (signal_crypto_random n).
Proof.
  intros [m u]. unfold signal_crypto_random, callback, same_view. simpl.
  pose proof (random_view n u) as H. by destruct (random_func n u).
Qed.

(** A call that only reads. *)
Lemma keeps_view_read {A} (f : U → A * U) :
  (∀ u, (f u).2 = u) → keeps same_view (app_call f).
Proof.
  intros H [m u]. unfold app_call, same_view. simpl. specialize (H u).
  destruct (f u) as [a u']. simpl in *. by subst.
Qed.
End View.
#[export] Hint Resolve keeps_view keeps_view_lift keeps_view_get_obj keeps_view_put_obj
  keeps_view_with_obj keeps_view_random : keeps.

(** ** Stores in memory

    The user data is the seed of the toy random source and the maps. *)
Module MemStore.
Definition mem : Type := Z * store_view.

#[export] Instance mem_provider : CryptoProvider mem := {|
  hmac_ctx := hmac_ctx (CryptoProvider := Toy.provider);
  hmac_sha256_init_func := hmac_sha256_init_func (CryptoProvider := Toy.provider);
  hmac_sha256_update_func := hmac_sha256_update_func (CryptoProvider := Toy.provider);
  hmac_sha256_final_func := hmac_sha256_final_func (CryptoProvider := Toy.provider);
  random_func n u :=
    let '(r, s) := random_func (CryptoProvider := Toy.provider) n u.1 in (r, (s, u.2));
  encrypt_func := encrypt_func (CryptoProvider := Toy.provider);
  decrypt_func := decrypt_func (CryptoProvider := Toy.provider)
|}.

#[export] Instance mem_hmac_laws : HmacLaws mem_provider.
Proof.
  refine {| hmac := Toy.hmac_fun; hmac_abs c k d := c = (k, d);
            hmac_length k d := Toy.expand_length _ _ |}.
  - intros k. by exists (k, []).
  - intros c k d x ->. by exists (k, d ++ x).
  - by intros c k d ->.
Defined.
#[export] Instance mem_cipher_laws : CipherLaws mem_provider.
Proof.
  refine {| cipher_enc := Toy.crypt; encrypt_ok c k iv p _ := eq_refl |}.
  exact (decrypt_encrypt (CipherLaws := Toy.cipher_laws)).
Defined.
#[export] Instance mem_random_laws : RandomLaws mem_provider.
Proof.
  constructor.
  - intros n [s v]. eexists _, _. split; [reflexivity|]. apply Toy.expand_length.
  - intros n [s v] bs u' [= <- _]. apply Toy.wf_expand.
Defined.

#[export] Instance mem_stores : Stores mem := {|
  load_session_func a u := (found (sv_sessions u.2 !! a), u);
  get_sub_device_sessions_func n u :=
    let l := filter (λ a, addr_name a = n) (map_to_list (sv_sessions u.2)).*1 in
    (zlen l, addr_device_id <$> l, u);
  store_session_func a b u := (0, (u.1, set_sessions <[a := b]> u.2));
  contains_session_func a u := (present (sv_sessions u.2 !! a), u);
  delete_session_func a u :=
    (present (sv_sessions u.2 !! a), (u.1, set_sessions (delete a) u.2));
  delete_all_sessions_func n u :=
    (Z.of_nat (size (filter (λ p, addr_name p.1 = n) (sv_sessions u.2))),
     (u.1, set_sessions (filter (λ p, addr_name p.1 ≠ n)) u.2));
  load_pre_key i u := (key_found (sv_pre_keys u.2 !! i), u);
  store_pre_key i b u := (0, (u.1, set_pre_keys <[i := b]> u.2));
  contains_pre_key i u := (present (sv_pre_keys u.2 !! i), u);
  remove_pre_key i u := (0, (u.1, set_pre_keys (delete i) u.2));
  load_signed_pre_key i u := (key_found (sv_signed_pre_keys u.2 !! i), u);
  store_signed_pre_key i b u := (0, (u.1, set_signed_pre_keys <[i := b]> u.2));
  contains_signed_pre_key i u := (present (sv_signed_pre_keys u.2 !! i), u);
  remove_signed_pre_key i u := (0, (u.1, set_signed_pre_keys (delete i) u.2));
  get_identity_key_pair u := (0, (Some (sv_identity u.2).1, Some (sv_identity u.2).2), u);
  get_local_registration_id u := (0, sv_registration_id u.2, u);
  save_identity a k u := (0, (u.1, set_identities (partial_alter (λ _, k) a) u.2));
  is_trusted_identity a k u := ((if trusts u.2 a k then 1 else 0), u);
  store_sender_key n b u := (0, (u.1, set_sender_keys <[n := b]> u.2));
  load_sender_key n u := (found (sv_sender_keys u.2 !! n), u)
|}.

#[export] Instance mem_store_laws : StoreLaws mem_provider mem_stores.
Proof. refine {| view := snd |}; try done; intros; eexists; by split. Defined.
End MemStore.
