(* ===== verification/SessionBuilder.v ===== *)
(** Building sessions (session_builder.c): from a peer's pre-key bundle and
    from the first message of a peer. *)

From S2P Require Import Prelude Buffer Provider Hkdf Curve Vpool Ratchet SessionState Ratcheting.
From S2P Require Import Window CipherKeys Protobuf ProtobufSpec Wire Protocol SessionSerial SessionRecord.
From S2P Require Import PreKeys SenderKey Store.

Record session_builder : Type := SessionBuilder { sb_remote_address : signal_protocol_address }.

(** [m] on [session_record_get_state(record)], which the called functions
    assert to be set. *)
Definition on_state {U A} (m : M (session_state * world U) A) : M (session_record * world U) A :=
  λ '(r, w), match sr_state r with
  | None => (Abort, (r, w))
  | Some s => let '(a, (s', w')) := m (s, w) in (a, (session_record_set_state s' r, w'))
  end.

(** A setter applied to that state. *)
Definition update_state {U} (f : session_state → session_state) : M (session_record * world U) unit :=
  on_state (let* s := get_obj in put_obj (f s)).

Section Defs.
Context {U : Type} {CP : CryptoProvider U} {C : Curve25519} {ST : Stores U}.

Definition session_builder_create (remote_address : signal_protocol_address)
    : M (world U) session_builder :=
  let* _ := alloc in ret (SessionBuilder remote_address).

(** [Some id]: the return value 1 and the id of the one-time pre key to
    remove. *)
Definition session_builder_process_pre_key_signal_message_v3 (message : pre_key_signal_message)
    : M (session_record * world U) (option Z) :=
  let* record := get_obj in
  let* has_session_state := lift (session_record_has_session_state record
    (pkm_version message) (pkm_base_key message)) in
  if (has_session_state : bool) then ret None
  else
    let* our_signed_pre_key :=
      lift (signal_protocol_signed_pre_key_load_key (pkm_signed_pre_key_id message)) in
    let* our_identity_key := lift signal_protocol_identity_get_key_pair in
    let* session_our_one_time_pre_key :=
      lift (opt_mapM signal_protocol_pre_key_load_key (pkm_pre_key_id message)) in
    let* parameters := lift (bob_signal_protocol_parameters_create
      (Some our_identity_key) (Some (sspk_key_pair our_signed_pre_key))
      (spk_key_pair <$> session_our_one_time_pre_key)
      (Some (sspk_key_pair our_signed_pre_key))
      (Some (pkm_identity_key message)) (Some (pkm_base_key message))) in
    let* _ := (if negb (sr_is_fresh record) then session_record_archive_current_state
               else ret tt) in
    let* _ := on_state (ratcheting_session_bob_initialize parameters) in
    let* local_registration_id := lift signal_protocol_identity_get_local_registration_id in
    let* _ := update_state (λ s,
      session_state_set_alice_base_key (pkm_base_key message)
        (session_state_set_remote_registration_id (pkm_registration_id message)
          (session_state_set_local_registration_id local_registration_id s))) in
    ret match pkm_pre_key_id message with
        | Some id => if negb (id =? PRE_KEY_MEDIUM_MAX_VALUE) then Some id else None
        | None => None
        end.

Definition session_builder_process_pre_key_signal_message (builder : session_builder)
    (message : pre_key_signal_message) : M (session_record * world U) (option Z) :=
  let their_identity_key := Some (pkm_identity_key message) in
  let* result := lift (signal_protocol_identity_is_trusted_identity (sb_remote_address builder)
    their_identity_key) in
  if result =? 0 then fail SG_ERR_UNTRUSTED_IDENTITY
  else
    let* unsigned_pre_key_id := session_builder_process_pre_key_signal_message_v3 message in
    let* _ := lift (signal_protocol_identity_save_identity (sb_remote_address builder)
      their_identity_key) in
    ret unsigned_pre_key_id.

(** The part of [session_builder_process_pre_key_bundle] that works on the
    loaded record. *)
Definition session_builder_start_session (bundle : session_pre_key_bundle)
    (our_base_key : ec_key_pair) : M (session_record * world U) unit :=
  let* our_identity_key := lift signal_protocol_identity_get_key_pair in
  let* parameters := lift (alice_signal_protocol_parameters_create
    (Some our_identity_key) (Some our_base_key) (spb_identity_key bundle)
    (spb_signed_pre_key_public bundle) (spb_pre_key_public bundle)
    (spb_signed_pre_key_public bundle)) in
  let* record := get_obj in
  let* _ := (if negb (sr_is_fresh record) then session_record_archive_current_state
             else ret tt) in
  let* _ := on_state (ratcheting_session_alice_initialize parameters) in
  let their_one_time_pre_key_id :=
    match spb_pre_key_public bundle with Some _ => Some (spb_pre_key_id bundle) | None => None end in
  let* _ := update_state (session_state_set_unacknowledged_pre_key_message
    their_one_time_pre_key_id (spb_signed_pre_key_id bundle)
    (ec_key_pair_get_public our_base_key)) in
  let* local_registration_id := lift signal_protocol_identity_get_local_registration_id in
  update_state (λ s,
    session_state_set_alice_base_key (ec_key_pair_get_public our_base_key)
      (session_state_set_remote_registration_id (spb_registration_id bundle)
        (session_state_set_local_registration_id local_registration_id s))).

(** A bundle without signature dereferences a null buffer. *)
Definition session_builder_process_pre_key_bundle (builder : session_builder)
    (bundle : session_pre_key_bundle) : M (world U) unit :=
  let* result := signal_protocol_identity_is_trusted_identity (sb_remote_address builder)
    (spb_identity_key bundle) in
  if result =? 0 then fail SG_ERR_UNTRUSTED_IDENTITY
  else
    match spb_signed_pre_key_public bundle with
    | None => fail SG_ERR_INVALID_KEY
    | Some signed_pre_key =>
        let* serialized_signed_pre_key := ec_public_key_serialize (Some signed_pre_key) in
        match spb_signed_pre_key_signature bundle, spb_identity_key bundle with
        | Some signature, Some identity_key =>
            let* result :=
              curve_verify_signature identity_key serialized_signed_pre_key signature in
            if result =? 0 then fail SG_ERR_INVALID_KEY
            else
              let* record := signal_protocol_session_load_session (sb_remote_address builder) in
              let* our_base_key := curve_generate_key_pair in
              let* r := with_obj record (session_builder_start_session bundle our_base_key) in
              let* _ := signal_protocol_session_store_session (sb_remote_address builder) r.2 in
              let* _ := signal_protocol_identity_save_identity (sb_remote_address builder)
                (spb_identity_key bundle) in
              ret tt
        | _, _ => abort
        end
    end.
End Defs.
