(* ===== verification/SessionCipher.v ===== *)
(** Encrypting and decrypting messages of a session (session_cipher.c): the
    handlers over the stores, around the key schedule of CipherKeys.

    The locks of the context only serialize the handlers and are not part of
    the state. *)

From S2P Require Import Prelude Buffer Provider Hkdf Curve Vpool Ratchet SessionState Ratcheting.
From S2P Require Import Window CipherKeys Protobuf ProtobufSpec Wire Protocol SessionSerial SessionRecord.
From S2P Require Import PreKeys SenderKey Store SessionBuilder.

(** [ciphertext_message] *)
Inductive ciphertext_message : Type :=
| CIPHERTEXT_SIGNAL_TYPE (message : signal_message)
| CIPHERTEXT_PREKEY_TYPE (message : pre_key_signal_message).

(** The decryption callback gets the cipher and the plaintext; of the cipher,
    which is opaque to it, only the flag [inside_callback] has changed. *)
Record session_cipher (U : Type) : Type := SessionCipher {
  sc_remote_address : signal_protocol_address;
  sc_builder : session_builder;
  sc_decrypt_callback : option (Z → bytes → M (world U) Z);
  sc_inside_callback : Z }.
Global Arguments SessionCipher {U}.
Global Arguments sc_remote_address {U}.
Global Arguments sc_builder {U}.
Global Arguments sc_decrypt_callback {U}.
Global Arguments sc_inside_callback {U}.

Section Defs.
Context {U : Type} {CP : CryptoProvider U} {C : Curve25519} {ST : Stores U}.

Definition session_cipher_create (remote_address : signal_protocol_address)
    : M (world U) (session_cipher U) :=
  let* builder := session_builder_create remote_address in
  let* _ := alloc in
  ret (SessionCipher remote_address builder None 0).

Definition session_cipher_set_decryption_callback
    (callback : option (Z → bytes → M (world U) Z)) (cipher : session_cipher U)
    : session_cipher U :=
  SessionCipher (sc_remote_address cipher) (sc_builder cipher) callback (sc_inside_callback cipher).

(** The message of lines 98-232: the loaded record's sending chain gives the
    keys, then moves on. *)
Definition session_cipher_encrypt_in (padded_message : bytes)
    : M (session_record * world U) ciphertext_message :=
  let* record := get_obj in
  let* state := non_null (sr_state record) SG_ERR_UNKNOWN in
  let* chain_key := non_null (session_state_get_sender_chain_key state) SG_ERR_UNKNOWN in
  let* message_keys := lift (ratchet_chain_key_get_message_keys chain_key) in
  let* sender_ephemeral :=
    non_null (session_state_get_sender_ratchet_key state) SG_ERR_UNKNOWN in
  let session_version := ss_session_version state in
  let* ciphertext :=
    lift (session_cipher_get_ciphertext session_version message_keys padded_message) in
  let* local_identity_key := non_null (ss_local_identity_public state) SG_ERR_UNKNOWN in
  let* remote_identity_key := non_null (ss_remote_identity_public state) SG_ERR_UNKNOWN in
  let* message := lift (signal_message_create session_version (mk_mac_key message_keys)
    sender_ephemeral (ratchet_chain_key_get_index chain_key) (ss_previous_counter state)
    ciphertext local_identity_key remote_identity_key) in
  let* encrypted_message := (if ss_has_pending_pre_key state then
      let pending := ss_pending_pre_key state in
      let* base_key := non_null (ppk_base_key pending) SG_ERR_UNKNOWN in
      let* pre_key_message := lift (pre_key_signal_message_create session_version
        (ss_local_registration_id state)
        (if ppk_has_pre_key_id pending then Some (ppk_pre_key_id pending) else None)
        (ppk_signed_pre_key_id pending) base_key local_identity_key message) in
      ret (CIPHERTEXT_PREKEY_TYPE pre_key_message)
    else ret (CIPHERTEXT_SIGNAL_TYPE message)) in
  let* next_chain_key := lift (ratchet_chain_key_create_next chain_key) in
  let* _ := on_state (session_state_set_sender_chain_key next_chain_key) in
  ret encrypted_message.

Definition session_cipher_encrypt (cipher : session_cipher U) (padded_message : bytes)
    : M (world U) ciphertext_message :=
  if sc_inside_callback cipher =? 1 then fail SG_ERR_INVAL
  else
    let* record := signal_protocol_session_load_session (sc_remote_address cipher) in
    let* r := with_obj record (session_cipher_encrypt_in padded_message) in
    let* _ := signal_protocol_session_store_session (sc_remote_address cipher) r.2 in
    ret r.1.

(** Any result of the MAC check but 1 ends the function; a negative one is
    passed on. *)
Definition session_cipher_decrypt_from_state_and_signal_message (ciphertext : signal_message)
    : M (session_state * world U) bytes :=
  let* state := get_obj in
  if negb (ss_has_sender_chain state) then fail SG_ERR_INVALID_MESSAGE
  else
    let message_version := msg_message_version ciphertext in
    if negb (message_version =? ss_session_version state) then fail SG_ERR_INVALID_MESSAGE
    else
      let their_ephemeral := msg_sender_ratchet_key ciphertext in
      let* message_keys := session_cipher_receive_keys their_ephemeral (msg_counter ciphertext) in
      let* state := get_obj in
      let* remote_identity_key := non_null (ss_remote_identity_public state) SG_ERR_UNKNOWN in
      let* local_identity_key := non_null (ss_local_identity_public state) SG_ERR_UNKNOWN in
      let* verified := lift (signal_message_verify_mac ciphertext remote_identity_key
        local_identity_key (mk_mac_key message_keys)) in
      if negb (verified : bool) then fail SG_ERR_INVALID_MESSAGE
      else
        let* plaintext := lift (session_cipher_get_plaintext message_version message_keys
          (msg_ciphertext ciphertext)) in
        let* state := get_obj in
        let* _ := put_obj (session_state_clear_unacknowledged_pre_key_message state) in
        ret plaintext.

(** One state tried on a copy: the plaintext and the changed copy, or [None]
    for [SG_ERR_INVALID_MESSAGE], after which the next state is tried. *)
Definition try_state (state : session_state) (ciphertext : signal_message)
    : M (world U) (option (bytes * session_state)) :=
  let* state_copy := session_state_copy state in
  let* r := try (with_obj state_copy
    (session_cipher_decrypt_from_state_and_signal_message ciphertext)) in
  match r with
  | inl result => ret (Some result)
  | inr e => if e =? SG_ERR_INVALID_MESSAGE then ret None else fail e
  end.

(** The loop over the archived states, from the node at position [i]. *)
Fixpoint decrypt_from_previous (i : nat) (nodes : list session_state)
    (ciphertext : signal_message) : M (session_record * world U) bytes :=
  match nodes with
  | [] => fail SG_ERR_INVALID_MESSAGE
  | state :: nodes =>
      let* r := lift (try_state state ciphertext) in
      match r with
      | Some (plaintext, state_copy) =>
          let* record := get_obj in
          let* _ := put_obj (session_record_get_previous_states_remove i record) in
          let* _ := session_record_promote_state state_copy in
          ret plaintext
      | None => decrypt_from_previous (S i) nodes ciphertext
      end
  end.

Definition session_cipher_decrypt_from_record_and_signal_message (ciphertext : signal_message)
    : M (session_record * world U) bytes :=
  let* record := get_obj in
  let* r := match sr_state record with
    | Some state => lift (try_state state ciphertext)
    | None => ret None
    end in
  match r with
  | Some (plaintext, state_copy) =>
      let* _ := put_obj (session_record_set_state state_copy record) in
      ret plaintext
  | None => decrypt_from_previous 0 (sr_previous_states record) ciphertext
  end.

(** [inside_callback] is 1 for the callback and 0 when it has returned. *)
Definition session_cipher_decrypt_callback (cipher : session_cipher U) (plaintext : bytes)
    : M (world U) Z :=
  match sc_decrypt_callback cipher with
  | Some callback => let* result := callback 1 plaintext in status result
  | None => ret 0
  end.

Definition session_cipher_decrypt_pre_key_signal_message (cipher : session_cipher U)
    (ciphertext : pre_key_signal_message) : M (world U) bytes :=
  if sc_inside_callback cipher =? 1 then fail SG_ERR_INVAL
  else
    let* record := signal_protocol_session_load_session (sc_remote_address cipher) in
    let* r := with_obj record (
      let* unsigned_pre_key_id :=
        session_builder_process_pre_key_signal_message (sc_builder cipher) ciphertext in
      let* result_buf :=
        session_cipher_decrypt_from_record_and_signal_message (pkm_message ciphertext) in
      ret (unsigned_pre_key_id, result_buf)) in
    let* _ := session_cipher_decrypt_callback cipher r.1.2 in
    let* _ := signal_protocol_session_store_session (sc_remote_address cipher) r.2 in
    let* _ := opt_mapM signal_protocol_pre_key_remove_key r.1.1 in
    ret r.1.2.

Definition session_cipher_decrypt_signal_message (cipher : session_cipher U)
    (ciphertext : signal_message) : M (world U) bytes :=
  if sc_inside_callback cipher =? 1 then fail SG_ERR_INVAL
  else
    let* result := signal_protocol_session_contains_session (sc_remote_address cipher) in
    if result =? 0 then fail SG_ERR_NO_SESSION
    else
      let* _ := status result in
      let* record := signal_protocol_session_load_session (sc_remote_address cipher) in
      let* r := with_obj record
        (session_cipher_decrypt_from_record_and_signal_message ciphertext) in
      let* _ := session_cipher_decrypt_callback cipher r.1 in
      let* _ := signal_protocol_session_store_session (sc_remote_address cipher) r.2 in
      ret r.1.

Definition session_cipher_get_remote_registration_id (cipher : session_cipher U)
    : M (world U) Z :=
  let* record := signal_protocol_session_load_session (sc_remote_address cipher) in
  let* state := non_null (sr_state record) SG_ERR_UNKNOWN in
  ret (ss_remote_registration_id state).

(** A result other than 0 and 1 is returned as it is; if positive, the caller
    gets the version 0. *)
Definition session_cipher_get_session_version (cipher : session_cipher U) : M (world U) Z :=
  let* result := signal_protocol_session_contains_session (sc_remote_address cipher) in
  if negb (result =? 1) then
    if result =? 0 then fail SG_ERR_NO_SESSION
    else let* _ := status result in ret 0
  else
    let* record := signal_protocol_session_load_session (sc_remote_address cipher) in
    let* state := non_null (sr_state record) SG_ERR_UNKNOWN in
    ret (ss_session_version state).
End Defs.

(** A cipher as [session_cipher_create] returns it, without callback. *)
Definition new_cipher {U} (a : signal_protocol_address) : session_cipher U :=
  SessionCipher a (SessionBuilder a) None 0.

Lemma session_cipher_create_calm {U} (u : U) a :
  session_cipher_create a (calm u) = (Ok (new_cipher a), calm u).
Proof. done. Qed.
