(* ===== verification/Delivery.v ===== *)
(** Messages arrive: encryption by one party, the bytes on the wire and
    decryption by the other, over the stores of both.

    [linked a b ra rb]: the sessions [a] and [b] belong together; [ra] is the
    abstract receiver [a] has for [b]'s sending chain and [rb] the one [b] has
    for [a]'s. *)

From S2P Require Import Prelude Buffer Provider Hkdf Curve Vpool Ratchet SessionState Ratcheting.
From S2P Require Import Window CipherKeys Protobuf ProtobufSpec Wire Protocol SessionSerial SessionInv.
From S2P Require Import SessionRecord PreKeys SenderKey Store SessionBuilder SessionCipher.

Section Linked.
Context {U : Type} {CP : CryptoProvider U} {C : Curve25519} {HL : HmacLaws CP}
  {RL : RandomLaws CP} {DL : DhLaws C}.

(** The party that has not turned the ratchet yet knows nothing of the other's
    chain. *)
Definition linked (a b : session_state) (ra rb : recv) : Prop :=
  (ahead_with a b ra ∧ rb = Recv 0 []) ∨ (ahead_with b a rb ∧ ra = Recv 0 []).

Lemma linked_sym a b ra rb : linked a b ra rb → linked b a rb ra.
Proof. unfold linked. tauto. Qed.

Lemma linked_send (u : U) a a' b ra rb ck :
  linked a b ra rb → session_state_get_sender_chain_key a = Some ck → ck_index ck < 2 ^ 32 - 1 →
  session_state_set_sender_chain_key (ck_next ck) (a, calm u) = (Ok tt, (a', calm u)) →
  linked a' b ra rb.
Proof.
  intros [[H ->]|[H ->]] Hck Hlt Hset; [left|right]; (split; [|done]);
    by eapply (send_keeps_ahead u _ _ ck) in H; [apply H|..].
Qed.

(** The sending chain of [a], and what [b] answers to a counter of it. *)
Lemma linked_receive a b ra rb :
  linked a b ra rb →
  ∃ kp ck0 n, origin ck0 ∧ is_u32 n ∧ wf_pair kp ∧
    ss_sender_chain a = SenderChain (Some kp) (Some (chain_key_at ck0 n)) ∧
    ∀ (u : U) c, fresh_for u a → 0 <= c < 2 ^ 32 - 1 → ∃ b' u',
      session_cipher_receive_keys (kp_public kp) c (b, calm u)
        = (verdict_res ck0 c (recv_step rb c).1, (b', calm u')) ∧
      linked a b' (Recv 0 []) (recv_step rb c).2.
Proof.
  intros [[H ->]|[H ->]].
  - destruct (first_receive a b ra H) as (kp & ck0 & n & Ho & Hn & Hkp & Hsa & Hrecv).
    exists kp, ck0, n. split_and!; [done..|]. intros u c Hfr Hc.
    destruct (Hrecv u c Hfr Hc) as (b1 & b' & u' & Hb1 & H1 & H2).
    exists b', u'. split; [done|]. right. split; [|done].
    eapply recv_keeps_ahead; [exact Hb1|by rewrite Hsa|done|exact H2].
  - pose proof H as [(kpB & kpA & rkA & ckA & n & m & HB & HA & Hk & Ho & Hr & Hn & Hm & Hsa & Hra &
      _ & Hfb & _)].
    exists kpA, ckA, m. split_and!; [done..|]. intros u c _ Hc.
    eexists _, u. split; [by apply receive_keys_refine|]. right. split; [|done].
    eapply recv_keeps_ahead; [exact H|by rewrite Hsa|done|].
    by apply (receive_keys_refine u).
Qed.
End Linked.

(** ** Sending *)

Section Send.
Context {U : Type} {CP : CryptoProvider U} {C : Curve25519} {ST : Stores U}
  {HL : HmacLaws CP} {CL : CipherLaws CP} {RL : RandomLaws CP} {DL : DhLaws C}
  {SL : StoreLaws CP ST}.

Definition payload (mk : ratchet_message_keys) (plaintext : bytes) : bytes :=
  cipher_enc SG_CIPHER_AES_CBC_PKCS5 (mk_cipher_key mk) (mk_iv mk) plaintext.

(** The limit of the message format: 16 MB of ciphertext. *)
Definition fits (plaintext : bytes) : Prop := ∀ mk, zlen (payload mk plaintext) < 2 ^ 24.

(** The message of the sending chain [ck] under the ratchet key [rk]. *)
Definition sent (li ri rk : ec_public_key) (pc : Z) (ck : ratchet_chain_key) (plaintext : bytes)
    : signal_message :=
  made_signal_message 3 (mk_mac_key (ck_message_keys ck)) rk (ck_index ck) pc
    (payload (ck_message_keys ck) plaintext) li ri.

(** It travels inside a pre-key message until the peer has answered. *)
Definition wrapped (s : session_state) (li : ec_public_key) (m : signal_message)
    : ciphertext_message :=
  match ss_has_pending_pre_key s, ppk_base_key (ss_pending_pre_key s) with
  | true, Some base =>
      CIPHERTEXT_PREKEY_TYPE (made_pre_key_message (ss_local_registration_id s)
        (if ppk_has_pre_key_id (ss_pending_pre_key s)
         then Some (ppk_pre_key_id (ss_pending_pre_key s)) else None)
        (ppk_signed_pre_key_id (ss_pending_pre_key s)) base li m)
  | _, _ => CIPHERTEXT_SIGNAL_TYPE m
  end.

Definition advanced (kp : ec_key_pair) (ck : ratchet_chain_key) (s : session_state)
    : session_state :=
  set_sender_chain_record (SenderChain (Some kp) (Some (ck_next ck))) s.

Lemma get_ciphertext_calm (w : world U) mk p :
  wf_mk mk → session_cipher_get_ciphertext 3 mk p w = (Ok (payload mk p), w).
Proof.
  intros (Hk & _ & Hi). unfold session_cipher_get_ciphertext, signal_encrypt, of_res. simpl.
  rewrite encrypt_ok; [done|]. by split_and!; [right|..].
Qed.

Lemma get_plaintext_calm (w : world U) mk p :
  wf_mk mk → session_cipher_get_plaintext 3 mk (payload mk p) w = (Ok p, w).
Proof.
  intros (Hk & _ & Hi). unfold session_cipher_get_plaintext, signal_decrypt, of_res. simpl.
  unfold payload. rewrite decrypt_encrypt; [done|]. by split_and!; [right|..].
Qed.

Lemma pending_fields s : storable s →
  is_u32 (ss_local_registration_id s) ∧ is_u32 (ss_previous_counter s) ∧
  stored_pending_pre_key (ss_pending_pre_key s).
Proof. intros H. unfold storable in H. tauto. Qed.

(** The message's own size and parts. *)
Lemma sent_size li ri rk pc ck p : wf_pk rk → is_u32 (ck_index ck) → is_u32 pc → fits p →
  zlen (msg_serialized (sent li ri rk pc ck p)) < 2 ^ 25.
Proof. intros. by apply made_signal_message_size. Qed.

Lemma stored_chain_kdf ck : stored_chain_key 3 ck → wf_kdf (ck_kdf ck).
Proof. intros (-> & _). unfold wf_kdf. simpl. lia. Qed.

Lemma encrypt_in_calm (u : U) r s li ri kp ck p :
  sr_state r = Some s → session_inv 3 (Some li) (Some ri) s →
  ss_sender_chain s = SenderChain (Some kp) (Some ck) →
  (ss_has_pending_pre_key s = true → is_Some (ppk_base_key (ss_pending_pre_key s))) → fits p →
  session_cipher_encrypt_in p (r, calm u)
  = (Ok (wrapped s li (sent li ri (kp_public kp) (ss_previous_counter s) ck p)),
     (session_record_set_state (advanced kp ck s) r, calm u)).
Proof.
  intros Hr Hinv Hsc Hpend Hfit. pose proof Hinv as (Hst & Hv & Hl & Hri & Hhas).
  destruct (pending_fields s Hst) as (Hreg & Hpc & Hp1 & _ & Hp2 & Hp3).
  destruct (inv_sender _ _ _ s Hinv) as [Hkp Hck]. rewrite Hsc in Hkp, Hck.
  destruct (Hkp kp eq_refl) as [Hpk _]. specialize (Hck ck eq_refl).
  assert (wf_pk li) as Hwl by (destruct Hst as (_ & H & _); by apply H).
  assert (wf_pk ri) as Hwr by (destruct Hst as (_ & _ & H & _); by apply H).
  assert (is_u32 (ck_index ck)) as Hi by apply Hck.
  assert (zlen (payload (ck_message_keys ck) p) < 2 ^ 25) as Hsize
    by (pose proof (Hfit (ck_message_keys ck)); lia).
  unfold session_cipher_encrypt_in. step_to r (r, calm u) by done. rewrite Hr.
  step_to s (r, calm u) by done. unfold session_state_get_sender_chain_key,
    session_state_get_sender_ratchet_key. rewrite Hsc, Hv.
  step_to ck (r, calm u) by done.
  step (lift_run _ _ _ _ _ (get_message_keys_calm u ck (stored_chain_kdf ck Hck))).
  step_to (kp_public kp) (r, calm u) by done.
  step (lift_run _ _ _ _ _ (get_ciphertext_calm (calm u) _ p (ck_message_keys_wf ck))).
  rewrite Hl, Hri. step_to li (r, calm u) by done. step_to ri (r, calm u) by done.
  step (lift_run _ _ _ _ _ (signal_message_create_calm u 3 (mk_mac_key (ck_message_keys ck))
    (kp_public kp) (ck_index ck) (ss_previous_counter s) (payload (ck_message_keys ck) p) li ri
    Hpk Hwl Hwr Hi Hpc Hsize)).
  set (m := sent li ri (kp_public kp) (ss_previous_counter s) ck p).
  step_goal (wrapped s li m) (r, calm u).
  - step (lift_run _ _ _ _ _ (create_next_calm u ck)).
    step_goal tt (session_record_set_state (advanced kp ck s) r, calm u); [done|].
    unfold on_state. rewrite Hr. unfold session_state_set_sender_chain_key, bind. simpl.
    rewrite Hhas, Hsc. done.
  - unfold wrapped. destruct (ss_has_pending_pre_key s); [|done].
    destruct (Hpend eq_refl) as [base Hbase]. rewrite Hbase. rewrite Hbase in Hp3.
    step_to base (r, calm u) by done.
    step_goal (made_pre_key_message (ss_local_registration_id s)
      (if ppk_has_pre_key_id (ss_pending_pre_key s)
       then Some (ppk_pre_key_id (ss_pending_pre_key s)) else None)
      (ppk_signed_pre_key_id (ss_pending_pre_key s)) base li m) (r, calm u); [done|].
    apply lift_run, pre_key_signal_message_create_calm; try done.
    + by apply Hp3.
    + destruct (ppk_has_pre_key_id _); [|done]. by intros z [= <-].
    + by apply sent_size.
Qed.

(** [a] has a stored record for the peer at [addr] with current session [s]. *)
Definition in_session (v : store_view) (addr : signal_protocol_address) (r : session_record)
    (s : session_state) : Prop :=
  sv_sessions v !! addr = Some (record_bytes r) ∧ storable_record r ∧ sr_is_fresh r = false ∧
  sr_state r = Some s.

Lemma in_session_holds v addr r s : in_session v addr r s → holds_record v addr r.
Proof. intros (H & Hs & Hf & _). unfold holds_record. by rewrite H. Qed.

Lemma in_session_update v addr r s s' :
  in_session v addr r s → storable s' →
  in_session (set_sessions <[addr := record_bytes (session_record_set_state s' r)]> v) addr
    (session_record_set_state s' r) s'.
Proof.
  intros (_ & (_ & _ & Hp & Hn) & Hf & _) Hs'. split_and!; [|split_and!|..]; simpl; try done.
  - apply lookup_insert_eq.
  - by intros ? [= <-].
Qed.

Lemma encrypt_calm (u : U) addr r s li ri kp ck p :
  in_session (view u) addr r s → session_inv 3 (Some li) (Some ri) s →
  ss_sender_chain s = SenderChain (Some kp) (Some ck) →
  (ss_has_pending_pre_key s = true → is_Some (ppk_base_key (ss_pending_pre_key s))) → fits p →
  let r' := session_record_set_state (advanced kp ck s) r in
  ∃ u', session_cipher_encrypt (new_cipher addr) p (calm u)
    = (Ok (wrapped s li (sent li ri (kp_public kp) (ss_previous_counter s) ck p)), calm u') ∧
  view u' = set_sessions <[addr := record_bytes r']> (view u) ∧
  in_session (view u') addr r' (advanced kp ck s) ∧
  session_inv 3 (Some li) (Some ri) (advanced kp ck s).
Proof.
  intros Hin Hinv Hsc Hpend Hfit r'. pose proof Hin as (_ & Hst & _ & Hr).
  assert (session_inv 3 (Some li) (Some ri) (advanced kp ck s)) as Hinv'.
  { unfold advanced. replace (Some kp) with (sc_ratchet_key_pair (ss_sender_chain s))
      by (by rewrite Hsc). apply inv_sender_chain_key; [|done].
    destruct (inv_sender _ _ _ s Hinv) as [_ Hck]. rewrite Hsc in Hck.
    destruct (Hck ck eq_refl) as (Hk & Hl & Hi).
    split_and!; [done|apply hmac_length|apply u32_range]. }
  pose proof (in_session_update _ _ _ _ _ Hin (proj1 Hinv')) as Hin'.
  destruct (store_session_calm u addr r') as (u' & Hsto & Hv); [apply Hin'|].
  exists u'. split_and!; [|done|by rewrite Hv|done].
  unfold session_cipher_encrypt. change (sc_inside_callback (new_cipher (U:=U) addr) =? 1) with false.
  cbn iota. step (load_session_calm u addr r (in_session_holds _ _ _ _ Hin)).
  step_goal (wrapped s li (sent li ri (kp_public kp) (ss_previous_counter s) ck p), r') (calm u).
  - step Hsto. done.
  - unfold with_obj. by rewrite (encrypt_in_calm u r s li ri kp ck p).
Qed.
End Send.

(** ** Receiving *)

Section Receive.
Context {U : Type} {CP : CryptoProvider U} {C : Curve25519} {ST : Stores U}
  {HL : HmacLaws CP} {CL : CipherLaws CP} {RL : RandomLaws CP} {DL : DhLaws C}
  {SL : StoreLaws CP ST}.

Lemma decrypt_from_state_calm (u u' : U) s s' li ri rk pc ck p :
  session_inv 3 (Some li) (Some ri) s → session_inv 3 (Some li) (Some ri) s' →
  fits p → wf_pk rk → is_u32 (ck_index ck) → is_u32 pc →
  session_cipher_receive_keys rk (ck_index ck) (s, calm u)
    = (Ok (ck_message_keys ck), (s', calm u')) →
  session_cipher_decrypt_from_state_and_signal_message (sent ri li rk pc ck p) (s, calm u)
    = (Ok p, (session_state_clear_unacknowledged_pre_key_message s', calm u')).
Proof.
  intros (_ & Hv & _ & _ & Hhas) (Hst' & _ & Hl & Hri & _) Hfit Hrk Hi Hpc Hrecv.
  assert (wf_pk li) as Hwl by (destruct Hst' as (_ & H & _); by apply H).
  assert (wf_pk ri) as Hwr by (destruct Hst' as (_ & _ & H & _); by apply H).
  unfold session_cipher_decrypt_from_state_and_signal_message.
  step_to s (s, calm u) by done. rewrite Hhas, Hv. cbn [negb].
  cbn [sent made_signal_message msg_message_version msg_sender_ratchet_key msg_counter
    msg_ciphertext]. change (negb (3 =? 3)) with false. cbn iota.
  step Hrecv. step_to s' (s', calm u') by done. rewrite Hl, Hri.
  step_to ri (s', calm u') by done. step_to li (s', calm u') by done.
  step_goal true (s', calm u').
  - cbn [negb]. step (lift_run _ _ _ _ _ (get_plaintext_calm (calm u') _ p (ck_message_keys_wf ck))).
    done.
  - apply lift_run. rewrite verify_mac_calm; [|done..|].
    + rewrite bool_decide_true; [done|]. cbn [sent made_signal_message msg_serialized
        msg_message_version].
      rewrite length_app, mac_of_length, Nat.add_sub, take_app_length, drop_app_length. done.
    + cbn [sent made_signal_message msg_serialized]. rewrite length_app, mac_of_length. lia.
Qed.

Lemma try_state_calm (u u' : U) s s' m p : storable s →
  session_cipher_decrypt_from_state_and_signal_message m (s, calm u) = (Ok p, (s', calm u')) →
  try_state s m (calm u) = (Ok (Some (p, s')), calm u').
Proof.
  intros Hs Hd. unfold try_state. step (session_copy_calm u s Hs).
  step_to (inl (p, s')) (calm u') by (unfold try, with_obj; by rewrite Hd). done.
Qed.

Lemma decrypt_from_record_calm (u u' : U) r s s' m p :
  sr_state r = Some s → storable s →
  session_cipher_decrypt_from_state_and_signal_message m (s, calm u) = (Ok p, (s', calm u')) →
  session_cipher_decrypt_from_record_and_signal_message m (r, calm u)
    = (Ok p, (session_record_set_state s' r, calm u')).
Proof.
  intros Hr Hs Hd. unfold session_cipher_decrypt_from_record_and_signal_message.
  step_to r (r, calm u) by done. rewrite Hr.
  step (lift_run _ _ _ _ _ (try_state_calm u u' s s' m p Hs Hd)). done.
Qed.

Lemma decrypt_calm (u u1 : U) addr r s s' m p :
  in_session (view u) addr r s → storable s' → view u1 = view u →
  session_cipher_decrypt_from_state_and_signal_message m (s, calm u) = (Ok p, (s', calm u1)) →
  let r' := session_record_set_state s' r in
  ∃ u', session_cipher_decrypt_signal_message (new_cipher addr) m (calm u) = (Ok p, calm u') ∧
    view u' = set_sessions <[addr := record_bytes r']> (view u) ∧
    in_session (view u') addr r' s'.
Proof.
  intros Hin Hs' Hv1 Hd r'. pose proof Hin as (Hlook & Hst & _ & Hr).
  pose proof (in_session_update _ _ _ _ _ Hin Hs') as Hin'.
  destruct (store_session_calm u1 addr r') as (u' & Hsto & Hv); [apply Hin'|].
  rewrite Hv1 in Hv. exists u'. split_and!; [|done|by rewrite Hv].
  unfold session_cipher_decrypt_signal_message.
  change (sc_inside_callback (new_cipher (U:=U) addr) =? 1) with false. cbn iota.
  step (contains_session_calm (calm u) addr). cbn [w_user]. rewrite Hlook.
  change (present (Some (record_bytes r)) =? 0) with false. cbn iota.
  step_to 1 (calm u) by done.
  step (load_session_calm u addr r (in_session_holds _ _ _ _ Hin)).
  step_goal (p, r') (calm u1).
  - step_to 0 (calm u1) by done. step Hsto. done.
  - unfold with_obj. rewrite (decrypt_from_record_calm u u1 r s s' m p Hr); [done| |done].
    destruct Hst as (_ & H & _). by apply H.
Qed.

Lemma keeps_view_generate_key_pair : keeps same_view curve_generate_key_pair.
Proof.
  unfold curve_generate_key_pair, curve_generate_private_key, curve_generate_public_key.
  keeps_solve.
Qed.
Local Hint Resolve keeps_view_generate_key_pair : keeps.

Lemma keeps_view_loop fuel eph ck counter :
  keeps same_view2 (message_keys_loop fuel eph ck counter).
Proof.
  revert ck. induction fuel as [|fuel IH]; intros ck; [apply keeps_hang, _|].
  rewrite message_keys_loop_S. unfold session_state_set_message_keys. keeps_solve; apply IH.
Qed.
Local Hint Resolve keeps_view_loop : keeps.

Lemma keeps_view_receive_keys eph counter :
  keeps same_view2 (session_cipher_receive_keys eph counter).
Proof.
  unfold session_cipher_receive_keys, session_cipher_get_or_create_chain_key,
    session_cipher_get_or_create_message_keys, session_state_add_receiver_chain,
    session_state_remove_message_keys, session_state_set_receiver_chain_key.
  keeps_solve.
Qed.
End Receive.

(** ** Delivery *)

Section Delivered.
Context {U : Type} {CP : CryptoProvider U} {C : Curve25519} {ST : Stores U}
  {HL : HmacLaws CP} {CL : CipherLaws CP} {RL : RandomLaws CP} {DL : DhLaws C}
  {SL : StoreLaws CP ST}.

(** Two linked sessions of two identities. *)
Definition peers (a b : session_state) (ra rb : recv) : Prop :=
  linked a b ra rb ∧ ∃ idA idB,
    session_inv 3 (Some idA) (Some idB) a ∧ session_inv 3 (Some idB) (Some idA) b.

Lemma advanced_fields kp ck s :
  ss_has_pending_pre_key (advanced kp ck s) = ss_has_pending_pre_key s ∧
  ∀ eph, session_state_find_receiver_chain (advanced kp ck s) eph
    = session_state_find_receiver_chain s eph.
Proof. by destruct s. Qed.

Lemma linked_clear a b ra rb :
  linked a b ra rb → linked a (session_state_clear_unacknowledged_pre_key_message b) ra rb.
Proof.
  intros [[[H] ->]|[[H] ->]]; [left|right]; (split; [|done]); constructor;
    destruct b; exact H.
Qed.

Lemma advanced_is_set (u : U) kp ck s :
  ss_has_sender_chain s = true → ss_sender_chain s = SenderChain (Some kp) (Some ck) →
  session_state_set_sender_chain_key (ck_next ck) (s, calm u) = (Ok tt, (advanced kp ck s, calm u)).
Proof.
  intros Hh Hs. unfold session_state_set_sender_chain_key, bind. simpl. by rewrite Hh, Hs.
Qed.

(** What [b] does with a message of [a]'s sending chain, sent now or earlier. *)
Lemma sent_received (u : U) a b ra rb idA idB :
  linked a b ra rb → session_inv 3 (Some idA) (Some idB) a →
  session_inv 3 (Some idB) (Some idA) b → fresh_for u a →
  ∃ kp ck0 n, origin ck0 ∧ is_u32 n ∧ wf_pk (kp_public kp) ∧
    ss_sender_chain a = SenderChain (Some kp) (Some (chain_key_at ck0 n)) ∧
  ∀ c pc p, 0 <= c < 2 ^ 32 - 1 → is_u32 pc → fits p → (recv_step rb c).1 = Accept →
  ∃ b' u', session_cipher_decrypt_from_state_and_signal_message
      (sent idA idB (kp_public kp) pc (chain_key_at ck0 c) p) (b, calm u) = (Ok p, (b', calm u')) ∧
    view u' = view u ∧ session_inv 3 (Some idB) (Some idA) b' ∧
    ss_has_pending_pre_key b' = false ∧ linked a b' (Recv 0 []) (recv_step rb c).2.
Proof.
  intros Hl Ha Hb Hfr. destruct (linked_receive a b ra rb Hl)
    as (kp & ck0 & n & Ho & Hn & Hkp & Hsa & Hrecv).
  exists kp, ck0, n. split_and!; [done..|by apply wf_pair_pk|done|].
  intros c pc p Hc Hpc Hfit Hacc. destruct (Hrecv u c Hfr Hc) as (b1 & u' & Hrun & Hl').
  rewrite Hacc in Hrun. simpl verdict_res in Hrun.
  assert (session_inv 3 (Some idB) (Some idA) b1) as Hb1.
  { eapply (maintains_run _ _ _ _ _ _ (keep_receive_keys 3 (Some idB) (Some idA) (kp_public kp) c
      (wf_pair_pk _ Hkp))) in Hrun; [exact Hrun|exact Hb]. }
  assert (ck_index (chain_key_at ck0 c) = c) as Hi
    by (apply chain_key_at_index; [done|unfold is_u32; lia]).
  exists (session_state_clear_unacknowledged_pre_key_message b1), u'. split_and!.
  - eapply decrypt_from_state_calm; [exact Hb|exact Hb1|done|by apply wf_pair_pk| |done|].
    + rewrite Hi. unfold is_u32. lia.
    + by rewrite Hi.
  - pose proof (keeps_view_receive_keys (kp_public kp) c (b, calm u)) as Hk.
    rewrite Hrun in Hk. symmetry. exact Hk.
  - by apply inv_clear_pre_key.
  - by destruct b1.
  - by apply linked_clear.
Qed.

(** C2: messages arrive.  Two parties hold linked sessions in their stores,
    with any messages lost or still on the way.  When one of them encrypts a
    message, the other can parse the bytes and decrypts them to exactly the
    plaintext, provided its abstract receiver accepts the counter (it is not
    more than 2000 ahead); both stores then hold the new sessions, which are
    linked again, so that either party can go on. *)
Theorem message_delivered (uA uB : U) (addrA addrB : signal_protocol_address)
    (rA rB : session_record) (a b : session_state) (ra rb : recv) (ck : ratchet_chain_key)
    (p : bytes) :
  in_session (view uA) addrB rA a → in_session (view uB) addrA rB b → peers a b ra rb →
  ss_has_pending_pre_key a = false →
  session_state_get_sender_chain_key a = Some ck → ck_index ck < 2 ^ 32 - 1 →
  (recv_step rb (ck_index ck)).1 = Accept → fits p → fresh_for uB a →
  ∃ m uA' uB' rA' rB' a' b',
    session_cipher_encrypt (new_cipher addrB) p (calm uA)
      = (Ok (CIPHERTEXT_SIGNAL_TYPE m), calm uA') ∧
    signal_message_deserialize (msg_serialized m) (calm uB) = (Ok m, calm uB) ∧
    session_cipher_decrypt_signal_message (new_cipher addrA) m (calm uB) = (Ok p, calm uB') ∧
    in_session (view uA') addrB rA' a' ∧ in_session (view uB') addrA rB' b' ∧
    peers a' b' (Recv 0 []) (recv_step rb (ck_index ck)).2 ∧
    ss_has_pending_pre_key a' = false ∧ ss_has_pending_pre_key b' = false.
Proof.
  intros HinA HinB (Hl & idA & idB & Ha & Hb) Hpend Hck Hlt Hacc Hfit Hfr.
  destruct (sent_received uB a b ra rb idA idB Hl Ha Hb Hfr)
    as (kp & ck0 & n & Ho & Hn & Hpk & Hsa & Hdec).
  unfold session_state_get_sender_chain_key in Hck. rewrite Hsa in Hck. injection Hck as <-.
  rewrite chain_key_at_index in * by done.
  destruct (encrypt_calm uA addrB rA a idA idB kp (chain_key_at ck0 n) p HinA Ha Hsa)
    as (uA' & Henc & HvA & HinA' & Ha'); [by rewrite Hpend|done|].
  unfold wrapped in Henc. rewrite Hpend in Henc.
  assert (is_u32 (ss_previous_counter a)) as Hpc by (apply pending_fields, Ha).
  unfold is_u32 in Hn.
  destruct (Hdec n (ss_previous_counter a) p ltac:(lia) Hpc Hfit Hacc)
    as (b' & u1 & Hd & Hv1 & Hb' & Hpb & Hl').
  destruct (decrypt_calm uB u1 addrA rB b b' _ p HinB (proj1 Hb') Hv1 Hd)
    as (uB' & Hdecr & HvB & HinB').
  eexists _, uA', uB', _, _, (advanced kp (chain_key_at ck0 n) a), b'.
  split_and!; [exact Henc| |exact Hdecr|exact HinA'|exact HinB'| | |exact Hpb].
  - apply signal_message_deserialize_calm; [lia|done| |done|].
    + rewrite chain_key_at_index; done.
    + pose proof (Hfit (ck_message_keys (chain_key_at ck0 n))). lia.
  - split; [|by exists idA, idB].
    eapply (linked_send uA); [exact Hl'| | |by apply advanced_is_set; [apply Ha|]].
    + unfold session_state_get_sender_chain_key. by rewrite Hsa.
    + by rewrite chain_key_at_index.
  - destruct (advanced_fields kp (chain_key_at ck0 n) a) as [-> _]. done.
Qed.
End Delivered.

(** ** Witnesses *)

Import Toy MemStore.

Lemma toy_fits p : zlen p < 2 ^ 24 → fits (CP := mem_provider) p.
Proof.
  intros H mk. unfold payload. change (zlen (crypt SG_CIPHER_AES_CBC_PKCS5 (mk_cipher_key mk)
    (mk_iv mk) p) < 2 ^ 24). unfold zlen. by rewrite crypt_length.
Qed.

Definition witness_addr_a : signal_protocol_address := Address [65] 1.
Definition witness_addr_b : signal_protocol_address := Address [66] 1.

(** Two sessions after the handshake, in two stores. *)
Definition witness_alice : session_state :=
  alice_initialized (x3dh_alice (witness_pair 9) (witness_pair 17) (witness_pair 25)
    (witness_pair 33) None (witness_pair 33)) (witness_pair 41) session_state_zero.
Definition witness_bob : session_state :=
  bob_initialized (x3dh_bob (witness_pair 9) (witness_pair 17) (witness_pair 25)
    (witness_pair 33) None (witness_pair 33)) session_state_zero.
Definition witness_in (seed : Z) (addr : signal_protocol_address) (s : session_state) : mem :=
  (seed, StoreView {[addr := record_bytes (SessionRecord (Some s) [] false)]} ∅ ∅ ([], []) 0 ∅ ∅).

Lemma witness_in_session seed addr s : storable s →
  in_session (witness_in seed addr s).2 addr (SessionRecord (Some s) [] false) s.
Proof.
  intros Hs. split_and!; try done.
  - apply (lookup_singleton_eq (M := gmap signal_protocol_address)).
  - split_and!; [by exists s|by intros ? [= <-]|constructor|simpl; lia].
Qed.

Lemma witness_peers : peers (CP := mem_provider) witness_alice witness_bob (Recv 0 []) (Recv 0 []).
Proof.
  split.
  - left. split; [|done].
    by apply (x3dh_initialized_ahead (CP := mem_provider)); try apply pair_of_wf.
  - exists (kp_public (witness_pair 9)), (kp_public (witness_pair 25)). split.
    + by apply (alice_initialized_inv (CP := mem_provider) (x3dh_alice (witness_pair 9)
        (witness_pair 17) (witness_pair 25) (witness_pair 33) None (witness_pair 33))).
    + by apply (bob_initialized_inv (CP := mem_provider) (x3dh_bob (witness_pair 9)
        (witness_pair 17) (witness_pair 25) (witness_pair 33) None (witness_pair 33))).
Qed.

Lemma message_delivered_witness :
  let uA := witness_in 7 witness_addr_b witness_alice in
  let uB := witness_in 60 witness_addr_a witness_bob in
  ∃ m uA' uB' rA' rB' a' b',
    session_cipher_encrypt (new_cipher witness_addr_b) [1; 2; 3] (calm uA)
      = (Ok (CIPHERTEXT_SIGNAL_TYPE m), calm uA') ∧
    signal_message_deserialize (msg_serialized m) (calm uB) = (Ok m, calm uB) ∧
    session_cipher_decrypt_signal_message (new_cipher witness_addr_a) m (calm uB)
      = (Ok [1; 2; 3], calm uB') ∧
    in_session (view uA') witness_addr_b rA' a' ∧ in_session (view uB') witness_addr_a rB' b' ∧
    peers a' b' (Recv 0 []) (recv_step (Recv 0 []) 0).2 ∧
    ss_has_pending_pre_key a' = false ∧ ss_has_pending_pre_key b' = false.
Proof.
  pose proof witness_peers as Hp. pose proof Hp as (_ & idA & idB & Ha & Hb).
  eapply (message_delivered (witness_in 7 witness_addr_b witness_alice)
    (witness_in 60 witness_addr_a witness_bob) witness_addr_a witness_addr_b _ _
    witness_alice witness_bob (Recv 0 []) (Recv 0 [])
    (default witness_chain (session_state_get_sender_chain_key witness_alice)) [1; 2; 3]).
  - apply witness_in_session, Ha.
  - apply witness_in_session, Hb.
  - exact Hp.
  - reflexivity.
  - reflexivity.
  - reflexivity.
  - reflexivity.
  - apply toy_fits. reflexivity.
  - intros bs u' [= <- <-]. vm_compute. reflexivity.
Defined.
