(* ===== verification/Handshake.v ===== *)
(** The first message: a session from a published bundle on one side, from the
    message itself on the other (session_builder.c and session_cipher.c over
    the handshake of Ratcheting). *)

From S2P Require Import Prelude Buffer Provider Hkdf Curve Vpool Ratchet SessionState Ratcheting.
From S2P Require Import Window CipherKeys Protobuf ProtobufSpec Wire Protocol SessionSerial SessionInv.
From S2P Require Import SessionRecord PreKeys SenderKey Store SessionBuilder SessionCipher Delivery.

Lemma on_state_run {U A} (m : M (session_state * world U) A) r s w o s' w' :
  sr_state r = Some s → m (s, w) = (o, (s', w')) →
  on_state m (r, w) = (o, (session_record_set_state s' r, w')).
Proof. intros Hr Hm. unfold on_state. by rewrite Hr, Hm. Qed.

Lemma update_state_run {U} f r s (w : world U) :
  sr_state r = Some s →
  update_state f (r, w) = (Ok tt, (session_record_set_state (f s) r, w)).
Proof. intros Hr. by apply (on_state_run _ r s). Qed.

(** The record a new session is put into. *)
Definition renewed (r : session_record) : session_record :=
  if sr_is_fresh r then r
  else match sr_state r with
       | Some s => SessionRecord (Some session_state_zero)
           (take ARCHIVED_STATES_MAX_LENGTH (s :: sr_previous_states r)) false
       | None => r
       end.

Definition started (s : session_state) (r : session_record) : session_record :=
  SessionRecord (Some s) (sr_previous_states (renewed r)) false.

Section Renew.
Context {U : Type} {CP : CryptoProvider U} {ST : Stores U} {SL : StoreLaws CP ST}.

Lemma holds_cases v addr r : holds_record v addr r →
  r = SessionRecord (Some session_state_zero) [] true ∨
  (∃ s, sr_state r = Some s ∧ storable s ∧ storable_record r ∧ sr_is_fresh r = false).
Proof.
  unfold holds_record. destruct (sv_sessions v !! addr); [|by left].
  intros (_ & Hr & Hf). right. pose proof Hr as ([s Hs] & Hst & _). exists s.
  split_and!; [done|by apply Hst|exact Hr|done].
Qed.

Lemma renew_calm (u : U) addr r : holds_record (view u) addr r →
  (if negb (sr_is_fresh r) then session_record_archive_current_state else ret tt) (r, calm u)
    = (Ok tt, (renewed r, calm u)) ∧ sr_state (renewed r) = Some session_state_zero.
Proof.
  intros [->|(s & Hs & _ & _ & Hf)]%holds_cases; [done|]. unfold renewed. rewrite Hf, Hs.
  split; [|done]. cbn [negb]. unfold session_record_archive_current_state.
  step_to session_state_zero (r, calm u) by done.
  rewrite (promote_state_run (calm u) r s _ Hs). simpl. by rewrite Hf.
Qed.

Lemma started_storable v addr r s : holds_record v addr r → storable s →
  storable_record (started s r).
Proof.
  intros H Hs. unfold started, storable_record. simpl.
  split; [by exists s|]. split; [by intros ? [= <-]|].
  apply holds_cases in H as [->|(s0 & Hs0 & Hst & (_ & _ & Hp & _) & Hf)].
  - simpl. split; [constructor|lia].
  - unfold renewed. rewrite Hf, Hs0. cbn [sr_previous_states]. split.
    + apply Forall_take. by constructor.
    + rewrite length_take. lia.
Qed.

Lemma set_state_started s r : record_bytes (session_record_set_state s (renewed r))
  = record_bytes (started s r).
Proof. done. Qed.

Lemma started_in_session v v' addr r s : holds_record v addr r → storable s →
  sv_sessions v' !! addr = Some (record_bytes (started s r)) → in_session v' addr (started s r) s.
Proof. intros H Hs Hv. split_and!; [done|by eapply started_storable|done|done]. Qed.
End Renew.

(** ** The sender of the first message *)

Section Alice.
Context {U : Type} {CP : CryptoProvider U} {C : Curve25519} {ST : Stores U}
  {HL : HmacLaws CP} {RL : RandomLaws CP} {DL : DhLaws C} {SL : StoreLaws CP ST}.

(** The store holds this identity and a registration id of 32 bits. *)
Definition has_identity (v : store_view) (k : ratchet_identity_key_pair) : Prop :=
  sv_identity v = (pk_pb (ik_public k), sk_data (ik_private k)) ∧ stored_identity k ∧
  is_u32 (sv_registration_id v).

(** A complete bundle whose signature verifies. *)
Definition good_bundle (b : session_pre_key_bundle) (idB spk : ec_public_key) : Prop :=
  spb_identity_key b = Some idB ∧ wf_pk idB ∧ spb_signed_pre_key_public b = Some spk ∧ wf_pk spk ∧
  is_u32 (spb_pre_key_id b) ∧ is_u32 (spb_signed_pre_key_id b) ∧ is_u32 (spb_registration_id b) ∧
  ∃ sig, spb_signed_pre_key_signature b = Some sig ∧
    ∀ w : world U, curve_verify_signature idB (pk_pb spk) sig w = (Ok 1, w).

Definition alice_session (idA : ratchet_identity_key_pair) (base kp : ec_key_pair)
    (b : session_pre_key_bundle) (idB spk : ec_public_key) (reg : Z) : session_state :=
  session_state_set_alice_base_key (kp_public base)
    (session_state_set_remote_registration_id (spb_registration_id b)
    (session_state_set_local_registration_id reg
    (session_state_set_unacknowledged_pre_key_message
       (match spb_pre_key_public b with Some _ => Some (spb_pre_key_id b) | None => None end)
       (spb_signed_pre_key_id b) (kp_public base)
    (alice_initialized (AliceParameters idA base idB spk (spb_pre_key_public b) spk) kp
       session_state_zero)))).

Lemma alice_session_inv idA base kp b idB spk reg :
  stored_identity idA → stored_pair base → stored_pair kp → good_bundle b idB spk → is_u32 reg →
  session_inv 3 (Some (ik_public idA)) (Some idB) (alice_session idA base kp b idB spk reg).
Proof.
  intros [HiA _] [Hb _] Hkp (_ & HiB & _ & Hspk & Hpid & Hsid & Hreg & _) Hr.
  apply inv_set_alice_base_key; [done|]. apply inv_set_remote_registration_id; [done|].
  apply inv_set_local_registration_id; [done|]. apply inv_set_pre_key; [|done..|].
  - destruct (spb_pre_key_public b); [by intros ? [= <-]|done].
  - by apply (alice_initialized_inv (AliceParameters idA base idB spk (spb_pre_key_public b) spk)).
Qed.

Lemma wf_pair_stored kp : wf_pair kp → stored_pair kp.
Proof. intros H. split; [by apply wf_pair_pk|apply H]. Qed.

Lemma start_session_calm (u : U) addr r idA base b idB spk :
  holds_record (view u) addr r → has_identity (view u) idA → good_bundle b idB spk →
  ∃ bs u', random_func 32 u = (Ok bs, u') ∧ length bs = 32%nat ∧
  session_builder_start_session b base (r, calm u)
  = (Ok tt, (session_record_set_state
       (alice_session idA base (pair_of bs) b idB spk (sv_registration_id (view u))) (renewed r),
       calm u')).
Proof.
  intros Hr (Hid & Hst & Hreg) (HiB & _ & Hspk & _).
  destruct (renew_calm u addr r Hr) as [Hren Hz].
  set (p := AliceParameters idA base idB spk (spb_pre_key_public b) spk).
  destruct (alice_initialize_calm u p session_state_zero) as (bs & u' & Hrand & Hl & Hinit).
  assert (view u' = view u) as Hv
    by (rewrite <-(random_view 32 u); by rewrite Hrand).
  exists bs, u'. split_and!; [done..|]. unfold session_builder_start_session.
  step (lift_run _ _ _ _ _ (get_key_pair_calm u idA Hid Hst)). rewrite HiB, Hspk.
  step_to p (r, calm u) by done. step_to r (r, calm u) by done. step Hren.
  step (on_state_run _ (renewed r) session_state_zero _ _ _ _ Hz Hinit).
  step (update_state_run _ (session_record_set_state (alice_initialized p (pair_of bs)
    session_state_zero) (renewed r)) _ (calm u') eq_refl).
  step (lift_run _ _ _ _ _ (get_registration_id_calm u')). rewrite Hv.
  rewrite (update_state_run _ (session_record_set_state _ (session_record_set_state _ (renewed r)))
    _ (calm u') eq_refl). done.
Qed.

Lemma process_bundle_calm (u : U) addr r idA b idB spk :
  holds_record (view u) addr r → has_identity (view u) idA → good_bundle b idB spk →
  trusts (view u) addr (pk_pb idB) = true →
  ∃ bs u1 kp u', random_func 32 u = (Ok bs, u1) ∧ length bs = 32%nat ∧ wf_pair kp ∧
    session_builder_process_pre_key_bundle (SessionBuilder addr) b (calm u) = (Ok tt, calm u') ∧
    let base := pair_of bs in
    let a := alice_session idA base kp b idB spk (sv_registration_id (view u)) in
    in_session (view u') addr (started a r) a ∧
    session_inv 3 (Some (ik_public idA)) (Some idB) a ∧
    view u' = set_identities <[addr := pk_pb idB]>
      (set_sessions <[addr := record_bytes (started a r)]> (view u)).
Proof.
  intros Hr Hid Hb Htr. pose proof Hb as (HiB & HwB & Hspk & Hwspk & _ & _ & _ & sig & Hsig & Hver).
  destruct (curve_generate_key_pair_calm u) as (bs1 & u1 & Hrand1 & Hl1 & Hgen).
  assert (view u1 = view u) as Hv1 by (rewrite <-(random_view 32 u); by rewrite Hrand1).
  destruct (start_session_calm u1 addr r idA (pair_of bs1) b idB spk)
    as (bs2 & u2 & Hrand2 & Hl2 & Hstart); [by rewrite Hv1..|done|].
  assert (view u2 = view u) as Hv2 by (rewrite <-Hv1, <-(random_view 32 u1); by rewrite Hrand2).
  rewrite Hv1 in Hstart. set (a := alice_session idA (pair_of bs1) (pair_of bs2) b idB spk _) in *.
  assert (session_inv 3 (Some (ik_public idA)) (Some idB) a) as Hinv.
  { apply alice_session_inv; [apply Hid|by apply wf_pair_stored, pair_of_wf..|done|apply Hid]. }
  pose proof (started_storable _ _ _ _ Hr (proj1 Hinv)) as Hsto.
  destruct (store_session_calm u2 addr (session_record_set_state a (renewed r)))
    as (u3 & Hst & Hv3); [exact Hsto|].
  destruct (save_identity_calm u3 addr idB HwB) as (u4 & Hsave & Hv4 & _).
  rewrite Hv2, set_state_started in Hv3. rewrite Hv3 in Hv4.
  exists bs1, u1, (pair_of bs2), u4. cbn zeta. fold a.
  split_and!; [done..|by apply pair_of_wf| | | |exact Hv4].
  - unfold session_builder_process_pre_key_bundle. rewrite HiB.
    step (is_trusted_calm u addr idB HwB). rewrite Htr. change (1 =? 0) with false. cbn iota.
    rewrite Hspk. step (ec_public_key_serialize_calm u spk Hwspk). rewrite Hsig.
    step (Hver (calm u)). change (1 =? 0) with false. cbn iota.
    step (load_session_calm u addr r Hr). step Hgen.
    step_to (tt, session_record_set_state a (renewed r)) (calm u2)
      by (unfold with_obj; by rewrite Hstart).
    step Hst. step Hsave. done.
  - eapply started_in_session; [exact Hr|apply Hinv|]. rewrite Hv4. simpl. apply lookup_insert_eq.
  - exact Hinv.
Qed.
End Alice.

(** ** Its receiver *)

Section Bob.
Context {U : Type} {CP : CryptoProvider U} {C : Curve25519} {ST : Stores U}
  {HL : HmacLaws CP} {CL : CipherLaws CP} {RL : RandomLaws CP} {DL : DhLaws C}
  {SL : StoreLaws CP ST}.

(** The stored signed pre key, and the one-time pre key if one is used. *)
Definition has_signed_pre_key (v : store_view) (i : Z) (k : session_signed_pre_key) : Prop :=
  sv_signed_pre_keys v !! i = Some (pb_pack SignedPreKeyRecordStructure (signed_pre_key_pb k)) ∧
  storable_signed_pre_key k.

Definition has_pre_key (v : store_view) (i : option Z) (k : option session_pre_key) : Prop :=
  match i, k with
  | Some i, Some k =>
      sv_pre_keys v !! i = Some (pb_pack PreKeyRecordStructure (pre_key_pb k)) ∧ storable_pre_key k
  | None, None => True
  | _, _ => False
  end.

Definition bob_session (idB : ratchet_identity_key_pair) (spk : session_signed_pre_key)
    (otk : option session_pre_key) (m : pre_key_signal_message) (reg : Z) : session_state :=
  session_state_set_alice_base_key (pkm_base_key m)
    (session_state_set_remote_registration_id (pkm_registration_id m)
    (session_state_set_local_registration_id reg
    (bob_initialized (BobParameters idB (sspk_key_pair spk) (spk_key_pair <$> otk)
       (sspk_key_pair spk) (pkm_identity_key m) (pkm_base_key m)) session_state_zero))).

(** The pre key that will be removed. *)
Definition used_pre_key (m : pre_key_signal_message) : option Z :=
  match pkm_pre_key_id m with
  | Some id => if negb (id =? PRE_KEY_MEDIUM_MAX_VALUE) then Some id else None
  | None => None
  end.

Lemma bob_session_inv idB spk otk m reg :
  stored_identity idB → stored_pair (sspk_key_pair spk) → wf_pk (pkm_identity_key m) →
  wf_pk (pkm_base_key m) → is_u32 (pkm_registration_id m) → is_u32 reg →
  session_inv 3 (Some (ik_public idB)) (Some (pkm_identity_key m)) (bob_session idB spk otk m reg).
Proof.
  intros [HiB _] Hs HiA Hb Hr1 Hr2.
  apply inv_set_alice_base_key; [done|]. apply inv_set_remote_registration_id; [done|].
  apply inv_set_local_registration_id; [done|].
  by apply (bob_initialized_inv (BobParameters idB (sspk_key_pair spk) (spk_key_pair <$> otk)
       (sspk_key_pair spk) (pkm_identity_key m) (pkm_base_key m))).
Qed.

Lemma load_optional_pre_key_calm (u : U) i k : has_pre_key (view u) i k →
  opt_mapM signal_protocol_pre_key_load_key i (calm u) = (Ok k, calm u).
Proof.
  destruct i as [i|], k as [k|]; try done. intros [Hi Hk]. simpl.
  by step (load_pre_key_calm u i k Hi Hk).
Qed.

Lemma process_v3_calm (u : U) addr r idB spk otk m :
  holds_record (view u) addr r → has_identity (view u) idB →
  has_signed_pre_key (view u) (pkm_signed_pre_key_id m) spk →
  has_pre_key (view u) (pkm_pre_key_id m) otk →
  session_record_has_session_state r (pkm_version m) (pkm_base_key m) (calm u)
    = (Ok false, calm u) →
  session_builder_process_pre_key_signal_message_v3 m (r, calm u)
  = (Ok (used_pre_key m), (session_record_set_state
       (bob_session idB spk otk m (sv_registration_id (view u))) (renewed r), calm u)).
Proof.
  intros Hr (Hid & Hst & _) [Hs1 Hs2] Ho Hno. destruct (renew_calm u addr r Hr) as [Hren Hz].
  unfold session_builder_process_pre_key_signal_message_v3. step_to r (r, calm u) by done.
  step (lift_run _ _ _ _ _ Hno).
  step (lift_run _ _ _ _ _ (load_signed_pre_key_calm u _ spk Hs1 Hs2)).
  step (lift_run _ _ _ _ _ (get_key_pair_calm u idB Hid Hst)).
  step (lift_run _ _ _ _ _ (load_optional_pre_key_calm u _ _ Ho)).
  set (p := BobParameters idB (sspk_key_pair spk) (spk_key_pair <$> otk) (sspk_key_pair spk)
    (pkm_identity_key m) (pkm_base_key m)).
  step_to p (r, calm u) by done. step Hren.
  step (on_state_run _ (renewed r) session_state_zero _ _ _ _ Hz
    (bob_initialize_calm u p session_state_zero)).
  step (lift_run _ _ _ _ _ (get_registration_id_calm u)).
  step (update_state_run _ (session_record_set_state (bob_initialized p session_state_zero)
    (renewed r)) _ (calm u) eq_refl). done.
Qed.

Lemma process_message_calm (u : U) addr r idB spk otk m :
  holds_record (view u) addr r → has_identity (view u) idB →
  has_signed_pre_key (view u) (pkm_signed_pre_key_id m) spk →
  has_pre_key (view u) (pkm_pre_key_id m) otk →
  session_record_has_session_state r (pkm_version m) (pkm_base_key m) (calm u)
    = (Ok false, calm u) →
  wf_pk (pkm_identity_key m) → trusts (view u) addr (pk_pb (pkm_identity_key m)) = true →
  ∃ u', session_builder_process_pre_key_signal_message (SessionBuilder addr) m (r, calm u)
    = (Ok (used_pre_key m), (session_record_set_state
         (bob_session idB spk otk m (sv_registration_id (view u))) (renewed r), calm u')) ∧
    view u' = set_identities <[addr := pk_pb (pkm_identity_key m)]> (view u) ∧
    ∀ n, (random_func n u').1 = (random_func n u).1.
Proof.
  intros Hr Hid Hs Ho Hno Hw Htr.
  destruct (save_identity_calm u addr _ Hw) as (u' & Hsave & Hv & Hrand).
  exists u'. split_and!; [|done..]. unfold session_builder_process_pre_key_signal_message.
  step (lift_run _ _ _ _ _ (is_trusted_calm u addr _ Hw)). rewrite Htr.
  change (1 =? 0) with false. cbn iota.
  step (process_v3_calm u addr r idB spk otk m Hr Hid Hs Ho Hno).
  step (lift_run _ _ _ _ _ Hsave). done.
Qed.
End Bob.

(** ** The first message arrives *)

Section First.
Context {U : Type} {CP : CryptoProvider U} {C : Curve25519} {ST : Stores U}
  {HL : HmacLaws CP} {CL : CipherLaws CP} {RL : RandomLaws CP} {DL : DhLaws C}
  {SL : StoreLaws CP ST}.

Definition identity_of (kp : ec_key_pair) : ratchet_identity_key_pair :=
  RatchetIdentityKeyPair (kp_public kp) (kp_private kp).

Definition remove_used (i : option Z) : store_view → store_view :=
  match i with Some i => set_pre_keys (delete i) | None => λ v, v end.

Lemma decrypt_pre_key_calm (u u1 u2 : U) addr r m b b' p :
  holds_record (view u) addr r →
  session_builder_process_pre_key_signal_message (SessionBuilder addr) m (r, calm u)
    = (Ok (used_pre_key m), (session_record_set_state b (renewed r), calm u1)) →
  storable b → storable b' →
  session_cipher_decrypt_from_state_and_signal_message (pkm_message m) (b, calm u1)
    = (Ok p, (b', calm u2)) →
  ∃ u', session_cipher_decrypt_pre_key_signal_message (new_cipher addr) m (calm u)
    = (Ok p, calm u') ∧
    view u' = remove_used (used_pre_key m)
      (set_sessions <[addr := record_bytes (started b' r)]> (view u2)).
Proof.
  intros Hr Hproc Hb Hb' Hdec.
  pose proof (started_storable _ _ _ _ Hr Hb') as Hsto.
  destruct (store_session_calm u2 addr (session_record_set_state b' (renewed r)))
    as (u3 & Hst & Hv3); [exact Hsto|].
  assert (∃ u4, opt_mapM signal_protocol_pre_key_remove_key (used_pre_key m) (calm u3)
    = (Ok ((λ _, 0) <$> used_pre_key m), calm u4) ∧
    view u4 = remove_used (used_pre_key m) (view u3)) as (u4 & Hrem & Hv4).
  { destruct (used_pre_key m) as [i|]; [|by exists u3].
    destruct (remove_pre_key_calm u3 i) as (u4 & Hrem & Hv4). exists u4. split; [|done].
    simpl. by step Hrem. }
  exists u4. split; [|by rewrite Hv4, Hv3].
  unfold session_cipher_decrypt_pre_key_signal_message.
  change (sc_inside_callback (new_cipher (U:=U) addr) =? 1) with false. cbn iota.
  step (load_session_calm u addr r Hr).
  step_goal ((used_pre_key m, p), session_record_set_state b' (renewed r)) (calm u2).
  - step_to 0 (calm u2) by done. step Hst. step Hrem. done.
  - unfold with_obj. step Hproc.
    step_goal p (session_record_set_state b' (renewed r), calm u2); [done|].
    by apply (decrypt_from_record_calm u1 u2 (session_record_set_state b (renewed r)) b).
Qed.

Lemma first_ahead idA baseA idB spk otk kp b m regA regB :
  wf_pair idA → wf_pair baseA → wf_pair idB → wf_pair (sspk_key_pair spk) →
  (∀ k, otk = Some k → wf_pair (spk_key_pair k)) → wf_pair kp →
  spb_pre_key_public b = (λ k, kp_public (spk_key_pair k)) <$> otk →
  pkm_identity_key m = kp_public idA → pkm_base_key m = kp_public baseA →
  ahead_with
    (alice_session (identity_of idA) baseA kp b (kp_public idB) (kp_public (sspk_key_pair spk)) regA)
    (bob_session (identity_of idB) spk otk m regB) (Recv 0 []).
Proof.
  intros HA Ha HB Hs Ho Hkp Hpre Hid Hbase.
  pose proof (x3dh_initialized_ahead idA baseA idB (sspk_key_pair spk) (sspk_key_pair spk)
    (spk_key_pair <$> otk) kp HA Ha HB Hs Hs) as H.
  unfold alice_session, bob_session. rewrite Hpre, Hid, Hbase.
  unfold x3dh_alice, x3dh_bob in H. rewrite <-option_fmap_compose in H.
  destruct H as [H]; [|done|by constructor].
  intros k Hk. apply fmap_Some in Hk as (k' & Hk' & ->). by apply Ho.
Qed.

(** Bob's store has the keys the bundle speaks of. *)
Definition published (v : store_view) (b : session_pre_key_bundle) (spk : session_signed_pre_key)
    (otk : option session_pre_key) : Prop :=
  spb_pre_key_public b = (λ k, kp_public (spk_key_pair k)) <$> otk ∧
  has_signed_pre_key v (spb_signed_pre_key_id b) spk ∧
  has_pre_key v ((λ _, spb_pre_key_id b) <$> otk) otk.

(** The pre-key message Alice's first [sent] is wrapped in. *)
Definition first_message (regA : Z) (b : session_pre_key_bundle) (otk : option session_pre_key)
    (idA base : ec_public_key) (m : signal_message) : pre_key_signal_message :=
  made_pre_key_message regA ((λ _, spb_pre_key_id b) <$> otk) (spb_signed_pre_key_id b) base idA m.

Lemma alice_wrapped idA base kp b idB spk otk reg m :
  spb_pre_key_public b = (λ k, kp_public (spk_key_pair k)) <$> otk →
  wrapped (alice_session idA base kp b idB spk reg) (ik_public idA) m
  = CIPHERTEXT_PREKEY_TYPE (first_message reg b otk (ik_public idA) (kp_public base) m).
Proof. intros H. unfold wrapped, alice_session. rewrite H. by destruct otk. Qed.

Lemma alice_fresh (u : U) idA base kp b idB spk reg :
  wf_pk spk → (∀ bs u', random_func 32 u = (Ok bs, u') → kp_public (pair_of bs) ≠ spk) →
  fresh_for u (alice_session idA base kp b idB spk reg).
Proof.
  intros Hspk Hne bs u' Hrand. specialize (Hne bs u' Hrand).
  assert (∃ ck, ss_receiver_chains (alice_session idA base kp b idB spk reg)
    = [ReceiverChain (Some spk) ck []]) as [ck Hck] by (by eexists).
  unfold session_state_find_receiver_chain. rewrite Hck.
  cbn [find_receiver_chain rc_ratchet_key]. rewrite (proj2 (Z.eqb_neq _ _)); [done|].
  intros E. apply Hne. symmetry. apply ec_public_key_compare_eq; [done| |done].
  destruct (random_ok 32 u) as (bs' & u'' & Hr & Hl). rewrite Hrand in Hr. injection Hr as <- _.
  by apply wf_pair_pk, pair_of_wf.
Qed.

(** The message on the wire. *)
Lemma first_message_parses (u : U) regA b otk idA base idB spk rk pc ck p :
  wf_pk idA → wf_pk base → is_u32 regA → good_bundle (U := U) b idB spk →
  wf_pk rk → is_u32 (ck_index ck) → is_u32 pc → fits p →
  let pm := first_message regA b otk idA base (sent idA idB rk pc ck p) in
  pre_key_signal_message_deserialize (pkm_serialized pm) (calm u) = (Ok pm, calm u).
Proof.
  intros HA Hb Hreg (_ & _ & _ & _ & Hpid & Hsid & _) Hrk Hi Hpc Hfit.
  apply pre_key_signal_message_deserialize_calm; try done.
  - destruct otk; by intros z [= <-].
  - by apply sent_size.
  - pose proof (Hfit (ck_message_keys ck)).
    apply signal_message_deserialize_calm; done || lia.
Qed.

(** Bob's side of the first message. *)
Lemma bob_receives (u : U) addr r idA base kp idB spk otk b regA p :
  wf_pair idA → wf_pair base → wf_pair idB → wf_pair (sspk_key_pair spk) →
  (∀ k, otk = Some k → wf_pair (spk_key_pair k)) → wf_pair kp → is_u32 regA →
  let a := alice_session (identity_of idA) base kp b (kp_public idB)
    (kp_public (sspk_key_pair spk)) regA in
  session_inv 3 (Some (kp_public idA)) (Some (kp_public idB)) a →
  holds_record (view u) addr r → has_identity (view u) (identity_of idB) →
  trusts (view u) addr (pk_pb (kp_public idA)) = true → published (view u) b spk otk →
  session_record_has_session_state r 3 (kp_public base) (calm u) = (Ok false, calm u) →
  (∀ bs u', random_func 32 u = (Ok bs, u') →
    kp_public (pair_of bs) ≠ kp_public (sspk_key_pair spk)) → fits p →
  ∃ ck u' sB, ss_sender_chain a = SenderChain (Some kp) (Some ck) ∧ ck_index ck = 0 ∧
    let pm := first_message regA b otk (kp_public idA) (kp_public base)
      (sent (kp_public idA) (kp_public idB) (kp_public kp) (ss_previous_counter a) ck p) in
    session_cipher_decrypt_pre_key_signal_message (new_cipher addr) pm (calm u) = (Ok p, calm u') ∧
    session_inv 3 (Some (kp_public idB)) (Some (kp_public idA)) sB ∧
    ss_has_pending_pre_key sB = false ∧ linked a sB (Recv 0 []) (Recv 1 []) ∧
    view u' = remove_used (used_pre_key pm)
      (set_sessions <[addr := record_bytes (started sB r)]>
        (set_identities <[addr := pk_pb (kp_public idA)]> (view u))).
Proof.
  intros HA Ha HB Hs Ho Hkp Hreg a Hinv Hr Hid Htr (Hpre & Hsig & Hotk) Hnew Hne Hfit.
  assert (∃ ck, ss_sender_chain a = SenderChain (Some kp) (Some ck) ∧ ck_index ck = 0)
    as (ck & Hsa & Hck0) by (by eexists).
  set (pm := first_message regA b otk (kp_public idA) (kp_public base)
    (sent (kp_public idA) (kp_public idB) (kp_public kp) (ss_previous_counter a) ck p)).
  destruct (process_message_calm u addr r (identity_of idB) spk otk pm Hr Hid Hsig Hotk
    Hnew (wf_pair_pk _ HA) Htr) as (u1 & Hproc & Hv1 & Hrand).
  set (b0 := bob_session (identity_of idB) spk otk pm (sv_registration_id (view u))) in *.
  assert (session_inv 3 (Some (kp_public idB)) (Some (kp_public idA)) b0) as HinvB.
  { apply (bob_session_inv (identity_of idB)); try done; try apply Hid;
      by apply wf_pair_stored || by apply wf_pair_pk. }
  assert (linked a b0 (Recv 0 []) (Recv 0 [])) as Hlink.
  { left. split; [|done]. by apply first_ahead. }
  assert (fresh_for u1 a) as Hfr.
  { apply alice_fresh; [by apply wf_pair_pk|]. intros bs u' Hr'.
    specialize (Hrand 32%nat). rewrite Hr' in Hrand.
    destruct (random_func 32 u) as [o u2] eqn:E. simpl in Hrand. subst o. by eapply Hne. }
  destruct (sent_received u1 a b0 _ _ _ _ Hlink Hinv HinvB Hfr)
    as (kp' & ck0 & n & Ho' & Hn & Hpk' & Hsa' & Hdec).
  rewrite Hsa in Hsa'. injection Hsa' as <- Eck.
  assert (n = 0) as -> by (rewrite <-Hck0, Eck; symmetry; by apply chain_key_at_index).
  destruct (Hdec 0 (ss_previous_counter a) p ltac:(lia)) as (sB & u2 & Hd & Hv2 & HinvB' & Hpb & Hl');
    [by apply pending_fields, Hinv|done|done|]. rewrite <-Eck in Hd.
  destruct (decrypt_pre_key_calm u u1 u2 addr r pm b0 sB p Hr Hproc (proj1 HinvB)
    (proj1 HinvB') Hd) as (u' & HdecB & HvB).
  rewrite Hv2, Hv1 in HvB. by exists ck, u', sB.
Qed.

(** C1: the first message arrives.  Bob has published a bundle of keys his store
    holds.  Alice, who trusts his identity, processes it and encrypts a
    message; Bob, who trusts hers, parses the bytes and decrypts them to
    exactly the plaintext.  Both stores then hold sessions that are linked, so
    the conversation can go on; Bob's one-time pre key is gone from his store
    and his session is no longer marked pending. *)
Theorem first_message_delivered (uA uB : U) (addrA addrB : signal_protocol_address)
    (rA rB : session_record) (idA idB : ec_key_pair) (spk : session_signed_pre_key)
    (otk : option session_pre_key) (b : session_pre_key_bundle) (p : bytes) :
  wf_pair idA → wf_pair idB → wf_pair (sspk_key_pair spk) →
  (∀ k, otk = Some k → wf_pair (spk_key_pair k)) →
  holds_record (view uA) addrB rA → has_identity (view uA) (identity_of idA) →
  trusts (view uA) addrB (pk_pb (kp_public idB)) = true →
  holds_record (view uB) addrA rB → has_identity (view uB) (identity_of idB) →
  trusts (view uB) addrA (pk_pb (kp_public idA)) = true →
  good_bundle (U := U) b (kp_public idB) (kp_public (sspk_key_pair spk)) →
  published (view uB) b spk otk →
  (∀ bs u', random_func 32 uA = (Ok bs, u') →
    session_record_has_session_state rB 3 (kp_public (pair_of bs)) (calm uB)
      = (Ok false, calm uB)) →
  (∀ bs u', random_func 32 uB = (Ok bs, u') →
    kp_public (pair_of bs) ≠ kp_public (sspk_key_pair spk)) →
  fits p →
  ∃ m uA1 uA' uB' rA' rB' sA sB,
    session_builder_process_pre_key_bundle (SessionBuilder addrB) b (calm uA) = (Ok tt, calm uA1) ∧
    session_cipher_encrypt (new_cipher addrB) p (calm uA1)
      = (Ok (CIPHERTEXT_PREKEY_TYPE m), calm uA') ∧
    pre_key_signal_message_deserialize (pkm_serialized m) (calm uB) = (Ok m, calm uB) ∧
    session_cipher_decrypt_pre_key_signal_message (new_cipher addrA) m (calm uB)
      = (Ok p, calm uB') ∧
    in_session (view uA') addrB rA' sA ∧ in_session (view uB') addrA rB' sB ∧
    peers sA sB (Recv 0 []) (Recv 1 []) ∧ ss_has_pending_pre_key sB = false ∧
    view uB' = remove_used (used_pre_key m)
      (set_sessions <[addrA := record_bytes rB']>
        (set_identities <[addrA := pk_pb (kp_public idA)]> (view uB))).
Proof.
  intros HA HB Hs Ho HrA HidA HtA HrB HidB HtB Hb Hpub Hnew Hne Hfit.
  destruct (process_bundle_calm uA addrB rA (identity_of idA) b (kp_public idB)
    (kp_public (sspk_key_pair spk)) HrA HidA Hb HtA)
    as (bs & u1 & kp & uA1 & Hrand & Hl & Hkp & Hproc & HinA & Hinv & _).
  pose proof (pair_of_wf bs Hl) as Hbase. set (base := pair_of bs) in *.
  set (regA := sv_registration_id (view uA)) in *.
  destruct (bob_receives uB addrA rB idA base kp idB spk otk b regA p)
    as (ck & uB' & sB & Hsa & Hck0 & HdecB & HinvB & Hpb & Hl' & HvB); try done;
    [apply HidA|by eapply Hnew|].
  set (a := alice_session (identity_of idA) base kp b (kp_public idB)
    (kp_public (sspk_key_pair spk)) regA) in *.
  destruct (encrypt_calm uA1 addrB (started a rA) a (kp_public idA) (kp_public idB) kp ck p
    HinA Hinv Hsa) as (uA' & Henc & _ & HinA' & Hinv');
    [by intros _; unfold a, alice_session; rewrite (proj1 Hpub); destruct otk; eexists|done|].
  change (kp_public idA) with (ik_public (identity_of idA)) in Henc at 1.
  unfold a in Henc at 1. rewrite (alice_wrapped _ _ _ _ _ _ otk _ _ (proj1 Hpub)) in Henc.
  eexists _, uA1, uA', uB', _, (started sB rB), (advanced kp ck a), sB.
  split_and!; [exact Hproc|exact Henc| |exact HdecB|exact HinA'| | |exact Hpb|exact HvB].
  - eapply first_message_parses; [by apply wf_pair_pk..|apply HidA|exact Hb|by apply wf_pair_pk| | |done].
    + by rewrite Hck0.
    + by apply pending_fields, Hinv.
  - eapply started_in_session; [exact HrB|apply HinvB|]. rewrite HvB.
    destruct (used_pre_key _); apply lookup_insert_eq.
  - split; [|by exists (kp_public idA), (kp_public idB)].
    eapply (linked_send uA); [exact Hl'| | |by apply advanced_is_set; [apply Hinv|]].
    + unfold session_state_get_sender_chain_key. by rewrite Hsa.
    + rewrite Hck0. lia.
Qed.
End First.

(** ** Witnesses *)

Import Toy MemStore.

Definition witness_identity_a : ec_key_pair := witness_pair 9.
Definition witness_identity_b : ec_key_pair := witness_pair 17.
Definition witness_spk : session_signed_pre_key :=
  SessionSignedPreKey 6 (witness_pair 25) 1600000000000
    (curve25519_sign (sk_data (kp_private witness_identity_b))
       (pk_pb (kp_public (witness_pair 25))) []).2.
Definition witness_otk : session_pre_key := SessionPreKey 5 (witness_pair 33).
Definition witness_bundle : session_pre_key_bundle :=
  SessionPreKeyBundle 1000 1 5 (Some (kp_public (witness_pair 33))) 6
    (Some (kp_public (witness_pair 25))) (Some (sspk_signature witness_spk))
    (Some (kp_public witness_identity_b)).
Definition witness_identity_bytes (kp : ec_key_pair) : bytes * bytes :=
  (pk_pb (kp_public kp), sk_data (kp_private kp)).
Definition witness_mem_a : mem :=
  (0, StoreView ∅ ∅ ∅ (witness_identity_bytes witness_identity_a) 2000 ∅ ∅).
Definition witness_mem_b : mem :=
  (50, StoreView ∅ {[5 := pb_pack PreKeyRecordStructure (pre_key_pb witness_otk)]}
     {[6 := pb_pack SignedPreKeyRecordStructure (signed_pre_key_pb witness_spk)]}
     (witness_identity_bytes witness_identity_b) 1000 ∅ ∅).

Lemma witness_published : published (witness_mem_b.2) witness_bundle witness_spk (Some witness_otk).
Proof.
  split; [done|]. split; split.
  - apply (lookup_singleton_eq (M := gmap Z)).
  - split; [split; simpl; lia|]. split; [by split; apply wf_pair_pk || done|].
    split; [simpl; lia|]. vm_compute. done.
  - apply (lookup_singleton_eq (M := gmap Z)).
  - split; [split; simpl; lia|]. by split.
Qed.

Lemma witness_good_bundle : good_bundle (U := mem) witness_bundle (kp_public witness_identity_b)
  (kp_public (witness_pair 25)).
Proof.
  split_and!; try done. exists (sspk_signature witness_spk). split; [done|]. intros w. vm_compute. reflexivity.
Qed.

Lemma first_message_delivered_witness :
  ∃ m uA1 uA' uB' rA' rB' sA sB,
    session_builder_process_pre_key_bundle (SessionBuilder witness_addr_b) witness_bundle
      (calm witness_mem_a) = (Ok tt, calm uA1) ∧
    session_cipher_encrypt (new_cipher witness_addr_b) [1; 2; 3] (calm uA1)
      = (Ok (CIPHERTEXT_PREKEY_TYPE m), calm uA') ∧
    pre_key_signal_message_deserialize (pkm_serialized m) (calm witness_mem_b)
      = (Ok m, calm witness_mem_b) ∧
    session_cipher_decrypt_pre_key_signal_message (new_cipher witness_addr_a) m
      (calm witness_mem_b) = (Ok [1; 2; 3], calm uB') ∧
    in_session (view uA') witness_addr_b rA' sA ∧ in_session (view uB') witness_addr_a rB' sB ∧
    peers sA sB (Recv 0 []) (Recv 1 []) ∧ ss_has_pending_pre_key sB = false ∧
    view uB' = remove_used (used_pre_key m)
      (set_sessions <[witness_addr_a := record_bytes rB']>
        (set_identities <[witness_addr_a := pk_pb (kp_public witness_identity_a)]>
          (view witness_mem_b))).
Proof.
  apply (first_message_delivered witness_mem_a witness_mem_b witness_addr_a witness_addr_b
    (SessionRecord (Some session_state_zero) [] true) (SessionRecord (Some session_state_zero) [] true)
    witness_identity_a witness_identity_b witness_spk (Some witness_otk) witness_bundle [1; 2; 3]).
  1-3: apply pair_of_wf; reflexivity.
  - intros k [= <-]. apply pair_of_wf. reflexivity.
  - reflexivity.
  - split_and!; [reflexivity|split; reflexivity|split; simpl; lia].
  - reflexivity.
  - reflexivity.
  - split_and!; [reflexivity|split; reflexivity|split; simpl; lia].
  - reflexivity.
  - exact witness_good_bundle.
  - exact witness_published.
  - intros bs u' [= <- <-]. vm_compute. reflexivity.
  - intros bs u' [= <- <-]. vm_compute. discriminate.
  - apply toy_fits. reflexivity.
Defined.
