(* ===== verification/Frame.v ===== *)
(** What the handlers leave alone.

    Parsing, serialization and the key schedule never touch the application's
    data but for drawing random bytes; so a handler that fails before it
    stores leaves every store as it was, whichever allocation or check made
    it fail. *)

From S2P Require Import Prelude Buffer Provider Hkdf Curve Vpool Ratchet SessionState Ratcheting.
From S2P Require Import Window CipherKeys Protobuf ProtobufSpec Wire Protocol SessionSerial SessionInv.
From S2P Require Import SessionRecord PreKeys SenderKey Store SessionBuilder SessionCipher Delivery.
From S2P Require Import Handshake.

(** ** Protobuf *)

Section Proto.
Context {U : Type}.

Lemma keeps_byte_at d i : keeps (@same_user U) (byte_at d i).
Proof. unfold byte_at. keeps_solve. Qed.
Lemma keeps_copy_bytes d l : keeps (@same_user U) (copy_bytes d l).
Proof. unfold copy_bytes. keeps_solve. Qed.
Local Hint Resolve keeps_byte_at keeps_copy_bytes : keeps.

Lemma keeps_parse_tag_loop n rv d t s : keeps (@same_user U) (parse_tag_loop n rv d t s).
Proof. revert rv t s. induction n; intros; cbn [parse_tag_loop]; keeps_solve; auto. Qed.
Lemma keeps_scan_varint_loop n i d : keeps (@same_user U) (scan_varint_loop n i d).
Proof. revert i. induction n; intros; cbn [scan_varint_loop]; keeps_solve; auto. Qed.
Lemma keeps_length_prefix_loop n i d v s : keeps (@same_user U) (length_prefix_loop n i d v s).
Proof. revert i v s. induction n; intros; cbn [length_prefix_loop]; keeps_solve; auto. Qed.
Lemma keeps_parse_boolean d l : keeps (@same_user U) (parse_boolean d l).
Proof. revert l. induction d; intros; cbn [parse_boolean]; keeps_solve; auto. Qed.
Local Hint Resolve keeps_parse_tag_loop keeps_scan_varint_loop keeps_length_prefix_loop
  keeps_parse_boolean : keeps.

Lemma keeps_parse_uint32 l d : keeps (@same_user U) (parse_uint32 l d).
Proof. unfold parse_uint32. keeps_solve. Qed.
Lemma keeps_parse_fixed_uint64 d : keeps (@same_user U) (parse_fixed_uint64 d).
Proof. unfold parse_fixed_uint64. keeps_solve. Qed.
Lemma keeps_parse_tag_and_wiretype l d : keeps (@same_user U) (parse_tag_and_wiretype l d).
Proof. unfold parse_tag_and_wiretype. keeps_solve. Qed.
Lemma keeps_scan_data t l d : keeps (@same_user U) (scan_data t l d).
Proof. unfold scan_data, scan_length_prefixed_data. keeps_solve. Qed.
Local Hint Resolve keeps_parse_uint32 keeps_parse_fixed_uint64 keeps_parse_tag_and_wiretype
  keeps_scan_data : keeps.

Lemma keeps_scan_members fuel (d : pb_desc pb_name) last s i rem at_ :
  keeps (@same_user U) (scan_members fuel d last s i rem at_).
Proof.
  revert last s i rem at_. induction fuel as [|fuel IH]; intros; [apply keeps_hang, _|].
  cbn [scan_members]. keeps_solve; auto.
Qed.

Lemma keeps_alloc_repeated i (fs : list (pb_field pb_name)) ms :
  keeps (@same_user U) (alloc_repeated i fs ms).
Proof. revert i. induction fs as [|f fs IH]; intros i; cbn [alloc_repeated]; keeps_solve; auto. Qed.

Lemma keeps_merge_messages depth (n : pb_name) e l :
  keeps (@same_user U) (merge_messages depth n e l).
Proof.
  revert n e l. induction depth as [|depth IH]; intros n e l; [apply keeps_hang, _|].
  cbn [merge_messages]. revert e l.
  induction (d_fields (descriptor n)) as [|f fs IHf]; intros e l; cbn [merge_fields]; [keeps_solve|].
  unfold merge_field. keeps_solve; auto.
Qed.
Local Hint Resolve keeps_scan_members keeps_alloc_repeated keeps_merge_messages : keeps.

Lemma keeps_parse_members unpack depth (d : pb_desc pb_name) ms message :
  (∀ n l b, keeps (@same_user U) (unpack n l b)) →
  keeps (@same_user U) (parse_members unpack (merge_messages depth) d ms message).
Proof.
  intros Hu. revert message. induction ms as [|m ms IH]; intros message; cbn [parse_members];
    [keeps_solve|]. unfold parse_member, parse_required_member. keeps_solve; auto.
Qed.

Lemma keeps_protobuf_unpack depth (n : pb_name) len d :
  keeps (@same_user U) (protobuf_c_message_unpack depth n len d).
Proof.
  revert n len d. induction depth as [|depth IH]; intros n len d; [apply keeps_hang, _|].
  cbn [protobuf_c_message_unpack]. keeps_solve. by apply keeps_parse_members.
Qed.

Lemma keeps_pb_unpack n d : keeps (@same_user U) (pb_unpack n d).
Proof. apply keeps_protobuf_unpack. Qed.
Lemma keeps_pb_to_buffer n m : keeps (@same_user U) (pb_to_buffer n m).
Proof. unfold pb_to_buffer. keeps_solve. Qed.
End Proto.
#[export] Hint Resolve keeps_pb_unpack keeps_pb_to_buffer : keeps.

(** ** Storage *)

Section Storage.
Context {U : Type}.

Lemma keeps_serialize_pair p s : keeps (@same_user U) (serialize_pair p s).
Proof. unfold serialize_pair. keeps_solve. Qed.
Local Hint Resolve keeps_serialize_pair : keeps.

Lemma keeps_prepare_message_keys mk :
  keeps (@same_user U) (session_state_serialize_prepare_message_keys mk).
Proof. unfold session_state_serialize_prepare_message_keys. keeps_solve. Qed.
Lemma keeps_prepare_chain_key ck :
  keeps (@same_user U) (session_state_serialize_prepare_chain_chain_key ck).
Proof. unfold session_state_serialize_prepare_chain_chain_key. keeps_solve. Qed.
Local Hint Resolve keeps_prepare_message_keys keeps_prepare_chain_key : keeps.

Lemma keeps_prepare_receiver_chain c :
  keeps (@same_user U) (session_state_serialize_prepare_receiver_chain c).
Proof.
  unfold session_state_serialize_prepare_receiver_chain,
    session_state_serialize_prepare_chain_message_keys_list.
  keeps_solve.
Qed.
Local Hint Resolve keeps_prepare_receiver_chain : keeps.

Lemma keeps_serialize_prepare s : keeps (@same_user U) (session_state_serialize_prepare s).
Proof.
  unfold session_state_serialize_prepare, session_state_serialize_prepare_sender_chain,
    session_state_serialize_prepare_pending_key_exchange,
    session_state_serialize_prepare_pending_pre_key.
  keeps_solve.
Qed.

Lemma keeps_decode_pair p s : keeps (@same_user U) (decode_pair p s).
Proof. unfold decode_pair. keeps_solve. Qed.
Local Hint Resolve keeps_decode_pair : keeps.
Lemma keeps_decode_key_pair p s : keeps (@same_user U) (decode_key_pair p s).
Proof. unfold decode_key_pair. keeps_solve. Qed.
Lemma keeps_decode_chain_key v c : keeps (@same_user U) (decode_chain_key v c).
Proof. unfold decode_chain_key. keeps_solve. Qed.
Local Hint Resolve keeps_serialize_prepare keeps_decode_key_pair keeps_decode_chain_key : keeps.

Lemma keeps_read_session m : keeps (@same_user U) (session_state_deserialize_protobuf m).
Proof.
  unfold session_state_deserialize_protobuf, session_state_create,
    session_state_deserialize_protobuf_sender_chain,
    session_state_deserialize_protobuf_receiver_chain,
    session_state_deserialize_protobuf_pending_key_exchange,
    session_state_deserialize_protobuf_pending_pre_key.
  keeps_solve.
Qed.
Local Hint Resolve keeps_read_session : keeps.

Lemma keeps_session_copy s : keeps (@same_user U) (session_state_copy s).
Proof.
  unfold session_state_copy, session_state_serialize, session_state_deserialize. keeps_solve.
Qed.

Lemma keeps_record_serialize r : keeps (@same_user U) (session_record_serialize r).
Proof. unfold session_record_serialize. keeps_solve. Qed.
Lemma keeps_record_create o : keeps (@same_user U) (session_record_create o).
Proof. unfold session_record_create, session_state_create. keeps_solve. Qed.
Local Hint Resolve keeps_record_create : keeps.
Lemma keeps_record_deserialize d : keeps (@same_user U) (session_record_deserialize d).
Proof. unfold session_record_deserialize. keeps_solve. Qed.

Lemma keeps_pre_key_deserialize d : keeps (@same_user U) (session_pre_key_deserialize d).
Proof. unfold session_pre_key_deserialize, session_pre_key_create. keeps_solve. Qed.
Lemma keeps_signed_pre_key_deserialize d :
  keeps (@same_user U) (session_signed_pre_key_deserialize d).
Proof. unfold session_signed_pre_key_deserialize, session_signed_pre_key_create. keeps_solve. Qed.
End Storage.
#[export] Hint Resolve keeps_session_copy keeps_record_serialize keeps_record_create
  keeps_record_deserialize keeps_pre_key_deserialize keeps_signed_pre_key_deserialize : keeps.

(** ** Handlers *)

Section Handlers.
Context {U : Type} {CP : CryptoProvider U} {C : Curve25519} {ST : Stores U}
  {SL : StoreLaws CP ST}.

Lemma keeps_status {R : world U → world U → Prop} `{!PreOrder R} z : keeps R (status z).
Proof. unfold status. keeps_solve. Qed.
Lemma keeps_view_status z : keeps same_view (status z).
Proof. apply keeps_status. Qed.
Local Hint Resolve keeps_view_status : keeps.

Lemma keeps_load_session a : keeps same_view (signal_protocol_session_load_session a).
Proof.
  unfold signal_protocol_session_load_session.
  apply keeps_bind; [apply _|apply keeps_view_read; intros u; by rewrite load_session_ok|].
  keeps_solve.
Qed.

Lemma keeps_contains_session a : keeps same_view (signal_protocol_session_contains_session a).
Proof. apply keeps_view_read. intros u. by rewrite contains_session_ok. Qed.

Lemma keeps_verify_mac m s r k : keeps same_view (signal_message_verify_mac m s r k).
Proof. unfold signal_message_verify_mac, signal_message_get_mac. keeps_solve. Qed.
Lemma keeps_get_plaintext v mk c : keeps same_view (session_cipher_get_plaintext v mk c).
Proof. unfold session_cipher_get_plaintext. keeps_solve. Qed.
Local Hint Resolve keeps_load_session keeps_contains_session keeps_verify_mac
  keeps_get_plaintext keeps_view_receive_keys : keeps.

Lemma keeps_try_state s m : keeps same_view (try_state s m).
Proof.
  unfold try_state, session_cipher_decrypt_from_state_and_signal_message. keeps_solve.
  apply keeps_view_with_obj. keeps_solve.
Qed.
Local Hint Resolve keeps_try_state : keeps.

Lemma keeps_decrypt_from_record m :
  keeps same_view2 (session_cipher_decrypt_from_record_and_signal_message m).
Proof.
  unfold session_cipher_decrypt_from_record_and_signal_message.
  assert (∀ l i, keeps same_view2 (decrypt_from_previous i l m)) as Hprev.
  { induction l as [|s l IH]; intros i; cbn [decrypt_from_previous];
      unfold session_record_promote_state; keeps_solve. }
  keeps_solve.
Qed.
Local Hint Resolve keeps_decrypt_from_record : keeps.

(** A failure, if any, comes before the stores have changed by more than
    [R]. *)
Definition clean (R : world U → world U → Prop) {A} (m : M (world U) A) : Prop :=
  ∀ w, match m w with (Ok _, _) => True | (_, w') => R w w' end.

Lemma clean_bind (R : world U → world U → Prop) `{!Transitive R} {A B} (m : M (world U) A)
    (k : A → M (world U) B) :
  keeps R m → (∀ a, clean R (k a)) → clean R (bind m k).
Proof.
  intros Hm Hk w. specialize (Hm w). unfold bind.
  destruct (m w) as [[a|e| |] w']; simpl in *; try done.
  specialize (Hk a w'). destruct (k a w') as [[b|e| |] w'']; [done|by etrans..].
Qed.

(** A tail that cannot fail. *)
Lemma clean_last (R : world U → world U → Prop) {A B} (m : M (world U) A)
    (k : A → M (world U) B) :
  clean R m → (∀ a w, ∃ b w', k a w = (Ok b, w')) → clean R (bind m k).
Proof.
  intros Hm Hk w. specialize (Hm w). unfold bind.
  destruct (m w) as [[a|e| |] w']; try done. by destruct (Hk a w') as (b & w'' & ->).
Qed.

Lemma clean_store_session (R : world U → world U → Prop) `{!PreOrder R} a r :
  (∀ w w', same_user w w' → R w w') →
  clean R (signal_protocol_session_store_session a r).
Proof.
  intros HR. unfold signal_protocol_session_store_session. apply clean_bind; [apply _| |].
  - intros w. apply HR, keeps_record_serialize.
  - intros d [m u]. unfold app_call, bind. simpl.
    by destruct (store_session_ok a d u) as (u' & -> & _).
Qed.

(** What the decryption handlers end with: the callback sees the plaintext,
    then the record is stored, and nothing after that fails. *)
Lemma clean_finish (R : world U → world U → Prop) `{!PreOrder R} {A} cipher p a r
    (k : Z → M (world U) A) :
  (∀ w w', same_view w w' → R w w') →
  (∀ cb, sc_decrypt_callback cipher = Some cb → ∀ q, keeps same_view (cb 1 q)) →
  (∀ z w, ∃ b w', k z w = (Ok b, w')) →
  clean R (let* _ := session_cipher_decrypt_callback cipher p in
           let* z := signal_protocol_session_store_session a r in k z).
Proof.
  intros HR Hcb Hk. apply clean_bind; [apply _| |].
  - intros w. apply HR. revert w. fold (keeps same_view (session_cipher_decrypt_callback cipher p)).
    unfold session_cipher_decrypt_callback. destruct (sc_decrypt_callback cipher) as [cb|] eqn:E.
    + specialize (Hcb cb eq_refl). keeps_solve.
    + keeps_solve.
  - intros _. apply clean_last; [|done].
    apply clean_store_session; [apply _|]. intros w0 w1 Hw. apply HR. unfold same_view. by rewrite Hw.
Qed.

Lemma clean_fail (R : world U → world U → Prop) `{!Reflexive R} {A} e : clean R (fail (A := A) e).
Proof. intros w. simpl. reflexivity. Qed.

(** C8: a failed decryption leaves no trace.  Whichever step fails and whichever
    allocation does, if [session_cipher_decrypt_signal_message] does not return
    a plaintext, the application's stores are exactly as before; only random
    bytes may have been drawn.  A decryption callback is allowed, as long as it
    does not itself write to the stores. *)
Theorem failed_decrypt_harmless (cipher : session_cipher U) (m : signal_message) (w : world U) :
  (∀ cb, sc_decrypt_callback cipher = Some cb → ∀ p, keeps same_view (cb 1 p)) →
  match session_cipher_decrypt_signal_message cipher m w with
  | (Ok _, _) => True
  | (_, w') => view (w_user w') = view (w_user w)
  end.
Proof.
  intros Hcb. cut (clean same_view (session_cipher_decrypt_signal_message cipher m)).
  { intros H. specialize (H w). unfold same_view in H.
    destruct (session_cipher_decrypt_signal_message cipher m w) as [[p|e| |] w']; done. }
  unfold session_cipher_decrypt_signal_message. destruct (_ =? 1); [apply clean_fail, _|].
  apply clean_bind; [apply _|apply keeps_contains_session|]. intros result.
  destruct (result =? 0); [apply clean_fail, _|].
  apply clean_bind; [apply _|apply keeps_view_status|]. intros _.
  apply clean_bind; [apply _|apply keeps_load_session|]. intros r.
  apply clean_bind; [apply _|apply keeps_view_with_obj, keeps_decrypt_from_record|]. intros r'.
  apply clean_finish; [apply _|done|done|by intros; eexists _, _].
Qed.

(** ** First messages *)

Lemma keeps_on_state {A} (m : M (session_state * world U) A) :
  keeps same_view2 m → keeps same_view2 (on_state m).
Proof.
  intros H [r w]. unfold on_state. destruct (sr_state r) as [s|]; [|done].
  specialize (H (s, w)). by destruct (m (s, w)) as [x [s' w']].
Qed.
Lemma keeps_update_state f : keeps same_view2 (update_state f).
Proof. unfold update_state. apply keeps_on_state. keeps_solve. Qed.

Lemma keeps_load_pre_key i : keeps same_view (signal_protocol_pre_key_load_key i).
Proof.
  unfold signal_protocol_pre_key_load_key.
  apply keeps_bind; [apply _|apply keeps_view_read; intros u; by rewrite load_pre_key_ok|].
  keeps_solve.
Qed.
Lemma keeps_load_signed_pre_key i : keeps same_view (signal_protocol_signed_pre_key_load_key i).
Proof.
  unfold signal_protocol_signed_pre_key_load_key.
  apply keeps_bind; [apply _|apply keeps_view_read; intros u; by rewrite load_signed_pre_key_ok|].
  keeps_solve.
Qed.
Lemma keeps_identity_get_key_pair : keeps same_view signal_protocol_identity_get_key_pair.
Proof.
  unfold signal_protocol_identity_get_key_pair.
  apply keeps_bind; [apply _|apply keeps_view_read; intros u; by rewrite get_identity_key_pair_ok|].
  keeps_solve.
Qed.
Lemma keeps_local_registration_id :
  keeps same_view signal_protocol_identity_get_local_registration_id.
Proof.
  unfold signal_protocol_identity_get_local_registration_id. apply keeps_bind; [apply _| |].
  - apply keeps_view_read; intros u; by rewrite get_local_registration_id_ok.
  - keeps_solve.
Qed.
Lemma keeps_is_trusted a k : keeps same_view (signal_protocol_identity_is_trusted_identity a k).
Proof.
  unfold signal_protocol_identity_is_trusted_identity.
  apply keeps_bind; [apply _|keeps_solve|intros b].
  apply keeps_bind; [apply _| |keeps_solve].
  apply keeps_view_read. intros u. by rewrite is_trusted_identity_ok.
Qed.
Local Hint Resolve keeps_update_state keeps_load_pre_key keeps_load_signed_pre_key
  keeps_identity_get_key_pair keeps_local_registration_id keeps_is_trusted : keeps.

Lemma keeps_vpool_add vp d : keeps (@same_user U) (vpool_add vp d).
Proof. unfold vpool_add, vpool_insert, vpool_resize. keeps_solve. Qed.
Local Hint Resolve keeps_vpool_add : keeps.
Lemma keeps_vpool_agreement vp p s : keeps (@same_user U) (vpool_add_agreement vp p s).
Proof. unfold vpool_add_agreement. keeps_solve. Qed.
Lemma keeps_derived_keys d : keeps (@same_user U) (ratcheting_session_calculate_derived_keys d).
Proof. unfold ratcheting_session_calculate_derived_keys. keeps_solve. Qed.
Local Hint Resolve keeps_vpool_agreement keeps_derived_keys : keeps.
Lemma keeps_bob_initialize p : keeps same_view2 (ratcheting_session_bob_initialize p).
Proof. unfold ratcheting_session_bob_initialize. keeps_solve. Qed.
Local Hint Resolve keeps_bob_initialize keeps_on_state : keeps.

Lemma keeps_process_v3 m :
  keeps same_view2 (session_builder_process_pre_key_signal_message_v3 m).
Proof.
  unfold session_builder_process_pre_key_signal_message_v3, session_record_has_session_state,
    bob_signal_protocol_parameters_create, session_record_archive_current_state,
    session_record_promote_state, session_state_create.
  keeps_solve; apply keeps_view_lift, keeps_view; keeps_solve.
Qed.

(** The stores are the same, but the sender's identity may have been saved. *)
Definition same_but_identity (a : signal_protocol_address) (k : bytes) (w w' : world U) : Prop :=
  view (w_user w') = view (w_user w) ∨
  view (w_user w') = set_identities <[a := k]> (view (w_user w)).

#[export] Instance same_but_identity_preorder a k : PreOrder (same_but_identity a k).
Proof.
  split; [by left|]. intros w1 w2 w3 [H1|H1] [H2|H2]; unfold same_but_identity;
    rewrite H2, H1; [by left|by right|by right|right].
  unfold set_identities. simpl. by rewrite insert_insert_eq.
Qed.

Lemma keeps_view_identity {A} a k (m : M (world U) A) :
  keeps same_view m → keeps (same_but_identity a k) m.
Proof. intros H w. left. symmetry. apply H. Qed.

Lemma keeps_save_identity a k :
  keeps (same_but_identity a (DJB_TYPE :: take 32 (pk_data k)))
    (signal_protocol_identity_save_identity a (Some k)).
Proof.
  intros [m u]. unfold signal_protocol_identity_save_identity, opt_mapM, ec_public_key_serialize,
    app_call, bind. destruct m as [[|n]|]; simpl; [by left|..];
  destruct (save_identity_ok a (Some (DJB_TYPE :: take 32 (pk_data k))) u) as (u' & -> & Hv);
  right; exact Hv.
Qed.

Definition same_but_identity2 a k {T} (s s' : T * world U) : Prop := same_but_identity a k s.2 s'.2.
#[export] Instance same_but_identity2_preorder a k T : PreOrder (@same_but_identity2 a k T).
Proof.
  split; unfold same_but_identity2; [intros ?; reflexivity|]. intros ???; apply transitivity.
Qed.

Lemma keeps_process_and_decrypt b m :
  let k := DJB_TYPE :: take 32 (pk_data (pkm_identity_key m)) in
  keeps (same_but_identity2 (sb_remote_address b) k)
    (let* unsigned_pre_key_id := session_builder_process_pre_key_signal_message b m in
     let* result_buf := session_cipher_decrypt_from_record_and_signal_message (pkm_message m) in
     ret (unsigned_pre_key_id, result_buf)).
Proof.
  intros k.
  assert (∀ A (f : M (session_record * world U) A), keeps same_view2 f →
    keeps (same_but_identity2 (sb_remote_address b) k) f) as Hview.
  { intros A f H s. left. symmetry. apply H. }
  unfold session_builder_process_pre_key_signal_message.
  apply keeps_bind; [apply _| |keeps_solve; apply Hview; keeps_solve].
  apply keeps_bind; [apply _|apply Hview; keeps_solve|intros result].
  destruct (result =? 0); [apply keeps_fail, _|].
  apply keeps_bind; [apply _|apply Hview, keeps_process_v3|intros o].
  apply keeps_bind; [apply _| |intros z; apply keeps_ret, _].
  intros [r w]. unfold lift. pose proof (keeps_save_identity (sb_remote_address b)
    (pkm_identity_key m) w) as H.
  by destruct (signal_protocol_identity_save_identity _ _ w).
Qed.

Lemma keeps_identity_with_obj {T A} a k (t : T) (f : M (T * world U) A) :
  keeps (same_but_identity2 a k) f → keeps (same_but_identity a k) (with_obj t f).
Proof.
  intros H w. specialize (H (t, w)). unfold with_obj.
  by destruct (f (t, w)) as [[x|e| |] [t' w']].
Qed.

Lemma remove_runs {A} o (x : A) (w : world U) : ∃ b w',
  (let* _ := opt_mapM signal_protocol_pre_key_remove_key o in ret x) w = (Ok b, w').
Proof.
  destruct o as [i|]; [|by eexists _, _]. destruct w as [m u].
  unfold signal_protocol_pre_key_remove_key, opt_mapM, app_call, bind. simpl.
  destruct (remove_pre_key_ok i u) as (u' & -> & _). by eexists _, _.
Qed.

End Handlers.

(** ** Witnesses *)

Import Toy MemStore.

(** A callback that refuses the plaintext: it tries to answer at once, which
    the cipher does not allow from inside the callback. *)
Definition witness_refusing (a : signal_protocol_address) : session_cipher mem :=
  session_cipher_set_decryption_callback
    (Some (λ inside p,
       let* r := try (session_cipher_encrypt (SessionCipher a (SessionBuilder a) None inside) p) in
       ret match r with inl _ => 0 | inr e => e end))
    (new_cipher a).

Lemma witness_refusing_keeps a cb : sc_decrypt_callback (witness_refusing a) = Some cb →
  ∀ p, keeps same_view (cb 1 p).
Proof. intros [= <-] p w. reflexivity. Qed.

Definition witness_sent : signal_message :=
  match (session_cipher_encrypt (new_cipher witness_addr_b) [1; 2; 3]
           (calm (witness_in 7 witness_addr_b witness_alice))).1 with
  | Ok (CIPHERTEXT_SIGNAL_TYPE m) => m
  | _ => SignalMessage_ 0 (EcPublicKey []) 0 0 [] []
  end.

(** A first message whose MAC was changed on the way. *)
Definition witness_tampered : pre_key_signal_message :=
  match (let* _ := session_builder_process_pre_key_bundle (SessionBuilder witness_addr_b)
           witness_bundle in
         session_cipher_encrypt (new_cipher witness_addr_b) [1; 2; 3]) (calm witness_mem_a) with
  | (Ok (CIPHERTEXT_PREKEY_TYPE m), _) =>
      let c := pkm_message m in
      PreKeySignalMessage_ (pkm_version m) (pkm_registration_id m) (pkm_pre_key_id m)
        (pkm_signed_pre_key_id m) (pkm_base_key m) (pkm_identity_key m)
        (SignalMessage_ (msg_message_version c) (msg_sender_ratchet_key c) (msg_counter c)
          (msg_previous_counter c) (msg_ciphertext c)
          (removelast (msg_serialized c) ++ [Z.lxor 1 (List.last (msg_serialized c) 0)]))
        (pkm_serialized m)
  | _ => PreKeySignalMessage_ 0 0 None 0 (EcPublicKey []) (EcPublicKey []) witness_sent []
  end.

Lemma failed_decrypt_harmless_witness :
  let u := witness_in 60 witness_addr_a witness_bob in
  (session_cipher_decrypt_signal_message (witness_refusing witness_addr_a) witness_sent
     (calm u)).1 = Err SG_ERR_INVAL ∧
  match session_cipher_decrypt_signal_message (witness_refusing witness_addr_a) witness_sent
          (calm u) with
  | (Ok _, _) => True
  | (_, w') => view (w_user w') = view u
  end.
Proof.
  split; [vm_compute; reflexivity|].
  apply (failed_decrypt_harmless (witness_refusing witness_addr_a)), witness_refusing_keeps.
Defined.

