(* ===== verification/KeyHelper.v ===== *)
(** Generation of keys and ids at install time (key_helper.c).

    A random integer is read from random bytes in the byte order of a
    little-endian machine; no property depends on the order. *)

From S2P Require Import Prelude Buffer Provider Hkdf Curve Ratchet Protobuf ProtobufSpec Wire.
From S2P Require Import SessionSerial PreKeys.

Definition INT32_MAX : Z := 2 ^ 31 - 1.

(** The [uint32_t] whose bytes in memory are given. *)
Definition uint32_of_bytes (bs : bytes) : Z := u32 (foldr (λ b v, b + 256 * v) 0 bs).

Section Defs.
Context {U : Type} {CP : CryptoProvider U} {C : Curve25519}.

Definition signal_protocol_key_helper_generate_identity_key_pair
    : M (world U) ratchet_identity_key_pair :=
  let* ec_pair := curve_generate_key_pair in
  ratchet_identity_key_pair_create (ec_key_pair_get_public ec_pair)
    (ec_key_pair_get_private ec_pair).

Definition signal_protocol_key_helper_generate_registration_id (extended_range : Z)
    : M (world U) Z :=
  if (extended_range =? 0) || (extended_range =? 1) then
    let range := if extended_range =? 0 then 16380 else INT32_MAX - 1 in
    let* bs := callback (random_func 4) in
    ret (uint32_of_bytes bs `mod` range + 1)
  else fail SG_ERR_INVAL.

(** A remainder by zero traps. *)
Definition signal_protocol_key_helper_get_random_sequence (max : Z) : M (world U) Z :=
  let* bs := callback (random_func 4) in
  if max =? 0 then abort
  else ret (Z.rem (Z.land (uint32_of_bytes bs) (2 ^ 31 - 1)) max).

(** The [for] loop from [i], [n] rounds before its end. *)
Fixpoint generate_pre_keys_loop (n : nat) (start_index i : Z) : M (world U) (list session_pre_key) :=
  match n with
  | O => ret []
  | S n =>
      let* ec_pair := curve_generate_key_pair in
      let id := u32 (start_index + i) `mod` (PRE_KEY_MEDIUM_MAX_VALUE - 1) + 1 in
      let* pre_key := session_pre_key_create id ec_pair in
      let* _ := alloc in
      let* rest := generate_pre_keys_loop n start_index (i + 1) in
      ret (pre_key :: rest)
  end.

Definition signal_protocol_key_helper_generate_pre_keys (start count : Z)
    : M (world U) (list session_pre_key) :=
  generate_pre_keys_loop (Z.to_nat count) (u32 (start - 1)) 0.

Definition signal_protocol_key_helper_generate_signed_pre_key
    (identity_key_pair : ratchet_identity_key_pair) (signed_pre_key_id timestamp : Z)
    : M (world U) session_signed_pre_key :=
  let* ec_pair := curve_generate_key_pair in
  let* public_buf := ec_public_key_serialize (Some (ec_key_pair_get_public ec_pair)) in
  let* signature_buf := curve_calculate_signature (ik_private identity_key_pair) public_buf in
  session_signed_pre_key_create signed_pre_key_id timestamp ec_pair signature_buf.

Definition signal_protocol_key_helper_generate_sender_signing_key : M (world U) ec_key_pair :=
  curve_generate_key_pair.

Definition signal_protocol_key_helper_generate_sender_key : M (world U) bytes :=
  let* result_buffer := signal_buffer_alloc 32 in
  let* _ := non_null result_buffer SG_ERR_NOMEM in
  signal_crypto_random 32.

Definition signal_protocol_key_helper_generate_sender_key_id : M (world U) Z :=
  signal_protocol_key_helper_get_random_sequence INT32_MAX.
End Defs.

(** ** Properties *)

(** The id of the [i]-th generated pre key. *)
Definition pre_key_id_at (start i : Z) : Z :=
  u32 (u32 (start - 1) + i) `mod` (PRE_KEY_MEDIUM_MAX_VALUE - 1) + 1.

Lemma pre_key_id_at_range start i : 1 <= pre_key_id_at start i < PRE_KEY_MEDIUM_MAX_VALUE.
Proof.
  unfold pre_key_id_at. pose proof (Z.mod_pos_bound (u32 (u32 (start - 1) + i))
    (PRE_KEY_MEDIUM_MAX_VALUE - 1) ltac:(done)). unfold PRE_KEY_MEDIUM_MAX_VALUE in *. lia.
Qed.

Lemma pre_key_id_at_distinct start count i j :
  1 <= start < 2 ^ 32 → start - 1 + count <= 2 ^ 32 → count < PRE_KEY_MEDIUM_MAX_VALUE →
  0 <= i < j → j < count → pre_key_id_at start i ≠ pre_key_id_at start j.
Proof.
  intros Hs Hc Hm Hi Hj. unfold pre_key_id_at.
  rewrite !(u32_small (start - 1)) by (unfold is_u32; lia).
  rewrite !u32_small by (unfold is_u32; lia).
  set (m := PRE_KEY_MEDIUM_MAX_VALUE - 1).
  assert (0 < m ∧ count <= m) as [Hm0 Hcm] by (unfold m, PRE_KEY_MEDIUM_MAX_VALUE in *; lia).
  intros Heq. pose proof (Z_div_mod_eq_full (start - 1 + i) m) as E1.
  pose proof (Z_div_mod_eq_full (start - 1 + j) m) as E2.
  set (q1 := (start - 1 + i) / m) in *. set (q2 := (start - 1 + j) / m) in *.
  assert (q2 - q1 = 0 ∨ 1 <= q2 - q1 ∨ q2 - q1 <= -1) as [H|[H|H]] by lia; nia.
Qed.

Section Gen.
Context {U : Type} {CP : CryptoProvider U} {RL : RandomLaws CP} {C : Curve25519} {D : DhLaws C}
  {SL : SignLaws C D}.

Lemma generated_pair (u : U) : ∃ p u',
  curve_generate_key_pair (calm u) = (Ok p, calm u') ∧ wf_signing_pair p.
Proof.
  destruct (curve_generate_key_pair_calm u) as (bs & u' & Hr & Hl & Hg).
  exists (pair_of bs), u'. split; [done|]. apply pair_of_signs; [done|by eapply random_wf].
Qed.

Lemma generated_pair_stored p : wf_pair p → stored_pair p.
Proof. intros Hp. split; [by apply wf_pair_pk|apply Hp]. Qed.

Lemma generate_pre_keys_loop_calm n start i (u : U) :
  ∃ keys u', generate_pre_keys_loop n (u32 (start - 1)) i (calm u) = (Ok keys, calm u') ∧
    spk_id <$> keys = pre_key_id_at start <$> seqZ i (Z.of_nat n) ∧
    Forall (λ k, wf_signing_pair (spk_key_pair k)) keys.
Proof.
  revert i u. induction n as [|n IH]; intros i u.
  { exists [], u. done. }
  destruct (generated_pair u) as (p & u1 & Hg & Hp).
  destruct (IH (i + 1) u1) as (keys & u2 & Hrun & Hids & Hwf).
  exists (SessionPreKey (pre_key_id_at start i) p :: keys), u2. split_and!.
  - cbn [generate_pre_keys_loop]. step Hg.
    step_to (SessionPreKey (pre_key_id_at start i) p) (calm u1) by done.
    step (alloc_calm u1). step Hrun. done.
  - rewrite (seqZ_cons i) by lia. rewrite !fmap_cons. cbn [spk_id].
    replace (Z.pred (Z.of_nat (S n))) with (Z.of_nat n) by lia.
    replace (Z.succ i) with (i + 1) by lia. by rewrite Hids.
  - by constructor.
Qed.

Lemma generate_sender_key_id_calm (u : U) : ∃ id u',
  signal_protocol_key_helper_generate_sender_key_id (calm u) = (Ok id, calm u') ∧
  0 <= id < INT32_MAX.
Proof.
  destruct (random_ok 4 u) as (bs & u' & Hr & _). eexists _, u'. split.
  - unfold signal_protocol_key_helper_generate_sender_key_id,
      signal_protocol_key_helper_get_random_sequence, callback, bind. simpl. rewrite Hr. done.
  - change (2 ^ 31 - 1) with (Z.ones 31). rewrite Z.land_ones by done. apply Z.rem_bound_pos; [|done].
    by apply Z.mod_pos_bound.
Qed.

Lemma generate_sender_key_calm (u : U) : ∃ key u',
  signal_protocol_key_helper_generate_sender_key (calm u) = (Ok key, calm u') ∧
  length key = 32%nat.
Proof.
  destruct (random_ok 32 u) as (bs & u' & Hr & Hl). exists bs, u'. split; [|done].
  unfold signal_protocol_key_helper_generate_sender_key, signal_crypto_random, callback, bind.
  simpl. by rewrite Hr.
Qed.

(** a batch of pre keys.  Asked for [count] pre keys from the id [start],
    the helper returns that many storable key pairs whose ids lie strictly
    between 0 and the id reserved for the last-resort key; they are distinct
    whenever the range neither starts at 0 nor wraps around 2^32 and does not
    go around the circle of ids. *)
Theorem generated_pre_keys_valid (start count : Z) (u : U) :
  0 <= count →
  ∃ keys u', signal_protocol_key_helper_generate_pre_keys start count (calm u)
      = (Ok keys, calm u') ∧
    zlen keys = count ∧ Forall storable_pre_key keys ∧
    Forall (λ k, 1 <= spk_id k < PRE_KEY_MEDIUM_MAX_VALUE) keys ∧
    (1 <= start < 2 ^ 32 → start - 1 + count <= 2 ^ 32 → count < PRE_KEY_MEDIUM_MAX_VALUE →
     NoDup (spk_id <$> keys)).
Proof.
  intros Hc. destruct (generate_pre_keys_loop_calm (Z.to_nat count) start 0 u)
    as (keys & u' & Hrun & Hids & Hwf).
  exists keys, u'. rewrite Z2Nat.id in Hids by done.
  assert (Forall (λ k, 1 <= spk_id k < PRE_KEY_MEDIUM_MAX_VALUE) keys) as Hrange.
  { assert (Forall (λ i, 1 <= i < PRE_KEY_MEDIUM_MAX_VALUE) (spk_id <$> keys)) as H;
      [|by rewrite Forall_fmap in H].
    rewrite Hids. apply Forall_fmap, Forall_true. intros i. apply pre_key_id_at_range. }
  split_and!; [exact Hrun| | |done|].
  - apply (f_equal length) in Hids. rewrite !length_fmap, length_seqZ in Hids. unfold zlen. lia.
  - eapply Forall_impl; [apply (proj2 (Forall_and _ _) (conj Hrange Hwf))|].
    intros k [Hi [Hp _]]. split; [unfold is_u32, PRE_KEY_MEDIUM_MAX_VALUE in *; lia|by apply generated_pair_stored].
  - intros Hs Hw Hm. rewrite Hids. apply NoDup_fmap_2_strong; [|apply NoDup_seqZ].
    intros i j Hi%elem_of_seqZ Hj%elem_of_seqZ Heq.
    destruct (Z.lt_trichotomy i j) as [H|[H|H]]; [|done|].
    + by destruct (pre_key_id_at_distinct start count i j Hs Hw Hm ltac:(lia) ltac:(lia)).
    + by destruct (pre_key_id_at_distinct start count j i Hs Hw Hm ltac:(lia) ltac:(lia)).
Qed.

(** Asked to start at id 0 the helper gives its first key the id 512, and the
    513th key gets it again. *)
Lemma pre_keys_from_zero_collide : pre_key_id_at 0 0 = pre_key_id_at 0 512.
Proof. reflexivity. Qed.

(** A generated signed pre key is one that peers accept.  Its signature
    verifies under the generated identity's public key over the encoding of
    the pre key that [session_builder_process_pre_key_bundle] checks, and both
    can be stored. *)
Theorem generated_signed_pre_key_verifies (id timestamp : Z) (u : U) :
  is_u32 id → 0 <= timestamp < 2 ^ 64 →
  ∃ identity u1 spk u2,
    signal_protocol_key_helper_generate_identity_key_pair (calm u) = (Ok identity, calm u1) ∧
    signal_protocol_key_helper_generate_signed_pre_key identity id timestamp (calm u1)
      = (Ok spk, calm u2) ∧
    sspk_id spk = id ∧ storable_signed_pre_key spk ∧ stored_identity identity ∧
    ∀ w : world U, curve_verify_signature (ik_public identity)
      (pk_pb (kp_public (sspk_key_pair spk))) (sspk_signature spk) w = (Ok 1, w).
Proof.
  intros Hid Hts. destruct (generated_pair u) as (ip & u1 & Hg & Hip).
  destruct (generated_pair u1) as (p & u2 & Hg2 & Hp).
  destruct (signature_verifies u2 ip (pk_pb (kp_public p)) Hip) as (sig & u3 & Hs & Hl & Hv).
  pose proof Hp as [Hpw _]. pose proof Hip as [Hiw _].
  exists (RatchetIdentityKeyPair (kp_public ip) (kp_private ip)), u1,
    (SessionSignedPreKey id p timestamp sig), u3.
  split_and!; [|unfold signal_protocol_key_helper_generate_signed_pre_key|done|
    split_and!; simpl; unfold zlen; [done|by apply generated_pair_stored|lia..]|
    by apply generated_pair_stored in Hiw|done].
  - unfold signal_protocol_key_helper_generate_identity_key_pair. step Hg. done.
  - step Hg2. step (ec_public_key_serialize_calm u2 (kp_public p) (wf_pair_pk _ Hpw)). step Hs.
    unfold session_signed_pre_key_create. destruct sig; [done|].
    unfold zlen. rewrite Hl. done.
Qed.
End Gen.

(** ** Witnesses *)

Import Toy.

Lemma generated_pre_keys_valid_witness :
  ∃ keys u', signal_protocol_key_helper_generate_pre_keys 16777210 7 (calm 5)
      = (Ok keys, calm u') ∧
    zlen keys = 7 ∧ Forall storable_pre_key keys ∧
    Forall (λ k, 1 <= spk_id k < PRE_KEY_MEDIUM_MAX_VALUE) keys ∧
    (1 <= 16777210 < 2 ^ 32 → 16777210 - 1 + 7 <= 2 ^ 32 → 7 < PRE_KEY_MEDIUM_MAX_VALUE →
     NoDup (spk_id <$> keys)).
Proof. apply (generated_pre_keys_valid 16777210 7 5). lia. Defined.

Lemma generated_signed_pre_key_verifies_witness :
  ∃ identity u1 spk u2,
    signal_protocol_key_helper_generate_identity_key_pair (calm 3) = (Ok identity, calm u1) ∧
    signal_protocol_key_helper_generate_signed_pre_key identity 22 1700000000000 (calm u1)
      = (Ok spk, calm u2) ∧
    sspk_id spk = 22 ∧ storable_signed_pre_key spk ∧ stored_identity identity ∧
    ∀ w : world Z, curve_verify_signature (ik_public identity)
      (pk_pb (kp_public (sspk_key_pair spk))) (sspk_signature spk) w = (Ok 1, w).
Proof. apply generated_signed_pre_key_verifies; [split; lia|lia]. Defined.
