(* ===== verification/GroupCipher.v ===== *)
(** Group messages (group_cipher.c) and the sharing of sender keys
    (group_session_builder.c): the handlers over the sender key store.

    The locks of the context only serialize the handlers and are not part of
    the state. *)

From S2P Require Import Prelude Buffer Provider Hkdf Curve Ratchet SessionState Protobuf.
From S2P Require Import ProtobufSpec Wire Protocol SessionSerial PreKeys SenderKey Store KeyHelper.

(** As for [session_cipher], the callback sees the flag and the plaintext. *)
Record group_cipher (U : Type) : Type := GroupCipher {
  gc_sender_key_id : signal_protocol_sender_key_name;
  gc_decrypt_callback : option (Z → bytes → M (world U) Z);
  gc_inside_callback : Z }.
Global Arguments GroupCipher {U}.
Global Arguments gc_sender_key_id {U}.
Global Arguments gc_decrypt_callback {U}.
Global Arguments gc_inside_callback {U}.

(** [m] on the [i]-th state of the record, to which the caller holds a
    pointer. *)
Definition on_sender_state {U A} (i : nat) (m : M (sender_key_state * world U) A)
    : M (sender_key_record * world U) A :=
  λ '(r, w), match skr_states r !! i with
  | None => (Abort, (r, w))
  | Some s =>
      let '(a, (s', w')) := m (s, w) in
      (a, (SenderKeyRecord (<[i := s']> (skr_states r)), w'))
  end.

Section Defs.
Context {U : Type} {CP : CryptoProvider U} {C : Curve25519} {ST : Stores U}.

(** ** group_cipher.c *)

Definition group_cipher_create (sender_key_id : signal_protocol_sender_key_name)
    : M (world U) (group_cipher U) :=
  let* _ := alloc in
  ret (GroupCipher sender_key_id None 0).

Definition group_cipher_set_decryption_callback (callback : option (Z → bytes → M (world U) Z))
    (cipher : group_cipher U) : group_cipher U :=
  GroupCipher (gc_sender_key_id cipher) callback (gc_inside_callback cipher).

(** [while(sender_chain_key_get_iteration(chain_key) < iteration)] *)
Fixpoint sender_key_loop (fuel : nat) (chain_key : sender_chain_key) (iteration : Z)
    : M (sender_key_state * world U) sender_chain_key :=
  match fuel with
  | O => hang
  | S fuel =>
      if sck_iteration chain_key <? iteration then
        let* message_key := lift (sender_chain_key_create_message_key chain_key) in
        let* _ := sender_key_state_add_sender_message_key message_key in
        let* next_chain_key := lift (sender_chain_key_create_next chain_key) in
        sender_key_loop fuel next_chain_key iteration
      else ret chain_key
  end.

(** The difference is at most 2000 when the loop starts. *)
Definition group_cipher_get_sender_key (iteration : Z)
    : M (sender_key_state * world U) sender_message_key :=
  let* state := get_obj in
  let chain_key := sks_chain_key state in
  if iteration <? sck_iteration chain_key then
    if sender_key_state_has_sender_message_key state iteration then
      let* result_key := sender_key_state_remove_sender_message_key iteration in
      non_null result_key SG_ERR_UNKNOWN
    else fail SG_ERR_DUPLICATE_MESSAGE
  else if 2000 <? u32 (iteration - sck_iteration chain_key) then fail SG_ERR_INVALID_MESSAGE
  else
    let* chain_key := sender_key_loop 2001 chain_key iteration in
    let* next_chain_key := lift (sender_chain_key_create_next chain_key) in
    let* state := get_obj in
    let* _ := put_obj (sender_key_state_set_chain_key next_chain_key state) in
    lift (sender_chain_key_create_message_key chain_key).

Definition group_cipher_decrypt_callback (cipher : group_cipher U) (plaintext : bytes)
    : M (world U) Z :=
  match gc_decrypt_callback cipher with
  | Some callback => let* result := callback 1 plaintext in status result
  | None => ret 0
  end.

(** The message of [group_cipher_encrypt], from the newest state of the loaded
    record, whose chain moves on. *)
Definition group_cipher_encrypt_in (padded_plaintext : bytes)
    : M (sender_key_record * world U) sender_key_message :=
  let* record := get_obj in
  let* state := lift (sender_key_record_get_sender_key_state record) in
  let* signing_key_private := non_null (sks_signature_private_key state) SG_ERR_INVALID_KEY in
  let* sender_key := lift (sender_chain_key_create_message_key (sks_chain_key state)) in
  let* ciphertext := lift (signal_encrypt SG_CIPHER_AES_CBC_PKCS5 (smk_cipher_key sender_key)
    (smk_iv sender_key) padded_plaintext) in
  let* result_message := lift (sender_key_message_create (sks_key_id state)
    (smk_iteration sender_key) ciphertext signing_key_private) in
  let* next_chain_key := lift (sender_chain_key_create_next (sks_chain_key state)) in
  let* _ := on_sender_state 0 (put_obj (sender_key_state_set_chain_key next_chain_key state)) in
  ret result_message.

Definition group_cipher_encrypt (cipher : group_cipher U) (padded_plaintext : bytes)
    : M (world U) sender_key_message :=
  remap_error (λ e, if e =? SG_ERR_INVALID_KEY_ID then SG_ERR_NO_SESSION else e) (
    if gc_inside_callback cipher =? 1 then fail SG_ERR_INVAL
    else
      let* record := signal_protocol_sender_key_load_key (gc_sender_key_id cipher) in
      let* r := with_obj record (group_cipher_encrypt_in padded_plaintext) in
      let* _ := signal_protocol_sender_key_store_key (gc_sender_key_id cipher) r.2 in
      ret r.1).

(** The plaintext of [group_cipher_decrypt], from the loaded record. *)
Definition group_cipher_decrypt_in (ciphertext : sender_key_message)
    : M (sender_key_record * world U) bytes :=
  let* record := get_obj in
  if sender_key_record_is_empty record then fail SG_ERR_NO_SESSION
  else
    let* i := lift (sender_key_record_get_sender_key_state_by_id record (skm_key_id ciphertext)) in
    on_sender_state i (
      let* state := get_obj in
      let* _ := lift (sender_key_message_verify_signature ciphertext
        (sks_signature_public_key state)) in
      let* sender_key := group_cipher_get_sender_key (skm_iteration ciphertext) in
      lift (signal_decrypt SG_CIPHER_AES_CBC_PKCS5 (smk_cipher_key sender_key) (smk_iv sender_key)
        (skm_ciphertext ciphertext))).

Definition group_cipher_decrypt (cipher : group_cipher U) (ciphertext : sender_key_message)
    : M (world U) bytes :=
  remap_error (λ e, if (e =? SG_ERR_INVALID_KEY) || (e =? SG_ERR_INVALID_KEY_ID)
                    then SG_ERR_INVALID_MESSAGE else e) (
    if gc_inside_callback cipher =? 1 then fail SG_ERR_INVAL
    else
      let* record := signal_protocol_sender_key_load_key (gc_sender_key_id cipher) in
      let* r := with_obj record (group_cipher_decrypt_in ciphertext) in
      let* _ := group_cipher_decrypt_callback cipher r.1 in
      let* _ := signal_protocol_sender_key_store_key (gc_sender_key_id cipher) r.2 in
      ret r.1).

(** ** group_session_builder.c

    The builder holds no data of its own. *)

Definition group_session_builder_process_session
    (sender_key_name : signal_protocol_sender_key_name)
    (distribution_message : sender_key_distribution_message) : M (world U) unit :=
  let* record := signal_protocol_sender_key_load_key sender_key_name in
  let* r := with_obj record (sender_key_record_add_sender_key_state
    (skdm_id distribution_message) (skdm_iteration distribution_message)
    (skdm_chain_key distribution_message) (skdm_signature_key distribution_message)) in
  let* _ := signal_protocol_sender_key_store_key sender_key_name r.2 in
  ret tt.

Definition group_session_builder_create_session
    (sender_key_name : signal_protocol_sender_key_name)
    : M (world U) sender_key_distribution_message :=
  let* record := signal_protocol_sender_key_load_key sender_key_name in
  let* record := (if sender_key_record_is_empty record then
      let* sender_key_id := signal_protocol_key_helper_generate_sender_key_id in
      let* sender_key := signal_protocol_key_helper_generate_sender_key in
      let* sender_signing_key := signal_protocol_key_helper_generate_sender_signing_key in
      let* r := with_obj record (sender_key_record_set_sender_key_state sender_key_id 0
        (Some sender_key) sender_signing_key) in
      let* _ := signal_protocol_sender_key_store_key sender_key_name r.2 in
      ret r.2
    else ret record) in
  let* state := sender_key_record_get_sender_key_state record in
  let chain_key := sks_chain_key state in
  sender_key_distribution_message_create (sks_key_id state) (sck_iteration chain_key)
    (sck_chain_key chain_key) (sks_signature_public_key state).
End Defs.
Global Arguments sender_key_loop : simpl never.
