(* ===== verification/GroupKeys.v ===== *)
(** The receiving key schedule of a group session refines the abstract receiver
    of Window: [group_cipher_get_sender_key] answers with the keys the
    sender's chain has, whatever the order of the messages. *)

From S2P Require Import Prelude Buffer Provider Hkdf Curve SessionState Window SenderKey Store.
From S2P Require Import GroupCipher.

Section Spec.
Context {U : Type} {CP : CryptoProvider U} {HL : HmacLaws CP}.

(** The chain key and message key of iteration [c] of the chain of [ck0]. *)
Definition sck_at (ck0 : sender_chain_key) (c : Z) : sender_chain_key :=
  sck_advance (Z.to_nat (c - sck_iteration ck0)) ck0.
Definition smk_at (ck0 : sender_chain_key) (c : Z) : sender_message_key :=
  sck_message_key (sck_at ck0 c).

(** A window on the chain of [ck0]: it starts no earlier than [ck0]. *)
Definition window_of (ck0 : sender_chain_key) (r : recv) : Prop :=
  0 <= sck_iteration ck0 <= r_next r ∧ Forall (λ c, sck_iteration ck0 <= c) (r_skipped r) ∧
  recv_inv r.

(** The state that stands for the window [r]. *)
Definition sender_state_of (id : Z) (public_ : ec_public_key) (private_ : option ec_private_key)
    (ck0 : sender_chain_key) (r : recv) : sender_key_state :=
  SenderKeyState id (sck_at ck0 (r_next r)) public_ private_ (smk_at ck0 <$> r_skipped r).

Definition group_verdict (ck0 : sender_chain_key) (c : Z) (v : verdict) : res sender_message_key :=
  match v with
  | Accept => Ok (smk_at ck0 c)
  | Duplicate => Err SG_ERR_DUPLICATE_MESSAGE
  | TooFar => Err SG_ERR_INVALID_MESSAGE
  end.

Lemma sck_at_start ck0 : sck_at ck0 (sck_iteration ck0) = ck0.
Proof. unfold sck_at. by rewrite Z.sub_diag. Qed.

Lemma sck_at_succ ck0 c : sck_iteration ck0 <= c →
  sck_next (sck_at ck0 c) = sck_at ck0 (c + 1).
Proof. intros H. unfold sck_at. rewrite <-sck_advance_S. f_equal. lia. Qed.

Lemma sck_at_iteration ck0 c : 0 <= sck_iteration ck0 <= c → c < 2 ^ 32 →
  sck_iteration (sck_at ck0 c) = c.
Proof.
  intros H Hc. unfold sck_at. rewrite sck_advance_iteration by (unfold is_u32; lia).
  rewrite u32_small; unfold is_u32; lia.
Qed.

Lemma window_of_at ck0 n : 0 <= sck_iteration ck0 <= n → n < 2 ^ 32 →
  window_of ck0 (Recv n []).
Proof.
  intros H Hn. split; [done|]. split; [constructor|].
  split_and!; simpl; try lia; [by apply NoDup_nil_2|constructor].
Qed.

Lemma window_of_step ck0 r c : window_of ck0 r → 0 <= c < 2 ^ 32 - 1 →
  window_of ck0 (recv_step r c).2.
Proof.
  intros (Hn & Hs & Hi) Hc. pose proof (recv_step_inv r c Hi Hc) as Hi'.
  revert Hi'. unfold recv_step. rewrite Forall_forall in Hs.
  destruct (Z.ltb_spec c (r_next r)) as [Hlt|Hge].
  { case_decide; intros Hi'; (split; [simpl; lia|]); (split; [|done]); simpl;
      apply Forall_forall; [|done]. intros x [_ Hx]%list_elem_of_filter. auto. }
  destruct (Z.ltb_spec 2000 (c - r_next r)); intros Hi';
    (split; [simpl; lia|]); (split; [|done]); simpl; apply Forall_forall; [done|].
  intros x [Hx%Hs|Hx]%recv_skip_elem; simpl in *; lia.
Qed.

Lemma window_accepts ck0 r c : window_of ck0 r → (recv_step r c).1 = Accept →
  sck_iteration ck0 <= c.
Proof.
  intros (Hn & Hs & _). rewrite Forall_forall in Hs. unfold recv_step.
  destruct (Z.ltb_spec c (r_next r)); [|lia]. case_decide; [|done]. auto.
Qed.

(** *** The saved keys *)

Lemma has_smk_at ck0 l c : 0 <= sck_iteration ck0 → Forall (λ x, sck_iteration ck0 <= x < 2 ^ 32) l →
  existsb (λ k, smk_iteration k =? c) (smk_at ck0 <$> l) = bool_decide (c ∈ l).
Proof.
  intros H0 Hl. induction l as [|x l IH]; [done|]. apply Forall_cons in Hl as [Hx Hl].
  rewrite fmap_cons. cbn [existsb]. rewrite IH by done. unfold smk_at at 1. cbn [smk_iteration smk_of sck_message_key].
  rewrite sck_at_iteration by lia.
  destruct (Z.eqb_spec x c) as [->|Hne]; simpl.
  - rewrite bool_decide_eq_true_2; [done|by left].
  - apply bool_decide_ext. set_solver.
Qed.

Lemma remove_smk_at ck0 l c :
  0 <= sck_iteration ck0 → Forall (λ x, sck_iteration ck0 <= x < 2 ^ 32) l → NoDup l → c ∈ l →
  remove_sender_message_key (smk_at ck0 <$> l) c
  = (Some (smk_at ck0 c), smk_at ck0 <$> filter (.≠ c) l).
Proof.
  intros H0 Hl Hd Hc. induction l as [|x l IH]; [by apply elem_of_nil in Hc|].
  apply Forall_cons in Hl as [Hx Hl]. apply NoDup_cons in Hd as [Hn Hd].
  rewrite fmap_cons. cbn [remove_sender_message_key]. unfold smk_at at 1.
  cbn [smk_iteration smk_of sck_message_key]. rewrite sck_at_iteration by lia.
  destruct (Z.eqb_spec x c) as [->|Hne].
  - rewrite filter_cons_False by naive_solver. by rewrite filter_absent.
  - rewrite IH by (done || set_solver). by rewrite filter_cons_True.
Qed.

(** *** The loop *)

Lemma sender_key_loop_S fuel ck c :
  sender_key_loop (U := U) (S fuel) ck c =
  if sck_iteration ck <? c then
    let* message_key := lift (sender_chain_key_create_message_key ck) in
    let* _ := sender_key_state_add_sender_message_key message_key in
    let* next_chain_key := lift (sender_chain_key_create_next ck) in
    sender_key_loop fuel next_chain_key c
  else ret ck.
Proof. done. Qed.

Lemma set_sender_message_keys_twice k k' s :
  set_sender_message_keys k (set_sender_message_keys k' s) = set_sender_message_keys k s.
Proof. done. Qed.

Lemma sender_key_loop_calm (u : U) ck0 (n : nat) : ∀ fuel a l s,
  0 <= sck_iteration ck0 <= a → (n < fuel)%nat → a + Z.of_nat n < 2 ^ 32 →
  (length l ≤ MAX_MESSAGE_KEYS)%nat → sks_message_keys s = l →
  sender_key_loop fuel (sck_at ck0 a) (a + Z.of_nat n) (s, calm u)
  = (Ok (sck_at ck0 (a + Z.of_nat n)),
     (set_sender_message_keys (trim_front MAX_MESSAGE_KEYS
        (l ++ (smk_at ck0 <$> seqZ a (Z.of_nat n)))) s, calm u)).
Proof.
  induction n as [|n IH]; intros fuel a l s Ha Hfuel Hb Hl Hs;
    (destruct fuel as [|fuel]; [lia|]); rewrite sender_key_loop_S;
    rewrite sck_at_iteration by lia.
  - rewrite (proj2 (Z.ltb_ge _ _)) by lia. rewrite Z.add_0_r. simpl.
    rewrite app_nil_r, trim_front_le by done. subst l. by destruct s.
  - rewrite (proj2 (Z.ltb_lt _ _)) by lia.
    step (lift_run _ _ _ _ _ (sender_create_message_key_calm u (sck_at ck0 a))).
    step_to tt (set_sender_message_keys (trim_front MAX_MESSAGE_KEYS
        (sks_message_keys s ++ [smk_at ck0 a])) s, calm u) by done.
    step (lift_run _ _ _ _ _ (sender_create_next_calm u (sck_at ck0 a))).
    rewrite sck_at_succ by lia. replace (a + Z.of_nat (S n)) with ((a + 1) + Z.of_nat n) by lia.
    erewrite (IH fuel (a + 1)); [|lia..|apply trim_front_length|done].
    rewrite set_sender_message_keys_twice. subst l.
    rewrite trim_front_trim_app, <-app_assoc. do 4 f_equal.
    rewrite (seqZ_cons a) by lia. replace (Z.pred (Z.of_nat (S n))) with (Z.of_nat n) by lia.
    by replace (Z.succ a) with (a + 1) by lia.
Qed.

Lemma get_sender_key_refine (u : U) ck0 r id public_ private_ c :
  window_of ck0 r → 0 <= c < 2 ^ 32 - 1 →
  group_cipher_get_sender_key c (sender_state_of id public_ private_ ck0 r, calm u)
  = (group_verdict ck0 c (recv_step r c).1,
     (sender_state_of id public_ private_ ck0 (recv_step r c).2, calm u)).
Proof.
  intros (Hn & Hs & (Hr & Hl & Hd & Hb)) Hc. unfold group_cipher_get_sender_key.
  set (s := sender_state_of id public_ private_ ck0 r).
  step_to s (s, calm u) by done. cbn [sks_chain_key s sender_state_of].
  rewrite sck_at_iteration by lia.
  assert (Forall (λ x, sck_iteration ck0 <= x < 2 ^ 32) (r_skipped r)) as Hrange.
  { rewrite Forall_forall in Hs, Hb. apply Forall_forall. intros x Hx.
    specialize (Hs x Hx). specialize (Hb x Hx). simpl in *. lia. }
  unfold recv_step. destruct (Z.ltb_spec c (r_next r)) as [Hlt|Hge].
  - unfold sender_key_state_has_sender_message_key.
    change (sks_message_keys s) with (smk_at ck0 <$> r_skipped r).
    rewrite has_smk_at by (done || lia). case_decide as Hin; cbn [fst snd].
    + rewrite bool_decide_eq_true_2 by done.
      step_to (Some (smk_at ck0 c)) (sender_state_of id public_ private_ ck0
          (Recv (r_next r) (filter (.≠ c) (r_skipped r))), calm u)
        by (unfold sender_key_state_remove_sender_message_key, bind; cbn [get_obj];
            change (sks_message_keys s) with (smk_at ck0 <$> r_skipped r);
            by rewrite remove_smk_at by (done || lia)).
      done.
    + by rewrite bool_decide_eq_false_2.
  - rewrite u32_small by (unfold is_u32; lia).
    destruct (Z.ltb_spec 2000 (c - r_next r)) as [Hfar|Hnear]; [done|].
    pose proof (sender_key_loop_calm u ck0 (Z.to_nat (c - r_next r)) 2001 (r_next r)
      (smk_at ck0 <$> r_skipped r) s ltac:(lia) ltac:(lia) ltac:(lia)
      ltac:(by rewrite length_fmap) eq_refl) as Hloop.
    rewrite Z2Nat.id in Hloop by lia.
    replace (r_next r + (c - r_next r)) with c in Hloop by lia.
    rewrite <-fmap_app, <-trim_front_fmap in Hloop. step Hloop.
    step (lift_run _ _ _ _ _ (sender_create_next_calm u (sck_at ck0 c))).
    rewrite sck_at_succ by lia. step_goal _ _; [|done].
    step_goal _ _; [|done]. erewrite lift_run by apply sender_create_message_key_calm. done.
Qed.
End Spec.
