(* ===== verification/Group.v ===== *)
(** Group sessions across stores: a sender key created by one member and
    distributed to others lets them read what the sender encrypts, in any order
    and with losses and repeats, as far as the window of saved keys reaches. *)

From S2P Require Import Prelude Buffer Provider Hkdf Curve SessionState Window Protobuf.
From S2P Require Import ProtobufSpec Wire Protocol SessionSerial PreKeys SenderKey Store KeyHelper.
From S2P Require Import GroupCipher GroupKeys.

(** A cipher as [group_cipher_create] returns it, without callback. *)
Definition new_group_cipher {U} (n : signal_protocol_sender_key_name) : group_cipher U :=
  GroupCipher n None 0.

Lemma group_cipher_create_calm {U} (u : U) n :
  group_cipher_create n (calm u) = (Ok (new_group_cipher n), calm u).
Proof. done. Qed.

Section Spec.
Context {U : Type} {CP : CryptoProvider U} {HL : HmacLaws CP} {CL : CipherLaws CP}
  {RL : RandomLaws CP} {C : Curve25519} {D : DhLaws C} {SG : SignLaws C D}
  {ST : Stores U} {SL : StoreLaws CP ST}.

Definition group_payload (k : sender_message_key) (p : bytes) : bytes :=
  cipher_enc SG_CIPHER_AES_CBC_PKCS5 (smk_cipher_key k) (smk_iv k) p.

(** The plaintext's encryption fits in a message. *)
Definition group_fits (p : bytes) : Prop := ∀ k, zlen (group_payload k p) < 2 ^ 24.

(** Iteration, plaintext and message of something the holder of the chain of
    [ck0] and of the signing key of [public_] has sent under the key id. *)
Definition genuine (id : Z) (public_ : ec_public_key) (ck0 : sender_chain_key)
    (d : Z * bytes * sender_key_message) : Prop :=
  let '(c, p, m) := d in
  let body := sender_key_message_body id c (group_payload (smk_at ck0 c) p) in
  0 <= c < 2 ^ 32 - 1 ∧ group_fits p ∧
  ∃ sig, m = SenderKeyMessage_ 3 id c (group_payload (smk_at ck0 c) p) (body ++ sig) ∧
    length sig = 64%nat ∧
    ∀ w : world U, curve_verify_signature public_ body sig w = (Ok 1, w).

(** The store's record has, under the key id and at position [i], the state of
    the window [r] on the chain of [ck0]. *)
Definition in_group (v : store_view) (name : signal_protocol_sender_key_name) (i : nat) (id : Z)
    (public_ : ec_public_key) (private_ : option ec_private_key) (ck0 : sender_chain_key)
    (r : recv) : Prop :=
  ∃ rec, sv_sender_keys v !! name = Some (sender_record_bytes rec) ∧ storable_sender_record rec ∧
    find_sender_key_state (skr_states rec) id = Some i ∧
    skr_states rec !! i = Some (sender_state_of id public_ private_ ck0 r) ∧ window_of ck0 r ∧
    zlen (sck_chain_key ck0) < 2 ^ 20.

(** What a receiver answers. *)
Definition group_answer (p : bytes) (v : verdict) : bytes + Z :=
  match v with
  | Accept => inl p
  | Duplicate => inr SG_ERR_DUPLICATE_MESSAGE
  | TooFar => inr SG_ERR_INVALID_MESSAGE
  end.

(** ** Storage *)

Lemma sck_at_short ck0 c : zlen (sck_chain_key ck0) < 2 ^ 20 →
  zlen (sck_chain_key (sck_at ck0 c)) < 2 ^ 20.
Proof.
  intros H. unfold sck_at. destruct (Z.to_nat _) as [|n]; [done|]. rewrite sck_advance_S. simpl.
  unfold zlen. by rewrite hmac_length.
Qed.

Lemma stored_smk_at ck0 c : 0 <= sck_iteration ck0 <= c → c < 2 ^ 32 →
  stored_sender_message_key (smk_at ck0 c).
Proof.
  intros H Hc. split_and!; [| |done].
  - cbn. rewrite sck_at_iteration by done. unfold is_u32. lia.
  - simpl. apply hmac_length.
Qed.

Lemma storable_sender_state_of id public_ private_ ck0 r :
  is_u32 id → wf_pk public_ → opt_all wf_sk private_ → zlen (sck_chain_key ck0) < 2 ^ 20 →
  window_of ck0 r → storable_sender_state (sender_state_of id public_ private_ ck0 r).
Proof.
  intros Hid Hp Hs Hl (Hn & Hk & (Hr & Hm & _ & Hb)). rewrite Forall_forall in Hk, Hb.
  split_and!; simpl; [done| |by apply sck_at_short|done|done| |by rewrite length_fmap].
  - rewrite sck_at_iteration by lia. unfold is_u32. lia.
  - apply Forall_fmap, Forall_forall. intros c Hc. specialize (Hk c Hc). specialize (Hb c Hc).
    apply stored_smk_at; simpl in *; lia.
Qed.

Lemma storable_insert rec i s : storable_sender_record rec → storable_sender_state s →
  storable_sender_record (SenderKeyRecord (<[i := s]> (skr_states rec))).
Proof.
  intros [Hf Hl] Hs. split; simpl; [by apply Forall_insert|by rewrite length_insert].
Qed.

Lemma find_insert_state l i id s : sks_key_id s = id → find_sender_key_state l id = Some i →
  find_sender_key_state (<[i := s]> l) id = Some i.
Proof.
  intros Hs. revert i. induction l as [|x l IH]; intros i; [done|]. cbn [find_sender_key_state].
  destruct (Z.eqb_spec (sks_key_id x) id) as [He|Hne].
  - intros [= <-]. cbn. by rewrite Hs, Z.eqb_refl.
  - destruct (find_sender_key_state l id) as [j|] eqn:E; [|done]. intros [= <-].
    cbn. rewrite (proj2 (Z.eqb_neq _ _) Hne). change list_insert with (@insert nat sender_key_state (list sender_key_state) _).
    by rewrite IH.
Qed.

Lemma storable_lookup rec i s : storable_sender_record rec → skr_states rec !! i = Some s →
  storable_sender_state s.
Proof. intros [Hf _]. apply (Forall_lookup_1 _ _ _ _ Hf). Qed.

(** The record after the state at [i] has moved on. *)
Definition moved_record (rec : sender_key_record) (i : nat) (s : sender_key_state)
    : sender_key_record := SenderKeyRecord (<[i := s]> (skr_states rec)).

Lemma in_group_moved v name rec i id public_ private_ ck0 r r' :
  storable_sender_record rec → find_sender_key_state (skr_states rec) id = Some i →
  skr_states rec !! i = Some (sender_state_of id public_ private_ ck0 r) →
  zlen (sck_chain_key ck0) < 2 ^ 20 → window_of ck0 r' →
  let rec' := moved_record rec i (sender_state_of id public_ private_ ck0 r') in
  storable_sender_record rec' ∧
  in_group (set_sender_keys <[name := sender_record_bytes rec']> v) name i id public_ private_ ck0 r'.
Proof.
  intros Hrec Hfind Hi Hck Hw rec'.
  pose proof (storable_lookup rec i _ Hrec Hi) as (Hid & _ & _ & Hpk & Hsk & _).
  assert (storable_sender_record rec') as Hs
    by (by apply storable_insert, storable_sender_state_of).
  split; [done|]. exists rec'. split_and!; try done.
  - simpl. by rewrite lookup_insert_eq.
  - by apply find_insert_state.
  - simpl. apply list_lookup_insert_eq. by eapply lookup_lt_Some.
Qed.

(** ** Receiving *)

Lemma smk_cipher_input k : stored_sender_message_key k →
  cipher_input SG_CIPHER_AES_CBC_PKCS5 (smk_cipher_key k) (smk_iv k).
Proof.
  intros (_ & _ & ->). split_and!; [by right|..]; simpl;
    rewrite length_take, ?length_drop, smk_material_length; done.
Qed.

(** The part of a state's handler after the signature check. *)
Lemma on_state_decrypt (u : U) rec i id public_ private_ ck0 r c p m :
  skr_states rec !! i = Some (sender_state_of id public_ private_ ck0 r) → window_of ck0 r →
  genuine id public_ ck0 (c, p, m) → find_sender_key_state (skr_states rec) id = Some i →
  try (group_cipher_decrypt_in m) (rec, calm u)
  = (Ok (group_answer p (recv_step r c).1),
     (moved_record rec i (sender_state_of id public_ private_ ck0 (recv_step r c).2), calm u)).
Proof.
  intros Hi Hw (Hc & Hfit & sig & -> & Hl & Hv) Hfind.
  assert (i < length (skr_states rec))%nat as Hlen by (by eapply lookup_lt_Some).
  unfold group_cipher_decrypt_in.
  assert (sender_key_record_is_empty rec = false) as Hne.
  { by destruct rec as [[|]]. }
  set (m := SenderKeyMessage_ _ _ _ _ _).
  unfold try. step_to rec (rec, calm u) by done. rewrite Hne.
  step_to i (rec, calm u) by (unfold sender_key_record_get_sender_key_state_by_id, lift;
    cbn [skm_key_id m]; by rewrite Hfind).
  unfold on_sender_state. rewrite Hi.
  set (s := sender_state_of id public_ private_ ck0 r).
  step_to s (s, calm u) by done.
  step (lift_run _ _ _ _ _ (verify_signature_calm (calm u) 3 id c _ public_ _ sig Hl Hv)).
  pose proof (get_sender_key_refine u ck0 r id public_ private_ c Hw Hc) as Hkey.
  destruct (recv_step r c) as [v r'] eqn:Hstep. cbn [fst snd] in *.
  destruct v; cbn [group_verdict group_answer] in *.
  - assert (stored_sender_message_key (smk_at ck0 c)) as Hk.
    { pose proof (window_accepts ck0 r c Hw) as Hge. rewrite Hstep in Hge.
      specialize (Hge eq_refl). apply stored_smk_at; [|lia]. split; [apply Hw|done]. }
    step Hkey. unfold lift, signal_decrypt, of_res.
    unfold m, group_payload. cbn [skm_ciphertext].
    rewrite decrypt_encrypt by (by apply smk_cipher_input). done.
  - rewrite (bind_err _ _ _ _ _ Hkey). done.
  - rewrite (bind_err _ _ _ _ _ Hkey). done.
Qed.

(** One delivery.  A refused message leaves the store as it was. *)
Lemma group_decrypt_calm (u : U) name i id public_ private_ ck0 r c p m :
  in_group (view u) name i id public_ private_ ck0 r → genuine id public_ ck0 (c, p, m) →
  ∃ u', try (group_cipher_decrypt (new_group_cipher name) m) (calm u)
      = (Ok (group_answer p (recv_step r c).1), calm u') ∧
    in_group (view u') name i id public_ private_ ck0 (recv_step r c).2.
Proof.
  intros (rec & Hb & Hrec & Hfind & Hi & Hw & Hck) Hg.
  pose proof Hg as (Hc & _ & _).
  assert (holds_sender_record (view u) name rec) as Hh
    by (unfold holds_sender_record; by rewrite Hb).
  pose proof (load_sender_key_calm u name rec Hh) as Hload.
  pose proof (on_state_decrypt u rec i id public_ private_ ck0 r c p m Hi Hw Hg Hfind) as Hd.
  pose proof (window_of_step ck0 r c Hw Hc) as Hw'.
  destruct (in_group_moved (view u) name rec i id public_ private_ ck0 r (recv_step r c).2
    Hrec Hfind Hi Hck Hw') as [Hs Hin].
  set (rec' := moved_record _ _ _) in *.
  destruct (store_sender_key_calm u name rec' Hs) as (u' & Hst & Hv).
  destruct (recv_step r c) as [v r'] eqn:Hstep. cbn [fst snd] in *.
  unfold try, group_cipher_decrypt, remap_error. cbn [gc_inside_callback new_group_cipher].
  change (0 =? 1) with false. cbn iota. rewrite (bind_ok _ _ _ _ _ Hload).
  unfold try in Hd. destruct (group_cipher_decrypt_in m (rec, calm u)) as [res1 s1] eqn:E.
  destruct v.
  - exists u'. rewrite Hv. split; [|done].
    destruct res1 as [a|e| |]; try done. injection Hd as -> ->.
    step_to (p, rec') (calm u) by (unfold with_obj; by rewrite E).
    step_to 0 (calm u) by done. step Hst. done.
  - assert (r' = r) as ->.
    { revert Hstep. unfold recv_step. repeat case_match; by intros [=]. }
    exists u. split; [|by exists rec]. destruct res1 as [a|e| |]; try done. injection Hd as -> ->.
    rewrite (bind_err _ _ _ SG_ERR_DUPLICATE_MESSAGE (calm u))
      by (unfold with_obj; by rewrite E). done.
  - assert (r' = r) as ->.
    { revert Hstep. unfold recv_step. repeat case_match; by intros [=]. }
    exists u. split; [|by exists rec]. destruct res1 as [a|e| |]; try done. injection Hd as -> ->.
    rewrite (bind_err _ _ _ SG_ERR_INVALID_MESSAGE (calm u))
      by (unfold with_obj; by rewrite E). done.
Qed.

(** A message arrives as bytes. *)
Definition group_receive (name : signal_protocol_sender_key_name) (data : bytes)
    : M (world U) bytes :=
  let* m := sender_key_message_deserialize data in
  group_cipher_decrypt (new_group_cipher name) m.

Lemma group_receive_calm (u : U) name i id public_ private_ ck0 r c p m :
  in_group (view u) name i id public_ private_ ck0 r → genuine id public_ ck0 (c, p, m) →
  ∃ u', try (group_receive name (skm_serialized m)) (calm u)
      = (Ok (group_answer p (recv_step r c).1), calm u') ∧
    in_group (view u') name i id public_ private_ ck0 (recv_step r c).2.
Proof.
  intros Hin Hg. destruct (group_decrypt_calm u name i id public_ private_ ck0 r c p m Hin Hg)
    as (u' & Hd & Hin'). exists u'. split; [|done].
  destruct Hin as (rec & _ & Hrec & _ & Hi & _ & _).
  destruct (storable_lookup rec i _ Hrec Hi) as (Hid & _).
  destruct Hg as (Hc & Hfit & sig & -> & Hl & _). rewrite <-Hd. unfold try, group_receive.
  erewrite bind_ok; [done|]. apply sender_key_message_deserialize_calm; [done| | |done].
  - unfold is_u32. lia.
  - pose proof (Hfit (smk_at ck0 c)). lia.
Qed.

(** Any sequence of deliveries. *)
Lemma group_receive_all name i id public_ private_ ck0 ds : ∀ (u : U) r,
  in_group (view u) name i id public_ private_ ck0 r → Forall (genuine id public_ ck0) ds →
  let run := recv_run r ((λ d, d.1.1) <$> ds) in
  ∃ u', mapM_list (λ d : Z * bytes * sender_key_message,
      try (group_receive name (skm_serialized d.2))) ds (calm u)
    = (Ok (zip_with (λ d v, group_answer d.1.2 v) ds run.1), calm u') ∧
    in_group (view u') name i id public_ private_ ck0 run.2.
Proof.
  induction ds as [|[[c p] m] ds IH]; intros u r Hin Hds; [by exists u|].
  apply Forall_cons in Hds as [Hd Hds].
  destruct (group_receive_calm u name i id public_ private_ ck0 r c p m Hin Hd)
    as (u1 & Hrec & Hin1).
  rewrite fmap_cons. cbn [recv_run mapM_list fst snd].
  destruct (recv_step r c) as [v r1]. cbn [fst snd] in *.
  destruct (IH u1 r1 Hin1 Hds) as (u2 & Hrest & Hin2). exists u2.
  destruct (recv_run r1 _) as [vs r2]. cbn [fst snd] in *. split; [|done].
  step Hrec. step Hrest. done.
Qed.

(** ** Sending *)

Lemma keeps_view_sender_key_message id it ct k :
  keeps same_view (sender_key_message_create id it ct k).
Proof.
  unfold sender_key_message_create, sender_key_message_serialize, serialize_body,
    curve_calculate_signature. keeps_solve.
Qed.

Lemma window_sent ck0 r : window_of ck0 r → r_next r < 2 ^ 32 - 1 →
  window_of ck0 (Recv (r_next r + 1) (r_skipped r)).
Proof.
  intros (Hn & Hs & (Hr & Hl & Hd & Hb)) Hlt. split_and!; simpl; [lia..|done|].
  split_and!; simpl; try done; [lia..|]. eapply Forall_impl; [exact Hb|]. simpl. lia.
Qed.

Lemma group_encrypt_calm (u : U) name id kp ck0 r p :
  in_group (view u) name 0 id (kp_public kp) (Some (kp_private kp)) ck0 r →
  wf_signing_pair kp → r_next r < 2 ^ 32 - 1 → group_fits p →
  ∃ m u', group_cipher_encrypt (new_group_cipher name) p (calm u) = (Ok m, calm u') ∧
    genuine id (kp_public kp) ck0 (r_next r, p, m) ∧
    in_group (view u') name 0 id (kp_public kp) (Some (kp_private kp)) ck0
      (Recv (r_next r + 1) (r_skipped r)).
Proof.
  intros (rec & Hb & Hrec & Hfind & Hi & Hw & Hck) Hkp Hlt Hfit.
  assert (holds_sender_record (view u) name rec) as Hh
    by (unfold holds_sender_record; by rewrite Hb).
  set (n := r_next r) in *. pose proof Hw as ([Hn0 Hn] & _).
  set (ct := group_payload (smk_at ck0 n) p).
  destruct (storable_lookup rec 0 _ Hrec Hi) as (Hid & _).
  destruct (sender_key_message_create_calm u id n ct kp Hid ltac:(unfold is_u32; lia)
    ltac:(pose proof (Hfit (smk_at ck0 n)); unfold ct; lia) Hkp) as (sig & u1 & Hmk & Hl & Hv).
  set (m := SenderKeyMessage_ _ _ _ _ _) in *.
  assert (view u1 = view u) as Hview.
  { pose proof (keeps_view_sender_key_message id n ct (kp_private kp) (calm u)) as H.
    unfold same_view in H. by rewrite Hmk in H. }
  pose proof (window_sent ck0 r Hw Hlt) as Hw'. set (r' := Recv _ _) in *.
  destruct (in_group_moved (view u1) name rec 0 id _ (Some (kp_private kp)) ck0 r r'
    Hrec Hfind Hi Hck Hw') as [Hs Hin].
  set (rec' := moved_record _ _ _) in *.
  destruct (store_sender_key_calm u1 name rec' Hs) as (u' & Hst & Hv').
  exists m, u'. rewrite Hv'. split_and!; [|split_and!; [lia|lia|done|by exists sig]|done].
  unfold group_cipher_encrypt, remap_error. cbn [gc_inside_callback new_group_cipher].
  change (0 =? 1) with false. cbn iota. step (load_sender_key_calm u name rec Hh).
  step_goal (m, rec') (calm u1); [by step Hst|]. unfold with_obj.
  enough (group_cipher_encrypt_in p (rec, calm u) = (Ok m, (rec', calm u1))) as -> by done.
  destruct rec as [[|s l]]; [done|]. injection Hi as ->.
  set (s := sender_state_of _ _ _ _ _). set (rec := SenderKeyRecord _).
  unfold group_cipher_encrypt_in. step_to rec (rec, calm u) by done.
  step_to s (rec, calm u) by done. step_to (kp_private kp) (rec, calm u) by done.
  step (lift_run _ _ _ _ _ (sender_create_message_key_calm u (sks_chain_key s))).
  step_to ct (rec, calm u) by (unfold lift, signal_encrypt, of_res; rewrite encrypt_ok;
    [done|apply smk_cipher_input, stored_smk_at; lia]).
  step_goal m (rec, calm u1).
  - step (lift_run _ _ _ _ _ (sender_create_next_calm u1 (sks_chain_key s))).
    unfold s at 1. cbn [sks_chain_key sender_state_of]. rewrite sck_at_succ by lia. done.
  - apply lift_run. cbn [sks_key_id s sender_state_of sks_chain_key smk_iteration sck_message_key
      smk_of]. by rewrite sck_at_iteration by lia.
Qed.

Lemma group_send_all name id kp ck0 ps : wf_signing_pair kp → ∀ (u : U) r,
  in_group (view u) name 0 id (kp_public kp) (Some (kp_private kp)) ck0 r →
  r_next r + zlen ps <= 2 ^ 32 - 1 → Forall group_fits ps →
  ∃ ms u', mapM_list (group_cipher_encrypt (new_group_cipher name)) ps (calm u)
      = (Ok ms, calm u') ∧ length ms = length ps ∧
    Forall (genuine id (kp_public kp) ck0) (zip (zip (seqZ (r_next r) (zlen ps)) ps) ms) ∧
    in_group (view u') name 0 id (kp_public kp) (Some (kp_private kp)) ck0
      (Recv (r_next r + zlen ps) (r_skipped r)).
Proof.
  intros Hkp. induction ps as [|p ps IH]; intros u r Hin Hlen Hfit.
  { exists [], u. simpl. rewrite Z.add_0_r. by destruct r. }
  rewrite zlen_cons in *. pose proof (zlen_nonneg ps) as Hz. apply Forall_cons in Hfit as [Hp Hps].
  destruct (group_encrypt_calm u name id kp ck0 r p Hin Hkp ltac:(lia) Hp)
    as (m & u1 & He & Hg & Hin1).
  destruct (IH u1 _ Hin1 ltac:(simpl; lia) Hps) as (ms & u2 & Hrest & Hl & Hgs & Hin2).
  cbn [r_next r_skipped] in *. exists (m :: ms), u2. split_and!.
  - cbn [mapM_list]. step He. step Hrest. done.
  - simpl. by rewrite Hl.
  - rewrite (seqZ_cons (r_next r)) by lia. cbn [zip_with]. constructor; [done|].
    replace (Z.succ (r_next r)) with (r_next r + 1) by lia.
    by replace (Z.pred (1 + zlen ps)) with (zlen ps) by lia.
  - by replace (r_next r + (1 + zlen ps)) with (r_next r + 1 + zlen ps) by lia.
Qed.

(** ** Sharing *)

Lemma keeps_view_random_id : keeps same_view signal_protocol_key_helper_generate_sender_key_id.
Proof.
  unfold signal_protocol_key_helper_generate_sender_key_id,
    signal_protocol_key_helper_get_random_sequence. apply keeps_bind; [apply _| |keeps_solve].
  apply keeps_view_random.
Qed.
Lemma keeps_view_sender_key : keeps same_view signal_protocol_key_helper_generate_sender_key.
Proof. unfold signal_protocol_key_helper_generate_sender_key. keeps_solve. Qed.
Lemma keeps_view_signing_key :
  keeps same_view signal_protocol_key_helper_generate_sender_signing_key.
Proof.
  unfold signal_protocol_key_helper_generate_sender_signing_key, curve_generate_key_pair,
    curve_generate_private_key, curve_generate_public_key. keeps_solve.
Qed.

(** What [add_sender_key_state] leaves. *)
Lemma add_state_calm (u : U) id it key public_ private_ rec :
  zlen key <= SIZE_MAX - 8 →
  sender_key_record_add_sender_key_state_impl id it (Some key) (Some public_) private_ (rec, calm u)
  = (Ok tt, (SenderKeyRecord (take MAX_STATES
      (SenderKeyState id (SenderChainKey it key) public_ private_ [] :: skr_states rec)), calm u)).
Proof.
  intros Hk. unfold sender_key_record_add_sender_key_state_impl.
  step (lift_run _ _ _ _ _ (sender_chain_key_create_calm u it key Hk)). done.
Qed.

Lemma storable_take rec s : storable_sender_record rec → storable_sender_state s →
  storable_sender_record (SenderKeyRecord (take MAX_STATES (s :: skr_states rec))).
Proof.
  intros [Hf _] Hs. split; cbn [skr_states]; [|rewrite length_take; lia].
  apply Forall_take. by constructor.
Qed.

Lemma storable_empty : storable_sender_record (SenderKeyRecord []).
Proof. split; simpl; [constructor|lia]. Qed.

(** A new state at the head, stored. *)
Lemma in_group_added v name rec id public_ private_ ck0 n :
  storable_sender_record rec → is_u32 id → wf_pk public_ → opt_all wf_sk private_ →
  0 <= sck_iteration ck0 <= n → n < 2 ^ 32 → zlen (sck_chain_key ck0) < 2 ^ 20 →
  let rec' := SenderKeyRecord (take MAX_STATES
    (sender_state_of id public_ private_ ck0 (Recv n []) :: skr_states rec)) in
  storable_sender_record rec' ∧
  in_group (set_sender_keys <[name := sender_record_bytes rec']> v) name 0 id public_ private_
    ck0 (Recv n []).
Proof.
  intros Hrec Hid Hpk Hsk Hn Hlt Hck rec'.
  pose proof (window_of_at ck0 n Hn Hlt) as Hw.
  assert (storable_sender_record rec') as Hs by (by apply storable_take, storable_sender_state_of).
  split; [done|]. exists rec'. split_and!; try done.
  - simpl. by rewrite lookup_insert_eq.
  - simpl. by rewrite Z.eqb_refl.
Qed.

(** A member who already has the sender key hands out its current chain key. *)
Lemma create_session_again (u : U) name id public_ private_ ck0 r :
  in_group (view u) name 0 id public_ private_ ck0 r →
  group_session_builder_create_session name (calm u)
  = (Ok (made_distribution_message id (r_next r) (sck_chain_key (sck_at ck0 (r_next r))) public_),
     calm u).
Proof.
  intros (rec & Hb & Hrec & _ & Hi & Hw & Hck).
  assert (holds_sender_record (view u) name rec) as Hh
    by (unfold holds_sender_record; by rewrite Hb).
  destruct (storable_lookup rec 0 _ Hrec Hi) as (Hid & Hit & Hsh & Hpk & _).
  destruct Hw as (Hn & _ & (Hr & _)).
  unfold group_session_builder_create_session. step (load_sender_key_calm u name rec Hh).
  destruct rec as [[|s l]]; [done|]. injection Hi as ->.
  step_goal _ _; [|done]. step_goal _ _; [|done]. cbn [sks_key_id sks_chain_key
    sks_signature_public_key sender_state_of] in *. rewrite sck_at_iteration in * by lia.
  apply distribution_create_calm; try done. lia.
Qed.

(** The first call makes the sender key. *)
Lemma create_session_fresh (u : U) name :
  sv_sender_keys (view u) !! name = None →
  ∃ id kp ck0 u', wf_signing_pair kp ∧ sck_iteration ck0 = 0 ∧
    group_session_builder_create_session name (calm u)
    = (Ok (made_distribution_message id 0 (sck_chain_key ck0) (kp_public kp)), calm u') ∧
    in_group (view u') name 0 id (kp_public kp) (Some (kp_private kp)) ck0 (Recv 0 []).
Proof.
  intros Hnone.
  destruct (generate_sender_key_id_calm u) as (id & u1 & Hid & Hrange).
  destruct (generate_sender_key_calm u1) as (key & u2 & Hkey & Hl).
  destruct (generated_pair u2) as (kp & u3 & Hkp & Hwf).
  assert (view u3 = view u) as Hview.
  { pose proof (keeps_view_random_id (calm u)) as H1. pose proof (keeps_view_sender_key (calm u1)) as H2.
    pose proof (keeps_view_signing_key (calm u2)) as H3. unfold same_view in *.
    rewrite Hid in H1. rewrite Hkey in H2. unfold signal_protocol_key_helper_generate_sender_signing_key in H3.
    rewrite Hkp in H3. simpl in *. congruence. }
  assert (is_u32 id) as Hu by (unfold is_u32, INT32_MAX in *; lia).
  pose proof Hwf as [Hpair _]. set (ck0 := SenderChainKey 0 key).
  assert (zlen key < 2 ^ 20) as Hshort by (unfold zlen; rewrite Hl; done).
  destruct (in_group_added (view u3) name (SenderKeyRecord []) id (kp_public kp)
    (Some (kp_private kp)) ck0 0) as [Hs Hin];
    [apply storable_empty|done|by apply wf_pair_pk|by intros ? [= <-]; apply Hpair|done..|].
  set (rec' := SenderKeyRecord (take _ _)) in *.
  destruct (store_sender_key_calm u3 name rec' Hs) as (u' & Hst & Hv).
  exists id, kp, ck0, u'. rewrite Hv. split_and!; try done.
  unfold group_session_builder_create_session.
  step_goal (SenderKeyRecord []) (calm u).
  - cbn [sender_key_record_is_empty skr_states].
    step_goal rec' (calm u').
    + step_goal (sender_state_of id (kp_public kp) (Some (kp_private kp)) ck0 (Recv 0 [])) (calm u');
        [|done].
      apply distribution_create_calm; [done|done|simpl; lia|by apply wf_pair_pk].
    + step Hid. step Hkey. step Hkp. step_to (tt, rec') (calm u3) by
        (unfold with_obj, sender_key_record_set_sender_key_state;
         step_to tt (SenderKeyRecord [], calm u3) by done;
         rewrite add_state_calm by (unfold SIZE_MAX; lia); done).
      step Hst. done.
  - apply load_sender_key_calm. unfold holds_sender_record. by rewrite Hnone.
Qed.

(** A member who gets the distribution message can read from its iteration on. *)
Lemma process_session_calm (u : U) name rec id public_ ck0 n :
  holds_sender_record (view u) name rec → is_u32 id → wf_pk public_ →
  0 <= sck_iteration ck0 <= n → n < 2 ^ 32 → zlen (sck_chain_key ck0) < 2 ^ 20 →
  let m := made_distribution_message id n (sck_chain_key (sck_at ck0 n)) public_ in
  ∃ u', group_session_builder_process_session name m (calm u) = (Ok tt, calm u') ∧
    in_group (view u') name 0 id public_ None ck0 (Recv n []).
Proof.
  intros Hh Hid Hpk Hn Hlt Hck m.
  assert (storable_sender_record rec) as Hrec.
  { unfold holds_sender_record in Hh. destruct (sv_sender_keys (view u) !! name);
      [apply Hh|subst; apply storable_empty]. }
  destruct (in_group_added (view u) name rec id public_ None ck0 n Hrec Hid Hpk ltac:(done) Hn Hlt Hck)
    as [Hs Hin].
  set (rec' := SenderKeyRecord (take _ _)) in *.
  destruct (store_sender_key_calm u name rec' Hs) as (u' & Hst & Hv).
  exists u'. rewrite Hv. split; [|done].
  unfold group_session_builder_process_session. step (load_sender_key_calm u name rec Hh).
  step_goal (tt, rec') (calm u); [by step Hst|]. unfold with_obj,
    sender_key_record_add_sender_key_state. cbn [skdm_id skdm_iteration skdm_chain_key
      skdm_signature_key m made_distribution_message].
  pose proof (sck_at_short ck0 n Hck). rewrite add_state_calm by (unfold SIZE_MAX; lia).
  unfold rec', sender_state_of. cbn [r_next r_skipped fmap list_fmap].
  do 6 f_equal. destruct (sck_at ck0 n) as [it key] eqn:E.
  pose proof (sck_at_iteration ck0 n Hn Hlt) as Hit. rewrite E in Hit. simpl in *. by subst.
Qed.

(** ** Claims *)

(** C19: a group conversation.  When the sender's store and a member's store
    hold the same sender chain, the sender can encrypt any plaintexts in
    sequence; whatever deliveries of these messages then reach the member as
    bytes, with losses, repeats and in any order, each is answered as the
    abstract receiver says: with its plaintext when its counter is in the
    window, with [SG_ERR_DUPLICATE_MESSAGE] when it was read before and
    [SG_ERR_INVALID_MESSAGE] when it is more than 2000 ahead; both stores
    stay in step. *)
Theorem group_conversation (uA uB : U) (nameA nameB : signal_protocol_sender_key_name)
    (i : nat) (id : Z) (kp : ec_key_pair) (private_ : option ec_private_key)
    (ck0 : sender_chain_key) (rA rB : recv) (ps : list bytes) :
  in_group (view uA) nameA 0 id (kp_public kp) (Some (kp_private kp)) ck0 rA →
  in_group (view uB) nameB i id (kp_public kp) private_ ck0 rB →
  wf_signing_pair kp → r_next rA + zlen ps <= 2 ^ 32 - 1 → Forall group_fits ps →
  ∃ ms uA', mapM_list (group_cipher_encrypt (new_group_cipher nameA)) ps (calm uA)
      = (Ok ms, calm uA') ∧ length ms = length ps ∧
    in_group (view uA') nameA 0 id (kp_public kp) (Some (kp_private kp)) ck0
      (Recv (r_next rA + zlen ps) (r_skipped rA)) ∧
    ∀ ds, (∀ d, d ∈ ds → d ∈ zip (zip (seqZ (r_next rA) (zlen ps)) ps) ms) →
      let run := recv_run rB ((λ d, d.1.1) <$> ds) in
      ∃ uB', mapM_list (λ d : Z * bytes * sender_key_message,
          try (group_receive nameB (skm_serialized d.2))) ds (calm uB)
        = (Ok (zip_with (λ d v, group_answer d.1.2 v) ds run.1), calm uB') ∧
        in_group (view uB') nameB i id (kp_public kp) private_ ck0 run.2.
Proof.
  intros HA HB Hkp Hn Hps.
  destruct (group_send_all nameA id kp ck0 ps Hkp uA rA HA Hn Hps) as (ms & uA' & Hs & Hl & Hg & HA').
  exists ms, uA'. split_and!; [done..|]. intros ds Hds. apply group_receive_all; [done|].
  rewrite Forall_forall in *. auto.
Qed.

(** C20: sharing a sender key.  The first [create_session] for a name makes a
    sender key and stores it; the distribution message it returns, sent as
    bytes to a member and processed there, gives the member the same chain
    from its start.  After the sender has encrypted any plaintexts, asking
    again gives a message from which a later member reads the chain on from
    there, and changes nothing at the sender's. *)
Theorem group_session_shared (uA uB uC : U) (nameA nameB nameC : signal_protocol_sender_key_name)
    (recB recC : sender_key_record) (ps : list bytes) :
  sv_sender_keys (view uA) !! nameA = None →
  holds_sender_record (view uB) nameB recB → holds_sender_record (view uC) nameC recC →
  zlen ps < 2 ^ 32 → Forall group_fits ps →
  ∃ id kp ck0 m data u1 uB' ms u2 m' data' uC',
    group_session_builder_create_session nameA (calm uA) = (Ok m, calm u1) ∧
    in_group (view u1) nameA 0 id (kp_public kp) (Some (kp_private kp)) ck0 (Recv 0 []) ∧
    wf_signing_pair kp ∧ skdm_serialized m = Some data ∧
    sender_key_distribution_message_deserialize data (calm uB) = (Ok m, calm uB) ∧
    group_session_builder_process_session nameB m (calm uB) = (Ok tt, calm uB') ∧
    in_group (view uB') nameB 0 id (kp_public kp) None ck0 (Recv 0 []) ∧
    mapM_list (group_cipher_encrypt (new_group_cipher nameA)) ps (calm u1) = (Ok ms, calm u2) ∧
    group_session_builder_create_session nameA (calm u2) = (Ok m', calm u2) ∧
    skdm_serialized m' = Some data' ∧
    sender_key_distribution_message_deserialize data' (calm uC) = (Ok m', calm uC) ∧
    group_session_builder_process_session nameC m' (calm uC) = (Ok tt, calm uC') ∧
    in_group (view uC') nameC 0 id (kp_public kp) None ck0 (Recv (zlen ps) []).
Proof.
  intros HA HB HC Hlen Hps. pose proof (zlen_nonneg ps) as Hz.
  destruct (create_session_fresh uA nameA HA) as (id & kp & ck0 & u1 & Hkp & H0 & Hc & Hin).
  pose proof Hin as (rec & _ & Hrec & _ & Hi & _ & Hck).
  destruct (storable_lookup rec 0 _ Hrec Hi) as (Hid & _ & _ & Hpk & _).
  cbn [sks_key_id sks_signature_public_key sender_state_of] in *.
  destruct (group_send_all nameA id kp ck0 ps Hkp u1 (Recv 0 []) Hin ltac:(simpl; lia) Hps)
    as (ms & u2 & Hs & _ & _ & Hin2). rewrite Z.add_0_l in Hin2.
  pose proof (create_session_again u2 nameA id _ _ ck0 _ Hin2) as Hc2. cbn [r_next] in Hc2.
  destruct (process_session_calm uB nameB recB id (kp_public kp) ck0 0 HB Hid Hpk ltac:(lia)
    ltac:(done) Hck) as (uB' & HpB & HinB).
  destruct (process_session_calm uC nameC recC id (kp_public kp) ck0 (zlen ps) HC Hid Hpk
    ltac:(lia) Hlen Hck) as (uC' & HpC & HinC).
  rewrite <-H0, sck_at_start, H0 in HpB. pose proof (sck_at_short ck0 (zlen ps) Hck).
  eexists id, kp, ck0, _, _, u1, uB', ms, u2, _, _, uC'.
  split_and!; [exact Hc|done|done|reflexivity|apply distribution_deserialize_calm; try done; lia|
    done|done|exact Hs|exact Hc2|reflexivity| |done|done].
  apply distribution_deserialize_calm; try done; unfold is_u32; lia.
Qed.
End Spec.

(** ** Witnesses *)

Import Toy MemStore.

Definition witness_group (b : Z) : signal_protocol_sender_key_name :=
  SenderKeyName [71] (Address [b] 1).
Definition witness_empty (seed : Z) : mem :=
  (seed, StoreView ∅ ∅ ∅ ([], []) 0 ∅ ∅).

Lemma toy_group_fits p : zlen p < 2 ^ 24 → group_fits (CP := mem_provider) p.
Proof.
  intros H k. unfold group_payload. change (zlen (crypt SG_CIPHER_AES_CBC_PKCS5 (smk_cipher_key k)
    (smk_iv k) p) < 2 ^ 24). unfold zlen. by rewrite crypt_length.
Qed.

Lemma group_session_shared_witness :
  ∃ id kp ck0 m data u1 uB' ms u2 m' data' uC',
    group_session_builder_create_session (witness_group 65) (calm (witness_empty 7))
      = (Ok m, calm u1) ∧
    in_group (view u1) (witness_group 65) 0 id (kp_public kp) (Some (kp_private kp)) ck0
      (Recv 0 []) ∧
    wf_signing_pair kp ∧ skdm_serialized m = Some data ∧
    sender_key_distribution_message_deserialize data (calm (witness_empty 8))
      = (Ok m, calm (witness_empty 8)) ∧
    group_session_builder_process_session (witness_group 65) m (calm (witness_empty 8))
      = (Ok tt, calm uB') ∧
    in_group (view uB') (witness_group 65) 0 id (kp_public kp) None ck0 (Recv 0 []) ∧
    mapM_list (group_cipher_encrypt (new_group_cipher (witness_group 65))) [[1; 2]; [3]] (calm u1)
      = (Ok ms, calm u2) ∧
    group_session_builder_create_session (witness_group 65) (calm u2) = (Ok m', calm u2) ∧
    skdm_serialized m' = Some data' ∧
    sender_key_distribution_message_deserialize data' (calm (witness_empty 9))
      = (Ok m', calm (witness_empty 9)) ∧
    group_session_builder_process_session (witness_group 65) m' (calm (witness_empty 9))
      = (Ok tt, calm uC') ∧
    in_group (view uC') (witness_group 65) 0 id (kp_public kp) None ck0 (Recv 2 []).
Proof.
  apply (group_session_shared (witness_empty 7) (witness_empty 8) (witness_empty 9)
    (witness_group 65) (witness_group 65) (witness_group 65) (SenderKeyRecord [])
    (SenderKeyRecord []) [[1; 2]; [3]]); [reflexivity..|].
  repeat constructor; by apply toy_group_fits.
Defined.

(** The state of a member who holds the chain of a fixed sender key. *)
Definition witness_sender_pair : ec_key_pair := pair_of (replicate 32 21).
Definition witness_sender_chain : sender_chain_key := SenderChainKey 0 (replicate 32 5).
Definition witness_member (seed : Z) (private_ : option ec_private_key) : mem :=
  (seed, set_sender_keys <[witness_group 65 := sender_record_bytes (SenderKeyRecord
     [sender_state_of (CP := mem_provider) 40 (kp_public witness_sender_pair) private_
        witness_sender_chain (Recv 0 [])])]> (witness_empty 0).2).

Lemma witness_member_in_group seed private_ : opt_all wf_sk private_ →
  in_group (CP := mem_provider) (witness_member seed private_).2 (witness_group 65) 0 40
    (kp_public witness_sender_pair) private_ witness_sender_chain (Recv 0 []).
Proof.
  intros Hp. eapply (in_group_added (CP := mem_provider) _ _ (SenderKeyRecord []));
    [apply storable_empty|split; lia|reflexivity|done|simpl; lia|lia|done].
Qed.

Lemma group_conversation_witness :
  let uA := witness_member 3 (Some (kp_private witness_sender_pair)) in
  let uB := witness_member 4 None in
  ∃ ms uA', mapM_list (group_cipher_encrypt (new_group_cipher (witness_group 65)))
      [[1]; [2]; [3]] (calm uA) = (Ok ms, calm uA') ∧ length ms = 3%nat ∧
    in_group (view uA') (witness_group 65) 0 40 (kp_public witness_sender_pair)
      (Some (kp_private witness_sender_pair)) witness_sender_chain (Recv 3 []) ∧
    ∀ ds, (∀ d, d ∈ ds → d ∈ zip (zip (seqZ 0 3) [[1]; [2]; [3]]) ms) →
      let run := recv_run (Recv 0 []) ((λ d, d.1.1) <$> ds) in
      ∃ uB', mapM_list (λ d : Z * bytes * sender_key_message,
          try (group_receive (witness_group 65) (skm_serialized d.2))) ds (calm uB)
        = (Ok (zip_with (λ d v, group_answer d.1.2 v) ds run.1), calm uB') ∧
        in_group (view uB') (witness_group 65) 0 40 (kp_public witness_sender_pair) None
          witness_sender_chain run.2.
Proof.
  apply (group_conversation (witness_member 3 (Some (kp_private witness_sender_pair)))
    (witness_member 4 None) (witness_group 65) (witness_group 65) 0 40 witness_sender_pair None
    witness_sender_chain (Recv 0 []) (Recv 0 []) [[1]; [2]; [3]]).
  - apply witness_member_in_group. by intros ? [= <-].
  - by apply witness_member_in_group.
  - apply pair_of_signs; [done|by repeat constructor].
  - unfold zlen. simpl. lia.
  - repeat constructor; by apply toy_group_fits.
Defined.
