(* ===== verification/GroupFrame.v ===== *)
(** What a failed group message leaves alone: as for sessions (Frame), nothing
    is written before the plaintext has been accepted. *)

From S2P Require Import Prelude Buffer Provider Hkdf Curve SessionState Protobuf ProtobufSpec.
From S2P Require Import Wire Protocol SessionSerial PreKeys SenderKey Store KeyHelper.
From S2P Require Import GroupCipher GroupKeys Group Frame.

Section Keys.
Context {U : Type} {CP : CryptoProvider U}.

Lemma keeps_crash_on_error {S A} (R : S → S → Prop) (m : M S A) :
  keeps R m → keeps R (crash_on_error m).
Proof. intros H s. specialize (H s). unfold crash_on_error. by destruct (m s) as [[a|e| |] s']. Qed.

Lemma keeps_sender_message_key_create it seed :
  keeps (@same_user U) (sender_message_key_create it seed).
Proof.
  unfold sender_message_key_create. apply keeps_bind; [apply _|keeps_solve|intros seed'].
  apply keeps_bind; [apply _|keeps_solve|intros _].
  apply keeps_bind; [apply _|apply keeps_crash_on_error; keeps_solve|]. keeps_solve.
Qed.
Lemma keeps_sender_chain_key_create it k : keeps (@same_user U) (sender_chain_key_create it k).
Proof. unfold sender_chain_key_create. keeps_solve. Qed.
Local Hint Resolve keeps_sender_message_key_create keeps_sender_chain_key_create : keeps.

Lemma keeps_create_message_key k : keeps (@same_user U) (sender_chain_key_create_message_key k).
Proof.
  unfold sender_chain_key_create_message_key, sender_chain_key_get_derivative. keeps_solve.
Qed.
Lemma keeps_sender_create_next k : keeps (@same_user U) (sender_chain_key_create_next k).
Proof. unfold sender_chain_key_create_next, sender_chain_key_get_derivative. keeps_solve. Qed.
Local Hint Resolve keeps_create_message_key keeps_sender_create_next : keeps.

Lemma keeps_read_sender_state m : keeps (@same_user U) (sender_key_state_deserialize_protobuf m).
Proof.
  unfold sender_key_state_deserialize_protobuf, sender_key_state_create. keeps_solve.
  apply keeps_with_obj, keeps_mapM; [apply _|].
  intros x. unfold read_sender_message_key, sender_key_state_add_sender_message_key. keeps_solve.
Qed.
Local Hint Resolve keeps_read_sender_state : keeps.

Lemma keeps_sender_record_deserialize d : keeps (@same_user U) (sender_key_record_deserialize d).
Proof. unfold sender_key_record_deserialize, sender_key_record_create. keeps_solve. Qed.
Lemma keeps_sender_record_serialize r : keeps (@same_user U) (sender_key_record_serialize r).
Proof.
  unfold sender_key_record_serialize, sender_key_state_serialize_prepare. keeps_solve.
Qed.

Lemma keeps_sender_key_loop fuel ck c :
  keeps (@same_user2 sender_key_state U) (sender_key_loop fuel ck c).
Proof.
  revert ck. induction fuel as [|fuel IH]; intros ck; [apply keeps_hang, _|].
  change (sender_key_loop (S fuel) ck c) with (if sck_iteration ck <? c then
    let* message_key := lift (sender_chain_key_create_message_key ck) in
    let* _ := sender_key_state_add_sender_message_key message_key in
    let* next_chain_key := lift (sender_chain_key_create_next ck) in
    sender_key_loop fuel next_chain_key c
  else ret ck : M (sender_key_state * world U) sender_chain_key).
  unfold sender_key_state_add_sender_message_key. keeps_solve; apply IH.
Qed.
Local Hint Resolve keeps_sender_key_loop : keeps.

Lemma keeps_get_sender_key c :
  keeps (@same_user2 sender_key_state U) (group_cipher_get_sender_key c).
Proof.
  unfold group_cipher_get_sender_key, sender_key_state_remove_sender_message_key. keeps_solve.
Qed.

Lemma keeps_on_sender_state {A} i (m : M (sender_key_state * world U) A) :
  keeps same_user2 m → keeps same_user2 (on_sender_state i m).
Proof.
  intros H [r w]. unfold on_sender_state. destruct (skr_states r !! i) as [s|]; [|done].
  specialize (H (s, w)). by destruct (m (s, w)) as [x [s' w']].
Qed.

Lemma keeps_verify_signature {C : Curve25519} m k :
  keeps (@same_user U) (sender_key_message_verify_signature m k).
Proof. unfold sender_key_message_verify_signature. keeps_solve. Qed.
Local Hint Resolve keeps_verify_signature keeps_get_sender_key keeps_on_sender_state : keeps.

Lemma keeps_group_decrypt_in {C : Curve25519} m :
  keeps (@same_user2 sender_key_record U) (group_cipher_decrypt_in m).
Proof.
  unfold group_cipher_decrypt_in, sender_key_record_get_sender_key_state_by_id. keeps_solve.
  apply keeps_on_sender_state. keeps_solve.
Qed.
End Keys.
#[export] Hint Resolve keeps_create_message_key keeps_sender_create_next
  keeps_sender_record_deserialize keeps_sender_record_serialize keeps_group_decrypt_in : keeps.

Section Handlers.
Context {U : Type} {CP : CryptoProvider U} {C : Curve25519} {ST : Stores U}
  {SL : StoreLaws CP ST}.

Lemma keeps_load_sender_key n : keeps same_view (signal_protocol_sender_key_load_key n).
Proof.
  unfold signal_protocol_sender_key_load_key, sender_key_record_create.
  apply keeps_bind; [apply _|apply keeps_view_read; intros u; by rewrite load_sender_key_ok|].
  pose proof (keeps_status (R := same_view (U := U))). keeps_solve.
Qed.

Lemma clean_store_sender_key n r : clean same_view (signal_protocol_sender_key_store_key n r).
Proof.
  unfold signal_protocol_sender_key_store_key. apply clean_bind; [apply _| |].
  - apply keeps_view, keeps_sender_record_serialize.
  - intros d [m u]. unfold app_call, bind. simpl.
    by destruct (store_sender_key_ok n d u) as (u' & -> & _).
Qed.

Lemma clean_remap {A} (f : Z → Z) (m : M (world U) A) :
  clean same_view m → clean same_view (remap_error f m).
Proof.
  intros H w. specialize (H w). unfold remap_error. by destruct (m w) as [[a|e| |] w'].
Qed.

Lemma keeps_group_encrypt_in p :
  keeps (@same_view2 _ _ _ _ sender_key_record) (group_cipher_encrypt_in p).
Proof.
  unfold group_cipher_encrypt_in, sender_key_record_get_sender_key_state.
  pose proof keeps_view_sender_key_message. keeps_solve.
  - apply keeps_view_lift. keeps_solve.
  - intros [r w]. unfold on_sender_state, put_obj. by destruct (skr_states r !! 0%nat).
Qed.

(** C23: a group operation that fails leaves no trace.  If [group_cipher_decrypt]
    does not return a plaintext, or [group_cipher_encrypt] no message, for
    whichever reason and whichever allocation failed, the stores are exactly as
    before; in particular no chain moved on and no saved key is lost.  A
    decryption callback is allowed, as long as it does not itself write to the
    stores. *)
Theorem failed_group_operation_harmless (cipher : group_cipher U) (m : sender_key_message)
    (p : bytes) (w : world U) :
  (∀ cb, gc_decrypt_callback cipher = Some cb → ∀ p, keeps same_view (cb 1 p)) →
  match group_cipher_decrypt cipher m w with
  | (Ok _, _) => True
  | (_, w') => view (w_user w') = view (w_user w)
  end ∧
  match group_cipher_encrypt cipher p w with
  | (Ok _, _) => True
  | (_, w') => view (w_user w') = view (w_user w)
  end.
Proof.
  intros Hcb. cut (clean same_view (group_cipher_decrypt cipher m) ∧
                   clean same_view (group_cipher_encrypt cipher p)).
  { intros [H1 H2]. specialize (H1 w). specialize (H2 w). unfold same_view in *.
    destruct (group_cipher_decrypt cipher m w) as [[?|?| |] ?],
      (group_cipher_encrypt cipher p w) as [[?|?| |] ?]; done. }
  split; apply clean_remap; (destruct (_ =? 1); [apply clean_fail, _|]);
    (apply clean_bind; [apply _|apply keeps_load_sender_key|]); intros r.
  - apply clean_bind; [apply _| |intros r'].
    { apply keeps_view, keeps_with_obj, keeps_group_decrypt_in. }
    apply clean_bind; [apply _| |intros _].
    { unfold group_cipher_decrypt_callback. pose proof (keeps_status (R := same_view (U := U))).
      destruct (gc_decrypt_callback cipher) as [cb|] eqn:E; [specialize (Hcb cb eq_refl)|];
        keeps_solve. }
    apply clean_last; [apply clean_store_sender_key|by intros; eexists _, _].
  - apply clean_bind; [apply _|apply keeps_view_with_obj, keeps_group_encrypt_in|intros r'].
    apply clean_last; [apply clean_store_sender_key|by intros; eexists _, _].
Qed.
End Handlers.

(** ** Witness *)

Import Toy MemStore.

(** A member without the sender key is told so. *)
Lemma failed_group_operation_harmless_witness :
  let u := witness_empty 4 in
  let cipher := new_group_cipher (witness_group 65) in
  let m := SenderKeyMessage_ 3 40 0 [1] (replicate 70 1) in
  (group_cipher_decrypt cipher m (calm u)).1 = Err SG_ERR_NO_SESSION ∧
  (group_cipher_encrypt cipher [1] (calm u)).1 = Err SG_ERR_NO_SESSION ∧
  match group_cipher_decrypt cipher m (calm u) with
  | (Ok _, _) => True
  | (_, w') => view (w_user w') = view u
  end ∧
  match group_cipher_encrypt cipher [1] (calm u) with
  | (Ok _, _) => True
  | (_, w') => view (w_user w') = view u
  end.
Proof.
  split; [vm_compute; reflexivity|]. split; [vm_compute; reflexivity|].
  apply (failed_group_operation_harmless (new_group_cipher (witness_group 65))). discriminate.
Defined.
