(* ===== verification/Order.v ===== *)
(** The orders on byte arrays that [memcmp] and [strcmp] decide, and the
    sorting of arrays with them ([utarray_sort], that is [qsort]). *)

From stdpp Require Import sorting.
From S2P Require Import Prelude Buffer Provider Curve.
Local Open Scope Z_scope.

(** [strcmp] of the strings before the terminating zero: the C standard fixes
    the sign of the result. *)
Fixpoint strcmp (s1 s2 : bytes) : Z :=
  match s1, s2 with
  | [], [] => 0
  | [], _ => -1
  | _, [] => 1
  | b1 :: s1, b2 :: s2 => if b1 <? b2 then -1 else if b2 <? b1 then 1 else strcmp s1 s2
  end.

(** The C standard leaves the order of elements that compare equal open; see
    [qsort_unique]. *)
Definition cmp_le {A} (cmp : A → A → Z) (x y : A) : Prop := cmp x y <= 0.
#[export] Instance cmp_le_dec {A} (cmp : A → A → Z) x y : Decision (cmp_le cmp x y).
Proof. unfold cmp_le. apply _. Defined.
Definition qsort {A} (cmp : A → A → Z) (l : list A) : list A := merge_sort (cmp_le cmp) l.

(** ** strcmp is a total order *)

Lemma strcmp_sym s1 s2 : strcmp s2 s1 = - strcmp s1 s2.
Proof.
  revert s2. induction s1 as [|b1 s1 IH]; intros [|b2 s2]; simpl; try done.
  destruct (Z.ltb_spec b1 b2), (Z.ltb_spec b2 b1); try done; lia.
Qed.

Lemma strcmp_eq s1 s2 : strcmp s1 s2 = 0 ↔ s1 = s2.
Proof.
  revert s2. induction s1 as [|b1 s1 IH]; intros [|b2 s2]; simpl; try done.
  destruct (Z.ltb_spec b1 b2), (Z.ltb_spec b2 b1); try (split; [lia|]; intros [= ]; lia).
  rewrite IH. split; [intros ->; f_equal; lia|by intros [= ]].
Qed.

Lemma strcmp_trans s1 s2 s3 : strcmp s1 s2 <= 0 → strcmp s2 s3 <= 0 → strcmp s1 s3 <= 0.
Proof.
  revert s2 s3. induction s1 as [|b1 s1 IH]; intros [|b2 s2] [|b3 s3]; simpl; try lia.
  destruct (Z.ltb_spec b1 b2), (Z.ltb_spec b2 b1), (Z.ltb_spec b2 b3), (Z.ltb_spec b3 b2),
    (Z.ltb_spec b1 b3), (Z.ltb_spec b3 b1); try lia. apply IH.
Qed.

Definition string_le (s1 s2 : bytes) : Prop := strcmp s1 s2 <= 0.
#[export] Instance string_le_trans : Transitive string_le.
Proof. intros ???. apply strcmp_trans. Qed.
#[export] Instance string_le_antisymm : AntiSymm (=) string_le.
Proof.
  intros s1 s2 H1 H2. unfold string_le in *. rewrite strcmp_sym in H2.
  apply strcmp_eq. lia.
Qed.

(** On arrays of its length [memcmp] decides the same order. *)
Lemma memcmp_strcmp n s1 s2 : length s1 = n → length s2 = n → memcmp n s1 s2 = strcmp s1 s2.
Proof.
  revert s1 s2. induction n as [|n IH]; intros [|b1 s1] [|b2 s2] H1 H2; simplify_eq/=; [done|].
  repeat case_match; try done. by apply IH.
Qed.

(** ** qsort *)

Lemma qsort_permutation {A} (cmp : A → A → Z) l : qsort cmp l ≡ₚ l.
Proof. apply merge_sort_Permutation. Qed.

(** [sorted f l]: the values [f] of [l] ascend. *)
Definition ascending {A} (f : A → bytes) (l : list A) : Prop := Sorted string_le (f <$> l).

Lemma sorted_ascending {A} (cmp : A → A → Z) (f : A → bytes) l :
  (∀ x y, x ∈ l → y ∈ l → cmp x y <= 0 → string_le (f x) (f y)) →
  Sorted (cmp_le cmp) l → ascending f l.
Proof.
  unfold ascending. intros H. induction 1 as [|x l Hs IH Hr]; [constructor|].
  rewrite fmap_cons. constructor.
  - apply IH. intros. apply H; set_solver.
  - destruct Hr as [|y l Hxy]; [constructor|]. rewrite fmap_cons. constructor.
    apply H; set_solver.
Qed.

Lemma qsort_ascending {A} (cmp : A → A → Z) (f : A → bytes) l :
  (∀ x y, cmp x y <= 0 ∨ cmp y x <= 0) →
  (∀ x y, x ∈ l → y ∈ l → cmp x y <= 0 → string_le (f x) (f y)) →
  ascending f (qsort cmp l).
Proof.
  intros Htot H. apply (sorted_ascending cmp).
  - intros x y Hx Hy. apply H; by rewrite <-(qsort_permutation cmp l).
  - apply Sorted_merge_sort. intros x y. apply Htot.
Qed.

(** As far as the values [f] go, there is only one result: a [qsort] that
    orders elements with equal values otherwise gives the same values, and so
    does sorting the elements in another order. *)
Lemma qsort_unique {A} (cmp : A → A → Z) (f : A → bytes) l l' :
  (∀ x y, cmp x y <= 0 ∨ cmp y x <= 0) →
  (∀ x y, x ∈ l → y ∈ l → cmp x y <= 0 → string_le (f x) (f y)) →
  l' ≡ₚ l → ascending f l' → f <$> l' = f <$> qsort cmp l.
Proof.
  intros Htot H Hp Hs. apply (Sorted_unique string_le); [done|by apply qsort_ascending|].
  by rewrite qsort_permutation, Hp.
Qed.
