(* ===== verification/Digest.v ===== *)
(** The SHA-512 callbacks of the application (signal_protocol.c, lines 492-518;
    the documentation of [signal_crypto_provider] in signal_protocol.h). *)

From S2P Require Import Prelude Provider.

Class DigestProvider : Type := {
  digest_ctx : Type;
  sha512_digest_init_func : res digest_ctx;
  sha512_digest_update_func : digest_ctx → bytes → res digest_ctx;
  (** the digest, and the context prepared for reuse *)
  sha512_digest_final_func : digest_ctx → res (bytes * digest_ctx)
}.

Section Wrappers.
Context {U : Type} {DP : DigestProvider}.

Definition signal_sha512_digest_init : M (world U) digest_ctx := of_res sha512_digest_init_func.
Definition signal_sha512_digest_update (c : digest_ctx) (data : bytes) : M (world U) digest_ctx :=
  of_res (sha512_digest_update_func c data).
Definition signal_sha512_digest_final (c : digest_ctx) : M (world U) (bytes * digest_ctx) :=
  of_res (sha512_digest_final_func c).
End Wrappers.

(** A context holds what was fed to it since it was last prepared. *)
Class DigestLaws (DP : DigestProvider) : Type := {
  sha512 : bytes → bytes;
  digest_abs : digest_ctx → bytes → Prop;
  digest_init_ok : ∃ c, sha512_digest_init_func = Ok c ∧ digest_abs c [];
  digest_update_ok c d x : digest_abs c d →
    ∃ c', sha512_digest_update_func c x = Ok c' ∧ digest_abs c' (d ++ x);
  digest_final_ok c d : digest_abs c d →
    ∃ c', sha512_digest_final_func c = Ok (sha512 d, c') ∧ digest_abs c' [];
  sha512_length d : length (sha512 d) = 64%nat;
  sha512_bytes d : wf_bytes (sha512 d)
}.

Section Runs.
Context {U : Type} {DP : DigestProvider} {DL : DigestLaws DP}.

Lemma digest_init_run (w : world U) : ∃ c, signal_sha512_digest_init w = (Ok c, w) ∧ digest_abs c [].
Proof.
  destruct digest_init_ok as (c & H & Ha). exists c. split; [|done].
  unfold signal_sha512_digest_init, of_res. by rewrite H.
Qed.

Lemma digest_update_run (w : world U) c d x : digest_abs c d →
  ∃ c', signal_sha512_digest_update c x w = (Ok c', w) ∧ digest_abs c' (d ++ x).
Proof.
  intros Hc. destruct (digest_update_ok c d x Hc) as (c' & H & Ha). exists c'. split; [|done].
  unfold signal_sha512_digest_update, of_res. by rewrite H.
Qed.

Lemma digest_final_run (w : world U) c d : digest_abs c d →
  ∃ c', signal_sha512_digest_final c w = (Ok (sha512 d, c'), w) ∧ digest_abs c' [].
Proof.
  intros Hc. destruct (digest_final_ok c d Hc) as (c' & H & Ha). exists c'. split; [|done].
  unfold signal_sha512_digest_final, of_res. by rewrite H.
Qed.
End Runs.

(** A digest for evaluation. *)
Module ToyDigest.
Definition toy_sha512 (d : bytes) : bytes := Toy.expand (Toy.digest [] d) 64.

#[export] Instance toy_digest : DigestProvider := {|
  digest_ctx := bytes;
  sha512_digest_init_func := Ok [];
  sha512_digest_update_func c x := Ok (c ++ x);
  sha512_digest_final_func c := Ok (toy_sha512 c, [])
|}.

#[export] Instance toy_digest_laws : DigestLaws toy_digest.
Proof.
  refine {| sha512 := toy_sha512; digest_abs c d := c = d;
            sha512_length d := Toy.expand_length _ _ |}.
  - by exists [].
  - intros c d x ->. by exists (d ++ x).
  - intros c d ->. by exists [].
  - intros d. unfold wf_bytes, toy_sha512, Toy.expand. apply Forall_fmap, Forall_true.
    intros i. apply Z.mod_pos_bound. done.
Defined.
End ToyDigest.
