(* ===== verification/KeyList.v ===== *)
(** Lists of public keys (curve.c, lines 385-511) on top of [UT_array]. *)

From S2P Require Import Prelude Buffer Provider Curve Order.

Abbreviation ec_public_key_list := (ut_array ec_public_key).

(** A list of pointers copied with [push_back] into a new array ([X_list_alloc]
    and [X_list_copy] of curve.c and device_consistency.c are the same code). *)
Section PointerLists.
Context {U A : Type}.

Definition pointer_list_alloc : M (world U) (option (ut_array A)) :=
  let* ok := malloc in
  if (ok : bool) then
    let* ok := malloc in
    ret (if (ok : bool) then Some (UtArray [] 0) else None)
  else ret None.

Definition pointer_list_copy (list : ut_array A) : M (world U) (option (ut_array A)) :=
  let* result_list := pointer_list_alloc in
  match result_list with
  | None => ret None
  | Some result_list =>
      let* r := try (with_obj result_list (
        let* _ := utarray_reserve (utarray_len list) in
        mapM_list utarray_push_back (ut_elems list))) in
      ret match r with inl r => Some r.2 | inr _ => None end
  end.

Definition utarray_sort (cmp : A → A → Z) (a : ut_array A) : ut_array A :=
  UtArray (qsort cmp (ut_elems a)) (ut_n a).
End PointerLists.

Section Defs.
Context {U : Type}.

Definition ec_public_key_list_alloc : M (world U) (option ec_public_key_list) :=
  pointer_list_alloc.
Definition ec_public_key_list_copy (list : ec_public_key_list)
    : M (world U) (option ec_public_key_list) :=
  pointer_list_copy list.
Definition ec_public_key_list_push_back (value : ec_public_key)
    : M (ec_public_key_list * world U) unit :=
  utarray_push_back value.
Definition ec_public_key_list_size (list : ec_public_key_list) : Z := utarray_len list.

(** The assertion fails the call. *)
Definition ec_public_key_list_at (list : ec_public_key_list) (index : Z)
    : M (world U) ec_public_key :=
  match ut_elems list !! Z.to_nat index with
  | Some value => ret value
  | None => abort
  end.

Definition ec_public_key_list_sort_comparator (key1 key2 : ec_public_key) : Z :=
  ec_public_key_memcmp (Some key1) (Some key2).
Definition ec_public_key_list_sort (list : ec_public_key_list) : ec_public_key_list :=
  utarray_sort ec_public_key_list_sort_comparator list.
End Defs.

(** ** Lemmas *)

Lemma push_all_calm {U A} (u : U) (l : list A) : ∀ a : ut_array A,
  ∃ a', mapM_list utarray_push_back l (a, calm u)
        = (Ok (replicate (length l) tt), (a', calm u)) ∧ ut_elems a' = ut_elems a ++ l.
Proof.
  induction l as [|x l IH]; intros a; [exists a; by rewrite app_nil_r|].
  assert (∃ n, utarray_push_back x (a, calm u)
    = (Ok tt, (UtArray (ut_elems a ++ [x]) n, calm u))) as [n Hn].
  { unfold utarray_push_back, utarray_reserve, bind. simpl.
    destruct (ut_n a <? utarray_len a + 1); eexists; reflexivity. }
  destruct (IH (UtArray (ut_elems a ++ [x]) n)) as (a' & Hr & He). exists a'.
  split; [|by rewrite He; simpl; rewrite <-app_assoc]. cbn [mapM_list length replicate].
  step Hn. step Hr. done.
Qed.

Lemma pointer_list_copy_calm {U A} (u : U) (a : ut_array A) :
  ∃ a', pointer_list_copy a (calm u) = (Ok (Some a'), calm u) ∧ ut_elems a' = ut_elems a.
Proof.
  assert (∃ n, utarray_reserve (utarray_len a) (UtArray [] 0, calm u)
    = (Ok tt, (UtArray ([] : list A) n, calm u))) as [n Hn].
  { unfold utarray_reserve, bind. simpl. destruct (0 <? _); eexists; reflexivity. }
  destruct (push_all_calm u (ut_elems a) (UtArray [] n)) as (a' & Hr & He).
  exists a'. split; [|done]. unfold pointer_list_copy.
  step_to (Some (UtArray [] 0)) (calm u) by done.
  step_to (inl (replicate (length (ut_elems a)) tt, a')) (calm u) by
    (unfold try, with_obj; rewrite (bind_ok _ _ _ _ _ Hn), Hr; done).
  done.
Qed.

Lemma key_comparator_total x y :
  ec_public_key_list_sort_comparator x y <= 0 ∨ ec_public_key_list_sort_comparator y x <= 0.
Proof.
  unfold ec_public_key_list_sort_comparator. cbn [ec_public_key_memcmp].
  pose proof (memcmp_sym 32 (pk_data x) (pk_data y)). pose proof (memcmp_sym 32 (pk_data y) (pk_data x)).
  lia.
Qed.

Lemma key_comparator_le x y : wf_pk x → wf_pk y →
  ec_public_key_list_sort_comparator x y <= 0 → string_le (pk_data x) (pk_data y).
Proof.
  intros Hx Hy. unfold ec_public_key_list_sort_comparator. cbn [ec_public_key_memcmp].
  by rewrite memcmp_strcmp.
Qed.

#[export] Instance pk_data_inj : Inj (=) (=) pk_data.
Proof. intros [d1] [d2] H. simpl in H. by subst. Qed.

(** The sorted keys do not depend on the order of the list. *)
Lemma sorted_keys_unique l l' : Forall wf_pk l → l' ≡ₚ l →
  qsort ec_public_key_list_sort_comparator l' = qsort ec_public_key_list_sort_comparator l.
Proof.
  intros Hl Hp. apply (inj (fmap (M := list) pk_data)). rewrite Forall_forall in Hl.
  apply qsort_unique; [apply key_comparator_total| | |].
  - intros. apply key_comparator_le; auto.
  - by rewrite qsort_permutation.
  - apply qsort_ascending; [apply key_comparator_total|].
    intros x y Hx Hy. apply key_comparator_le; apply Hl; by rewrite <-Hp.
Qed.
