(* ===== verification/Fingerprint.v ===== *)
(** Safety numbers (fingerprint.c): the displayable and the scannable
    fingerprint of a pair of identities.

    A C string is the list of its bytes before the terminating zero. *)

From S2P Require Import Prelude Buffer Provider Curve Vpool Ratcheting Protobuf ProtobufSpec Wire.
From S2P Require Import SessionSerial Order Digest KeyList.

Definition SG_ERR_FP_VERSION_MISMATCH : Z := -1200.
Definition SG_ERR_FP_IDENT_MISMATCH : Z := -1201.

Definition FINGERPRINT_VERSION : Z := 0.
Definition FINGERPRINT_LENGTH : Z := 30.

Record displayable_fingerprint : Type := DisplayableFingerprint {
  df_local_fingerprint : bytes; df_remote_fingerprint : bytes; df_display_text : bytes }.

Record scannable_fingerprint : Type := ScannableFingerprint {
  sf_version : Z;
  sf_local_stable_identifier : option bytes;
  sf_local_fingerprint : bytes;
  sf_remote_stable_identifier : option bytes;
  sf_remote_fingerprint : bytes }.

Record fingerprint : Type := Fingerprint {
  fp_displayable : displayable_fingerprint; fp_scannable : scannable_fingerprint }.

Record fingerprint_generator : Type := FingerprintGenerator {
  fg_iterations : Z; fg_scannable_version : Z }.

(** [str] with the terminator: what is left of it as a C string. *)
Fixpoint c_string (bs : bytes) : bytes :=
  match bs with
  | [] => []
  | b :: bs => if b =? 0 then [] else b :: c_string bs
  end.

(** [snprintf("%05d", n)] for a number below 100000. *)
Definition format_05d (n : Z) : bytes :=
  (λ d, 48 + (n / d) `mod` 10) <$> [10000; 1000; 100; 10; 1].

(** The five digits of the bytes [data[i .. i + 5)]. *)
Definition chunk_digits (data : bytes) (i : nat) : bytes :=
  let byte j := Z.land (nth (i + j) data 0) 255 in
  let chunk := Z.lor (Z.lor (Z.lor (Z.lor (Z.shiftl (byte 0%nat) 32) (Z.shiftl (byte 1%nat) 24))
    (Z.shiftl (byte 2%nat) 16)) (Z.shiftl (byte 3%nat) 8)) (byte 4%nat) in
  format_05d (chunk `mod` 100000).

Section Defs.
Context {U : Type} {DP : DigestProvider}.

Definition fingerprint_generator_create (iterations scannable_version : Z)
    : M (world U) fingerprint_generator :=
  if (scannable_version <? 0) || (1 <? scannable_version) then fail SG_ERR_INVAL
  else
    let* _ := alloc in
    ret (FingerprintGenerator iterations scannable_version).

(** The keys are appended to the pool one by one. *)
Fixpoint append_keys (vp : vpool) (keys : list ec_public_key) : M (world U) vpool :=
  match keys with
  | [] => ret vp
  | key :: keys =>
      let* buffer := ec_public_key_serialize (Some key) in
      let* vp := vpool_add vp buffer in
      append_keys vp keys
  end.

Definition fingerprint_generator_get_logical_key_bytes (unsorted_key_list : ec_public_key_list)
    : M (world U) bytes :=
  let* sorted_key_list := ec_public_key_list_copy unsorted_key_list in
  let* sorted_key_list := non_null sorted_key_list SG_ERR_NOMEM in
  let sorted_key_list := ec_public_key_list_sort sorted_key_list in
  let* vp := append_keys (vpool_init 1024 0) (ut_elems sorted_key_list) in
  let* buffer := signal_buffer_create (vp_data vp) in
  non_null buffer SG_ERR_NOMEM.

(** The [for] loop, [n] rounds before its end. *)
Fixpoint hash_rounds (n : nat) (digest_context : digest_ctx) (hash_buffer identity_buffer : bytes)
    : M (world U) bytes :=
  match n with
  | O => ret hash_buffer
  | S n =>
      let* digest_context := signal_sha512_digest_update digest_context hash_buffer in
      let* digest_context := signal_sha512_digest_update digest_context identity_buffer in
      let* r := signal_sha512_digest_final digest_context in
      hash_rounds n r.2 r.1 identity_buffer
  end.

Definition fingerprint_generator_get_fingerprint (generator : fingerprint_generator)
    (stable_identifier identity_buffer : bytes) : M (world U) bytes :=
  let* digest_context := signal_sha512_digest_init in
  let* hash_buffer :=
    signal_buffer_alloc (usize (2 + zlen identity_buffer + zlen stable_identifier)) in
  let* _ := non_null hash_buffer SG_ERR_NOMEM in
  let* hash_buffer := hash_rounds (Z.to_nat (fg_iterations generator)) digest_context
    ([0; FINGERPRINT_VERSION] ++ identity_buffer ++ stable_identifier) identity_buffer in
  if zlen hash_buffer <? FINGERPRINT_LENGTH then fail SG_ERR_UNKNOWN
  else ret hash_buffer.

Definition fingerprint_generator_create_display_string (fingerprint_buffer : bytes)
    : M (world U) bytes :=
  if zlen fingerprint_buffer <? FINGERPRINT_LENGTH then fail SG_ERR_UNKNOWN
  else
    let* _ := alloc in
    ret (mjoin (chunk_digits fingerprint_buffer <$> [0; 5; 10; 15; 20; 25]%nat)).

Definition displayable_fingerprint_create (local_fingerprint remote_fingerprint : bytes)
    : M (world U) displayable_fingerprint :=
  let* _ := alloc in
  let* _ := alloc in
  let* _ := alloc in
  let* _ := alloc in
  ret (DisplayableFingerprint local_fingerprint remote_fingerprint
    (if strcmp local_fingerprint remote_fingerprint <=? 0
     then local_fingerprint ++ remote_fingerprint
     else remote_fingerprint ++ local_fingerprint)).

(** The fingerprint is copied whole in version 0 and cut to 32 bytes in
    others; the identifiers are kept in version 0 only. *)
Definition scannable_fingerprint_create (version : Z) (local_stable_identifier : option bytes)
    (local_fingerprint : option bytes) (remote_stable_identifier : option bytes)
    (remote_fingerprint : option bytes) : M (world U) scannable_fingerprint :=
  let copy b := if version =? 0 then signal_buffer_copy b else signal_buffer_n_copy b 32 in
  let keep (id : option bytes) : M (world U) (option bytes) :=
    if version =? 0 then opt_mapM (λ s, let* _ := alloc in ret s) id else ret None in
  if (version =? 0) && (bool_decide (local_stable_identifier = None)
                        || bool_decide (remote_stable_identifier = None)) then fail SG_ERR_INVAL
  else
    match local_fingerprint, remote_fingerprint with
    | Some local_fingerprint, Some remote_fingerprint =>
        let* _ := alloc in
        let* local_id := keep local_stable_identifier in
        let* local_copy := copy local_fingerprint in
        let* local_copy := non_null local_copy SG_ERR_NOMEM in
        let* remote_id := keep remote_stable_identifier in
        let* remote_copy := copy remote_fingerprint in
        let* remote_copy := non_null remote_copy SG_ERR_NOMEM in
        ret (ScannableFingerprint version local_id local_copy remote_id remote_copy)
    | _, _ => fail SG_ERR_INVAL
    end.

Definition fingerprint_create (displayable : displayable_fingerprint)
    (scannable : scannable_fingerprint) : M (world U) fingerprint :=
  let* _ := alloc in
  ret (Fingerprint displayable scannable).

Definition fingerprint_generator_create_for_impl (generator : fingerprint_generator)
    (local_stable_identifier local_identity_buffer : bytes)
    (remote_stable_identifier remote_identity_buffer : bytes) : M (world U) fingerprint :=
  let* local_fingerprint_buffer := fingerprint_generator_get_fingerprint generator
    local_stable_identifier local_identity_buffer in
  let* remote_fingerprint_buffer := fingerprint_generator_get_fingerprint generator
    remote_stable_identifier remote_identity_buffer in
  let* displayable_local :=
    fingerprint_generator_create_display_string local_fingerprint_buffer in
  let* displayable_remote :=
    fingerprint_generator_create_display_string remote_fingerprint_buffer in
  let* displayable := displayable_fingerprint_create displayable_local displayable_remote in
  let* scannable :=
    (if fg_scannable_version generator =? 0 then
       scannable_fingerprint_create 0 (Some local_stable_identifier) (Some local_identity_buffer)
         (Some remote_stable_identifier) (Some remote_identity_buffer)
     else if fg_scannable_version generator =? 1 then
       scannable_fingerprint_create 1 None (Some local_fingerprint_buffer)
         None (Some remote_fingerprint_buffer)
     else fail SG_ERR_INVAL) in
  fingerprint_create displayable scannable.

Definition fingerprint_generator_create_for (generator : fingerprint_generator)
    (local_stable_identifier : bytes) (local_identity_key : option ec_public_key)
    (remote_stable_identifier : bytes) (remote_identity_key : option ec_public_key)
    : M (world U) fingerprint :=
  let* local_key_buffer := ec_public_key_serialize local_identity_key in
  let* remote_key_buffer := ec_public_key_serialize remote_identity_key in
  fingerprint_generator_create_for_impl generator local_stable_identifier local_key_buffer
    remote_stable_identifier remote_key_buffer.

Definition fingerprint_generator_create_for_list (generator : fingerprint_generator)
    (local_stable_identifier : bytes) (local_identity_key_list : ec_public_key_list)
    (remote_stable_identifier : bytes) (remote_identity_key_list : ec_public_key_list)
    : M (world U) fingerprint :=
  let* local_key_buffer := fingerprint_generator_get_logical_key_bytes local_identity_key_list in
  let* remote_key_buffer := fingerprint_generator_get_logical_key_bytes remote_identity_key_list in
  fingerprint_generator_create_for_impl generator local_stable_identifier local_key_buffer
    remote_stable_identifier remote_key_buffer.

(** One [LogicalFingerprint]. *)
Definition logical_fingerprint (version : Z) (stable_identifier : option bytes) (content : bytes)
    : pb_msg :=
  [[VBytes content]; if version =? 0 then opt_bytes stable_identifier else []].

Definition scannable_fingerprint_serialize (scannable : scannable_fingerprint)
    : M (world U) bytes :=
  pb_to_buffer CombinedFingerprints
    [[VNum (sf_version scannable)];
     [VMsg (logical_fingerprint (sf_version scannable) (sf_local_stable_identifier scannable)
              (sf_local_fingerprint scannable))];
     [VMsg (logical_fingerprint (sf_version scannable) (sf_remote_stable_identifier scannable)
              (sf_remote_fingerprint scannable))]].

Definition signal_protocol_str_deserialize_protobuf (data : bytes) : M (world U) (option bytes) :=
  let* ok := malloc in
  ret (if (ok : bool) then Some (c_string data) else None).

(** Identifier and content of one [LogicalFingerprint], each if present. *)
Definition read_logical_fingerprint (m : option pb_msg)
    : M (world U) (option bytes * option bytes) :=
  match m with
  | None => ret (None, None)
  | Some m =>
      let* id := opt_mapM (λ b,
        let* str := signal_protocol_str_deserialize_protobuf b in
        non_null str SG_ERR_NOMEM) (pb_bytes m 1) in
      let* content := opt_mapM (λ b,
        let* buffer := signal_buffer_create b in
        non_null buffer SG_ERR_NOMEM) (pb_bytes m 0) in
      ret (id, content)
  end.

Definition scannable_fingerprint_deserialize (data : bytes) : M (world U) scannable_fingerprint :=
  let* m := pb_unpack CombinedFingerprints data in
  let* m := non_null m SG_ERR_INVALID_PROTO_BUF in
  let version := default 0 (pb_num m 0) in
  let* local_ := read_logical_fingerprint (pb_sub m 1) in
  let* remote := read_logical_fingerprint (pb_sub m 2) in
  scannable_fingerprint_create version local_.1 local_.2 remote.1 remote.2.

(** Identifiers that were not set would be dereferenced. *)
Definition same_identifier (id1 id2 : option bytes) : M (world U) unit :=
  match id1, id2 with
  | Some id1, Some id2 =>
      if negb (strcmp id1 id2 =? 0) then fail SG_ERR_FP_IDENT_MISMATCH else ret tt
  | _, _ => abort
  end.

Definition scannable_fingerprint_compare (scannable other_scannable : scannable_fingerprint)
    : M (world U) Z :=
  if negb (sf_version other_scannable =? sf_version scannable) then fail SG_ERR_FP_VERSION_MISMATCH
  else
    let* _ :=
      (if sf_version scannable =? 0 then
         let* _ := same_identifier (sf_local_stable_identifier scannable)
           (sf_remote_stable_identifier other_scannable) in
         same_identifier (sf_remote_stable_identifier scannable)
           (sf_local_stable_identifier other_scannable)
       else ret tt) in
    if negb (signal_buffer_compare (Some (sf_local_fingerprint scannable))
               (Some (sf_remote_fingerprint other_scannable)) =? 0) then ret 0
    else if negb (signal_buffer_compare (Some (sf_remote_fingerprint scannable))
               (Some (sf_local_fingerprint other_scannable)) =? 0) then ret 0
    else ret 1.
End Defs.

(** ** Specification *)

Lemma c_string_id s : Forall (.≠ 0) s → c_string s = s.
Proof.
  induction 1 as [|b s Hb Hs IH]; [done|]. simpl. rewrite (proj2 (Z.eqb_neq _ _) Hb). by rewrite IH.
Qed.

Section Spec.
Context {U : Type} {DP : DigestProvider} {DL : DigestLaws DP}.

(** The iterated hash. *)
Fixpoint hashed (n : nat) (hash identity : bytes) : bytes :=
  match n with
  | O => hash
  | S n => hashed n (sha512 (hash ++ identity)) identity
  end.

Definition fingerprint_of (iterations : Z) (stable_identifier identity : bytes) : bytes :=
  hashed (Z.to_nat iterations) ([0; FINGERPRINT_VERSION] ++ identity ++ stable_identifier) identity.

Definition digits_of (fp : bytes) : bytes :=
  mjoin (chunk_digits fp <$> [0; 5; 10; 15; 20; 25]%nat).

(** The text both parties see. *)
Definition display_text (d1 d2 : bytes) : bytes :=
  if strcmp d1 d2 <=? 0 then d1 ++ d2 else d2 ++ d1.

Definition scannable_of (g : fingerprint_generator) (id1 key1 id2 key2 : bytes)
    : scannable_fingerprint :=
  if fg_scannable_version g =? 0 then ScannableFingerprint 0 (Some id1) key1 (Some id2) key2
  else ScannableFingerprint 1 None (take 32 (fingerprint_of (fg_iterations g) id1 key1))
         None (take 32 (fingerprint_of (fg_iterations g) id2 key2)).

Definition fingerprint_for (g : fingerprint_generator) (id1 key1 id2 key2 : bytes) : fingerprint :=
  let d1 := digits_of (fingerprint_of (fg_iterations g) id1 key1) in
  let d2 := digits_of (fingerprint_of (fg_iterations g) id2 key2) in
  Fingerprint (DisplayableFingerprint d1 d2 (display_text d1 d2)) (scannable_of g id1 key1 id2 key2).

(** A generator as applications use it, and inputs that fit. *)
Definition good_generator (g : fingerprint_generator) : Prop :=
  1 <= fg_iterations g ∧ (fg_scannable_version g = 0 ∨ fg_scannable_version g = 1).
Definition good_identity (id key : bytes) : Prop :=
  Forall (.≠ 0) id ∧ zlen id < 2 ^ 20 ∧ zlen key < 2 ^ 20.

(** ** Lemmas *)

Lemma hashed_length n h i : (0 < n)%nat → length (hashed n h i) = 64%nat.
Proof.
  revert h. induction n as [|n IH]; intros h H; [lia|]. simpl. destruct n as [|n].
  - apply sha512_length.
  - apply IH. lia.
Qed.

Lemma fingerprint_of_length n id key : 1 <= n → zlen (fingerprint_of n id key) = 64.
Proof. intros H. unfold fingerprint_of, zlen. rewrite hashed_length; lia. Qed.

Lemma hash_rounds_run (w : world U) n : ∀ c h i, digest_abs c [] →
  hash_rounds n c h i w = (Ok (hashed n h i), w).
Proof.
  induction n as [|n IH]; intros c h i Hc; [done|]. cbn [hash_rounds hashed].
  destruct (digest_update_run w c [] h Hc) as (c1 & H1 & Hc1). step H1.
  destruct (digest_update_run w c1 _ i Hc1) as (c2 & H2 & Hc2). step H2.
  destruct (digest_final_run w c2 _ Hc2) as (c3 & H3 & Hc3). step H3.
  by apply IH.
Qed.

Lemma get_fingerprint_calm (u : U) g id key : good_generator g → good_identity id key →
  fingerprint_generator_get_fingerprint g id key (calm u)
  = (Ok (fingerprint_of (fg_iterations g) id key), calm u).
Proof.
  intros [Hn _] (_ & Hid & Hkey). unfold fingerprint_generator_get_fingerprint.
  pose proof (zlen_nonneg id). pose proof (zlen_nonneg key).
  destruct (digest_init_run (calm u)) as (c & Hc & Ha). step Hc.
  rewrite usize_small by (unfold SIZE_MAX; lia).
  step (signal_buffer_alloc_calm u (2 + zlen key + zlen id) ltac:(unfold SIZE_MAX; lia)).
  step_goal _ _; [|reflexivity]. step (hash_rounds_run (calm u) _ c _ key Ha).
  fold (fingerprint_of (fg_iterations g) id key). by rewrite fingerprint_of_length.
Qed.

Lemma copy_calm (u : U) b : zlen b <= SIZE_MAX - 8 →
  signal_buffer_copy b (calm u) = (Ok (Some b), calm u).
Proof. intros H. by apply signal_buffer_create_calm. Qed.

Lemma n_copy_calm (u : U) b : 32 <= zlen b →
  signal_buffer_n_copy b 32 (calm u) = (Ok (Some (take 32 b)), calm u).
Proof.
  intros H. unfold signal_buffer_n_copy. rewrite Z.min_r by done. change (Z.to_nat 32) with 32%nat.
  apply signal_buffer_create_calm. unfold zlen in *. rewrite length_take. unfold SIZE_MAX. lia.
Qed.

Lemma scannable_create_0 (u : U) id1 key1 id2 key2 :
  zlen key1 <= SIZE_MAX - 8 → zlen key2 <= SIZE_MAX - 8 →
  scannable_fingerprint_create 0 (Some id1) (Some key1) (Some id2) (Some key2) (calm u)
  = (Ok (ScannableFingerprint 0 (Some id1) key1 (Some id2) key2), calm u).
Proof.
  intros H1 H2. unfold scannable_fingerprint_create. cbn [bool_decide].
  change (0 =? 0) with true. cbn iota. rewrite !bool_decide_eq_false_2 by done. cbn [andb orb].
  step (alloc_calm u). step_to (Some id1) (calm u) by done. step (copy_calm u key1 H1).
  step_to key1 (calm u) by done. step_to (Some id2) (calm u) by done.
  step (copy_calm u key2 H2). done.
Qed.

Lemma scannable_create_1 (u : U) id1 b1 id2 b2 : 32 <= zlen b1 → 32 <= zlen b2 →
  scannable_fingerprint_create 1 id1 (Some b1) id2 (Some b2) (calm u)
  = (Ok (ScannableFingerprint 1 None (take 32 b1) None (take 32 b2)), calm u).
Proof.
  intros H1 H2. unfold scannable_fingerprint_create. change (1 =? 0) with false. cbn iota.
  cbn [andb]. step (alloc_calm u). step_to None (calm u) by done. step (n_copy_calm u b1 H1).
  step_to (take 32 b1) (calm u) by done. step_to None (calm u) by done.
  step (n_copy_calm u b2 H2). done.
Qed.

Lemma create_for_impl_calm (u : U) g id1 key1 id2 key2 :
  good_generator g → good_identity id1 key1 → good_identity id2 key2 →
  fingerprint_generator_create_for_impl g id1 key1 id2 key2 (calm u)
  = (Ok (fingerprint_for g id1 key1 id2 key2), calm u).
Proof.
  intros Hg H1 H2. pose proof Hg as [Hn Hv]. pose proof H1 as (_ & _ & Hk1).
  pose proof H2 as (_ & _ & Hk2). unfold fingerprint_generator_create_for_impl.
  step (get_fingerprint_calm u g id1 key1 Hg H1). step (get_fingerprint_calm u g id2 key2 Hg H2).
  set (f1 := fingerprint_of _ id1 key1). set (f2 := fingerprint_of _ id2 key2).
  assert (zlen f1 = 64 ∧ zlen f2 = 64) as [Hf1 Hf2] by (by split; apply fingerprint_of_length).
  unfold fingerprint_generator_create_display_string. rewrite Hf1, Hf2.
  change (64 <? FINGERPRINT_LENGTH) with false. cbn iota.
  step_to (digits_of f1) (calm u) by done. step_to (digits_of f2) (calm u) by done.
  step_to (DisplayableFingerprint (digits_of f1) (digits_of f2)
    (display_text (digits_of f1) (digits_of f2))) (calm u) by done.
  step_goal (scannable_of g id1 key1 id2 key2) (calm u); [done|]. unfold scannable_of.
  destruct Hv as [Hv|Hv]; rewrite Hv.
  - apply scannable_create_0; unfold SIZE_MAX; lia.
  - change (1 =? 0) with false. change (1 =? 1) with true. cbn iota.
    fold f1 f2. apply scannable_create_1; lia.
Qed.

(** ** Scanning *)

(** The message a scannable fingerprint is written as. *)
Definition scannable_pb (s : scannable_fingerprint) : pb_msg :=
  [[VNum (sf_version s)];
   [VMsg (logical_fingerprint (sf_version s) (sf_local_stable_identifier s)
            (sf_local_fingerprint s))];
   [VMsg (logical_fingerprint (sf_version s) (sf_remote_stable_identifier s)
            (sf_remote_fingerprint s))]].

Definition short_id (o : option bytes) : Prop := ∀ s, o = Some s → Forall (.≠ 0) s ∧ zlen s < 2 ^ 20.

(** What [scannable_fingerprint_create] makes of short inputs. *)
Definition good_scannable (s : scannable_fingerprint) : Prop :=
  zlen (sf_local_fingerprint s) < 2 ^ 20 ∧ zlen (sf_remote_fingerprint s) < 2 ^ 20 ∧
  short_id (sf_local_stable_identifier s) ∧ short_id (sf_remote_stable_identifier s) ∧
  (sf_version s = 0 ∧ is_Some (sf_local_stable_identifier s) ∧
     is_Some (sf_remote_stable_identifier s) ∨
   sf_version s = 1 ∧ sf_local_stable_identifier s = None ∧ sf_remote_stable_identifier s = None ∧
     zlen (sf_local_fingerprint s) = 32 ∧ zlen (sf_remote_fingerprint s) = 32).

Lemma scannable_of_good g id1 key1 id2 key2 :
  good_generator g → good_identity id1 key1 → good_identity id2 key2 →
  good_scannable (scannable_of g id1 key1 id2 key2).
Proof.
  intros [Hn Hv] (Hz1 & Hl1 & Hk1) (Hz2 & Hl2 & Hk2). unfold scannable_of.
  destruct Hv as [->| ->]; simpl.
  - (split; [done|]); (split; [done|]); (split; [by intros ? [= <-]|]);
      (split; [by intros ? [= <-]|]). left. split_and!; [done|by eexists..].
  - pose proof (fingerprint_of_length (fg_iterations g) id1 key1 Hn).
    pose proof (fingerprint_of_length (fg_iterations g) id2 key2 Hn). unfold zlen in *.
    unfold good_scannable, zlen. simpl. rewrite !length_take.
    (split; [lia|]); (split; [lia|]); (split; [by intros ? [=]|]); (split; [by intros ? [=]|]).
    right. split_and!; try done; lia.
Qed.

Lemma weight_logical v o b : short_id o → zlen b < 2 ^ 20 →
  pb_weight 3 (logical_fingerprint v o b) < 2 ^ 22.
Proof.
  intros Ho Hb. unfold logical_fingerprint.
  assert (∀ i, o = Some i → zlen i < 2 ^ 20) as Hi by (intros i Hi; by apply Ho).
  destruct (v =? 0), o as [i|]; try specialize (Hi i eq_refl); cbn -[Z.pow zlen]; lia.
Qed.

Lemma scannable_pb_ok s : good_scannable s →
  wt_msg PB_DEPTH CombinedFingerprints (scannable_pb s) ∧ pb_weight PB_DEPTH (scannable_pb s) < 2 ^ 26.
Proof.
  intros (Hl & Hr & Hil & Hir & Hv).
  assert (∀ v o b, wt_msg 3 LogicalFingerprint (logical_fingerprint v o b)) as Hwt.
  { intros v o b. unfold logical_fingerprint. destruct (v =? 0); wt_fields. }
  split.
  - unfold scannable_pb, PB_DEPTH. wt_fields; [|apply Hwt..].
    assert (sf_version s = 0 ∨ sf_version s = 1) as [-> | ->] by naive_solver; split; lia.
  - pose proof (weight_logical (sf_version s) _ _ Hil Hl).
    pose proof (weight_logical (sf_version s) _ _ Hir Hr).
    set (a := pb_weight 3 _) in *. set (b := pb_weight 3 (logical_fingerprint _ (sf_remote_stable_identifier s) _)) in *.
    change (pb_weight PB_DEPTH (scannable_pb s)) with ((15 + 0) + ((10 + a + 0) + ((10 + b + 0) + 0))).
    lia.
Qed.

Lemma read_logical_calm (u : U) v o b : short_id o → zlen b < 2 ^ 20 → (v = 0 ∨ o = None) →
  read_logical_fingerprint (Some (logical_fingerprint v o b)) (calm u)
  = (Ok (o, Some b), calm u).
Proof.
  intros Ho Hb Hv. unfold read_logical_fingerprint.
  step_goal o (calm u).
  - step_goal (Some b) (calm u); [done|]. change (pb_bytes (logical_fingerprint v o b) 0) with (Some b).
    cbn [opt_mapM]. step_goal b (calm u); [done|].
    step (signal_buffer_create_calm u b ltac:(unfold SIZE_MAX; lia)). done.
  - destruct o as [i|].
    + destruct Hv as [->|?]; [|done]. change (pb_bytes (logical_fingerprint 0 (Some i) b) 1) with (Some i).
      cbn [opt_mapM]. step_goal i (calm u); [done|].
      step_to (Some i) (calm u) by (unfold signal_protocol_str_deserialize_protobuf;
        step_to true (calm u) by done; rewrite c_string_id; [done|by destruct (Ho i eq_refl)]).
      done.
    + assert (pb_bytes (logical_fingerprint v None b) 1 = None) as ->; [|done].
      unfold logical_fingerprint. by destruct (v =? 0).
Qed.

Lemma scannable_roundtrip (u u' : U) s : good_scannable s →
  scannable_fingerprint_serialize s (calm u) = (Ok (pb_pack CombinedFingerprints (scannable_pb s)), calm u) ∧
  scannable_fingerprint_deserialize (pb_pack CombinedFingerprints (scannable_pb s)) (calm u')
  = (Ok s, calm u').
Proof.
  intros Hs. destruct (scannable_pb_ok s Hs) as [Hwt Hw].
  destruct (pb_roundtrip_weight u' _ _ Hwt Hw) as (_ & _ & Hun).
  destruct Hs as (Hl & Hr & Hil & Hir & Hv). split; [by apply pb_to_buffer_calm|].
  unfold scannable_fingerprint_deserialize. step Hun. step_to (scannable_pb s) (calm u') by done.
  change (default 0 (pb_num (scannable_pb s) 0)) with (sf_version s).
  change (pb_sub (scannable_pb s) 1) with (Some (logical_fingerprint (sf_version s)
    (sf_local_stable_identifier s) (sf_local_fingerprint s))).
  change (pb_sub (scannable_pb s) 2) with (Some (logical_fingerprint (sf_version s)
    (sf_remote_stable_identifier s) (sf_remote_fingerprint s))).
  step (read_logical_calm u' (sf_version s) _ _ Hil Hl ltac:(naive_solver)).
  step (read_logical_calm u' (sf_version s) _ _ Hir Hr ltac:(naive_solver)).
  destruct s as [v lid lf rid rf]. cbn in *.
  destruct Hv as [(-> & [? ->] & [? ->])|(-> & -> & -> & Hll & Hlr)].
  - apply scannable_create_0; unfold SIZE_MAX; lia.
  - rewrite scannable_create_1 by lia. unfold zlen in *. rewrite !take_ge by lia. done.
Qed.

Lemma signal_buffer_compare_zero a b : signal_buffer_compare (Some a) (Some b) = 0 ↔ a = b.
Proof.
  cbn [signal_buffer_compare]. unfold zlen.
  destruct (Z.ltb_spec (Z.of_nat (length a)) (Z.of_nat (length b))) as [H|H].
  { split; [done|]. intros ->. lia. }
  destruct (Z.ltb_spec (Z.of_nat (length b)) (Z.of_nat (length a))) as [H'|H'].
  { split; [done|]. intros ->. lia. }
  apply memcmp_eq_iff; lia.
Qed.

(** The two parties hold the same key for a name, as far as the version of the
    scannable fingerprint tells. *)
Definition agrees (g : fingerprint_generator) (id key key' : bytes) : Prop :=
  if fg_scannable_version g =? 0 then key = key'
  else take 32 (fingerprint_of (fg_iterations g) id key)
       = take 32 (fingerprint_of (fg_iterations g) id key').

Lemma compare_exact (w : world U) g idA keyA keyA' idB keyB keyB' : good_generator g →
  ∃ r, scannable_fingerprint_compare (scannable_of g idB keyB idA keyA')
      (scannable_of g idA keyA idB keyB') w = (Ok r, w) ∧ (r = 0 ∨ r = 1) ∧
    (r = 1 ↔ agrees g idA keyA keyA' ∧ agrees g idB keyB keyB').
Proof.
  intros [_ Hv].
  assert (∀ a b c d : bytes, ∃ r,
    (if negb (signal_buffer_compare (Some a) (Some b) =? 0) then ret 0
     else if negb (signal_buffer_compare (Some c) (Some d) =? 0) then ret 0 else ret 1) w
    = (Ok r, w) ∧ (r = 0 ∨ r = 1) ∧ (r = 1 ↔ d = c ∧ a = b)) as Hfp.
  { intros a b c d. pose proof (signal_buffer_compare_zero a b) as H1.
    pose proof (signal_buffer_compare_zero c d) as H2.
    destruct (Z.eqb_spec (signal_buffer_compare (Some a) (Some b)) 0) as [E1|E1];
      [destruct (Z.eqb_spec (signal_buffer_compare (Some c) (Some d)) 0) as [E2|E2]|];
      eexists; (split; [reflexivity|]); (split; [auto|]); naive_solver lia. }
  unfold agrees, scannable_of. destruct Hv as [-> | ->].
  - change (0 =? 0) with true. cbn iota. unfold scannable_fingerprint_compare.
    cbn [sf_version sf_local_stable_identifier sf_remote_stable_identifier sf_local_fingerprint
      sf_remote_fingerprint]. change (0 =? 0) with true. cbn [negb].
    step_goal tt w; [apply Hfp|]. unfold same_identifier.
    rewrite !(proj2 (strcmp_eq _ _) eq_refl). done.
  - change (1 =? 0) with false. cbn iota. unfold scannable_fingerprint_compare.
    cbn [sf_version sf_local_fingerprint sf_remote_fingerprint].
    change (1 =? 1) with true. change (1 =? 0) with false. cbn [negb].
    step_goal tt w; [apply Hfp|done].
Qed.

(** ** The text *)

Lemma display_text_sym d1 d2 : display_text d1 d2 = display_text d2 d1.
Proof.
  unfold display_text. pose proof (strcmp_sym d1 d2) as Hs. pose proof (strcmp_eq d1 d2) as He.
  destruct (Z.leb_spec (strcmp d1 d2) 0), (Z.leb_spec (strcmp d2 d1) 0); try done; [|lia].
  assert (d1 = d2) as -> by (apply He; lia). done.
Qed.

Definition is_digit (b : Z) : Prop := 48 <= b <= 57.

Lemma digits_of_digits fp : Forall is_digit (digits_of fp) ∧ zlen (digits_of fp) = 30.
Proof.
  split; [|done]. unfold digits_of. apply Forall_join, Forall_fmap, Forall_true. intros i.
  unfold compose, chunk_digits, format_05d. apply Forall_fmap, Forall_true. intros d.
  unfold compose, is_digit. pose proof (Z.mod_pos_bound
    ((Z.lor (Z.lor (Z.lor (Z.lor (Z.shiftl (Z.land (nth (i + 0) fp 0) 255) 32)
      (Z.shiftl (Z.land (nth (i + 1) fp 0) 255) 24)) (Z.shiftl (Z.land (nth (i + 2) fp 0) 255) 16))
      (Z.shiftl (Z.land (nth (i + 3) fp 0) 255) 8)) (Z.land (nth (i + 4) fp 0) 255)
      `mod` 100000) / d) 10 ltac:(done)). lia.
Qed.

Lemma display_text_digits f1 f2 :
  Forall is_digit (display_text (digits_of f1) (digits_of f2)) ∧
  zlen (display_text (digits_of f1) (digits_of f2)) = 60.
Proof.
  destruct (digits_of_digits f1) as [H1 L1], (digits_of_digits f2) as [H2 L2].
  unfold display_text. destruct (_ <=? 0); (split; [by apply Forall_app|rewrite zlen_app; lia]).
Qed.

(** ** Key lists *)

Definition list_bytes (keys : list ec_public_key) : bytes :=
  mjoin (pk_pb <$> qsort ec_public_key_list_sort_comparator keys).

Lemma append_keys_calm (u : U) keys : ∀ vp, Forall wf_pk keys → small_pool vp →
  vp_off vp + 33 * zlen keys <= 2 ^ 40 →
  ∃ vp', append_keys vp keys (calm u) = (Ok vp', calm u) ∧
    vp_data vp' = vp_data vp ++ mjoin (pk_pb <$> keys).
Proof.
  induction keys as [|k keys IH]; intros vp Hk Hp Hb.
  { exists vp. split; [done|]. by rewrite app_nil_r. }
  apply Forall_cons in Hk as [Hk Hks]. rewrite zlen_cons in Hb. pose proof (zlen_nonneg keys).
  assert (zlen (pk_pb k) = 33) as Hl by (by apply pk_pb_len).
  destruct (vpool_add_calm u vp (pk_pb k) Hp ltac:(lia)) as (vp1 & Hr & Hp1 & Hd1).
  destruct (IH vp1 Hks Hp1) as (vp2 & Hr2 & Hd2).
  { unfold vp_off in *. rewrite Hd1, zlen_app. lia. }
  exists vp2. split.
  - cbn [append_keys]. step (ec_public_key_serialize_calm u k Hk). step Hr. done.
  - by rewrite Hd2, Hd1, <-app_assoc.
Qed.

Lemma list_bytes_length keys : Forall wf_pk keys → zlen (list_bytes keys) = 33 * zlen keys.
Proof.
  intros Hk. unfold list_bytes. rewrite <-(qsort_permutation ec_public_key_list_sort_comparator keys)
    in Hk. transitivity (33 * zlen (qsort ec_public_key_list_sort_comparator keys)).
  - induction Hk as [|k l Hk Hl IH]; [done|]. rewrite fmap_cons.
    change (mjoin (pk_pb k :: (pk_pb <$> l))) with (pk_pb k ++ mjoin (pk_pb <$> l)).
    rewrite zlen_app, zlen_cons, IH, pk_pb_len by done. lia.
  - unfold zlen. by rewrite (Permutation_length (qsort_permutation _ keys)).
Qed.

Lemma logical_key_bytes_calm (u : U) (a : ec_public_key_list) :
  Forall wf_pk (ut_elems a) → 33 * zlen (ut_elems a) < 2 ^ 20 →
  fingerprint_generator_get_logical_key_bytes a (calm u) = (Ok (list_bytes (ut_elems a)), calm u).
Proof.
  intros Hk Hn. destruct (pointer_list_copy_calm u a) as (a' & Hc & He).
  unfold fingerprint_generator_get_logical_key_bytes. step Hc. step_to a' (calm u) by done.
  set (keys := qsort ec_public_key_list_sort_comparator (ut_elems a)).
  assert (ut_elems (ec_public_key_list_sort a') = keys) as -> by (unfold keys; by rewrite <-He).
  pose proof (list_bytes_length _ Hk) as Hlen.
  assert (Forall wf_pk keys) as Hk' by (unfold keys; by rewrite qsort_permutation).
  assert (zlen keys = zlen (ut_elems a)) as Hz
    by (unfold zlen, keys; by rewrite (Permutation_length (qsort_permutation _ _))).
  destruct (append_keys_calm u keys (vpool_init 1024 0) Hk') as (vp & Hr & Hd).
  { split; [|done]. by apply vpool_init_inv. }
  { unfold vp_off. cbn [vp_data vpool_init]. rewrite Hz. change (zlen []) with 0. lia. }
  step Hr. rewrite Hd. change (vp_data (vpool_init 1024 0) ++ mjoin (pk_pb <$> keys))
    with (list_bytes (ut_elems a)).
  step (signal_buffer_create_calm u (list_bytes (ut_elems a)) ltac:(unfold SIZE_MAX; lia)). done.
Qed.

Lemma list_bytes_unique l l' : Forall wf_pk l → l' ≡ₚ l → list_bytes l' = list_bytes l.
Proof. intros Hl Hp. unfold list_bytes. by rewrite (sorted_keys_unique l l' Hl Hp). Qed.

(** ** Claims *)

(** C34: scanning tells whether the identities agree.  Alice and Bob each make a
    fingerprint from their own identity and the key they hold for the other;
    Alice's, serialized and read by Bob, compares equal to his exactly when
    each holds the other's key (in version 1: a key with the same truncated
    hash); no other result than 0 and 1 is possible. *)
Theorem fingerprint_scan_exact (uA uB : U) (g : fingerprint_generator) (idA idB : bytes)
    (kA kA' kB kB' : ec_public_key) :
  good_generator g → Forall (.≠ 0) idA → Forall (.≠ 0) idB → zlen idA < 2 ^ 20 →
  zlen idB < 2 ^ 20 → wf_pk kA → wf_pk kA' → wf_pk kB → wf_pk kB' →
  ∃ fA fB data r,
    fingerprint_generator_create_for g idA (Some kA) idB (Some kB') (calm uA) = (Ok fA, calm uA) ∧
    fingerprint_generator_create_for g idB (Some kB) idA (Some kA') (calm uB) = (Ok fB, calm uB) ∧
    scannable_fingerprint_serialize (fp_scannable fA) (calm uA) = (Ok data, calm uA) ∧
    scannable_fingerprint_deserialize data (calm uB) = (Ok (fp_scannable fA), calm uB) ∧
    scannable_fingerprint_compare (fp_scannable fB) (fp_scannable fA) (calm uB) = (Ok r, calm uB) ∧
    (r = 0 ∨ r = 1) ∧
    (r = 1 ↔ agrees g idA (pk_pb kA) (pk_pb kA') ∧ agrees g idB (pk_pb kB) (pk_pb kB')).
Proof.
  intros Hg HzA HzB HlA HlB HkA HkA' HkB HkB'.
  assert (∀ id k, Forall (.≠ 0) id → zlen id < 2 ^ 20 → wf_pk k → good_identity id (pk_pb k)) as Hid.
  { intros id k Hz Hl Hk. split_and!; try done. by rewrite pk_pb_len. }
  assert (∀ (u : U) id1 k1 id2 k2, wf_pk k1 → wf_pk k2 → good_identity id1 (pk_pb k1) →
    good_identity id2 (pk_pb k2) →
    fingerprint_generator_create_for g id1 (Some k1) id2 (Some k2) (calm u)
    = (Ok (fingerprint_for g id1 (pk_pb k1) id2 (pk_pb k2)), calm u)) as Hfor.
  { intros u id1 k1 id2 k2 H1 H2 G1 G2. unfold fingerprint_generator_create_for.
    step (ec_public_key_serialize_calm u k1 H1). step (ec_public_key_serialize_calm u k2 H2).
    by apply create_for_impl_calm. }
  destruct (scannable_roundtrip uA uB (scannable_of g idA (pk_pb kA) idB (pk_pb kB')))
    as [Hser Hdes]; [by apply scannable_of_good; auto|].
  destruct (compare_exact (calm uB) g idA (pk_pb kA) (pk_pb kA') idB (pk_pb kB) (pk_pb kB') Hg)
    as (r & Hr & H01 & Hiff).
  eexists _, _, _, r. split_and!; [by apply Hfor; auto|by apply Hfor; auto|exact Hser|exact Hdes|
    exact Hr|done|done].
Qed.

(** two devices agree.  When two parties list the same identity keys, in
    whichever order, both see the same text, 60 decimal digits, and the
    serialized fingerprint of one, scanned by the other, compares equal. *)
Theorem fingerprint_lists_agree (uA uB : U) (g : fingerprint_generator) (idA idB : bytes)
    (lA lA' lB lB' : ec_public_key_list) :
  good_generator g → Forall (.≠ 0) idA → Forall (.≠ 0) idB → zlen idA < 2 ^ 20 →
  zlen idB < 2 ^ 20 → Forall wf_pk (ut_elems lA) → Forall wf_pk (ut_elems lB) →
  33 * zlen (ut_elems lA) < 2 ^ 20 → 33 * zlen (ut_elems lB) < 2 ^ 20 →
  ut_elems lA' ≡ₚ ut_elems lA → ut_elems lB' ≡ₚ ut_elems lB →
  ∃ fA fB data,
    fingerprint_generator_create_for_list g idA lA idB lB' (calm uA) = (Ok fA, calm uA) ∧
    fingerprint_generator_create_for_list g idB lB idA lA' (calm uB) = (Ok fB, calm uB) ∧
    df_display_text (fp_displayable fA) = df_display_text (fp_displayable fB) ∧
    Forall is_digit (df_display_text (fp_displayable fA)) ∧
    zlen (df_display_text (fp_displayable fA)) = 60 ∧
    scannable_fingerprint_serialize (fp_scannable fA) (calm uA) = (Ok data, calm uA) ∧
    scannable_fingerprint_deserialize data (calm uB) = (Ok (fp_scannable fA), calm uB) ∧
    scannable_fingerprint_compare (fp_scannable fB) (fp_scannable fA) (calm uB) = (Ok 1, calm uB).
Proof.
  intros Hg HzA HzB HlA HlB HkA HkB HnA HnB HpA HpB.
  assert (good_identity idA (list_bytes (ut_elems lA))) as HA
    by (split_and!; try done; by rewrite list_bytes_length).
  assert (good_identity idB (list_bytes (ut_elems lB))) as HB
    by (split_and!; try done; by rewrite list_bytes_length).
  assert (∀ l l' : ec_public_key_list, ut_elems l' ≡ₚ ut_elems l → Forall wf_pk (ut_elems l) →
    33 * zlen (ut_elems l) < 2 ^ 20 → ∀ u : U,
    fingerprint_generator_get_logical_key_bytes l' (calm u)
    = (Ok (list_bytes (ut_elems l)), calm u)) as Hb.
  { intros l l' Hp Hk Hn u. rewrite logical_key_bytes_calm.
    - by rewrite (list_bytes_unique _ _ Hk Hp).
    - by rewrite Hp.
    - unfold zlen in *. by rewrite Hp. }
  destruct (scannable_roundtrip uA uB (scannable_of g idA (list_bytes (ut_elems lA)) idB
    (list_bytes (ut_elems lB)))) as [Hser Hdes]; [by apply scannable_of_good|].
  destruct (compare_exact (calm uB) g idA (list_bytes (ut_elems lA)) (list_bytes (ut_elems lA))
    idB (list_bytes (ut_elems lB)) (list_bytes (ut_elems lB)) Hg) as (r & Hr & _ & Hiff).
  assert (r = 1) as -> by (apply Hiff; unfold agrees; by destruct (_ =? 0)).
  exists (fingerprint_for g idA (list_bytes (ut_elems lA)) idB (list_bytes (ut_elems lB))),
    (fingerprint_for g idB (list_bytes (ut_elems lB)) idA (list_bytes (ut_elems lA))).
  eexists. split_and!; [..|apply display_text_sym|apply display_text_digits|
    apply display_text_digits|exact Hser|exact Hdes|exact Hr];
    unfold fingerprint_generator_create_for_list.
  - step (Hb lA lA ltac:(done) HkA HnA). step (Hb lB lB' HpB HkB HnB). by apply create_for_impl_calm.
  - step (Hb lB lB ltac:(done) HkB HnB). step (Hb lA lA' HpA HkA HnA). by apply create_for_impl_calm.
Qed.
End Spec.

(** ** Witnesses *)

Import Toy ToyDigest.

Definition witness_id_a : bytes := [43; 49; 52].
Definition witness_id_b : bytes := [43; 52; 52; 55].
Definition witness_fp_key (b : Z) : ec_public_key := EcPublicKey (replicate 32 b).

(** Bob holds another key for Alice. *)
Lemma fingerprint_scan_exact_witness :
  ∃ fA fB data r,
    fingerprint_generator_create_for (FingerprintGenerator 3 0) witness_id_a
      (Some (witness_fp_key 1)) witness_id_b (Some (witness_fp_key 2)) (calm 0) = (Ok fA, calm 0) ∧
    fingerprint_generator_create_for (FingerprintGenerator 3 0) witness_id_b
      (Some (witness_fp_key 2)) witness_id_a (Some (witness_fp_key 3)) (calm 5) = (Ok fB, calm 5) ∧
    scannable_fingerprint_serialize (fp_scannable fA) (calm 0) = (Ok data, calm 0) ∧
    scannable_fingerprint_deserialize data (calm 5) = (Ok (fp_scannable fA), calm 5) ∧
    scannable_fingerprint_compare (fp_scannable fB) (fp_scannable fA) (calm 5) = (Ok r, calm 5) ∧
    (r = 0 ∨ r = 1) ∧
    (r = 1 ↔
      agrees (FingerprintGenerator 3 0) witness_id_a (pk_pb (witness_fp_key 1))
        (pk_pb (witness_fp_key 3)) ∧
      agrees (FingerprintGenerator 3 0) witness_id_b (pk_pb (witness_fp_key 2))
        (pk_pb (witness_fp_key 2))).
Proof.
  apply fingerprint_scan_exact; try reflexivity; [split; [simpl; lia|by left]| |];
    repeat constructor; lia.
Defined.

Lemma fingerprint_lists_agree_witness :
  let l1 := UtArray [witness_fp_key 7; witness_fp_key 4] 8 in
  let l1' := UtArray [witness_fp_key 4; witness_fp_key 7] 8 in
  let l2 := UtArray [witness_fp_key 9] 8 in
  ∃ fA fB data,
    fingerprint_generator_create_for_list (FingerprintGenerator 3 1) witness_id_a l1 witness_id_b l2
      (calm 0) = (Ok fA, calm 0) ∧
    fingerprint_generator_create_for_list (FingerprintGenerator 3 1) witness_id_b l2 witness_id_a l1'
      (calm 5) = (Ok fB, calm 5) ∧
    df_display_text (fp_displayable fA) = df_display_text (fp_displayable fB) ∧
    Forall is_digit (df_display_text (fp_displayable fA)) ∧
    zlen (df_display_text (fp_displayable fA)) = 60 ∧
    scannable_fingerprint_serialize (fp_scannable fA) (calm 0) = (Ok data, calm 0) ∧
    scannable_fingerprint_deserialize data (calm 5) = (Ok (fp_scannable fA), calm 5) ∧
    scannable_fingerprint_compare (fp_scannable fB) (fp_scannable fA) (calm 5) = (Ok 1, calm 5).
Proof.
  apply (fingerprint_lists_agree 0 5 (FingerprintGenerator 3 1) witness_id_a witness_id_b
    (UtArray [witness_fp_key 7; witness_fp_key 4] 8) (UtArray [witness_fp_key 4; witness_fp_key 7] 8)
    (UtArray [witness_fp_key 9] 8) (UtArray [witness_fp_key 9] 8)); try reflexivity.
  - split; [simpl; lia|by right].
  - repeat constructor; lia.
  - repeat constructor; lia.
  - repeat constructor.
  - repeat constructor.
  - apply Permutation_swap.
Defined.
