(* ===== verification/Consistency.v ===== *)
(** Device consistency (device_consistency.c): the commitment to a set of
    identity keys, the signed messages about it and the code the devices
    compare; with the VRF signatures of curve.c (lines 587-664). *)

From stdpp Require Import strings.
From S2P Require Import Prelude Buffer Provider Curve Protobuf ProtobufSpec Wire SessionSerial.
From S2P Require Import Order Digest KeyList Fingerprint.
Local Open Scope Z_scope.

Definition VRF_SIGNATURE_LEN : Z := 96.
Definition VRF_VERIFY_LEN : Z := 32.
Definition CODE_VERSION : Z := 0.
Definition commitment_version : bytes :=
  Eval vm_compute in str_bytes "DeviceConsistencyCommitment_V0".

(** The entry points of curve25519/ed25519/additions/generalized. *)
Class Xveddsa : Type := {
  (** private key, message, random: the returned [int] and the signature *)
  generalized_xveddsa_25519_sign : bytes → bytes → bytes → Z * bytes;
  (** signature, public key, message: the returned [int] and the VRF output *)
  generalized_xveddsa_25519_verify : bytes → bytes → bytes → Z * bytes
}.

Record device_consistency_signature : Type := ConsistencySignature {
  dcs_signature : bytes; dcs_vrf_output : bytes }.
Record device_consistency_commitment : Type := ConsistencyCommitment {
  dcc_generation : Z; dcc_serialized : bytes }.
Record device_consistency_message : Type := ConsistencyMessage {
  dcm_signature : device_consistency_signature; dcm_generation : Z; dcm_serialized : bytes }.
Abbreviation device_consistency_signature_list := (ut_array device_consistency_signature).

Section Defs.
Context {U : Type} {CP : CryptoProvider U} {DP : DigestProvider} {X : Xveddsa}.

(** ** curve.c *)

Definition curve_calculate_vrf_signature (signing_key : ec_private_key) (message_data : bytes)
    : M (world U) bytes :=
  let* random_data := signal_crypto_random 64 in
  let* buffer := signal_buffer_alloc VRF_SIGNATURE_LEN in
  let* _ := non_null buffer SG_ERR_NOMEM in
  let '(result, signature) :=
    generalized_xveddsa_25519_sign (sk_data signing_key) message_data random_data in
  if negb (result =? 0) then fail SG_ERR_UNKNOWN else ret signature.

Definition curve_verify_vrf_signature (signing_key : option ec_public_key)
    (message_data signature_data : bytes) : M (world U) bytes :=
  let* signing_key := non_null signing_key SG_ERR_INVAL in
  if negb (zlen signature_data =? VRF_SIGNATURE_LEN) then fail SG_ERR_VRF_SIG_VERIF_FAILED
  else
    let* buffer := signal_buffer_alloc VRF_VERIFY_LEN in
    let* _ := non_null buffer SG_ERR_NOMEM in
    let '(result, vrf_output) :=
      generalized_xveddsa_25519_verify signature_data (pk_data signing_key) message_data in
    if negb (result =? 0) then fail SG_ERR_VRF_SIG_VERIF_FAILED else ret vrf_output.

(** ** device_consistency.c *)

Definition device_consistency_signature_create (signature_data vrf_output_data : bytes)
    : M (world U) device_consistency_signature :=
  let* _ := alloc in
  let* signature := signal_buffer_create signature_data in
  let* signature := non_null signature SG_ERR_NOMEM in
  let* vrf_output := signal_buffer_create vrf_output_data in
  let* vrf_output := non_null vrf_output SG_ERR_NOMEM in
  ret (ConsistencySignature signature vrf_output).

(** The keys of the list fed to the digest one by one. *)
Fixpoint digest_keys (digest_context : digest_ctx) (keys : list ec_public_key)
    : M (world U) digest_ctx :=
  match keys with
  | [] => ret digest_context
  | key :: keys =>
      let* key_buffer := ec_public_key_serialize (Some key) in
      let* digest_context := signal_sha512_digest_update digest_context key_buffer in
      digest_keys digest_context keys
  end.

Definition device_consistency_commitment_create (generation : Z)
    (identity_key_list : ec_public_key_list) : M (world U) device_consistency_commitment :=
  let* _ := alloc in
  let* sorted_list := ec_public_key_list_copy identity_key_list in
  let* sorted_list := non_null sorted_list SG_ERR_NOMEM in
  let sorted_list := ec_public_key_list_sort sorted_list in
  let* digest_context := signal_sha512_digest_init in
  let* digest_context := signal_sha512_digest_update digest_context commitment_version in
  let gen_data := [u8 (Z.shiftr generation 24); u8 (Z.shiftr generation 16);
                   u8 (Z.shiftr generation 8); u8 generation] in
  let* digest_context := signal_sha512_digest_update digest_context gen_data in
  let* digest_context := digest_keys digest_context (ut_elems sorted_list) in
  let* r := signal_sha512_digest_final digest_context in
  ret (ConsistencyCommitment generation r.1).

Definition device_consistency_message_create_from_pair
    (commitment : device_consistency_commitment) (identity_key_pair : ec_key_pair)
    : M (world U) device_consistency_message :=
  remap_error (λ e, if (e =? SG_ERR_INVALID_KEY) || (e =? SG_ERR_VRF_SIG_VERIF_FAILED)
                    then SG_ERR_UNKNOWN else e) (
    let* _ := alloc in
    let* signature_buffer := curve_calculate_vrf_signature
      (ec_key_pair_get_private identity_key_pair) (dcc_serialized commitment) in
    let* vrf_output_buffer := curve_verify_vrf_signature
      (Some (ec_key_pair_get_public identity_key_pair)) (dcc_serialized commitment)
      signature_buffer in
    let* signature := device_consistency_signature_create signature_buffer vrf_output_buffer in
    let* serialized := pb_to_buffer DeviceConsistencyCodeMessage
      [[VNum (dcc_generation commitment)]; [VBytes (dcs_signature signature)]] in
    ret (ConsistencyMessage signature (dcc_generation commitment) serialized)).

Definition device_consistency_message_create_from_serialized
    (commitment : device_consistency_commitment) (serialized_data : bytes)
    (identity_key : option ec_public_key) : M (world U) device_consistency_message :=
  remap_error (λ e, if (e =? SG_ERR_INVALID_PROTO_BUF) || (e =? SG_ERR_INVALID_KEY)
                       || (e =? SG_ERR_VRF_SIG_VERIF_FAILED)
                    then SG_ERR_INVALID_MESSAGE else e) (
    let* _ := alloc in
    let* m := pb_unpack DeviceConsistencyCodeMessage serialized_data in
    let* m := non_null m SG_ERR_INVALID_PROTO_BUF in
    match pb_num m 0, pb_bytes m 1 with
    | Some generation, Some signature_data =>
        let* vrf_output_buffer :=
          curve_verify_vrf_signature identity_key (dcc_serialized commitment) signature_data in
        let* signature := device_consistency_signature_create signature_data vrf_output_buffer in
        let* serialized := signal_buffer_create serialized_data in
        let* serialized := non_null serialized SG_ERR_NOMEM in
        ret (ConsistencyMessage signature generation serialized)
    | _, _ => fail SG_ERR_INVALID_PROTO_BUF
    end).

Definition device_consistency_signature_list_alloc
    : M (world U) (option device_consistency_signature_list) := pointer_list_alloc.
Definition device_consistency_signature_list_copy (list : device_consistency_signature_list)
    : M (world U) (option device_consistency_signature_list) := pointer_list_copy list.
Definition device_consistency_signature_list_push_back (value : device_consistency_signature)
    : M (device_consistency_signature_list * world U) unit := utarray_push_back value.
Definition device_consistency_signature_list_size (list : device_consistency_signature_list) : Z :=
  utarray_len list.
Definition device_consistency_signature_list_at (list : device_consistency_signature_list)
    (index : Z) : M (world U) device_consistency_signature :=
  match ut_elems list !! Z.to_nat index with
  | Some value => ret value
  | None => abort
  end.

Definition device_consistency_signature_list_sort_comparator
    (sig1 sig2 : device_consistency_signature) : Z :=
  let buf1 := dcs_vrf_output sig1 in
  let buf2 := dcs_vrf_output sig2 in
  if zlen buf1 =? zlen buf2 then memcmp (length buf1) buf1 buf2
  else if zlen buf1 <? zlen buf2 then -1
  else 1.
Definition device_consistency_signature_list_sort (list : device_consistency_signature_list)
    : device_consistency_signature_list :=
  utarray_sort device_consistency_signature_list_sort_comparator list.

(** The VRF outputs of the list fed to the digest one by one. *)
Fixpoint digest_outputs (digest_context : digest_ctx) (l : list device_consistency_signature)
    : M (world U) digest_ctx :=
  match l with
  | [] => ret digest_context
  | signature :: l =>
      let* digest_context :=
        signal_sha512_digest_update digest_context (dcs_vrf_output signature) in
      digest_outputs digest_context l
  end.

Definition device_consistency_code_generate_for (commitment : device_consistency_commitment)
    (signatures : device_consistency_signature_list) : M (world U) bytes :=
  let* sorted_list := device_consistency_signature_list_copy signatures in
  let* sorted_list := non_null sorted_list SG_ERR_NOMEM in
  let sorted_list := device_consistency_signature_list_sort sorted_list in
  let* digest_context := signal_sha512_digest_init in
  let version_data := [u8 (Z.shiftr CODE_VERSION 8); u8 CODE_VERSION] in
  let* digest_context := signal_sha512_digest_update digest_context version_data in
  let* digest_context := signal_sha512_digest_update digest_context (dcc_serialized commitment) in
  let* digest_context := digest_outputs digest_context (ut_elems sorted_list) in
  let* r := signal_sha512_digest_final digest_context in
  let hash_buffer := r.1 in
  if zlen hash_buffer <? 10 then fail SG_ERR_UNKNOWN
  else
    let* _ := alloc in
    let encoded_string := chunk_digits hash_buffer 0 ++ chunk_digits hash_buffer 5 in
    let* _ := alloc in
    ret (take 6 encoded_string).
End Defs.

(** ** Laws of the VRF

    A signature made with a clamped private key verifies under its public key,
    and the output depends on the key and the message alone.  A message may have no
    signature, when it is too long or hashes to the neutral point: signing is required
    to succeed on the messages that [vrf_defined] tells. *)
Class VrfLaws `{C : Curve25519} (D : DhLaws C) (X : Xveddsa) : Type := {
  vrf : bytes → bytes → bytes;
  vrf_defined : bytes → bytes → Prop;
  vrf_length sk msg : length (vrf sk msg) = 32%nat;
  vrf_sign_ok sk msg rnd : clamped sk → vrf_defined sk msg →
    ∃ sig, generalized_xveddsa_25519_sign sk msg rnd = (0, sig) ∧ length sig = 96%nat;
  vrf_verify_ok sk msg rnd sig : clamped sk → vrf_defined sk msg →
    generalized_xveddsa_25519_sign sk msg rnd = (0, sig) →
    generalized_xveddsa_25519_verify sig (dh sk basepoint) msg = (0, vrf sk msg)
}.

(** ** Specification *)

Section Spec.
Context {U : Type} {CP : CryptoProvider U} {RL : RandomLaws CP} {DP : DigestProvider}
  {DL : DigestLaws DP} {C : Curve25519} {D : DhLaws C} {X : Xveddsa} {V : VrfLaws D X}.

Definition generation_bytes (generation : Z) : bytes :=
  [u8 (Z.shiftr generation 24); u8 (Z.shiftr generation 16); u8 (Z.shiftr generation 8);
   u8 generation].

(** The commitment to a set of keys: a hash of the sorted keys. *)
Definition commitment_to (generation : Z) (keys : list ec_public_key)
    : device_consistency_commitment :=
  ConsistencyCommitment generation
    (sha512 (commitment_version ++ generation_bytes generation ++ list_bytes keys)).

Definition outputs_bytes (sigs : list device_consistency_signature) : bytes :=
  mjoin (dcs_vrf_output <$> qsort device_consistency_signature_list_sort_comparator sigs).

Definition code_for (commitment : device_consistency_commitment)
    (sigs : list device_consistency_signature) : bytes :=
  let hash := sha512 ([0; 0] ++ dcc_serialized commitment ++ outputs_bytes sigs) in
  take 6 (chunk_digits hash 0 ++ chunk_digits hash 5).

(** ** Commitments *)

Lemma digest_keys_run (u : U) keys : ∀ c d, Forall wf_pk keys → digest_abs c d →
  ∃ c', digest_keys c keys (calm u) = (Ok c', calm u) ∧ digest_abs c' (d ++ mjoin (pk_pb <$> keys)).
Proof.
  induction keys as [|k keys IH]; intros c d Hk Hc.
  { exists c. split; [done|]. by rewrite app_nil_r. }
  apply Forall_cons in Hk as [Hk Hks].
  destruct (digest_update_run (calm u) c d (pk_pb k) Hc) as (c1 & H1 & Hc1).
  destruct (IH c1 _ Hks Hc1) as (c2 & H2 & Hc2). exists c2. split.
  - cbn [digest_keys]. step (ec_public_key_serialize_calm u k Hk). step H1. done.
  - by rewrite <-app_assoc in Hc2.
Qed.

Lemma commitment_create_calm (u : U) generation (l : ec_public_key_list) :
  Forall wf_pk (ut_elems l) →
  device_consistency_commitment_create generation l (calm u)
  = (Ok (commitment_to generation (ut_elems l)), calm u).
Proof.
  intros Hk. destruct (pointer_list_copy_calm u l) as (l' & Hcopy & He).
  unfold device_consistency_commitment_create. step (alloc_calm u). step Hcopy.
  step_to l' (calm u) by done.
  assert (ut_elems (ec_public_key_list_sort l')
    = qsort ec_public_key_list_sort_comparator (ut_elems l)) as -> by (by rewrite <-He).
  destruct (digest_init_run (calm u)) as (c & Hc & Ha). step Hc.
  destruct (digest_update_run (calm u) c [] commitment_version Ha) as (c1 & H1 & Ha1). step H1.
  destruct (digest_update_run (calm u) c1 _ (generation_bytes generation) Ha1) as (c2 & H2 & Ha2).
  step H2.
  destruct (digest_keys_run u (qsort ec_public_key_list_sort_comparator (ut_elems l)) c2 _
    ltac:(by rewrite qsort_permutation) Ha2) as (c3 & H3 & Ha3). step H3.
  destruct (digest_final_run (calm u) c3 _ Ha3) as (c4 & H4 & _). step H4.
  unfold commitment_to. by rewrite <-!app_assoc.
Qed.

Lemma commitment_unique generation l l' : Forall wf_pk l → l' ≡ₚ l →
  commitment_to generation l' = commitment_to generation l.
Proof. intros Hl Hp. unfold commitment_to. by rewrite (list_bytes_unique l l' Hl Hp). Qed.

(** ** Codes *)

Definition wf_output (s : device_consistency_signature) : Prop :=
  length (dcs_vrf_output s) = 32%nat.

Lemma digest_outputs_run (w : world U) l : ∀ c d, digest_abs c d →
  ∃ c', digest_outputs c l w = (Ok c', w) ∧ digest_abs c' (d ++ mjoin (dcs_vrf_output <$> l)).
Proof.
  induction l as [|s l IH]; intros c d Hc.
  { exists c. split; [done|]. by rewrite app_nil_r. }
  destruct (digest_update_run w c d (dcs_vrf_output s) Hc) as (c1 & H1 & Hc1).
  destruct (IH c1 _ Hc1) as (c2 & H2 & Hc2). exists c2. split.
  - cbn [digest_outputs]. step H1. done.
  - by rewrite <-app_assoc in Hc2.
Qed.

Lemma code_generate_calm (u : U) commitment (l : device_consistency_signature_list) :
  device_consistency_code_generate_for commitment l (calm u)
  = (Ok (code_for commitment (ut_elems l)), calm u).
Proof.
  destruct (pointer_list_copy_calm u l) as (l' & Hcopy & He).
  unfold device_consistency_code_generate_for. step Hcopy. step_to l' (calm u) by done.
  assert (ut_elems (device_consistency_signature_list_sort l')
    = qsort device_consistency_signature_list_sort_comparator (ut_elems l)) as -> by (by rewrite <-He).
  destruct (digest_init_run (calm u)) as (c & Hc & Ha). step Hc.
  destruct (digest_update_run (calm u) c [] [0; 0] Ha) as (c1 & H1 & Ha1). step H1.
  destruct (digest_update_run (calm u) c1 _ (dcc_serialized commitment) Ha1) as (c2 & H2 & Ha2).
  step H2.
  destruct (digest_outputs_run (calm u)
    (qsort device_consistency_signature_list_sort_comparator (ut_elems l)) c2 _ Ha2)
    as (c3 & H3 & Ha3). step H3.
  destruct (digest_final_run (calm u) c3 _ Ha3) as (c4 & H4 & _). step H4.
  cbn [fst]. unfold zlen. rewrite sha512_length. unfold code_for, outputs_bytes.
  by rewrite <-!app_assoc.
Qed.

Lemma output_comparator_total x y :
  device_consistency_signature_list_sort_comparator x y <= 0 ∨
  device_consistency_signature_list_sort_comparator y x <= 0.
Proof.
  unfold device_consistency_signature_list_sort_comparator, zlen. rewrite (Z.eqb_sym (Z.of_nat (length (dcs_vrf_output y)))).
  destruct (Z.eqb_spec (Z.of_nat (length (dcs_vrf_output x))) (Z.of_nat (length (dcs_vrf_output y)))) as [E|E].
  - apply Nat2Z.inj in E. rewrite E.
    pose proof (memcmp_sym (length (dcs_vrf_output y)) (dcs_vrf_output x) (dcs_vrf_output y)).
    pose proof (memcmp_sym (length (dcs_vrf_output y)) (dcs_vrf_output y) (dcs_vrf_output x)). lia.
  - destruct (Z.ltb_spec (Z.of_nat (length (dcs_vrf_output x))) (Z.of_nat (length (dcs_vrf_output y))));
    destruct (Z.ltb_spec (Z.of_nat (length (dcs_vrf_output y))) (Z.of_nat (length (dcs_vrf_output x)))); lia.
Qed.

Lemma output_comparator_le x y : wf_output x → wf_output y →
  device_consistency_signature_list_sort_comparator x y <= 0 →
  string_le (dcs_vrf_output x) (dcs_vrf_output y).
Proof.
  unfold wf_output. intros Hx Hy. unfold device_consistency_signature_list_sort_comparator, zlen.
  rewrite Hx, Hy. change (Z.of_nat 32 =? Z.of_nat 32) with true. cbn iota. by rewrite memcmp_strcmp.
Qed.

(** However the list is ordered, the outputs are hashed in the same order. *)
Lemma outputs_unique l l' : Forall wf_output l → l' ≡ₚ l → outputs_bytes l' = outputs_bytes l.
Proof.
  intros Hl Hp. unfold outputs_bytes. f_equal. rewrite Forall_forall in Hl.
  apply qsort_unique; [apply output_comparator_total| | |].
  - intros. apply output_comparator_le; auto.
  - by rewrite qsort_permutation.
  - apply qsort_ascending; [apply output_comparator_total|].
    intros x y Hx Hy. apply output_comparator_le; apply Hl; by rewrite <-Hp.
Qed.

Lemma chunk_digits_digits fp i : Forall is_digit (chunk_digits fp i) ∧ length (chunk_digits fp i) = 5%nat.
Proof.
  split; [|done]. unfold chunk_digits, format_05d. apply Forall_fmap, Forall_true. intros d.
  unfold compose, is_digit. match goal with |- _ <= 48 + ?x `mod` 10 <= _ =>
    pose proof (Z.mod_pos_bound x 10 ltac:(done)) end. lia.
Qed.

Lemma code_for_digits commitment l :
  Forall is_digit (code_for commitment l) ∧ zlen (code_for commitment l) = 6.
Proof.
  unfold code_for. set (h := sha512 _). destruct (chunk_digits_digits h 0) as [H0 L0].
  destruct (chunk_digits_digits h 5) as [H5 L5]. split.
  - apply Forall_take, Forall_app. done.
  - unfold zlen. rewrite length_take, length_app, L0, L5. done.
Qed.

(** ** Messages *)

(** The message a device with the private key makes about a commitment. *)
Definition made_message (commitment : device_consistency_commitment) (sk sig : bytes)
    : device_consistency_message :=
  ConsistencyMessage (ConsistencySignature sig (vrf sk (dcc_serialized commitment)))
    (dcc_generation commitment)
    (pb_pack DeviceConsistencyCodeMessage [[VNum (dcc_generation commitment)]; [VBytes sig]]).

Lemma code_message_ok generation sig : is_u32 generation → length sig = 96%nat →
  let m := [[VNum generation]; [VBytes sig]] in
  wt_msg PB_DEPTH DeviceConsistencyCodeMessage m ∧ pb_weight PB_DEPTH m < 2 ^ 26.
Proof.
  intros Hg Hs m. split; [by unfold m, PB_DEPTH; wt_fields|].
  unfold m. cbn -[Z.pow zlen]. unfold zlen. rewrite Hs. lia.
Qed.

Lemma verify_vrf_calm (u : U) kp msg rnd sig : wf_signing_pair kp → vrf_defined (sk_data (kp_private kp)) msg →
  length sig = 96%nat →
  generalized_xveddsa_25519_sign (sk_data (kp_private kp)) msg rnd = (0, sig) →
  curve_verify_vrf_signature (Some (kp_public kp)) msg sig (calm u)
  = (Ok (vrf (sk_data (kp_private kp)) msg), calm u).
Proof.
  intros [[_ Hpk] Hcl] Hdef Hl Hs. unfold curve_verify_vrf_signature.
  step_to (kp_public kp) (calm u) by done. unfold zlen. rewrite Hl.
  change (negb (Z.of_nat 96 =? VRF_SIGNATURE_LEN)) with false. cbn iota.
  step (signal_buffer_alloc_calm u VRF_VERIFY_LEN ltac:(done)).
  step_goal _ _; [|reflexivity]. rewrite Hpk, (vrf_verify_ok _ _ _ _ Hcl Hdef Hs). done.
Qed.

Lemma signature_create_calm (u : U) sig out : length sig = 96%nat → length out = 32%nat →
  device_consistency_signature_create sig out (calm u) = (Ok (ConsistencySignature sig out), calm u).
Proof.
  intros Hs Ho. unfold device_consistency_signature_create. step (alloc_calm u).
  step (signal_buffer_create_calm u sig ltac:(unfold zlen, SIZE_MAX; lia)).
  step_to sig (calm u) by done.
  step (signal_buffer_create_calm u out ltac:(unfold zlen, SIZE_MAX; lia)). done.
Qed.

Lemma message_created (u : U) commitment kp :
  wf_signing_pair kp → vrf_defined (sk_data (kp_private kp)) (dcc_serialized commitment) →
  is_u32 (dcc_generation commitment) →
  ∃ sig u', let m := made_message commitment (sk_data (kp_private kp)) sig in
    device_consistency_message_create_from_pair commitment kp (calm u) = (Ok m, calm u') ∧
    ∀ v : U, device_consistency_message_create_from_serialized commitment (dcm_serialized m)
      (Some (kp_public kp)) (calm v) = (Ok m, calm v).
Proof.
  intros Hkp Hdef Hg. pose proof Hkp as [Hpair Hcl]. set (sk := sk_data (kp_private kp)) in *.
  destruct (random_ok 64 u) as (rnd & u' & Hr & _).
  destruct (vrf_sign_ok sk (dcc_serialized commitment) rnd Hcl Hdef) as (sig & Hs & Hl).
  destruct (code_message_ok (dcc_generation commitment) sig Hg Hl) as [Hwt Hw].
  exists sig, u'. cbn zeta. split.
  - unfold device_consistency_message_create_from_pair, remap_error. step (alloc_calm u).
    step_goal sig (calm u').
    + step (verify_vrf_calm u' kp (dcc_serialized commitment) rnd sig Hkp Hdef Hl Hs).
      step (signature_create_calm u' sig _ Hl (vrf_length _ _)).
      step (pb_to_buffer_calm u' DeviceConsistencyCodeMessage _ Hwt Hw). done.
    + unfold curve_calculate_vrf_signature, signal_crypto_random, callback, bind. simpl.
      rewrite Hr. simpl. unfold ec_key_pair_get_private. fold sk. by rewrite Hs.
  - intros v. destruct (pb_roundtrip_weight v _ _ Hwt Hw) as (_ & Hlt & Hun).
    unfold device_consistency_message_create_from_serialized, remap_error. step (alloc_calm v).
    unfold made_message. cbn [dcm_serialized]. step Hun. step_goal _ _; [|reflexivity].
    change (pb_num [[VNum (dcc_generation commitment)]; [VBytes sig]] 0)
      with (Some (dcc_generation commitment)).
    change (pb_bytes [[VNum (dcc_generation commitment)]; [VBytes sig]] 1) with (Some sig).
    cbn iota. step (verify_vrf_calm v kp (dcc_serialized commitment) rnd sig Hkp Hdef Hl Hs).
    step (signature_create_calm v sig _ Hl (vrf_length _ _)).
    erewrite bind_ok by (apply signal_buffer_create_calm; unfold SIZE_MAX; lia). done.
Qed.

(** ** Claims *)

(** commitments and codes do not depend on order.  Devices that list the
    same identity keys, in whichever order, make the same commitment; from it
    and the same signatures, in whichever order, they make the same code, six
    decimal digits. *)
Theorem consistency_code_order_free (uA uB : U) (generation : Z) (keysA keysB : ec_public_key_list)
    (sigsA sigsB : device_consistency_signature_list) :
  Forall wf_pk (ut_elems keysA) → ut_elems keysB ≡ₚ ut_elems keysA →
  Forall wf_output (ut_elems sigsA) → ut_elems sigsB ≡ₚ ut_elems sigsA →
  ∃ commitment code,
    device_consistency_commitment_create generation keysA (calm uA) = (Ok commitment, calm uA) ∧
    device_consistency_commitment_create generation keysB (calm uB) = (Ok commitment, calm uB) ∧
    device_consistency_code_generate_for commitment sigsA (calm uA) = (Ok code, calm uA) ∧
    device_consistency_code_generate_for commitment sigsB (calm uB) = (Ok code, calm uB) ∧
    Forall is_digit code ∧ zlen code = 6.
Proof.
  intros Hk Hpk Hs Hps. set (c := commitment_to generation (ut_elems keysA)).
  exists c, (code_for c (ut_elems sigsA)). split_and!.
  - by apply commitment_create_calm.
  - rewrite commitment_create_calm by (by rewrite Hpk). by rewrite (commitment_unique _ _ _ Hk Hpk).
  - apply code_generate_calm.
  - rewrite code_generate_calm. unfold code_for. by rewrite (outputs_unique _ _ Hs Hps).
  - apply code_for_digits.
  - apply code_for_digits.
Qed.

(** two devices that sign a commitment agree on the code.  Each makes its
    message with its own key pair, the other reads the serialized message back
    exactly and takes from it the signature the sender has; with its own and
    the received signature, in either order, both make the same code, which
    depends on the keys and the commitment only, not on the randomness of the
    signatures; given that both keys can sign the commitment. *)
Theorem consistency_devices_agree (uA uB : U) (commitment : device_consistency_commitment)
    (kpA kpB : ec_key_pair) :
  wf_signing_pair kpA → wf_signing_pair kpB → is_u32 (dcc_generation commitment) →
  vrf_defined (sk_data (kp_private kpA)) (dcc_serialized commitment) →
  vrf_defined (sk_data (kp_private kpB)) (dcc_serialized commitment) →
  ∃ mA mB uA' uB' code,
    device_consistency_message_create_from_pair commitment kpA (calm uA) = (Ok mA, calm uA') ∧
    device_consistency_message_create_from_pair commitment kpB (calm uB) = (Ok mB, calm uB') ∧
    device_consistency_message_create_from_serialized commitment (dcm_serialized mB)
      (Some (kp_public kpB)) (calm uA') = (Ok mB, calm uA') ∧
    device_consistency_message_create_from_serialized commitment (dcm_serialized mA)
      (Some (kp_public kpA)) (calm uB') = (Ok mA, calm uB') ∧
    (∀ n, device_consistency_code_generate_for commitment
      (UtArray [dcm_signature mA; dcm_signature mB] n) (calm uA') = (Ok code, calm uA')) ∧
    (∀ n, device_consistency_code_generate_for commitment
      (UtArray [dcm_signature mB; dcm_signature mA] n) (calm uB') = (Ok code, calm uB')).
Proof.
  intros HA HB Hg DA DB. destruct (message_created uA commitment kpA HA DA Hg) as (sA & uA' & HmA & HrA).
  destruct (message_created uB commitment kpB HB DB Hg) as (sB & uB' & HmB & HrB).
  set (mA := made_message commitment (sk_data (kp_private kpA)) sA) in *.
  set (mB := made_message commitment (sk_data (kp_private kpB)) sB) in *.
  exists mA, mB, uA', uB', (code_for commitment [dcm_signature mA; dcm_signature mB]).
  split; [exact HmA|]. split; [exact HmB|]. split; [apply HrB|]. split; [apply HrA|].
  split; intros n; rewrite code_generate_calm; [done|]. unfold code_for. cbn [ut_elems].
  rewrite (outputs_unique [dcm_signature mA; dcm_signature mB]); [done| |apply Permutation_swap].
  repeat constructor; apply vrf_length.
Qed.
End Spec.

(** ** Witnesses *)

Import Toy ToyDigest.

#[export] Instance toy_xveddsa : Xveddsa := {|
  generalized_xveddsa_25519_sign sk msg rnd :=
    (0, hmac_fun (dh_fun sk basepoint) msg ++ take 64 (rnd ++ replicate 64 0));
  generalized_xveddsa_25519_verify sig pk msg :=
    (if decide (take 32 sig = hmac_fun pk msg) then 0 else -1, hmac_fun pk (1 :: msg))
|}.

#[export] Instance toy_vrf_laws : VrfLaws dh_laws toy_xveddsa.
Proof.
  refine {| vrf sk msg := hmac_fun (dh_fun sk basepoint) (1 :: msg); vrf_defined _ _ := True |}.
  - intros. apply expand_length.
  - intros sk msg rnd _ _. eexists. split; [reflexivity|].
    unfold hmac_fun. rewrite length_app, expand_length, length_take, length_app, length_replicate. lia.
  - intros sk msg rnd sig _ _ H%(f_equal snd). cbn [snd generalized_xveddsa_25519_sign toy_xveddsa] in H.
    subst sig. cbn [generalized_xveddsa_25519_verify toy_xveddsa].
    rewrite (take_app_length' (hmac_fun (dh_fun sk basepoint) msg)) by (symmetry; apply expand_length).
    by rewrite decide_True.
Defined.

Definition witness_sig (b : Z) : device_consistency_signature :=
  ConsistencySignature (replicate 96 b) (replicate 32 b).

Lemma consistency_code_order_free_witness :
  ∃ commitment code,
    device_consistency_commitment_create 4 (UtArray [witness_fp_key 7; witness_fp_key 4] 8) (calm 1)
      = (Ok commitment, calm 1) ∧
    device_consistency_commitment_create 4 (UtArray [witness_fp_key 4; witness_fp_key 7] 8) (calm 2)
      = (Ok commitment, calm 2) ∧
    device_consistency_code_generate_for commitment (UtArray [witness_sig 9; witness_sig 3] 8)
      (calm 1) = (Ok code, calm 1) ∧
    device_consistency_code_generate_for commitment (UtArray [witness_sig 3; witness_sig 9] 8)
      (calm 2) = (Ok code, calm 2) ∧
    Forall is_digit code ∧ zlen code = 6.
Proof.
  apply consistency_code_order_free; [repeat constructor|apply Permutation_swap|repeat constructor|
    apply Permutation_swap].
Defined.

Lemma consistency_devices_agree_witness :
  let commitment := ConsistencyCommitment 4 (replicate 64 8) in
  let kpA := pair_of (replicate 32 11) in
  let kpB := pair_of (replicate 32 12) in
  ∃ mA mB uA' uB' code,
    device_consistency_message_create_from_pair commitment kpA (calm 1) = (Ok mA, calm uA') ∧
    device_consistency_message_create_from_pair commitment kpB (calm 2) = (Ok mB, calm uB') ∧
    device_consistency_message_create_from_serialized commitment (dcm_serialized mB)
      (Some (kp_public kpB)) (calm uA') = (Ok mB, calm uA') ∧
    device_consistency_message_create_from_serialized commitment (dcm_serialized mA)
      (Some (kp_public kpA)) (calm uB') = (Ok mA, calm uB') ∧
    (∀ n, device_consistency_code_generate_for commitment
      (UtArray [dcm_signature mA; dcm_signature mB] n) (calm uA') = (Ok code, calm uA')) ∧
    (∀ n, device_consistency_code_generate_for commitment
      (UtArray [dcm_signature mB; dcm_signature mA] n) (calm uB') = (Ok code, calm uB')).
Proof.
  apply (consistency_devices_agree (V := toy_vrf_laws) 1 2 (ConsistencyCommitment 4 (replicate 64 8))
    (pair_of (replicate 32 11)) (pair_of (replicate 32 12)));
    [apply pair_of_signs; [done|by repeat constructor]..|split; simpl; lia|exact I|exact I].
Defined.
