(* ===== verification/Limbs.v ===== *)
(** Signed machine arithmetic and arrays, for curve25519-donna.c.

    An expression of a C integer type is an [option Z]: [None] where the C
    standard gives it no meaning, that is when a signed sum, difference, product
    or negation leaves its type, or when it reads an element that is outside its
    array or not initialized.  What C leaves to the implementation is as two's
    complement machines have it and as the file itself demands in its #if
    lines: conversions to a narrower type and left shifts drop the high bits, and
    right shifts keep the sign. *)

From stdpp Require Export list_numbers.
From S2P Require Export Prelude.

(** * Machine integers *)

(** [int32_t] and [int64_t]; [half w] is the first integer beyond type [w]. *)
Inductive width := W32 | W64.
Definition half (w : width) : Z :=
  match w with W32 => 0x80000000 | W64 => 0x8000000000000000 end.
Definition wrap (w : width) (z : Z) : Z := (z + half w) `mod` (2 * half w) - half w.
Definition fits (w : width) (z : Z) : bool := (- half w <=? z) && (z <? half w).
Definition checked (w : width) (z : Z) : option Z := if fits w z then Some z else None.

Definition iadd (w : width) (a b : option Z) : option Z :=
  x ← a; y ← b; checked w (x + y).
Definition isub (w : width) (a b : option Z) : option Z :=
  x ← a; y ← b; checked w (x - y).
Definition imul (w : width) (a b : option Z) : option Z :=
  x ← a; y ← b; checked w (x * y).
Definition ineg (w : width) (a : option Z) : option Z :=
  x ← a; checked w (- x).
Definition ishl (w : width) (a : option Z) (n : Z) : option Z :=
  x ← a; Some (wrap w (Z.shiftl x n)).
(** Right shifts and the bitwise operators stay within the type. *)
Definition ishr (a : option Z) (n : Z) : option Z := x ← a; Some (Z.shiftr x n).
Definition iand (a b : option Z) : option Z := x ← a; y ← b; Some (Z.land x y).
Definition ior (a b : option Z) : option Z := x ← a; y ← b; Some (Z.lor x y).
Definition ixor (a b : option Z) : option Z := x ← a; y ← b; Some (Z.lxor x y).
Definition inot (a : option Z) : option Z := x ← a; Some (Z.lnot x).
(** Conversion to a signed type of that width. *)
Definition cast (w : width) (a : option Z) : option Z := x ← a; Some (wrap w x).

Declare Scope limb_scope.
Delimit Scope limb_scope with limb.
Bind Scope limb_scope with option.
(** [limb] is [int64_t], [s32] is [int32_t]. *)
Infix "+ₗ" := (iadd W64) (at level 50, left associativity) : limb_scope.
Infix "-ₗ" := (isub W64) (at level 50, left associativity) : limb_scope.
Infix "*ₗ" := (imul W64) (at level 40, left associativity) : limb_scope.
Infix "<<ₗ" := (ishl W64) (at level 52, left associativity) : limb_scope.
Infix "+ᵢ" := (iadd W32) (at level 50, left associativity) : limb_scope.
Infix "-ᵢ" := (isub W32) (at level 50, left associativity) : limb_scope.
Infix "*ᵢ" := (imul W32) (at level 40, left associativity) : limb_scope.
Infix "<<ᵢ" := (ishl W32) (at level 52, left associativity) : limb_scope.
Infix ">>ᵢ" := ishr (at level 52, left associativity) : limb_scope.
Infix "&ᵢ" := iand (at level 53, left associativity) : limb_scope.
Infix "|ᵢ" := ior (at level 56, left associativity) : limb_scope.
Infix "^ᵢ" := ixor (at level 54, left associativity) : limb_scope.

(** * Arrays *)

(** An element that was never written is [None]. *)
Abbreviation arr := (list (option Z)).
Definition uninit (n : nat) : arr := replicate n None.
Lemma length_uninit n : length (uninit n) = n.
Proof. apply length_replicate. Qed.
Definition rd (a : arr) (i : nat) : option Z := mjoin (a !! i).
Definition wr (a : arr) (i : nat) (e : option Z) : option arr :=
  v ← e; if (i <? length a)%nat then Some (<[i := Some v]> a) else None.
(** [memcpy(dst, src, sizeof(limb) * n)]: an array too short is no meaning. *)
Definition memcpy (dst src : arr) (n : nat) : option arr :=
  if (n <=? length dst)%nat && (n <=? length src)%nat
  then Some (take n src ++ drop n dst) else None.

(** * Range tracking

    [ranged e v B]: the expression has the value [v], of magnitude below [B].
    The lemmas compute value and bound of an expression together. *)
Definition within (B z : Z) : Prop := - B < z < B.
Definition ranged (e : option Z) (v B : Z) : Prop := e = Some v ∧ within B v.

Lemma checked_fits w z : within (half w) z → checked w z = Some z.
Proof.
  unfold within, checked, fits. intros [H1 H2].
  by rewrite (proj2 (Z.leb_le _ _)), (proj2 (Z.ltb_lt _ _)) by lia.
Qed.

Lemma within_weaken B B' z : within B z → B <= B' → within B' z.
Proof. unfold within. lia. Qed.

Lemma ranged_some v B : within B v → ranged (Some v) v B.
Proof. done. Qed.

Lemma ranged_add w a b x y A B :
  ranged a x A → ranged b y B → A + B <= half w →
  ranged (iadd w a b) (x + y) (A + B).
Proof.
  intros [-> Hx] [-> Hy] Hb. unfold within in *. split; [|unfold within; lia].
  apply checked_fits. unfold within. lia.
Qed.

Lemma ranged_sub w a b x y A B :
  ranged a x A → ranged b y B → A + B <= half w →
  ranged (isub w a b) (x - y) (A + B).
Proof.
  intros [-> Hx] [-> Hy] Hb. unfold within in *. split; [|unfold within; lia].
  apply checked_fits. unfold within. lia.
Qed.

Lemma within_mul A B x y : within A x → within B y → within (A * B) (x * y).
Proof. unfold within. intros. nia. Qed.

Lemma ranged_mul w a b x y A B :
  ranged a x A → ranged b y B → A * B <= half w →
  ranged (imul w a b) (x * y) (A * B).
Proof.
  intros [-> Hx] [-> Hy] Hb. pose proof (within_mul _ _ _ _ Hx Hy) as H.
  split; [|done]. apply checked_fits. by eapply within_weaken.
Qed.

Lemma ranged_scale w b y B c :
  0 < c → ranged b y B → c * B <= half w → ranged (imul w (Some c) b) (c * y) (c * B).
Proof.
  intros Hc [-> Hy] Hb. assert (within (c * B) (c * y)) as H by (unfold within in *; nia).
  split; [|done]. apply checked_fits. by eapply within_weaken.
Qed.

Lemma wrap_small w z : within (half w) z → wrap w z = z.
Proof.
  unfold wrap, within. intros Hz. rewrite Z.mod_small; lia.
Qed.

Lemma ranged_shl w a x A n :
  0 <= n → ranged a x A → A * 2 ^ n <= half w →
  ranged (ishl w a n) (x * 2 ^ n) (A * 2 ^ n).
Proof.
  intros Hn [-> Hx] HA. unfold ranged, ishl. simpl.
  rewrite Z.shiftl_mul_pow2 by done.
  assert (within (A * 2 ^ n) (x * 2 ^ n)) as H.
  { unfold within in *. pose proof (Z.pow_pos_nonneg 2 n). nia. }
  split; [|done]. by rewrite wrap_small by (by eapply within_weaken).
Qed.

Lemma ranged_cast w a x A :
  ranged a x A → A <= half w → ranged (cast w a) x A.
Proof.
  intros [-> Hx] HA. split; [|done]. unfold cast. simpl.
  by rewrite wrap_small by (by eapply within_weaken).
Qed.

Lemma wr_some (a : arr) i v : (i < length a)%nat → wr a i (Some v) = Some (<[i := Some v]> a).
Proof. intros Hi. unfold wr. simpl. by rewrite (proj2 (Nat.ltb_lt _ _) Hi). Qed.
Lemma rd_insert_eq (a : arr) i v : (i < length a)%nat → rd (<[i := Some v]> a) i = Some v.
Proof. intros H. unfold rd. by rewrite list_lookup_insert_eq. Qed.
Lemma rd_insert_ne (a : arr) i j v : i ≠ j → rd (<[i := Some v]> a) j = rd a j.
Proof. intros H. unfold rd. by rewrite list_lookup_insert_ne. Qed.
Lemma rd_length (a : arr) i x : rd a i = Some x → (i < length a)%nat.
Proof.
  unfold rd. destruct (a !! i) eqn:E; [|done]. intros _. by eapply lookup_lt_Some.
Qed.

(** * Running

    [runs r Q]: the computation has a meaning and its result satisfies [Q]. *)
Definition runs {A} (r : option A) (Q : A → Prop) : Prop := ∃ a, r = Some a ∧ Q a.

Lemma runs_some {A} (a : A) (Q : A → Prop) : Q a → runs (Some a) Q.
Proof. intros H. by exists a. Qed.
Lemma runs_bind {A B} (r : option A) (k : A → option B) Q Q' :
  runs r Q → (∀ a, Q a → runs (k a) Q') → runs (r ≫= k) Q'.
Proof. intros (a & -> & Ha) H. by apply H. Qed.
Lemma runs_assoc {A B C} (r : option A) (f : A → option B) (g : B → option C) Q :
  runs (a ← r; f a ≫= g) Q → runs ((r ≫= f) ≫= g) Q.
Proof. by destruct r. Qed.
Lemma runs_mono {A} (r : option A) (Q Q' : A → Prop) :
  runs r Q → (∀ a, Q a → Q' a) → runs r Q'.
Proof. intros (a & -> & Ha) H. exists a. auto. Qed.

Lemma runs_wr a i e v B (k : arr → option arr) Q :
  ranged e v B → (i < length a)%nat →
  (within B v → runs (k (<[i := Some v]> a)) Q) → runs (wr a i e ≫= k) Q.
Proof.
  intros [-> Hv] Hi Hk. unfold wr. simpl. rewrite (proj2 (Nat.ltb_lt _ _) Hi). by apply Hk.
Qed.
Lemma runs_wr_last a i e v B (Q : arr → Prop) :
  ranged e v B → (i < length a)%nat → (within B v → Q (<[i := Some v]> a)) → runs (wr a i e) Q.
Proof.
  intros [-> Hv] Hi Hk. unfold wr. simpl. rewrite (proj2 (Nat.ltb_lt _ _) Hi). 
  apply runs_some. by apply Hk.
Qed.

(** * Loops *)

(** [for (i = lo; i < hi; i += 2)] runs over [steps2 lo hi]. *)
Definition steps2 (lo hi : nat) : list nat :=
  (λ k, lo + 2 * k)%nat <$> seq 0 ((hi - lo + 1) / 2).

Fixpoint for_each {A} (body : nat → A → option A) (idx : list nat) (a : A) : option A :=
  match idx with
  | [] => Some a
  | i :: idx => a ← body i a; for_each body idx a
  end.
