(* ===== verification/Donna.v ===== *)
(** curve25519-donna.c: the X25519 function on 26/25-bit limbs.

    Every function of the file, statement by statement.  A [limb *] argument is
    an array passed in and, when the function writes to it, returned; local
    arrays start uninitialized. *)

From S2P Require Import Prelude Limbs.
Local Open Scope limb_scope.
Local Notation "# n" := (Some n%Z) (at level 8, format "# n") : limb_scope.

Module Donna.

(** * Field elements *)

Definition fsum (output inp : arr) : option arr :=
  for_each (λ i output,
    output ← wr output (0 + i) (rd output (0 + i) +ₗ rd inp (0 + i));
    wr output (1 + i) (rd output (1 + i) +ₗ rd inp (1 + i))) (steps2 0 10) output.

(** The order of the operands: [output = inp - output]. *)
Definition fdifference (output inp : arr) : option arr :=
  for_each (λ i output, wr output i (rd inp i -ₗ rd output i)) (seq 0 10) output.

Definition fscalar_product (output inp : arr) (scalar : Z) : option arr :=
  for_each (λ i output, wr output i (rd inp i *ₗ #scalar)) (seq 0 10) output.

(** [(limb) ((s32) a[i])] *)
Definition s32_of (a : arr) (i : nat) : option Z := cast W32 (rd a i).

Definition fproduct (output in2 inp : arr) : option arr :=
  output ← wr output 0 (s32_of in2 0 *ₗ s32_of inp 0);
  output ← wr output 1 (s32_of in2 0 *ₗ s32_of inp 1 +ₗ s32_of in2 1 *ₗ s32_of inp 0);
  output ← wr output 2 (#2 *ₗ s32_of in2 1 *ₗ s32_of inp 1 +ₗ s32_of in2 0 *ₗ s32_of inp 2 +ₗ
    s32_of in2 2 *ₗ s32_of inp 0);
  output ← wr output 3 (s32_of in2 1 *ₗ s32_of inp 2 +ₗ s32_of in2 2 *ₗ s32_of inp 1 +ₗ
    s32_of in2 0 *ₗ s32_of inp 3 +ₗ s32_of in2 3 *ₗ s32_of inp 0);
  output ← wr output 4 (s32_of in2 2 *ₗ s32_of inp 2 +ₗ #2 *ₗ (s32_of in2 1 *ₗ s32_of inp 3 +ₗ
    s32_of in2 3 *ₗ s32_of inp 1) +ₗ s32_of in2 0 *ₗ s32_of inp 4 +ₗ
    s32_of in2 4 *ₗ s32_of inp 0);
  output ← wr output 5 (s32_of in2 2 *ₗ s32_of inp 3 +ₗ s32_of in2 3 *ₗ s32_of inp 2 +ₗ
    s32_of in2 1 *ₗ s32_of inp 4 +ₗ s32_of in2 4 *ₗ s32_of inp 1 +ₗ
    s32_of in2 0 *ₗ s32_of inp 5 +ₗ s32_of in2 5 *ₗ s32_of inp 0);
  output ← wr output 6 (#2 *ₗ (s32_of in2 3 *ₗ s32_of inp 3 +ₗ s32_of in2 1 *ₗ s32_of inp 5 +ₗ
    s32_of in2 5 *ₗ s32_of inp 1) +ₗ s32_of in2 2 *ₗ s32_of inp 4 +ₗ
    s32_of in2 4 *ₗ s32_of inp 2 +ₗ s32_of in2 0 *ₗ s32_of inp 6 +ₗ
    s32_of in2 6 *ₗ s32_of inp 0);
  output ← wr output 7 (s32_of in2 3 *ₗ s32_of inp 4 +ₗ s32_of in2 4 *ₗ s32_of inp 3 +ₗ
    s32_of in2 2 *ₗ s32_of inp 5 +ₗ s32_of in2 5 *ₗ s32_of inp 2 +ₗ
    s32_of in2 1 *ₗ s32_of inp 6 +ₗ s32_of in2 6 *ₗ s32_of inp 1 +ₗ
    s32_of in2 0 *ₗ s32_of inp 7 +ₗ s32_of in2 7 *ₗ s32_of inp 0);
  output ← wr output 8 (s32_of in2 4 *ₗ s32_of inp 4 +ₗ #2 *ₗ (s32_of in2 3 *ₗ s32_of inp 5 +ₗ
    s32_of in2 5 *ₗ s32_of inp 3 +ₗ s32_of in2 1 *ₗ s32_of inp 7 +ₗ
    s32_of in2 7 *ₗ s32_of inp 1) +ₗ s32_of in2 2 *ₗ s32_of inp 6 +ₗ
    s32_of in2 6 *ₗ s32_of inp 2 +ₗ s32_of in2 0 *ₗ s32_of inp 8 +ₗ
    s32_of in2 8 *ₗ s32_of inp 0);
  output ← wr output 9 (s32_of in2 4 *ₗ s32_of inp 5 +ₗ s32_of in2 5 *ₗ s32_of inp 4 +ₗ
    s32_of in2 3 *ₗ s32_of inp 6 +ₗ s32_of in2 6 *ₗ s32_of inp 3 +ₗ
    s32_of in2 2 *ₗ s32_of inp 7 +ₗ s32_of in2 7 *ₗ s32_of inp 2 +ₗ
    s32_of in2 1 *ₗ s32_of inp 8 +ₗ s32_of in2 8 *ₗ s32_of inp 1 +ₗ
    s32_of in2 0 *ₗ s32_of inp 9 +ₗ s32_of in2 9 *ₗ s32_of inp 0);
  output ← wr output 10 (#2 *ₗ (s32_of in2 5 *ₗ s32_of inp 5 +ₗ s32_of in2 3 *ₗ s32_of inp 7 +ₗ
    s32_of in2 7 *ₗ s32_of inp 3 +ₗ s32_of in2 1 *ₗ s32_of inp 9 +ₗ
    s32_of in2 9 *ₗ s32_of inp 1) +ₗ s32_of in2 4 *ₗ s32_of inp 6 +ₗ
    s32_of in2 6 *ₗ s32_of inp 4 +ₗ s32_of in2 2 *ₗ s32_of inp 8 +ₗ
    s32_of in2 8 *ₗ s32_of inp 2);
  output ← wr output 11 (s32_of in2 5 *ₗ s32_of inp 6 +ₗ s32_of in2 6 *ₗ s32_of inp 5 +ₗ
    s32_of in2 4 *ₗ s32_of inp 7 +ₗ s32_of in2 7 *ₗ s32_of inp 4 +ₗ
    s32_of in2 3 *ₗ s32_of inp 8 +ₗ s32_of in2 8 *ₗ s32_of inp 3 +ₗ
    s32_of in2 2 *ₗ s32_of inp 9 +ₗ s32_of in2 9 *ₗ s32_of inp 2);
  output ← wr output 12 (s32_of in2 6 *ₗ s32_of inp 6 +ₗ #2 *ₗ (s32_of in2 5 *ₗ s32_of inp 7 +ₗ
    s32_of in2 7 *ₗ s32_of inp 5 +ₗ s32_of in2 3 *ₗ s32_of inp 9 +ₗ
    s32_of in2 9 *ₗ s32_of inp 3) +ₗ s32_of in2 4 *ₗ s32_of inp 8 +ₗ
    s32_of in2 8 *ₗ s32_of inp 4);
  output ← wr output 13 (s32_of in2 6 *ₗ s32_of inp 7 +ₗ s32_of in2 7 *ₗ s32_of inp 6 +ₗ
    s32_of in2 5 *ₗ s32_of inp 8 +ₗ s32_of in2 8 *ₗ s32_of inp 5 +ₗ
    s32_of in2 4 *ₗ s32_of inp 9 +ₗ s32_of in2 9 *ₗ s32_of inp 4);
  output ← wr output 14 (#2 *ₗ (s32_of in2 7 *ₗ s32_of inp 7 +ₗ s32_of in2 5 *ₗ s32_of inp 9 +ₗ
    s32_of in2 9 *ₗ s32_of inp 5) +ₗ s32_of in2 6 *ₗ s32_of inp 8 +ₗ
    s32_of in2 8 *ₗ s32_of inp 6);
  output ← wr output 15 (s32_of in2 7 *ₗ s32_of inp 8 +ₗ s32_of in2 8 *ₗ s32_of inp 7 +ₗ
    s32_of in2 6 *ₗ s32_of inp 9 +ₗ s32_of in2 9 *ₗ s32_of inp 6);
  output ← wr output 16 (s32_of in2 8 *ₗ s32_of inp 8 +ₗ #2 *ₗ (s32_of in2 7 *ₗ s32_of inp 9 +ₗ
    s32_of in2 9 *ₗ s32_of inp 7));
  output ← wr output 17 (s32_of in2 8 *ₗ s32_of inp 9 +ₗ s32_of in2 9 *ₗ s32_of inp 8);
  output ← wr output 18 (#2 *ₗ s32_of in2 9 *ₗ s32_of inp 9);
  Some output.

Definition freduce_degree (output : arr) : option arr :=
  output ← wr output 8 (rd output 8 +ₗ (rd output 18 <<ₗ 4));
  output ← wr output 8 (rd output 8 +ₗ (rd output 18 <<ₗ 1));
  output ← wr output 8 (rd output 8 +ₗ rd output 18);
  output ← wr output 7 (rd output 7 +ₗ (rd output 17 <<ₗ 4));
  output ← wr output 7 (rd output 7 +ₗ (rd output 17 <<ₗ 1));
  output ← wr output 7 (rd output 7 +ₗ rd output 17);
  output ← wr output 6 (rd output 6 +ₗ (rd output 16 <<ₗ 4));
  output ← wr output 6 (rd output 6 +ₗ (rd output 16 <<ₗ 1));
  output ← wr output 6 (rd output 6 +ₗ rd output 16);
  output ← wr output 5 (rd output 5 +ₗ (rd output 15 <<ₗ 4));
  output ← wr output 5 (rd output 5 +ₗ (rd output 15 <<ₗ 1));
  output ← wr output 5 (rd output 5 +ₗ rd output 15);
  output ← wr output 4 (rd output 4 +ₗ (rd output 14 <<ₗ 4));
  output ← wr output 4 (rd output 4 +ₗ (rd output 14 <<ₗ 1));
  output ← wr output 4 (rd output 4 +ₗ rd output 14);
  output ← wr output 3 (rd output 3 +ₗ (rd output 13 <<ₗ 4));
  output ← wr output 3 (rd output 3 +ₗ (rd output 13 <<ₗ 1));
  output ← wr output 3 (rd output 3 +ₗ rd output 13);
  output ← wr output 2 (rd output 2 +ₗ (rd output 12 <<ₗ 4));
  output ← wr output 2 (rd output 2 +ₗ (rd output 12 <<ₗ 1));
  output ← wr output 2 (rd output 2 +ₗ rd output 12);
  output ← wr output 1 (rd output 1 +ₗ (rd output 11 <<ₗ 4));
  output ← wr output 1 (rd output 1 +ₗ (rd output 11 <<ₗ 1));
  output ← wr output 1 (rd output 1 +ₗ rd output 11);
  output ← wr output 0 (rd output 0 +ₗ (rd output 10 <<ₗ 4));
  output ← wr output 0 (rd output 0 +ₗ (rd output 10 <<ₗ 1));
  output ← wr output 0 (rd output 0 +ₗ rd output 10);
  Some output.

(** Division by 2^26 towards zero, by shifts and adds. *)
Definition div_by_2_26 (v : option Z) : option Z :=
  x ← v;
  let highword := u32 (Z.shiftr (usize x) 32) in
  let sign := Z.shiftr (wrap W32 highword) 31 in
  let roundoff := wrap W32 (Z.shiftr (u32 sign) 6) in
  (#x +ₗ #roundoff) >>ᵢ 26.

Definition div_by_2_25 (v : option Z) : option Z :=
  x ← v;
  let highword := u32 (Z.shiftr (usize x) 32) in
  let sign := Z.shiftr (wrap W32 highword) 31 in
  let roundoff := wrap W32 (Z.shiftr (u32 sign) 7) in
  (#x +ₗ #roundoff) >>ᵢ 25.

(** The same on 32 bits; nothing calls it. *)
Definition div_s32_by_2_25 (v : option Z) : option Z :=
  x ← v;
  let roundoff := wrap W32 (Z.shiftr (u32 (Z.shiftr x 31)) 7) in
  (#x +ᵢ #roundoff) >>ᵢ 25.

(** The loop body of [freduce_coefficients]. *)
Definition reduce_pair (i : nat) (output : arr) : option arr :=
  let over := div_by_2_26 (rd output i) in
  output ← wr output i (rd output i -ₗ (over <<ₗ 26));
  output ← wr output (i + 1) (rd output (i + 1) +ₗ over);
  let over := div_by_2_25 (rd output (i + 1)) in
  output ← wr output (i + 1) (rd output (i + 1) -ₗ (over <<ₗ 25));
  wr output (i + 2) (rd output (i + 2) +ₗ over).

Definition freduce_coefficients (output : arr) : option arr :=
  output ← wr output 10 #0;
  output ← for_each reduce_pair (steps2 0 10) output;
  output ← wr output 0 (rd output 0 +ₗ (rd output 10 <<ₗ 4));
  output ← wr output 0 (rd output 0 +ₗ (rd output 10 <<ₗ 1));
  output ← wr output 0 (rd output 0 +ₗ rd output 10);
  output ← wr output 10 #0;
  let over := div_by_2_26 (rd output 0) in
  output ← wr output 0 (rd output 0 -ₗ (over <<ₗ 26));
  wr output 1 (rd output 1 +ₗ over).

Definition fmul (output inp in2 : arr) : option arr :=
  t ← fproduct (uninit 19) inp in2;
  t ← freduce_degree t;
  t ← freduce_coefficients t;
  memcpy output t 10.

Definition fsquare_inner (output inp : arr) : option arr :=
  output ← wr output 0 (s32_of inp 0 *ₗ s32_of inp 0);
  output ← wr output 1 (#2 *ₗ s32_of inp 0 *ₗ s32_of inp 1);
  output ← wr output 2 (#2 *ₗ (s32_of inp 1 *ₗ s32_of inp 1 +ₗ s32_of inp 0 *ₗ s32_of inp 2));
  output ← wr output 3 (#2 *ₗ (s32_of inp 1 *ₗ s32_of inp 2 +ₗ s32_of inp 0 *ₗ s32_of inp 3));
  output ← wr output 4 (s32_of inp 2 *ₗ s32_of inp 2 +ₗ #4 *ₗ s32_of inp 1 *ₗ s32_of inp 3 +ₗ
    #2 *ₗ s32_of inp 0 *ₗ s32_of inp 4);
  output ← wr output 5 (#2 *ₗ (s32_of inp 2 *ₗ s32_of inp 3 +ₗ s32_of inp 1 *ₗ s32_of inp 4 +ₗ
    s32_of inp 0 *ₗ s32_of inp 5));
  output ← wr output 6 (#2 *ₗ (s32_of inp 3 *ₗ s32_of inp 3 +ₗ s32_of inp 2 *ₗ s32_of inp 4 +ₗ
    s32_of inp 0 *ₗ s32_of inp 6 +ₗ #2 *ₗ s32_of inp 1 *ₗ s32_of inp 5));
  output ← wr output 7 (#2 *ₗ (s32_of inp 3 *ₗ s32_of inp 4 +ₗ s32_of inp 2 *ₗ s32_of inp 5 +ₗ
    s32_of inp 1 *ₗ s32_of inp 6 +ₗ s32_of inp 0 *ₗ s32_of inp 7));
  output ← wr output 8 (s32_of inp 4 *ₗ s32_of inp 4 +ₗ #2 *ₗ (s32_of inp 2 *ₗ s32_of inp 6 +ₗ
    s32_of inp 0 *ₗ s32_of inp 8 +ₗ #2 *ₗ (s32_of inp 1 *ₗ s32_of inp 7 +ₗ
    s32_of inp 3 *ₗ s32_of inp 5)));
  output ← wr output 9 (#2 *ₗ (s32_of inp 4 *ₗ s32_of inp 5 +ₗ s32_of inp 3 *ₗ s32_of inp 6 +ₗ
    s32_of inp 2 *ₗ s32_of inp 7 +ₗ s32_of inp 1 *ₗ s32_of inp 8 +ₗ
    s32_of inp 0 *ₗ s32_of inp 9));
  output ← wr output 10 (#2 *ₗ (s32_of inp 5 *ₗ s32_of inp 5 +ₗ s32_of inp 4 *ₗ s32_of inp 6 +ₗ
    s32_of inp 2 *ₗ s32_of inp 8 +ₗ #2 *ₗ (s32_of inp 3 *ₗ s32_of inp 7 +ₗ
    s32_of inp 1 *ₗ s32_of inp 9)));
  output ← wr output 11 (#2 *ₗ (s32_of inp 5 *ₗ s32_of inp 6 +ₗ s32_of inp 4 *ₗ s32_of inp 7 +ₗ
    s32_of inp 3 *ₗ s32_of inp 8 +ₗ s32_of inp 2 *ₗ s32_of inp 9));
  output ← wr output 12 (s32_of inp 6 *ₗ s32_of inp 6 +ₗ #2 *ₗ (s32_of inp 4 *ₗ s32_of inp 8 +ₗ
    #2 *ₗ (s32_of inp 5 *ₗ s32_of inp 7 +ₗ s32_of inp 3 *ₗ s32_of inp 9)));
  output ← wr output 13 (#2 *ₗ (s32_of inp 6 *ₗ s32_of inp 7 +ₗ s32_of inp 5 *ₗ s32_of inp 8 +ₗ
    s32_of inp 4 *ₗ s32_of inp 9));
  output ← wr output 14 (#2 *ₗ (s32_of inp 7 *ₗ s32_of inp 7 +ₗ s32_of inp 6 *ₗ s32_of inp 8 +ₗ
    #2 *ₗ s32_of inp 5 *ₗ s32_of inp 9));
  output ← wr output 15 (#2 *ₗ (s32_of inp 7 *ₗ s32_of inp 8 +ₗ s32_of inp 6 *ₗ s32_of inp 9));
  output ← wr output 16 (s32_of inp 8 *ₗ s32_of inp 8 +ₗ #4 *ₗ s32_of inp 7 *ₗ s32_of inp 9);
  output ← wr output 17 (#2 *ₗ s32_of inp 8 *ₗ s32_of inp 9);
  output ← wr output 18 (#2 *ₗ s32_of inp 9 *ₗ s32_of inp 9);
  Some output.

Definition fsquare (output inp : arr) : option arr :=
  t ← fsquare_inner (uninit 19) inp;
  t ← freduce_degree t;
  t ← freduce_coefficients t;
  memcpy output t 10.

(** * Bytes *)

(** The macro [F] of [fexpand]. *)
Definition fexpand_limb (input : bytes) (n start : nat) (shift mask : Z) (output : arr) :
    option arr :=
  wr output n
    (((input !! (start + 0)%nat |ᵢ
       ((input !! (start + 1)%nat) <<ₗ 8) |ᵢ
       ((input !! (start + 2)%nat) <<ₗ 16) |ᵢ
       ((input !! (start + 3)%nat) <<ₗ 24)) >>ᵢ shift) &ᵢ #mask).

Definition fexpand (output : arr) (input : bytes) : option arr :=
  output ← fexpand_limb input 0 0 0 0x3ffffff output;
  output ← fexpand_limb input 1 3 2 0x1ffffff output;
  output ← fexpand_limb input 2 6 3 0x3ffffff output;
  output ← fexpand_limb input 3 9 5 0x1ffffff output;
  output ← fexpand_limb input 4 12 6 0x3ffffff output;
  output ← fexpand_limb input 5 16 0 0x1ffffff output;
  output ← fexpand_limb input 6 19 1 0x3ffffff output;
  output ← fexpand_limb input 7 22 3 0x1ffffff output;
  output ← fexpand_limb input 8 25 4 0x3ffffff output;
  fexpand_limb input 9 28 6 0x1ffffff output.

Definition s32_eq (a b : option Z) : option Z :=
  let a := inot (a ^ᵢ b) in
  let a := a &ᵢ (a <<ᵢ 16) in
  let a := a &ᵢ (a <<ᵢ 8) in
  let a := a &ᵢ (a <<ᵢ 4) in
  let a := a &ᵢ (a <<ᵢ 2) in
  let a := a &ᵢ (a <<ᵢ 1) in
  a >>ᵢ 31.

Definition s32_gte (a b : option Z) : option Z :=
  let a := a -ᵢ b in
  inot (a >>ᵢ 31).

(** The width of limb [i]: 25 bits when [(i & 1) == 1], 26 otherwise. *)
Definition limb_bits (i : nat) : Z := if Nat.odd i then 25 else 26.
Definition limb_mask (i : nat) : Z := if Nat.odd i then 0x1ffffff else 0x3ffffff.

(** Make limb [i] non-negative by borrowing from the next one. *)
Definition borrow (i : nat) (input : arr) : option arr :=
  let mask := rd input i >>ᵢ 31 in
  let carry := ineg W32 ((rd input i &ᵢ mask) >>ᵢ limb_bits i) in
  input' ← wr input i (rd input i +ᵢ (carry <<ᵢ limb_bits i));
  wr input' (i + 1) (rd input' (i + 1) -ᵢ carry).

(** The last limb borrows from the first, 19 for one. *)
Definition borrow_last (input : arr) : option arr :=
  let mask := rd input 9 >>ᵢ 31 in
  let carry := ineg W32 ((rd input 9 &ᵢ mask) >>ᵢ 25) in
  input' ← wr input 9 (rd input 9 +ᵢ (carry <<ᵢ 25));
  wr input' 0 (rd input' 0 -ᵢ (carry *ᵢ #19)).

(** One pass of borrows over the limbs, and below one of carries. *)
Definition borrow_pass (input : arr) : option arr :=
  input ← for_each borrow (seq 0 9) input;
  borrow_last input.

Definition carry_limb (i : nat) (input : arr) : option arr :=
  let carry := rd input i >>ᵢ limb_bits i in
  input' ← wr input i (rd input i &ᵢ #(limb_mask i));
  wr input' (i + 1) (rd input' (i + 1) +ᵢ carry).

Definition carry_last (input : arr) : option arr :=
  let carry := rd input 9 >>ᵢ 25 in
  input' ← wr input 9 (rd input 9 &ᵢ #0x1ffffff);
  wr input' 0 (rd input' 0 +ᵢ (#19 *ᵢ carry)).

Definition carry_pass (input : arr) : option arr :=
  input ← for_each carry_limb (seq 0 9) input;
  carry_last input.

(** The macro [F] of [fcontract]; the output elements are [u8]. *)
Definition fcontract_limb (input : arr) (i s : nat) (output : arr) : option arr :=
  let byte e := u8 <$> (e &ᵢ #0xff) in
  output ← wr output (s + 0) (u8 <$> (rd output (s + 0) |ᵢ (rd input i &ᵢ #0xff)));
  output ← wr output (s + 1) (byte (rd input i >>ᵢ 8));
  output ← wr output (s + 2) (byte (rd input i >>ᵢ 16));
  wr output (s + 3) (byte (rd input i >>ᵢ 24)).

(** Subtract 2^255 - 19 from a number that is not smaller, in constant time. *)
Definition subtract_prime (input : arr) : option arr :=
  let mask := foldl (λ mask i, mask &ᵢ s32_eq (rd input i) #(limb_mask i))
    (s32_gte (rd input 0) #0x3ffffed) (seq 1 9) in
  input ← wr input 0 (rd input 0 -ᵢ (mask &ᵢ #0x3ffffed));
  for_each (λ i input, wr input i (rd input i -ᵢ (mask &ᵢ #(limb_mask i)))) (seq 1 9) input.

(** Align each limb to the byte in which it starts. *)
Definition align_limbs (input : arr) : option arr :=
  input ← wr input 1 (rd input 1 <<ᵢ 2);
  input ← wr input 2 (rd input 2 <<ᵢ 3);
  input ← wr input 3 (rd input 3 <<ᵢ 5);
  input ← wr input 4 (rd input 4 <<ᵢ 6);
  input ← wr input 6 (rd input 6 <<ᵢ 1);
  input ← wr input 7 (rd input 7 <<ᵢ 3);
  input ← wr input 8 (rd input 8 <<ᵢ 4);
  wr input 9 (rd input 9 <<ᵢ 6).

Definition write_bytes (input output : arr) : option arr :=
  output ← wr output 0 #0;
  output ← wr output 16 #0;
  output ← fcontract_limb input 0 0 output;
  output ← fcontract_limb input 1 3 output;
  output ← fcontract_limb input 2 6 output;
  output ← fcontract_limb input 3 9 output;
  output ← fcontract_limb input 4 12 output;
  output ← fcontract_limb input 5 16 output;
  output ← fcontract_limb input 6 19 output;
  output ← fcontract_limb input 7 22 output;
  output ← fcontract_limb input 8 25 output;
  fcontract_limb input 9 28 output.

Definition fcontract (output : arr) (input_limbs : arr) : option arr :=
  input ← for_each (λ i input, wr input i (cast W32 (rd input_limbs i))) (seq 0 10) (uninit 10);
  input ← for_each (λ _, borrow_pass) (seq 0 2) input;
  input ← borrow 0 input;
  input ← for_each (λ _, carry_pass) (seq 0 2) input;
  input ← subtract_prime input;
  input ← align_limbs input;
  write_bytes input output.

(** * The Montgomery ladder *)

(** The eight arrays [fmonty] writes: the outputs and the destroyed inputs. *)
Record monty := Monty {
  m_x2 : arr; m_z2 : arr; m_x3 : arr; m_z3 : arr;
  m_x : arr; m_z : arr; m_xprime : arr; m_zprime : arr
}.

Definition fmonty (m : monty) (qmqp : arr) : option monty :=
  let x := m_x m in let z := m_z m in
  let xprime := m_xprime m in let zprime := m_zprime m in
  origx ← memcpy (uninit 10) x 10;
  x ← fsum x z;
  z ← fdifference z origx;
  origxprime ← memcpy (uninit 10) xprime 10;
  xprime ← fsum xprime zprime;
  zprime ← fdifference zprime origxprime;
  xxprime ← fproduct (uninit 19) xprime z;
  zzprime ← fproduct (uninit 19) x zprime;
  xxprime ← freduce_degree xxprime;
  xxprime ← freduce_coefficients xxprime;
  zzprime ← freduce_degree zzprime;
  zzprime ← freduce_coefficients zzprime;
  origxprime ← memcpy origxprime xxprime 10;
  xxprime ← fsum xxprime zzprime;
  zzprime ← fdifference zzprime origxprime;
  xxxprime ← fsquare (uninit 19) xxprime;
  zzzprime ← fsquare (uninit 19) zzprime;
  zzprime ← fproduct zzprime zzzprime qmqp;
  zzprime ← freduce_degree zzprime;
  zzprime ← freduce_coefficients zzprime;
  x3 ← memcpy (m_x3 m) xxxprime 10;
  z3 ← memcpy (m_z3 m) zzprime 10;
  xx ← fsquare (uninit 19) x;
  zz ← fsquare (uninit 19) z;
  x2 ← fproduct (m_x2 m) xx zz;
  x2 ← freduce_degree x2;
  x2 ← freduce_coefficients x2;
  zz ← fdifference zz xx;
  zzz ← for_each (λ i zzz, wr zzz (10 + i) #0) (seq 0 9) (uninit 19);
  zzz ← fscalar_product zzz zz 121665;
  zzz ← freduce_coefficients zzz;
  zzz ← fsum zzz xx;
  z2 ← fproduct (m_z2 m) zz zzz;
  z2 ← freduce_degree z2;
  z2 ← freduce_coefficients z2;
  Some (Monty x2 z2 x3 z3 x z xprime zprime).

(** The loop body of [swap_conditional]. *)
Definition swap_limb (swap : option Z) (i : nat) (ab : arr * arr) : option (arr * arr) :=
  let x := swap &ᵢ (s32_of ab.1 i ^ᵢ s32_of ab.2 i) in
  a ← wr ab.1 i (s32_of ab.1 i ^ᵢ x);
  b ← wr ab.2 i (s32_of ab.2 i ^ᵢ x);
  Some (a, b).

Definition swap_conditional (a b : arr) (iswap : Z) : option (arr * arr) :=
  let swap := cast W32 (ineg W64 #iswap) in
  for_each (swap_limb swap) (seq 0 10) (a, b).

(** The arrays behind the eight pointers of [cmult]. *)
Record ladder := Ladder {
  nqpqx : arr; nqpqz : arr; nqx : arr; nqz : arr;
  nqpqx2 : arr; nqpqz2 : arr; nqx2 : arr; nqz2 : arr
}.

(** One bit of the scalar: the body of the inner loop, which ends by exchanging
    the pointers of each pair. *)
Definition cmult_bit (q : arr) (bit : Z) (s : ladder) : option ladder :=
  '(nqx, nqpqx) ← swap_conditional (nqx s) (nqpqx s) bit;
  '(nqz, nqpqz) ← swap_conditional (nqz s) (nqpqz s) bit;
  m ← fmonty (Monty (nqx2 s) (nqz2 s) (nqpqx2 s) (nqpqz2 s) nqx nqz nqpqx nqpqz) q;
  '(nqx2, nqpqx2) ← swap_conditional (m_x2 m) (m_x3 m) bit;
  '(nqz2, nqpqz2) ← swap_conditional (m_z2 m) (m_z3 m) bit;
  Some (Ladder nqpqx2 nqpqz2 nqx2 nqz2 (m_xprime m) (m_zprime m) (m_x m) (m_z m)).

Definition cmult_byte (q n : arr) (i : nat) (s : ladder) : option ladder :=
  byte ← rd n (31 - i);
  r ← for_each (λ _ r,
    s ← cmult_bit q (Z.shiftr r.2 7) r.1;
    Some (s, u8 (Z.shiftl r.2 1))) (seq 0 8) (s, byte);
  Some r.1.

Definition cmult (resultx resultz n q : arr) : option (arr * arr) :=
  let zeros := Some 0 :: replicate 18 (Some 0) in
  let ones := Some 1 :: replicate 18 (Some 0) in
  a ← memcpy zeros q 10;
  s ← for_each (cmult_byte q n) (seq 0 32)
    (Ladder a ones ones zeros zeros ones zeros ones);
  resultx ← memcpy resultx (nqx s) 10;
  resultz ← memcpy resultz (nqz s) 10;
  Some (resultx, resultz).

(** [for (i = lo; i < hi; i += 2) { fsquare(b,a); fsquare(a,b); }] *)
Definition square_twice (lo hi : nat) (ab : arr * arr) : option (arr * arr) :=
  for_each (λ _ ab, b ← fsquare ab.2 ab.1; a ← fsquare ab.1 b; Some (a, b)) (steps2 lo hi) ab.

Definition crecip (out z : arr) : option arr :=
  let u := uninit 10 in
  z2 ← fsquare u z;
  t1 ← fsquare u z2;
  t0 ← fsquare u t1;
  z9 ← fmul u t0 z;
  z11 ← fmul u z9 z2;
  t0 ← fsquare t0 z11;
  z2_5_0 ← fmul u t0 z9;
  t0 ← fsquare t0 z2_5_0;
  t1 ← fsquare t1 t0;
  t0 ← fsquare t0 t1;
  t1 ← fsquare t1 t0;
  t0 ← fsquare t0 t1;
  z2_10_0 ← fmul u t0 z2_5_0;
  t0 ← fsquare t0 z2_10_0;
  t1 ← fsquare t1 t0;
  '(t1, t0) ← square_twice 2 10 (t1, t0);
  z2_20_0 ← fmul u t1 z2_10_0;
  t0 ← fsquare t0 z2_20_0;
  t1 ← fsquare t1 t0;
  '(t1, t0) ← square_twice 2 20 (t1, t0);
  t0 ← fmul t0 t1 z2_20_0;
  t1 ← fsquare t1 t0;
  t0 ← fsquare t0 t1;
  '(t0, t1) ← square_twice 2 10 (t0, t1);
  z2_50_0 ← fmul u t0 z2_10_0;
  t0 ← fsquare t0 z2_50_0;
  t1 ← fsquare t1 t0;
  '(t1, t0) ← square_twice 2 50 (t1, t0);
  z2_100_0 ← fmul u t1 z2_50_0;
  t1 ← fsquare t1 z2_100_0;
  t0 ← fsquare t0 t1;
  '(t0, t1) ← square_twice 2 100 (t0, t1);
  t1 ← fmul t1 t0 z2_100_0;
  t0 ← fsquare t0 t1;
  t1 ← fsquare t1 t0;
  '(t1, t0) ← square_twice 2 50 (t1, t0);
  t0 ← fmul t0 t1 z2_50_0;
  t1 ← fsquare t1 t0;
  t0 ← fsquare t0 t1;
  t1 ← fsquare t1 t0;
  t0 ← fsquare t0 t1;
  t1 ← fsquare t1 t0;
  fmul out t1 z11.

(** The returned [int] and the 32 bytes of [mypublic].  The clamping of the
    secret is commented out in the source. *)
Definition curve25519_donna (secret basepoint : bytes) : option (Z * bytes) :=
  e ← for_each (λ i e, wr e i (secret !! i)) (seq 0 32) (uninit 32);
  bp ← fexpand (uninit 10) basepoint;
  '(x, z) ← cmult (uninit 10) (uninit 11) e bp;
  zmone ← crecip (uninit 10) z;
  z ← fmul z x zmone;
  mypublic ← fcontract (uninit 32) z;
  out ← mapM id mypublic;
  Some (0, out).

End Donna.
