(* ===== verification/DonnaField.v ===== *)
(** Field arithmetic of curve25519-donna.c: the limb routines compute sums,
    differences and products modulo 2^255 - 19, and no intermediate result
    leaves its machine type. *)

From Stdlib Require Import Setoid Morphisms.
From S2P Require Import Prelude Limbs Donna.
Import Donna.
Local Open Scope limb_scope.

(** * The field *)

Definition p25519 : Z := 2 ^ 255 - 19.
Definition eqp (a b : Z) : Prop := a `mod` p25519 = b `mod` p25519.
Infix "=ₚ" := eqp (at level 70).

#[export] Instance eqp_equiv : Equivalence eqp.
Proof. split; unfold eqp; [by intros x|by intros x y|intros x y z; congruence]. Qed.
#[export] Instance eqp_add : Proper (eqp ==> eqp ==> eqp) Z.add.
Proof.
  intros a a' Ha b b' Hb. unfold eqp in *.
  by rewrite (Z.add_mod a), (Z.add_mod a'), Ha, Hb by done.
Qed.
#[export] Instance eqp_mul : Proper (eqp ==> eqp ==> eqp) Z.mul.
Proof.
  intros a a' Ha b b' Hb. unfold eqp in *.
  by rewrite (Z.mul_mod a), (Z.mul_mod a'), Ha, Hb by done.
Qed.
#[export] Instance eqp_sub : Proper (eqp ==> eqp ==> eqp) Z.sub.
Proof.
  intros a a' Ha b b' Hb. unfold eqp in *.
  by rewrite (Zminus_mod a), (Zminus_mod a'), Ha, Hb.
Qed.

Lemma eqp_of_diff a b k : a = b + k * p25519 → a =ₚ b.
Proof. intros ->. unfold eqp. by rewrite Z_mod_plus_full. Qed.

(** * Limbs *)

(** The value of a limb array: limb [i] has the weight 2^ceil(25.5 i). *)
Definition weight (i : Z) : Z := 2 ^ ((51 * i + 1) / 2).
Fixpoint eval_from (i : Z) (l : list Z) : Z :=
  match l with [] => 0 | x :: l => weight i * x + eval_from (i + 1) l end.
Definition eval (l : list Z) : Z := eval_from 0 l.

(** [holds n B a l]: the first [n] elements of the array are [l], all of
    magnitude below [B]. *)
Definition holds (n : nat) (B : Z) (a : arr) (l : list Z) : Prop :=
  (∃ tl, a = (Some <$> l) ++ tl) ∧ length l = n ∧ Forall (within B) l.

Lemma holds_weaken n B B' a l : holds n B a l → B <= B' → holds n B' a l.
Proof.
  intros (Ha & Hl & HB) Hle. split_and!; [done..|].
  eapply Forall_impl; [done|]. intros. by eapply within_weaken.
Qed.

(** Expose the limbs of an array as variables with their ranges. *)
Ltac expose H :=
  let tl := fresh "tl" in let Hl := fresh "Hl" in let HB := fresh "HB" in
  destruct H as ((tl & ->) & Hl & HB);
  repeat match type of Hl with
  | length ?l = S _ =>
    let x := fresh "x" in let l' := fresh "l" in
    destruct l as [|x l']; [discriminate Hl|];
    let Hx := fresh "Hx" in
    pose proof (Forall_inv HB) as Hx; apply Forall_inv_tail in HB;
    cbn [length] in Hl; apply Nat.succ_inj in Hl
  | length ?l = O => destruct l; [clear Hl HB|discriminate Hl]
  end; cbn [fmap list_fmap app] in *.

(** Compute the value and the range of an expression. *)
Ltac rng :=
  lazymatch goal with
  | |- ranged (iadd _ _ _) _ _ => eapply ranged_add; [rng|rng|by vm_compute]
  | |- ranged (isub _ _ _) _ _ => eapply ranged_sub; [rng|rng|by vm_compute]
  | |- ranged (imul _ (Some _) _) _ _ => eapply ranged_scale; [done|rng|by vm_compute]
  | |- ranged (imul _ _ _) _ _ => eapply ranged_mul; [rng|rng|by vm_compute]
  | |- ranged (ishl _ _ _) _ _ => eapply ranged_shl; [done|rng|by vm_compute]
  | |- ranged (cast _ _) _ _ => eapply ranged_cast; [rng|by vm_compute]
  | |- ranged (s32_of _ _) _ _ => unfold s32_of; rng
  | |- ranged (rd _ _) _ _ => split; [reflexivity|eassumption]
  | |- ranged (Some _) _ _ => split; [reflexivity|eassumption]
  end.

(** Run the next assignment, keeping the range of what it writes. *)
Ltac wr_step :=
  let R := fresh "R" in
  first [eapply runs_wr|eapply runs_wr_last];
  [rng|cbn [length]; lia|intros R; cbn [insert list_insert]; cbv beta].

(** The elements of an array as a list of values. *)
Ltac values l :=
  lazymatch l with
  | Some ?v :: ?l => let t := values l in constr:(v :: t)
  | _ => constr:(@nil Z)
  end.

(** Prove a sum of products modulo the weights. *)
Ltac weights :=
  unfold eval; cbn [eval_from];
  repeat match goal with
  | |- context [weight ?i] => let w := eval vm_compute in (weight i) in change (weight i) with w
  end.

(** Make the first elements of an array explicit. *)
Ltac explicit out Ho :=
  repeat lazymatch type of Ho with
  | (S _ <= length out)%nat =>
    destruct out as [|? out]; [by apply Nat.nle_succ_0 in Ho|apply le_S_n in Ho; fold (length out) in Ho]
  end.

(** The ranges kept by [wr_step] bound every limb. *)
Ltac bounds :=
  repeat (apply Forall_cons_2;
    [lazymatch goal with H : within ?B ?v |- within _ ?v =>
       apply (within_weaken B); [exact H|by vm_compute] end|]);
  apply Forall_nil_2.

(** * Products *)

(** A product has 19 limbs, each below 14 times the largest product. *)
Lemma fproduct_ok (out a b : arr) x y :
  holds 10 (2 ^ 27) a x → holds 10 (2 ^ 27) b y → (19 <= length out)%nat →
  runs (fproduct out a b) (λ out', length out' = length out ∧
    ∃ t, holds 19 (14 * 2 ^ 54) out' t ∧ eval t = eval x * eval y).
Proof.
  intros Ha Hb Ho. expose Ha. expose Hb. explicit out Ho.
  unfold fproduct. repeat wr_step. apply runs_some. split; [done|].
  lazymatch goal with |- ∃ t, holds _ _ ?l t ∧ _ => let t := values l in exists t end.
  split; [split_and!; [by exists out|done|bounds]|weights; ring].
Qed.

Lemma fsquare_inner_ok (out a : arr) x :
  holds 10 (2 ^ 27) a x → (19 <= length out)%nat →
  runs (fsquare_inner out a) (λ out', length out' = length out ∧
    ∃ t, holds 19 (14 * 2 ^ 54) out' t ∧ eval t = eval x * eval x).
Proof.
  intros Ha Ho. expose Ha. explicit out Ho.
  unfold fsquare_inner. repeat wr_step. apply runs_some. split; [done|].
  lazymatch goal with |- ∃ t, holds _ _ ?l t ∧ _ => let t := values l in exists t end.
  split; [split_and!; [by exists out|done|bounds]|weights; ring].
Qed.

(** * Reduction of the degree *)

Lemma freduce_degree_ok (a : arr) t :
  holds 19 (14 * 2 ^ 54) a t →
  runs (freduce_degree a) (λ a', length a' = length a ∧
    ∃ x, holds 10 (280 * 2 ^ 54) a' x ∧ eval x =ₚ eval t).
Proof.
  intros Ha. expose Ha.
  unfold freduce_degree. repeat wr_step. apply runs_some. split; [done|].
  lazymatch goal with |- ∃ t, holds _ _ ?l t ∧ _ =>
    let t := values l in let t := eval cbn [take] in (take 10 t) in exists t end.
  split; [split_and!; [by eexists (Some x9 :: _)|done|bounds]|].
  apply (eqp_of_diff _ _ (- eval [x9; x10; x11; x12; x13; x14; x15; x16; x17])).
  unfold p25519. weights. ring.
Qed.

(** * Reduction of the coefficients *)

(** The sign and rounding tricks divide towards zero. *)
Lemma div_sign x :
  within (half W64) x →
  Z.shiftr (wrap W32 (u32 (Z.shiftr (usize x) 32))) 31 = if x <? 0 then -1 else 0.
Proof.
  unfold within, wrap, u32, usize. cbn [half]. intros Hx.
  rewrite !Z.shiftr_div_pow2 by done. destruct (Z.ltb_spec x 0).
  - assert (x `mod` 2 ^ 64 = x + 2 ^ 64) as ->.
    { symmetry. apply (Z.mod_unique _ _ (-1)); lia. }
    assert (2 ^ 31 <= (x + 2 ^ 64) `div` 2 ^ 32 < 2 ^ 32) as Hd.
    { split; [apply Z.div_le_lower_bound|apply Z.div_lt_upper_bound]; lia. }
    rewrite (Z.mod_small (_ `div` _)) by lia.
    rewrite <-(Z.mod_unique (_ + _) _ 1 ((x + 2 ^ 64) `div` 2 ^ 32 - 2 ^ 31)) by lia.
    symmetry. apply (Z.div_unique _ _ _ ((x + 2 ^ 64) `div` 2 ^ 32 - 2 ^ 31)); lia.
  - rewrite (Z.mod_small x) by lia.
    assert (0 <= x `div` 2 ^ 32 < 2 ^ 31) as Hd.
    { split; [apply Z.div_pos|apply Z.div_lt_upper_bound]; lia. }
    rewrite (Z.mod_small (_ `div` _)) by lia. rewrite Z.mod_small by lia.
    apply Z.div_small. lia.
Qed.

Lemma div_by_quot x n :
  within (half W64) x → 0 < n < 31 →
  (Some x +ₗ Some (if x <? 0 then 2 ^ n - 1 else 0)) >>ᵢ n = Some (x `quot` 2 ^ n).
Proof.
  unfold within. cbn [half]. intros Hx Hn.
  pose proof (Z.pow_lt_mono_r 2 n 31). pose proof (Z.pow_pos_nonneg 2 n).
  unfold iadd, ishr. cbn [mbind option_bind].
  rewrite checked_fits by (destruct (Z.ltb_spec x 0); unfold within; cbn [half]; lia).
  cbn [mbind option_bind]. f_equal. rewrite Z.shiftr_div_pow2 by lia.
  destruct (Z.ltb_spec x 0).
  - rewrite <-(Z.opp_involutive x) at 2. rewrite Z.quot_opp_l by lia.
    rewrite Z.quot_div_nonneg by lia.
    Z.to_euclidean_division_equations. nia.
  - by rewrite Z.add_0_r, Z.quot_div_nonneg by lia.
Qed.

Lemma div_by_2_26_quot x :
  within (half W64) x → div_by_2_26 (Some x) = Some (x `quot` 2 ^ 26).
Proof.
  intros Hx. rewrite <-div_by_quot by done. unfold div_by_2_26.
  cbn [mbind option_bind]. rewrite div_sign by done. by destruct (x <? 0).
Qed.
Lemma div_by_2_25_quot x :
  within (half W64) x → div_by_2_25 (Some x) = Some (x `quot` 2 ^ 25).
Proof.
  intros Hx. rewrite <-div_by_quot by done. unfold div_by_2_25.
  cbn [mbind option_bind]. rewrite div_sign by done. by destruct (x <? 0).
Qed.

Lemma within_quot K m x : 0 < m → within (K * m) x → within K (x `quot` m).
Proof.
  unfold within. intros Hm Hx. destruct (Z.le_gt_cases 0 x) as [H|H].
  - pose proof (Z.quot_pos x m). pose proof (Z.quot_lt_upper_bound x m K). nia.
  - pose proof (Z.quot_pos (- x) m). pose proof (Z.quot_lt_upper_bound (- x) m K).
    rewrite Z.quot_opp_l in * by lia. nia.
Qed.
Lemma within_rem m x : 0 < m → within m (x - x `quot` m * m).
Proof.
  intros Hm. pose proof (Z.quot_rem' x m). pose proof (Z.rem_bound_abs x m).
  unfold within. lia.
Qed.

Lemma ranged_div26 a x K :
  ranged a x (K * 2 ^ 26) → K * 2 ^ 26 <= half W64 →
  ranged (div_by_2_26 a) (x `quot` 2 ^ 26) K.
Proof.
  intros [-> Hx] HK. split; [|by apply within_quot].
  apply div_by_2_26_quot. by eapply within_weaken.
Qed.
Lemma ranged_div25 a x K :
  ranged a x (K * 2 ^ 25) → K * 2 ^ 25 <= half W64 →
  ranged (div_by_2_25 a) (x `quot` 2 ^ 25) K.
Proof.
  intros [-> Hx] HK. split; [|by apply within_quot].
  apply div_by_2_25_quot. by eapply within_weaken.
Qed.

(** Subtracting [over << n] leaves the remainder. *)
Lemma ranged_rem n a over x K :
  ranged a x (K * 2 ^ n) → ranged over (x `quot` 2 ^ n) K →
  0 <= n < 63 → K * 2 ^ n <= half W64 →
  ranged (a -ₗ (over <<ₗ n)) (x - x `quot` 2 ^ n * 2 ^ n) (2 ^ n).
Proof.
  intros [-> Hx] Hover Hn HK.
  destruct (ranged_shl W64 _ _ _ n (proj1 Hn) Hover HK) as [-> _].
  pose proof (within_rem (2 ^ n) x ltac:(lia)) as Hr. split; [|done].
  apply checked_fits. eapply within_weaken; [done|].
  change (half W64) with (2 ^ 63). apply Z.pow_le_mono_r; lia.
Qed.

Lemma ranged_at a x B B' : a = Some x → within B x → B <= B' → ranged a x B'.
Proof. intros -> H ?. split; [done|]. by eapply within_weaken. Qed.

Lemma reduce_pair_ok (a : arr) i x y z :
  rd a i = Some x → rd a (i + 1) = Some y → rd a (i + 2) = Some z →
  within (281 * 2 ^ 54) x → within (280 * 2 ^ 54) y → within (280 * 2 ^ 54) z →
  runs (reduce_pair i a) (λ a', ∃ r s c : Z,
    a' = <[(i + 2)%nat := Some (z + c)]> (<[(i + 1)%nat := Some s]> (<[i := Some r]> a)) ∧
    x + 2 ^ 26 * y = r + 2 ^ 26 * s + 2 ^ 51 * c ∧
    within (2 ^ 26) r ∧ within (2 ^ 25) s ∧ within (281 * 2 ^ 29) c).
Proof.
  intros Ex Ey Ez Hx Hy Hz.
  pose proof (rd_length _ _ _ Ex). pose proof (rd_length _ _ _ Ey).
  pose proof (rd_length _ _ _ Ez).
  assert (ranged (rd a i) x (281 * 2 ^ 28 * 2 ^ 26)) as Rx by by eapply ranged_at.
  pose proof (ranged_div26 _ _ _ Rx ltac:(done)) as Rq.
  unfold reduce_pair.
  eapply runs_wr; [by eapply (ranged_rem 26 _ _ _ _ Rx Rq)|done|]. intros Hr.
  eapply runs_wr; [eapply ranged_add; [|exact Rq|]|by rewrite length_insert|];
    [rewrite rd_insert_ne by lia; by eapply ranged_at|done|].
  set (y' := y + x `quot` 2 ^ 26). intros Hy'.
  assert (ranged (rd (<[(i + 1)%nat:=Some y']> (<[i:=Some (x - x `quot` 2 ^ 26 * 2 ^ 26)]> a)) (i + 1))
    y' (281 * 2 ^ 29 * 2 ^ 25)) as Ry.
  { rewrite rd_insert_eq by (by rewrite length_insert). by eapply ranged_at. }
  pose proof (ranged_div25 _ _ _ Ry ltac:(done)) as Rq'.
  eapply runs_wr; [by eapply (ranged_rem 25 _ _ _ _ Ry Rq')|by rewrite !length_insert|]. intros Hs.
  rewrite list_insert_insert_eq.
  eapply runs_wr_last; [eapply ranged_add; [|exact Rq'|]|by rewrite !length_insert|];
    [rewrite !rd_insert_ne by lia; by eapply ranged_at|done|].
  intros _. eexists _, _, _. split; [done|]. split_and!; [|done|done|apply Rq'].
  subst y'. lia.
Qed.

Lemma within_add A B C x y : within A x → within B y → A + B <= C → within C (x + y).
Proof. unfold within. lia. Qed.

(** One round of the loop on an explicit array. *)
Ltac reduce_step i :=
  repeat lazymatch goal with |- runs ((_ ≫= _) ≫= _) _ => apply runs_assoc end;
  eapply runs_bind;
  [eapply (reduce_pair_ok _ i); [reflexivity..| | |];
   first [eassumption|by eapply within_weaken|by eapply within_add|done]
  |let r := fresh "r" in let s := fresh "s" in let c := fresh "c" in
   let E := fresh "E" in
   intros ? (r & s & c & -> & E & ? & ? & ?); cbn [insert list_insert Nat.add]; cbv beta].

(** All limbs end up below 2^26, modulo the prime the value is unchanged. *)
Lemma freduce_coefficients_ok (a : arr) t :
  holds 10 (280 * 2 ^ 54) a t → (11 <= length a)%nat →
  runs (freduce_coefficients a) (λ a', length a' = length a ∧
    ∃ x, holds 10 (2 ^ 26) a' x ∧ eval x =ₚ eval t).
Proof.
  intros Ha Hlen. expose Ha. destruct tl as [|o tl]; [cbn in Hlen; lia|clear Hlen].
  unfold freduce_coefficients.
  eapply (runs_wr _ _ _ 0 1); [done|cbn; lia|]. intros H0. cbn [insert list_insert].
  change (steps2 0 10) with [0; 2; 4; 6; 8]%nat. cbn [for_each].
  reduce_step 0%nat. reduce_step 2%nat. reduce_step 4%nat. reduce_step 6%nat.
  reduce_step 8%nat. rewrite Z.add_0_l.
  lazymatch goal with |- runs (Some ?a ≫= ?k) ?Q => change (runs (k a) Q); cbv beta end.
  do 4 wr_step.
  lazymatch goal with R : within _ 0, R' : within _ ?v |- runs (wr (Some ?v :: _) _ _ ≫= _) _ =>
    assert (v = r + 19 * c3) as -> by (clear; lia);
    assert (ranged (Some (r + 19 * c3)) (r + 19 * c3) ((1 + 19 * 281 * 2 ^ 3) * 2 ^ 26)) as Rv
      by (split; [done|unfold within in *; lia]) end.
  pose proof (ranged_div26 _ _ _ Rv ltac:(done)) as Rq.
  eapply runs_wr; [by apply (ranged_rem 26 _ _ _ _ Rv Rq)|cbn; lia|].
  intros Hr. cbn [insert list_insert].
  eapply runs_wr_last; [eapply ranged_add; [by split|exact Rq|done]|cbn; lia|].
  intros Hs. cbn [insert list_insert]. split; [done|].
  lazymatch goal with |- ∃ t, holds _ _ ?l t ∧ _ =>
    let t := values l in let t := eval cbn [take] in (take 10 t) in exists t end.
  split; [split_and!; [by eexists (Some 0 :: _)|done|bounds]|].
  revert E E0 E1 E2 E3. generalize ((r + 19 * c3) `quot` 2 ^ 26). clear. intros q E E0 E1 E2 E3.
  apply (eqp_of_diff _ _ (- c3)). unfold p25519. weights. lia.
Qed.

(** * The field operations *)

(** [repr B a v]: the array holds a short form of the field element [v] with
    limbs below [B]; [long a v]: it holds a product. *)
Definition repr (B : Z) (a : arr) (v : Z) : Prop := ∃ x, holds 10 B a x ∧ eval x =ₚ v.
Definition long (a : arr) (v : Z) : Prop := ∃ t, holds 19 (14 * 2 ^ 54) a t ∧ eval t =ₚ v.

#[export] Instance repr_proper B a : Proper (eqp ==> iff) (repr B a).
Proof. intros v w E. unfold repr. by setoid_rewrite E. Qed.

Lemma repr_weaken B B' a v : repr B a v → B <= B' → repr B' a v.
Proof. intros (x & Hx & E) H. exists x. split; [by eapply holds_weaken|done]. Qed.

Lemma memcpy_ok dst src B v :
  repr B src v → (10 <= length dst)%nat →
  runs (memcpy dst src 10) (λ d, length d = length dst ∧ repr B d v).
Proof.
  intros (x & ((tl & ->) & Hl & HB) & E) Hd. unfold memcpy.
  rewrite (proj2 (Nat.leb_le _ _) Hd), (proj2 (Nat.leb_le _ _))
    by (rewrite length_app, length_fmap, Hl; lia).
  apply runs_some. rewrite take_app_length' by (by rewrite length_fmap). split.
  - rewrite length_app, length_fmap, length_drop. lia.
  - exists x. split; [|done]. split_and!; [by eexists|done..].
Qed.

Lemma product_ok out a b u v :
  repr (2 ^ 27) a u → repr (2 ^ 27) b v → (19 <= length out)%nat →
  runs (fproduct out a b) (λ o, length o = length out ∧ long o (u * v)).
Proof.
  intros (x & Hx & Eu) (y & Hy & Ev) Ho.
  eapply runs_mono; [by apply (fproduct_ok out a b x y)|].
  intros o (Hlen & t & Ht & E). split; [done|]. exists t. split; [done|].
  by rewrite E, Eu, Ev.
Qed.
Lemma square_ok out a u :
  repr (2 ^ 27) a u → (19 <= length out)%nat →
  runs (fsquare_inner out a) (λ o, length o = length out ∧ long o (u * u)).
Proof.
  intros (x & Hx & Eu) Ho.
  eapply runs_mono; [by apply (fsquare_inner_ok out a x)|].
  intros o (Hlen & t & Ht & E). split; [done|]. exists t. split; [done|].
  by rewrite E, Eu.
Qed.
Lemma degree_ok a v :
  long a v → runs (freduce_degree a) (λ o, length o = length a ∧ repr (280 * 2 ^ 54) o v).
Proof.
  intros (t & Ht & E). eapply runs_mono; [by apply (freduce_degree_ok a t)|].
  intros o (Hlen & x & Hx & E'). split; [done|]. exists x. by rewrite E', E.
Qed.
Lemma coefficients_ok a B v :
  repr B a v → B <= 280 * 2 ^ 54 → (11 <= length a)%nat →
  runs (freduce_coefficients a) (λ o, length o = length a ∧ repr (2 ^ 26) o v).
Proof.
  intros Ha HB Hl. destruct (repr_weaken _ _ _ _ Ha HB) as (t & Ht & E).
  eapply runs_mono; [by apply (freduce_coefficients_ok a t)|].
  intros o (Hlen & x & Hx & E'). split; [done|]. exists x. by rewrite E', E.
Qed.

(** Apply the lemma of the next operation. *)
Ltac op L :=
  eapply runs_bind; [eapply L|];
  first [eassumption|by eapply repr_weaken|rewrite ?length_uninit; lia|idtac].
Ltac opn L H := op L; intros ?a [?Hlen H]; rewrite ?length_uninit in *.

Lemma fmul_ok out a b u v :
  repr (2 ^ 27) a u → repr (2 ^ 27) b v → (10 <= length out)%nat →
  runs (fmul out a b) (λ o, length o = length out ∧ repr (2 ^ 26) o (u * v)).
Proof.
  intros Ha Hb Ho. unfold fmul. opn product_ok H. opn degree_ok H1.
  opn coefficients_ok H2. by apply memcpy_ok.
Qed.

Lemma fsquare_ok out a u :
  repr (2 ^ 27) a u → (10 <= length out)%nat →
  runs (fsquare out a) (λ o, length o = length out ∧ repr (2 ^ 26) o (u * u)).
Proof.
  intros Ha Ho. unfold fsquare. opn square_ok H. opn degree_ok H1.
  opn coefficients_ok H2. by apply memcpy_ok.
Qed.

(** Run a loop over the ten limbs of explicit arrays and show what its result
    represents. *)
Ltac limbwise :=
  repeat (repeat lazymatch goal with
    | |- runs ((_ ≫= _) ≫= _) _ => apply runs_assoc end; wr_step);
  apply runs_some; split; [done|unfold repr];
  lazymatch goal with |- ∃ t, holds _ _ ?l t ∧ _ =>
    let t := values l in let t := eval cbn [take] in (take 10 t) in exists t end;
  split; [split_and!; [by eexists|done|bounds]|].

Lemma fsum_ok a b u v :
  repr (2 ^ 26) a u → repr (2 ^ 26) b v →
  runs (fsum a b) (λ o, length o = length a ∧ repr (2 ^ 27) o (u + v)).
Proof.
  intros (x & Ha & Eu) (y & Hb & Ev). expose Ha. expose Hb.
  unfold fsum. change (steps2 0 10) with [0; 2; 4; 6; 8]%nat. cbn [for_each Nat.add].
  limbwise. rewrite <-Eu, <-Ev. apply eq_subrelation; [apply _|]. weights. ring.
Qed.

Lemma fdifference_ok a b u v :
  repr (2 ^ 26) a u → repr (2 ^ 26) b v →
  runs (fdifference a b) (λ o, length o = length a ∧ repr (2 ^ 27) o (v - u)).
Proof.
  intros (x & Ha & Eu) (y & Hb & Ev). expose Ha. expose Hb.
  unfold fdifference. cbn [seq for_each].
  limbwise. rewrite <-Eu, <-Ev. apply eq_subrelation; [apply _|]. weights. ring.
Qed.

Lemma fscalar_product_ok out a v :
  repr (2 ^ 27) a v → (10 <= length out)%nat →
  runs (fscalar_product out a 121665) (λ o, length o = length out ∧
    repr (2 ^ 44) o (v * 121665)).
Proof.
  intros (x & Ha & Ev) Ho. expose Ha. explicit out Ho.
  assert (within 121666 121665) as Hc by done.
  unfold fscalar_product. cbn [seq for_each].
  limbwise. rewrite <-Ev. apply eq_subrelation; [apply _|]. weights. ring.
Qed.

(** The documented contract of [fmul] and [fsquare]: for limbs of magnitude
    below 2^27 no product, sum or carry overflows, the limbs of the result are
    below 2^26 and its value is the product modulo 2^255 - 19. *)
Theorem field_products_in_range (out a b : arr) (x y : list Z) :
  (10 <= length out)%nat → holds 10 (2 ^ 27) a x → holds 10 (2 ^ 27) b y →
  (∃ o t, fmul out a b = Some o ∧ holds 10 (2 ^ 26) o t ∧
    eval t `mod` p25519 = (eval x * eval y) `mod` p25519) ∧
  (∃ o t, fsquare out a = Some o ∧ holds 10 (2 ^ 26) o t ∧
    eval t `mod` p25519 = (eval x * eval x) `mod` p25519).
Proof.
  intros Ho Ha Hb. split.
  - destruct (fmul_ok out a b (eval x) (eval y)) as (o & E & _ & t & Ht & Et);
      [by exists x|by exists y|done|by exists o, t].
  - destruct (fsquare_ok out a (eval x)) as (o & E & _ & t & Ht & Et);
      [by exists x|done|by exists o, t].
Qed.

(** Limbs of the largest admitted magnitude. *)
Definition extreme (s : Z) : arr := replicate 10 (Some (s * (2 ^ 27 - 1))).

Lemma field_products_in_range_witness :
  ∃ o t, fmul (uninit 10) (extreme 1) (extreme (-1)) = Some o ∧ holds 10 (2 ^ 26) o t.
Proof.
  destruct (field_products_in_range (uninit 10) (extreme 1) (extreme (-1))
    (replicate 10 (2 ^ 27 - 1)) (replicate 10 (- (2 ^ 27 - 1)))) as [(o & t & E & H & _) _].
  - reflexivity.
  - split; [exists []; reflexivity|split; [reflexivity|repeat constructor]].
  - split; [exists []; reflexivity|split; [reflexivity|repeat constructor]].
  - exists o, t. split; [exact E|exact H].
Defined.
