(* ===== verification/DonnaBytes.v ===== *)
(** Bytes of curve25519-donna.c: [fexpand] reads a little-endian number into
    limbs, [fcontract] writes the canonical representative back. *)

From Stdlib Require Import Setoid Morphisms.
From S2P Require Import Prelude Limbs Donna DonnaField.
Import Donna.
Local Open Scope limb_scope.

(** * Little-endian numbers *)

Fixpoint le_value (bs : bytes) : Z :=
  match bs with [] => 0 | b :: bs => b + 256 * le_value bs end.
Fixpoint le_bytes (n : nat) (z : Z) : bytes :=
  match n with O => [] | S n => z `mod` 256 :: le_bytes n (z `div` 256) end.

Lemma le_bytes_value bs : wf_bytes bs → le_bytes (length bs) (le_value bs) = bs.
Proof.
  induction 1 as [|b bs Hb _ IH]; [done|]. cbn [length le_bytes le_value].
  unfold is_byte in Hb. rewrite (Z.mul_comm 256).
  rewrite Z_mod_plus_full, Z.div_add, Z.mod_small, Z.div_small by lia. by rewrite Z.add_0_l, IH.
Qed.
Lemma length_le_bytes n z : length (le_bytes n z) = n.
Proof. revert z. induction n; intros; simpl; [done|]. by rewrite IHn. Qed.

Lemma le_value_app l k : le_value (l ++ k) = le_value l + 256 ^ zlen l * le_value k.
Proof.
  induction l as [|b l IH]; cbn [app le_value].
  - rewrite Z.pow_0_r. lia.
  - rewrite IH. unfold zlen. cbn [length]. rewrite Nat2Z.inj_succ, Z.pow_succ_r by lia. ring.
Qed.
Lemma le_value_range bs : wf_bytes bs → 0 <= le_value bs < 256 ^ zlen bs.
Proof.
  induction 1 as [|b bs Hb _ IH]; [done|]. unfold zlen, is_byte in *. cbn [length le_value].
  rewrite Nat2Z.inj_succ, Z.pow_succ_r by lia. lia.
Qed.

(** The number from byte [n] on. *)
Lemma le_value_drop n bs : wf_bytes bs → (n <= length bs)%nat →
  le_value bs `div` 256 ^ Z.of_nat n = le_value (drop n bs).
Proof.
  intros Hbs Hn. rewrite <-(take_drop n bs) at 1. rewrite le_value_app.
  pose proof (le_value_range (take n bs) (Forall_take _ _ _ Hbs)) as Hr.
  unfold zlen in *. rewrite length_take_le in * by done.
  rewrite (Z.mul_comm (256 ^ _)), Z.div_add, Z.div_small by lia. lia.
Qed.

(** Bitwise or of numbers that share no bits is their sum. *)
Lemma lor_add a b n : 0 <= n → 0 <= a < 2 ^ n → Z.lor a (b * 2 ^ n) = a + b * 2 ^ n.
Proof.
  intros Hn Ha. rewrite <-Z.shiftl_mul_pow2 by done.
  enough (Z.land a (Z.shiftl b n) = 0) as E.
  { by rewrite Z.add_nocarry_lxor, Z.lxor_lor. }
  apply Z.bits_inj'. intros i Hi. rewrite Z.land_spec, Z.bits_0.
  destruct (Z.lt_ge_cases i n).
  - rewrite Z.shiftl_spec_low by done. apply andb_false_r.
  - rewrite <-(Z.mod_small a (2 ^ n)) by done. by rewrite Z.mod_pow2_bits_high by lia.
Qed.

(** * Reading *)

Section Window.
Context (input : bytes) (Hin : wf_bytes input) (Hlen : length input = 32%nat).

Lemma input_byte i : (i < 32)%nat → ∃ b, input !! i = Some b ∧ 0 <= b < 256.
Proof.
  intros Hi. destruct (lookup_lt_is_Some_2 input i) as [b E]; [lia|].
  exists b. split; [done|]. by apply (Forall_lookup_1 _ _ _ _ Hin E).
Qed.

(** Limb [n] of [fexpand] is a bit field of the number. *)
Lemma fexpand_limb_ok n start shift w (out : arr) :
  (start + 3 < 32)%nat → 0 <= shift → 0 <= w → shift + w <= 32 → (n < length out)%nat →
  fexpand_limb input n start shift (Z.ones w) out =
    Some (<[n := Some ((le_value input `div` 2 ^ (8 * Z.of_nat start + shift)) `mod` 2 ^ w)]> out).
Proof.
  intros Hs Hsh Hw Hsw Hn.
  destruct (input_byte (start + 0)) as (b0 & E0 & H0); [lia|].
  destruct (input_byte (start + 1)) as (b1 & E1 & H1); [lia|].
  destruct (input_byte (start + 2)) as (b2 & E2 & H2); [lia|].
  destruct (input_byte (start + 3)) as (b3 & E3 & H3); [lia|].
  assert (le_value (drop start input) =
    b0 + b1 * 2 ^ 8 + b2 * 2 ^ 16 + b3 * 2 ^ 24 + 2 ^ 32 * le_value (drop (start + 4) input)) as Ev.
  { rewrite Nat.add_0_r in E0.
    rewrite (drop_S _ _ _ E0), <-Nat.add_1_r, (drop_S _ _ _ E1).
    replace (S (start + 1)) with (start + 2)%nat by lia. rewrite (drop_S _ _ _ E2).
    replace (S (start + 2)) with (start + 3)%nat by lia. rewrite (drop_S _ _ _ E3).
    replace (S (start + 3)) with (start + 4)%nat by lia. cbn [le_value]. lia. }
  unfold fexpand_limb. rewrite E0, E1, E2, E3. unfold ishl, ior, ishr, iand.
  cbn [mbind option_bind].
  rewrite !Z.shiftl_mul_pow2 by done.
  rewrite !wrap_small by (unfold within; cbn [half]; lia).
  rewrite (lor_add b0), (lor_add (_ + _)), (lor_add (_ + _ + _)) by lia.
  rewrite Z.land_ones, Z.shiftr_div_pow2 by done.
  unfold wr. cbn [mbind option_bind]. rewrite (proj2 (Nat.ltb_lt _ _) Hn).
  do 3 f_equal.
  rewrite Z.pow_add_r by lia. rewrite <-Z.div_div by lia.
  rewrite Z.pow_mul_r by lia. change (2 ^ 8) with 256.
  rewrite (le_value_drop start) by (done || lia). rewrite Ev.
  set (W := b0 + _ + _ + _). set (r := le_value _).
  replace (2 ^ 32 * r) with (2 ^ (32 - shift - w) * r * 2 ^ w * 2 ^ shift).
  { by rewrite Z.div_add, Z_mod_plus_full by lia. }
  replace 32 with ((32 - shift - w) + w + shift) at 2 by lia.
  rewrite !Z.pow_add_r by lia. ring.
Qed.
End Window.

(** A number is made of its bit fields. *)
Lemma div_split v a b w : 0 <= a → 0 <= w → b = a + w →
  v `div` 2 ^ a = (v `div` 2 ^ a) `mod` 2 ^ w + 2 ^ w * (v `div` 2 ^ b).
Proof.
  intros Ha Hw ->. rewrite Z.pow_add_r, <-Z.div_div by lia.
  pose proof (Z_div_mod_eq_full (v `div` 2 ^ a) (2 ^ w)). lia.
Qed.

(** The equations of consecutive fields of the given widths. *)
Ltac bit_fields V a ws :=
  lazymatch ws with
  | ?w :: ?ws => let b := eval vm_compute in (a + w) in
    pose proof (div_split V a b w ltac:(done) ltac:(done) eq_refl); bit_fields V b ws
  | _ => idtac
  end.

Lemma within_mod B m v : 0 < m <= B → within B (v `mod` m).
Proof. intros H. pose proof (Z.mod_pos_bound v m). unfold within. lia. Qed.

Lemma fexpand_ok input (out : arr) :
  wf_bytes input → length input = 32%nat → (10 <= length out)%nat →
  runs (fexpand out input) (λ o, length o = length out ∧
    repr (2 ^ 26) o (le_value input `mod` 2 ^ 255)).
Proof.
  intros Hin Hlen Ho. unfold fexpand.
  change 0x3ffffff with (Z.ones 26). change 0x1ffffff with (Z.ones 25).
  repeat (rewrite fexpand_limb_ok by (done || lia || (rewrite ?length_insert; lia));
          cbn [mbind option_bind]).
  repeat match goal with |- context [8 * Z.of_nat ?n + ?k] =>
    let e := eval vm_compute in (8 * Z.of_nat n + k) in change (8 * Z.of_nat n + k) with e end.
  explicit out Ho. cbn [insert list_insert].
  apply runs_some. split; [done|]. unfold repr.
  lazymatch goal with |- ∃ t, holds _ _ ?l t ∧ _ => let t := values l in exists t end.
  split; [split_and!; [by exists out|done|]|].
  - repeat (apply Forall_cons_2; [apply within_mod; lia|]). apply Forall_nil_2.
  - apply eq_subrelation; [apply _|]. set (V := le_value input).
    bit_fields V 0 [26; 25; 26; 25; 26; 25; 26; 25; 26; 25].
    pose proof (div_split V 0 255 255 ltac:(done) ltac:(done) eq_refl).
    change (2 ^ 0) with 1 in *. rewrite Z.div_1_r in *.
    repeat match goal with |- context [(?a `mod` ?b)] => generalize dependent (a `mod` b); intros end.
    repeat match goal with H : context [(?a `div` ?b)] |- _ => generalize dependent (a `div` b); intros end.
    weights. lia.
Qed.

(** * Writing *)

(** ** Borrows *)

Lemma sign_mask x : within (half W32) x → Z.shiftr x 31 = if x <? 0 then -1 else 0.
Proof.
  unfold within. cbn [half]. intros Hx. rewrite Z.shiftr_div_pow2 by done.
  destruct (Z.ltb_spec x 0).
  - symmetry. apply (Z.div_unique _ _ _ (x + 2 ^ 31)); lia.
  - apply Z.div_small. lia.
Qed.

Lemma limb_bits_cases i : limb_bits i = 25 ∨ limb_bits i = 26.
Proof. unfold limb_bits. destruct (Nat.odd i); auto. Qed.

(** The borrow of a limb [x] with [n] bits. *)
Definition borrows (n x c : Z) : Prop :=
  0 <= c <= 4 ∧ (0 <= x → c = 0) ∧ (x < 0 → 0 <= x + c * 2 ^ n < 2 ^ n).

Lemma borrow_carry n e x :
  n = 25 ∨ n = 26 → e = Some x → within (2 ^ 27) x →
  ∃ c, ranged (ineg W32 ((e &ᵢ (e >>ᵢ 31)) >>ᵢ n)) c 5 ∧ borrows n x c.
Proof.
  intros Hn -> Hx. exists (- ((if x <? 0 then x else 0) `div` 2 ^ n)).
  assert (borrows n x (- ((if x <? 0 then x else 0) `div` 2 ^ n))) as Hb.
  { unfold borrows, within in *. destruct (Z.ltb_spec x 0).
    - destruct Hn as [-> | ->]; Z.to_euclidean_division_equations; lia.
    - rewrite Z.div_0_l by lia. lia. }
  split; [|done]. split; [|destruct Hb; unfold within; lia].
  unfold iand, ishr, ineg. cbn [mbind option_bind].
  rewrite sign_mask by (by eapply within_weaken). rewrite Z.shiftr_div_pow2 by lia.
  replace (Z.land x (if x <? 0 then -1 else 0)) with (if x <? 0 then x else 0)
    by (destruct (x <? 0); [by rewrite Z.land_m1_r|by rewrite Z.land_0_r]).
  apply checked_fits. destruct Hb. unfold within. cbn [half]. lia.
Qed.

Lemma borrow_ok (a : arr) i x y :
  rd a i = Some x → rd a (i + 1) = Some y → within (2 ^ 27) x → within (2 ^ 27) y →
  runs (borrow i a) (λ a', ∃ c, borrows (limb_bits i) x c ∧
    a' = <[(i + 1)%nat := Some (y - c)]> (<[i := Some (x + c * 2 ^ limb_bits i)]> a)).
Proof.
  intros Ex Ey Hx Hy. pose proof (rd_length _ _ _ Ex). pose proof (rd_length _ _ _ Ey).
  destruct (borrow_carry (limb_bits i) _ x (limb_bits_cases i) Ex Hx) as (c & Rc & Hc).
  unfold borrow. assert (0 <= limb_bits i /\ 2 ^ limb_bits i <= 2 ^ 26) as [Hn Hp].
  { destruct (limb_bits_cases i) as [-> | ->]; lia. }
  eapply runs_wr; [eapply ranged_add; [by split|eapply ranged_shl; [done|exact Rc|]|]|done|];
    [cbn [half]; lia..|]. intros _.
  eapply runs_wr_last; [eapply ranged_sub; [split; [|exact Hy]|exact Rc|]|by rewrite length_insert|];
    [by rewrite rd_insert_ne by lia|done|].
  intros _. by exists c.
Qed.

Lemma borrow_last_ok (a : arr) x y :
  rd a 9 = Some x → rd a 0 = Some y → within (2 ^ 27) x → within (2 ^ 27) y →
  runs (borrow_last a) (λ a', ∃ c, borrows 25 x c ∧
    a' = <[0%nat := Some (y - c * 19)]> (<[9%nat := Some (x + c * 2 ^ 25)]> a)).
Proof.
  intros Ex Ey Hx Hy. pose proof (rd_length _ _ _ Ex). pose proof (rd_length _ _ _ Ey).
  destruct (borrow_carry 25 _ x ltac:(auto) Ex Hx) as (c & Rc & Hc).
  unfold borrow_last.
  eapply runs_wr; [eapply ranged_add; [by split|eapply ranged_shl; [done|exact Rc|]|]|done|];
    [done..|]. intros _.
  eapply runs_wr_last; [eapply ranged_sub; [split; [|exact Hy]|
    eapply ranged_mul; [exact Rc|by apply (ranged_some 19 20)|]|]|by rewrite length_insert|];
    [by rewrite rd_insert_ne by lia|done..|].
  intros _. by exists c.
Qed.

Lemma borrows_within n x c y B : borrows n x c → within B y → within (B + 5) (y - c).
Proof. unfold borrows, within. lia. Qed.
Definition in26 (x : Z) : Prop := 0 <= x < 2 ^ 26.
Lemma borrows_range n x c : n <= 26 → borrows n x c → x < 2 ^ 26 → in26 (x + c * 2 ^ n).
Proof.
  unfold borrows, in26. intros Hn Hc Hx. pose proof (Z.pow_le_mono_r 2 n 26).
  destruct (Z.lt_ge_cases x 0); [lia|]. destruct Hc as (_ & -> & _); lia.
Qed.
Lemma borrows_below m x c y B : borrows m x c → within B y → y - c < B.
Proof. unfold borrows, within. lia. Qed.
Lemma within_below B y : within B y → y < B.
Proof. unfold within. lia. Qed.

Ltac assoc :=
  repeat lazymatch goal with |- runs ((_ ≫= _) ≫= _) _ => apply runs_assoc end.

(** One borrow on an explicit array. *)
Ltac borrow_step i c :=
  assoc; eapply runs_bind;
  [eapply (borrow_ok _ i); [reflexivity|reflexivity|..];
   first [by eapply within_weaken|eapply within_weaken; [by eapply borrows_within|done]]
  |intros ? (c & ?Hb & ->); cbn [insert list_insert Nat.add]; cbv beta;
   change (limb_bits i) with (ltac:(let n := eval vm_compute in (limb_bits i) in exact n)) in *].

Lemma borrow_pass_ok x0 x1 x2 x3 x4 x5 x6 x7 x8 x9 :
  Forall (within (2 ^ 26)) [x0; x1; x2; x3; x4; x5; x6; x7; x8; x9] →
  runs (borrow_pass (Some <$> [x0; x1; x2; x3; x4; x5; x6; x7; x8; x9]))
    (λ a, ∃ c0 c1 c2 c3 c4 c5 c6 c7 c8 c9,
      borrows 26 x0 c0 ∧ borrows 25 (x1 - c0) c1 ∧ borrows 26 (x2 - c1) c2 ∧
      borrows 25 (x3 - c2) c3 ∧ borrows 26 (x4 - c3) c4 ∧ borrows 25 (x5 - c4) c5 ∧
      borrows 26 (x6 - c5) c6 ∧ borrows 25 (x7 - c6) c7 ∧ borrows 26 (x8 - c7) c8 ∧
      borrows 25 (x9 - c8) c9 ∧
      a = Some <$> [x0 + c0 * 2 ^ 26 - c9 * 19; x1 - c0 + c1 * 2 ^ 25; x2 - c1 + c2 * 2 ^ 26;
        x3 - c2 + c3 * 2 ^ 25; x4 - c3 + c4 * 2 ^ 26; x5 - c4 + c5 * 2 ^ 25;
        x6 - c5 + c6 * 2 ^ 26; x7 - c6 + c7 * 2 ^ 25; x8 - c7 + c8 * 2 ^ 26;
        x9 - c8 + c9 * 2 ^ 25]).
Proof.
  intros HB. repeat (apply Forall_cons in HB; destruct HB as [? HB]). clear HB.
  unfold borrow_pass. cbn [seq for_each fmap list_fmap].
  borrow_step 0%nat c0. borrow_step 1%nat c1. borrow_step 2%nat c2. borrow_step 3%nat c3.
  borrow_step 4%nat c4. borrow_step 5%nat c5. borrow_step 6%nat c6. borrow_step 7%nat c7.
  borrow_step 8%nat c8.
  lazymatch goal with |- runs (Some ?a ≫= ?k) ?Q => change (runs (k a) Q); cbv beta end.
  eapply runs_mono; [eapply borrow_last_ok; [reflexivity|reflexivity|..]|].
  - eapply within_weaken; [by eapply borrows_within|done].
  - pose proof (borrows_range 26 x0 c0 ltac:(done) Hb (within_below _ _ H)).
    unfold within, in26 in *. lia.
  - intros a (c9 & Hb9 & ->). by exists c0, c1, c2, c3, c4, c5, c6, c7, c8, c9.
Qed.

(** The first pass leaves only the first limb negative, and not by much; the
    second none at all. *)

Ltac ten x Hx :=
  do 10 (destruct x as [|? x]; [discriminate Hx|]); destruct x; [clear Hx|discriminate Hx].

Lemma first_pass x :
  length x = 10%nat → Forall (within (2 ^ 26)) x →
  runs (borrow_pass (Some <$> x)) (λ a, ∃ y0 y, a = Some <$> y0 :: y ∧ length y = 9%nat ∧
    Forall in26 y ∧ -76 <= y0 < 2 ^ 26 ∧ eval (y0 :: y) =ₚ eval x).
Proof.
  intros Hl HB. ten x Hl. eapply runs_mono; [by apply borrow_pass_ok|].
  intros a (c0 & c1 & c2 & c3 & c4 & c5 & c6 & c7 & c8 & c9 & H0 & H1 & H2 & H3 & H4 & H5 & H6 &
    H7 & H8 & H9 & ->).
  repeat (apply Forall_cons in HB; destruct HB as [? HB]). clear HB.
  eexists _, _. split; [reflexivity|]. split; [done|]. split; [|split].
  - repeat (apply Forall_cons_2;
      [eapply borrows_range; [done|eassumption|by eapply borrows_below]|]). apply Forall_nil_2.
  - pose proof (borrows_range 26 _ _ ltac:(done) H0 (within_below _ z ltac:(done))) as Hz.
    destruct H9 as [Hc9 _]. unfold in26 in Hz. clear -Hz Hc9. lia.
  - apply (eqp_of_diff _ _ c9). unfold p25519. clear. weights. ring.
Qed.

(** A limb that is not negative passes on no more than it receives. *)
Lemma borrows_chain n x c c' :
  0 <= n → 0 <= x → 0 <= c <= 1 → borrows n (x - c) c' → 0 <= c' <= c.
Proof.
  unfold borrows. intros Hn Hx Hc (? & H0 & H1). destruct (Z.lt_ge_cases (x - c) 0); [|lia].
  pose proof (Z.pow_pos_nonneg 2 n). nia.
Qed.

Lemma in26_within x : in26 x → within (2 ^ 26) x.
Proof. unfold in26, within. lia. Qed.

Lemma in26_nonneg x : in26 x → 0 <= x.
Proof. unfold in26. lia. Qed.

Ltac chain H :=
  lazymatch type of H with borrows ?n (?x - ?c) ?c' =>
    let Hc := fresh "Hc" in
    assert (0 <= c' <= c) as Hc
      by (apply (borrows_chain n x c c' ltac:(done)); [by apply (in26_nonneg x)|lia|exact H])
  end.

Lemma second_pass y0 y :
  length y = 9%nat → Forall in26 y → -76 <= y0 < 2 ^ 26 →
  runs (borrow_pass (Some <$> y0 :: y)) (λ a, ∃ z, a = Some <$> z ∧ length z = 10%nat ∧
    Forall in26 z ∧ eval z =ₚ eval (y0 :: y)).
Proof.
  intros Hl HB Hy0. do 9 (destruct y as [|? y]; [discriminate Hl|]). 
  destruct y; [clear Hl|discriminate Hl].
  eapply runs_mono; [apply borrow_pass_ok|].
  { apply Forall_cons_2; [unfold within; lia|].
    eapply Forall_impl; [exact HB|]. unfold in26, within. lia. }
  intros a (c0 & c1 & c2 & c3 & c4 & c5 & c6 & c7 & c8 & c9 & H0 & H1 & H2 & H3 & H4 & H5 & H6 &
    H7 & H8 & H9 & ->).
  repeat (apply Forall_cons in HB; destruct HB as [? HB]). clear HB.
  assert (0 <= c0 <= 1) as Hc0 by (unfold borrows in H0; lia).
  chain H1. chain H2. chain H3. chain H4. chain H5. chain H6. chain H7. chain H8. chain H9.
  eexists. split; [reflexivity|]. split; [done|]. split.
  - apply Forall_cons_2.
    { assert (0 <= c9 <= c0) as H9' by (clear -Hc Hc1 Hc2 Hc3 Hc4 Hc5 Hc6 Hc7 Hc8; lia).
      unfold borrows, in26 in *. clear -H0 H9' Hy0 Hc0. lia. }
    repeat (apply Forall_cons_2;
      [eapply borrows_range; [done|eassumption|by eapply borrows_below, in26_within]|]).
    apply Forall_nil_2.
  - apply (eqp_of_diff _ _ c9). unfold p25519. clear. weights. ring.
Qed.

(** ** Carries *)

(** A limb [x] splits into what it keeps and what it passes on. *)
Definition carries (n x r c : Z) : Prop := x = r + c * 2 ^ n ∧ 0 <= r < 2 ^ n ∧ 0 <= c.
Definition in27 (x : Z) : Prop := 0 <= x < 2 ^ 27.

Lemma carry_split n m e x :
  n = 25 ∨ n = 26 → m = Z.ones n → e = Some x → in27 x →
  ∃ r c, ranged (e &ᵢ Some m) r (2 ^ n) ∧ ranged (e >>ᵢ n) c 5 ∧ carries n x r c.
Proof.
  intros Hn -> -> Hx. exists (x `mod` 2 ^ n), (x `div` 2 ^ n).
  assert (carries n x (x `mod` 2 ^ n) (x `div` 2 ^ n) ∧ x `div` 2 ^ n < 5) as [Hc H5].
  { unfold carries, in27 in *. destruct Hn as [-> | ->]; Z.to_euclidean_division_equations; lia. }
  split_and!; [| |done]; (split; [|unfold carries in Hc; unfold within; lia]).
  - unfold iand. cbn [mbind option_bind]. by rewrite Z.land_ones by (destruct Hn as [-> | ->]; lia).
  - unfold ishr. cbn [mbind option_bind].
    by rewrite Z.shiftr_div_pow2 by (destruct Hn as [-> | ->]; lia).
Qed.

Definition nearly26 (x : Z) : Prop := 0 <= x < 2 ^ 26 + 2 ^ 20.
Lemma nearly26_in27 x : nearly26 x → in27 x.
Proof. unfold nearly26, in27. lia. Qed.
Lemma carries_next n x r c y :
  25 <= n → carries n x r c → in27 x → nearly26 y → in27 (y + c).
Proof.
  unfold carries, in27, nearly26. intros Hn (-> & Hr & Hc) Hx Hy.
  pose proof (Z.pow_le_mono_r 2 25 n). nia.
Qed.

Lemma carry_limb_ok (a : arr) i x y :
  rd a i = Some x → rd a (i + 1) = Some y → in27 x → nearly26 y →
  runs (carry_limb i a) (λ a', ∃ r c, (carries (limb_bits i) x r c ∧ in27 (y + c)) ∧
    a' = <[(i + 1)%nat := Some (y + c)]> (<[i := Some r]> a)).
Proof.
  intros Ex Ey Hx Hy. pose proof (rd_length _ _ _ Ex). pose proof (rd_length _ _ _ Ey).
  destruct (carry_split (limb_bits i) (limb_mask i) _ x (limb_bits_cases i)
    ltac:(unfold limb_bits, limb_mask; by destruct (Nat.odd i)) Ex Hx) as (r & c & Rr & Rc & Hc).
  unfold carry_limb. eapply runs_wr; [exact Rr|done|]. intros _.
  eapply runs_wr_last; [eapply ranged_add; [|exact Rc|]|by rewrite length_insert|];
    [rewrite rd_insert_ne by lia; apply (ranged_at _ _ (2 ^ 27) (2 ^ 27) Ey);
     unfold nearly26, within in *; lia|done|].
  intros _. exists r, c. split; [|done]. split; [done|]. 
  eapply carries_next; [|done..]. destruct (limb_bits_cases i) as [-> | ->]; lia.
Qed.

Lemma carry_last_ok (a : arr) x y :
  rd a 9 = Some x → rd a 0 = Some y → in27 x → in27 y →
  runs (carry_last a) (λ a', ∃ r c, carries 25 x r c ∧
    a' = <[0%nat := Some (y + 19 * c)]> (<[9%nat := Some r]> a)).
Proof.
  intros Ex Ey Hx Hy. pose proof (rd_length _ _ _ Ex). pose proof (rd_length _ _ _ Ey).
  destruct (carry_split 25 0x1ffffff _ x ltac:(auto) eq_refl Ex Hx) as (r & c & Rr & Rc & Hc).
  unfold carry_last. eapply runs_wr; [exact Rr|done|]. intros _.
  eapply runs_wr_last; [eapply ranged_add; [|eapply ranged_scale; [done|exact Rc|]|]|
    by rewrite length_insert|];
    [rewrite rd_insert_ne by lia; apply (ranged_at _ _ (2 ^ 27) (2 ^ 27) Ey);
     unfold in27, within in *; lia|done..|].
  intros _. by exists r, c.
Qed.

(** One carry on an explicit array. *)
Ltac carry_step i r c :=
  assoc; eapply runs_bind;
  [eapply (carry_limb_ok _ i); [reflexivity|reflexivity|eassumption|eassumption]
  |intros ? (r & c & (?Hb & ?) & ->); cbn [insert list_insert Nat.add]; cbv beta;
   change (limb_bits i) with (ltac:(let n := eval vm_compute in (limb_bits i) in exact n)) in *].

Lemma carry_pass_ok x0 x1 x2 x3 x4 x5 x6 x7 x8 x9 :
  Forall nearly26 [x0; x1; x2; x3; x4; x5; x6; x7; x8; x9] →
  runs (carry_pass (Some <$> [x0; x1; x2; x3; x4; x5; x6; x7; x8; x9]))
    (λ a, ∃ r0 r1 r2 r3 r4 r5 r6 r7 r8 r9 c0 c1 c2 c3 c4 c5 c6 c7 c8 c9,
      carries 26 x0 r0 c0 ∧ carries 25 (x1 + c0) r1 c1 ∧ carries 26 (x2 + c1) r2 c2 ∧
      carries 25 (x3 + c2) r3 c3 ∧ carries 26 (x4 + c3) r4 c4 ∧ carries 25 (x5 + c4) r5 c5 ∧
      carries 26 (x6 + c5) r6 c6 ∧ carries 25 (x7 + c6) r7 c7 ∧ carries 26 (x8 + c7) r8 c8 ∧
      carries 25 (x9 + c8) r9 c9 ∧
      a = Some <$> [r0 + 19 * c9; r1; r2; r3; r4; r5; r6; r7; r8; r9]).
Proof.
  intros HB. repeat (apply Forall_cons in HB; destruct HB as [? HB]). clear HB.
  assert (in27 x0) by by apply nearly26_in27.
  unfold carry_pass. cbn [seq for_each fmap list_fmap].
  carry_step 0%nat r0 c0. carry_step 1%nat r1 c1. carry_step 2%nat r2 c2.
  carry_step 3%nat r3 c3. carry_step 4%nat r4 c4. carry_step 5%nat r5 c5.
  carry_step 6%nat r6 c6. carry_step 7%nat r7 c7. carry_step 8%nat r8 c8.
  lazymatch goal with |- runs (Some ?a ≫= ?k) ?Q => change (runs (k a) Q); cbv beta end.
  eapply runs_mono; [eapply carry_last_ok; [reflexivity|reflexivity|eassumption|]|].
  - destruct Hb as (_ & ? & _). unfold in27. lia.
  - intros a (r9 & c9 & Hb9 & ->).
    by exists r0, r1, r2, r3, r4, r5, r6, r7, r8, r9, c0, c1, c2, c3, c4, c5, c6, c7, c8, c9.
Qed.

(** [canonical l]: every limb has its width. *)
Definition canonical (l : list Z) : Prop :=
  Forall2 (λ n x, 0 <= x < 2 ^ n) [26; 25; 26; 25; 26; 25; 26; 25; 26; 25] l.
(** All but the first have it. *)
Definition tail_canonical (l : list Z) : Prop :=
  Forall2 (λ n x, 0 <= x < 2 ^ n) [25; 26; 25; 26; 25; 26; 25; 26; 25] l.

Ltac forall2_inv H :=
  repeat (apply Forall2_cons_inv_l in H; let x := fresh "x" in let l := fresh "l" in
    destruct H as (x & l & ?Hx & H & ->)); apply Forall2_nil_inv_l in H; subst.

Lemma first_carry z :
  length z = 10%nat → Forall in26 z →
  runs (carry_pass (Some <$> z)) (λ a, ∃ y0 y, a = Some <$> y0 :: y ∧
    tail_canonical y ∧ 0 <= y0 < 2 ^ 26 + 76 ∧ eval (y0 :: y) =ₚ eval z).
Proof.
  intros Hl HB. ten z Hl. eapply runs_mono; [apply carry_pass_ok|].
  { eapply Forall_impl; [exact HB|]. unfold in26, nearly26. lia. }
  intros a (r0 & r1 & r2 & r3 & r4 & r5 & r6 & r7 & r8 & r9 & c0 & c1 & c2 & c3 & c4 & c5 & c6 &
    c7 & c8 & c9 & H0 & H1 & H2 & H3 & H4 & H5 & H6 & H7 & H8 & H9 & ->).
  repeat (apply Forall_cons in HB; destruct HB as [? HB]). clear HB.
  unfold carries, in26 in *.
  eexists _, _. split; [reflexivity|]. split; [|split].
  - unfold tail_canonical. repeat (apply Forall2_cons_2; [lia|]). apply Forall2_nil_2.
  - lia.
  - apply (eqp_of_diff _ _ (- c9)). unfold p25519. weights. lia.
Qed.

Lemma second_carry y0 y :
  tail_canonical y → 0 <= y0 < 2 ^ 26 + 76 →
  runs (carry_pass (Some <$> y0 :: y)) (λ a, ∃ x, a = Some <$> x ∧
    canonical x ∧ eval x =ₚ eval (y0 :: y)).
Proof.
  intros Hy Hy0. unfold tail_canonical in Hy. forall2_inv Hy.
  eapply runs_mono; [apply carry_pass_ok|].
  { unfold nearly26. repeat (apply Forall_cons_2; [lia|]). apply Forall_nil_2. }
  intros a (r0 & r1 & r2 & r3 & r4 & r5 & r6 & r7 & r8 & r9 & c0 & c1 & c2 & c3 & c4 & c5 & c6 &
    c7 & c8 & c9 & H0 & H1 & H2 & H3 & H4 & H5 & H6 & H7 & H8 & H9 & ->).
  unfold carries in *.
  eexists. split; [reflexivity|]. split.
  - unfold canonical. repeat (apply Forall2_cons_2; [lia|]). apply Forall2_nil_2.
  - apply (eqp_of_diff _ _ (- c9)). unfold p25519. weights. lia.
Qed.

(** ** The final subtraction *)

(** Folding a word onto its top bit. *)
Lemma testbit_wrap z i : 0 <= i < 32 → Z.testbit (wrap W32 z) i = Z.testbit z i.
Proof.
  intros Hi. unfold wrap. cbn [half].
  assert (∃ k, (z + 2 ^ 31) `mod` (2 * 2 ^ 31) - 2 ^ 31 = z + k * 2 ^ 32) as [k E].
  { exists (- ((z + 2 ^ 31) `div` (2 * 2 ^ 31))).
    pose proof (Z_div_mod_eq_full (z + 2 ^ 31) (2 * 2 ^ 31)). lia. }
  change 0x80000000 with (2 ^ 31). rewrite E.
  rewrite <-(Z.mod_pow2_bits_low (z + _) 32), Z_mod_plus_full by lia.
  by rewrite Z.mod_pow2_bits_low by lia.
Qed.

Definition fold_bits (a k : Z) : Z := Z.land a (wrap W32 (Z.shiftl a k)).
Lemma testbit_fold a k i : 0 <= k → 0 <= i < 32 →
  Z.testbit (fold_bits a k) i = Z.testbit a i && Z.testbit a (i - k).
Proof.
  intros Hk Hi. unfold fold_bits. rewrite Z.land_spec, testbit_wrap by lia.
  by rewrite Z.shiftl_spec by lia.
Qed.

(** The top [n] bits of a word are set. *)
Definition top_set (n a : Z) : Prop := ∀ j, 0 <= j < n → Z.testbit a (31 - j) = true.

Lemma top_set_fold n a : 0 <= n <= 16 → top_set n (fold_bits a n) ↔ top_set (2 * n) a.
Proof.
  intros Hn. split; intros H j Hj.
  - destruct (Z.lt_ge_cases j n) as [Hj'|Hj'].
    + specialize (H j ltac:(lia)). rewrite testbit_fold in H by lia.
      by apply andb_true_iff in H as [? _].
    + specialize (H (j - n) ltac:(lia)). rewrite testbit_fold in H by lia.
      apply andb_true_iff in H as [_ H]. by replace (31 - j) with (31 - (j - n) - n) by lia.
  - rewrite testbit_fold by lia. rewrite (H j) by lia.
    replace (31 - j - n) with (31 - (j + n)) by lia. by rewrite H by lia.
Qed.

(** The sign of a word. *)
Definition sign_of (a : Z) : Prop := Z.shiftr a 31 = 0 ∨ Z.shiftr a 31 = -1.

Lemma sign_of_fold a k : sign_of a → sign_of (fold_bits a k).
Proof.
  unfold sign_of, fold_bits. rewrite Z.shiftr_land. intros Ha.
  assert (0 <= wrap W32 (Z.shiftl a k) + half W32 < 2 * half W32) as Hw.
  { unfold wrap. pose proof (Z.mod_pos_bound (Z.shiftl a k + half W32) (2 * half W32)).
    cbn [half] in *. lia. }
  set (w := wrap _ _) in *. cbn [half] in Hw.
  assert (Z.shiftr w 31 = 0 ∨ Z.shiftr w 31 = -1) as [-> | ->].
  { rewrite Z.shiftr_div_pow2 by done. Z.to_euclidean_division_equations. lia. }
  - left. apply Z.land_0_r.
  - by rewrite Z.land_m1_r.
Qed.

Lemma sign_of_top a : sign_of a →
  (top_set 1 a ∧ Z.shiftr a 31 = -1) ∨ (¬ top_set 1 a ∧ Z.shiftr a 31 = 0).
Proof.
  intros H. assert (Z.testbit a 31 = Z.testbit (Z.shiftr a 31) 0) as E
    by (by rewrite Z.shiftr_spec).
  destruct H as [H|H]; rewrite H in *; [right|left]; (split; [|done]).
  - intros Ht. specialize (Ht 0 ltac:(lia)). by rewrite Z.sub_0_r, E in Ht.
  - intros j Hj. by replace (31 - j) with 31 by lia.
Qed.

Lemma shiftr_word x : 0 <= x < 2 ^ 31 → Z.shiftr x 31 = 0.
Proof. intros Hx. rewrite Z.shiftr_div_pow2 by done. by apply Z.div_small. Qed.

Lemma all_bits_eq x m : 0 <= x < 2 ^ 31 → 0 <= m < 2 ^ 31 →
  top_set 32 (Z.lnot (Z.lxor x m)) ↔ x = m.
Proof.
  intros Hx Hm. split.
  - intros H. apply Z.bits_inj'. intros i Hi. destruct (Z.lt_ge_cases i 32) as [Hi'|Hi'].
    + specialize (H (31 - i) ltac:(lia)). rewrite Z.lnot_spec, Z.lxor_spec in H by lia.
      replace (31 - (31 - i)) with i in H by lia.
      by destruct (Z.testbit x i), (Z.testbit m i).
    + rewrite <-(Z.mod_small x (2 ^ 31)), <-(Z.mod_small m (2 ^ 31)) by done.
      by rewrite !Z.mod_pow2_bits_high by lia.
  - intros -> j Hj. by rewrite Z.lxor_nilpotent, Z.lnot_spec, Z.bits_0 by lia.
Qed.

(** The five steps of [s32_eq]. *)
Definition folded (a : Z) : Z :=
  fold_bits (fold_bits (fold_bits (fold_bits (fold_bits a 16) 8) 4) 2) 1.
Lemma sign_of_folded a : sign_of a → sign_of (folded a).
Proof. intros H. unfold folded. do 5 apply sign_of_fold. exact H. Qed.
Lemma top_set_folded a : top_set 1 (folded a) ↔ top_set 32 a.
Proof.
  unfold folded. rewrite (top_set_fold 1) by lia. change (2 * 1) with 2.
  rewrite (top_set_fold 2) by lia. change (2 * 2) with 4.
  rewrite (top_set_fold 4) by lia. change (2 * 4) with 8.
  rewrite (top_set_fold 8) by lia. change (2 * 8) with 16.
  by rewrite (top_set_fold 16) by lia.
Qed.

(** [s32_eq] is all ones exactly when its arguments are equal. *)
Lemma s32_eq_ok x m : 0 <= x < 2 ^ 31 → 0 <= m < 2 ^ 31 →
  s32_eq (Some x) (Some m) = Some (if x =? m then -1 else 0).
Proof.
  intros Hx Hm. set (a := Z.lnot (Z.lxor x m)).
  change (s32_eq _ _) with (Some (Z.shiftr (folded a) 31)).
  assert (sign_of a) as Ha.
  { right. subst a. rewrite <-Z.lnot_shiftr, Z.shiftr_lxor, !shiftr_word by done. done. }
  pose proof (sign_of_folded a Ha) as Hs. apply sign_of_top in Hs.
  rewrite top_set_folded in Hs. unfold a in Hs at 1 3. rewrite (all_bits_eq x m Hx Hm) in Hs.
  destruct (Z.eqb_spec x m); destruct Hs as [[? ->]|[? ->]]; done.
Qed.

(** [s32_gte] is all ones exactly when its first argument is not smaller. *)
Lemma s32_gte_ok x m : 0 <= x < 2 ^ 31 → 0 <= m < 2 ^ 31 →
  s32_gte (Some x) (Some m) = Some (if m <=? x then -1 else 0).
Proof.
  intros Hx Hm. unfold s32_gte, isub, ishr, inot. cbn [mbind option_bind].
  rewrite checked_fits by (unfold within; cbn [half]; lia). cbn [mbind option_bind].
  rewrite sign_mask by (unfold within; cbn [half]; lia).
  destruct (Z.ltb_spec (x - m) 0), (Z.leb_spec m x); (done || lia).
Qed.

Lemma and_masks (b c : bool) :
  Some (if b then -1 else 0) &ᵢ Some (if c then -1 else 0) = Some (if b && c then -1 else 0).
Proof. by destruct b, c. Qed.

(** The test of [fcontract] for a number of at least 2^255 - 19. *)
Definition not_below_prime (x : list Z) : bool :=
  match x with
  | [x0; x1; x2; x3; x4; x5; x6; x7; x8; x9] =>
    (0x3ffffed <=? x0) && (x1 =? 0x1ffffff) && (x2 =? 0x3ffffff) && (x3 =? 0x1ffffff) &&
    (x4 =? 0x3ffffff) && (x5 =? 0x1ffffff) && (x6 =? 0x3ffffff) && (x7 =? 0x1ffffff) &&
    (x8 =? 0x3ffffff) && (x9 =? 0x1ffffff)
  | _ => false
  end.

Lemma canonical_range x : canonical x → 0 <= eval x < 2 ^ 255.
Proof. intros H. unfold canonical in H. forall2_inv H. weights. lia. Qed.

Lemma not_below_prime_ok x : canonical x → not_below_prime x = bool_decide (p25519 <= eval x).
Proof.
  intros H. unfold canonical in H. forall2_inv H. cbn [not_below_prime]. unfold p25519. weights.
  destruct (_ && _) eqn:E; [rewrite bool_decide_true|rewrite bool_decide_false]; [done|..|done|].
  - rewrite !andb_true_iff, !Z.eqb_eq, Z.leb_le in E. lia.
  - repeat (apply andb_false_iff in E as [E|E]; [|apply Z.eqb_neq in E; lia]).
    apply Z.leb_gt in E. lia.
Qed.

Lemma subtract_mask x : canonical x → ∀ a, a = Some <$> x →
  foldl (λ mask i, mask &ᵢ s32_eq (rd a i) (Some (limb_mask i)))
    (s32_gte (rd a 0) (Some 0x3ffffed)) (seq 1 9) = Some (if not_below_prime x then -1 else 0).
Proof.
  intros H a ->. unfold canonical in H. forall2_inv H. cbn [fmap list_fmap seq foldl rd].
  unfold rd. cbn [lookup list_lookup mjoin option_join].
  rewrite s32_gte_ok, !s32_eq_ok by (unfold limb_mask; cbn; lia). rewrite !and_masks. done.
Qed.

Lemma subtract_prime_ok x : canonical x →
  runs (subtract_prime (Some <$> x)) (λ a, ∃ y, a = Some <$> y ∧
    canonical y ∧ eval y = eval x `mod` p25519).
Proof.
  intros H. unfold subtract_prime. rewrite (subtract_mask x H) by done.
  pose proof (canonical_range x H) as Hr. rewrite (not_below_prime_ok x H).
  assert (within (2 ^ 26) 0x3ffffed ∧ within (2 ^ 26) 0x3ffffff ∧ within (2 ^ 26) 0x1ffffff ∧
    within 1 0) as (? & ? & ? & ?) by done.
  assert (eval x `mod` p25519 = if bool_decide (p25519 <= eval x) then eval x - p25519 else eval x)
    as ->.
  { case_bool_decide.
    - symmetry. apply (Z.mod_unique _ _ 1); unfold p25519 in *; lia.
    - apply Z.mod_small. lia. }
  pose proof (not_below_prime_ok x H) as Hb. unfold canonical in H. forall2_inv H.
  repeat match goal with Hx : 0 <= ?x < 2 ^ ?n |- _ =>
    assert (within (2 ^ n) x) by (unfold within; lia); revert Hx end. intros.
  case_bool_decide as Hp; cbn [fmap list_fmap seq for_each];
    repeat match goal with |- context [Some ?k &ᵢ Some ?c] =>
      let v := eval vm_compute in (Some k &ᵢ Some c) in change (Some k &ᵢ Some c) with v end;
    repeat (assoc; wr_step); apply runs_some;
    (lazymatch goal with |- ∃ y, ?l = _ ∧ _ => let y := values l in exists y end);
    (split; [done|]).
  - cbn [not_below_prime] in Hb.
    rewrite !andb_true_iff, !Z.eqb_eq, Z.leb_le in Hb.
    split; [unfold canonical; repeat (apply Forall2_cons_2; [lia|]); apply Forall2_nil_2|].
    unfold p25519. weights. lia.
  - split; [unfold canonical; repeat (apply Forall2_cons_2; [lia|]); apply Forall2_nil_2|].
    weights. lia.
Qed.

(** ** The output bytes *)

Lemma byte_of_word X q k : 0 <= k <= 24 →
  u8 (Z.land (Z.shiftr (X + q * 2 ^ 32) k) 255) = (X `div` 2 ^ k) `mod` 256.
Proof.
  intros Hk. change 255 with (Z.ones 8). unfold u8.
  rewrite Z.land_ones, Z.shiftr_div_pow2, Z.mod_mod by lia.
  replace (q * 2 ^ 32) with (q * 2 ^ (24 - k) * 2 ^ 8 * 2 ^ k).
  - by rewrite Z.div_add, Z_mod_plus_full by lia.
  - rewrite <-!Z.mul_assoc, <-!Z.pow_add_r by lia. do 2 f_equal. lia.
Qed.

Lemma land_word X q : Z.land (X + q * 2 ^ 32) 255 = X `mod` 256.
Proof.
  change 255 with (Z.ones 8). rewrite Z.land_ones by done.
  replace (q * 2 ^ 32) with (q * 2 ^ 24 * 2 ^ 8) by lia. by rewrite Z_mod_plus_full.
Qed.

Lemma wrap_word X : ∃ q, wrap W32 X = X + q * 2 ^ 32.
Proof.
  exists (- ((X + 2 ^ 31) `div` (2 * 2 ^ 31))). unfold wrap.
  pose proof (Z_div_mod_eq_full (X + 2 ^ 31) (2 * 2 ^ 31)). change (half W32) with (2 ^ 31). lia.
Qed.

(** The macro [F] spreads an aligned limb over four bytes; the bits below it in
    the first byte belong to the previous limb. *)
Lemma fcontract_limb_ok (input out : arr) i s x t u o :
  rd input i = Some (wrap W32 (x * 2 ^ t)) → rd out s = Some o → (s + 3 < length out)%nat →
  0 <= t <= 8 → 0 <= u <= 8 → 0 <= o < 2 ^ t → 0 <= x → x * 2 ^ t < 2 ^ (24 + u) →
  runs (fcontract_limb input i s out) (λ a, ∃ b0 b1 b2 b3 : Z,
    (x * 2 ^ t = b0 + 2 ^ 8 * b1 + 2 ^ 16 * b2 + 2 ^ 24 * b3 ∧
     is_byte (o + b0) ∧ is_byte b1 ∧ is_byte b2 ∧ is_byte b3 ∧ 0 <= b3 < 2 ^ u) ∧
    a = <[(s + 3)%nat := Some b3]> (<[(s + 2)%nat := Some b2]> (<[(s + 1)%nat := Some b1]>
      (<[(s + 0)%nat := Some (o + b0)]> out)))).
Proof.
  intros Ei Eo Hs Ht Hu Ho Hx HX. set (X := x * 2 ^ t) in *.
  destruct (wrap_word X) as [q Eq]. rewrite Eq in Ei.
  assert (2 ^ (24 + u) = 2 ^ 24 * 2 ^ u) as Eu by (apply Z.pow_add_r; lia).
  assert (2 ^ u <= 2 ^ 8) by (apply Z.pow_le_mono_r; lia).
  assert (0 <= X) by (subst X; pose proof (Z.pow_pos_nonneg 2 t); nia).
  assert (is_byte (o + X `mod` 256) ∧ Z.lor o (X `mod` 256) = o + X `mod` 256) as [Hb0 Elor].
  { assert (X `mod` 256 = (x `mod` 2 ^ (8 - t)) * 2 ^ t) as ->.
    { subst X. change 256 with (2 ^ 8). replace 8 with ((8 - t) + t) at 1 by lia.
      rewrite Z.pow_add_r by lia. by rewrite Z.mul_mod_distr_r by lia. }
    rewrite lor_add by lia. split; [|done]. unfold is_byte.
    assert (256 = 2 ^ (8 - t) * 2 ^ t) as ->
      by (rewrite <-Z.pow_add_r by lia; change 256 with (2 ^ 8); f_equal; lia).
    pose proof (Z.mod_pos_bound x (2 ^ (8 - t))). nia. }
  exists (<[(s + 3)%nat := Some ((X `div` 2 ^ 24) `mod` 256)]>
      (<[(s + 2)%nat := Some ((X `div` 2 ^ 16) `mod` 256)]>
      (<[(s + 1)%nat := Some ((X `div` 2 ^ 8) `mod` 256)]>
      (<[(s + 0)%nat := Some (o + X `mod` 256)]> out)))).
  split.
  - unfold fcontract_limb, iand, ior, ishr.
    rewrite Nat.add_0_r, Ei, Eo. cbn [mbind option_bind fmap option_fmap option_map].
    rewrite land_word, Elor.
    assert (u8 (o + X `mod` 256) = o + X `mod` 256) as -> by (by apply Z.mod_small).

    rewrite !byte_of_word by lia.
    rewrite wr_some by lia. cbn [mbind option_bind].
    do 2 (rewrite wr_some by (rewrite ?length_insert; lia); cbn [mbind option_bind]).
    by rewrite wr_some by (rewrite ?length_insert; lia).
  - eexists _, _, _, _. split; [|done]. unfold is_byte in *.
    assert (0 <= X `div` 2 ^ 24 < 2 ^ u) as H24.
    { split; [apply Z.div_pos; lia|apply Z.div_lt_upper_bound; lia]. }
    rewrite (Z.mod_small (X `div` 2 ^ 24)) by lia.
    split; [|split_and!; try apply Z.mod_pos_bound; lia].
    bit_fields X 0 [8; 8; 8]. change (2 ^ 0) with 1 in *. rewrite Z.div_1_r in *.
    change (2 ^ 8) with 256 in *. lia.
Qed.

Lemma canonical_length x : canonical x → length x = 10%nat.
Proof. intros H. by rewrite <-(Forall2_length _ _ _ H). Qed.

(** One use of [F] on an explicit array. *)
Ltac byte_step x t u :=
  eapply runs_bind;
  [eapply (fcontract_limb_ok _ _ _ _ x t u);
   [reflexivity|reflexivity|cbn; lia|done|done|first [eassumption|done]|lia|lia]
  |intros ? (?b & ?b & ?b & ?b & (?E & ? & ? & ? & ? & ?) & ->);
   cbn [insert list_insert Nat.add]; cbv beta].

Lemma write_bytes_ok x (out : arr) :
  canonical x → length out = 32%nat →
  runs (i ← align_limbs (Some <$> x); write_bytes i out) (λ o, o = Some <$> le_bytes 32 (eval x)).
Proof.
  intros H Ho. unfold canonical in H. forall2_inv H.
  do 32 (destruct out as [|? out]; [discriminate Ho|]). destruct out; [clear Ho|discriminate Ho].
  set (i := [x0 * 2 ^ 0; x * 2 ^ 2; x1 * 2 ^ 3; x2 * 2 ^ 5; x3 * 2 ^ 6; x4 * 2 ^ 0; x5 * 2 ^ 1;
    x6 * 2 ^ 3; x7 * 2 ^ 4; x8 * 2 ^ 6]).
  assert (align_limbs (Some <$> [x0; x; x1; x2; x3; x4; x5; x6; x7; x8]) =
    Some ((λ X, Some (wrap W32 X)) <$> i)) as ->.
  { subst i. cbn [fmap list_fmap].
    rewrite !Z.mul_1_r, !(wrap_small W32 x0), !(wrap_small W32 x4) by (unfold within; cbn; lia).
    by rewrite <-!Z.shiftl_mul_pow2 by done. }
  lazymatch goal with |- runs (Some ?a ≫= ?k) ?Q => change (runs (k a) Q); cbv beta end.
  subst i. cbn [fmap list_fmap]. unfold write_bytes.
  do 2 (eapply (runs_wr _ _ _ 0 1); [done|cbn; lia|intros _; cbn [insert list_insert]]).
  byte_step x0 0 2. byte_step x 2 3. byte_step x1 3 5. byte_step x2 5 6. byte_step x3 6 8.
  byte_step x4 0 1. byte_step x5 1 3. byte_step x6 3 4. byte_step x7 4 6.
  eapply runs_mono;
    [eapply (fcontract_limb_ok _ _ _ _ x8 6 7); [reflexivity|reflexivity|cbn; lia|done..|lia|lia]|].
  intros ? (c0 & c1 & c2 & c3 & (E8 & ? & ? & ? & ? & ?) & ->). cbn [insert list_insert Nat.add].
  lazymatch goal with |- ?l = _ => let bs := values l in
    change (Some <$> bs = Some <$> le_bytes 32 (eval [x0; x; x1; x2; x3; x4; x5; x6; x7; x8]));
    rewrite <-(le_bytes_value bs) at 1; [cbn [length]; do 2 f_equal|] end.
  - weights. cbn [le_value]. lia.
  - repeat (apply Forall_cons_2; [assumption|]). apply Forall_nil_2.
Qed.

(** * [fcontract] *)

Lemma load_limbs_ok a x :
  holds 10 (2 ^ 26) a x →
  runs (for_each (λ i input, wr input i (cast W32 (rd a i))) (seq 0 10) (uninit 10))
    (λ o, o = Some <$> x).
Proof.
  intros Ha. expose Ha. change (uninit 10) with (replicate 10 (@None Z)).
  cbn [seq for_each replicate]. repeat (assoc; wr_step). by apply runs_some.
Qed.

(** A limb that is not negative borrows nothing. *)
Lemma borrow_nothing x0 x1 x :
  in26 x0 → in26 x1 → runs (borrow 0 (Some <$> x0 :: x1 :: x)) (λ a, a = Some <$> x0 :: x1 :: x).
Proof.
  intros H0 H1. eapply runs_mono; [eapply borrow_ok; [reflexivity|reflexivity|..]|].
  - eapply within_weaken; [by apply in26_within|done].
  - eapply within_weaken; [by apply in26_within|done].
  - intros a (c & (_ & Hc & _) & ->). rewrite Hc by apply H0. cbn [insert list_insert Nat.add].
    by rewrite Z.mul_0_l, Z.add_0_r, Z.sub_0_r.
Qed.

Lemma fcontract_ok (out a : arr) v :
  repr (2 ^ 26) a v → length out = 32%nat →
  runs (fcontract out a) (λ o, o = Some <$> le_bytes 32 (v `mod` p25519)).
Proof.
  intros (x & Hx & E) Ho. unfold fcontract.
  eapply runs_bind; [by apply load_limbs_ok|]. intros ? ->.
  destruct Hx as (_ & Hl & HB). cbn [seq for_each]. assoc.
  eapply runs_bind; [by apply first_pass|]. intros ? (y0 & y & -> & Hly & HBy & Hy0 & Ey). assoc.
  eapply runs_bind; [by apply second_pass|]. intros ? (z & -> & Hlz & HBz & Ez).
  lazymatch goal with |- runs (Some ?a ≫= ?k) ?Q => change (runs (k a) Q); cbv beta end.
  destruct z as [|z0 [|z1 z]]; [done..|].
  apply Forall_cons in HBz as Hz. destruct Hz as [Hz0 Hz]. apply Forall_cons in Hz as [Hz1 _].
  eapply runs_bind; [by apply borrow_nothing|].
  intros ? ->. assoc.
  eapply runs_bind; [by apply first_carry|]. intros ? (u0 & u & -> & Hu & Hu0 & Eu). assoc.
  eapply runs_bind; [by apply second_carry|]. intros ? (w & -> & Hw & Ew).
  lazymatch goal with |- runs (Some ?a ≫= ?k) ?Q => change (runs (k a) Q); cbv beta end.
  eapply runs_bind; [by apply subtract_prime_ok|]. intros ? (r & -> & Hr & Er).
  eapply runs_mono; [by apply write_bytes_ok|]. intros o ->. do 2 f_equal.
  rewrite Er. change (eval w =ₚ v). by rewrite Ew, Eu, Ez, Ey.
Qed.

Lemma wf_le_bytes n z : wf_bytes (le_bytes n z).
Proof.
  revert z. induction n as [|n IH]; intros z; [apply Forall_nil_2|].
  apply Forall_cons_2; [|apply IH]. unfold is_byte. by apply Z.mod_pos_bound.
Qed.
Lemma le_value_bytes n z : le_value (le_bytes n z) = z `mod` 256 ^ Z.of_nat n.
Proof.
  revert z. induction n as [|n IH]; intros z; cbn [le_bytes le_value].
  - by rewrite Z.mod_1_r.
  - rewrite IH, Nat2Z.inj_succ, Z.pow_succ_r by lia. symmetry. apply Z.rem_mul_r; lia.
Qed.

(** Expanding 32 bytes and contracting the limbs reduces the number below bit
    255 modulo the prime and never leaves the machine types; numbers that are
    already reduced come back byte for byte. *)
Theorem expand_contract (input : bytes) :
  wf_bytes input → length input = 32%nat →
  ∃ limbs, fexpand (uninit 10) input = Some limbs ∧
    fcontract (uninit 32) limbs =
      Some (Some <$> le_bytes 32 ((le_value input `mod` 2 ^ 255) `mod` p25519)) ∧
    (le_value input < p25519 → fcontract (uninit 32) limbs = Some (Some <$> input)).
Proof.
  intros Hin Hlen.
  destruct (fexpand_ok input (uninit 10) Hin Hlen) as (a & Ha & _ & Hr); [by rewrite length_uninit|].
  destruct (fcontract_ok (uninit 32) a _ Hr) as (o & Ho & ->); [apply length_uninit|].
  exists a. split_and!; [done|done|]. intros Hp. rewrite Ho. do 2 f_equal.
  pose proof (le_value_range input Hin) as Hv.
  rewrite (Z.mod_small (le_value input)), Z.mod_small by (unfold p25519 in *; lia).
  rewrite <-Hlen. by apply le_bytes_value.
Qed.

Ltac concrete_bytes :=
  cbn [replicate]; repeat (apply Forall_cons_2; [by split|]); apply Forall_nil_2.

Lemma expand_contract_witness :
  ∃ limbs, fexpand (uninit 10) (9 :: replicate 31 0) = Some limbs ∧
    fcontract (uninit 32) limbs = Some (Some <$> 9 :: replicate 31 0).
Proof.
  destruct (expand_contract (9 :: replicate 31 0)) as (l & Hl & _ & H).
  - concrete_bytes.
  - reflexivity.
  - exists l. split; [exact Hl|apply H; vm_compute; reflexivity].
Defined.
