(* ===== verification/DonnaLadder.v ===== *)
(** The Montgomery ladder of curve25519-donna.c computes the X25519 function.

    [x25519] is the function of RFC 7748 on integers: the ladder over the bits of
    the scalar in projective coordinates modulo 2^255 - 19, and a division by
    exponentiation at the end. *)

From Stdlib Require Import Setoid Morphisms.
From S2P Require Import Prelude Limbs Donna DonnaField DonnaBytes.
Import Donna.
Local Open Scope limb_scope.

(** * The reference function *)

(** Arithmetic modulo the prime. *)
Definition fadd (a b : Z) : Z := (a + b) `mod` p25519.
Definition fsub (a b : Z) : Z := (a - b) `mod` p25519.
Definition ftimes (a b : Z) : Z := (a * b) `mod` p25519.
Fixpoint fpow (a : Z) (e : positive) : Z :=
  match e with
  | xH => a `mod` p25519
  | xO e => let r := fpow a e in ftimes r r
  | xI e => let r := fpow a e in ftimes a (ftimes r r)
  end.

(** Doubling, and addition of two points whose difference has the affine
    coordinate [q]; a point is the pair of its projective coordinates. *)
Definition xdbl (P : Z * Z) : Z * Z :=
  let s := ftimes (fadd P.1 P.2) (fadd P.1 P.2) in
  let d := ftimes (fsub P.1 P.2) (fsub P.1 P.2) in
  let e := fsub s d in
  (ftimes s d, ftimes e (fadd (ftimes e 121665) s)).
Definition xadd (q : Z) (P Q : Z * Z) : Z * Z :=
  let a := ftimes (fadd Q.1 Q.2) (fsub P.1 P.2) in
  let b := ftimes (fadd P.1 P.2) (fsub Q.1 Q.2) in
  (ftimes (fadd a b) (fadd a b), ftimes (ftimes (fsub a b) (fsub a b)) q).

(** From (n Q, (n + 1) Q) to (2 n Q, (2 n + 1) Q) or ((2 n + 1) Q, (2 n + 2) Q). *)
Definition ladder_step (q : Z) (R : (Z * Z) * (Z * Z)) (bit : bool) : (Z * Z) * (Z * Z) :=
  if bit then (xadd q R.2 R.1, xdbl R.2) else (xdbl R.1, xadd q R.1 R.2).

(** The [n] low bits of a scalar, the highest first. *)
Fixpoint bits_of (n : nat) (k : Z) : list bool :=
  match n with O => [] | S n => Z.testbit k (Z.of_nat n) :: bits_of n k end.

Definition x25519 (k u : Z) : Z :=
  let q := u `mod` 2 ^ 255 in
  let R := foldl (ladder_step q) ((1, 0), (q, 1)) (bits_of 256 k) in
  ftimes R.1.1 (fpow R.1.2 (Z.to_pos (p25519 - 2))).

(** * Arithmetic *)

Lemma mod_eqp a : a `mod` p25519 =ₚ a.
Proof. unfold eqp. by rewrite Z.mod_mod. Qed.
Lemma fadd_eqp a b : fadd a b =ₚ a + b.
Proof. apply mod_eqp. Qed.
Lemma fsub_eqp a b : fsub a b =ₚ a - b.
Proof. apply mod_eqp. Qed.
Lemma ftimes_eqp a b : ftimes a b =ₚ a * b.
Proof. apply mod_eqp. Qed.

#[export] Instance fadd_proper : Proper (eqp ==> eqp ==> eqp) fadd.
Proof. intros a a' Ha b b' Hb. by rewrite !fadd_eqp, Ha, Hb. Qed.
#[export] Instance fsub_proper : Proper (eqp ==> eqp ==> eqp) fsub.
Proof. intros a a' Ha b b' Hb. by rewrite !fsub_eqp, Ha, Hb. Qed.
#[export] Instance ftimes_proper : Proper (eqp ==> eqp ==> eqp) ftimes.
Proof. intros a a' Ha b b' Hb. by rewrite !ftimes_eqp, Ha, Hb. Qed.

Lemma fpow_eqp a e : fpow a e =ₚ a ^ Zpos e.
Proof.
  induction e as [e IH|e IH|]; cbn [fpow].
  - rewrite !ftimes_eqp, IH. rewrite Pos2Z.inj_xI, Z.pow_add_r, Z.pow_twice_r, Z.pow_1_r by lia.
    by rewrite Z.mul_comm.
  - rewrite ftimes_eqp, IH. by rewrite Pos2Z.inj_xO, Z.pow_twice_r.
  - rewrite mod_eqp. by rewrite Z.pow_1_r.
Qed.

(** * One step of the ladder *)

(** The arrays of [fmonty]: room for the outputs, reduced inputs. *)
Definition point (x z : arr) (P : Z * Z) : Prop :=
  repr (2 ^ 26) x P.1 ∧ repr (2 ^ 26) z P.2.

Lemma zeros_ok : runs (for_each (λ i zzz, wr zzz (10 + i) (Some 0)) (seq 0 9) (uninit 19))
  (λ o, length o = 19%nat).
Proof. by eexists. Qed.

Lemma fmonty_ok m qmqp q P Q :
  length (m_x2 m) = 19%nat → length (m_z2 m) = 19%nat →
  length (m_x3 m) = 19%nat → length (m_z3 m) = 19%nat →
  point (m_x m) (m_z m) P → point (m_xprime m) (m_zprime m) Q → repr (2 ^ 26) qmqp q →
  runs (fmonty m qmqp) (λ m',
    point (m_x2 m') (m_z2 m') (xdbl P) ∧ point (m_x3 m') (m_z3 m') (xadd q P Q) ∧
    length (m_x2 m') = 19%nat ∧ length (m_z2 m') = 19%nat ∧
    length (m_x3 m') = 19%nat ∧ length (m_z3 m') = 19%nat ∧
    length (m_x m') = length (m_x m) ∧ length (m_z m') = length (m_z m) ∧
    length (m_xprime m') = length (m_xprime m) ∧ length (m_zprime m') = length (m_zprime m)).
Proof.
  intros L1 L2 L3 L4 [Hx Hz] [Hx' Hz'] Hq. unfold fmonty.
  opn memcpy_ok Ho. opn fsum_ok Hs. opn fdifference_ok Hd.
  opn memcpy_ok Ho'. opn fsum_ok Hs'. opn fdifference_ok Hd'.
  opn product_ok Ha. opn product_ok Hb.
  opn degree_ok Ha1. opn coefficients_ok Ha2. opn degree_ok Hb1. opn coefficients_ok Hb2.
  opn memcpy_ok Ho''. opn fsum_ok Hab. opn fdifference_ok Hab'.
  opn fsquare_ok Hx3. opn fsquare_ok Hz3. opn product_ok Hz3'.
  opn degree_ok Hz31. opn coefficients_ok Hz32. opn memcpy_ok Hx3'. opn memcpy_ok Hz3''.
  opn fsquare_ok Hxx. opn fsquare_ok Hzz. opn product_ok Hx2.
  opn degree_ok Hx21. opn coefficients_ok Hx22. opn fdifference_ok He.
  eapply runs_bind; [apply zeros_ok|]. intros zzz Hzzz. cbv beta in Hzzz.
  opn fscalar_product_ok He1. opn coefficients_ok He2. opn fsum_ok He3.
  opn product_ok Hz2. opn degree_ok Hz21. opn coefficients_ok Hz22.
  apply runs_some. cbn [m_x2 m_z2 m_x3 m_z3 m_x m_z m_xprime m_zprime].
  split_and!; try lia.
  - split; unfold xdbl; cbn [fst snd]; [revert Hx22|revert Hz22]; apply repr_proper;
      by rewrite !ftimes_eqp, ?fadd_eqp, ?fsub_eqp, ?ftimes_eqp, ?fadd_eqp, ?fsub_eqp.
  - split; unfold xadd; cbn [fst snd]; [revert Hx3'|revert Hz3'']; apply repr_proper;
      by rewrite !ftimes_eqp, ?fadd_eqp, ?fsub_eqp, ?ftimes_eqp, ?fadd_eqp, ?fsub_eqp.
Qed.

(** * The conditional swap *)

Lemma swap_limb_ok (b : bool) i (a c : arr) x y :
  rd a i = Some x → rd c i = Some y → within (2 ^ 26) x → within (2 ^ 26) y →
  swap_limb (Some (if b then -1 else 0)) i (a, c) =
    Some (<[i := Some (if b then y else x)]> a, <[i := Some (if b then x else y)]> c).
Proof.
  intros Ex Ey Hx Hy. pose proof (rd_length _ _ _ Ex). pose proof (rd_length _ _ _ Ey).
  unfold swap_limb, s32_of, cast. cbn [fst snd]. rewrite Ex, Ey.
  unfold iand, ixor. cbn [mbind option_bind].
  rewrite !wrap_small by (by eapply within_weaken).
  rewrite !wr_some by done. cbn [mbind option_bind]. destruct b.
  - rewrite Z.land_m1_l, <-Z.lxor_assoc, Z.lxor_nilpotent, Z.lxor_0_l.
    by rewrite (Z.lxor_comm x y), <-Z.lxor_assoc, Z.lxor_nilpotent, Z.lxor_0_l.
  - by rewrite Z.land_0_l, !Z.lxor_0_r.
Qed.

Lemma swap_ok (b : bool) (a c : arr) u v :
  repr (2 ^ 26) a u → repr (2 ^ 26) c v →
  runs (swap_conditional a c (Z.b2z b)) (λ r,
    repr (2 ^ 26) r.1 (if b then v else u) ∧ repr (2 ^ 26) r.2 (if b then u else v) ∧
    length r.1 = length a ∧ length r.2 = length c).
Proof.
  intros (x & Hx & Eu) (y & Hy & Ev). unfold swap_conditional.
  replace (cast W32 (ineg W64 (Some (Z.b2z b)))) with (Some (if b then -1 else 0)) by by destruct b.
  expose Hx. expose Hy. cbn [seq for_each].
  repeat (erewrite swap_limb_ok by (reflexivity || eassumption);
          cbn [mbind option_bind insert list_insert]).
  apply runs_some. cbn [fst snd]. split_and!; [..|done|done].
  all: destruct b; lazymatch goal with |- repr _ ?l _ => let t := values l in exists t end.
  all: split; [split_and!; [by eexists|done|bounds]|done].
Qed.

(** * The ladder *)

(** The arrays of [cmult] hold the two points of the ladder. *)
Definition in_ladder (s : ladder) (R : (Z * Z) * (Z * Z)) : Prop :=
  point (nqx s) (nqz s) R.1 ∧ point (nqpqx s) (nqpqz s) R.2 ∧
  length (nqx s) = 19%nat ∧ length (nqz s) = 19%nat ∧
  length (nqpqx s) = 19%nat ∧ length (nqpqz s) = 19%nat ∧
  length (nqx2 s) = 19%nat ∧ length (nqz2 s) = 19%nat ∧
  length (nqpqx2 s) = 19%nat ∧ length (nqpqz2 s) = 19%nat.

Lemma cmult_bit_ok q u (b : bool) s R :
  repr (2 ^ 26) q u → in_ladder s R →
  runs (cmult_bit q (Z.b2z b) s) (λ s', in_ladder s' (ladder_step u R b)).
Proof.
  intros Hq ([Hx Hz] & [Hx' Hz'] & L1 & L2 & L3 & L4 & L5 & L6 & L7 & L8). unfold cmult_bit.
  eapply runs_bind; [by apply swap_ok|]. intros [ax ax'] (Sx & Sx' & Lx & Lx'). cbn [fst snd] in *.
  eapply runs_bind; [by apply swap_ok|]. intros [az az'] (Sz & Sz' & Lz & Lz'). cbn [fst snd] in *.
  eapply runs_bind.
  { apply (fmonty_ok (Monty (nqx2 s) (nqz2 s) (nqpqx2 s) (nqpqz2 s) ax az ax' az') q u
      (if b then R.2 else R.1) (if b then R.1 else R.2)); try done; destruct b; by split. }
  intros m ([M1 M2] & [M3 M4] & N1 & N2 & N3 & N4 & N5 & N6 & N7 & N8).
  cbn [m_x m_z m_xprime m_zprime] in *.
  eapply runs_bind; [by apply swap_ok|]. intros [bx bx'] (Tx & Tx' & Ly & Ly'). cbn [fst snd] in *.
  eapply runs_bind; [by apply swap_ok|]. intros [bz bz'] (Tz & Tz' & Lw & Lw'). cbn [fst snd] in *.
  apply runs_some. unfold in_ladder.
  cbn [nqx nqz nqpqx nqpqz nqx2 nqz2 nqpqx2 nqpqz2]. 
  split; [|split; [|split_and!; congruence]]; destruct b; by split.
Qed.

(** The bits of a byte, as the inner loop shifts them out. *)
Lemma shifted_bit (b : Z) j : is_byte b → (j < 8)%nat →
  Z.shiftr (u8 (Z.shiftl b (Z.of_nat j))) 7 = Z.b2z (Z.testbit b (7 - Z.of_nat j)).
Proof.
  intros Hb Hj. unfold u8. apply Z.bits_inj'. intros i Hi.
  rewrite Z.shiftr_spec by done. destruct (Z.eq_dec i 0) as [->|Hn].
  - rewrite Z.b2z_bit0, Z.mod_pow2_bits_low, Z.shiftl_spec by lia. f_equal.
  - rewrite Z.mod_pow2_bits_high by lia.
    by destruct (Z.testbit b _), i.
Qed.

Lemma shift_again b j : u8 (Z.shiftl (u8 (Z.shiftl b (Z.of_nat j))) 1) = u8 (Z.shiftl b (Z.of_nat (S j))).
Proof.
  unfold u8. rewrite !Z.shiftl_mul_pow2, Z.mul_mod_idemp_l by lia.
  rewrite <-Z.mul_assoc, <-Z.pow_add_r by lia. do 3 f_equal. lia.
Qed.

Lemma cmult_byte_ok q u n i b s R :
  repr (2 ^ 26) q u → rd n (31 - i) = Some b → is_byte b → in_ladder s R →
  runs (cmult_byte q n i s) (λ s', in_ladder s' (foldl (ladder_step u) R (bits_of 8 b))).
Proof.
  intros Hq En Hb Hs. unfold cmult_byte. rewrite En. cbn [mbind option_bind].
  assert (∀ k j s R, (j + k = 8)%nat → in_ladder s R →
    runs (for_each (λ _ r, s ← cmult_bit q (Z.shiftr r.2 7) r.1; Some (s, u8 (Z.shiftl r.2 1)))
      (seq j k) (s, u8 (Z.shiftl b (Z.of_nat j))))
      (λ r, in_ladder r.1 (foldl (ladder_step u) R (bits_of k b)))) as Hloop.
  { clear s R Hs. induction k as [|k IH]; intros j s R Hjk Hs.
    - by apply runs_some.
    - cbn [seq for_each]. assoc. cbn [fst snd]. rewrite shifted_bit by (done || lia).
      eapply runs_bind; [by apply cmult_bit_ok|]. intros s' Hs'.
      cbn [mbind option_bind]. rewrite shift_again.
      replace (7 - Z.of_nat j) with (Z.of_nat k) in * by lia.
      apply IH; [lia|done]. }
  specialize (Hloop 8%nat 0%nat s R eq_refl Hs). 
  assert (u8 (Z.shiftl b (Z.of_nat 0)) = b) as Eb by (by apply Z.mod_small). rewrite Eb in Hloop.
  eapply runs_bind; [exact Hloop|]. intros r Hr. by apply runs_some.
Qed.

Lemma bits_of_app a m k :
  bits_of (a + m) k = bits_of a (Z.shiftr k (Z.of_nat m)) ++ bits_of m k.
Proof.
  induction a as [|a IH]; [done|]. cbn [Nat.add bits_of app]. rewrite IH, Z.shiftr_spec by lia.
  do 2 f_equal. lia.
Qed.
Lemma bits_of_mod n k : bits_of n (k `mod` 2 ^ Z.of_nat n) = bits_of n k.
Proof.
  assert (∀ m, (m <= n)%nat → bits_of m (k `mod` 2 ^ Z.of_nat n) = bits_of m k) as H; [|by apply H].
  induction m as [|m IH]; intros Hm; [done|]. cbn [bits_of].
  rewrite IH, Z.mod_pow2_bits_low by lia. done.
Qed.

Lemma le_value_byte bs m b : wf_bytes bs → bs !! m = Some b →
  bits_of 8 (Z.shiftr (le_value bs) (Z.of_nat (8 * m))) = bits_of 8 b.
Proof.
  intros Hbs Hm. rewrite Z.shiftr_div_pow2 by lia.
  replace (Z.of_nat (8 * m)) with (8 * Z.of_nat m) by lia. rewrite Z.pow_mul_r by lia.
  change (2 ^ 8) with 256. pose proof (lookup_lt_Some _ _ _ Hm).
  rewrite le_value_drop by (done || lia). rewrite (drop_S _ _ _ Hm). cbn [le_value].
  rewrite <-(bits_of_mod 8). change (2 ^ Z.of_nat 8) with 256.
  rewrite Z.mul_comm, Z_mod_plus_full. by rewrite (bits_of_mod 8).
Qed.

(** The scalar's bytes, from the highest. *)
Lemma ladder_bytes q u bs m s R :
  wf_bytes bs → length bs = 32%nat → repr (2 ^ 26) q u → (m <= 32)%nat → in_ladder s R →
  runs (for_each (cmult_byte q (Some <$> bs)) (seq (32 - m) m) s)
    (λ s', in_ladder s' (foldl (ladder_step u) R (bits_of (8 * m) (le_value bs)))).
Proof.
  intros Hbs Lb Hq. revert s R. induction m as [|m IH]; intros s R Hm Hs.
  { by apply runs_some. }
  cbn [seq for_each].
  destruct (lookup_lt_is_Some_2 bs m) as [b Eb]; [lia|].
  eapply runs_bind.
  { apply (cmult_byte_ok q u _ _ b _ R Hq); [|by apply (Forall_lookup_1 _ _ _ _ Hbs Eb)|done].
    unfold rd. rewrite list_lookup_fmap. replace (31 - (32 - S m))%nat with m by lia.
    by rewrite Eb. }
  intros s' Hs'. replace (S (32 - S m)) with (32 - m)%nat by lia.
  replace (8 * S m)%nat with (8 + 8 * m)%nat by lia.
  rewrite bits_of_app, foldl_app, (le_value_byte _ _ _ Hbs Eb). apply IH; [lia|done].
Qed.

Lemma cmult_ok (rx rz n q : arr) bs u :
  (10 <= length rx)%nat → (10 <= length rz)%nat → n = Some <$> bs → length bs = 32%nat →
  wf_bytes bs → repr (2 ^ 26) q u →
  runs (cmult rx rz n q) (λ r,
    point r.1 r.2 (foldl (ladder_step u) ((1, 0), (u, 1)) (bits_of 256 (le_value bs))).1 ∧
    length r.1 = length rx ∧ length r.2 = length rz).
Proof.
  intros Lx Lz -> Lb Hbs Hq. unfold cmult.
  eapply runs_bind; [apply memcpy_ok; [exact Hq|cbn; lia]|]. intros a [La Ha].
  assert (repr (2 ^ 26) (Some 0 :: replicate 18 (Some 0)) 0) as H0.
  { exists (replicate 10 0). split; [split_and!; [by eexists (replicate 9 (Some 0))|done|]|done].
    by apply Forall_replicate. }
  assert (repr (2 ^ 26) (Some 1 :: replicate 18 (Some 0)) 1) as H1.
  { exists (1 :: replicate 9 0).
    split; [split_and!; [by eexists (replicate 9 (Some 0))|done|]|done].
    apply Forall_cons_2; [done|]. by apply Forall_replicate. }
  eapply runs_bind.
  { apply (ladder_bytes q u bs 32 _ ((1, 0), (u, 1)) Hbs Lb Hq); [lia|].
    unfold in_ladder, point. cbn [nqx nqz nqpqx nqpqz nqx2 nqz2 nqpqx2 nqpqz2 fst snd].
    by split_and!. }
  intros s ([Hx Hz] & _). opn memcpy_ok Hrx. opn memcpy_ok Hrz.
  apply runs_some. by split_and!.
Qed.

(** * The inversion *)

Section Recip.
Context (v : Z).

(** The array holds the [e]-th power of [v]. *)
Definition power (a : arr) (e : Z) : Prop := repr (2 ^ 26) a (v ^ e) ∧ 0 <= e.

Lemma square_power out a e :
  power a e → (10 <= length out)%nat →
  runs (fsquare out a) (λ o, length o = length out ∧ power o (2 * e)).
Proof.
  intros [Ha He] Ho. eapply runs_mono; [apply fsquare_ok; [by eapply repr_weaken|done]|].
  intros o [Hl H]. split; [done|]. split; [by rewrite Z.pow_twice_r|lia].
Qed.
Lemma mul_power out a b e f :
  power a e → power b f → (10 <= length out)%nat →
  runs (fmul out a b) (λ o, length o = length out ∧ power o (e + f)).
Proof.
  intros [Ha He] [Hb Hf] Ho.
  eapply runs_mono; [apply fmul_ok; [by eapply repr_weaken|by eapply repr_weaken|done]|].
  intros o [Hl H]. split; [done|]. split; [by rewrite Z.pow_add_r|lia].
Qed.

(** Each round of the loop squares twice. *)
Lemma square_twice_power lo hi a b e :
  power a e → length a = 10%nat → length b = 10%nat →
  runs (square_twice lo hi (a, b)) (λ r, length r.1 = 10%nat ∧ length r.2 = 10%nat ∧
    power r.1 (e * 4 ^ Z.of_nat (length (steps2 lo hi)))).
Proof.
  unfold square_twice. generalize (steps2 lo hi). intros idx. revert a b e.
  induction idx as [|i idx IH]; intros a b e Ha La Lb; cbn [for_each].
  - apply runs_some. split_and!; [done..|]. cbn [length fst]. by rewrite Z.mul_1_r.
  - cbn [fst snd]. assoc. eapply runs_bind; [apply (square_power _ _ _ Ha); lia|]. intros b' [Lb' Hb].
    assoc. eapply runs_bind; [apply (square_power _ _ _ Hb); lia|]. intros a' [La' Ha'].
    cbn [mbind option_bind]. eapply runs_mono; [apply (IH a' b' (2 * (2 * e))); [done|lia|lia]|].
    intros r (L1 & L2 & H). split_and!; [done..|].
    cbn [length]. rewrite Nat2Z.inj_succ, Z.pow_succ_r by lia.
    by replace (e * (4 * _)) with (2 * (2 * e) * 4 ^ Z.of_nat (length idx)) by lia.
Qed.

(** Apply the lemma of the next operation and evaluate the exponent. *)
Ltac evaluated H :=
  lazymatch type of H with power ?a ?e =>
    let e' := eval vm_compute in e in change (power a e') in H end.
Ltac power_step :=
  let H := fresh "H" in
  lazymatch goal with
  | |- runs (square_twice _ _ _ ≫= _) _ =>
    eapply runs_bind; [eapply square_twice_power; [eassumption|lia|lia]|];
    intros [?a ?a] (?Hlen & ?Hlen & H); cbn [fst snd] in *
  | |- runs (fsquare _ _ ≫= _) _ =>
    eapply runs_bind; [eapply square_power; [eassumption|rewrite ?length_uninit; lia]|];
    intros ?a [?Hlen H]
  | |- runs (fmul _ _ _ ≫= _) _ =>
    eapply runs_bind; [eapply mul_power; [eassumption..|rewrite ?length_uninit; lia]|];
    intros ?a [?Hlen H]
  end; rewrite ?length_uninit in *; evaluated H.

Lemma crecip_ok (out z : arr) :
  repr (2 ^ 26) z v → (10 <= length out)%nat →
  runs (crecip out z) (λ o, length o = length out ∧ repr (2 ^ 26) o (v ^ (p25519 - 2))).
Proof.
  intros Hz Ho. assert (power z 1) as H1 by (split; [by rewrite Z.pow_1_r|lia]).
  unfold crecip. cbv zeta. repeat power_step.
  eapply runs_mono; [eapply mul_power; eassumption|]. intros o [Hl [Hpow _]]. by split.
Qed.
End Recip.

(** * The whole function *)

Lemma load_secret_ok secret :
  length secret = 32%nat →
  for_each (λ i e, wr e i (secret !! i)) (seq 0 32) (uninit 32) = Some (Some <$> secret).
Proof.
  intros H. do 32 (destruct secret as [|? secret]; [discriminate H|]).
  by destruct secret; [|discriminate H].
Qed.

Lemma read_out (bs : bytes) : mapM id (Some <$> bs) = Some bs.
Proof. induction bs as [|b bs IH]; [done|]. cbn. by rewrite IH. Qed.

Lemma curve25519_donna_runs secret basepoint :
  length secret = 32%nat → length basepoint = 32%nat →
  wf_bytes secret → wf_bytes basepoint →
  curve25519_donna secret basepoint =
    Some (0, le_bytes 32 (x25519 (le_value secret) (le_value basepoint))).
Proof.
  intros Ls Lb Hs Hb.
  enough (runs (curve25519_donna secret basepoint) (λ r,
    r = (0, le_bytes 32 (x25519 (le_value secret) (le_value basepoint))))) as (r & -> & ->) by done.
  unfold curve25519_donna. rewrite load_secret_ok by done.
  lazymatch goal with |- runs (Some ?a ≫= ?k) ?Q => change (runs (k a) Q); cbv beta end.
  eapply runs_bind; [by apply fexpand_ok; [..|rewrite length_uninit]|]. intros bp [_ Hbp].
  eapply runs_bind; [eapply cmult_ok; [..|done|exact Ls|exact Hs|exact Hbp]; rewrite length_uninit; lia|].
  intros [x z] ([Hx Hz] & Lx & Lz). cbn [fst snd] in *. rewrite length_uninit in *.
  eapply runs_bind; [apply (crecip_ok _ _ _ Hz); rewrite length_uninit; lia|]. intros zi [_ Hzi].
  eapply runs_bind; [apply fmul_ok; [by eapply repr_weaken|by eapply repr_weaken|lia]|].
  intros z' [_ Hz']. eapply runs_bind; [by apply (fcontract_ok _ _ _ Hz')|]. intros o ->.
  rewrite read_out. cbn [mbind option_bind]. apply runs_some. do 2 f_equal.
  unfold x25519, ftimes. generalize (foldl (ladder_step (le_value basepoint `mod` 2 ^ 255))
    (1, 0, (le_value basepoint `mod` 2 ^ 255, 1)) (bits_of 256 (le_value secret))). intros R.
  change (R.1.1 * R.1.2 ^ (p25519 - 2) =ₚ R.1.1 * fpow R.1.2 (Z.to_pos (p25519 - 2))).
  rewrite fpow_eqp. by rewrite Z2Pos.id.
Qed.

Lemma x25519_range k u : 0 <= x25519 k u < 256 ^ Z.of_nat 32.
Proof.
  unfold x25519, ftimes. cbv zeta.
  match goal with |- 0 <= ?a `mod` _ < _ => pose proof (Z.mod_pos_bound a p25519 eq_refl) as H end.
  change (256 ^ Z.of_nat 32) with (2 ^ 256). unfold p25519 in *. lia.
Qed.

(** C14: on 32-byte inputs [curve25519_donna] always returns 0 and writes 32 bytes,
    without overflow or a read of an unset element, and the number they encode
    is X25519 of the scalar and the point as RFC 7748 defines it, the scalar
    taken as it is. *)
Theorem donna_computes_x25519 (secret basepoint : bytes) :
  length secret = 32%nat → length basepoint = 32%nat →
  wf_bytes secret → wf_bytes basepoint →
  ∃ out, curve25519_donna secret basepoint = Some (0, out) ∧
    length out = 32%nat ∧ wf_bytes out ∧
    le_value out = x25519 (le_value secret) (le_value basepoint).
Proof.
  intros Ls Lb Hs Hb. eexists. split; [by apply curve25519_donna_runs|].
  split; [apply length_le_bytes|]. split; [apply wf_le_bytes|].
  rewrite le_value_bytes. apply Z.mod_small. apply x25519_range.
Qed.

Lemma donna_computes_x25519_witness :
  ∃ out, curve25519_donna (replicate 32 7) (9 :: replicate 31 0) = Some (0, out) ∧
    le_value out = x25519 (le_value (replicate 32 7)) 9.
Proof.
  destruct (donna_computes_x25519 (replicate 32 7) (9 :: replicate 31 0)) as (out & E & _ & _ & V).
  - reflexivity.
  - reflexivity.
  - concrete_bytes.
  - concrete_bytes.
  - exists out. split; [exact E|exact V].
Defined.
