(* ===== verification/DonnaLink.v ===== *)
(** The Diffie-Hellman interface of Provider, discharged by the modelled
    [curve25519_donna].

    Of [DhLaws] only the commutation of X25519 on its base point, a fact of the
    curve and not of the code, stays an assumption: that the function never
    fails, that it writes 32 bytes and what it computes are theorems. *)

From S2P Require Import Prelude Provider Limbs Donna DonnaField DonnaBytes DonnaLadder.

(** The group law: scalar multiples of the base point commute. *)
Class X25519Commutes : Prop :=
  x25519_comm a b : x25519 a (x25519 b 9) = x25519 b (x25519 a 9).

Section Link.
Context (sign : bytes → bytes → bytes → Z * bytes) (verify : bytes → bytes → bytes → Z).

Definition x25519_bytes (s p : bytes) : bytes := le_bytes 32 (x25519 (le_value s) (le_value p)).

(** The C function takes pointers to 32 bytes; lists that are not 32 bytes stand
    for no call. *)
Definition is_key (s : bytes) : bool :=
  (length s =? 32)%nat && forallb (λ b, (0 <=? b) && (b <? 256)) s.

Lemma is_key_spec s : is_key s = true → length s = 32%nat ∧ wf_bytes s.
Proof.
  unfold is_key. rewrite andb_true_iff, Nat.eqb_eq, forallb_forall. intros [H1 H2].
  split; [done|]. apply Forall_forall. intros b Hb%list_elem_of_In.
  specialize (H2 b Hb). unfold is_byte. lia.
Qed.

#[export] Instance donna_curve : Curve25519 := {|
  curve25519_donna s p :=
    if is_key s && is_key p then default (-1, []) (Donna.curve25519_donna s p)
    else (0, x25519_bytes s p);
  curve25519_sign := sign;
  curve25519_verify := verify
|}.

Lemma donna_curve_computes s p : curve25519_donna s p = (0, x25519_bytes s p).
Proof.
  unfold curve25519_donna, donna_curve.
  destruct (is_key s && is_key p) eqn:E; [|done].
  apply andb_true_iff in E as [[Ls Hs]%is_key_spec [Lp Hp]%is_key_spec].
  by rewrite curve25519_donna_runs.
Qed.

Lemma le_value_x25519 s p : le_value (x25519_bytes s p) = x25519 (le_value s) (le_value p).
Proof. unfold x25519_bytes. rewrite le_value_bytes. apply Z.mod_small, x25519_range. Qed.

(** With the group law the laws of the interface hold. *)
#[export] Instance donna_laws {C : X25519Commutes} : DhLaws donna_curve.
Proof.
  refine {| dh := x25519_bytes; donna_ok := donna_curve_computes;
            dh_length s p := length_le_bytes _ _ |}.
  intros a b. unfold x25519_bytes at 1 3. rewrite !le_value_x25519.
  f_equal. apply (x25519_comm (le_value a) (le_value b)).
Defined.
End Link.
