(* ===== verification/Scalar.v ===== *)
(** Scalars modulo the order of the Ed25519 group: sc_reduce.c and sc_muladd.c.

    The 24 variables [s0] to [s23], limbs of 21 bits, are an array.  The code
    between loading and storing is straight-line and made of three groups of
    statements, repeated with different limbs; each is one instruction, and the
    functions are lists of them in the order of the source. *)

From S2P Require Import Prelude Limbs.
Local Open Scope limb_scope.
Local Notation "# n" := (Some n%Z) (at level 8, format "# n") : limb_scope.

(** [crypto_uint64] loads of three and four bytes. *)
Definition load_3 (s : bytes) (off : nat) : option Z :=
  x0 ← s !! off; x1 ← s !! (off + 1)%nat; x2 ← s !! (off + 2)%nat;
  Some (Z.lor (Z.lor x0 (usize (Z.shiftl x1 8))) (usize (Z.shiftl x2 16))).
Definition load_4 (s : bytes) (off : nat) : option Z :=
  x0 ← s !! off; x1 ← s !! (off + 1)%nat; x2 ← s !! (off + 2)%nat; x3 ← s !! (off + 3)%nat;
  Some (Z.lor (Z.lor (Z.lor x0 (usize (Z.shiftl x1 8))) (usize (Z.shiftl x2 16)))
    (usize (Z.shiftl x3 24))).

(** [Carry i]: [carry_i = (s_i + (1<<20)) >> 21; s_{i+1} += carry_i; s_i -= carry_i << 21].
    [CarryDown i]: the same without the rounding term.
    [Fold i]: [s_{i-12} += s_i * 666643], ..., [s_{i-7} -= s_i * 683901], [s_i = 0]. *)
Inductive sc_op := Carry (i : nat) | CarryDown (i : nat) | Fold (i : nat).

Definition sc_carry (carry : option Z) (i : nat) (s : arr) : option arr :=
  s ← wr s (i + 1) (rd s (i + 1) +ₗ carry);
  wr s i (rd s i -ₗ (carry <<ₗ 21)).

Definition sc_fold (i : nat) (s : arr) : option arr :=
  s ← wr s (i - 12) (rd s (i - 12) +ₗ rd s i *ₗ #666643);
  s ← wr s (i - 11) (rd s (i - 11) +ₗ rd s i *ₗ #470296);
  s ← wr s (i - 10) (rd s (i - 10) +ₗ rd s i *ₗ #654183);
  s ← wr s (i - 9) (rd s (i - 9) -ₗ rd s i *ₗ #997805);
  s ← wr s (i - 8) (rd s (i - 8) +ₗ rd s i *ₗ #136657);
  s ← wr s (i - 7) (rd s (i - 7) -ₗ rd s i *ₗ #683901);
  wr s i #0.

Definition sc_step (op : sc_op) (s : arr) : option arr :=
  match op with
  | Carry i => sc_carry ((rd s i +ₗ #(Z.shiftl 1 20)) >>ᵢ 21) i s
  | CarryDown i => sc_carry (rd s i >>ᵢ 21) i s
  | Fold i => sc_fold i s
  end.

Fixpoint sc_run (ops : list sc_op) (s : arr) : option arr :=
  match ops with [] => Some s | op :: ops => s ← sc_step op s; sc_run ops s end.

(** The instructions of [sc_reduce]. *)
Definition sc_reduce_ops : list sc_op :=
  ([
    Fold 23; Fold 22; Fold 21; Fold 20; Fold 19; Fold 18; Carry 6; Carry 8; Carry 10; Carry 12;
    Carry 14; Carry 16; Carry 7; Carry 9; Carry 11; Carry 13; Carry 15; Fold 17; Fold 16; Fold 15;
    Fold 14; Fold 13; Fold 12; Carry 0; Carry 2; Carry 4; Carry 6; Carry 8; Carry 10; Carry 1;
    Carry 3; Carry 5; Carry 7; Carry 9; Carry 11; Fold 12; CarryDown 0; CarryDown 1; CarryDown 2;
    CarryDown 3; CarryDown 4; CarryDown 5; CarryDown 6; CarryDown 7; CarryDown 8; CarryDown 9;
    CarryDown 10; CarryDown 11; Fold 12; CarryDown 0; CarryDown 1; CarryDown 2; CarryDown 3;
    CarryDown 4; CarryDown 5; CarryDown 6; CarryDown 7; CarryDown 8; CarryDown 9; CarryDown 10
  ])%nat.

(** The bytes written at the end of both functions. *)
Definition sc_store (s : arr) : option bytes :=
  mapM (λ e, u8 <$> e) [
    rd s 0 >>ᵢ 0;
    rd s 0 >>ᵢ 8;
    (rd s 0 >>ᵢ 16) |ᵢ (rd s 1 <<ₗ 5);
    rd s 1 >>ᵢ 3;
    rd s 1 >>ᵢ 11;
    (rd s 1 >>ᵢ 19) |ᵢ (rd s 2 <<ₗ 2);
    rd s 2 >>ᵢ 6;
    (rd s 2 >>ᵢ 14) |ᵢ (rd s 3 <<ₗ 7);
    rd s 3 >>ᵢ 1;
    rd s 3 >>ᵢ 9;
    (rd s 3 >>ᵢ 17) |ᵢ (rd s 4 <<ₗ 4);
    rd s 4 >>ᵢ 4;
    rd s 4 >>ᵢ 12;
    (rd s 4 >>ᵢ 20) |ᵢ (rd s 5 <<ₗ 1);
    rd s 5 >>ᵢ 7;
    (rd s 5 >>ᵢ 15) |ᵢ (rd s 6 <<ₗ 6);
    rd s 6 >>ᵢ 2;
    rd s 6 >>ᵢ 10;
    (rd s 6 >>ᵢ 18) |ᵢ (rd s 7 <<ₗ 3);
    rd s 7 >>ᵢ 5;
    rd s 7 >>ᵢ 13;
    rd s 8 >>ᵢ 0;
    rd s 8 >>ᵢ 8;
    (rd s 8 >>ᵢ 16) |ᵢ (rd s 9 <<ₗ 5);
    rd s 9 >>ᵢ 3;
    rd s 9 >>ᵢ 11;
    (rd s 9 >>ᵢ 19) |ᵢ (rd s 10 <<ₗ 2);
    rd s 10 >>ᵢ 6;
    (rd s 10 >>ᵢ 14) |ᵢ (rd s 11 <<ₗ 7);
    rd s 11 >>ᵢ 1;
    rd s 11 >>ᵢ 9;
    rd s 11 >>ᵢ 17
  ].

Definition sc_reduce (s : bytes) : option bytes :=
  let limbs : arr := [
    #2097151 &ᵢ load_3 s 0;
    #2097151 &ᵢ (load_4 s 2 >>ᵢ 5);
    #2097151 &ᵢ (load_3 s 5 >>ᵢ 2);
    #2097151 &ᵢ (load_4 s 7 >>ᵢ 7);
    #2097151 &ᵢ (load_4 s 10 >>ᵢ 4);
    #2097151 &ᵢ (load_3 s 13 >>ᵢ 1);
    #2097151 &ᵢ (load_4 s 15 >>ᵢ 6);
    #2097151 &ᵢ (load_3 s 18 >>ᵢ 3);
    #2097151 &ᵢ load_3 s 21;
    #2097151 &ᵢ (load_4 s 23 >>ᵢ 5);
    #2097151 &ᵢ (load_3 s 26 >>ᵢ 2);
    #2097151 &ᵢ (load_4 s 28 >>ᵢ 7);
    #2097151 &ᵢ (load_4 s 31 >>ᵢ 4);
    #2097151 &ᵢ (load_3 s 34 >>ᵢ 1);
    #2097151 &ᵢ (load_4 s 36 >>ᵢ 6);
    #2097151 &ᵢ (load_3 s 39 >>ᵢ 3);
    #2097151 &ᵢ load_3 s 42;
    #2097151 &ᵢ (load_4 s 44 >>ᵢ 5);
    #2097151 &ᵢ (load_3 s 47 >>ᵢ 2);
    #2097151 &ᵢ (load_4 s 49 >>ᵢ 7);
    #2097151 &ᵢ (load_4 s 52 >>ᵢ 4);
    #2097151 &ᵢ (load_3 s 55 >>ᵢ 1);
    #2097151 &ᵢ (load_4 s 57 >>ᵢ 6);
    (load_4 s 60 >>ᵢ 3)
  ] in
  limbs ← sc_run sc_reduce_ops limbs;
  sc_store limbs.

(** The limbs of a 32-byte operand of [sc_muladd]. *)
Definition sc_limbs (a : bytes) : arr := [
    #2097151 &ᵢ load_3 a 0;
    #2097151 &ᵢ (load_4 a 2 >>ᵢ 5);
    #2097151 &ᵢ (load_3 a 5 >>ᵢ 2);
    #2097151 &ᵢ (load_4 a 7 >>ᵢ 7);
    #2097151 &ᵢ (load_4 a 10 >>ᵢ 4);
    #2097151 &ᵢ (load_3 a 13 >>ᵢ 1);
    #2097151 &ᵢ (load_4 a 15 >>ᵢ 6);
    #2097151 &ᵢ (load_3 a 18 >>ᵢ 3);
    #2097151 &ᵢ load_3 a 21;
    #2097151 &ᵢ (load_4 a 23 >>ᵢ 5);
    #2097151 &ᵢ (load_3 a 26 >>ᵢ 2);
    (load_4 a 28 >>ᵢ 7)
  ].

Definition sc_product (a b c : arr) : arr := [
    rd c 0 +ₗ rd a 0 *ₗ rd b 0;
    rd c 1 +ₗ rd a 0 *ₗ rd b 1 +ₗ rd a 1 *ₗ rd b 0;
    rd c 2 +ₗ rd a 0 *ₗ rd b 2 +ₗ rd a 1 *ₗ rd b 1 +ₗ rd a 2 *ₗ rd b 0;
    rd c 3 +ₗ rd a 0 *ₗ rd b 3 +ₗ rd a 1 *ₗ rd b 2 +ₗ rd a 2 *ₗ rd b 1 +ₗ rd a 3 *ₗ rd b 0;
    rd c 4 +ₗ rd a 0 *ₗ rd b 4 +ₗ rd a 1 *ₗ rd b 3 +ₗ rd a 2 *ₗ rd b 2 +ₗ
      rd a 3 *ₗ rd b 1 +ₗ rd a 4 *ₗ rd b 0;
    rd c 5 +ₗ rd a 0 *ₗ rd b 5 +ₗ rd a 1 *ₗ rd b 4 +ₗ rd a 2 *ₗ rd b 3 +ₗ
      rd a 3 *ₗ rd b 2 +ₗ rd a 4 *ₗ rd b 1 +ₗ rd a 5 *ₗ rd b 0;
    rd c 6 +ₗ rd a 0 *ₗ rd b 6 +ₗ rd a 1 *ₗ rd b 5 +ₗ rd a 2 *ₗ rd b 4 +ₗ
      rd a 3 *ₗ rd b 3 +ₗ rd a 4 *ₗ rd b 2 +ₗ rd a 5 *ₗ rd b 1 +ₗ rd a 6 *ₗ rd b 0;
    rd c 7 +ₗ rd a 0 *ₗ rd b 7 +ₗ rd a 1 *ₗ rd b 6 +ₗ rd a 2 *ₗ rd b 5 +ₗ
      rd a 3 *ₗ rd b 4 +ₗ rd a 4 *ₗ rd b 3 +ₗ rd a 5 *ₗ rd b 2 +ₗ rd a 6 *ₗ rd b 1 +ₗ
      rd a 7 *ₗ rd b 0;
    rd c 8 +ₗ rd a 0 *ₗ rd b 8 +ₗ rd a 1 *ₗ rd b 7 +ₗ rd a 2 *ₗ rd b 6 +ₗ
      rd a 3 *ₗ rd b 5 +ₗ rd a 4 *ₗ rd b 4 +ₗ rd a 5 *ₗ rd b 3 +ₗ rd a 6 *ₗ rd b 2 +ₗ
      rd a 7 *ₗ rd b 1 +ₗ rd a 8 *ₗ rd b 0;
    rd c 9 +ₗ rd a 0 *ₗ rd b 9 +ₗ rd a 1 *ₗ rd b 8 +ₗ rd a 2 *ₗ rd b 7 +ₗ
      rd a 3 *ₗ rd b 6 +ₗ rd a 4 *ₗ rd b 5 +ₗ rd a 5 *ₗ rd b 4 +ₗ rd a 6 *ₗ rd b 3 +ₗ
      rd a 7 *ₗ rd b 2 +ₗ rd a 8 *ₗ rd b 1 +ₗ rd a 9 *ₗ rd b 0;
    rd c 10 +ₗ rd a 0 *ₗ rd b 10 +ₗ rd a 1 *ₗ rd b 9 +ₗ rd a 2 *ₗ rd b 8 +ₗ
      rd a 3 *ₗ rd b 7 +ₗ rd a 4 *ₗ rd b 6 +ₗ rd a 5 *ₗ rd b 5 +ₗ rd a 6 *ₗ rd b 4 +ₗ
      rd a 7 *ₗ rd b 3 +ₗ rd a 8 *ₗ rd b 2 +ₗ rd a 9 *ₗ rd b 1 +ₗ rd a 10 *ₗ rd b 0;
    rd c 11 +ₗ rd a 0 *ₗ rd b 11 +ₗ rd a 1 *ₗ rd b 10 +ₗ rd a 2 *ₗ rd b 9 +ₗ
      rd a 3 *ₗ rd b 8 +ₗ rd a 4 *ₗ rd b 7 +ₗ rd a 5 *ₗ rd b 6 +ₗ rd a 6 *ₗ rd b 5 +ₗ
      rd a 7 *ₗ rd b 4 +ₗ rd a 8 *ₗ rd b 3 +ₗ rd a 9 *ₗ rd b 2 +ₗ rd a 10 *ₗ rd b 1 +ₗ
      rd a 11 *ₗ rd b 0;
    rd a 1 *ₗ rd b 11 +ₗ rd a 2 *ₗ rd b 10 +ₗ rd a 3 *ₗ rd b 9 +ₗ rd a 4 *ₗ rd b 8 +ₗ
      rd a 5 *ₗ rd b 7 +ₗ rd a 6 *ₗ rd b 6 +ₗ rd a 7 *ₗ rd b 5 +ₗ rd a 8 *ₗ rd b 4 +ₗ
      rd a 9 *ₗ rd b 3 +ₗ rd a 10 *ₗ rd b 2 +ₗ rd a 11 *ₗ rd b 1;
    rd a 2 *ₗ rd b 11 +ₗ rd a 3 *ₗ rd b 10 +ₗ rd a 4 *ₗ rd b 9 +ₗ rd a 5 *ₗ rd b 8 +ₗ
      rd a 6 *ₗ rd b 7 +ₗ rd a 7 *ₗ rd b 6 +ₗ rd a 8 *ₗ rd b 5 +ₗ rd a 9 *ₗ rd b 4 +ₗ
      rd a 10 *ₗ rd b 3 +ₗ rd a 11 *ₗ rd b 2;
    rd a 3 *ₗ rd b 11 +ₗ rd a 4 *ₗ rd b 10 +ₗ rd a 5 *ₗ rd b 9 +ₗ rd a 6 *ₗ rd b 8 +ₗ
      rd a 7 *ₗ rd b 7 +ₗ rd a 8 *ₗ rd b 6 +ₗ rd a 9 *ₗ rd b 5 +ₗ rd a 10 *ₗ rd b 4 +ₗ
      rd a 11 *ₗ rd b 3;
    rd a 4 *ₗ rd b 11 +ₗ rd a 5 *ₗ rd b 10 +ₗ rd a 6 *ₗ rd b 9 +ₗ rd a 7 *ₗ rd b 8 +ₗ
      rd a 8 *ₗ rd b 7 +ₗ rd a 9 *ₗ rd b 6 +ₗ rd a 10 *ₗ rd b 5 +ₗ rd a 11 *ₗ rd b 4;
    rd a 5 *ₗ rd b 11 +ₗ rd a 6 *ₗ rd b 10 +ₗ rd a 7 *ₗ rd b 9 +ₗ rd a 8 *ₗ rd b 8 +ₗ
      rd a 9 *ₗ rd b 7 +ₗ rd a 10 *ₗ rd b 6 +ₗ rd a 11 *ₗ rd b 5;
    rd a 6 *ₗ rd b 11 +ₗ rd a 7 *ₗ rd b 10 +ₗ rd a 8 *ₗ rd b 9 +ₗ rd a 9 *ₗ rd b 8 +ₗ
      rd a 10 *ₗ rd b 7 +ₗ rd a 11 *ₗ rd b 6;
    rd a 7 *ₗ rd b 11 +ₗ rd a 8 *ₗ rd b 10 +ₗ rd a 9 *ₗ rd b 9 +ₗ rd a 10 *ₗ rd b 8 +ₗ
      rd a 11 *ₗ rd b 7;
    rd a 8 *ₗ rd b 11 +ₗ rd a 9 *ₗ rd b 10 +ₗ rd a 10 *ₗ rd b 9 +ₗ rd a 11 *ₗ rd b 8;
    rd a 9 *ₗ rd b 11 +ₗ rd a 10 *ₗ rd b 10 +ₗ rd a 11 *ₗ rd b 9;
    rd a 10 *ₗ rd b 11 +ₗ rd a 11 *ₗ rd b 10;
    rd a 11 *ₗ rd b 11;
    #0
  ].

(** The carries of [sc_muladd] before the part it shares with [sc_reduce]. *)
Definition sc_muladd_carries : list sc_op :=
  ([
    Carry 0; Carry 2; Carry 4; Carry 6; Carry 8; Carry 10; Carry 12; Carry 14; Carry 16; Carry 18;
    Carry 20; Carry 22; Carry 1; Carry 3; Carry 5; Carry 7; Carry 9; Carry 11; Carry 13; Carry 15;
    Carry 17; Carry 19; Carry 21
  ])%nat.

Definition sc_muladd (a b c : bytes) : option bytes :=
  limbs ← sc_run (sc_muladd_carries ++ sc_reduce_ops)
    (sc_product (sc_limbs a) (sc_limbs b) (sc_limbs c));
  sc_store limbs.

(** * additions/ *)

(** [a[i] = e(a[i])]. *)
Definition on_byte (f : Z → Z) (i : nat) (a : bytes) : option bytes :=
  x ← a !! i; Some (<[i := f x]> a).
Definition sc_clamp (a : bytes) : option bytes :=
  a ← on_byte (λ x, Z.land x 248) 0 a;
  a ← on_byte (λ x, Z.land x 127) 31 a;
  on_byte (λ x, Z.lor x 64) 31 a.

Definition lminus1 : bytes :=
  [0xec; 0xd3; 0xf5; 0x5c; 0x1a; 0x63; 0x12; 0x58; 0xd6; 0x9c; 0xf7; 0xa2; 0xde; 0xf9; 0xde; 0x14;
   0x00; 0x00; 0x00; 0x00; 0x00; 0x00; 0x00; 0x00; 0x00; 0x00; 0x00; 0x00; 0x00; 0x00; 0x00; 0x10].
Definition sc_neg (a : bytes) : option bytes := sc_muladd lminus1 a (replicate 32 0).

(** [for (count = 0; count < 32; count++) r[count] = e(x[count], y[count])]. *)
Definition bytes32 (e : Z → Z → Z) (x y : bytes) : option bytes :=
  mapM (λ i, a ← x !! i; b ← y !! i; Some (e a b)) (seq 0 32).
Definition sc_cmov (f g : bytes) (b : Z) : option bytes :=
  x ← bytes32 Z.lxor f g;
  let b := u8 (- b) in
  bytes32 (λ fi xi, Z.lxor fi (Z.land xi b)) f x.

(** [F(0)] to [F(31)], then the test of [differentbits], an [unsigned int]. *)
Definition crypto_verify_32_ref (x y : bytes) : option Z :=
  d ← bytes32 Z.lxor x y;
  let differentbits := foldl Z.lor 0 d in
  Some (Z.land 1 (Z.shiftr (u32 (differentbits - 1)) 8) - 1).

Definition sc_isreduced (s : bytes) : option bool :=
  if (32 <=? length s)%nat then
    strict ← sc_reduce (take 32 s ++ replicate 32 0);
    v ← crypto_verify_32_ref strict s;
    Some (bool_decide (v = 0))
  else None.
