(* ===== verification/ScalarSpec.v ===== *)
(** [sc_reduce] and [sc_muladd] compute modulo the group order.

    The carries and folds keep the value modulo the order; that none of them
    overflows is checked by an interval analysis of the instruction lists, which
    is proved sound once and run by evaluation. *)

From S2P Require Import Prelude Buffer Provider Curve Limbs DonnaField DonnaBytes Scalar.
Local Open Scope limb_scope.

(** The order of the base point. *)
Definition order_low : Z := 27742317777372353535851937790883648493.
Definition group_order : Z := 2 ^ 252 + order_low.

(** The value of limbs of 21 bits. *)
Fixpoint value21 (l : list Z) : Z :=
  match l with [] => 0 | x :: l => x + 2 ^ 21 * value21 l end.

Lemma value21_insert l i x y :
  l !! i = Some x → value21 (<[i := y]> l) = value21 l + 2 ^ (21 * Z.of_nat i) * (y - x).
Proof.
  revert i. induction l as [|z l IH]; intros [|i] H; simplify_eq/=; [cbn [Z.of_nat]; lia|].
  rewrite (IH i H). rewrite Nat2Z.inj_succ.
  replace (21 * Z.succ (Z.of_nat i)) with (21 + 21 * Z.of_nat i) by lia.
  rewrite Z.pow_add_r by lia. ring.
Qed.
Lemma value21_app l k : value21 (l ++ k) = value21 l + 2 ^ (21 * zlen l) * value21 k.
Proof.
  induction l as [|x l IH].
  { change (2 ^ (21 * zlen (@nil Z))) with 1. cbn [app value21]. lia. }
  cbn [app value21]. rewrite IH. unfold zlen. cbn [length].
  rewrite Nat2Z.inj_succ. replace (21 * Z.succ (Z.of_nat (length l))) with (21 + 21 * Z.of_nat (length l)) by lia.
  rewrite Z.pow_add_r by lia. ring.
Qed.

(** * The interval analysis *)

(** Strict bounds on the magnitude of every limb. *)
Definition abs_carry (round b : Z) (r : Z) (i : nat) (B : list Z) : option (list Z) :=
  b' ← B !! (i + 1)%nat;
  let cb := (b + round) `div` 2 ^ 21 + 2 in
  if (b + 2 ^ 22 <=? 2 ^ 62) && (b' + cb <=? 2 ^ 62) && (0 <? b)
  then Some (<[i := r]> (<[(i + 1)%nat := b' + cb]> B)) else None.

Definition abs_add (b k : Z) (i : nat) (B : list Z) : option (list Z) :=
  b' ← B !! i;
  if (b' + b * k <=? 2 ^ 62) && (0 <? b) && (0 <? b') then Some (<[i := b' + b * k]> B) else None.

Definition abs_step (op : sc_op) (B : list Z) : option (list Z) :=
  match op with
  | Carry i => b ← B !! i; abs_carry (2 ^ 20) b (2 ^ 20 + 1) i B
  | CarryDown i => b ← B !! i; abs_carry 0 b (2 ^ 21) i B
  | Fold i =>
    if (12 <=? i)%nat then
      b ← B !! i;
      B ← abs_add b 666643 (i - 12) B; B ← abs_add b 470296 (i - 11) B;
      B ← abs_add b 654183 (i - 10) B; B ← abs_add b 997805 (i - 9) B;
      B ← abs_add b 136657 (i - 8) B; B ← abs_add b 683901 (i - 7) B;
      Some (<[i := 1]> B)
    else None
  end.

Fixpoint abs_run (ops : list sc_op) (B : list Z) : option (list Z) :=
  match ops with [] => Some B | op :: ops => B ← abs_step op B; abs_run ops B end.

(** [sound V B a]: the array holds limbs within the bounds, with the value [V]
    modulo the order. *)
Definition sound (V : Z) (B : list Z) (a : arr) : Prop :=
  ∃ l, a = Some <$> l ∧ Forall2 within B l ∧ value21 l `mod` group_order = V `mod` group_order.

Lemma rd_fmap (l : list Z) i x : l !! i = Some x → rd (Some <$> l) i = Some x.
Proof. intros H. unfold rd. by rewrite list_lookup_fmap, H. Qed.
Lemma insert_fmap (l : list Z) i x : <[i := Some x]> (Some <$> l) = Some <$> <[i := x]> l.
Proof. by rewrite list_fmap_insert. Qed.

(** A limb that the analysis knows is there, within its bound. *)
Lemma bounded_lookup B l i b :
  Forall2 within B l → B !! i = Some b → ∃ x, l !! i = Some x ∧ within b x.
Proof. intros H Hb. destruct (Forall2_lookup_l _ _ _ _ _ H Hb) as (x & ? & ?). by exists x. Qed.

(** Moving [c] to the next limb keeps the value. *)
Lemma sc_carry_ok l i x y c :
  l !! i = Some x → l !! (i + 1)%nat = Some y →
  within (2 ^ 62) (y + c) → within (2 ^ 62) (c * 2 ^ 21) → within (2 ^ 62) (x - c * 2 ^ 21) →
  sc_carry (Some c) i (Some <$> l) =
    Some (Some <$> <[i := x - c * 2 ^ 21]> (<[(i + 1)%nat := y + c]> l)) ∧
  value21 (<[i := x - c * 2 ^ 21]> (<[(i + 1)%nat := y + c]> l)) = value21 l.
Proof.
  intros Hx Hy H1 H2 H3.
  pose proof (lookup_lt_Some _ _ _ Hx). pose proof (lookup_lt_Some _ _ _ Hy). split.
  - unfold sc_carry. rewrite (rd_fmap _ _ _ Hy). unfold iadd. cbn [mbind option_bind].
    rewrite checked_fits by (by eapply within_weaken). rewrite wr_some by (by rewrite length_fmap).
    cbn [mbind option_bind]. rewrite insert_fmap.
    rewrite (rd_fmap _ i x) by (by rewrite list_lookup_insert_ne by lia).
    unfold isub, ishl. cbn [mbind option_bind]. rewrite Z.shiftl_mul_pow2 by done.
    rewrite wrap_small by (by eapply within_weaken).
    rewrite checked_fits by (by eapply within_weaken).
    rewrite wr_some by (by rewrite length_fmap, length_insert). by rewrite insert_fmap.
  - rewrite (value21_insert _ i x) by (by rewrite list_lookup_insert_ne by lia).
    rewrite (value21_insert _ _ y) by done.
    replace (21 * Z.of_nat (i + 1)) with (21 + 21 * Z.of_nat i) by lia.
    rewrite Z.pow_add_r by lia. ring.
Qed.

Lemma abs_carry_sound B B' l i b round r x :
  Forall2 within B l → B !! i = Some b → l !! i = Some x → within b x →
  (round = 0 ∧ r = 2 ^ 21 ∨ round = 2 ^ 20 ∧ r = 2 ^ 20 + 1) →
  abs_carry round b r i B = Some B' →
  ∃ l', sc_carry (Some ((x + round) `div` 2 ^ 21)) i (Some <$> l) = Some (Some <$> l') ∧
    Forall2 within B' l' ∧ value21 l' = value21 l ∧
    ∃ y, l' = <[i := x - (x + round) `div` 2 ^ 21 * 2 ^ 21]> (<[(i + 1)%nat := y]> l).
Proof.
  intros HB Hb Hx Hbx Hr. unfold abs_carry. destruct (B !! (i + 1)%nat) as [b'|] eqn:Hb'; [|done].
  cbn [mbind option_bind]. destruct (_ && _) eqn:E; [|done]. intros [= <-].
  rewrite !andb_true_iff, !Z.leb_le, Z.ltb_lt in E. destruct E as [[E1 E2] E3].
  destruct (bounded_lookup _ _ _ _ HB Hb') as (y & Hy & Hby).
  set (c := (x + round) `div` 2 ^ 21).
  assert (within ((b + round) `div` 2 ^ 21 + 2) c ∧ within r (x - c * 2 ^ 21)) as [Hc Hrx].
  { subst c. unfold within in *.
    destruct Hr as [[-> ->]|[-> ->]]; Z.to_euclidean_division_equations; lia. }
  assert (within (2 ^ 62) (c * 2 ^ 21)) as Hc21.
  { unfold within in *. destruct Hr as [[-> ->]|[-> ->]]; lia. }
  destruct (sc_carry_ok l i x y c Hx Hy) as [Hrun Hval].
  - eapply within_add; [exact Hby|exact Hc|done].
  - done.
  - eapply within_weaken; [exact Hrx|]. destruct Hr as [[-> ->]|[-> ->]]; lia.
  - eexists. split; [exact Hrun|]. split; [|split; [exact Hval|by eexists]].
    apply Forall2_insert; [|exact Hrx]. apply Forall2_insert; [done|].
    eapply within_add; [exact Hby|exact Hc|done].
Qed.

(** One statement of a fold. *)
Lemma fold_statement B B' l i j b k x :
  Forall2 within B l → within b x → 0 < k → abs_add b k j B = Some B' → i ≠ j →
  l !! i = Some x →
  ∃ y, l !! j = Some y ∧ Forall2 within B' (<[j := y + x * k]> l) ∧
    Forall2 within B' (<[j := y - x * k]> l) ∧
    wr (Some <$> l) j (rd (Some <$> l) j +ₗ rd (Some <$> l) i *ₗ Some k) =
      Some (Some <$> <[j := y + x * k]> l) ∧
    wr (Some <$> l) j (rd (Some <$> l) j -ₗ rd (Some <$> l) i *ₗ Some k) =
      Some (Some <$> <[j := y - x * k]> l).
Proof.
  intros HB Hbx Hk. unfold abs_add. destruct (B !! j) as [b'|] eqn:Hb'; [|done].
  cbn [mbind option_bind]. destruct (_ && _) eqn:E; [|done]. intros [= <-] Hij Hx.
  rewrite !andb_true_iff, !Z.ltb_lt, Z.leb_le in E. destruct E as [[E1 E2] E3].
  destruct (bounded_lookup _ _ _ _ HB Hb') as (y & Hy & Hby). exists y. split; [done|].
  pose proof (lookup_lt_Some _ _ _ Hy).
  assert (within (b * k) (x * k)) as Hxk by (unfold within in *; nia).
  assert (within (b' + b * k) (y + x * k) ∧ within (b' + b * k) (y - x * k)) as [Hp Hm]
    by (unfold within in *; lia).
  rewrite (rd_fmap _ _ _ Hx), (rd_fmap _ _ _ Hy). unfold iadd, isub, imul.
  cbn [mbind option_bind].
  rewrite !(checked_fits W64 (x * k)) by (eapply within_weaken; [exact Hxk|cbn [half]; lia]).
  cbn [mbind option_bind].
  rewrite !checked_fits by (eapply within_weaken; [eassumption|cbn [half]; lia]).
  rewrite !wr_some by (by rewrite length_fmap). rewrite !insert_fmap.
  split_and!; try done; by apply Forall2_insert.
Qed.

Lemma fold_chain l i x y0 y1 y2 y3 y4 y5 :
  (12 <= i)%nat → l !! i = Some x →
  l !! (i - 12)%nat = Some y0 → l !! (i - 11)%nat = Some y1 → l !! (i - 10)%nat = Some y2 →
  l !! (i - 9)%nat = Some y3 → l !! (i - 8)%nat = Some y4 → l !! (i - 7)%nat = Some y5 →
  value21 (<[i := 0]> (<[(i - 7)%nat := y5 - x * 683901]> (<[(i - 8)%nat := y4 + x * 136657]>
    (<[(i - 9)%nat := y3 - x * 997805]> (<[(i - 10)%nat := y2 + x * 654183]>
    (<[(i - 11)%nat := y1 + x * 470296]> (<[(i - 12)%nat := y0 + x * 666643]> l))))))) =
  value21 l + - (2 ^ (21 * (Z.of_nat i - 12)) * x) * group_order.
Proof.
  intros Hi Hx H0 H1 H2 H3 H4 H5.
  rewrite (value21_insert _ i x), (value21_insert _ (i - 7) y5), (value21_insert _ (i - 8) y4),
    (value21_insert _ (i - 9) y3), (value21_insert _ (i - 10) y2), (value21_insert _ (i - 11) y1),
    (value21_insert _ (i - 12) y0)
    by (rewrite ?list_lookup_insert_ne by lia; done).
  rewrite !Nat2Z.inj_sub by lia. 
  set (d := 21 * (Z.of_nat i - 12)). assert (0 <= d) by lia.
  replace (21 * Z.of_nat i) with (252 + d) by lia.
  replace (21 * (Z.of_nat i - Z.of_nat 12)) with d by lia.
  replace (21 * (Z.of_nat i - Z.of_nat 11)) with (21 + d) by lia.
  replace (21 * (Z.of_nat i - Z.of_nat 10)) with (42 + d) by lia.
  replace (21 * (Z.of_nat i - Z.of_nat 9)) with (63 + d) by lia.
  replace (21 * (Z.of_nat i - Z.of_nat 8)) with (84 + d) by lia.
  replace (21 * (Z.of_nat i - Z.of_nat 7)) with (105 + d) by lia.
  rewrite !Z.pow_add_r by lia. unfold group_order, order_low. ring.
Qed.

(** Run the next statement of a fold, an addition or a subtraction. *)
Ltac fold_step H HB Hbx Hx y Hy sign :=
  lazymatch type of H with
  | (abs_add ?b ?k ?j ?B ≫= ?f) = Some ?B' =>
    lazymatch type of Hx with ?l !! ?i = Some ?x =>
    let B1 := fresh "B" in let E := fresh "E" in let R := fresh "R" in
    let HB1 := fresh "HB" in let Hx1 := fresh "Hx" in
    destruct (abs_add b k j B) as [B1|] eqn:E; [|discriminate H];
    cbn [mbind option_bind] in H;
    lazymatch sign with
    | true => destruct (fold_statement B B1 l i j b k x HB Hbx ltac:(done) E ltac:(lia) Hx)
        as (y & Hy & HB1 & _ & R & _);
        assert (<[j := y + x * k]> l !! i = Some x) as Hx1
    | false => destruct (fold_statement B B1 l i j b k x HB Hbx ltac:(done) E ltac:(lia) Hx)
        as (y & Hy & _ & HB1 & _ & R);
        assert (<[j := y - x * k]> l !! i = Some x) as Hx1
    end; [by rewrite list_lookup_insert_ne by lia|];
    rewrite R; cbn [mbind option_bind]; clear R E HB Hx; rename HB1 into HB; rename Hx1 into Hx;
    rewrite ?list_lookup_insert_ne in Hy by lia
    end
  end.

Lemma abs_fold_sound B B' l i :
  Forall2 within B l → abs_step (Fold i) B = Some B' →
  ∃ l', sc_fold i (Some <$> l) = Some (Some <$> l') ∧ Forall2 within B' l' ∧
    ∃ x, l !! i = Some x ∧
      value21 l' = value21 l + - (2 ^ (21 * (Z.of_nat i - 12)) * x) * group_order.
Proof.
  intros HB. cbn [abs_step]. destruct (Nat.leb_spec 12 i) as [Hi|]; [|done].
  destruct (B !! i) as [b|] eqn:Hb; [|done]. cbn [mbind option_bind].
  destruct (bounded_lookup _ _ _ _ HB Hb) as (x & Hx & Hbx). intros H.
  pose proof Hx as Hx0. unfold sc_fold.
  fold_step H HB Hbx Hx y0 Hy0 true. fold_step H HB Hbx Hx y1 Hy1 true.
  fold_step H HB Hbx Hx y2 Hy2 true. fold_step H HB Hbx Hx y3 Hy3 false.
  fold_step H HB Hbx Hx y4 Hy4 true. fold_step H HB Hbx Hx y5 Hy5 false.
  injection H as <-. rewrite wr_some by (rewrite length_fmap; by eapply lookup_lt_Some).
  rewrite insert_fmap. eexists. split; [reflexivity|]. split.
  - apply Forall2_insert; [done|]. unfold within. lia.
  - exists x. split; [done|]. by apply fold_chain.
Qed.

Lemma ishr_div e n : 0 <= n → (e >>ᵢ n) = (λ x, x `div` 2 ^ n) <$> e.
Proof. intros Hn. destruct e as [x|]; [|done]. cbn. by rewrite Z.shiftr_div_pow2. Qed.

Lemma abs_step_sound V op B B' a :
  sound V B a → abs_step op B = Some B' → ∃ a', sc_step op a = Some a' ∧ sound V B' a'.
Proof.
  intros (l & -> & HB & Hv) H. destruct op as [i|i|i].
  - cbn [abs_step] in H. destruct (B !! i) as [b|] eqn:Hb; [|done]. cbn [mbind option_bind] in H.
    destruct (bounded_lookup _ _ _ _ HB Hb) as (x & Hx & Hbx).
    destruct (abs_carry_sound B B' l i b (2 ^ 20) (2 ^ 20 + 1) x) as (l' & Hr & HB' & Hv' & _); auto.
    exists (Some <$> l'). split; [|exists l'; by rewrite Hv'].
    unfold sc_step. rewrite (rd_fmap _ _ _ Hx). unfold iadd. cbn [mbind option_bind].
    rewrite checked_fits.
    + rewrite ishr_div by done. exact Hr.
    + unfold abs_carry in H. destruct (B !! (i + 1)%nat); [|done]. cbn [mbind option_bind] in H.
      destruct (_ && _) eqn:E; [|done]. rewrite !andb_true_iff, !Z.leb_le in E.
      change (Z.shiftl 1 20) with (2 ^ 20). unfold within in *. cbn [half]. lia.
  - cbn [abs_step] in H. destruct (B !! i) as [b|] eqn:Hb; [|done]. cbn [mbind option_bind] in H.
    destruct (bounded_lookup _ _ _ _ HB Hb) as (x & Hx & Hbx).
    destruct (abs_carry_sound B B' l i b 0 (2 ^ 21) x) as (l' & Hr & HB' & Hv' & _); auto.
    exists (Some <$> l'). split; [|exists l'; by rewrite Hv'].
    unfold sc_step. rewrite (rd_fmap _ _ _ Hx), ishr_div by done. rewrite Z.add_0_r in Hr. exact Hr.
  - destruct (abs_fold_sound B B' l i HB H) as (l' & Hr & HB' & x & _ & Hv').
    exists (Some <$> l'). split; [done|]. exists l'. split_and!; [done|done|].
    by rewrite Hv', Z_mod_plus_full.
Qed.

Lemma abs_run_sound V ops B B' a :
  sound V B a → abs_run ops B = Some B' → ∃ a', sc_run ops a = Some a' ∧ sound V B' a'.
Proof.
  revert B a. induction ops as [|op ops IH]; intros B a Ha H.
  - injection H as <-. by exists a.
  - cbn [abs_run] in H. destruct (abs_step op B) as [B1|] eqn:E; [|done].
    cbn [mbind option_bind] in H. destruct (abs_step_sound V op B B1 a Ha E) as (a1 & Hr & Ha1).
    destruct (IH B1 a1 Ha1 H) as (a' & ? & ?). exists a'. split; [|done].
    cbn [sc_run]. by rewrite Hr.
Qed.

(** * Normalizing *)

(** The first [n] limbs are digits. *)
Definition digits (n : nat) (l : list Z) : Prop :=
  ∀ i x, (i < n)%nat → l !! i = Some x → 0 <= x < 2 ^ 21.

Lemma abs_down_sound B B' l i :
  Forall2 within B l → digits i l → abs_step (CarryDown i) B = Some B' →
  ∃ l', sc_step (CarryDown i) (Some <$> l) = Some (Some <$> l') ∧ Forall2 within B' l' ∧
    value21 l' = value21 l ∧ digits (S i) l'.
Proof.
  intros HB Hd H. cbn [abs_step] in H. destruct (B !! i) as [b|] eqn:Hb; [|done].
  cbn [mbind option_bind] in H. destruct (bounded_lookup _ _ _ _ HB Hb) as (x & Hx & Hbx).
  destruct (abs_carry_sound B B' l i b 0 (2 ^ 21) x) as (l' & Hr & HB' & Hv' & y & El); auto.
  rewrite Z.add_0_r in *. exists l'. split_and!; [|done|done|].
  - unfold sc_step. rewrite (rd_fmap _ _ _ Hx), ishr_div by done. exact Hr.
  - intros j z Hj. subst l'. destruct (decide (j = i)) as [->|].
    + pose proof (lookup_lt_Some _ _ _ Hx).
      rewrite list_lookup_insert_eq by (by rewrite length_insert). intros [= <-].
      Z.to_euclidean_division_equations; lia.
    + rewrite !list_lookup_insert_ne by lia. apply Hd. lia.
Qed.

Lemma abs_downs_sound n B B' l i :
  Forall2 within B l → digits i l → abs_run (CarryDown <$> seq i n) B = Some B' →
  ∃ l', sc_run (CarryDown <$> seq i n) (Some <$> l) = Some (Some <$> l') ∧ Forall2 within B' l' ∧
    value21 l' = value21 l ∧ digits (i + n) l'.
Proof.
  revert B l i. induction n as [|n IH]; intros B l i HB Hd H.
  - injection H as <-. exists l. by rewrite Nat.add_0_r.
  - cbn [seq fmap list_fmap abs_run] in H.
    destruct (abs_step (CarryDown i) B) as [B1|] eqn:E; [|done]. cbn [mbind option_bind] in H.
    destruct (abs_down_sound B B1 l i HB Hd E) as (l1 & Hr1 & HB1 & Hv1 & Hd1).
    destruct (IH B1 l1 (S i) HB1 Hd1 H) as (l' & Hr & HB' & Hv & Hd').
    exists l'. cbn [seq fmap list_fmap sc_run]. rewrite Hr1.
    split_and!; [done|done|congruence|by rewrite Nat.add_succ_r].
Qed.

(** The magnitude of a value is bounded by the value of the bounds. *)
Lemma value21_bound B l : Forall2 within B l → - value21 B <= value21 l <= value21 B.
Proof. unfold within. induction 1; cbn [value21]; lia. Qed.
Lemma value21_digits l n : (n <= length l)%nat → digits n l →
  0 <= value21 (take n l) < 2 ^ (21 * Z.of_nat n).
Proof.
  revert l. induction n as [|n IH]; intros l Hn Hd; [by cbn|].
  destruct l as [|x l]; [simpl in Hn; lia|].
  pose proof (Hd 0%nat x ltac:(lia) eq_refl). cbn [take value21].
  assert (0 <= value21 (take n l) < 2 ^ (21 * Z.of_nat n)) by
    (apply IH; [simpl in Hn; lia|intros i z Hi Hz; by apply (Hd (S i) z); [lia|]]).
  rewrite Nat2Z.inj_succ. replace (21 * Z.succ (Z.of_nat n)) with (21 + 21 * Z.of_nat n) by lia.
  rewrite Z.pow_add_r by lia. lia.
Qed.
Lemma within_ones n l : Forall2 within (replicate n 1) l → l = replicate n 0.
Proof.
  revert l. induction n as [|n IH]; intros l H; apply Forall2_length in H as Hl;
    destruct l as [|x l]; try done.
  cbn [replicate] in *. apply Forall2_cons in H as [Hx H].
  f_equal; [unfold within in Hx; lia|by apply IH].
Qed.
Lemma value21_zeros n : value21 (replicate n 0) = 0.
Proof. induction n; simpl; [done|]. lia. Qed.

(** The limbs from [n] on are zero where the bounds say so. *)
Lemma value21_take n m B l :
  Forall2 within B l → drop n B = replicate m 1 → value21 l = value21 (take n l).
Proof.
  intros HB Hd. rewrite <-(take_drop n l) at 1.
  rewrite value21_app, (within_ones m (drop n l)), value21_zeros; [lia|].
  rewrite <-Hd. by apply Forall2_drop.
Qed.

(** The end of both functions: two passes around the last fold. *)
Definition sc_tail : list sc_op :=
  (CarryDown <$> seq 0 12) ++ Fold 12 :: (CarryDown <$> seq 0 11).
Definition tail_bounds (B : list Z) : Prop :=
  ∃ B1 B2 B3, value21 (take 12 B) < 2 ^ 252 ∧ drop 12 B = replicate 12 1 ∧
    length B3 = 24%nat ∧
    abs_run (CarryDown <$> seq 0 12) B = Some B1 ∧ drop 13 B1 = replicate 11 1 ∧
    abs_step (Fold 12) B1 = Some B2 ∧
    abs_run (CarryDown <$> seq 0 11) B2 = Some B3 ∧ drop 12 B3 = replicate 12 1.

Lemma sc_run_app ops ops' a : sc_run (ops ++ ops') a = sc_run ops a ≫= sc_run ops'.
Proof.
  revert a. induction ops as [|op ops IH]; intros a; [done|]. cbn [app sc_run].
  destruct (sc_step op a); [|done]. apply IH.
Qed.

(** After the first pass the limb beyond the digits is 0 or -1, and the fold
    of it gives the canonical representative. *)
Lemma tail_canonical B1 l1 x v :
  Forall2 within B1 l1 → drop 13 B1 = replicate 11 1 → digits 12 l1 → l1 !! 12%nat = Some x →
  - 2 ^ 252 < value21 l1 < 2 ^ 252 → v = value21 l1 + - (1 * x) * group_order →
  v = value21 l1 `mod` group_order.
Proof.
  intros HB1 D1 Hd1 Hx Hl Hv. pose proof (lookup_lt_Some _ _ _ Hx) as Hlt.
  assert (value21 l1 = value21 (take 12 l1) + 2 ^ 252 * x) as El.
  { rewrite (value21_take 13 11 B1 l1 HB1 D1), (take_S_r _ _ _ Hx), value21_app. unfold zlen.
    rewrite length_take_le by lia. change (21 * Z.of_nat 12) with 252. cbn [value21]. lia. }
  pose proof (value21_digits l1 12 ltac:(lia) Hd1) as Hlow.
  change (21 * Z.of_nat 12) with 252 in Hlow.
  apply (Z.mod_unique _ _ x); unfold group_order, order_low in *; lia.
Qed.

Lemma sc_tail_ok V B a :
  sound V B a → tail_bounds B →
  ∃ l B', sc_run sc_tail a = Some (Some <$> l) ∧ Forall2 within B' l ∧
    drop 12 B' = replicate 12 1 ∧ length l = 24%nat ∧ digits 11 l ∧
    value21 l = V `mod` group_order.
Proof.
  intros (l & -> & HB & Hv) (B1 & B2 & B3 & HB24 & D0 & Hlen & E1 & D1 & E2 & E3 & D3).
  unfold sc_tail. rewrite sc_run_app. 
  pose proof (value21_bound _ _ (Forall2_take _ _ _ 12 HB)) as Hl.
  rewrite <-(value21_take 12 12 B l HB D0) in Hl.
  destruct (abs_downs_sound 12 B B1 l 0 HB) as (l1 & -> & HB1 & Hv1 & Hd1);
    [intros ???; lia|done|].
  cbn [mbind option_bind sc_run sc_step].
  destruct (abs_fold_sound B1 B2 l1 12 HB1 E2) as (l2 & -> & HB2 & x & Hx & Hv2).
  cbn [mbind option_bind].
  destruct (abs_downs_sound 11 B2 B3 l2 0 HB2) as (l3 & Hr3 & HB3 & Hv3 & Hd3);
    [intros ???; lia|done|].
  exists l3, B3. split_and!; [done..|by rewrite <-(Forall2_length _ _ _ HB3)|done|].
  rewrite <-Hv, <-Hv1, Hv3. eapply tail_canonical; [done..|lia|exact Hv2].
Qed.

(** * Storing *)

Lemma u8_field x n : 0 <= n → u8 <$> (Some x >>ᵢ n) = Some ((x `div` 2 ^ n) `mod` 2 ^ 8).
Proof. intros Hn. rewrite ishr_div by done. done. Qed.

(** A byte that holds the top of one limb and the bottom of the next. *)
Lemma u8_join x y n m :
  0 <= n → 0 < m < 8 → 0 <= x `div` 2 ^ n < 2 ^ m → within (2 ^ 54) y →
  u8 <$> ((Some x >>ᵢ n) |ᵢ (Some y <<ₗ m)) =
    Some (x `div` 2 ^ n + 2 ^ m * (y `mod` 2 ^ (8 - m))).
Proof.
  intros Hn Hm Hx Hy. rewrite ishr_div by done. unfold ior, ishl.
  cbn [mbind option_bind fmap option_fmap option_map]. rewrite Z.shiftl_mul_pow2 by lia.
  assert (2 ^ m <= 2 ^ 7) by (apply Z.pow_le_mono_r; lia).
  rewrite wrap_small by (unfold within in *; cbn [half]; nia).
  rewrite lor_add by (done || lia). f_equal. unfold u8.
  change (2 ^ 8) with 256. assert (256 = 2 ^ m * 2 ^ (8 - m)) as ->
    by (rewrite <-Z.pow_add_r by lia; by replace (m + (8 - m)) with 8 by lia).
  pose proof (Z.pow_pos_nonneg 2 (8 - m)). rewrite Z.rem_mul_r by lia.
  rewrite Z_mod_plus_full, Z.mod_small by done.
  rewrite Z.div_add, (Z.div_small (x `div` 2 ^ n)) by lia. by rewrite Z.add_0_l.
Qed.

Lemma join_byte x y n m :
  0 < m < 8 → 0 <= x `div` 2 ^ n < 2 ^ m → is_byte (x `div` 2 ^ n + 2 ^ m * (y `mod` 2 ^ (8 - m))).
Proof.
  intros Hm Hx. unfold is_byte.
  assert (256 = 2 ^ m * 2 ^ (8 - m)) as ->
    by (rewrite <-Z.pow_add_r by lia; by replace (m + (8 - m)) with 8 by lia).
  pose proof (Z.mod_pos_bound y (2 ^ (8 - m)) ltac:(apply Z.pow_pos_nonneg; lia)). nia.
Qed.

Lemma div_range x n m k : 0 <= n → 0 <= m → k = n + m → 0 <= x < 2 ^ k → 0 <= x `div` 2 ^ n < 2 ^ m.
Proof.
  intros Hn Hm -> Hx. rewrite Z.pow_add_r in Hx by done. pose proof (Z.pow_pos_nonneg 2 n).
  split; [apply Z.div_pos; lia|apply Z.div_lt_upper_bound; lia].
Qed.

(** The ranges of the first [n] limbs of an explicit list. *)
Ltac digit_ranges Hd n :=
  lazymatch n with
  | S ?n => pose proof (Hd n _ ltac:(lia) eq_refl); digit_ranges Hd n
  | O => idtac
  end.

(** Canonical limbs are written as the bytes of their value. *)
Lemma sc_store_ok l B :
  Forall2 within B l → drop 12 B = replicate 12 1 → length l = 24%nat → digits 11 l →
  0 <= value21 l < 2 ^ 253 →
  sc_store (Some <$> l) = Some (le_bytes 32 (value21 l)).
Proof.
  intros HB HD Hl Hd HV. rewrite (value21_take 12 12 B l HB HD) in *.
  destruct l as [|x0 [|x1 [|x2 [|x3 [|x4 [|x5 [|x6 [|x7 [|x8 [|x9 [|x10 [|x11 l]]]]]]]]]]]];
    try discriminate Hl.
  cbn [take] in *. rewrite take_0 in *. clear HB HD Hl B.
  digit_ranges Hd 11%nat. clear Hd.
  assert (0 <= x11 < 2 ^ 22) by (cbn [value21] in HV; lia).
  unfold sc_store. cbn [fmap list_fmap]. unfold rd. cbn [lookup list_lookup mjoin option_join].
  eapply eq_trans.
  { apply mapM_Some_2. repeat (apply Forall2_cons_2; [cbv beta;
      lazymatch goal with
      | |- u8 <$> (_ |ᵢ _) = _ => apply u8_join; [done|done|eapply (div_range _ _ _ 21); done|unfold within; lia]
      | |- _ => by apply u8_field
      end|]). apply Forall2_nil_2. }
  f_equal.
  lazymatch goal with |- ?bs = _ => rewrite <-(le_bytes_value bs) at 1; [cbn [length]; f_equal|] end.
  - set (V := value21 _). cbn [le_value]. 
    bit_fields x0 0 [8;8]. bit_fields x1 0 [3;8;8]. bit_fields x2 0 [6;8]. bit_fields x3 0 [1;8;8].
    bit_fields x4 0 [4;8;8]. bit_fields x5 0 [7;8]. bit_fields x6 0 [2;8;8]. bit_fields x7 0 [5;8;8].
    bit_fields x8 0 [8;8]. bit_fields x9 0 [3;8;8]. bit_fields x10 0 [6;8]. bit_fields x11 0 [1;8;8;8].
    pose proof (Z.div_small x7 (2 ^ 21) ltac:(lia)). pose proof (Z.div_small x11 (2 ^ 25) ltac:(lia)).
    change (2 ^ 0) with 1 in *. rewrite !Z.div_1_r in *.
    repeat match goal with |- context [2 ^ (8 - ?m)] =>
      let e := eval vm_compute in (8 - m) in change (8 - m) with e end.
    repeat match goal with |- context [(?a `mod` ?b)] => generalize dependent (a `mod` b); intros end.
    repeat match goal with H : context [(?a `div` ?b)] |- _ => generalize dependent (a `div` b); intros end.
    subst V. cbn [value21] in *. clear HV. lia.
  - repeat (apply Forall_cons_2;
      [first [apply join_byte; [done|by apply (div_range _ _ _ 21)]|by apply Z.mod_pos_bound]|]).
    apply Forall_nil_2.
Qed.

(** * Loading *)

Section Loads.
Context (s : bytes) (Hs : wf_bytes s).

Lemma load_byte off : (off < length s)%nat →
  ∃ b, s !! off = Some b ∧ 0 <= b < 256 ∧
    le_value (drop off s) = b + 2 ^ 8 * le_value (drop (off + 1) s).
Proof.
  intros Hoff. destruct (lookup_lt_is_Some_2 s off Hoff) as [b E]. exists b.
  split; [done|]. split; [by apply (Forall_lookup_1 _ _ _ _ Hs E)|].
  by rewrite (drop_S _ _ _ E), Nat.add_1_r.
Qed.

(** The number from a byte on, cut to [n] bits. *)
Lemma load_value off v r n : (off <= length s)%nat → 0 <= n → 0 <= v < 2 ^ n →
  le_value (drop off s) = v + 2 ^ n * r →
  v = (le_value s `div` 2 ^ (8 * Z.of_nat off)) `mod` 2 ^ n.
Proof.
  intros Hoff Hn Hv E. rewrite Z.pow_mul_r by lia. change (2 ^ 8) with 256.
  rewrite le_value_drop, E by done. rewrite (Z.mul_comm (2 ^ n)), Z_mod_plus_full.
  by rewrite Z.mod_small.
Qed.

Lemma usize_shift b k : 0 <= b < 256 → 0 <= k <= 24 → usize (Z.shiftl b k) = b * 2 ^ k.
Proof.
  intros Hb Hk. rewrite Z.shiftl_mul_pow2 by lia. unfold usize. apply Z.mod_small.
  assert (2 ^ k <= 2 ^ 24) by (apply Z.pow_le_mono_r; lia). pose proof (Z.pow_pos_nonneg 2 k).
  change (2 ^ 64) with 18446744073709551616. nia.
Qed.

Lemma load_3_ok off : (off + 2 < length s)%nat →
  load_3 s off = Some ((le_value s `div` 2 ^ (8 * Z.of_nat off)) `mod` 2 ^ 24).
Proof.
  intros Hoff. destruct (load_byte off) as (b0 & E0 & H0 & V0); [lia|].
  destruct (load_byte (off + 1)) as (b1 & E1 & H1 & V1); [lia|].
  destruct (load_byte (off + 2)) as (b2 & E2 & H2 & V2); [lia|].
  unfold load_3. rewrite E0, E1, E2. cbn [mbind option_bind]. f_equal.
  rewrite !usize_shift by (done || lia). rewrite (lor_add b0), (lor_add (_ + _)) by lia.
  apply (load_value off _ (le_value (drop (off + 2 + 1) s))); [lia..|].
  rewrite V0, V1. replace (off + 1 + 1)%nat with (off + 2)%nat by lia. rewrite V2. ring.
Qed.
Lemma load_4_ok off : (off + 3 < length s)%nat →
  load_4 s off = Some ((le_value s `div` 2 ^ (8 * Z.of_nat off)) `mod` 2 ^ 32).
Proof.
  intros Hoff. destruct (load_byte off) as (b0 & E0 & H0 & V0); [lia|].
  destruct (load_byte (off + 1)) as (b1 & E1 & H1 & V1); [lia|].
  destruct (load_byte (off + 2)) as (b2 & E2 & H2 & V2); [lia|].
  destruct (load_byte (off + 3)) as (b3 & E3 & H3 & V3); [lia|].
  unfold load_4. rewrite E0, E1, E2, E3. cbn [mbind option_bind]. f_equal.
  rewrite !usize_shift by (done || lia).
  rewrite (lor_add b0), (lor_add (_ + _)), (lor_add (_ + _ + _)) by lia.
  apply (load_value off _ (le_value (drop (off + 3 + 1) s))); [lia..|].
  rewrite V0, V1. replace (off + 1 + 1)%nat with (off + 2)%nat by lia. rewrite V2.
  replace (off + 2 + 1)%nat with (off + 3)%nat by lia. rewrite V3. ring.
Qed.

(** A limb is a bit field of the number. *)
Lemma field_of_field v a k w n : 0 <= a → 0 <= k → 0 <= w → k + w <= n →
  (((v `div` 2 ^ a) `mod` 2 ^ n) `div` 2 ^ k) `mod` 2 ^ w = (v `div` 2 ^ (a + k)) `mod` 2 ^ w.
Proof.
  intros Ha Hk Hw Hn. rewrite Z.pow_add_r, <-Z.div_div by lia. set (u := v `div` 2 ^ a).
  rewrite (Z_div_mod_eq_full u (2 ^ n)) at 2.
  replace (2 ^ n) with (2 ^ (n - k - w) * 2 ^ w * 2 ^ k) at 2
    by (rewrite <-!Z.pow_add_r by lia; f_equal; lia).
  rewrite (Z.add_comm _ (u `mod` 2 ^ n)).
  replace (2 ^ (n - k - w) * 2 ^ w * 2 ^ k * (u `div` 2 ^ n))
    with ((2 ^ (n - k - w) * (u `div` 2 ^ n) * 2 ^ w) * 2 ^ k) by ring.
  by rewrite Z.div_add, Z_mod_plus_full by lia.
Qed.

Lemma limb_4 off k : (off + 3 < length s)%nat → 0 <= k <= 11 →
  (Some 2097151 &ᵢ (load_4 s off >>ᵢ k)) =
    Some ((le_value s `div` 2 ^ (8 * Z.of_nat off + k)) `mod` 2 ^ 21).
Proof.
  intros Hoff Hk. rewrite load_4_ok by done. unfold iand, ishr. cbn [mbind option_bind].
  change 2097151 with (Z.ones 21). rewrite Z.land_comm, Z.land_ones, Z.shiftr_div_pow2 by lia.
  by rewrite field_of_field by lia.
Qed.
Lemma limb_3 off k : (off + 2 < length s)%nat → 0 <= k <= 3 →
  (Some 2097151 &ᵢ (load_3 s off >>ᵢ k)) =
    Some ((le_value s `div` 2 ^ (8 * Z.of_nat off + k)) `mod` 2 ^ 21).
Proof.
  intros Hoff Hk. rewrite load_3_ok by done. unfold iand, ishr. cbn [mbind option_bind].
  change 2097151 with (Z.ones 21). rewrite Z.land_comm, Z.land_ones, Z.shiftr_div_pow2 by lia.
  by rewrite field_of_field by lia.
Qed.
Lemma limb_3_whole off : (off + 2 < length s)%nat →
  (Some 2097151 &ᵢ load_3 s off) = Some ((le_value s `div` 2 ^ (8 * Z.of_nat off)) `mod` 2 ^ 21).
Proof.
  intros Hoff. pose proof (limb_3 off 0 Hoff ltac:(lia)) as H. rewrite Z.add_0_r in H.
  rewrite <-H, load_3_ok by done. done.
Qed.
Lemma limb_last off k : length s = (off + 4)%nat → 0 <= k <= 11 →
  (load_4 s off >>ᵢ k) = Some (le_value s `div` 2 ^ (8 * Z.of_nat off + k)).
Proof.
  intros Hoff Hk. rewrite load_4_ok by lia. unfold ishr. cbn [mbind option_bind].
  pose proof (le_value_range s Hs) as Hr. unfold zlen in Hr. rewrite Hoff in Hr.
  rewrite Z.shiftr_div_pow2 by lia. rewrite Z.mod_small.
  - by rewrite Z.div_div, <-Z.pow_add_r by lia.
  - apply (div_range _ _ _ (8 * Z.of_nat off + 32)); [lia..|].
    change 256 with (2 ^ 8) in Hr. rewrite <-Z.pow_mul_r in Hr by lia.
    by replace (8 * Z.of_nat off + 32) with (8 * Z.of_nat (off + 4)) by lia.
Qed.
End Loads.

(** * [sc_reduce] *)

(** The instructions before the first pass. *)
Definition sc_prefix : list sc_op := take 36 sc_reduce_ops.
Lemma sc_reduce_split : sc_reduce_ops = sc_prefix ++ sc_tail.
Proof. reflexivity. Qed.

Definition reduce_start : list Z := replicate 23 (2 ^ 21) ++ [2 ^ 29].
Definition muladd_start : list Z := replicate 11 (2 ^ 46) ++ replicate 11 (2 ^ 48) ++ [2 ^ 50; 1].

(** The analysis of a list of instructions and of the end that follows it. *)
Definition bounds_after (ops : list sc_op) (B : list Z) : list Z := default [] (abs_run ops B).
Ltac analyse B :=
  exists (bounds_after (CarryDown <$> seq 0 12) B),
    (bounds_after ((CarryDown <$> seq 0 12) ++ [Fold 12]) B), (bounds_after sc_tail B);
  split_and!; vm_compute; reflexivity.

Lemma reduce_prefix_bounds :
  abs_run sc_prefix reduce_start = Some (bounds_after sc_prefix reduce_start).
Proof. vm_compute. reflexivity. Qed.
Lemma reduce_tail_bounds : tail_bounds (bounds_after sc_prefix reduce_start).
Proof. analyse (bounds_after sc_prefix reduce_start). Qed.
Lemma muladd_prefix_bounds :
  abs_run (sc_muladd_carries ++ sc_prefix) muladd_start =
    Some (bounds_after (sc_muladd_carries ++ sc_prefix) muladd_start).
Proof. vm_compute. reflexivity. Qed.
Lemma muladd_tail_bounds :
  tail_bounds (bounds_after (sc_muladd_carries ++ sc_prefix) muladd_start).
Proof. analyse (bounds_after (sc_muladd_carries ++ sc_prefix) muladd_start). Qed.

(** Instructions that the analysis accepts, followed by the end and the store,
    write the value modulo the order. *)
Lemma reduce_from V ops B B' a :
  sound V B a → abs_run ops B = Some B' → tail_bounds B' →
  (a ← sc_run (ops ++ sc_tail) a; sc_store a) = Some (le_bytes 32 (V `mod` group_order)).
Proof.
  intros Ha HB' Ht. rewrite sc_run_app.
  destruct (abs_run_sound V ops B B' a Ha HB') as (a1 & -> & Ha1). cbn [mbind option_bind].
  destruct (sc_tail_ok V B' a1 Ha1 Ht) as (l & B3 & -> & HB3 & D3 & Hl & Hd & Ev).
  cbn [mbind option_bind]. rewrite <-Ev. eapply sc_store_ok; [done..|].
  rewrite Ev. pose proof (Z.mod_pos_bound V group_order ltac:(done)).
  unfold group_order, order_low in *. lia.
Qed.

Lemma sound_intro V B l :
  Forall2 within B l → value21 l = V → sound V B (Some <$> l).
Proof. intros HB <-. by exists l. Qed.

(** Name the fields that make up a number, then add them up. *)
Ltac sum_fields V :=
  change (2 ^ 0) with 1 in *; rewrite !Z.div_1_r in *;
  repeat match goal with |- context [(?a `mod` ?b)] => generalize dependent (a `mod` b); intros end;
  repeat match goal with H : context [(?a `div` ?b)] |- _ =>
    generalize dependent (a `div` b); intros end;
  cbn [value21] in *; lia.
Ltac fold_offsets :=
  repeat match goal with |- context [8 * Z.of_nat ?n] =>
    let e := eval vm_compute in (8 * Z.of_nat n) in change (8 * Z.of_nat n) with e end;
  repeat match goal with |- context [2 ^ (?a + ?k)] =>
    let e := eval vm_compute in (a + k) in change (a + k) with e end.

Lemma sc_reduce_run s :
  wf_bytes s → length s = 64%nat →
  sc_reduce s = Some (le_bytes 32 (le_value s `mod` group_order)).
Proof.
  intros Hs Hlen. unfold sc_reduce. cbv zeta.
  rewrite !(limb_4 s Hs), !(limb_3 s Hs), !(limb_3_whole s Hs), (limb_last s Hs 60 3) by lia.
  lazymatch goal with |- (l ← sc_run _ ?a; _) = _ =>
    let t := values a in change a with (Some <$> t) end.
  rewrite sc_reduce_split. fold_offsets.
  eapply reduce_from; [|exact reduce_prefix_bounds|exact reduce_tail_bounds].
  apply sound_intro.
  - unfold reduce_start. cbn [replicate app].
    repeat (apply Forall2_cons_2; [by apply within_mod|]).
    apply Forall2_cons_2; [|apply Forall2_nil_2].
    pose proof (le_value_range s Hs) as Hr. unfold zlen in Hr. rewrite Hlen in Hr.
    pose proof (div_range (le_value s) 483 29 512 ltac:(done) ltac:(done) eq_refl Hr).
    unfold within. lia.
  - set (V := le_value s).
    bit_fields V 0 [21; 21; 21; 21; 21; 21; 21; 21; 21; 21; 21; 21; 21; 21; 21; 21; 21; 21; 21; 21; 21; 21; 21].
    sum_fields V.
Qed.

(** * [sc_muladd] *)

(** The limbs of an operand: eleven of 21 bits, the last of 25. *)
Definition operand_bounds : list Z := replicate 11 (2 ^ 21) ++ [2 ^ 25].

Lemma sc_limbs_ok a : wf_bytes a → length a = 32%nat →
  ∃ x, sc_limbs a = Some <$> x ∧ Forall2 within operand_bounds x ∧ value21 x = le_value a.
Proof.
  intros Ha Hlen. unfold sc_limbs.
  rewrite !(limb_4 a Ha), !(limb_3 a Ha), !(limb_3_whole a Ha), (limb_last a Ha 28 7) by lia.
  fold_offsets.
  lazymatch goal with |- ∃ x, ?l = _ ∧ _ => let t := values l in exists t end. split; [done|].
  split.
  - unfold operand_bounds. cbn [replicate app].
    repeat (apply Forall2_cons_2; [by apply within_mod|]).
    apply Forall2_cons_2; [|apply Forall2_nil_2].
    pose proof (le_value_range a Ha) as Hr. unfold zlen in Hr. rewrite Hlen in Hr.
    pose proof (div_range (le_value a) 231 25 256 ltac:(done) ltac:(done) eq_refl Hr).
    unfold within. lia.
  - set (V := le_value a).
    bit_fields V 0 [21; 21; 21; 21; 21; 21; 21; 21; 21; 21; 21]. sum_fields V.
Qed.

Lemma ranged_weaken e v A B : ranged e v A → A <= B → ranged e v B.
Proof. intros [-> H] HB. split; [done|]. by eapply within_weaken. Qed.
Lemma sound_ranged V B es l : Forall3 ranged es l B → value21 l = V → sound V B es.
Proof.
  intros H E. enough (es = Some <$> l ∧ Forall2 within B l) as [-> HB] by by apply sound_intro.
  clear E. induction H as [|e v b es l B [-> Hv] _ [-> IH]]; [done|]. split; [done|].
  by apply Forall2_cons_2.
Qed.

Ltac twelve x H :=
  unfold operand_bounds in H; cbn [replicate app] in H;
  do 12 (apply Forall2_cons_inv_l in H as (?x & ? & ?W & H & ->));
  apply Forall2_nil_inv_l in H as ->.

Lemma sc_product_ok x y z :
  Forall2 within operand_bounds x → Forall2 within operand_bounds y →
  Forall2 within operand_bounds z →
  sound (value21 x * value21 y + value21 z) muladd_start
    (sc_product (Some <$> x) (Some <$> y) (Some <$> z)).
Proof.
  intros Hx Hy Hz. twelve x Hx. twelve y Hy. twelve z Hz. unfold sc_product.
  eapply sound_ranged.
  - unfold muladd_start. cbn [replicate app].
    do 23 (apply Forall3_cons; [eapply ranged_weaken; [rng|by vm_compute]|]).
    apply Forall3_cons; [|apply Forall3_nil]. by apply ranged_some.
  - cbn [value21]. ring.
Qed.

Lemma sc_muladd_run a b c :
  wf_bytes a → length a = 32%nat → wf_bytes b → length b = 32%nat →
  wf_bytes c → length c = 32%nat →
  sc_muladd a b c = Some (le_bytes 32 ((le_value a * le_value b + le_value c) `mod` group_order)).
Proof.
  intros Ha La Hb Lb Hc Lc.
  destruct (sc_limbs_ok a Ha La) as (x & Ex & Bx & <-).
  destruct (sc_limbs_ok b Hb Lb) as (y & Ey & By & <-).
  destruct (sc_limbs_ok c Hc Lc) as (z & Ez & Bz & <-).
  unfold sc_muladd. rewrite Ex, Ey, Ez, sc_reduce_split, app_assoc.
  eapply reduce_from; [by apply sc_product_ok|exact muladd_prefix_bounds|exact muladd_tail_bounds].
Qed.

(** * additions/ *)

Lemma bytes32_ok e x y : length x = 32%nat → length y = 32%nat →
  bytes32 e x y = Some (zip_with e x y).
Proof.
  intros Hx Hy. unfold bytes32. apply mapM_Some_2. apply Forall2_same_length_lookup_2.
  { rewrite length_seq, length_zip_with. lia. }
  intros i n z Hn Hz. apply lookup_seq in Hn as [-> _]. rewrite lookup_zip_with in Hz. cbn [Nat.add].
  destruct (x !! i) as [a|]; [|done]. destruct (y !! i) as [b|]; [|done]. exact Hz.
Qed.

(** The accumulated difference is zero exactly when the bytes agree. *)
Lemma foldl_lor d c : wf_bytes d → is_byte c →
  is_byte (foldl Z.lor c d) ∧ (foldl Z.lor c d = 0 ↔ c = 0 ∧ Forall (λ b, b = 0) d).
Proof.
  revert c. induction d as [|b d IH]; intros c Hd Hc; cbn [foldl].
  { split; [done|]. split; [done|by intros [? _]]. }
  apply Forall_cons in Hd as [Hb Hd]. destruct (IH (Z.lor c b) Hd) as [IH1 IH2].
  { by apply lor_byte. }
  split; [done|]. rewrite IH2, Z.lor_eq_0_iff, Forall_cons. tauto.
Qed.
Lemma zip_lxor_zero x y : length x = length y →
  Forall (λ b, b = 0) (zip_with Z.lxor x y) ↔ x = y.
Proof.
  revert y. induction x as [|a x IH]; intros [|b y] Hl; try done.
  cbn [zip_with]. rewrite Forall_cons, IH, Z.lxor_eq_0_iff by (simpl in Hl; lia).
  split; [by intros [-> ->]|by intros [= -> ->]].
Qed.

Lemma wf_zip_lxor x y : wf_bytes x → wf_bytes y → wf_bytes (zip_with Z.lxor x y).
Proof.
  intros Hx. revert y. induction Hx as [|a x Ha Hx IH]; intros [|b y] Hy;
    cbn [zip_with]; try apply Forall_nil_2.
  apply Forall_cons in Hy as [Hb Hy]. apply Forall_cons_2; [by apply lxor_byte|by apply IH].
Qed.

Lemma crypto_verify_32_ok x y :
  wf_bytes x → length x = 32%nat → wf_bytes y → length y = 32%nat →
  crypto_verify_32_ref x y = Some (if bool_decide (x = y) then 0 else -1).
Proof.
  intros Hx Lx Hy Ly. unfold crypto_verify_32_ref. rewrite bytes32_ok by done.
  cbn [mbind option_bind]. f_equal.
  destruct (foldl_lor (zip_with Z.lxor x y) 0) as [Hd Hz]; [by apply wf_zip_lxor|done|].
  rewrite zip_lxor_zero in Hz by congruence. set (d := foldl Z.lor 0 _) in *. unfold is_byte in Hd.
  rewrite Z.shiftr_div_pow2 by done. unfold u32. case_bool_decide as E.
  - by rewrite (proj2 Hz).
  - assert (d ≠ 0) by tauto.
    rewrite (Z.mod_small (d - 1)), Z.div_small; [done|change (2 ^ 8) with 256; lia|].
    change (2 ^ 32) with 4294967296. lia.
Qed.

Lemma lminus1_value : le_value lminus1 = group_order - 1.
Proof. reflexivity. Qed.
Lemma wf_lminus1 : wf_bytes lminus1.
Proof. concrete_bytes. Qed.
Lemma le_value_zeros n : le_value (replicate n 0) = 0.
Proof. induction n as [|n IH]; [done|]. cbn [replicate le_value]. lia. Qed.
Lemma wf_zeros n : wf_bytes (replicate n 0).
Proof. by apply Forall_replicate. Qed.

Lemma sc_neg_run a : wf_bytes a → length a = 32%nat →
  sc_neg a = Some (le_bytes 32 ((- le_value a) `mod` group_order)).
Proof.
  intros Ha La. unfold sc_neg.
  rewrite sc_muladd_run; [|exact wf_lminus1|done|done|done|apply wf_zeros|done].
  rewrite lminus1_value, le_value_zeros. do 2 f_equal.
  replace ((group_order - 1) * le_value a + 0)
    with (- le_value a + le_value a * group_order) by ring.
  by rewrite Z_mod_plus_full.
Qed.

(** The conditional move chooses without a branch. *)
Lemma sc_cmov_run f g b :
  wf_bytes f → length f = 32%nat → wf_bytes g → length g = 32%nat → b = 0 ∨ b = 1 →
  sc_cmov f g b = Some (if decide (b = 1) then g else f).
Proof.
  intros Hf Lf Hg Lg Hb. unfold sc_cmov. rewrite bytes32_ok by done. cbn [mbind option_bind].
  rewrite bytes32_ok by (rewrite ?length_zip_with; lia). f_equal.
  apply list_eq. intros i. rewrite !lookup_zip_with.
  destruct (f !! i) as [x|] eqn:Ex, (g !! i) as [y|] eqn:Ey; cycle 1.
  1,2: apply lookup_lt_Some in Ex || apply lookup_lt_Some in Ey;
    apply lookup_ge_None in Ey || apply lookup_ge_None in Ex; lia.
  { cbn. destruct (decide _); by rewrite ?Ex, ?Ey. }
  pose proof (Forall_lookup_1 _ _ _ _ Hf Ex) as Hx. pose proof (Forall_lookup_1 _ _ _ _ Hg Ey) as Hy.
  cbn [mbind option_bind]. destruct Hb as [-> | ->].
  - change (u8 (- 0)) with 0. rewrite Z.land_0_r, Z.lxor_0_r.
    destruct (decide (0 = 1)); [done|]. by rewrite Ex.
  - change (u8 (- (1))) with (Z.ones 8). rewrite Z.land_ones by done.
    rewrite Z.mod_small by (by apply lxor_byte).
    rewrite <-Z.lxor_assoc, Z.lxor_nilpotent, Z.lxor_0_l.
    destruct (decide (1 = 1)); [|done]. by rewrite Ey.
Qed.

(** [sc_isreduced] accepts exactly the canonical scalars. *)
Lemma sc_isreduced_run s : wf_bytes s → length s = 32%nat →
  sc_isreduced s = Some (bool_decide (le_value s < group_order)).
Proof.
  intros Hs Ls. unfold sc_isreduced. rewrite Ls. change (32 <=? 32)%nat with true. cbv iota.
  rewrite take_ge by lia.
  rewrite sc_reduce_run by (rewrite ?length_app, ?Ls; done || apply Forall_app_2; done || apply wf_zeros).
  cbn [mbind option_bind].
  rewrite crypto_verify_32_ok by (done || apply wf_le_bytes || apply length_le_bytes).
  cbn [mbind option_bind]. f_equal.
  rewrite le_value_app, le_value_zeros, Z.mul_0_r, Z.add_0_r.
  pose proof (le_value_range s Hs) as Hr. unfold zlen in Hr. rewrite Ls in Hr.
  pose proof (Z.mod_pos_bound (le_value s) group_order ltac:(done)) as Hm.
  apply bool_decide_ext. split.
  - case_bool_decide as E; [|done]. intros _. apply (f_equal le_value) in E.
    rewrite le_value_bytes, (Z.mod_small (_ `mod` _)) in E; [lia|].
    unfold group_order, order_low in *. change (256 ^ Z.of_nat 32) with (2 ^ 256). lia.
  - intros E. rewrite Z.mod_small by lia. rewrite <-Ls, le_bytes_value by done.
    by rewrite bool_decide_true.
Qed.

(** [sc_clamp] is the clamping of curve.c. *)
Lemma sc_clamp_run a : length a = 32%nat → sc_clamp a = Some (clamp a).
Proof.
  intros La. do 32 (destruct a as [|? a]; [discriminate La|]). destruct a; [|discriminate La].
  reflexivity.
Qed.

(** * The scalar functions *)

(** For 64 bytes [sc_reduce] writes, in 32 bytes, the number modulo the group
    order, and none of its signed operations overflows. *)
Theorem sc_reduce_correct (s : bytes) :
  wf_bytes s → length s = 64%nat →
  sc_reduce s = Some (le_bytes 32 (le_value s `mod` group_order)).
Proof. apply sc_reduce_run. Qed.

Lemma sc_reduce_correct_witness :
  sc_reduce (replicate 64 255) = Some (le_bytes 32 ((2 ^ 512 - 1) `mod` group_order)).
Proof.
  rewrite (sc_reduce_correct (replicate 64 255)).
  - reflexivity.
  - concrete_bytes.
  - reflexivity.
Defined.

(** C30: for numbers of 32 bytes [sc_muladd] writes [a * b + c] modulo the group
    order without overflow; [sc_neg] is the negation and [sc_isreduced] accepts
    exactly the numbers below the order. *)
Theorem sc_muladd_correct (a b c : bytes) :
  wf_bytes a → length a = 32%nat → wf_bytes b → length b = 32%nat →
  wf_bytes c → length c = 32%nat →
  sc_muladd a b c = Some (le_bytes 32 ((le_value a * le_value b + le_value c) `mod` group_order)) ∧
  sc_neg a = Some (le_bytes 32 ((- le_value a) `mod` group_order)) ∧
  sc_isreduced a = Some (bool_decide (le_value a < group_order)).
Proof.
  intros. split; [by apply sc_muladd_run|]. split; [by apply sc_neg_run|by apply sc_isreduced_run].
Qed.

Lemma sc_muladd_correct_witness :
  sc_muladd (replicate 32 255) lminus1 (replicate 32 7) =
    Some (le_bytes 32 (((2 ^ 256 - 1) * (group_order - 1) + le_value (replicate 32 7))
      `mod` group_order)).
Proof.
  destruct (sc_muladd_correct (replicate 32 255) lminus1 (replicate 32 7)) as [H _];
    [concrete_bytes|reflexivity|concrete_bytes|reflexivity|concrete_bytes|reflexivity|].
  rewrite H. reflexivity.
Defined.
