(* ===== verification/Fe.v ===== *)
(** The field of Ed25519: the fe_*.c files of curve25519/ed25519 and its additions/.

    A field element is ten limbs of type [crypto_int32], of 26 and 25 bits in
    turn; the functions are straight-line code on machine integers, so each is
    the list of the expressions it assigns.  Elements are always written before
    they are read, hence [fe] is a list of integers; [None] is an overflow of a
    signed operation, a read outside an array or a failed assertion. *)

From S2P Require Import Prelude Limbs Donna Scalar.
Local Open Scope limb_scope.
Local Notation "# n" := (Some n%Z) (at level 8, format "# n") : limb_scope.

Module Fe.
Import Donna.

Abbreviation fe := (list Z).

(** Limb by limb. *)
Definition map10 (e : option Z → option Z) (f : fe) : option fe :=
  mapM (λ i, e (f !! i)) (seq 0 10).
Definition zip10 (e : option Z → option Z → option Z) (f g : fe) : option fe :=
  mapM (λ i, e (f !! i) (g !! i)) (seq 0 10).

Definition fe_0 : fe := [0; 0; 0; 0; 0; 0; 0; 0; 0; 0].
Definition fe_1 : fe := [1; 0; 0; 0; 0; 0; 0; 0; 0; 0].
Definition fe_copy (f : fe) : option fe := map10 id f.
Definition fe_add (f g : fe) : option fe := zip10 (λ x y, x +ᵢ y) f g.
Definition fe_sub (f g : fe) : option fe := zip10 (λ x y, x -ᵢ y) f g.
Definition fe_neg (f : fe) : option fe := map10 (ineg W32) f.

(** [b] is an [unsigned int]; the mask is applied to unsigned values and the
    result converted back. *)
Definition fe_cmov (f g : fe) (b : Z) : option fe :=
  let b := u32 (- b) in
  zip10 (λ f g, f ^ᵢ cast W32 (Some b &ᵢ (x ← f ^ᵢ g; Some (u32 x)))) f g.

(** [carry_i = (h_i + (1 << (n - 1))) >> n; h_{i+1} += carry_i; h_i -= carry_i << n],
    the carry of the last limb going to the first, times 19. *)
Definition fe_carry (i : nat) (h : arr) : option arr :=
  let n := limb_bits i in
  let carry := (rd h i +ₗ #(Z.shiftl 1 (n - 1))) >>ᵢ n in
  h ← (if (i =? 9)%nat then wr h 0 (rd h 0 +ₗ carry *ₗ #19)
       else wr h (i + 1) (rd h (i + 1) +ₗ carry));
  wr h i (rd h i -ₗ (carry <<ₗ n)).
Fixpoint fe_carries (idx : list nat) (h : arr) : option arr :=
  match idx with [] => Some h | i :: idx => h ← fe_carry i h; fe_carries idx h end.
(** [h[0] = h0; ...; h[9] = h9;] *)
Definition fe_store (h : arr) : option fe := mapM (λ i, cast W32 (rd h i)) (seq 0 10).

(** The carries that end [fe_mul], [fe_sq] and [fe_sq2]. *)
Definition mul_carries : list nat := [0; 4; 1; 5; 2; 6; 3; 7; 4; 8; 9; 0]%nat.

Definition fe_product (f g : fe) : arr :=
  let f0 := f !! 0%nat in let f1 := f !! 1%nat in let f2 := f !! 2%nat in
  let f3 := f !! 3%nat in let f4 := f !! 4%nat in
  let f5 := f !! 5%nat in let f6 := f !! 6%nat in let f7 := f !! 7%nat in
  let f8 := f !! 8%nat in let f9 := f !! 9%nat in
  let g0 := g !! 0%nat in let g1 := g !! 1%nat in let g2 := g !! 2%nat in
  let g3 := g !! 3%nat in let g4 := g !! 4%nat in
  let g5 := g !! 5%nat in let g6 := g !! 6%nat in let g7 := g !! 7%nat in
  let g8 := g !! 8%nat in let g9 := g !! 9%nat in
  let g1_19 := #19 *ᵢ g1 in let g2_19 := #19 *ᵢ g2 in let g3_19 := #19 *ᵢ g3 in
  let g4_19 := #19 *ᵢ g4 in let g5_19 := #19 *ᵢ g5 in let g6_19 := #19 *ᵢ g6 in
  let g7_19 := #19 *ᵢ g7 in let g8_19 := #19 *ᵢ g8 in let g9_19 := #19 *ᵢ g9 in
  let f1_2 := #2 *ᵢ f1 in let f3_2 := #2 *ᵢ f3 in let f5_2 := #2 *ᵢ f5 in
  let f7_2 := #2 *ᵢ f7 in let f9_2 := #2 *ᵢ f9 in
  [
    f0 *ₗ g0 +ₗ f1_2 *ₗ g9_19 +ₗ f2 *ₗ g8_19 +ₗ f3_2 *ₗ g7_19 +ₗ f4 *ₗ g6_19 +ₗ f5_2 *ₗ g5_19 +ₗ
      f6 *ₗ g4_19 +ₗ f7_2 *ₗ g3_19 +ₗ f8 *ₗ g2_19 +ₗ f9_2 *ₗ g1_19;
    f0 *ₗ g1 +ₗ f1 *ₗ g0 +ₗ f2 *ₗ g9_19 +ₗ f3 *ₗ g8_19 +ₗ f4 *ₗ g7_19 +ₗ f5 *ₗ g6_19 +ₗ
      f6 *ₗ g5_19 +ₗ f7 *ₗ g4_19 +ₗ f8 *ₗ g3_19 +ₗ f9 *ₗ g2_19;
    f0 *ₗ g2 +ₗ f1_2 *ₗ g1 +ₗ f2 *ₗ g0 +ₗ f3_2 *ₗ g9_19 +ₗ f4 *ₗ g8_19 +ₗ f5_2 *ₗ g7_19 +ₗ
      f6 *ₗ g6_19 +ₗ f7_2 *ₗ g5_19 +ₗ f8 *ₗ g4_19 +ₗ f9_2 *ₗ g3_19;
    f0 *ₗ g3 +ₗ f1 *ₗ g2 +ₗ f2 *ₗ g1 +ₗ f3 *ₗ g0 +ₗ f4 *ₗ g9_19 +ₗ f5 *ₗ g8_19 +ₗ f6 *ₗ g7_19 +ₗ
      f7 *ₗ g6_19 +ₗ f8 *ₗ g5_19 +ₗ f9 *ₗ g4_19;
    f0 *ₗ g4 +ₗ f1_2 *ₗ g3 +ₗ f2 *ₗ g2 +ₗ f3_2 *ₗ g1 +ₗ f4 *ₗ g0 +ₗ f5_2 *ₗ g9_19 +ₗ
      f6 *ₗ g8_19 +ₗ f7_2 *ₗ g7_19 +ₗ f8 *ₗ g6_19 +ₗ f9_2 *ₗ g5_19;
    f0 *ₗ g5 +ₗ f1 *ₗ g4 +ₗ f2 *ₗ g3 +ₗ f3 *ₗ g2 +ₗ f4 *ₗ g1 +ₗ f5 *ₗ g0 +ₗ f6 *ₗ g9_19 +ₗ
      f7 *ₗ g8_19 +ₗ f8 *ₗ g7_19 +ₗ f9 *ₗ g6_19;
    f0 *ₗ g6 +ₗ f1_2 *ₗ g5 +ₗ f2 *ₗ g4 +ₗ f3_2 *ₗ g3 +ₗ f4 *ₗ g2 +ₗ f5_2 *ₗ g1 +ₗ f6 *ₗ g0 +ₗ
      f7_2 *ₗ g9_19 +ₗ f8 *ₗ g8_19 +ₗ f9_2 *ₗ g7_19;
    f0 *ₗ g7 +ₗ f1 *ₗ g6 +ₗ f2 *ₗ g5 +ₗ f3 *ₗ g4 +ₗ f4 *ₗ g3 +ₗ f5 *ₗ g2 +ₗ f6 *ₗ g1 +ₗ
      f7 *ₗ g0 +ₗ f8 *ₗ g9_19 +ₗ f9 *ₗ g8_19;
    f0 *ₗ g8 +ₗ f1_2 *ₗ g7 +ₗ f2 *ₗ g6 +ₗ f3_2 *ₗ g5 +ₗ f4 *ₗ g4 +ₗ f5_2 *ₗ g3 +ₗ f6 *ₗ g2 +ₗ
      f7_2 *ₗ g1 +ₗ f8 *ₗ g0 +ₗ f9_2 *ₗ g9_19;
    f0 *ₗ g9 +ₗ f1 *ₗ g8 +ₗ f2 *ₗ g7 +ₗ f3 *ₗ g6 +ₗ f4 *ₗ g5 +ₗ f5 *ₗ g4 +ₗ f6 *ₗ g3 +ₗ
      f7 *ₗ g2 +ₗ f8 *ₗ g1 +ₗ f9 *ₗ g0
  ].
Definition fe_mul (f g : fe) : option fe :=
  h ← fe_carries mul_carries (fe_product f g); fe_store h.

Definition fe_square (f : fe) : arr :=
  let f0 := f !! 0%nat in let f1 := f !! 1%nat in let f2 := f !! 2%nat in
  let f3 := f !! 3%nat in let f4 := f !! 4%nat in
  let f5 := f !! 5%nat in let f6 := f !! 6%nat in let f7 := f !! 7%nat in
  let f8 := f !! 8%nat in let f9 := f !! 9%nat in
  let f0_2 := #2 *ᵢ f0 in let f1_2 := #2 *ᵢ f1 in let f2_2 := #2 *ᵢ f2 in
  let f3_2 := #2 *ᵢ f3 in let f4_2 := #2 *ᵢ f4 in let f5_2 := #2 *ᵢ f5 in
  let f6_2 := #2 *ᵢ f6 in let f7_2 := #2 *ᵢ f7 in let f5_38 := #38 *ᵢ f5 in
  let f6_19 := #19 *ᵢ f6 in let f7_38 := #38 *ᵢ f7 in let f8_19 := #19 *ᵢ f8 in
  let f9_38 := #38 *ᵢ f9 in
  [
    f0 *ₗ f0 +ₗ f1_2 *ₗ f9_38 +ₗ f2_2 *ₗ f8_19 +ₗ f3_2 *ₗ f7_38 +ₗ f4_2 *ₗ f6_19 +ₗ f5 *ₗ f5_38;
    f0_2 *ₗ f1 +ₗ f2 *ₗ f9_38 +ₗ f3_2 *ₗ f8_19 +ₗ f4 *ₗ f7_38 +ₗ f5_2 *ₗ f6_19;
    f0_2 *ₗ f2 +ₗ f1_2 *ₗ f1 +ₗ f3_2 *ₗ f9_38 +ₗ f4_2 *ₗ f8_19 +ₗ f5_2 *ₗ f7_38 +ₗ f6 *ₗ f6_19;
    f0_2 *ₗ f3 +ₗ f1_2 *ₗ f2 +ₗ f4 *ₗ f9_38 +ₗ f5_2 *ₗ f8_19 +ₗ f6 *ₗ f7_38;
    f0_2 *ₗ f4 +ₗ f1_2 *ₗ f3_2 +ₗ f2 *ₗ f2 +ₗ f5_2 *ₗ f9_38 +ₗ f6_2 *ₗ f8_19 +ₗ f7 *ₗ f7_38;
    f0_2 *ₗ f5 +ₗ f1_2 *ₗ f4 +ₗ f2_2 *ₗ f3 +ₗ f6 *ₗ f9_38 +ₗ f7_2 *ₗ f8_19;
    f0_2 *ₗ f6 +ₗ f1_2 *ₗ f5_2 +ₗ f2_2 *ₗ f4 +ₗ f3_2 *ₗ f3 +ₗ f7_2 *ₗ f9_38 +ₗ f8 *ₗ f8_19;
    f0_2 *ₗ f7 +ₗ f1_2 *ₗ f6 +ₗ f2_2 *ₗ f5 +ₗ f3_2 *ₗ f4 +ₗ f8 *ₗ f9_38;
    f0_2 *ₗ f8 +ₗ f1_2 *ₗ f7_2 +ₗ f2_2 *ₗ f6 +ₗ f3_2 *ₗ f5_2 +ₗ f4 *ₗ f4 +ₗ f9 *ₗ f9_38;
    f0_2 *ₗ f9 +ₗ f1_2 *ₗ f8 +ₗ f2_2 *ₗ f7 +ₗ f3_2 *ₗ f6 +ₗ f4_2 *ₗ f5
  ].
Definition fe_sq (f : fe) : option fe :=
  h ← fe_carries mul_carries (fe_square f); fe_store h.
Definition fe_sq2 (f : fe) : option fe :=
  h ← fe_carries mul_carries ((λ h, h +ₗ h) <$> fe_square f); fe_store h.

(** [crypto_uint64] shifts of what was loaded; the top bit of the input is
    ignored. *)
Definition fe_frombytes (s : bytes) : option fe :=
  let shl e n := x ← e; Some (wrap W64 (usize (Z.shiftl x n))) in
  let h : arr := [
    load_4 s 0;
    shl (load_3 s 4) 6;
    shl (load_3 s 7) 5;
    shl (load_3 s 10) 3;
    shl (load_3 s 13) 2;
    load_4 s 16;
    shl (load_3 s 20) 7;
    shl (load_3 s 23) 5;
    shl (load_3 s 26) 4;
    shl (load_3 s 29 &ᵢ #8388607) 2
  ] in
  h ← fe_carries [9; 1; 3; 5; 7; 0; 2; 4; 6; 8]%nat h; fe_store h.

(** [q = (h_i + q) >> n] for the limbs in turn. *)
Fixpoint quotient (idx : list nat) (h : arr) (q : option Z) : option Z :=
  match idx with [] => q | i :: idx => quotient idx h ((rd h i +ᵢ q) >>ᵢ limb_bits i) end.
(** [carry_i = h_i >> n; h_{i+1} += carry_i; h_i -= carry_i << n]; the last limb
    has no neighbour. *)
Definition carry_down (i : nat) (h : arr) : option arr :=
  let carry := rd h i >>ᵢ limb_bits i in
  h ← (if (i =? 9)%nat then Some h else wr h (i + 1) (rd h (i + 1) +ᵢ carry));
  wr h i (rd h i -ᵢ (carry <<ᵢ limb_bits i)).
Fixpoint carries_down (idx : list nat) (h : arr) : option arr :=
  match idx with [] => Some h | i :: idx => h ← carry_down i h; carries_down idx h end.
Definition fe_bytes (h : arr) : option bytes :=
  mapM (λ e, u8 <$> e) [
    rd h 0 >>ᵢ 0;
    rd h 0 >>ᵢ 8;
    rd h 0 >>ᵢ 16;
    (rd h 0 >>ᵢ 24) |ᵢ (rd h 1 <<ᵢ 2);
    rd h 1 >>ᵢ 6;
    rd h 1 >>ᵢ 14;
    (rd h 1 >>ᵢ 22) |ᵢ (rd h 2 <<ᵢ 3);
    rd h 2 >>ᵢ 5;
    rd h 2 >>ᵢ 13;
    (rd h 2 >>ᵢ 21) |ᵢ (rd h 3 <<ᵢ 5);
    rd h 3 >>ᵢ 3;
    rd h 3 >>ᵢ 11;
    (rd h 3 >>ᵢ 19) |ᵢ (rd h 4 <<ᵢ 6);
    rd h 4 >>ᵢ 2;
    rd h 4 >>ᵢ 10;
    rd h 4 >>ᵢ 18;
    rd h 5 >>ᵢ 0;
    rd h 5 >>ᵢ 8;
    rd h 5 >>ᵢ 16;
    (rd h 5 >>ᵢ 24) |ᵢ (rd h 6 <<ᵢ 1);
    rd h 6 >>ᵢ 7;
    rd h 6 >>ᵢ 15;
    (rd h 6 >>ᵢ 23) |ᵢ (rd h 7 <<ᵢ 3);
    rd h 7 >>ᵢ 5;
    rd h 7 >>ᵢ 13;
    (rd h 7 >>ᵢ 21) |ᵢ (rd h 8 <<ᵢ 4);
    rd h 8 >>ᵢ 4;
    rd h 8 >>ᵢ 12;
    (rd h 8 >>ᵢ 20) |ᵢ (rd h 9 <<ᵢ 6);
    rd h 9 >>ᵢ 2;
    rd h 9 >>ᵢ 10;
    rd h 9 >>ᵢ 18
  ].
Definition fe_tobytes (f : fe) : option bytes :=
  let h : arr := Some <$> f in
  let q := (#19 *ᵢ rd h 9 +ᵢ #(Z.shiftl 1 24)) >>ᵢ 25 in
  let q := quotient (seq 0 10) h q in
  h ← wr h 0 (rd h 0 +ᵢ #19 *ᵢ q);
  h ← carries_down (seq 0 10) h;
  fe_bytes h.

(** * Predicates *)

Definition fe_isnegative (f : fe) : option Z :=
  s ← fe_tobytes f; x ← s !! 0%nat; Some (Z.land x 1).
Definition fe_isnonzero (f : fe) : option Z :=
  s ← fe_tobytes f; crypto_verify_32_ref s (replicate 32 0).
Definition fe_isequal (f g : fe) : option Z :=
  h ← fe_sub f g; r ← fe_isnonzero h; Some (Z.lxor 1 (Z.land 1 (Z.shiftr r 8))).
Definition fe_isreduced (s : bytes) : option Z :=
  f ← fe_frombytes s; strict ← fe_tobytes f; r ← crypto_verify_32_ref strict s;
  Some (if bool_decide (r = 0) then 1 else 0).

(** * Powers *)

(** [fe_sq(t,f); for (i = 1;i < n;++i) fe_sq(t,t);] *)
Fixpoint fe_sqn (n : nat) (f : fe) : option fe :=
  match n with O => Some f | S n => f ← fe_sq f; fe_sqn n f end.

Definition fe_invert (z : fe) : option fe :=
  t0 ← fe_sqn 1 z;
  t1 ← fe_sqn 2 t0;
  t1 ← fe_mul z t1;
  t0 ← fe_mul t0 t1;
  t2 ← fe_sqn 1 t0;
  t1 ← fe_mul t1 t2;
  t2 ← fe_sqn 5 t1;
  t1 ← fe_mul t2 t1;
  t2 ← fe_sqn 10 t1;
  t2 ← fe_mul t2 t1;
  t3 ← fe_sqn 20 t2;
  t2 ← fe_mul t3 t2;
  t2 ← fe_sqn 10 t2;
  t1 ← fe_mul t2 t1;
  t2 ← fe_sqn 50 t1;
  t2 ← fe_mul t2 t1;
  t3 ← fe_sqn 100 t2;
  t2 ← fe_mul t3 t2;
  t2 ← fe_sqn 50 t2;
  t1 ← fe_mul t2 t1;
  t1 ← fe_sqn 5 t1;
  fe_mul t1 t0.
Definition fe_pow22523 (z : fe) : option fe :=
  t0 ← fe_sqn 1 z;
  t1 ← fe_sqn 2 t0;
  t1 ← fe_mul z t1;
  t0 ← fe_mul t0 t1;
  t0 ← fe_sqn 1 t0;
  t0 ← fe_mul t1 t0;
  t1 ← fe_sqn 5 t0;
  t0 ← fe_mul t1 t0;
  t1 ← fe_sqn 10 t0;
  t1 ← fe_mul t1 t0;
  t2 ← fe_sqn 20 t1;
  t1 ← fe_mul t2 t1;
  t1 ← fe_sqn 10 t1;
  t0 ← fe_mul t1 t0;
  t1 ← fe_sqn 50 t0;
  t1 ← fe_mul t1 t0;
  t2 ← fe_sqn 100 t1;
  t1 ← fe_mul t2 t1;
  t1 ← fe_sqn 50 t1;
  t0 ← fe_mul t1 t0;
  t0 ← fe_sqn 2 t0;
  fe_mul t0 z.

(** * additions/ *)

(** [fe_0(A); A[0] = 486662;] *)
Definition fe_A : fe := <[0%nat := 486662]> fe_0.
Definition fe_mont_rhs (u : fe) : option fe :=
  u2 ← fe_sq u;
  Au ← fe_mul fe_A u;
  inner ← fe_add u2 Au;
  inner ← fe_add inner fe_1;
  fe_mul u inner.
Definition fe_montx_to_edy (u : fe) : option fe :=
  um1 ← fe_sub u fe_1;
  up1 ← fe_add u fe_1;
  up1 ← fe_invert up1;
  fe_mul um1 up1.

Definition i_bytes : bytes :=
  [0xb0; 0xa0; 0x0e; 0x4a; 0x27; 0x1b; 0xee; 0xc4; 0x78; 0xe4; 0x2f; 0xad; 0x06; 0x18; 0x43; 0x2f;
   0xa7; 0xd7; 0xfb; 0x3d; 0x99; 0x00; 0x4d; 0x2b; 0x0b; 0xdf; 0xc1; 0x4f; 0x80; 0x24; 0x83; 0x2b].
(** The assertions are part of the function, as they are when NDEBUG is not
    defined. *)
Definition fe_sqrt (a : fe) : option fe :=
  i ← fe_frombytes i_bytes;
  exp ← fe_pow22523 a;
  legendre ← fe_sq exp;
  legendre ← fe_sq legendre;
  legendre ← fe_mul legendre a;
  legendre ← fe_mul legendre a;
  is_zero ← fe_isequal legendre fe_0;
  is_one ← fe_isequal legendre fe_1;
  if bool_decide (is_zero ≠ 0 ∨ is_one ≠ 0) then
    b ← fe_mul a exp;
    b2 ← fe_sq b;
    bi ← fe_mul b i;
    e ← fe_isequal b2 a;
    b ← fe_cmov b bi (Z.lxor 1 e);
    out ← fe_copy b;
    b2 ← fe_sq out;
    e ← fe_isequal a b2;
    if bool_decide (e ≠ 0) then Some out else None
  else None.

(** additions/elligator.c *)
Definition legendre_is_nonsquare (x : fe) : option Z :=
  temp ← fe_pow22523 x;
  temp ← fe_sq temp;
  temp ← fe_sq temp;
  temp ← fe_mul temp x;
  temp ← fe_mul temp x;
  bytes ← fe_tobytes temp;
  b ← bytes !! 31%nat;
  Some (Z.land 1 b).
Definition elligator (r : fe) : option fe :=
  twor2 ← fe_sq2 r;
  twor2plus1 ← fe_add twor2 fe_1;
  twor2plus1inv ← fe_invert twor2plus1;
  x ← fe_mul twor2plus1inv fe_A;
  x ← fe_neg x;
  e ← fe_mont_rhs x;
  nonsquare ← legendre_is_nonsquare e;
  Atemp ← fe_cmov fe_0 fe_A nonsquare;
  u ← fe_add x Atemp;
  uneg ← fe_neg u;
  fe_cmov u uneg nonsquare.
End Fe.
