(* ===== verification/FeSpec.v ===== *)
(** The field operations of Ed25519 compute modulo 2^255 - 19.

    [felem c f v]: the element [f] stands for [v], its limbs within [c] 64ths of
    half their width.  Products give [c = 65]; a sum adds the bounds of its
    terms; products accept up to 211, that is 1.65 times the width as their
    comments say, and the encoder 200, above the 140 of its
    comment, since the check of ge_montx_to_p3 passes it more. *)

From Stdlib Require Import Setoid Morphisms.
From S2P Require Import Prelude Buffer Limbs Donna DonnaField DonnaBytes DonnaLadder Scalar ScalarSpec Fe.
Import Donna Fe.
Local Open Scope limb_scope.

Definition fe_bound (c : Z) : list Z :=
  [c * 2 ^ 19; c * 2 ^ 18; c * 2 ^ 19; c * 2 ^ 18; c * 2 ^ 19;
   c * 2 ^ 18; c * 2 ^ 19; c * 2 ^ 18; c * 2 ^ 19; c * 2 ^ 18].
Definition felem (c : Z) (f : fe) (v : Z) : Prop := Forall2 within (fe_bound c) f ∧ eval f =ₚ v.

(** Bounds may grow. *)
Lemma bounds_weaken B B' l : Forall2 within B l → Forall2 Z.le B B' → Forall2 within B' l.
Proof.
  intros H. revert B'. induction H as [|b x B l Hx _ IH]; intros B' HB.
  - by apply Forall2_nil_inv_l in HB as ->.
  - apply Forall2_cons_inv_l in HB as (b' & B1 & Hb & HB & ->).
    apply Forall2_cons_2; [by eapply within_weaken|by apply IH].
Qed.
Lemma felem_weaken c d f v : felem c f v → c <= d → felem d f v.
Proof.
  intros [HB E] Hcd. split; [|done]. eapply bounds_weaken; [exact HB|].
  repeat (apply Forall2_cons_2; [lia|]). apply Forall2_nil_2.
Qed.
#[export] Instance felem_proper c f : Proper (eqp ==> iff) (felem c f).
Proof. intros u v E. unfold felem. by rewrite E. Qed.

(** Ten limbs, with their ranges. *)
Lemma fe_limbs c f : Forall2 within (fe_bound c) f →
  ∃ f0 f1 f2 f3 f4 f5 f6 f7 f8 f9, f = [f0; f1; f2; f3; f4; f5; f6; f7; f8; f9] ∧
    within (c * 2 ^ 19) f0 ∧ within (c * 2 ^ 18) f1 ∧ within (c * 2 ^ 19) f2 ∧
    within (c * 2 ^ 18) f3 ∧ within (c * 2 ^ 19) f4 ∧ within (c * 2 ^ 18) f5 ∧
    within (c * 2 ^ 19) f6 ∧ within (c * 2 ^ 18) f7 ∧ within (c * 2 ^ 19) f8 ∧
    within (c * 2 ^ 18) f9.
Proof.
  intros H. unfold fe_bound in H. forall2_inv H. eexists _, _, _, _, _, _, _, _, _, _.
  split; [reflexivity|]. done.
Qed.
Ltac limbs H f0 f1 f2 f3 f4 f5 f6 f7 f8 f9 :=
  apply fe_limbs in H as (f0 & f1 & f2 & f3 & f4 & f5 & f6 & f7 & f8 & f9 & -> &
    ? & ? & ? & ? & ? & ? & ? & ? & ? & ?).

(** * Limb by limb *)

Lemma eval_from_zip op k i f g : (∀ x y, op x y = x + k * y) → length f = length g →
  eval_from i (zip_with op f g) = eval_from i f + k * eval_from i g.
Proof.
  intros Hop. revert i g. induction f as [|x f IH]; intros i [|y g] Hl; try done.
  - cbn. lia.
  - cbn [zip_with eval_from]. rewrite IH, Hop by (cbn in Hl; lia). ring.
Qed.

(** Expressions in range give their values. *)
Lemma mapM_ranged {A} (e : A → option Z) (s : list A) l B :
  Forall3 ranged (e <$> s) l B → mapM e s = Some l ∧ Forall2 within B l.
Proof.
  revert l B. induction s as [|a s IH]; intros l B H; cbn [fmap list_fmap] in H; inversion H; subst.
  - by split; [|apply Forall2_nil_2].
  - lazymatch goal with R : ranged _ _ _ |- _ => destruct R as [E Hw] end.
    destruct (IH _ _ ltac:(eassumption)) as [Hm HB].
    split; [|by apply Forall2_cons_2]. cbn. rewrite E. cbn. by rewrite Hm.
Qed.

Lemma zip10_ok (e : option Z → option Z → option Z) op k c d f g u v :
  (∀ x y, op x y = x + k * y) →
  (∀ x y A B, ranged (Some x) x A → ranged (Some y) y B → A + B <= half W32 →
    ranged (e (Some x) (Some y)) (op x y) (A + B)) →
  felem c f u → felem d g v → c + d <= 2048 →
  ∃ h, zip10 e f g = Some h ∧ felem (c + d) h (u + k * v).
Proof.
  intros Hop He [Hf Ef] [Hg Eg] Hcd. exists (zip_with op f g).
  assert (length f = length g) as Hl
    by (by rewrite <-(Forall2_length _ _ _ Hf), <-(Forall2_length _ _ _ Hg)).
  assert (eval (zip_with op f g) =ₚ u + k * v) as E.
  { unfold eval in *. rewrite (eval_from_zip op k) by done. by rewrite Ef, Eg. }
  enough (zip10 e f g = Some (zip_with op f g) ∧
    Forall2 within (fe_bound (c + d)) (zip_with op f g)) as [? ?] by done.
  clear E Ef Eg Hl u v. apply mapM_ranged.
  limbs Hf x0 x1 x2 x3 x4 x5 x6 x7 x8 x9. limbs Hg y0 y1 y2 y3 y4 y5 y6 y7 y8 y9.
  unfold fe_bound. cbn [seq fmap list_fmap zip_with lookup list_lookup].
  rewrite !Z.mul_add_distr_r.
  repeat (apply Forall3_cons; [by apply He; [..|cbn [half]; lia]|]). apply Forall3_nil.
Qed.

Lemma fe_add_ok c d f g u v :
  felem c f u → felem d g v → c + d <= 2048 →
  ∃ h, fe_add f g = Some h ∧ felem (c + d) h (u + v).
Proof.
  intros Hf Hg Hcd. rewrite <-(Z.mul_1_l v). apply (zip10_ok _ Z.add 1); [lia|intros; by apply ranged_add|done..].
Qed.
Lemma fe_sub_ok c d f g u v :
  felem c f u → felem d g v → c + d <= 2048 →
  ∃ h, fe_sub f g = Some h ∧ felem (c + d) h (u - v).
Proof.
  intros Hf Hg Hcd. replace (u - v) with (u + -1 * v) by lia.
  apply (zip10_ok _ Z.sub (-1)); [lia|intros; by apply ranged_sub|done..].
Qed.

Lemma map10_ok (e : option Z → option Z) op k c f u :
  (∀ x, op x = k * x) →
  (∀ x B, ranged (Some x) x B → B <= half W32 → ranged (e (Some x)) (op x) B) →
  felem c f u → c <= 2048 → ∃ h, map10 e f = Some h ∧ felem c h (k * u).
Proof.
  intros Hop He [Hf Ef] Hc. exists (op <$> f).
  assert (eval (op <$> f) =ₚ k * u) as E.
  { rewrite <-Ef. apply eq_subrelation; [apply _|]. unfold eval. generalize 0. clear -Hop.
    induction f as [|x f IH]; intros i; cbn [fmap list_fmap eval_from]; [lia|].
    rewrite Hop. change (op <$> f) with (list_fmap Z Z op f) in IH. rewrite IH. ring. }
  enough (map10 e f = Some (op <$> f) ∧ Forall2 within (fe_bound c) (op <$> f)) as [? ?] by done.
  clear E Ef u. apply mapM_ranged. limbs Hf x0 x1 x2 x3 x4 x5 x6 x7 x8 x9.
  unfold fe_bound. cbn [seq fmap list_fmap lookup list_lookup].
  repeat (apply Forall3_cons; [by apply He; [..|cbn [half]; lia]|]). apply Forall3_nil.
Qed.

Lemma fe_neg_ok c f u : felem c f u → c <= 2048 → ∃ h, fe_neg f = Some h ∧ felem c h (- u).
Proof.
  intros Hf Hc. replace (- u) with (-1 * u) by lia. apply (map10_ok _ Z.opp (-1)); [lia| |done..].
  intros x B [_ Hx] HB. split; [|unfold within in *; lia]. unfold ineg. cbn [mbind option_bind].
  apply checked_fits. unfold within in *. lia.
Qed.
Lemma fe_copy_ok c f u : felem c f u → fe_copy f = Some f.
Proof. intros [Hf _]. by limbs Hf x0 x1 x2 x3 x4 x5 x6 x7 x8 x9. Qed.

(** Exclusive or stays within the type. *)
Lemma signed_div x n : 0 <= n → - 2 ^ n <= x < 2 ^ n ↔ x `div` 2 ^ n = 0 ∨ x `div` 2 ^ n = -1.
Proof.
  intros Hn. pose proof (Z.pow_pos_nonneg 2 n). pose proof (Z_div_mod_eq_full x (2 ^ n)).
  pose proof (Z.mod_pos_bound x (2 ^ n)). split; [|nia]. intros Hx.
  destruct (Z.lt_ge_cases x 0); [right|left; apply Z.div_small; lia].
  symmetry. apply (Z.div_unique _ _ _ (x + 2 ^ n)); lia.
Qed.
Lemma lxor_signed x y n : 0 <= n → - 2 ^ n <= x < 2 ^ n → - 2 ^ n <= y < 2 ^ n →
  - 2 ^ n <= Z.lxor x y < 2 ^ n.
Proof.
  intros Hn. rewrite !signed_div by done.
  rewrite <-!Z.shiftr_div_pow2, Z.shiftr_lxor by done. intros [-> | ->] [-> | ->]; auto.
Qed.
Lemma wrap_u32 z : - 2 ^ 31 <= z < 2 ^ 31 → wrap W32 (u32 z) = z.
Proof.
  intros Hz. unfold wrap, u32. cbn [half]. change (2 * 0x80000000) with (2 ^ 32).
  rewrite Zplus_mod_idemp_l, Z.mod_small; lia.
Qed.

(** The conditional move chooses one of its arguments. *)
Lemma cmov_limb x y b : within (half W32) x → within (half W32) y → b = 0 ∨ b = 1 →
  (Some x ^ᵢ cast W32 (Some (u32 (- b)) &ᵢ (x ← Some x ^ᵢ Some y; Some (u32 x)))) =
    Some (if decide (b = 1) then y else x).
Proof.
  intros Hx Hy Hb. unfold ixor, iand, cast. cbn [mbind option_bind]. f_equal.
  destruct Hb as [-> | ->].
  - change (u32 (- 0)) with 0. rewrite Z.land_0_l. change (wrap W32 0) with 0.
    rewrite Z.lxor_0_r. by destruct (decide (0 = 1)).
  - change (u32 (- (1))) with (Z.ones 32). rewrite Z.land_comm, Z.land_ones by done.
    unfold u32 at 1. rewrite Z.mod_mod by done. fold (u32 (Z.lxor x y)).
    unfold within in *. cbn [half] in *. rewrite wrap_u32 by (apply lxor_signed; lia).
    rewrite <-Z.lxor_assoc, Z.lxor_nilpotent, Z.lxor_0_l. by destruct (decide (1 = 1)).
Qed.

Lemma fe_cmov_ok c f g u v b :
  felem c f u → felem c g v → c <= 2048 → b = 0 ∨ b = 1 →
  fe_cmov f g b = Some (if decide (b = 1) then g else f).
Proof.
  intros [Hf _] [Hg _] Hc Hb.
  limbs Hf x0 x1 x2 x3 x4 x5 x6 x7 x8 x9. limbs Hg y0 y1 y2 y3 y4 y5 y6 y7 y8 y9.
  unfold fe_cmov, zip10. apply mapM_Some_2. cbn [seq]. destruct (decide (b = 1)) as [->|].
  - repeat (apply Forall2_cons_2; [cbn [lookup list_lookup]; rewrite cmov_limb;
      [done|eapply within_weaken; [eassumption|cbn [half]; lia]..|done]|]). apply Forall2_nil_2.
  - repeat (apply Forall2_cons_2; [cbn [lookup list_lookup]; rewrite cmov_limb;
      [by destruct (decide (b = 1))|eapply within_weaken; [eassumption|cbn [half]; lia]..|done]|]).
    apply Forall2_nil_2.
Qed.

(** * Carries *)

(** Strict bounds after a carry. *)
Definition abs_fe_carry (i : nat) (B : list Z) : option (list Z) :=
  let n := limb_bits i in
  let j := if (i =? 9)%nat then 0%nat else (i + 1)%nat in
  let m := if (i =? 9)%nat then 19 else 1 in
  b ← B !! i; b' ← B !! j;
  let cb := (b + 2 ^ (n - 1)) `div` 2 ^ n + 2 in
  if (b + 2 ^ 28 <=? 2 ^ 63) && (b' + m * cb <=? 2 ^ 63) && (0 <? b) && (i <? 10)%nat
  then Some (<[i := 2 ^ (n - 1) + 1]> (<[j := b' + m * cb]> B)) else None.
Fixpoint abs_fe_carries (idx : list nat) (B : list Z) : option (list Z) :=
  match idx with [] => Some B | i :: idx => B ← abs_fe_carry i B; abs_fe_carries idx B end.

Lemma eval_from_insert l k i x y : l !! i = Some x →
  eval_from k (<[i := y]> l) = eval_from k l + weight (k + Z.of_nat i) * (y - x).
Proof.
  revert k i. induction l as [|z l IH]; intros k [|i] H; simplify_eq/=.
  - rewrite Z.add_0_r. ring.
  - rewrite (IH _ _ H). replace (k + 1 + Z.of_nat i) with (k + Z.of_nat (S i)) by lia. ring.
Qed.
Lemma eval_insert l i x y : l !! i = Some x →
  eval (<[i := y]> l) = eval l + weight (Z.of_nat i) * (y - x).
Proof. apply (eval_from_insert l 0). Qed.

(** The weight of the next limb; the last one wraps around with a factor 19. *)
Lemma weight_next i : (i < 9)%nat → weight (Z.of_nat (i + 1)) = weight (Z.of_nat i) * 2 ^ limb_bits i.
Proof. intros Hi. do 9 (destruct i as [|i]; [reflexivity|]). lia. Qed.
Lemma weight_last : weight 9 * 2 ^ 25 = p25519 + weight 0 * 19.
Proof. reflexivity. Qed.

(** One carry, when nothing overflows. *)
Lemma fe_carry_run l i j m x y c n :
  n = limb_bits i → (j, m) = (if (i =? 9)%nat then (0%nat, 19) else ((i + 1)%nat, 1)) →
  c = (x + 2 ^ (n - 1)) `div` 2 ^ n → l !! i = Some x → l !! j = Some y →
  within (half W64) (x + 2 ^ (n - 1)) → within (half W64) (m * c) →
  within (half W64) (y + m * c) → within (half W64) (c * 2 ^ n) →
  within (half W64) (x - c * 2 ^ n) →
  fe_carry i (Some <$> l) = Some (Some <$> <[i := x - c * 2 ^ n]> (<[j := y + m * c]> l)).
Proof.
  intros -> Hj -> Hx Hy H1 H2 H3 H4 H5.
  pose proof (lookup_lt_Some _ _ _ Hx). pose proof (lookup_lt_Some _ _ _ Hy).
  assert (0 < limb_bits i) by (destruct (limb_bits_cases i); lia).
  unfold fe_carry. rewrite (rd_fmap _ _ _ Hx). unfold iadd, imul, isub, ishl, ishr.
  cbn [mbind option_bind]. rewrite Z.shiftl_1_l, checked_fits by done. cbn [mbind option_bind].
  rewrite Z.shiftr_div_pow2, Z.shiftl_mul_pow2, wrap_small by (done || lia).
  set (c := (_ + _) `div` _) in *.
  assert (i ≠ j) by (destruct (Nat.eqb_spec i 9); simplify_eq; lia).
  assert ((if (i =? 9)%nat then wr (Some <$> l) 0 (rd (Some <$> l) 0 ≫= λ x,
      checked W64 (c * 19) ≫= λ y, checked W64 (x + y))
    else wr (Some <$> l) (i + 1) (rd (Some <$> l) (i + 1) ≫= λ x, checked W64 (x + c))) =
    Some (Some <$> <[j := y + m * c]> l)) as ->.
  { destruct (i =? 9)%nat; injection Hj as -> ->; rewrite (rd_fmap _ _ _ Hy);
      cbn [mbind option_bind].
    - rewrite (Z.mul_comm c 19), checked_fits by done. cbn [mbind option_bind].
      rewrite checked_fits, wr_some by (done || by rewrite length_fmap). by rewrite insert_fmap.
    - rewrite Z.mul_1_l in *. rewrite checked_fits, wr_some by (done || by rewrite length_fmap).
      by rewrite insert_fmap. }
  cbn [mbind option_bind]. rewrite (rd_fmap _ i x) by (by rewrite list_lookup_insert_ne by done).
  cbn [mbind option_bind]. rewrite checked_fits by done.
  rewrite wr_some by (by rewrite length_fmap, length_insert). by rewrite insert_fmap.
Qed.

Lemma fe_carry_value l i j m x y c n :
  n = limb_bits i → (j, m) = (if (i =? 9)%nat then (0%nat, 19) else ((i + 1)%nat, 1)) →
  (i < 10)%nat → l !! i = Some x → l !! j = Some y →
  eval (<[i := x - c * 2 ^ n]> (<[j := y + m * c]> l)) =ₚ eval l.
Proof.
  intros -> Hj Hi Hx Hy.
  assert (i ≠ j) by (destruct (Nat.eqb_spec i 9); simplify_eq; lia).
  rewrite (eval_insert _ i x) by (by rewrite list_lookup_insert_ne by done).
  rewrite (eval_insert _ j y) by done.
  destruct (Nat.eqb_spec i 9) as [->|]; injection Hj as -> ->.
  - apply (eqp_of_diff _ _ (- c)). pose proof weight_last as Hw.
    change (Z.of_nat 9) with 9. change (Z.of_nat 0) with 0. change (limb_bits 9) with 25.
    replace (weight 9 * (x - c * 2 ^ 25 - x)) with (- c * (weight 9 * 2 ^ 25)) by ring.
    rewrite Hw. ring.
  - apply eq_subrelation; [apply _|]. rewrite weight_next by lia. ring.
Qed.

Lemma abs_fe_carry_sound i B B' l :
  Forall2 within B l → abs_fe_carry i B = Some B' →
  ∃ l', fe_carry i (Some <$> l) = Some (Some <$> l') ∧ Forall2 within B' l' ∧ eval l' =ₚ eval l.
Proof.
  intros HB H. unfold abs_fe_carry in H.
  set (j := if (i =? 9)%nat then 0%nat else (i + 1)%nat) in *.
  set (m := if (i =? 9)%nat then 19 else 1) in *.
  destruct (B !! i) as [b|] eqn:Hb; [|done]. cbn [mbind option_bind] in H.
  destruct (B !! j) as [b'|] eqn:Hb'; [|done]. cbn [mbind option_bind] in H.
  destruct (_ && _) eqn:E; [|done]. injection H as <-.
  rewrite !andb_true_iff, !Z.leb_le, Z.ltb_lt, Nat.ltb_lt in E. destruct E as [[[E1 E2] E3] E4].
  destruct (bounded_lookup _ _ _ _ HB Hb) as (x & Hx & Hbx).
  destruct (bounded_lookup _ _ _ _ HB Hb') as (y & Hy & Hby).
  assert ((j, m) = (if (i =? 9)%nat then (0%nat, 19) else ((i + 1)%nat, 1))) as Hj
    by (subst j m; by destruct (i =? 9)%nat).
  assert (m = 19 ∨ m = 1) as Hm by (subst m; destruct (i =? 9)%nat; auto).
  set (n := limb_bits i) in *. set (c := (x + 2 ^ (n - 1)) `div` 2 ^ n).
  assert (within ((b + 2 ^ (n - 1)) `div` 2 ^ n + 2) c ∧ within (2 ^ (n - 1) + 1) (x - c * 2 ^ n) ∧
    within (b + 2 ^ (n - 1) + 1) (c * 2 ^ n) ∧ 0 < 2 ^ (n - 1) <= 2 ^ 25) as (Hc & Hr & Hcn & Hn).
  { subst c n. unfold within in *. destruct (limb_bits_cases i) as [-> | ->];
      split_and!; Z.to_euclidean_division_equations; lia. }
  assert (within (b' + m * ((b + 2 ^ (n - 1)) `div` 2 ^ n + 2)) (y + m * c)) as Hyc
    by (clear -Hm Hby Hc; unfold within in *; destruct Hm as [-> | ->]; lia).
  exists (<[i := x - c * 2 ^ n]> (<[j := y + m * c]> l)). split_and!.
  - apply (fe_carry_run l i j m x y c n); try done;
      clear -E1 E2 E3 Hbx Hby Hm Hc Hr Hcn Hn Hyc; unfold within in *; cbn [half];
      destruct Hm as [-> | ->]; lia.
  - apply Forall2_insert; [by apply Forall2_insert|done].
  - by apply fe_carry_value.
Qed.

Lemma abs_fe_carries_sound idx B B' l :
  Forall2 within B l → abs_fe_carries idx B = Some B' →
  ∃ l', fe_carries idx (Some <$> l) = Some (Some <$> l') ∧ Forall2 within B' l' ∧ eval l' =ₚ eval l.
Proof.
  revert B l. induction idx as [|i idx IH]; intros B l HB H.
  - injection H as <-. by exists l.
  - cbn [abs_fe_carries] in H. destruct (abs_fe_carry i B) as [B1|] eqn:E; [|done].
    cbn [mbind option_bind] in H. destruct (abs_fe_carry_sound i B B1 l HB E) as (l1 & Hr1 & HB1 & E1).
    destruct (IH B1 l1 HB1 H) as (l' & Hr & HB' & E').
    exists l'. cbn [fe_carries]. rewrite Hr1. split_and!; [done|done|by rewrite E'].
Qed.

(** * Products *)

Lemma fe_store_ok l : length l = 10%nat → Forall (within (half W32)) l →
  fe_store (Some <$> l) = Some l.
Proof.
  intros Hl H. unfold fe_store. apply mapM_Some_2. apply Forall2_same_length_lookup_2.
  { by rewrite length_seq, Hl. }
  intros i j x Hj Hx. apply lookup_seq in Hj as [-> _]. cbn [Nat.add].
  rewrite (rd_fmap _ _ _ Hx). unfold cast. cbn [mbind option_bind].
  by rewrite wrap_small by exact (Forall_lookup_1 _ _ _ _ H Hx).
Qed.

(** Limbs in range, carried and stored. *)
Lemma carried_ok idx h l B B' :
  Forall3 ranged h l B → abs_fe_carries idx B = Some B' → Forall2 Z.le B' (fe_bound 65) →
  ∃ f, (h ← fe_carries idx h; fe_store h) = Some f ∧ felem 65 f (eval l).
Proof.
  intros H HB Hle.
  assert (h = Some <$> l ∧ Forall2 within B l) as [-> HBl].
  { clear -H. induction H as [|e v b es l B [-> Hv] _ [-> IH]]; [done|]. split; [done|].
    by apply Forall2_cons_2. }
  destruct (abs_fe_carries_sound idx B B' l HBl HB) as (f & -> & HBf & E). exists f.
  cbn [mbind option_bind]. pose proof (bounds_weaken _ _ _ HBf Hle) as HF. clear -HF E.
  split; [|by split]. apply fe_store_ok; [by rewrite <-(Forall2_length _ _ _ HF)|].
  limbs HF x0 x1 x2 x3 x4 x5 x6 x7 x8 x9.
  repeat (apply Forall_cons_2; [eapply within_weaken; [eassumption|cbn [half]; lia]|]).
  apply Forall_nil_2.
Qed.

(** Values and ranges of the products of limbs. *)
Ltac prng :=
  lazymatch goal with
  | |- ranged (iadd _ _ _) _ _ => eapply ranged_add; [prng|prng|by vm_compute]
  | |- ranged (imul W32 (Some _) _) _ _ => eapply ranged_scale; [done|prng|by vm_compute]
  | |- ranged (imul W64 _ _) _ _ => eapply ranged_mul; [prng|prng|by vm_compute]
  | |- ranged (Some _) _ _ => split; [reflexivity|eassumption]
  end.
Ltac products := repeat (apply Forall3_cons; [prng|]); apply Forall3_nil.
Ltac le_bounds := vm_compute; repeat (apply Forall2_cons_2; [discriminate|]); apply Forall2_nil_2.

(** The part of a product above 2^255. *)
Definition product_high (f g : fe) : Z :=
  match f, g with
  | [f0; f1; f2; f3; f4; f5; f6; f7; f8; f9], [g0; g1; g2; g3; g4; g5; g6; g7; g8; g9] =>
    2 ^ 1 * f1 * g9 + 2 ^ 0 * f2 * g8 + 2 ^ 26 * f2 * g9 + 2 ^ 1 * f3 * g7 + 2 ^ 26 * f3 * g8 +
    2 ^ 52 * f3 * g9 + 2 ^ 0 * f4 * g6 + 2 ^ 26 * f4 * g7 + 2 ^ 51 * f4 * g8 + 2 ^ 77 * f4 * g9 +
    2 ^ 1 * f5 * g5 + 2 ^ 26 * f5 * g6 + 2 ^ 52 * f5 * g7 + 2 ^ 77 * f5 * g8 +
    2 ^ 103 * f5 * g9 + 2 ^ 0 * f6 * g4 + 2 ^ 26 * f6 * g5 + 2 ^ 51 * f6 * g6 +
    2 ^ 77 * f6 * g7 + 2 ^ 102 * f6 * g8 + 2 ^ 128 * f6 * g9 + 2 ^ 1 * f7 * g3 +
    2 ^ 26 * f7 * g4 + 2 ^ 52 * f7 * g5 + 2 ^ 77 * f7 * g6 + 2 ^ 103 * f7 * g7 +
    2 ^ 128 * f7 * g8 + 2 ^ 154 * f7 * g9 + 2 ^ 0 * f8 * g2 + 2 ^ 26 * f8 * g3 +
    2 ^ 51 * f8 * g4 + 2 ^ 77 * f8 * g5 + 2 ^ 102 * f8 * g6 + 2 ^ 128 * f8 * g7 +
    2 ^ 153 * f8 * g8 + 2 ^ 179 * f8 * g9 + 2 ^ 1 * f9 * g1 + 2 ^ 26 * f9 * g2 +
    2 ^ 52 * f9 * g3 + 2 ^ 77 * f9 * g4 + 2 ^ 103 * f9 * g5 + 2 ^ 128 * f9 * g6 +
    2 ^ 154 * f9 * g7 + 2 ^ 179 * f9 * g8 + 2 ^ 205 * f9 * g9
  | _, _ => 0
  end.

(** The limbs [h] of a product, carried, give an element for [v]. *)
Definition carries_to (h : arr) (v : Z) : Prop :=
  ∃ l B, Forall3 ranged h l B ∧ eval l =ₚ v ∧
    ∃ B', abs_fe_carries mul_carries B = Some B' ∧ Forall2 Z.le B' (fe_bound 65).
Lemma carries_to_ok h u v : carries_to h u → u =ₚ v →
  ∃ f, (h ← fe_carries mul_carries h; fe_store h) = Some f ∧ felem 65 f v.
Proof.
  intros (l & B & Hl & El & B' & HB & Hle) E.
  destruct (carried_ok _ _ _ _ _ Hl HB Hle) as (f & Hf & Ff). exists f. split; [done|].
  by rewrite <-E, <-El.
Qed.
Ltac carry_product :=
  eexists _, _; split; [products|split; [|eexists; split; [vm_compute; reflexivity|le_bounds]]].

Lemma fe_product_ok f g :
  Forall2 within (fe_bound 211) f → Forall2 within (fe_bound 211) g →
  carries_to (fe_product f g) (eval f * eval g).
Proof.
  intros Hf Hg. limbs Hf f0 f1 f2 f3 f4 f5 f6 f7 f8 f9. limbs Hg g0 g1 g2 g3 g4 g5 g6 g7 g8 g9.
  unfold fe_product. cbn [lookup list_lookup]. cbv zeta. carry_product.
  apply (eqp_of_diff _ _ (- product_high [f0; f1; f2; f3; f4; f5; f6; f7; f8; f9]
    [g0; g1; g2; g3; g4; g5; g6; g7; g8; g9])). unfold product_high.
  weights. unfold p25519. ring.
Qed.
Lemma fe_square_ok f :
  Forall2 within (fe_bound 211) f → carries_to (fe_square f) (eval f * eval f).
Proof.
  intros Hf. limbs Hf f0 f1 f2 f3 f4 f5 f6 f7 f8 f9.
  unfold fe_square. cbn [lookup list_lookup]. cbv zeta. carry_product.
  apply (eqp_of_diff _ _ (- product_high [f0; f1; f2; f3; f4; f5; f6; f7; f8; f9]
    [f0; f1; f2; f3; f4; f5; f6; f7; f8; f9])). unfold product_high.
  weights. unfold p25519. ring.
Qed.
Lemma fe_square2_ok f :
  Forall2 within (fe_bound 211) f →
  carries_to ((λ h, h +ₗ h) <$> fe_square f) (2 * (eval f * eval f)).
Proof.
  intros Hf. limbs Hf f0 f1 f2 f3 f4 f5 f6 f7 f8 f9.
  unfold fe_square. cbn [lookup list_lookup]. cbv zeta. cbn [fmap list_fmap]. carry_product.
  apply (eqp_of_diff _ _ (- 2 * product_high [f0; f1; f2; f3; f4; f5; f6; f7; f8; f9]
    [f0; f1; f2; f3; f4; f5; f6; f7; f8; f9])). unfold product_high.
  weights. unfold p25519. ring.
Qed.

Lemma fe_mul_ok f g u v :
  felem 211 f u → felem 211 g v → ∃ h, fe_mul f g = Some h ∧ felem 65 h (u * v).
Proof.
  intros [Hf Eu] [Hg Ev]. eapply carries_to_ok; [by apply fe_product_ok|]. by rewrite Eu, Ev.
Qed.
Lemma fe_sq_ok f u : felem 211 f u → ∃ h, fe_sq f = Some h ∧ felem 65 h (u * u).
Proof. intros [Hf Eu]. eapply carries_to_ok; [by apply fe_square_ok|]. by rewrite Eu. Qed.
Lemma fe_sq2_ok f u : felem 211 f u → ∃ h, fe_sq2 f = Some h ∧ felem 65 h (2 * (u * u)).
Proof. intros [Hf Eu]. eapply carries_to_ok; [by apply fe_square2_ok|]. by rewrite Eu. Qed.

(** * Encoding *)

Lemma weight_succ i : (i < 10)%nat → weight (Z.of_nat i + 1) = weight (Z.of_nat i) * 2 ^ limb_bits i.
Proof. intros Hi. do 10 (destruct i as [|i]; [reflexivity|]). lia. Qed.
Lemma weight_pos i : 0 <= i → 0 < weight i.
Proof. intros Hi. unfold weight. apply Z.pow_pos_nonneg; [done|]. apply Z.div_pos; lia. Qed.

(** The quotient is computed limb by limb. *)
Lemma quotient_ok n i l X :
  (i + n <= 10)%nat → length l = 10%nat → Forall (within (2 ^ 27)) l →
  within (2 ^ 10) (X `div` weight (Z.of_nat i)) →
  quotient (seq i n) (Some <$> l) (Some (X `div` weight (Z.of_nat i))) =
    Some ((X + eval_from (Z.of_nat i) (take n (drop i l))) `div` weight (Z.of_nat (i + n))).
Proof.
  revert i X. induction n as [|n IH]; intros i X Hi Hl HB HX.
  { cbn [seq quotient]. by rewrite Nat.add_0_r, take_0, Z.add_0_r. }
  destruct (lookup_lt_is_Some_2 l i) as [x Hx]; [lia|].
  pose proof (Forall_lookup_1 _ _ _ _ HB Hx) as Hxb.
  cbn [seq quotient]. rewrite (rd_fmap _ _ _ Hx). unfold iadd, ishr. cbn [mbind option_bind].
  rewrite checked_fits by (unfold within in *; cbn [half]; lia). cbn [mbind option_bind].
  assert (0 < 2 ^ limb_bits i ∧ 0 <= limb_bits i) as [Hb Hb'] by (destruct (limb_bits_cases i) as [-> | ->]; lia).
  pose proof (weight_pos (Z.of_nat i) ltac:(lia)) as Hw.
  rewrite Z.shiftr_div_pow2 by done.
  replace ((x + X `div` weight (Z.of_nat i)) `div` 2 ^ limb_bits i)
    with ((X + weight (Z.of_nat i) * x) `div` weight (Z.of_nat (S i))).
  - rewrite IH; [|lia|done|done|].
    + rewrite (drop_S _ _ _ Hx). cbn [take eval_from]. rewrite Nat2Z.inj_succ.
      rewrite Nat.add_succ_comm. f_equal. f_equal. unfold Z.succ. ring.
    + rewrite Nat2Z.inj_succ. unfold Z.succ. rewrite weight_succ by lia.
      rewrite <-Z.div_div by lia. rewrite (Z.mul_comm (weight _)), Z.div_add by lia.
      unfold within in *. destruct (limb_bits_cases i) as [-> | ->];
        Z.to_euclidean_division_equations; lia.
  - rewrite Nat2Z.inj_succ. unfold Z.succ. rewrite weight_succ by lia.
    rewrite <-Z.div_div by lia. rewrite (Z.mul_comm (weight _)), Z.div_add by lia. f_equal. lia.
Qed.

(** The estimate of the quotient by the prime is exact. *)
Lemma quotient_exact E h9 r q0 :
  E = 2 ^ 230 * h9 + r → within (2 ^ 232) r → within (201 * 2 ^ 18) h9 →
  q0 = (19 * h9 + 2 ^ 24) `div` 2 ^ 25 →
  (E + q0) `div` 2 ^ 255 = E `div` p25519.
Proof.
  intros HE Hr H9 H0. unfold within in *.
  apply (Z.div_unique _ _ _ (E - ((E + q0) `div` 2 ^ 255) * p25519)); [|lia].
  left. pose proof (Z_div_mod_eq_full (E + q0) (2 ^ 255)) as D1.
  pose proof (Z.mod_pos_bound (E + q0) (2 ^ 255) ltac:(done)) as M1.
  pose proof (Z_div_mod_eq_full (19 * h9 + 2 ^ 24) (2 ^ 25)) as D2.
  pose proof (Z.mod_pos_bound (19 * h9 + 2 ^ 24) (2 ^ 25) ltac:(done)) as M2.
  rewrite <-H0 in D2. set (q := (E + q0) `div` 2 ^ 255) in *.
  set (m1 := (E + q0) `mod` 2 ^ 255) in *. set (m2 := (19 * h9 + 2 ^ 24) `mod` 2 ^ 25) in *.
  clearbody q m1 m2. unfold p25519. clear H0. lia.
Qed.

Lemma carry_down_ok l i x y :
  (i < 9)%nat → l !! i = Some x → l !! (i + 1)%nat = Some y →
  within (2 ^ 28) x → within (2 ^ 28) y →
  carry_down i (Some <$> l) =
    Some (Some <$> <[i := x `mod` 2 ^ limb_bits i]> (<[(i + 1)%nat := y + x `div` 2 ^ limb_bits i]> l)).
Proof.
  intros Hi Hx Hy Bx By. pose proof (lookup_lt_Some _ _ _ Hx). pose proof (lookup_lt_Some _ _ _ Hy).
  unfold carry_down. rewrite (rd_fmap _ _ _ Hx), (rd_fmap _ _ _ Hy).
  unfold iadd, isub, ishl, ishr. cbn [mbind option_bind].
  rewrite (proj2 (Nat.eqb_neq i 9)) by lia.
  assert (0 <= limb_bits i ∧ x - x `div` 2 ^ limb_bits i * 2 ^ limb_bits i = x `mod` 2 ^ limb_bits i ∧
    within (half W32) (x `div` 2 ^ limb_bits i * 2 ^ limb_bits i) ∧
    within (half W32) (x `mod` 2 ^ limb_bits i) ∧
    within (half W32) (y + x `div` 2 ^ limb_bits i)) as (Hb & E & H1 & H2 & H3).
  { unfold within in *. cbn [half]. destruct (limb_bits_cases i) as [-> | ->];
      split_and!; Z.to_euclidean_division_equations; lia. }
  rewrite Z.shiftr_div_pow2, Z.shiftl_mul_pow2 by done.
  rewrite checked_fits, wr_some by (done || by rewrite length_fmap).
  cbn [mbind option_bind]. rewrite insert_fmap.
  rewrite (rd_fmap _ i x) by (by rewrite list_lookup_insert_ne by lia). cbn [mbind option_bind].
  rewrite wrap_small by done. rewrite E, checked_fits by done.
  rewrite wr_some by (by rewrite length_fmap, length_insert). by rewrite insert_fmap.
Qed.
Lemma carry_down_last l x : l !! 9%nat = Some x → within (2 ^ 28) x →
  carry_down 9 (Some <$> l) = Some (Some <$> <[9%nat := x `mod` 2 ^ 25]> l).
Proof.
  intros Hx Bx. pose proof (lookup_lt_Some _ _ _ Hx). unfold carry_down.
  rewrite Nat.eqb_refl. cbn [mbind option_bind]. rewrite (rd_fmap _ _ _ Hx).
  unfold isub, ishl, ishr. cbn [mbind option_bind]. change (limb_bits 9) with 25.
  assert (x - x `div` 2 ^ 25 * 2 ^ 25 = x `mod` 2 ^ 25 ∧
    within (half W32) (x `div` 2 ^ 25 * 2 ^ 25) ∧ within (half W32) (x `mod` 2 ^ 25)) as (E & H1 & H2).
  { unfold within in *. cbn [half]. split_and!; Z.to_euclidean_division_equations; lia. }
  rewrite Z.shiftr_div_pow2, Z.shiftl_mul_pow2, wrap_small, E, checked_fits by done.
  rewrite wr_some by (by rewrite length_fmap). by rewrite insert_fmap.
Qed.

Lemma within_carry b x y : b = 25 ∨ b = 26 → within (2 ^ 28) x → within (2 ^ 27) y →
  within (2 ^ 28) (y + x `div` 2 ^ b).
Proof.
  unfold within. intros [-> | ->]; Z.to_euclidean_division_equations; lia.
Qed.

Ltac carry_range :=
  first [eassumption|apply within_carry; [apply limb_bits_cases|carry_range|assumption]].

(** Name the quotient and the remainder of a limb. *)
Ltac split_limb t b c :=
  pose proof (Z_div_mod_eq_full t (2 ^ b)); pose proof (Z.mod_pos_bound t (2 ^ b) ltac:(done));
  generalize dependent (t `mod` 2 ^ b); intros ?;
  generalize dependent (t `div` 2 ^ b); intros c; intros.

(** Limbs of full width. *)
Definition full (l : list Z) : Prop :=
  Forall2 (λ b x, 0 <= x < 2 ^ b) [26; 25; 26; 25; 26; 25; 26; 25; 26; 25] l.

(** The carries leave the value modulo 2^255 in limbs of full width. *)
Lemma carries_down_ok t0 t :
  length t = 9%nat → within (2 ^ 28) t0 → Forall (within (2 ^ 27)) t →
  ∃ d, carries_down (seq 0 10) (Some <$> t0 :: t) = Some (Some <$> d) ∧ full d ∧
    eval d = eval (t0 :: t) `mod` 2 ^ 255.
Proof.
  intros Hl H0 HB.
  destruct t as [|t1 [|t2 [|t3 [|t4 [|t5 [|t6 [|t7 [|t8 [|t9 [|? ?]]]]]]]]]]; try discriminate Hl.
  repeat (apply Forall_cons in HB; destruct HB as [? HB]). clear HB Hl.
  cbn [seq carries_down].
  do 9 (erewrite carry_down_ok;
    [cbn [mbind option_bind insert list_insert Nat.add]|lia|reflexivity|reflexivity|
     carry_range|eapply within_weaken; [eassumption|done]]).
  erewrite carry_down_last; [|reflexivity|carry_range]. cbn [mbind option_bind insert list_insert].
  eexists. split; [reflexivity|]. split.
  - repeat (apply Forall2_cons_2; [by apply Z.mod_pos_bound|]). apply Forall2_nil_2.
  - change (limb_bits 0) with 26. change (limb_bits 1) with 25. change (limb_bits 2) with 26.
    change (limb_bits 3) with 25. change (limb_bits 4) with 26. change (limb_bits 5) with 25.
    change (limb_bits 6) with 26. change (limb_bits 7) with 25. change (limb_bits 8) with 26.
    weights. clear. split_limb t0 26 c0. split_limb (t1 + c0) 25 c1. split_limb (t2 + c1) 26 c2.
    split_limb (t3 + c2) 25 c3. split_limb (t4 + c3) 26 c4. split_limb (t5 + c4) 25 c5.
    split_limb (t6 + c5) 26 c6. split_limb (t7 + c6) 25 c7. split_limb (t8 + c7) 26 c8.
    split_limb (t9 + c8) 25 c9. apply (Z.mod_unique _ _ c9); [left|]; lia.
Qed.

(** The low byte of a shifted limb does not see the wrap of its high bits. *)
Lemma u8_join32 x y n m :
  0 <= n → 0 < m < 8 → 0 <= x `div` 2 ^ n < 2 ^ m →
  u8 <$> ((Some x >>ᵢ n) |ᵢ (Some y <<ᵢ m)) =
    Some (x `div` 2 ^ n + 2 ^ m * (y `mod` 2 ^ (8 - m))).
Proof.
  intros Hn Hm Hx. rewrite ishr_div by done. unfold ior, ishl.
  cbn [mbind option_bind fmap option_fmap option_map]. rewrite Z.shiftl_mul_pow2 by lia.
  destruct (wrap_word (y * 2 ^ m)) as [q ->].
  replace (y * 2 ^ m + q * 2 ^ 32) with ((y + q * 2 ^ 24 * 2 ^ (8 - m)) * 2 ^ m).
  2:{ replace (2 ^ 32) with (2 ^ 24 * 2 ^ (8 - m) * 2 ^ m); [ring|].
      rewrite <-!Z.pow_add_r by lia. f_equal. lia. }
  rewrite lor_add by (done || lia). f_equal. unfold u8.
  change (2 ^ 8) with 256. assert (256 = 2 ^ m * 2 ^ (8 - m)) as ->
    by (rewrite <-Z.pow_add_r by lia; by replace (m + (8 - m)) with 8 by lia).
  pose proof (Z.pow_pos_nonneg 2 (8 - m)). rewrite Z.rem_mul_r by lia.
  rewrite Z_mod_plus_full, Z.mod_small by done.
  rewrite Z.div_add, (Z.div_small (x `div` 2 ^ n)) by lia.
  by rewrite Z.add_0_l, Z_mod_plus_full.
Qed.

Lemma fe_bytes_ok d : full d → fe_bytes (Some <$> d) = Some (le_bytes 32 (eval d)).
Proof.
  intros H. unfold full in H.
  apply Forall2_length in H as Hl. destruct d as [|x0 [|x1 [|x2 [|x3 [|x4 [|x5 [|x6 [|x7 [|x8 [|x9 [|? ?]]]]]]]]]]];
    try discriminate Hl. clear Hl.
  repeat (apply Forall2_cons in H; destruct H as [? H]). clear H.
  unfold fe_bytes. cbn [fmap list_fmap]. unfold rd. cbn [lookup list_lookup mjoin option_join].
  eapply eq_trans.
  { apply mapM_Some_2. repeat (apply Forall2_cons_2; [cbv beta;
      lazymatch goal with
      | |- u8 <$> (_ |ᵢ _) = _ => apply u8_join32; [done|done|];
          first [by apply (div_range _ _ _ 26)|by apply (div_range _ _ _ 25)]
      | |- _ => by apply u8_field
      end|]). apply Forall2_nil_2. }
  f_equal.
  lazymatch goal with |- ?bs = _ => rewrite <-(le_bytes_value bs) at 1; [cbn [length]; f_equal|] end.
  - cbn [le_value]. bit_fields x0 0 [8; 8; 8]. bit_fields x1 0 [6; 8; 8]. bit_fields x2 0 [5; 8; 8].
    bit_fields x3 0 [3; 8; 8]. bit_fields x4 0 [2; 8; 8; 8]. bit_fields x5 0 [8; 8; 8].
    bit_fields x6 0 [7; 8; 8]. bit_fields x7 0 [5; 8; 8]. bit_fields x8 0 [4; 8; 8].
    bit_fields x9 0 [2; 8; 8; 8].
    pose proof (Z.div_small x4 (2 ^ 26) ltac:(lia)). pose proof (Z.div_small x9 (2 ^ 26) ltac:(lia)).
    repeat match goal with |- context [2 ^ (8 - ?m)] =>
      let e := eval vm_compute in (8 - m) in change (8 - m) with e end.
    weights. sum_fields x0.
  - repeat (apply Forall_cons_2; [first [apply join_byte; [done|];
        first [by apply (div_range _ _ _ 26)|by apply (div_range _ _ _ 25)]|by apply Z.mod_pos_bound]|]).
    apply Forall_nil_2.
Qed.

(** The quotient of an element within the encoder's bound. *)
Lemma tobytes_quotient f0 f1 f2 f3 f4 f5 f6 f7 f8 f9 (l := [f0; f1; f2; f3; f4; f5; f6; f7; f8; f9]) :
  Forall2 within (fe_bound 200) l →
  quotient (seq 0 10) (Some <$> l) ((Some 19 *ᵢ Some f9 +ᵢ Some (Z.shiftl 1 24)) >>ᵢ 25) =
    Some (eval l `div` p25519) ∧
  within 8 (eval l `div` p25519) ∧ within (2 ^ 27) f0 ∧
  Forall (within (2 ^ 27)) [f1; f2; f3; f4; f5; f6; f7; f8; f9].
Proof.
  intros Hf. unfold l, fe_bound in Hf.
  repeat (apply Forall2_cons in Hf; destruct Hf as [? Hf]). clear Hf.
  assert (Forall (within (2 ^ 27)) l) as HB.
  { repeat (apply Forall_cons_2; [by eapply within_weaken|]). apply Forall_nil_2. }
  assert (within (2 ^ 232) (eval l - 2 ^ 230 * f9) ∧ within (2 ^ 257) (eval l)) as [Hr He]
    by (subst l; weights; unfold within in *; lia).
  split_and!; [|clear -He; unfold within, p25519 in *; Z.to_euclidean_division_equations; lia|
    by apply Forall_cons in HB as [? _]|by apply Forall_cons in HB as [_ ?]].
  unfold iadd, imul, ishr. cbn [mbind option_bind]. change (Z.shiftl 1 24) with (2 ^ 24).
  rewrite (checked_fits W32 (19 * f9)) by (unfold within in *; cbn [half]; lia).
  cbn [mbind option_bind].
  rewrite (checked_fits W32 (19 * f9 + 2 ^ 24)) by (unfold within in *; cbn [half]; lia).
  cbn [mbind option_bind]. rewrite Z.shiftr_div_pow2 by done.
  set (q0 := (19 * f9 + 2 ^ 24) `div` 2 ^ 25).
  assert (within (2 ^ 10) q0) as Hq0.
  { subst q0. unfold within in *. Z.to_euclidean_division_equations. lia. }
  replace (Some q0) with (Some (q0 `div` weight (Z.of_nat 0))) by (by rewrite Z.div_1_r).
  rewrite (quotient_ok 10 0 l q0) by (done || by rewrite Z.div_1_r).
  change (eval_from (Z.of_nat 0) (take 10 (drop 0 l))) with (eval l).
  change (weight (Z.of_nat (0 + 10))) with (2 ^ 255). f_equal. rewrite Z.add_comm.
  eapply quotient_exact; [symmetry; apply Zplus_minus|exact Hr|by eapply within_weaken|done].
Qed.

(** [fe_tobytes] writes the canonical representative. *)
Lemma fe_tobytes_ok f v : felem 200 f v → fe_tobytes f = Some (le_bytes 32 (v `mod` p25519)).
Proof.
  intros [Hf Ev]. unfold fe_tobytes. unfold eqp in Ev. rewrite <-Ev. clear Ev v.
  apply fe_limbs in Hf as Hf'. destruct Hf' as (f0 & f1 & f2 & f3 & f4 & f5 & f6 & f7 & f8 & f9 & -> & _).
  destruct (tobytes_quotient _ _ _ _ _ _ _ _ _ _ Hf) as (Eq & Hq & H0 & HB).
  change (rd (Some <$> [f0; f1; f2; f3; f4; f5; f6; f7; f8; f9]) 9) with (Some f9).
  change (rd (Some <$> [f0; f1; f2; f3; f4; f5; f6; f7; f8; f9]) 0) with (Some f0).
  rewrite Eq. set (E := eval _) in *. set (q := E `div` p25519) in *.
  unfold imul, iadd. cbn [mbind option_bind].
  rewrite (checked_fits W32 (19 * q)) by (unfold within in *; cbn [half]; lia).
  cbn [mbind option_bind]. rewrite checked_fits by (unfold within in *; cbn [half]; lia).
  rewrite wr_some by (cbn; lia). cbn [mbind option_bind fmap list_fmap insert list_insert].
  destruct (carries_down_ok (f0 + 19 * q) [f1; f2; f3; f4; f5; f6; f7; f8; f9])
    as (d & Hd & Fd & Vd); [done|unfold within in *; lia|done|].
  cbn [fmap list_fmap] in Hd. rewrite Hd. cbn [mbind option_bind].
  rewrite fe_bytes_ok by done. do 2 f_equal. rewrite Vd.
  replace (eval (f0 + 19 * q :: _)) with (E `mod` p25519 + q * 2 ^ 255).
  - rewrite Z_mod_plus_full. apply Z.mod_small.
    pose proof (Z.mod_pos_bound E p25519 ltac:(done)). unfold p25519 in *. lia.
  - pose proof (Z_div_mod_eq_full E p25519) as D. fold q in D.
    replace (E `mod` p25519) with (E - p25519 * q) by lia. clear D. clearbody q.
    subst E. weights. unfold p25519. ring.
Qed.

(** * Decoding *)

Lemma shifted_field v a w n : 0 <= n → w + n <= 62 → 0 <= w →
  ranged (x ← Some ((v `div` 2 ^ a) `mod` 2 ^ w); Some (wrap W64 (usize (Z.shiftl x n))))
    (2 ^ n * ((v `div` 2 ^ a) `mod` 2 ^ w)) (2 ^ (w + n)).
Proof.
  intros Hn Hwn Hw. cbn [mbind option_bind]. set (x := _ `mod` _).
  assert (0 <= x < 2 ^ w) by (apply Z.mod_pos_bound, Z.pow_pos_nonneg; lia).
  assert (0 <= x * 2 ^ n < 2 ^ (w + n)).
  { rewrite Z.pow_add_r by lia. pose proof (Z.pow_pos_nonneg 2 n). nia. }
  assert (2 ^ (w + n) <= 2 ^ 62) by (apply Z.pow_le_mono_r; lia).
  rewrite Z.shiftl_mul_pow2 by done. unfold usize. rewrite Z.mod_small by lia.
  rewrite wrap_small by (unfold within; cbn [half]; lia). rewrite Z.mul_comm.
  split; [done|]. unfold within. lia.
Qed.

(** [fe_frombytes] reads the number below the top bit. *)
Lemma fe_frombytes_ok s : wf_bytes s → length s = 32%nat →
  ∃ f, fe_frombytes s = Some f ∧ felem 65 f (le_value s `mod` 2 ^ 255).
Proof.
  intros Hs Hl. unfold fe_frombytes. cbv zeta.
  rewrite !(load_4_ok s Hs), !(load_3_ok s Hs) by lia.
  replace (Some ((le_value s `div` 2 ^ (8 * Z.of_nat 29)) `mod` 2 ^ 24) &ᵢ Some 8388607)
    with (Some ((le_value s `div` 2 ^ (8 * Z.of_nat 29)) `mod` 2 ^ 23)).
  2:{ unfold iand. cbn [mbind option_bind]. change 8388607 with (Z.ones 23).
      rewrite Z.land_ones by done. f_equal. symmetry.
      pose proof (field_of_field (le_value s) (8 * Z.of_nat 29) 0 23 24) as E.
      rewrite Z.div_1_r, Z.add_0_r in E. apply E; lia. }
  fold_offsets. set (V := le_value s).
  assert (∀ h l v, Forall3 ranged h l
      [2 ^ 32; 2 ^ 30; 2 ^ 29; 2 ^ 27; 2 ^ 26; 2 ^ 32; 2 ^ 31; 2 ^ 29; 2 ^ 28; 2 ^ 25] → eval l = v →
    ∃ f, (h ← fe_carries [9; 1; 3; 5; 7; 0; 2; 4; 6; 8]%nat h; fe_store h) = Some f ∧ felem 65 f v)
    as Hcarry.
  { intros h l v Hh <-. eapply carried_ok; [exact Hh|vm_compute; reflexivity|le_bounds]. }
  eapply Hcarry; clear Hcarry.
  - repeat (apply Forall3_cons; [first [
      by apply (shifted_field V); lia|split; [reflexivity|by apply within_mod]]|]). apply Forall3_nil.
  - weights. bit_fields V 0 [32; 24; 24; 24; 24; 32; 24; 24; 24; 23].
    pose proof (div_split V 0 255 255 ltac:(done) ltac:(done) eq_refl). sum_fields V.
Qed.

(** * Predicates *)

Lemma felem_1 : felem 1 fe_1 1.
Proof. split; [|done]. repeat (apply Forall2_cons_2; [done|]). apply Forall2_nil_2. Qed.
Lemma felem_0 : felem 1 fe_0 0.
Proof. split; [|done]. repeat (apply Forall2_cons_2; [done|]). apply Forall2_nil_2. Qed.
Lemma felem_A : felem 1 fe_A 486662.
Proof. split; [|done]. repeat (apply Forall2_cons_2; [done|]). apply Forall2_nil_2. Qed.

Lemma mod_p_small u n : 32 <= n → 0 <= u `mod` p25519 < 256 ^ n.
Proof.
  intros Hn. pose proof (Z.mod_pos_bound u p25519 ltac:(done)).
  assert (256 ^ 32 <= 256 ^ n) by (apply Z.pow_le_mono_r; lia). unfold p25519 in *. lia.
Qed.
Lemma le_bytes_mod_p u v :
  le_bytes 32 (u `mod` p25519) = le_bytes 32 (v `mod` p25519) ↔ u =ₚ v.
Proof.
  split; [|intros E; by unfold eqp in E; rewrite E]. intros E%(f_equal le_value).
  rewrite !le_value_bytes in E. unfold eqp.
  rewrite !(Z.mod_small (_ `mod` p25519)) in E by (apply mod_p_small; lia). exact E.
Qed.

(** The parity of the canonical representative. *)
Lemma fe_isnegative_ok f u : felem 200 f u → fe_isnegative f = Some ((u `mod` p25519) `mod` 2).
Proof.
  intros Hf. unfold fe_isnegative. rewrite (fe_tobytes_ok f u Hf). cbn [mbind option_bind le_bytes].
  cbn [lookup list_lookup mbind option_bind]. f_equal. change 1 with (Z.ones 1) at 1.
  rewrite Z.land_ones by done. change 256 with (2 * 128). change (2 ^ 1) with 2.
  rewrite Z.rem_mul_r by done. rewrite Z.mul_comm, Z_mod_plus_full. by apply Z.mod_mod.
Qed.

#[export] Instance eqp_dec u v : Decision (u =ₚ v).
Proof. unfold eqp. apply _. Defined.

Lemma fe_isnonzero_ok f u : felem 200 f u →
  fe_isnonzero f = Some (if bool_decide (u =ₚ 0) then 0 else -1).
Proof.
  intros Hf. unfold fe_isnonzero. rewrite (fe_tobytes_ok f u Hf). cbn [mbind option_bind].
  rewrite crypto_verify_32_ok by (apply wf_le_bytes || apply length_le_bytes || apply wf_zeros || done).
  by rewrite <-(bool_decide_ext _ _ (le_bytes_mod_p u 0)).
Qed.

Lemma fe_isequal_ok c d f g u v : felem c f u → felem d g v → c + d <= 200 →
  fe_isequal f g = Some (if bool_decide (u =ₚ v) then 1 else 0).
Proof.
  intros Hf Hg Hcd. unfold fe_isequal.
  destruct (fe_sub_ok c d f g u v Hf Hg) as (h & -> & Hh); [lia|]. cbn [mbind option_bind].
  rewrite (fe_isnonzero_ok h (u - v)) by (by eapply felem_weaken). cbn [mbind option_bind].
  assert (u - v =ₚ 0 ↔ u =ₚ v) as E.
  { split; intros E.
    - replace u with ((u - v) + v) by lia. by rewrite E.
    - rewrite E. by rewrite Z.sub_diag. }
  rewrite (bool_decide_ext _ _ E). by case_bool_decide.
Qed.

(** The numbers below the prime are encoded as they are. *)
Lemma canonical_encoding s : wf_bytes s → length s = 32%nat →
  le_value s < p25519 ↔ le_bytes 32 ((le_value s `mod` 2 ^ 255) `mod` p25519) = s.
Proof.
  intros Hs Hl. pose proof (le_value_range s Hs) as Hr. split; intros E.
  - rewrite (Z.mod_small (le_value s)), Z.mod_small by (unfold p25519 in *; lia).
    rewrite <-Hl at 1. by apply le_bytes_value.
  - apply (f_equal le_value) in E. rewrite le_value_bytes in E.
    rewrite (Z.mod_small (_ `mod` p25519)) in E by (apply mod_p_small; lia).
    pose proof (Z.mod_pos_bound (le_value s `mod` 2 ^ 255) p25519 ltac:(done)). lia.
Qed.

(** [fe_isreduced] accepts exactly the canonical encodings. *)
Lemma fe_isreduced_ok s : wf_bytes s → length s = 32%nat →
  fe_isreduced s = Some (if bool_decide (le_value s < p25519) then 1 else 0).
Proof.
  intros Hs Hl. unfold fe_isreduced. destruct (fe_frombytes_ok s Hs Hl) as (f & -> & Hf).
  cbn [mbind option_bind]. rewrite (fe_tobytes_ok f _ (felem_weaken 65 200 _ _ Hf ltac:(done))).
  cbn [mbind option_bind].
  rewrite crypto_verify_32_ok by (apply wf_le_bytes || apply length_le_bytes || done).
  cbn [mbind option_bind]. f_equal.
  rewrite (bool_decide_ext _ _ (canonical_encoding s Hs Hl)).
  by destruct (decide (le_bytes 32 ((le_value s `mod` 2 ^ 255) `mod` p25519) = s)) as [E|E];
    [rewrite (bool_decide_true _ E)|rewrite (bool_decide_false _ E)].
Qed.

(** * Powers *)

Section Powers.
Context (u : Z).

(** [f] stands for a power of [u]. *)
Definition power_of (c : Z) (f : fe) (e : Z) : Prop := felem c f (u ^ e) ∧ 0 <= e.

Lemma fe_sq_power f e : power_of 211 f e → ∃ h, fe_sq f = Some h ∧ power_of 65 h (2 * e).
Proof.
  intros [Hf He]. destruct (fe_sq_ok f _ Hf) as (h & -> & Hh). exists h. split; [done|].
  split; [|lia]. replace (2 * e) with (e + e) by lia. by rewrite Z.pow_add_r.
Qed.
Lemma fe_mul_power f g c d a b : power_of c f a → power_of d g b → c <= 211 → d <= 211 →
  ∃ h, fe_mul f g = Some h ∧ power_of 65 h (a + b).
Proof.
  intros [Hf Ha] [Hg Hb] Hc Hd.
  destruct (fe_mul_ok f g _ _ (felem_weaken _ _ _ _ Hf Hc) (felem_weaken _ _ _ _ Hg Hd)) as (h & -> & Hh).
  exists h. split; [done|]. split; [|lia]. by rewrite Z.pow_add_r.
Qed.
Lemma fe_sqn_power n f c e : power_of c f e → c <= 211 →
  ∃ h, fe_sqn (S n) f = Some h ∧ power_of 65 h (2 ^ Z.of_nat (S n) * e).
Proof.
  revert f c e. induction n as [|n IH]; intros f c e [Hf He] Hc.
  - destruct (fe_sq_power f e) as (h & Hh & P); [by split; [eapply felem_weaken|]|].
    exists h. split; [cbn [fe_sqn]; by rewrite Hh|exact P].
  - destruct (fe_sq_power f e) as (h & Hh & P); [by split; [eapply felem_weaken|]|].
    destruct (IH h 65 _ P) as (h' & Hh' & P'); [done|]. exists h'. split.
    + change (fe_sqn (S (S n)) f) with (f ← fe_sq f; fe_sqn (S n) f). by rewrite Hh.
    + replace (2 ^ Z.of_nat (S (S n)) * e) with (2 ^ Z.of_nat (S n) * (2 * e)); [exact P'|].
      rewrite (Nat2Z.inj_succ (S n)), Z.pow_succ_r by lia. ring.
Qed.
End Powers.

(** Follow a chain of squarings and products. *)
Ltac power_step :=
  let P := fresh "P" in let t := fresh "t" in
  lazymatch goal with
  | Pf : power_of ?u ?c ?f ?e |- ∃ h, (fe_sqn (S ?n) ?f ≫= ?k) = Some h ∧ _ =>
    destruct (fe_sqn_power u n f c e Pf ltac:(done)) as (t & -> & P); cbn [mbind option_bind]
  | Pf : power_of ?u ?c ?f ?a, Pg : power_of ?u ?d ?g ?b
    |- ∃ h, (fe_mul ?f ?g ≫= ?k) = Some h ∧ _ =>
    destruct (fe_mul_power u f g c d a b Pf Pg ltac:(done) ltac:(done)) as (t & -> & P);
    cbn [mbind option_bind]
  | Pf : power_of ?u ?c ?f ?a, Pg : power_of ?u ?d ?g ?b |- ∃ h, fe_mul ?f ?g = Some h ∧ _ =>
    destruct (fe_mul_power u f g c d a b Pf Pg ltac:(done) ltac:(done)) as (t & -> & P);
    exists t; split; [done|]
  end.

Lemma fe_invert_ok f u : felem 211 f u →
  ∃ h, fe_invert f = Some h ∧ felem 65 h (u ^ (p25519 - 2)).
Proof.
  intros Hf. assert (power_of u 211 f 1) as P0 by (split; [by rewrite Z.pow_1_r|done]).
  unfold fe_invert. repeat power_step.
  lazymatch goal with P : power_of _ 65 ?t ?e |- felem _ ?t _ =>
    replace (p25519 - 2) with e by (vm_compute; reflexivity); apply P end.
Qed.
Lemma fe_pow22523_ok f u : felem 211 f u →
  ∃ h, fe_pow22523 f = Some h ∧ felem 65 h (u ^ (2 ^ 252 - 3)).
Proof.
  intros Hf. assert (power_of u 211 f 1) as P0 by (split; [by rewrite Z.pow_1_r|done]).
  unfold fe_pow22523. repeat power_step.
  lazymatch goal with P : power_of _ 65 ?t ?e |- felem _ ?t _ =>
    replace (2 ^ 252 - 3) with e by (vm_compute; reflexivity); apply P end.
Qed.

(** * Montgomery coordinates *)

Lemma fe_montx_to_edy_ok f u : felem 128 f u →
  ∃ h, fe_montx_to_edy f = Some h ∧ felem 65 h ((u - 1) * (u + 1) ^ (p25519 - 2)).
Proof.
  intros Hf. unfold fe_montx_to_edy.
  destruct (fe_sub_ok 128 1 f fe_1 u 1 Hf felem_1) as (um1 & -> & H1); [done|].
  cbn [mbind option_bind].
  destruct (fe_add_ok 128 1 f fe_1 u 1 Hf felem_1) as (up1 & -> & H2); [done|].
  cbn [mbind option_bind].
  destruct (fe_invert_ok up1 (u + 1)) as (i & -> & H3); [by eapply felem_weaken|].
  cbn [mbind option_bind]. apply fe_mul_ok; by eapply felem_weaken.
Qed.

Lemma fe_mont_rhs_ok f u : felem 211 f u →
  ∃ h, fe_mont_rhs f = Some h ∧ felem 65 h (u * (u * u + 486662 * u + 1)).
Proof.
  intros Hf. unfold fe_mont_rhs.
  destruct (fe_sq_ok f u Hf) as (u2 & -> & H1). cbn [mbind option_bind].
  destruct (fe_mul_ok fe_A f 486662 u (felem_weaken 1 211 _ _ felem_A ltac:(done)) Hf) as (Au & -> & H2).
  cbn [mbind option_bind].
  destruct (fe_add_ok _ _ _ _ _ _ H1 H2) as (i1 & -> & H3); [done|]. cbn [mbind option_bind].
  destruct (fe_add_ok _ _ _ _ _ _ H3 felem_1) as (i2 & -> & H4); [done|]. cbn [mbind option_bind].
  apply fe_mul_ok; by eapply felem_weaken.
Qed.

(** * The field operations *)


(** Limbs at the edge of a bound. *)
Definition edge (c : Z) : fe := (λ b, b - 1) <$> fe_bound c.
Ltac at_edge :=
  split; [unfold edge, fe_bound; cbn [fmap list_fmap];
    repeat (apply Forall2_cons_2; [split; lia|]); apply Forall2_nil_2|exact eq_refl].


(** reading 32 bytes and writing them again gives the canonical encoding of the
    number below the top bit; [fe_isreduced] accepts exactly the bytes that come
    back unchanged. *)
Theorem ed25519_encoding (s : bytes) :
  wf_bytes s → length s = 32%nat →
  ∃ f, fe_frombytes s = Some f ∧
    fe_tobytes f = Some (le_bytes 32 ((le_value s `mod` 2 ^ 255) `mod` p25519)) ∧
    (fe_isreduced s = Some 1 ↔ fe_tobytes f = Some s) ∧
    (fe_isreduced s = Some 1 ↔ le_value s < p25519).
Proof.
  intros Hs Hl. destruct (fe_frombytes_ok s Hs Hl) as (f & Hf & Ff). exists f.
  assert (fe_tobytes f = Some (le_bytes 32 ((le_value s `mod` 2 ^ 255) `mod` p25519))) as Ht
    by (apply fe_tobytes_ok; by eapply felem_weaken).
  assert (fe_isreduced s = Some 1 ↔ le_value s < p25519) as Hr.
  { rewrite fe_isreduced_ok by done. by case_bool_decide. }
  split_and!; [done|done| |done]. rewrite Hr, Ht, (canonical_encoding s Hs Hl).
  generalize (le_bytes 32 ((le_value s `mod` 2 ^ 255) `mod` p25519)). intros b.
  split; [by intros ->|by intros [= ->]].
Qed.

Lemma ed25519_encoding_witness :
  ∃ f, fe_frombytes (9 :: replicate 31 0) = Some f ∧ fe_tobytes f = Some (9 :: replicate 31 0).
Proof.
  destruct (ed25519_encoding (9 :: replicate 31 0)) as (f & Hf & _ & H & Hr);
    [concrete_bytes|reflexivity|].
  exists f. split; [exact Hf|]. apply H, Hr. vm_compute. reflexivity.
Defined.
