(* ===== verification/Sha512.v ===== *)
(** SHA-512: nacl_sha512/blocks.c and nacl_sha512/hash.c.

    All arithmetic is on [uint64] and wraps.  The variables [a] to [h] are a list
    of eight words, [w0] to [w15] a list of sixteen; [None] is a read outside a
    buffer. *)

From S2P Require Import Prelude Limbs.

(** * blocks.c *)

Definition load_bigendian (x : bytes) (off : nat) : option Z :=
  x0 ← x !! (off + 0)%nat; x1 ← x !! (off + 1)%nat; x2 ← x !! (off + 2)%nat;
  x3 ← x !! (off + 3)%nat; x4 ← x !! (off + 4)%nat; x5 ← x !! (off + 5)%nat;
  x6 ← x !! (off + 6)%nat; x7 ← x !! (off + 7)%nat;
  let shl b n := usize (Z.shiftl b n) in
  Some (Z.lor (Z.lor (Z.lor (Z.lor (Z.lor (Z.lor (Z.lor x7
    (shl x6 8)) (shl x5 16)) (shl x4 24)) (shl x3 32)) (shl x2 40)) (shl x1 48)) (shl x0 56)).

(** The bytes [x[0]] to [x[7]]. *)
Definition store_bigendian (u : Z) : bytes :=
  [u8 (Z.shiftr u 56); u8 (Z.shiftr u 48); u8 (Z.shiftr u 40); u8 (Z.shiftr u 32);
   u8 (Z.shiftr u 24); u8 (Z.shiftr u 16); u8 (Z.shiftr u 8); u8 u].

Definition SHR (x c : Z) : Z := Z.shiftr x c.
Definition ROTR (x c : Z) : Z := Z.lor (Z.shiftr x c) (usize (Z.shiftl x (64 - c))).
Definition Ch (x y z : Z) : Z := Z.lxor (Z.land x y) (Z.land (usize (Z.lnot x)) z).
Definition Maj (x y z : Z) : Z := Z.lxor (Z.lxor (Z.land x y) (Z.land x z)) (Z.land y z).
Definition Sigma0 (x : Z) : Z := Z.lxor (Z.lxor (ROTR x 28) (ROTR x 34)) (ROTR x 39).
Definition Sigma1 (x : Z) : Z := Z.lxor (Z.lxor (ROTR x 14) (ROTR x 18)) (ROTR x 41).
Definition sigma0 (x : Z) : Z := Z.lxor (Z.lxor (ROTR x 1) (ROTR x 8)) (SHR x 7).
Definition sigma1 (x : Z) : Z := Z.lxor (Z.lxor (ROTR x 19) (ROTR x 61)) (SHR x 6).
Definition add64 (x y : Z) : Z := usize (x + y).
Infix "+₆₄" := add64 (at level 50, left associativity).

(** [M(w0,w14,w9,w1)], with the first word at [i] and the others after it,
    around the sixteen. *)
Definition sha_M (i : nat) (w : list Z) : option (list Z) :=
  w0 ← w !! i; w14 ← w !! ((i + 14) mod 16)%nat;
  w9 ← w !! ((i + 9) mod 16)%nat; w1 ← w !! ((i + 1) mod 16)%nat;
  Some (<[i := sigma1 w14 +₆₄ w9 +₆₄ sigma0 w1 +₆₄ w0]> w).
Definition EXPAND (w : list Z) : option (list Z) :=
  for_each sha_M (seq 0 16) w.

Record sha_vars := ShaVars { va : Z; vb : Z; vc : Z; vd : Z; ve : Z; vf : Z; vg : Z; vh : Z }.

(** [F(w,k)] *)
Definition sha_F (v : sha_vars) (w k : Z) : sha_vars :=
  let T1 := vh v +₆₄ Sigma1 (ve v) +₆₄ Ch (ve v) (vf v) (vg v) +₆₄ k +₆₄ w in
  let T2 := Sigma0 (va v) +₆₄ Maj (va v) (vb v) (vc v) in
  {| vh := vg v; vg := vf v; vf := ve v; ve := vd v +₆₄ T1;
     vd := vc v; vc := vb v; vb := va v; va := T1 +₆₄ T2 |}.

(** The constants in the order of the rounds. *)
Definition sha_K : list Z :=
  [0x428a2f98d728ae22; 0x7137449123ef65cd; 0xb5c0fbcfec4d3b2f; 0xe9b5dba58189dbbc;
   0x3956c25bf348b538; 0x59f111f1b605d019; 0x923f82a4af194f9b; 0xab1c5ed5da6d8118;
   0xd807aa98a3030242; 0x12835b0145706fbe; 0x243185be4ee4b28c; 0x550c7dc3d5ffb4e2;
   0x72be5d74f27b896f; 0x80deb1fe3b1696b1; 0x9bdc06a725c71235; 0xc19bf174cf692694;
   0xe49b69c19ef14ad2; 0xefbe4786384f25e3; 0x0fc19dc68b8cd5b5; 0x240ca1cc77ac9c65;
   0x2de92c6f592b0275; 0x4a7484aa6ea6e483; 0x5cb0a9dcbd41fbd4; 0x76f988da831153b5;
   0x983e5152ee66dfab; 0xa831c66d2db43210; 0xb00327c898fb213f; 0xbf597fc7beef0ee4;
   0xc6e00bf33da88fc2; 0xd5a79147930aa725; 0x06ca6351e003826f; 0x142929670a0e6e70;
   0x27b70a8546d22ffc; 0x2e1b21385c26c926; 0x4d2c6dfc5ac42aed; 0x53380d139d95b3df;
   0x650a73548baf63de; 0x766a0abb3c77b2a8; 0x81c2c92e47edaee6; 0x92722c851482353b;
   0xa2bfe8a14cf10364; 0xa81a664bbc423001; 0xc24b8b70d0f89791; 0xc76c51a30654be30;
   0xd192e819d6ef5218; 0xd69906245565a910; 0xf40e35855771202a; 0x106aa07032bbd1b8;
   0x19a4c116b8d2d0c8; 0x1e376c085141ab53; 0x2748774cdf8eeb99; 0x34b0bcb5e19b48a8;
   0x391c0cb3c5c95a63; 0x4ed8aa4ae3418acb; 0x5b9cca4f7763e373; 0x682e6ff3d6b2b8a3;
   0x748f82ee5defb2fc; 0x78a5636f43172f60; 0x84c87814a1f0ab72; 0x8cc702081a6439ec;
   0x90befffa23631e28; 0xa4506cebde82bde9; 0xbef9a3f7b2c67915; 0xc67178f2e372532b;
   0xca273eceea26619c; 0xd186b8c721c0c207; 0xeada7dd6cde0eb1e; 0xf57d4f7fee6ed178;
   0x06f067aa72176fba; 0x0a637dc5a2c898a6; 0x113f9804bef90dae; 0x1b710b35131c471b;
   0x28db77f523047d84; 0x32caab7b40c72493; 0x3c9ebe0a15c9bebc; 0x431d67c49c100d4c;
   0x4cc5d4becb3e42b6; 0x597f299cfc657e2a; 0x5fcb6fab3ad6faec; 0x6c44198c4a475817].

(** Sixteen rounds with the words and the constants from [i] on. *)
Definition sha_rounds (i : nat) (w : list Z) (v : sha_vars) : option sha_vars :=
  for_each (λ j v, wj ← w !! j; k ← sha_K !! (i + j)%nat; Some (sha_F v wj k)) (seq 0 16) v.

(** One round of the [while] loop. *)
Definition sha_block (state : sha_vars) (input : bytes) : option sha_vars :=
  w ← mapM (λ i, load_bigendian input (8 * i)) (seq 0 16);
  v ← sha_rounds 0 w state;
  w ← EXPAND w; v ← sha_rounds 16 w v;
  w ← EXPAND w; v ← sha_rounds 32 w v;
  w ← EXPAND w; v ← sha_rounds 48 w v;
  w ← EXPAND w; v ← sha_rounds 64 w v;
  Some {| va := va v +₆₄ va state; vb := vb v +₆₄ vb state; vc := vc v +₆₄ vc state;
          vd := vd v +₆₄ vd state; ve := ve v +₆₄ ve state; vf := vf v +₆₄ vf state;
          vg := vg v +₆₄ vg state; vh := vh v +₆₄ vh state |}.

(** [while (inlen >= 128)]: [n] is the number of rounds, [inlen / 128]. *)
Fixpoint sha_while (n : nat) (state : sha_vars) (input : bytes) : option sha_vars :=
  match n with
  | O => Some state
  | S n => state ← sha_block state input; sha_while n state (drop 128 input)
  end.

Definition load_state (statebytes : bytes) : option sha_vars :=
  a ← load_bigendian statebytes 0; b ← load_bigendian statebytes 8;
  c ← load_bigendian statebytes 16; d ← load_bigendian statebytes 24;
  e ← load_bigendian statebytes 32; f ← load_bigendian statebytes 40;
  g ← load_bigendian statebytes 48; h ← load_bigendian statebytes 56;
  Some (ShaVars a b c d e f g h).
Definition store_state (v : sha_vars) : bytes :=
  store_bigendian (va v) ++ store_bigendian (vb v) ++ store_bigendian (vc v) ++
  store_bigendian (vd v) ++ store_bigendian (ve v) ++ store_bigendian (vf v) ++
  store_bigendian (vg v) ++ store_bigendian (vh v).
Definition crypto_hashblocks_sha512 (statebytes input : bytes) (inlen : nat) : option bytes :=
  state ← load_state statebytes;
  state ← sha_while (inlen / 128) state input;
  Some (store_state state).

(** * hash.c *)

Definition sha_iv : bytes :=
  [0x6a; 0x09; 0xe6; 0x67; 0xf3; 0xbc; 0xc9; 0x08; 0xbb; 0x67; 0xae; 0x85; 0x84; 0xca; 0xa7; 0x3b;
   0x3c; 0x6e; 0xf3; 0x72; 0xfe; 0x94; 0xf8; 0x2b; 0xa5; 0x4f; 0xf5; 0x3a; 0x5f; 0x1d; 0x36; 0xf1;
   0x51; 0x0e; 0x52; 0x7f; 0xad; 0xe6; 0x82; 0xd1; 0x9b; 0x05; 0x68; 0x8c; 0x2b; 0x3e; 0x6c; 0x1f;
   0x1f; 0x83; 0xd9; 0xab; 0xfb; 0x41; 0xbd; 0x6b; 0x5b; 0xe0; 0xcd; 0x19; 0x13; 0x7e; 0x21; 0x79].

(** The nine bytes that end the padding. *)
Definition sha_length (n : Z) : bytes :=
  [u8 (Z.shiftr n 61); u8 (Z.shiftr n 53); u8 (Z.shiftr n 45); u8 (Z.shiftr n 37);
   u8 (Z.shiftr n 29); u8 (Z.shiftr n 21); u8 (Z.shiftr n 13); u8 (Z.shiftr n 5);
   u8 (Z.shiftl n 3)].
(** [padded] is written from its first byte to its last. *)
Definition crypto_hash_sha512 (input : bytes) : option bytes :=
  let n := length input in
  h ← crypto_hashblocks_sha512 sha_iv input n;
  let inlen := Z.to_nat (Z.land (Z.of_nat n) 127) in
  let tail := drop (n - inlen) input in
  if (inlen <? 112)%nat then
    crypto_hashblocks_sha512 h
      (tail ++ [0x80] ++ replicate (119 - (inlen + 1)) 0 ++ sha_length (Z.of_nat n)) 128
  else
    crypto_hashblocks_sha512 h
      (tail ++ [0x80] ++ replicate (247 - (inlen + 1)) 0 ++ sha_length (Z.of_nat n)) 256.
