(* ===== verification/Sha512Spec.v ===== *)
(** SHA-512 as FIPS 180-4 defines it, and that nacl_sha512 computes it.

    The standard's message schedule is a list of eighty words that grows by its
    recurrence; the code keeps a window of sixteen words and overwrites it four
    times.  The standard pads the whole message; the code hashes the full blocks
    of the input in place and builds only the last one or two. *)

From S2P Require Import Prelude Limbs DonnaBytes ScalarSpec Sha512.

(** * FIPS 180-4 *)

Definition is_word (x : Z) : Prop := 0 <= x < 2 ^ 64.
Definition be_value (bs : bytes) : Z := le_value (rev bs).
Definition be_bytes (n : nat) (z : Z) : bytes := rev (le_bytes n z).

(** Section 3.2 and 4.1.3. *)
Definition fips_rotr (n x : Z) : Z := x `div` 2 ^ n + (x `mod` 2 ^ n) * 2 ^ (64 - n).
Definition fips_shr (n x : Z) : Z := x `div` 2 ^ n.
Definition fips_ch (x y z : Z) : Z := Z.lxor (Z.land x y) (Z.land (2 ^ 64 - 1 - x) z).
Definition fips_maj (x y z : Z) : Z := Z.lxor (Z.lxor (Z.land x y) (Z.land x z)) (Z.land y z).
Definition fips_Sigma0 (x : Z) : Z := Z.lxor (Z.lxor (fips_rotr 28 x) (fips_rotr 34 x)) (fips_rotr 39 x).
Definition fips_Sigma1 (x : Z) : Z := Z.lxor (Z.lxor (fips_rotr 14 x) (fips_rotr 18 x)) (fips_rotr 41 x).
Definition fips_sigma0 (x : Z) : Z := Z.lxor (Z.lxor (fips_rotr 1 x) (fips_rotr 8 x)) (fips_shr 7 x).
Definition fips_sigma1 (x : Z) : Z := Z.lxor (Z.lxor (fips_rotr 19 x) (fips_rotr 61 x)) (fips_shr 6 x).

(** Section 4.2.3 and 5.3.5: the constants are the first sixty-four bits of the
    fractional parts of the roots of the first primes, here as a test of a given
    word [k]: [c + k / 2^64] is the root of [p] cut off after sixty-four bits. *)
Definition first_primes : list Z :=
  filter (λ p, forallb (λ q, negb (p `mod` q =? 0)) (seqZ 2 (p - 2)) = true) (seqZ 2 408).
Definition root_fraction (e p k : Z) : bool :=
  existsb (λ c, let r := c * 2 ^ 64 + k in
    (r ^ e <=? p * 2 ^ (64 * e)) && (p * 2 ^ (64 * e) <? (r + 1) ^ e)) (seqZ 0 8).

(** Section 5.1.2: [1], as many zeros as lead to 896 bits modulo 1024, and the
    length in bits as a number of 128 bits. *)
Definition fips_pad (m : bytes) : bytes :=
  m ++ [0x80] ++ replicate (Z.to_nat ((111 - zlen m) `mod` 128)) 0 ++ be_bytes 16 (8 * zlen m).

(** Section 6.4.2. *)
Definition schedule_word (w : list Z) : Z :=
  let t := length w in
  usize (fips_sigma1 (w !!! (t - 2)%nat) + w !!! (t - 7)%nat +
         fips_sigma0 (w !!! (t - 15)%nat) + w !!! (t - 16)%nat).
Definition block_words (block : bytes) : list Z :=
  (λ i, be_value (take 8 (drop (8 * i) block))) <$> seq 0 16.
Definition schedule (block : bytes) : list Z :=
  Nat.iter 64 (λ w, w ++ [schedule_word w]) (block_words block).
Definition fips_round (K W : list Z) (v : sha_vars) (t : nat) : sha_vars :=
  let 'ShaVars a b c d e f g h := v in
  let T1 := h + fips_Sigma1 e + fips_ch e f g + K !!! t + W !!! t in
  let T2 := fips_Sigma0 a + fips_maj a b c in
  ShaVars (usize (T1 + T2)) a b c (usize (d + T1)) e f g.
Definition fips_compress (K : list Z) (H : sha_vars) (block : bytes) : sha_vars :=
  let 'ShaVars a b c d e f g h := foldl (fips_round K (schedule block)) H (seq 0 80) in
  let 'ShaVars a' b' c' d' e' f' g' h' := H in
  ShaVars (usize (a + a')) (usize (b + b')) (usize (c + c')) (usize (d + d'))
    (usize (e + e')) (usize (f + f')) (usize (g + g')) (usize (h + h')).

Definition blocks_of (m : bytes) : list bytes :=
  (λ i, take 128 (drop (128 * i) m)) <$> seq 0 (length m / 128).
Definition vars_list (v : sha_vars) : list Z :=
  [va v; vb v; vc v; vd v; ve v; vf v; vg v; vh v].
Definition fips_sha512 (K : list Z) (IV : sha_vars) (m : bytes) : bytes :=
  mjoin (be_bytes 8 <$> vars_list (foldl (fips_compress K) IV (blocks_of (fips_pad m)))).

(** The initial hash value, from the bytes of hash.c. *)
Definition sha_H0 : sha_vars :=
  ShaVars 0x6a09e667f3bcc908 0xbb67ae8584caa73b 0x3c6ef372fe94f82b 0xa54ff53a5f1d36f1
    0x510e527fade682d1 0x9b05688c2b3e6c1f 0x1f83d9abfb41bd6b 0x5be0cd19137e2179.
Definition sha512 (m : bytes) : bytes := fips_sha512 sha_K sha_H0 m.

(** * The constants *)

Lemma sha_constants :
  Forall2 (λ p k, root_fraction 3 p k = true) first_primes sha_K ∧
  Forall2 (λ p k, root_fraction 2 p k = true) (take 8 first_primes) (vars_list sha_H0).
Proof.
  assert (first_primes =
    [2;3;5;7;11;13;17;19;23;29;31;37;41;43;47;53;59;61;67;71;73;79;83;89;97;101;103;107;109;113;
     127;131;137;139;149;151;157;163;167;173;179;181;191;193;197;199;211;223;227;229;233;239;241;
     251;257;263;269;271;277;281;283;293;307;311;313;317;331;337;347;349;353;359;367;373;379;383;
     389;397;401;409]) as -> by (vm_compute; reflexivity).
  split; repeat constructor.
Qed.

(** * Words *)

Lemma is_word_usize x : is_word (usize x).
Proof. unfold is_word, usize. by apply Z.mod_pos_bound. Qed.

Lemma usize_usize_l x y : usize (usize x + y) = usize (x + y).
Proof. unfold usize. by rewrite Zplus_mod_idemp_l. Qed.
Lemma usize_usize_r x y : usize (x + usize y) = usize (x + y).
Proof. unfold usize. by rewrite Zplus_mod_idemp_r. Qed.
Lemma usize_usize_m x y z : usize (x + (usize y + z)) = usize (x + (y + z)).
Proof. by rewrite Z.add_comm, <- Z.add_assoc, usize_usize_l, Z.add_assoc, (Z.add_comm _ x). Qed.
(** Intermediate reductions of a sum do not matter. *)
Ltac usize_sum :=
  repeat first [rewrite usize_usize_l | rewrite usize_usize_r | rewrite usize_usize_m
               | rewrite <- Z.add_assoc]; f_equal; ring.
Lemma usize_word x : is_word x → usize x = x.
Proof. apply Z.mod_small. Qed.

Lemma ROTR_spec x c : is_word x → 0 < c < 64 → ROTR x c = fips_rotr c x.
Proof.
  unfold is_word, ROTR, fips_rotr, usize. intros Hx Hc.
  rewrite Z.shiftr_div_pow2, Z.shiftl_mul_pow2 by lia.
  assert (2 ^ 64 = 2 ^ (64 - c) * 2 ^ c) as E by (rewrite <- Z.pow_add_r by lia; f_equal; lia).
  pose proof (Z.pow_pos_nonneg 2 c). pose proof (Z.pow_pos_nonneg 2 (64 - c)).
  rewrite E at 1. rewrite (Z.mul_comm (2 ^ (64 - c))), Zmult_mod_distr_r.
  apply lor_add; [lia|]. split; [apply Z.div_pos; lia|].
  apply Z.div_lt_upper_bound; [lia|]. rewrite Z.mul_comm, <- E. lia.
Qed.
Lemma SHR_spec x c : 0 <= c → SHR x c = fips_shr c x.
Proof. intros. unfold SHR. by apply Z.shiftr_div_pow2. Qed.
Lemma Ch_spec x y z : is_word x → Ch x y z = fips_ch x y z.
Proof.
  unfold is_word, Ch, fips_ch. intros Hx. do 2 f_equal. unfold usize, Z.lnot.
  replace (Z.pred (- x)) with (2 ^ 64 - 1 - x + (-1) * 2 ^ 64) by lia.
  rewrite Z_mod_plus_full. apply Z.mod_small. lia.
Qed.
Lemma Sigma_spec x : is_word x →
  Sigma0 x = fips_Sigma0 x ∧ Sigma1 x = fips_Sigma1 x ∧
  sigma0 x = fips_sigma0 x ∧ sigma1 x = fips_sigma1 x.
Proof.
  intros Hx. unfold Sigma0, Sigma1, sigma0, sigma1.
  rewrite !ROTR_spec, !SHR_spec by (done || lia). done.
Qed.

(** * Bytes and words *)

Lemma word_bytes x0 x1 x2 x3 x4 x5 x6 x7 :
  wf_bytes [x0; x1; x2; x3; x4; x5; x6; x7] →
  load_bigendian [x0; x1; x2; x3; x4; x5; x6; x7] 0 = Some (be_value [x0; x1; x2; x3; x4; x5; x6; x7]).
Proof.
  unfold wf_bytes, is_byte. rewrite !Forall_cons. intros (?&?&?&?&?&?&?&?&_).
  unfold load_bigendian, be_value. cbn [lookup list_lookup Nat.add mbind option_bind rev app le_value].
  assert (∀ b k, 0 <= b < 256 → 0 <= k <= 56 → usize (Z.shiftl b k) = b * 2 ^ k) as Hs.
  { intros b k Hb Hk. rewrite Z.shiftl_mul_pow2 by lia. apply Z.mod_small.
    assert (2 ^ k <= 2 ^ 56) by (apply Z.pow_le_mono_r; lia). pose proof (Z.pow_pos_nonneg 2 k).
    change (2 ^ 64) with (256 * 2 ^ 56). nia. }
  rewrite !Hs by (done || lia). f_equal. rewrite (lor_add x7), !(lor_add (_ + _)) by lia. ring.
Qed.

Lemma load_bigendian_drop x off : load_bigendian x off = load_bigendian (take 8 (drop off x)) 0.
Proof.
  unfold load_bigendian. rewrite !lookup_take_lt, !lookup_drop by lia. by rewrite !Nat.add_0_l.
Qed.

Lemma load_bigendian_spec x off : wf_bytes x → (off + 8 <= length x)%nat →
  load_bigendian x off = Some (be_value (take 8 (drop off x))).
Proof.
  intros Hx Hl. rewrite load_bigendian_drop.
  assert (wf_bytes (take 8 (drop off x))) as Hw by (by apply wf_bytes_take, wf_bytes_drop).
  assert (length (take 8 (drop off x)) = 8%nat) as L by (rewrite length_take, length_drop; lia).
  revert Hw L. generalize (take 8 (drop off x)).
  intros [|x0 [|x1 [|x2 [|x3 [|x4 [|x5 [|x6 [|x7 [|]]]]]]]]] Hw L; try done. by apply word_bytes.
Qed.

Lemma be_value_word bs : wf_bytes bs → length bs = 8%nat → is_word (be_value bs).
Proof.
  intros Hb Hl. unfold be_value, is_word.
  assert (wf_bytes (rev bs)) as Hw by (by apply Forall_rev).
  pose proof (le_value_range _ Hw) as H. unfold zlen in H. rewrite length_rev, Hl in H. exact H.
Qed.

Lemma store_bigendian_spec u : store_bigendian u = be_bytes 8 u.
Proof.
  unfold store_bigendian, be_bytes. cbn [le_bytes rev app]. unfold u8.
  rewrite !Z.shiftr_div_pow2 by lia. rewrite !Z.div_div by lia. done.
Qed.
Lemma be_value_bytes n z : be_value (be_bytes n z) = z `mod` 256 ^ Z.of_nat n.
Proof. unfold be_value, be_bytes. by rewrite rev_involutive, le_value_bytes. Qed.
Lemma length_be_bytes n z : length (be_bytes n z) = n.
Proof. unfold be_bytes. by rewrite length_rev, length_le_bytes. Qed.
Lemma wf_be_bytes n z : wf_bytes (be_bytes n z).
Proof. apply Forall_rev, wf_le_bytes. Qed.

(** * The message schedule *)

Definition sched_at (w : list Z) (t : nat) : Z :=
  usize (fips_sigma1 (w !!! (t - 2)%nat) + w !!! (t - 7)%nat +
         fips_sigma0 (w !!! (t - 15)%nat) + w !!! (t - 16)%nat).

Lemma schedule_grow n w s : (16 <= length w)%nat →
  s = Nat.iter n (λ w, w ++ [schedule_word w]) w →
  length s = (length w + n)%nat ∧ take (length w) s = w ∧
  ∀ t, (length w <= t < length w + n)%nat → s !!! t = sched_at s t.
Proof.
  intros Hw. revert s. induction n as [|n IH]; intros s'.
  - intros ->. change (Nat.iter 0 _ w) with w. split_and!; [lia|by apply take_ge|intros t Ht; exfalso; lia].
  - rewrite Nat.iter_succ. destruct (IH _ eq_refl) as (L & T & H). revert L T H.
    generalize (Nat.iter n (λ w, w ++ [schedule_word w]) w). intros s L T H ->.
    rewrite length_app, take_app_le by lia. split_and!; [cbn; lia|done|]. intros t Ht.
    unfold sched_at. destruct (decide (t = length s)) as [->|Ht'].
    + rewrite lookup_total_app_r, Nat.sub_diag by lia. cbn [lookup_total list_lookup_total].
      unfold schedule_word. by rewrite !lookup_total_app_l by lia.
    + rewrite !lookup_total_app_l by lia. apply H. lia.
Qed.

(** The window after [g] expansions, with the words below [i] of the next one. *)
Definition window (S : list Z) (g i : nat) (w : list Z) : Prop :=
  length w = 16%nat ∧
  ∀ j, (j < 16)%nat → w !! j = Some (S !!! (16 * g + j + (if (j <? i)%nat then 16 else 0))%nat).

Section Window.
Context (S : list Z) (HS : Forall is_word S) (HL : length S = 80%nat).
Context (Hrec : ∀ t, (16 <= t < 80)%nat → S !!! t = sched_at S t).

Lemma schedule_is_word t : (t < 80)%nat → is_word (S !!! t).
Proof.
  intros Ht. apply (Forall_lookup_total_1 _ _ _ HS). lia.
Qed.

Lemma window_at g i j w : window S g i w → (j < 16)%nat →
  w !! j = Some (S !!! (16 * g + j + (if (j <? i)%nat then 16 else 0))%nat).
Proof. intros [_ H]. apply H. Qed.

(** The word at distance [d] from the first. *)
Lemma window_dist g i d w : window S g i w → (i < 16)%nat → (d < 16)%nat →
  w !! ((i + d) mod 16)%nat = Some (S !!! (16 * g + i + d)%nat).
Proof.
  intros Hw Hi Hd. destruct (decide (i + d < 16)%nat) as [Hs|Hs].
  - rewrite Nat.mod_small by done. rewrite (window_at _ _ _ _ Hw) by done. do 2 f_equal.
    rewrite (proj2 (Nat.ltb_ge _ _)) by lia. lia.
  - replace ((i + d) mod 16)%nat with (i + d - 16)%nat.
    2: { replace (i + d)%nat with (i + d - 16 + 1 * 16)%nat at 2 by lia.
         rewrite Nat.Div0.mod_add. rewrite Nat.mod_small; lia. }
    rewrite (window_at _ _ _ _ Hw) by lia. do 2 f_equal.
    rewrite (proj2 (Nat.ltb_lt _ _)) by lia. lia.
Qed.

Lemma sha_M_ok g i w : (g < 4)%nat → (i < 16)%nat → window S g i w →
  runs (sha_M i w) (window S g (Datatypes.S i)).
Proof.
  intros Hg Hi Hw. unfold sha_M. pose proof (window_dist _ _ 0 _ Hw Hi) as E0.
  rewrite !Nat.add_0_r, Nat.mod_small in E0 by lia. rewrite E0 by lia.
  rewrite !(window_dist _ _ _ _ Hw Hi) by lia. cbn [mbind option_bind]. apply runs_some.
  set (x := _ +₆₄ _). assert (x = S !!! (16 * g + i + 16)%nat) as Ex.
  { rewrite Hrec by lia. unfold x, sched_at, add64.
    destruct (Sigma_spec (S !!! (16 * g + i + 14)%nat)) as (_ & _ & _ & ->); [apply schedule_is_word; lia|].
    destruct (Sigma_spec (S !!! (16 * g + i + 1)%nat)) as (_ & _ & -> & _); [apply schedule_is_word; lia|].
    replace (16 * g + i + 16 - 2)%nat with (16 * g + i + 14)%nat by lia.
    replace (16 * g + i + 16 - 7)%nat with (16 * g + i + 9)%nat by lia.
    replace (16 * g + i + 16 - 15)%nat with (16 * g + i + 1)%nat by lia.
    replace (16 * g + i + 16 - 16)%nat with (16 * g + i)%nat by lia. usize_sum. }
  clearbody x. split; [rewrite length_insert; apply Hw|]. intros j Hj.
  destruct (decide (j = i)) as [->|Hne].
  - rewrite list_lookup_insert_eq by (destruct Hw; lia). rewrite Ex. do 2 f_equal.
    rewrite (proj2 (Nat.ltb_lt _ _)) by lia. lia.
  - rewrite list_lookup_insert_ne by done. rewrite (window_at _ _ _ _ Hw) by done. do 2 f_equal.
    destruct (Nat.ltb_spec j i), (Nat.ltb_spec j (Datatypes.S i)); lia.
Qed.

Lemma EXPAND_ok g w : (g < 4)%nat → window S g 0 w →
  runs (EXPAND w) (window S (Datatypes.S g) 0).
Proof.
  intros Hg Hw. unfold EXPAND.
  assert (∀ n i w, (i + n = 16)%nat → window S g i w →
    runs (for_each sha_M (seq i n) w) (window S g 16)) as Hgo.
  { clear w Hw. induction n as [|n IH]; intros i w Hi Hw; cbn [seq for_each].
    - apply runs_some. by replace 16%nat with i by lia.
    - eapply runs_bind; [apply sha_M_ok; [done|lia|done]|]. intros w' Hw'. apply IH; [lia|done]. }
  eapply runs_mono; [apply (Hgo 16 0)%nat; done|]. intros w' [L H]. split; [done|].
  intros j Hj. rewrite H by done. do 2 f_equal. rewrite (proj2 (Nat.ltb_lt _ _)) by lia.
  rewrite (proj2 (Nat.ltb_ge j 0)) by lia. lia.
Qed.
End Window.

(** * Blocks *)

Definition wf_vars (v : sha_vars) : Prop := Forall is_word (vars_list v).

Lemma sha_F_round K W v t : wf_vars v →
  sha_F v (W !!! t) (K !!! t) = fips_round K W v t ∧ wf_vars (fips_round K W v t).
Proof.
  destruct v as [a b c d e f g h]. unfold wf_vars, vars_list. cbn. intros Hv.
  pose proof Hv as Hv'. rewrite !Forall_cons in Hv'.
  destruct Hv' as (Ha & Hb & Hc & Hd & He & Hf & Hg & Hh & _).
  split; [|repeat first [apply Forall_cons_2; [done || apply is_word_usize|] | apply Forall_nil_2]].
  unfold sha_F, add64. cbn. rewrite Ch_spec by done.
  destruct (Sigma_spec a Ha) as (-> & _). destruct (Sigma_spec e He) as (_ & -> & _).
  change (Maj a b c) with (fips_maj a b c). f_equal; usize_sum.
Qed.

Lemma rounds_foldl K W n s v : wf_vars v →
  wf_vars (foldl (fips_round K W) v (seq s n)).
Proof.
  revert s v. induction n as [|n IH]; intros s v Hv; cbn [seq foldl]; [done|].
  apply IH. by apply sha_F_round.
Qed.

Lemma sha_rounds_ok W g w v : window W g 0 w → (g < 5)%nat → wf_vars v →
  sha_rounds (16 * g) w v = Some (foldl (fips_round sha_K W) v (seq (16 * g) 16)).
Proof.
  intros Hw Hg Hv. unfold sha_rounds.
  assert (∀ n s v, (s + n = 16)%nat → wf_vars v →
    for_each (λ j v, wj ← w !! j; k ← sha_K !! (16 * g + j)%nat; Some (sha_F v wj k)) (seq s n) v =
      Some (foldl (fips_round sha_K W) v (seq (16 * g + s) n))) as Hgo.
  { clear v Hv. induction n as [|n IH]; intros s v Hs Hv; [done|]. cbn [seq for_each foldl].
    rewrite (window_at _ _ _ _ _ Hw) by lia. rewrite (proj2 (Nat.ltb_ge s 0)), Nat.add_0_r by lia.
    rewrite (list_lookup_lookup_total_lt sha_K (16 * g + s)) by (cbn; lia). cbn [mbind option_bind].
    destruct (sha_F_round sha_K W v (16 * g + s) Hv) as [-> Hv'].
    rewrite IH by (done || lia). by rewrite Nat.add_succ_r. }
  rewrite (Hgo 16%nat 0%nat) by done. by rewrite Nat.add_0_r.
Qed.

Section Block.
Context (block : bytes) (Hb : wf_bytes block) (Hl : (128 <= length block)%nat).

Lemma block_words_load :
  mapM (λ i, load_bigendian block (8 * i)) (seq 0 16) = Some (block_words block).
Proof.
  apply mapM_Some_2. unfold block_words. apply Forall2_fmap_r, Forall_Forall2_diag, Forall_seq.
  intros j Hj. apply load_bigendian_spec; [done|lia].
Qed.
Lemma block_words_word : Forall is_word (block_words block).
Proof.
  unfold block_words. apply Forall_fmap, Forall_seq. intros j Hj. apply be_value_word.
  - by apply wf_bytes_take, wf_bytes_drop.
  - rewrite length_take, length_drop. lia.
Qed.

Lemma schedule_facts : length (schedule block) = 80%nat ∧
  (∀ t, (16 <= t < 80)%nat → schedule block !!! t = sched_at (schedule block) t) ∧
  Forall is_word (schedule block) ∧ window (schedule block) 0 0 (block_words block).
Proof.
  assert (length (block_words block) = 16%nat) as B16 by done.
  destruct (schedule_grow 64 (block_words block) (schedule block)) as (L & T & H);
    [by rewrite B16|unfold schedule; reflexivity|]. rewrite B16 in L, T, H.
  generalize dependent (schedule block). intros S L T H.
  assert (∀ t, (t < 16)%nat → S !!! t = block_words block !!! t) as Hlow.
  { intros t Ht. rewrite <- T. by rewrite lookup_total_take_lt. }
  split_and!; [done|intros; apply H; lia| |split; [done|]].
  - apply Forall_lookup_2. intros t x Hx. pose proof (lookup_lt_Some _ _ _ Hx) as Ht.
    apply list_lookup_total_correct in Hx as <-. destruct (decide (t < 16)%nat) as [Hs|Hs].
    + rewrite Hlow by done. apply (Forall_lookup_total_1 _ _ _ block_words_word). done.
    + rewrite H by lia. apply is_word_usize.
  - intros j Hj. rewrite (list_lookup_lookup_total_lt (block_words block)) by done.
    rewrite <- Hlow by done. do 2 f_equal. rewrite (proj2 (Nat.ltb_ge j 0)) by lia. lia.
Qed.

Lemma sha_block_ok v : wf_vars v →
  sha_block v block = Some (fips_compress sha_K v block) ∧ wf_vars (fips_compress sha_K v block).
Proof.
  intros Hv. destruct schedule_facts as (L & R & HW & H0). unfold sha_block, fips_compress.
  rewrite block_words_load. cbn [mbind option_bind]. set (W := schedule block) in *.
  replace (seq 0 80) with (seq 0 16 ++ seq 16 16 ++ seq 32 16 ++ seq 48 16 ++ seq 64 16) by done.
  rewrite !foldl_app. rewrite (sha_rounds_ok W 0) by auto with lia. cbn [mbind option_bind].
  assert (∀ g v, wf_vars v → wf_vars (foldl (fips_round sha_K W) v (seq g 16))) as Hf
    by (intros; by apply rounds_foldl).
  destruct (EXPAND_ok W HW L R 0 _ ltac:(lia) H0) as (w1 & -> & H1). cbn [mbind option_bind].
  rewrite (sha_rounds_ok W 1) by auto with lia. cbn [mbind option_bind].
  destruct (EXPAND_ok W HW L R 1 _ ltac:(lia) H1) as (w2 & -> & H2). cbn [mbind option_bind].
  rewrite (sha_rounds_ok W 2) by auto with lia. cbn [mbind option_bind].
  destruct (EXPAND_ok W HW L R 2 _ ltac:(lia) H2) as (w3 & -> & H3). cbn [mbind option_bind].
  rewrite (sha_rounds_ok W 3) by auto with lia. cbn [mbind option_bind].
  destruct (EXPAND_ok W HW L R 3 _ ltac:(lia) H3) as (w4 & -> & H4). cbn [mbind option_bind].
  rewrite (sha_rounds_ok W 4) by auto 10 with lia. cbn [mbind option_bind]. cbn [Nat.mul Nat.add].
  generalize (foldl (fips_round sha_K W) (foldl (fips_round sha_K W) (foldl (fips_round sha_K W)
    (foldl (fips_round sha_K W) (foldl (fips_round sha_K W) v (seq 0 16)) (seq 16 16)) (seq 32 16))
    (seq 48 16)) (seq 64 16)).
  intros [a b c d e f g h]. destruct v as [a' b' c' d' e' f' g' h']. split; [done|].
  repeat first [apply Forall_cons_2; [apply is_word_usize|] | apply Forall_nil_2].
Qed.
End Block.

(** * Messages *)

Lemma blocks_of_cons m : (128 <= length m)%nat →
  blocks_of m = take 128 m :: blocks_of (drop 128 m).
Proof.
  intros Hl. unfold blocks_of. rewrite length_drop.
  replace (length m / 128)%nat with (S ((length m - 128) / 128)).
  2: { replace (length m) with (1 * 128 + (length m - 128))%nat at 2 by lia.
       rewrite Nat.div_add_l by lia. lia. }
  cbn [seq fmap list_fmap]. f_equal. rewrite <- fmap_S_seq. rewrite <- list_fmap_compose.
  apply list_fmap_ext. intros i k _. cbn [compose]. rewrite drop_drop. do 2 f_equal. lia.
Qed.
Lemma blocks_of_short m : (length m < 128)%nat → blocks_of m = [].
Proof. intros. unfold blocks_of. by rewrite Nat.div_small. Qed.

Lemma fips_compress_take K v m : (128 <= length m)%nat →
  fips_compress K v (take 128 m) = fips_compress K v m.
Proof.
  intros Hl. unfold fips_compress, schedule, block_words.
  replace ((λ i, be_value (take 8 (drop (8 * i) (take 128 m)))) <$> seq 0 16)
    with ((λ i, be_value (take 8 (drop (8 * i) m))) <$> seq 0 16); [done|].
  apply list_fmap_ext. intros i k Hk. apply lookup_seq in Hk as [-> Hk].
  rewrite skipn_firstn_comm, take_take. do 2 f_equal. lia.
Qed.

Lemma sha_while_ok n v m : wf_vars v → wf_bytes m → (n = length m / 128)%nat →
  sha_while n v m = Some (foldl (fips_compress sha_K) v (blocks_of m)) ∧
  wf_vars (foldl (fips_compress sha_K) v (blocks_of m)).
Proof.
  revert v m. induction n as [|n IH]; intros v m Hv Hm Hn.
  - rewrite blocks_of_short; [done|]. apply Nat.div_small_iff; lia.
  - assert (128 <= length m)%nat as Hl.
    { destruct (decide (128 <= length m)%nat); [done|]. rewrite Nat.div_small in Hn; lia. }
    rewrite blocks_of_cons by done. cbn [sha_while foldl].
    destruct (sha_block_ok m Hm Hl v Hv) as [-> Hv']. cbn [mbind option_bind].
    rewrite fips_compress_take by done. apply IH; [done|by apply wf_bytes_drop|].
    rewrite length_drop. replace (length m) with (1 * 128 + (length m - 128))%nat in Hn by lia.
    rewrite Nat.div_add_l in Hn by lia. lia.
Qed.

Lemma store_state_spec v : store_state v = mjoin (be_bytes 8 <$> vars_list v).
Proof. unfold store_state. rewrite !store_bigendian_spec.
  unfold vars_list. cbn [fmap list_fmap mjoin list_join]. by rewrite app_nil_r. Qed.

Lemma be_bytes_words (l : list Z) i x : Forall is_word l → l !! i = Some x →
  be_value (take 8 (drop (8 * i) (mjoin (be_bytes 8 <$> l)))) = x.
Proof.
  intros Hl. revert i. induction Hl as [|y l Hy _ IH]; intros i Hi; [done|].
  cbn [fmap list_fmap mjoin list_join]. destruct i as [|i].
  - injection Hi as ->. rewrite drop_0, take_app_length' by (by rewrite length_be_bytes).
    rewrite be_value_bytes. by apply Z.mod_small.
  - replace (8 * S i)%nat with (length (be_bytes 8 y) + 8 * i)%nat by (rewrite length_be_bytes; lia).
    rewrite <- drop_drop, drop_app_length. by apply IH.
Qed.

Lemma wf_words l : wf_bytes (mjoin (be_bytes 8 <$> l)).
Proof.
  induction l as [|x l IH]; [apply Forall_nil_2|].
  cbn [fmap list_fmap mjoin list_join]. apply wf_bytes_app.
  split; [apply wf_be_bytes|done].
Qed.
Lemma length_words l : length (mjoin (be_bytes 8 <$> l)) = (8 * length l)%nat.
Proof.
  induction l as [|x l IH]; [done|]. cbn [fmap list_fmap mjoin list_join length].
  rewrite length_app, length_be_bytes.
  change (8 + length (mjoin (be_bytes 8 <$> l)) = 8 * S (length l))%nat. rewrite IH. lia.
Qed.

Lemma load_store_state v : wf_vars v → load_state (store_state v) = Some v.
Proof.
  intros Hv. rewrite store_state_spec. unfold load_state.
  assert (length (mjoin (be_bytes 8 <$> vars_list v)) = 64%nat) as L by (by rewrite length_words).
  rewrite !load_bigendian_spec by (apply wf_words || (rewrite L; lia)).
  cbn [mbind option_bind]. change 0%nat with (8 * 0)%nat at 1. 
  rewrite (be_bytes_words _ 0 (va v)), (be_bytes_words _ 1 (vb v)), (be_bytes_words _ 2 (vc v)),
    (be_bytes_words _ 3 (vd v)), (be_bytes_words _ 4 (ve v)), (be_bytes_words _ 5 (vf v)),
    (be_bytes_words _ 6 (vg v)), (be_bytes_words _ 7 (vh v)) by done.
  by destruct v.
Qed.

Lemma hashblocks_ok v m n : wf_vars v → wf_bytes m → n = length m →
  crypto_hashblocks_sha512 (store_state v) m n =
    Some (store_state (foldl (fips_compress sha_K) v (blocks_of m))) ∧
  wf_vars (foldl (fips_compress sha_K) v (blocks_of m)).
Proof.
  intros Hv Hm ->. unfold crypto_hashblocks_sha512. rewrite load_store_state by done.
  cbn [mbind option_bind]. by destruct (sha_while_ok (length m / 128) v m Hv Hm eq_refl) as [-> ?].
Qed.

Lemma blocks_of_app m k : (length m mod 128 = 0)%nat → blocks_of (m ++ k) = blocks_of m ++ blocks_of k.
Proof.
  intros Hm. remember (length m / 128)%nat as n eqn:Hn.
  revert m Hm Hn. induction n as [|n IH]; intros m Hm Hn.
  - assert (length m = 0)%nat as L by (rewrite (Nat.div_mod_eq (length m) 128); lia).
    by apply nil_length_inv in L as ->.
  - assert (length m = 128 * S n)%nat as L by (rewrite (Nat.div_mod_eq (length m) 128); lia).
    rewrite (blocks_of_cons (m ++ k)), (blocks_of_cons m) by (rewrite ?length_app; lia). rewrite take_app_le, drop_app_le by lia.
    cbn [app]. f_equal. apply IH; rewrite length_drop, L.
    + replace (128 * S n - 128)%nat with (n * 128)%nat by lia. apply Nat.Div0.mod_mul.
    + replace (128 * S n - 128)%nat with (n * 128)%nat by lia. by rewrite Nat.div_mul.
Qed.

(** Splitting a message at its last full block does not change the blocks. *)
Lemma blocks_of_full m : blocks_of (take (128 * (length m / 128)) m) = blocks_of m.
Proof.
  pose proof (Nat.div_mod_eq (length m) 128) as E. pose proof (Nat.mod_upper_bound (length m) 128).
  rewrite <- (take_drop (128 * (length m / 128)) m) at 3. rewrite blocks_of_app.
  - rewrite (blocks_of_short (drop _ _)) by (rewrite length_drop; lia). by rewrite app_nil_r.
  - rewrite length_take, Nat.min_l by lia. rewrite Nat.mul_comm. apply Nat.Div0.mod_mul.
Qed.

Lemma sha_length_bytes n : 0 <= n < 2 ^ 64 → replicate 7 0 ++ sha_length n = be_bytes 16 (8 * n).
Proof.
  intros Hn. unfold be_bytes, sha_length, u8. cbn [le_bytes rev app replicate].
  rewrite !Z.shiftr_div_pow2, Z.shiftl_mul_pow2 by lia. rewrite !Z.div_div by lia.
  rewrite (Z.mul_comm n).
  assert (∀ k, 0 <= k → (8 * n) `div` (8 * 2 ^ k) = n `div` 2 ^ k) as Hd.
  { intros k Hk. pose proof (Z.pow_pos_nonneg 2 k). apply Z.div_mul_cancel_l; lia. }
  assert (∀ k, 72 <= k → ((8 * n) `div` 2 ^ k) `mod` 256 = 0) as Hz.
  { intros k Hk. rewrite Z.div_small; [done|]. split; [lia|].
    assert (2 ^ 72 <= 2 ^ k) by (apply Z.pow_le_mono_r; lia). lia. }
  pose proof (Hd 5 ltac:(lia)) as D5. pose proof (Hd 13 ltac:(lia)) as D13.
  pose proof (Hd 21 ltac:(lia)) as D21. pose proof (Hd 29 ltac:(lia)) as D29.
  pose proof (Hd 37 ltac:(lia)) as D37. pose proof (Hd 45 ltac:(lia)) as D45.
  pose proof (Hd 53 ltac:(lia)) as D53. pose proof (Hd 61 ltac:(lia)) as D61.
  pose proof (Hz 72 ltac:(lia)) as Z72. pose proof (Hz 80 ltac:(lia)) as Z80.
  pose proof (Hz 88 ltac:(lia)) as Z88. pose proof (Hz 96 ltac:(lia)) as Z96.
  pose proof (Hz 104 ltac:(lia)) as Z104. pose proof (Hz 112 ltac:(lia)) as Z112.
  pose proof (Hz 120 ltac:(lia)) as Z120. clear Hd Hz.
  rewrite <- D5, <- D13, <- D21, <- D29, <- D37, <- D45, <- D53, <- D61.
  repeat (apply (f_equal2 cons); [first [reflexivity | symmetry; assumption]|]). reflexivity.
Qed.

(** The last block or blocks that hash.c builds are the rest of the padded
    message. *)
Lemma fips_pad_split m : zlen m < 2 ^ 64 →
  let full := (128 * (length m / 128))%nat in let r := (length m mod 128)%nat in
  fips_pad m = take full m ++ drop full m ++ [0x80] ++
    replicate ((if (r <? 112)%nat then 119 else 247) - (r + 1))%nat 0 ++ sha_length (zlen m).
Proof.
  intros Hm full r. unfold fips_pad. rewrite (app_assoc (take full m)), take_drop.
  rewrite <- sha_length_bytes by (unfold zlen in *; lia). do 2 f_equal. rewrite app_assoc. f_equal.
  rewrite <- replicate_add. f_equal. unfold zlen.
  pose proof (Nat.div_mod_eq (length m) 128) as E. pose proof (Nat.mod_upper_bound (length m) 128).
  fold r in E, H. assert (Z.of_nat (length m) = 128 * Z.of_nat (length m / 128) + Z.of_nat r) as EZ by lia.
  destruct (Nat.ltb_spec r 112).
  - replace (111 - Z.of_nat (length m)) with (111 - Z.of_nat r + (- Z.of_nat (length m / 128)) * 128) by lia.
    rewrite Z_mod_plus_full, Z.mod_small by lia. lia.
  - replace (111 - Z.of_nat (length m))
      with (239 - Z.of_nat r + (- Z.of_nat (length m / 128) - 1) * 128) by lia.
    rewrite Z_mod_plus_full, Z.mod_small by lia. lia.
Qed.

Lemma wf_pad tail k n : wf_bytes tail → wf_bytes (tail ++ [0x80] ++ replicate k 0 ++ sha_length n).
Proof.
  intros Ht. repeat (apply wf_bytes_app; split); [done|by repeat constructor|apply wf_zeros|].
  unfold sha_length, u8. repeat (apply Forall_cons_2; [by apply Z.mod_pos_bound|]). apply Forall_nil_2.
Qed.

Lemma sha_iv_state : sha_iv = store_state sha_H0.
Proof. reflexivity. Qed.
Lemma wf_H0 : wf_vars sha_H0.
Proof. by repeat constructor. Qed.

Lemma crypto_hash_sha512_run m : wf_bytes m → zlen m < 2 ^ 64 →
  crypto_hash_sha512 m = Some (sha512 m).
Proof.
  intros Hm Hl. unfold crypto_hash_sha512. rewrite sha_iv_state.
  destruct (hashblocks_ok sha_H0 m _ wf_H0 Hm eq_refl) as [-> HH]. cbn [mbind option_bind].
  assert (Z.to_nat (Z.land (Z.of_nat (length m)) 127) = length m mod 128)%nat as ->.
  { change 127 with (Z.ones 7). rewrite Z.land_ones by done. change (2 ^ 7) with (Z.of_nat 128).
    by rewrite <- Nat2Z.inj_mod, Nat2Z.id. }
  pose proof (Nat.div_mod_eq (length m) 128) as E. pose proof (Nat.mod_upper_bound (length m) 128).
  replace (length m - length m mod 128)%nat with (128 * (length m / 128))%nat by lia.
  unfold sha512, fips_sha512. rewrite fips_pad_split by done. rewrite <- store_state_spec.
  rewrite blocks_of_app, blocks_of_full, foldl_app.
  2: { rewrite length_take, Nat.min_l by lia. rewrite Nat.mul_comm. apply Nat.Div0.mod_mul. }
  set (tail := drop _ m). assert (wf_bytes tail) as Ht by (by apply wf_bytes_drop).
  assert (length tail = length m mod 128)%nat as Lt by (unfold tail; rewrite length_drop; lia).
  destruct (Nat.ltb_spec (length m mod 128) 112) as [Hs|Hs];
    apply hashblocks_ok; try apply wf_pad; try done;
    rewrite !length_app, length_replicate, Lt; cbn [length sha_length]; lia.
Qed.

(** C31: SHA-512 of nacl_sha512 is the one FIPS 180-4 defines, for every input
    whose length fits its counter: the sliding window of sixteen words is the
    message schedule, hashing in place and padding only the rest is hashing the
    padded message, all reads stay inside the buffers, the result is sixty-four
    bytes, and the constants are the root fractions the standard prescribes. *)
Theorem sha512_correct (m : bytes) :
  wf_bytes m → zlen m < 2 ^ 64 →
  crypto_hash_sha512 m = Some (fips_sha512 sha_K sha_H0 m) ∧
  length (fips_sha512 sha_K sha_H0 m) = 64%nat ∧ wf_bytes (fips_sha512 sha_K sha_H0 m) ∧
  Forall2 (λ p k, root_fraction 3 p k = true) first_primes sha_K ∧
  Forall2 (λ p k, root_fraction 2 p k = true) (take 8 first_primes) (vars_list sha_H0).
Proof.
  intros Hm Hl. split; [by apply crypto_hash_sha512_run|].
  split; [unfold fips_sha512; by rewrite length_words|].
  split; [apply wf_words|]. apply sha_constants.
Qed.

Lemma sha512_correct_witness :
  crypto_hash_sha512 [97; 98; 99] = Some (fips_sha512 sha_K sha_H0 [97; 98; 99]) ∧
  take 4 (fips_sha512 sha_K sha_H0 [97; 98; 99]) = [0xdd; 0xaf; 0x35; 0xa1].
Proof.
  split; [|vm_compute; reflexivity].
  apply (sha512_correct [97; 98; 99]); [by repeat constructor|done].
Defined.
