(* ===== verification/Prime.v ===== *)
(** The primes of Curve25519: [2^255 - 19] and the order of the base point.

    Both are shown prime by Pocklington's criterion, along the chain of prime
    factors of [n - 1]; the powers are computed on machine-word numbers.  Fermat's
    theorem is the Standard Library's. *)

From Stdlib Require Import Zdivisibility.
From Stdlib Require Import Zmod.ZmodDef Zmod.ZmodBase Zmod.ZmodInv.
From Bignums Require Import BigN.
From S2P Require Import Prelude.

(** * Arithmetic *)

Lemma mod_1_divide n x : 1 < n → x `mod` n = 1 → (n | x - 1).
Proof.
  intros Hn H. exists (x `div` n). pose proof (Z_div_mod_eq_full x n). lia.
Qed.
Lemma divide_mod_1 n x : 1 < n → (n | x - 1) → x `mod` n = 1.
Proof.
  intros Hn [k Hk]. replace x with (1 + k * n) by lia. rewrite Z_mod_plus_full. apply Z.mod_small. lia.
Qed.

Lemma mod_mod_divide a m n : 0 < n → (n | m) → (a `mod` m) `mod` n = a `mod` n.
Proof.
  intros Hn [k ->]. rewrite (Z_div_mod_eq_full a (k * n)) at 2.
  replace (k * n * (a `div` (k * n)) + a `mod` (k * n))
    with (a `mod` (k * n) + (k * (a `div` (k * n))) * n) by lia.
  by rewrite Z_mod_plus_full.
Qed.

Lemma pow_mod_1 r b k : 1 < r → 0 <= k → b `mod` r = 1 → (b ^ k) `mod` r = 1.
Proof.
  intros Hr Hk H. rewrite <- Z.mod_pow_l, H, Z.pow_1_l by done. apply Z.mod_small. lia.
Qed.

(** The least divisor above one is prime. *)
Lemma prime_divisor n : 1 < n → ∃ r, Z.prime r ∧ (r | n) ∧ (Z.prime n ∨ r * r <= n).
Proof.
  intros Hn. 
  assert (∀ m : nat, (∃ r, 1 < r <= Z.of_nat m + 1 ∧ (r | n) ∧ ∀ k, 1 < k < r → ¬ (k | n)) ∨
                     (∀ k, 1 < k <= Z.of_nat m + 1 → ¬ (k | n))) as Hleast.
  { induction m as [|m [(r & Hr & Hd & Hk)|IH]]; [right; lia|left; exists r; split; [lia|done]|].
    destruct (Znumtheory.Zdivide_dec (Z.of_nat (S m) + 1) n) as [Hd|Hd].
    - left. exists (Z.of_nat (S m) + 1). split; [lia|]. split; [done|]. intros k Hk. apply IH. lia.
    - right. intros k Hk. destruct (decide (k = Z.of_nat (S m) + 1)) as [->|]; [done|]. apply IH. lia. }
  destruct (Hleast (Z.to_nat (n - 1))) as [(r & Hr & Hd & Hk)|H].
  2: { exfalso. apply (H n); [lia|]. apply Z.divide_refl. }
  assert (Z.prime r) as Hp.
  { split; [lia|]. intros k Hkr Hkd. apply (Hk k); [done|]. by transitivity r. }
  exists r. split; [done|]. split; [done|]. destruct Hd as [s Hs].
  destruct (decide (s = 1)) as [->|Hs1]; [left; by rewrite Hs, Z.mul_1_l|right].
  destruct (Z.lt_ge_cases s r) as [Hlt|]; [|nia]. exfalso. apply (Hk s); [nia|]. exists r. lia.
Qed.

(** * Pocklington's criterion *)

(** A witness [w] for [2^((n - 1) / q) - 1] being invertible modulo [n]. *)
Definition pocklington_ok (n : Z) (q w : Z) : Prop :=
  Z.prime q ∧ (q | n - 1) ∧ 2 ^ (n - 1) `mod` n = 1 ∧
  ((2 ^ ((n - 1) `div` q) - 1) * w) `mod` n = 1.

Lemma pocklington_step n q w r : 1 < n → pocklington_ok n q w → Z.prime r → (r | n) → (q | r - 1).
Proof.
  intros Hn (Hq & [c Hc] & H1 & Hw) Hr Hrn.
  pose proof (Z.prime_ge_2 _ Hr) as Hr2. pose proof (Z.prime_ge_2 _ Hq) as Hq2.
  assert ((n - 1) `div` q = c) as Ec by (rewrite Hc; apply Z.div_mul; lia). rewrite Ec in Hw.
  set (b := 2 ^ c) in *. assert (0 <= c) as Hc0 by (clear -Hc Hn Hq2; nia).
  assert ((b ^ q) `mod` r = 1) as Hbq.
  { unfold b. rewrite <- Z.pow_mul_r, <- Hc by lia.
    rewrite <- (mod_mod_divide _ n r), H1 by (done || lia). apply Z.mod_small. lia. }
  assert (b `mod` r ≠ 1) as Hb1.
  { intros H. apply mod_1_divide in H; [|lia]. apply mod_1_divide in Hw; [|done].
    assert (r | (b - 1) * w - 1) as Hd by (by transitivity n).
    assert (r | 1) as Hd1; [|apply Z.divide_pos_le in Hd1; lia]. replace 1 with ((b - 1) * w - ((b - 1) * w - 1)) by lia.
    apply Z.divide_sub_r; [|done]. by apply Z.divide_mul_l. }
  assert (b `mod` r ≠ 0) as Hb0.
  { intros H. rewrite <- Z.mod_pow_l, H, Z.pow_0_l in Hbq by lia. by rewrite Zmod_0_l in Hbq. }
  pose proof (Z.fermat_nz r b Hr Hb0) as Hf.
  destruct (Znumtheory.Zdivide_dec q (r - 1)) as [|Hnd]; [done|exfalso].
  apply Z.coprime_prime_l, Z.Bezout_coprime in Hnd as (u & v & Huv); [|done].
  (* a multiple of [q] that is one above a multiple of [r - 1] *)
  set (x := u `mod` (r - 1)).
  assert (∃ y, x * q = 1 + y * (r - 1)) as [y Hy].
  { exists (- v - q * (u `div` (r - 1))). unfold x.
    pose proof (Z_div_mod_eq_full u (r - 1)). nia. }
  assert (0 <= x) as Hx by (apply Z.mod_pos_bound; lia).
  assert (0 <= y) as Hy0.
  { destruct (decide (0 <= y)) as [|n0]; [done|]. assert (x * q <= 1 - (r - 1)) by (clear -Hy n0 Hr2; nia).
    destruct (decide (r = 2)) as [->|n1]; [|clear -H Hx Hq2 n1 Hr2; nia].
    pose proof (Z.mod_pos_bound b 2). lia. }
  apply Hb1. assert (b `mod` r = (b * b ^ ((r - 1) * y)) `mod` r) as ->.
  { rewrite <- Zmult_mod_idemp_r, Z.pow_mul_r, (pow_mod_1 r) by (done || lia). by rewrite Z.mul_1_r. }
  rewrite <- Z.pow_succ_r by (apply Z.mul_nonneg_nonneg; lia).
  replace (Z.succ ((r - 1) * y)) with (q * x) by lia.
  rewrite Z.pow_mul_r by lia. apply pow_mod_1; [lia|done..].
Qed.

Lemma pocklington1 n q w : 1 < n → pocklington_ok n q w → n < (q + 1) * (q + 1) → Z.prime n.
Proof.
  intros Hn Hok Hsq. destruct (prime_divisor n Hn) as (r & Hr & Hd & [|Hrr]); [done|exfalso].
  pose proof (Z.prime_ge_2 _ Hr). pose proof (pocklington_step n q w r Hn Hok Hr Hd) as Hdr.
  apply Z.divide_pos_le in Hdr; [|lia]. destruct Hok as [Hq _]. pose proof (Z.prime_ge_2 _ Hq). nia.
Qed.

Lemma pocklington2 n q w q' w' : 1 < n → pocklington_ok n q w → pocklington_ok n q' w' → q ≠ q' →
  n < (q * q' + 1) * (q * q' + 1) → Z.prime n.
Proof.
  intros Hn Hok Hok' Hne Hsq. destruct (prime_divisor n Hn) as (r & Hr & Hd & [|Hrr]); [done|exfalso].
  pose proof (Z.prime_ge_2 _ Hr). 
  pose proof (pocklington_step n q w r Hn Hok Hr Hd) as [k Hk].
  pose proof (pocklington_step n q' w' r Hn Hok' Hr Hd) as Hd'.
  destruct Hok as [Hq _], Hok' as [Hq' _].
  assert (q' | k) as [k' Hk'].
  { rewrite Hk in Hd'. apply Z.divide_prime_mul in Hd' as [|Hqq]; [done| |done].
    apply Z.divide_prime_prime in Hqq; done. }
  pose proof (Z.prime_ge_2 _ Hq). pose proof (Z.prime_ge_2 _ Hq'). subst k.
  assert (q * q' | r - 1) as Hqq by (exists k'; lia).
  apply Z.divide_pos_le in Hqq; [|lia]. clear -Hqq Hrr Hsq H0 H1.
  assert ((q * q' + 1) * (q * q' + 1) <= r * r) by (apply Z.mul_le_mono_nonneg; nia). lia.
Qed.

(** * Computing powers *)

(** [b^e mod n]. *)
Fixpoint pow_mod (b n : bigN) (e : positive) : bigN :=
  match e with
  | xH => BigN.modulo b n
  | xO e => let r := pow_mod b n e in BigN.modulo (BigN.square r) n
  | xI e => let r := pow_mod b n e in BigN.modulo (BigN.mul b (BigN.square r)) n
  end.

Lemma pow_mod_spec b n e : BigN.to_Z (pow_mod b n e) = BigN.to_Z b ^ Z.pos e `mod` BigN.to_Z n.
Proof.
  induction e as [e IH|e IH|]; cbn [pow_mod]; rewrite BigN.spec_modulo.
  - rewrite BigN.spec_mul, BigN.spec_square, IH.
    rewrite <- Zmult_mod_idemp_r, <- Zmult_mod, Zmult_mod_idemp_r. f_equal.
    replace (Z.pos e~1) with (1 + (Z.pos e + Z.pos e)) by lia. by rewrite !Z.pow_add_r, Z.pow_1_r by lia.
  - rewrite BigN.spec_square, IH, <- Zmult_mod. f_equal.
    replace (Z.pos e~0) with (Z.pos e + Z.pos e) by lia. by rewrite Z.pow_add_r by lia.
  - by rewrite Z.pow_1_r.
Qed.

Definition big (z : Z) : bigN := BigN.of_N (Z.to_N z).
Lemma big_spec z : 0 <= z → BigN.to_Z (big z) = z.
Proof. intros. unfold big. by rewrite BigN.spec_of_N, Z2N.id. Qed.

(** One test for [n] with the prime factor [q] of [n - 1]. *)
Definition pocklington_test (n q w : Z) : bool :=
  (1 <? n) && (0 <? (n - 1) `div` q) && ((n - 1) `mod` q =? 0) && (0 <=? w) &&
  BigN.eqb (pow_mod BigN.two (big n) (Z.to_pos (n - 1))) BigN.one &&
  BigN.eqb (BigN.modulo (BigN.mul (BigN.sub (pow_mod BigN.two (big n) (Z.to_pos ((n - 1) `div` q))) BigN.one) (big w))
    (big n)) BigN.one && 
  BigN.ltb BigN.zero (pow_mod BigN.two (big n) (Z.to_pos ((n - 1) `div` q))).

Lemma pocklington_test_ok n q w : Z.prime q → pocklington_test n q w = true → pocklington_ok n q w.
Proof.
  intros Hq. pose proof (Z.prime_ge_2 _ Hq). unfold pocklington_test. rewrite !andb_true_iff.
  rewrite !Z.ltb_lt, Z.leb_le, Z.eqb_eq, !BigN.spec_eqb, BigN.spec_ltb, !Z.eqb_eq, Z.ltb_lt.
  intros ((((((Hn & He) & Hd) & Hw) & H1) & H2) & H3).
  rewrite !pow_mod_spec, BigN.spec_2, BigN.spec_1, big_spec, Z2Pos.id in H1 by lia.
  rewrite BigN.spec_modulo, BigN.spec_mul, BigN.spec_sub, pow_mod_spec, BigN.spec_2, BigN.spec_1, !big_spec in H2 by lia.
  rewrite pow_mod_spec, BigN.spec_2, BigN.spec_0, big_spec in H3 by lia.
  rewrite Z2Pos.id in H2, H3 by lia. rewrite Z.max_r in H2 by lia.
  split_and!; [done| |done|].
  - apply Z.mod_divide; [lia|done].
  - rewrite <- Zmult_mod_idemp_l, <- Zminus_mod_idemp_l, Zmult_mod_idemp_l. done.
Qed.

(** Trial division, for the ends of the chains. *)
Definition trial_prime (n : Z) : bool :=
  (1 <? n) && forallb (λ k, negb (n `mod` k =? 0)) (seqZ 2 (Z.sqrt n)).
Lemma trial_prime_ok n : trial_prime n = true → Z.prime n.
Proof.
  unfold trial_prime. rewrite andb_true_iff, Z.ltb_lt, forallb_forall. intros [Hn H].
  destruct (prime_divisor n Hn) as (r & Hr & Hd & [|Hrr]); [done|exfalso].
  pose proof (Z.prime_ge_2 _ Hr). specialize (H r). rewrite negb_true_iff, Z.eqb_neq in H. apply H.
  - apply list_elem_of_In, elem_of_seqZ. apply Z.sqrt_le_square in Hrr; lia.
  - by apply Z.mod_divide; [lia|].
Qed.


(** * The chains of primes *)

Lemma prime_991 : Z.prime 991.
Proof. by apply trial_prime_ok. Qed.
Lemma prime_103 : Z.prime 103.
Proof. by apply trial_prime_ok. Qed.
Lemma prime_8574133 : Z.prime 8574133.
Proof.
  apply (pocklington2 _ 991 1014251 103 3531099).
  - done.
  - apply pocklington_test_ok; [exact prime_991|vm_compute; reflexivity].
  - apply pocklington_test_ok; [exact prime_103|vm_compute; reflexivity].
  - done.
  - done.
Qed.
Lemma prime_127 : Z.prime 127.
Proof. by apply trial_prime_ok. Qed.
Lemma prime_1919519569386763 : Z.prime 1919519569386763.
Proof.
  apply (pocklington2 _ 8574133 1290547218147893 127 1870148777187772).
  - done.
  - apply pocklington_test_ok; [exact prime_8574133|vm_compute; reflexivity].
  - apply pocklington_test_ok; [exact prime_127|vm_compute; reflexivity].
  - done.
  - done.
Qed.
Lemma prime_419 : Z.prime 419.
Proof. by apply trial_prime_ok. Qed.
Lemma prime_97 : Z.prime 97.
Proof. by apply trial_prime_ok. Qed.
Lemma prime_569003 : Z.prime 569003.
Proof.
  apply (pocklington2 _ 419 533245 97 345875).
  - done.
  - apply pocklington_test_ok; [exact prime_419|vm_compute; reflexivity].
  - apply pocklington_test_ok; [exact prime_97|vm_compute; reflexivity].
  - done.
  - done.
Qed.
Lemma prime_2773320623 : Z.prime 2773320623.
Proof.
  apply (pocklington1 _ 569003 2440407146).
  - done.
  - apply pocklington_test_ok; [exact prime_569003|vm_compute; reflexivity].
  - done.
Qed.
Lemma prime_72106336199 : Z.prime 72106336199.
Proof.
  apply (pocklington1 _ 2773320623 8149528284).
  - done.
  - apply pocklington_test_ok; [exact prime_2773320623|vm_compute; reflexivity].
  - done.
Qed.
Lemma prime_75445702479781427272750846543864801 : Z.prime 75445702479781427272750846543864801.
Proof.
  apply (pocklington2 _ 1919519569386763 74602835786463724888147869570305675 72106336199 55965016733432503242248684386325671).
  - done.
  - apply pocklington_test_ok; [exact prime_1919519569386763|vm_compute; reflexivity].
  - apply pocklington_test_ok; [exact prime_72106336199|vm_compute; reflexivity].
  - done.
  - done.
Qed.
Lemma prime_1723 : Z.prime 1723.
Proof. by apply trial_prime_ok. Qed.
Lemma prime_430751 : Z.prime 430751.
Proof.
  apply (pocklington1 _ 1723 198753).
  - done.
  - apply pocklington_test_ok; [exact prime_1723|vm_compute; reflexivity].
  - done.
Qed.
Lemma prime_173 : Z.prime 173.
Proof. by apply trial_prime_ok. Qed.
Lemma prime_4153 : Z.prime 4153.
Proof.
  apply (pocklington1 _ 173 3405).
  - done.
  - apply pocklington_test_ok; [exact prime_173|vm_compute; reflexivity].
  - done.
Qed.
Lemma prime_31757755568855353 : Z.prime 31757755568855353.
Proof.
  apply (pocklington2 _ 430751 15419847897348699 4153 25117532289192573).
  - done.
  - apply pocklington_test_ok; [exact prime_430751|vm_compute; reflexivity].
  - apply pocklington_test_ok; [exact prime_4153|vm_compute; reflexivity].
  - done.
  - done.
Qed.
Lemma prime_74058212732561358302231226437062788676166966415465897661863160754340907 : Z.prime 74058212732561358302231226437062788676166966415465897661863160754340907.
Proof.
  apply (pocklington2 _ 75445702479781427272750846543864801 70463328703800545008217672123162676565183935400628861884889913886334520 31757755568855353 18232248056023258384404751131439975669387062239511397558448549501188471).
  - done.
  - apply pocklington_test_ok; [exact prime_75445702479781427272750846543864801|vm_compute; reflexivity].
  - apply pocklington_test_ok; [exact prime_31757755568855353|vm_compute; reflexivity].
  - done.
  - done.
Qed.
Lemma prime_p25519 : Z.prime (2 ^ 255 - 19).
Proof.
  apply (pocklington1 _ 74058212732561358302231226437062788676166966415465897661863160754340907 55540832096118778044507775605005710249233119951144946814680141076505643269084).
  - done.
  - apply pocklington_test_ok; [exact prime_74058212732561358302231226437062788676166966415465897661863160754340907|vm_compute; reflexivity].
  - done.
Qed.
Lemma prime_17 : Z.prime 17.
Proof. by apply trial_prime_ok. Qed.
Lemma prime_5 : Z.prime 5.
Proof. by apply trial_prime_ok. Qed.
Lemma prime_2551 : Z.prime 2551.
Proof.
  apply (pocklington2 _ 17 1135 5 1784).
  - done.
  - apply pocklington_test_ok; [exact prime_17|vm_compute; reflexivity].
  - apply pocklington_test_ok; [exact prime_5|vm_compute; reflexivity].
  - done.
  - done.
Qed.
Lemma prime_1224481 : Z.prime 1224481.
Proof.
  apply (pocklington1 _ 2551 1100631).
  - done.
  - apply pocklington_test_ok; [exact prime_2551|vm_compute; reflexivity].
  - done.
Qed.
Lemma prime_73 : Z.prime 73.
Proof. by apply trial_prime_ok. Qed.
Lemma prime_3797 : Z.prime 3797.
Proof.
  apply (pocklington1 _ 73 3357).
  - done.
  - apply pocklington_test_ok; [exact prime_73|vm_compute; reflexivity].
  - done.
Qed.
Lemma prime_531581 : Z.prime 531581.
Proof.
  apply (pocklington1 _ 3797 50673).
  - done.
  - apply pocklington_test_ok; [exact prime_3797|vm_compute; reflexivity].
  - done.
Qed.
Lemma prime_1257559732178653 : Z.prime 1257559732178653.
Proof.
  apply (pocklington2 _ 1224481 790900187493841 531581 212927577457398).
  - done.
  - apply pocklington_test_ok; [exact prime_1224481|vm_compute; reflexivity].
  - apply pocklington_test_ok; [exact prime_531581|vm_compute; reflexivity].
  - done.
  - done.
Qed.
Lemma prime_4434155615661930479 : Z.prime 4434155615661930479.
Proof.
  apply (pocklington1 _ 1257559732178653 1010501025739283171).
  - done.
  - apply pocklington_test_ok; [exact prime_1257559732178653|vm_compute; reflexivity].
  - done.
Qed.
Lemma prime_172054593956031949258510691 : Z.prime 172054593956031949258510691.
Proof.
  apply (pocklington1 _ 4434155615661930479 154275350521713489305385904).
  - done.
  - apply pocklington_test_ok; [exact prime_4434155615661930479|vm_compute; reflexivity].
  - done.
Qed.
Lemma prime_19757330305831588566944191468367130476339 : Z.prime 19757330305831588566944191468367130476339.
Proof.
  apply (pocklington1 _ 172054593956031949258510691 16371654433361644093796961727196399386194).
  - done.
  - apply pocklington_test_ok; [exact prime_172054593956031949258510691|vm_compute; reflexivity].
  - done.
Qed.
Lemma prime_276602624281642239937218680557139826668747 : Z.prime 276602624281642239937218680557139826668747.
Proof.
  apply (pocklington1 _ 19757330305831588566944191468367130476339 94074944912245044309966580483695483989395).
  - done.
  - apply pocklington_test_ok; [exact prime_19757330305831588566944191468367130476339|vm_compute; reflexivity].
  - done.
Qed.
Lemma prime_order : Z.prime (2 ^ 252 + 27742317777372353535851937790883648493).
Proof.
  apply (pocklington1 _ 276602624281642239937218680557139826668747 2233364593245673852815932892735013076939656528578070433728021143254617821614).
  - done.
  - apply pocklington_test_ok; [exact prime_276602624281642239937218680557139826668747|vm_compute; reflexivity].
  - done.
Qed.
