(* ===== verification/Field25519.v ===== *)
(** The field of [2^255 - 19] elements, as the Standard Library's [Zmod].

    [F] is the reduction from the integers, a ring morphism that registers with
    [ring] and [field]; the field elements the code computes are integers up to
    [=ₚ], that is up to [F]. *)

From Stdlib Require Export Field.
From Stdlib Require Import Zdivisibility.
From Stdlib Require Export Zmod.ZmodDef Zmod.ZmodBase Zmod.ZmodInv.
From Bignums Require Import BigN.
From S2P Require Import Prelude DonnaField Prime.

Lemma prime_p : Z.prime p25519.
Proof. exact prime_p25519. Qed.

Definition Fp : Type := Zmod p25519.
Definition F (z : Z) : Fp := Zmod.of_Z p25519 z.

Declare Scope F_scope.
Delimit Scope F_scope with F.
Bind Scope F_scope with Fp.
Definition f0 : Fp := Zmod.zero.
Definition f1 : Fp := Zmod.one.
Definition fp_add (x y : Fp) : Fp := Zmod.add x y.
Definition fp_sub (x y : Fp) : Fp := Zmod.sub x y.
Definition fp_mul (x y : Fp) : Fp := Zmod.mul x y.
Definition fp_opp (x : Fp) : Fp := Zmod.opp x.
Definition fp_inv (x : Fp) : Fp := Zmod.inv x.
Definition fp_div (x y : Fp) : Fp := Zmod.mdiv x y.
Definition fval (x : Fp) : Z := Zmod.to_Z x.
Infix "+" := fp_add : F_scope.
Infix "-" := fp_sub : F_scope.
Infix "*" := fp_mul : F_scope.
Infix "/" := fp_div : F_scope.
Notation "- x" := (fp_opp x) : F_scope.
Notation "0" := f0 : F_scope.
Notation "1" := f1 : F_scope.

Lemma Fp_field_theory : field_theory f0 f1 fp_add fp_mul fp_sub fp_opp fp_div fp_inv (@eq Fp).
Proof. exact (Zmod.field_theory p25519 prime_p). Qed.

(** * Reduction *)

Lemma F_add a b : F (a + b) = (F a + F b)%F. Proof. apply Zmod.of_Z_add. Qed.
Lemma F_sub a b : F (a - b) = (F a - F b)%F. Proof. apply Zmod.of_Z_sub. Qed.
Lemma F_mul a b : F (a * b) = (F a * F b)%F. Proof. apply Zmod.of_Z_mul. Qed.
Lemma F_opp a : F (- a) = (- F a)%F. Proof. apply Zmod.of_Z_opp. Qed.
Lemma F_eqp a b : F a = F b ↔ a =ₚ b.
Proof. apply Zmod.of_Z_inj. Qed.
Lemma F_0 : F 0 = 0%F. Proof. apply Zmod.of_Z_0. Qed.
Lemma F_1 : F 1 = 1%F. Proof. apply Zmod.of_Z_1. Qed.
Lemma F_val x : F (fval x) = x. Proof. apply Zmod.of_Z_unsigned. Qed.
Lemma fval_F a : fval (F a) = a `mod` p25519. Proof. apply Zmod.unsigned_of_Z. Qed.
Lemma fval_range x : 0 <= fval x < p25519.
Proof. rewrite <- (F_val x), fval_F. by apply Z.mod_pos_bound. Qed.

Lemma F_morph : ring_morph f0 f1 fp_add fp_mul fp_sub fp_opp (@eq Fp) 0 1 Z.add Z.mul Z.sub Z.opp Z.eqb F.
Proof.
  constructor; [apply F_0|apply F_1|apply F_add|apply F_sub|apply F_mul|apply F_opp|].
  intros x y ->%Z.eqb_eq. done.
Qed.

(** Numerals of the field are [F] of integer literals. *)
Ltac F_constant t :=
  lazymatch t with
  | f0 => constr:(0%Z) | f1 => constr:(1%Z)
  | F ?z => lazymatch isZcst z with true => z | _ => constr:(InitialRing.NotConstant) end
  | _ => constr:(InitialRing.NotConstant)
  end.
Add Field Fp_field : Fp_field_theory (morphism F_morph, constants [F_constant]).

#[export] Instance Fp_eq_dec : EqDecision Fp.
Proof.
  intros x y. destruct (decide (fval x = fval y)) as [E|E]; [left|right; congruence].
  by rewrite <- (F_val x), <- (F_val y), E.
Defined.

(** * The field *)

Lemma F_nonzero k : k `mod` p25519 ≠ 0 → F k ≠ 0%F.
Proof. intros H. rewrite <- F_0. rewrite F_eqp. unfold eqp. by rewrite Zmod_0_l. Qed.
Lemma f1_neq_0 : (1 ≠ 0)%F.
Proof. rewrite <- F_1. by apply F_nonzero. Qed.
Lemma f2_neq_0 : F 2 ≠ 0%F.
Proof. by apply F_nonzero. Qed.

Lemma fp_mul_0 (x y : Fp) : (x * y = 0 ↔ x = 0 ∨ y = 0)%F.
Proof.
  split; [by apply (Zmod.mul_0_iff_prime prime_p)|]. intros [-> | ->]; ring.
Qed.
Lemma fp_mul_neq_0 (x y : Fp) : (x ≠ 0 → y ≠ 0 → x * y ≠ 0)%F.
Proof. rewrite fp_mul_0. tauto. Qed.
Lemma fp_mul_cancel (x y z : Fp) : (z ≠ 0 → z * x = z * y → x = y)%F.
Proof.
  intros Hz H. destruct (proj1 (fp_mul_0 z (x - y))) as [|E]; [|done|].
  - replace (z * (x - y))%F with (z * x - z * y)%F by ring. rewrite H. ring.
  - replace x with ((x - y) + y)%F by ring. rewrite E. ring.
Qed.
Lemma fsquares_eq (x y : Fp) : (x * x = y * y → x = y ∨ x = - y)%F.
Proof.
  intros H. destruct (proj1 (fp_mul_0 (x - y) (x + y))) as [E|E].
  - replace ((x - y) * (x + y))%F with (x * x - y * y)%F by ring. rewrite H. ring.
  - left. replace x with ((x - y) + y)%F by ring. rewrite E. ring.
  - right. replace x with ((x + y) + - y)%F by ring. rewrite E. ring.
Qed.
Lemma fp_sub_eq_0 (x y : Fp) : (x - y = 0 ↔ x = y)%F.
Proof.
  split; [|intros ->; ring]. intros E. replace x with ((x - y) + y)%F by ring. rewrite E. ring.
Qed.

(** * Powers *)

Definition fp_pow (x : Fp) (e : Z) : Fp := F (fval x ^ e).
Lemma F_pow a e : 0 <= e → F (a ^ e) = fp_pow (F a) e.
Proof.
  intros He. unfold fp_pow. rewrite fval_F, F_eqp. unfold eqp. by rewrite Z.mod_pow_l.
Qed.
Lemma fp_pow_add x a b : 0 <= a → 0 <= b → fp_pow x (a + b) = (fp_pow x a * fp_pow x b)%F.
Proof. intros. unfold fp_pow. by rewrite Z.pow_add_r, F_mul. Qed.
Lemma fp_pow_mul x a b : 0 <= a → 0 <= b → fp_pow x (a * b) = fp_pow (fp_pow x a) b.
Proof. intros. unfold fp_pow at 1 3. by rewrite Z.pow_mul_r, F_pow. Qed.
Lemma fp_pow_mul_l x y e : 0 <= e → fp_pow (x * y)%F e = (fp_pow x e * fp_pow y e)%F.
Proof.
  intros He. rewrite <- (F_val x), <- (F_val y), <- F_mul, <- !F_pow by done.
  by rewrite Z.pow_mul_l, F_mul.
Qed.
Lemma fp_pow_1 x : fp_pow x 1 = x.
Proof. unfold fp_pow. by rewrite Z.pow_1_r, F_val. Qed.
Lemma fp_pow_1_l e : 0 <= e → fp_pow 1%F e = 1%F.
Proof. intros. by rewrite <- F_1, <- F_pow, Z.pow_1_l. Qed.
Lemma fp_pow_0_l e : 0 < e → fp_pow 0%F e = 0%F.
Proof. intros. by rewrite <- F_0, <- F_pow, Z.pow_0_l by lia. Qed.

Lemma fermat (x : Fp) : x ≠ 0%F → fp_pow x (p25519 - 1) = 1%F.
Proof.
  intros Hx. unfold fp_pow. rewrite <- F_1. apply F_eqp. unfold eqp.
  rewrite Z.fermat_nz; [done|exact prime_p|]. intros E. apply Hx.
  rewrite <- (F_val x), <- F_0. apply F_eqp. unfold eqp. by rewrite E.
Qed.
(** The inverse the code computes, which sends zero to zero. *)
Lemma fp_pow_inv (x : Fp) : fp_pow x (p25519 - 2) = fp_inv x.
Proof.
  destruct (decide (x = 0%F)) as [->|Hx].
  - rewrite fp_pow_0_l by done. apply Zmod.unsigned_inj. symmetry. apply Zmod.unsigned_inv.
  - apply (fp_mul_cancel _ _ x); [done|].
    transitivity (fp_pow x (p25519 - 1)).
    + rewrite <- (fp_pow_1 x) at 1. by rewrite <- fp_pow_add by done.
    + rewrite fermat by done. field. done.
Qed.
Lemma fp_inv_0 : fp_inv 0%F = 0%F.
Proof. by rewrite <- fp_pow_inv, fp_pow_0_l. Qed.

Definition p_half : Z := (p25519 - 1) `div` 2.
Lemma p_half_nonneg : 0 <= p_half.
Proof. vm_compute. discriminate. Qed.
Lemma p_half_twice : p_half + p_half = p25519 - 1.
Proof. vm_compute. reflexivity. Qed.
(** Half the order: one or minus one. *)
Lemma fp_pow_half (x : Fp) : x ≠ 0%F →
  fp_pow x p_half = 1%F ∨ fp_pow x p_half = F (-1).
Proof.
  intros Hx. apply fsquares_eq. rewrite <- fp_pow_add, p_half_twice by apply p_half_nonneg.
  rewrite fermat by done. ring.
Qed.
(** A power that a machine computes. *)
Lemma fp_pow_compute a e b : 0 <= a → 0 <= b →
  BigN.to_Z (pow_mod (big a) (big p25519) e) = b `mod` p25519 → fp_pow (F a) (Z.pos e) = F b.
Proof.
  intros Ha Hb H. rewrite pow_mod_spec, !big_spec in H by done.
  rewrite <- F_pow by done. by apply F_eqp.
Qed.
(** A number whose power is minus one is no square. *)
Lemma nonsquare x : fp_pow x p_half = F (-1) → ∀ y, x ≠ (y * y)%F.
Proof.
  intros H y ->. destruct (decide (y = 0%F)) as [->|Hy].
  - replace (0 * 0)%F with 0%F in H by ring. rewrite fp_pow_0_l in H by (vm_compute; reflexivity).
    by apply (F_nonzero (-1)).
  - rewrite fp_pow_mul_l, <- fp_pow_add, p_half_twice in H by apply p_half_nonneg.
    rewrite fermat in H by done. apply f2_neq_0.
    replace (F 2) with (1 - F (-1))%F by ring. rewrite <- H. ring.
Qed.

(** From here on the operations are known by their laws. *)
#[global] Opaque F f0 f1 fp_add fp_sub fp_mul fp_opp fp_inv fp_div fp_pow fval.
