(* ===== verification/Edwards.v ===== *)
(** The twisted Edwards curve [-x^2 + y^2 = 1 + d x^2 y^2] of Ed25519 and its group.

    Points carry their curve equation, so that the group laws hold without side
    conditions: the addition formula is complete because [-1] is a square and [d]
    is not.  [smul] is multiplication by an integer. *)

From Stdlib Require Import Eqdep_dec.
From S2P Require Import Prelude DonnaField Prime Field25519.
Local Open Scope F_scope.

(** * The curve *)

Definition d25519 : Z :=
  37095705934669439343138083508754565189542113879843219016388785533085940283555.
Definition i25519 : Z :=
  19681161376707505956807079304988542015446066515923890162744021073123829784752.
Definition ed_d : Fp := F d25519.
Definition ed_i : Fp := F i25519.
Definition ed_w : Fp := fp_inv ed_d.

Lemma ed_d_ratio : F 121666 * ed_d = F (-121665).
Proof. unfold ed_d. rewrite <- F_mul. apply F_eqp. vm_compute. reflexivity. Qed.
Lemma ed_i_square : ed_i * ed_i = F (-1).
Proof. unfold ed_i. rewrite <- F_mul. apply F_eqp. vm_compute. reflexivity. Qed.
Lemma ed_d_neq_0 : ed_d ≠ 0.
Proof. apply F_nonzero. vm_compute. discriminate. Qed.
Lemma ed_w_d : ed_w * ed_d = 1.
Proof. unfold ed_w. field. apply ed_d_neq_0. Qed.
Lemma ed_d_power : fp_pow ed_d p_half = F (-1).
Proof.
  change p_half with (Z.pos (Z.to_pos p_half)). unfold ed_d.
  rewrite (fp_pow_compute _ _ (p25519 - 1)); [apply F_eqp; vm_compute; reflexivity|
    vm_compute; discriminate..|vm_compute; reflexivity].
Qed.
Lemma ed_d_nonsquare (y : Fp) : ed_d ≠ y * y.
Proof. apply nonsquare, ed_d_power. Qed.

Definition on_curve (x y : Fp) : Prop := y * y - x * x = 1 + ed_d * (x * x * (y * y)).

(** The equation as a rewriting rule. *)
Lemma on_curve_rule x y : on_curve x y → (x * x) * (y * y) = ed_w * (y * y - x * x - 1).
Proof.
  unfold on_curve. intros E. rewrite E.
  transitivity ((ed_w * ed_d) * (x * x * (y * y))); [|ring]. rewrite ed_w_d. ring.
Qed.

(** * Completeness *)

Ltac nonzero := repeat split; repeat apply fp_mul_neq_0; assumption.

(** The denominators of the addition formula never vanish. *)
Lemma no_unit_product x1 y1 x2 y2 e :
  on_curve x1 y1 → on_curve x2 y2 → e * e = 1 → ed_d * (x1 * x2 * y1 * y2) ≠ e.
Proof.
  unfold on_curve. intros E1 E2 He H.
  assert (Hne : ∀ z : Fp, z * 0 = 1 → False) by (intros z Hz; apply f1_neq_0; rewrite <- Hz; ring).
  assert (x1 ≠ 0) as Hx1 by (intros ->; apply (Hne 0); rewrite <- He, <- H; ring).
  assert (y1 ≠ 0) as Hy1 by (intros ->; apply (Hne 0); rewrite <- He, <- H; ring).
  assert (∀ s, s * s = 1 → ed_i * x2 + s * y2 = 0) as Hs.
  { intros s Hs. destruct (decide (ed_i * x2 + s * y2 = 0)) as [|Hn]; [done|exfalso].
    apply (ed_d_nonsquare ((ed_i * x1 + s * e * y1) / (x1 * y1 * (ed_i * x2 + s * y2)))).
    assert (ed_d * (x1 * y1 * (ed_i * x2 + s * y2)) * (x1 * y1 * (ed_i * x2 + s * y2)) =
            (ed_i * x1 + s * e * y1) * (ed_i * x1 + s * e * y1)) as E.
    { transitivity (ed_d * (x1 * x1 * (y1 * y1)) * (y2 * y2 - x2 * x2) +
        F 2 * ed_i * s * x1 * y1 * (ed_d * (x1 * x2 * y1 * y2))); [ring [Hs ed_i_square]|].
      rewrite E2, H.
      transitivity (ed_d * (x1 * x1 * (y1 * y1)) +
        (ed_d * (x1 * x2 * y1 * y2)) * (ed_d * (x1 * x2 * y1 * y2)) + F 2 * ed_i * s * x1 * y1 * e); [ring|].
      rewrite H, He. transitivity (y1 * y1 - x1 * x1 + F 2 * ed_i * s * x1 * y1 * e); [rewrite E1; ring|].
      ring [Hs He ed_i_square]. }
    apply (fp_mul_cancel _ _ ((x1 * y1 * (ed_i * x2 + s * y2)) * (x1 * y1 * (ed_i * x2 + s * y2))));
      [nonzero|].
    transitivity ((ed_i * x1 + s * e * y1) * (ed_i * x1 + s * e * y1)); [rewrite <- E; ring|].
    field. nonzero. }
  assert (y2 = 0) as Hy2.
  { apply (fp_mul_cancel _ _ (F 2)); [apply f2_neq_0|].
    transitivity ((ed_i * x2 + 1 * y2) - (ed_i * x2 + F (-1) * y2)); [ring|].
    rewrite (Hs 1), (Hs (F (-1))) by ring. ring. }
  apply (Hne 0). rewrite <- He, <- H, Hy2. ring.
Qed.

Definition delta (x1 y1 x2 y2 : Fp) : Fp := ed_d * (x1 * x2 * y1 * y2).
Lemma delta_plus x1 y1 x2 y2 : on_curve x1 y1 → on_curve x2 y2 → 1 + delta x1 y1 x2 y2 ≠ 0.
Proof.
  intros H1 H2 E. apply (no_unit_product x1 y1 x2 y2 (F (-1)) H1 H2); [ring|].
  transitivity ((1 + delta x1 y1 x2 y2) + F (-1)); [unfold delta; ring|]. rewrite E. ring.
Qed.
Lemma delta_minus x1 y1 x2 y2 : on_curve x1 y1 → on_curve x2 y2 → 1 - delta x1 y1 x2 y2 ≠ 0.
Proof.
  intros H1 H2 E. apply (no_unit_product x1 y1 x2 y2 1 H1 H2); [ring|].
  transitivity (1 - (1 - delta x1 y1 x2 y2)); [unfold delta; ring|]. rewrite E. ring.
Qed.

(** * Points *)

Record point := Point { px : Fp; py : Fp; point_on : on_curve px py }.

Lemma point_eq P Q : px P = px Q → py P = py Q → P = Q.
Proof.
  destruct P as [x y H], Q as [x' y' H']. cbn. intros -> ->. f_equal.
  apply UIP_dec. intros a b. apply Fp_eq_dec.
Qed.
#[export] Instance point_eq_dec : EqDecision point.
Proof.
  intros P Q. destruct (decide (px P = px Q)) as [Ex|Ex]; [|right; congruence].
  destruct (decide (py P = py Q)) as [Ey|Ey]; [left; by apply point_eq|right; congruence].
Defined.

Definition add_x (x1 y1 x2 y2 : Fp) : Fp := (x1 * y2 + x2 * y1) / (1 + delta x1 y1 x2 y2).
Definition add_y (x1 y1 x2 y2 : Fp) : Fp := (y1 * y2 + x1 * x2) / (1 - delta x1 y1 x2 y2).

(** A fraction is determined by its equation. *)
Lemma fraction_eq a b c : b ≠ 0 → a = c * b → a / b = c.
Proof. intros Hb ->. field. done. Qed.
Lemma fractions_eq a b c e : b ≠ 0 → e ≠ 0 → a * e = c * b → a / b = c / e.
Proof.
  intros Hb He E. apply fraction_eq; [done|]. apply (fp_mul_cancel _ _ e); [done|].
  transitivity (a * e); [ring|]. rewrite E. field. done.
Qed.

Lemma fraction_on_curve a b c e : b ≠ 0 → e ≠ 0 →
  c * c * (b * b) - a * a * (e * e) = b * b * (e * e) + ed_d * (a * a * (c * c)) →
  on_curve (a / b) (c / e).
Proof.
  intros Hb He H. unfold on_curve. apply (fp_mul_cancel _ _ (b * b * (e * e))); [nonzero|].
  transitivity (c * c * (b * b) - a * a * (e * e)); [field; by split|]. rewrite H. field. by split.
Qed.

Lemma add_on_curve x1 y1 x2 y2 : on_curve x1 y1 → on_curve x2 y2 →
  on_curve (add_x x1 y1 x2 y2) (add_y x1 y1 x2 y2).
Proof.
  intros H1 H2. apply fraction_on_curve; [by apply delta_plus|by apply delta_minus|].
  apply on_curve_rule in H1, H2. unfold delta. ring [H1 H2 ed_w_d].
Qed.

Definition padd (P Q : point) : point :=
  Point (add_x (px P) (py P) (px Q) (py Q)) (add_y (px P) (py P) (px Q) (py Q))
    (add_on_curve _ _ _ _ (point_on P) (point_on Q)).

Lemma zero_on_curve : on_curve 0 1.
Proof. unfold on_curve. ring. Qed.
Definition pzero : point := Point 0 1 zero_on_curve.
Lemma opp_on_curve x y : on_curve x y → on_curve (- x) y.
Proof.
  unfold on_curve. intros E. transitivity (y * y - x * x); [ring|]. rewrite E. ring.
Qed.
Definition popp (P : point) : point := Point (- px P) (py P) (opp_on_curve _ _ (point_on P)).

Declare Scope point_scope.
Delimit Scope point_scope with pt.
Bind Scope point_scope with point.
Infix "+" := padd : point_scope.
Notation "- P" := (popp P) : point_scope.
Notation "P - Q" := (padd P (popp Q)) : point_scope.
Notation "0" := pzero : point_scope.

Lemma padd_comm P Q : (P + Q = Q + P)%pt.
Proof.
  apply point_eq; cbn; unfold add_x, add_y, delta; f_equal; try ring; f_equal; ring.
Qed.
Lemma padd_0_l P : (0 + P = P)%pt.
Proof.
  apply point_eq; cbn; unfold add_x, add_y, delta; (apply fraction_eq; [|ring]); intros E;
    apply f1_neq_0; rewrite <- E; ring.
Qed.
Lemma padd_0_r P : (P + 0 = P)%pt.
Proof. rewrite padd_comm. apply padd_0_l. Qed.
Lemma padd_opp P : (P - P = 0)%pt.
Proof.
  destruct P as [x y H]. pose proof (opp_on_curve _ _ H) as H'.
  apply point_eq; cbn; unfold add_x, add_y; (apply fraction_eq; [by apply delta_plus || by apply delta_minus|]).
  - unfold delta. ring.
  - unfold delta. unfold on_curve in H. transitivity (y * y - x * x); [ring|]. rewrite H. ring.
Qed.

(** Sums of three points over the product of the inner denominators. *)
Lemma assoc_x_identity x1 y1 x2 y2 x3 y3 :
  on_curve x1 y1 → on_curve x2 y2 → on_curve x3 y3 →
  let D12 := delta x1 y1 x2 y2 in let D23 := delta x2 y2 x3 y3 in
  ((x1 * y2 + x2 * y1) * (1 - D12) * y3 + x3 * (y1 * y2 + x1 * x2) * (1 + D12)) *
  ((1 + D23) * (1 - D23) + ed_d * (x1 * y1) * (x2 * y3 + x3 * y2) * (y2 * y3 + x2 * x3)) =
  (x1 * (y2 * y3 + x2 * x3) * (1 + D23) + y1 * (x2 * y3 + x3 * y2) * (1 - D23)) *
  ((1 + D12) * (1 - D12) + ed_d * (x3 * y3) * (x1 * y2 + x2 * y1) * (y1 * y2 + x1 * x2)).
Proof.
  intros R1%on_curve_rule R2%on_curve_rule R3%on_curve_rule. cbv zeta. unfold delta.
  ring [R1 R2 R3 ed_w_d].
Qed.
Lemma assoc_y_identity x1 y1 x2 y2 x3 y3 :
  on_curve x1 y1 → on_curve x2 y2 → on_curve x3 y3 →
  let D12 := delta x1 y1 x2 y2 in let D23 := delta x2 y2 x3 y3 in
  ((y1 * y2 + x1 * x2) * (1 + D12) * y3 + (x1 * y2 + x2 * y1) * (1 - D12) * x3) *
  ((1 + D23) * (1 - D23) - ed_d * (x1 * y1) * (x2 * y3 + x3 * y2) * (y2 * y3 + x2 * x3)) =
  (y1 * (y2 * y3 + x2 * x3) * (1 + D23) + x1 * (x2 * y3 + x3 * y2) * (1 - D23)) *
  ((1 + D12) * (1 - D12) - ed_d * (x3 * y3) * (x1 * y2 + x2 * y1) * (y1 * y2 + x1 * x2)).
Proof.
  intros R1%on_curve_rule R2%on_curve_rule R3%on_curve_rule. cbv zeta. unfold delta.
  ring [R1 R2 R3 ed_w_d].
Qed.

(** Adding to a point given by fractions. *)
Lemma delta_fraction a b c e x y : b ≠ 0 → e ≠ 0 →
  delta (a / b) (c / e) x y = ed_d * (x * y) * a * c / (b * e).
Proof. intros Hb He. unfold delta. field. by split. Qed.
Lemma add_x_fraction a b c e x y : b ≠ 0 → e ≠ 0 → 1 + delta (a / b) (c / e) x y ≠ 0 →
  b * e + ed_d * (x * y) * a * c ≠ 0 ∧
  add_x (a / b) (c / e) x y = (a * e * y + x * c * b) / (b * e + ed_d * (x * y) * a * c).
Proof.
  intros Hb He. unfold add_x. rewrite delta_fraction by done. intros Hd.
  assert (1 + ed_d * (x * y) * a * c / (b * e) = (b * e + ed_d * (x * y) * a * c) / (b * e)) as E
    by (field; by split). rewrite E in *.
  assert (b * e + ed_d * (x * y) * a * c ≠ 0) as Hn by (intros Hz; apply Hd; rewrite Hz; field; by split).
  split; [done|]. apply fractions_eq; [done..|]. field. by split.
Qed.
Lemma add_y_fraction a b c e x y : b ≠ 0 → e ≠ 0 → 1 - delta (a / b) (c / e) x y ≠ 0 →
  b * e - ed_d * (x * y) * a * c ≠ 0 ∧
  add_y (a / b) (c / e) x y = (c * b * y + a * e * x) / (b * e - ed_d * (x * y) * a * c).
Proof.
  intros Hb He. unfold add_y. rewrite delta_fraction by done. intros Hd.
  assert (1 - ed_d * (x * y) * a * c / (b * e) = (b * e - ed_d * (x * y) * a * c) / (b * e)) as E
    by (field; by split). rewrite E in *.
  assert (b * e - ed_d * (x * y) * a * c ≠ 0) as Hn by (intros Hz; apply Hd; rewrite Hz; field; by split).
  split; [done|]. apply fractions_eq; [done..|]. field. by split.
Qed.

Lemma padd_assoc P Q R : (P + (Q + R) = P + Q + R)%pt.
Proof.
  rewrite (padd_comm P). destruct P as [x1 y1 H1], Q as [x2 y2 H2], R as [x3 y3 H3].
  pose proof (add_on_curve _ _ _ _ H1 H2) as H12. pose proof (add_on_curve _ _ _ _ H2 H3) as H23.
  pose proof (delta_plus _ _ _ _ H1 H2). pose proof (delta_minus _ _ _ _ H1 H2).
  pose proof (delta_plus _ _ _ _ H2 H3). pose proof (delta_minus _ _ _ _ H2 H3).
  apply point_eq; cbn [padd px py].
  - destruct (add_x_fraction (x2 * y3 + x3 * y2) (1 + delta x2 y2 x3 y3) (y2 * y3 + x2 * x3)
      (1 - delta x2 y2 x3 y3) x1 y1) as [N1 E1]; [done..|by apply delta_plus|].
    destruct (add_x_fraction (x1 * y2 + x2 * y1) (1 + delta x1 y1 x2 y2) (y1 * y2 + x1 * x2)
      (1 - delta x1 y1 x2 y2) x3 y3) as [N2 E2]; [done..|by apply delta_plus|].
    fold (add_x x2 y2 x3 y3) (add_y x2 y2 x3 y3) in E1. fold (add_x x1 y1 x2 y2) (add_y x1 y1 x2 y2) in E2.
    rewrite E1, E2. apply fractions_eq; [done..|].
    pose proof (assoc_x_identity _ _ _ _ _ _ H1 H2 H3) as A. cbv zeta in A. 
    symmetry. etransitivity; [etransitivity; [|exact A]|]; ring.
  - destruct (add_y_fraction (x2 * y3 + x3 * y2) (1 + delta x2 y2 x3 y3) (y2 * y3 + x2 * x3)
      (1 - delta x2 y2 x3 y3) x1 y1) as [N1 E1]; [done..|by apply delta_minus|].
    destruct (add_y_fraction (x1 * y2 + x2 * y1) (1 + delta x1 y1 x2 y2) (y1 * y2 + x1 * x2)
      (1 - delta x1 y1 x2 y2) x3 y3) as [N2 E2]; [done..|by apply delta_minus|].
    fold (add_x x2 y2 x3 y3) (add_y x2 y2 x3 y3) in E1. fold (add_x x1 y1 x2 y2) (add_y x1 y1 x2 y2) in E2.
    rewrite E1, E2. apply fractions_eq; [done..|].
    pose proof (assoc_y_identity _ _ _ _ _ _ H1 H2 H3) as A. cbv zeta in A.
    symmetry. etransitivity; [etransitivity; [|exact A]|]; ring.
Qed.

(** * Multiples *)

Local Open Scope point_scope.

Lemma padd_cancel_l P Q R : P + Q = P + R → Q = R.
Proof.
  intros E. rewrite <- (padd_0_l Q), <- (padd_0_l R), <- (padd_opp P).
  rewrite (padd_comm P), <- !padd_assoc. by rewrite E.
Qed.
Lemma popp_unique P Q : P + Q = 0 → Q = - P.
Proof. intros E. apply (padd_cancel_l P). by rewrite E, padd_opp. Qed.
Lemma popp_add P Q : - (P + Q) = - P - Q.
Proof.
  symmetry. apply popp_unique. rewrite padd_assoc, <- (padd_assoc P), (padd_comm Q), (padd_assoc P).
  by rewrite padd_opp, padd_0_l, padd_opp.
Qed.
Lemma popp_opp P : - (- P) = P.
Proof. symmetry. apply popp_unique. rewrite padd_comm. apply padd_opp. Qed.
Lemma popp_0 : - 0 = 0.
Proof. symmetry. apply popp_unique, padd_0_l. Qed.
Lemma padd_swap P Q R S : P + Q + (R + S) = P + R + (Q + S).
Proof. rewrite !padd_assoc. f_equal. rewrite <- !padd_assoc. f_equal. apply padd_comm. Qed.

Definition smul (n : Z) (P : point) : point :=
  match n with
  | Z0 => 0
  | Zpos m => Pos.iter (λ Q, Q + P) 0 m
  | Zneg m => - Pos.iter (λ Q, Q + P) 0 m
  end.

Lemma smul_0 P : smul 0 P = 0. Proof. done. Qed.
Lemma smul_1 P : smul 1 P = P. Proof. apply padd_0_l. Qed.
Lemma smul_succ n P : smul (n + 1) P = smul n P + P.
Proof.
  destruct n as [|m|m].
  - done.
  - replace (Z.pos m + 1)%Z with (Z.pos (Pos.succ m)) by lia. apply Pos.iter_succ.
  - destruct (decide (m = 1%positive)) as [->|Hm].
    + cbn. by rewrite padd_0_l, padd_comm, padd_opp.
    + replace (Z.neg m + 1)%Z with (Z.neg (Pos.pred m)) by lia. cbn [smul].
      rewrite <- (Pos.succ_pred m Hm) at 2. rewrite Pos.iter_succ, popp_add, <- padd_assoc.
      by rewrite (padd_comm (- P)), padd_opp, padd_0_r.
Qed.
Lemma Z_up_down (A : Z → Prop) :
  A 0%Z → (∀ n, A n → A (n + 1)%Z) → (∀ n, A (n + 1)%Z → A n) → ∀ n, A n.
Proof.
  intros H0 Hup Hdown. apply Z.bi_induction; [solve_proper|done|].
  intros n. rewrite <- Z.add_1_r. split; auto.
Qed.
Lemma smul_add a b P : smul (a + b) P = smul a P + smul b P.
Proof.
  induction b as [|b IH|b IH] using Z_up_down.
  - by rewrite Z.add_0_r, smul_0, padd_0_r.
  - by rewrite Z.add_assoc, !smul_succ, IH, padd_assoc.
  - apply (padd_cancel_l P). rewrite (padd_comm P), <- smul_succ.
    rewrite (padd_comm P), <- padd_assoc, <- smul_succ.
    by rewrite <- Z.add_assoc.
Qed.
Lemma smul_opp a P : smul (- a) P = - smul a P.
Proof. apply popp_unique. by rewrite <- smul_add, Z.add_opp_diag_r. Qed.
Lemma smul_sub a b P : smul (a - b) P = smul a P - smul b P.
Proof. by rewrite <- Z.add_opp_r, smul_add, smul_opp. Qed.
Lemma smul_mul a b P : smul (a * b) P = smul a (smul b P).
Proof.
  induction a as [|a IH|a IH] using Z_up_down.
  - done.
  - by rewrite Z.mul_add_distr_r, Z.mul_1_l, smul_add, IH, smul_succ.
  - apply (padd_cancel_l (smul b P)). rewrite <- smul_add, padd_comm, <- smul_succ.
    replace (b + a * b)%Z with ((a + 1) * b)%Z by lia. exact IH.
Qed.
Lemma smul_padd a P Q : smul a (P + Q) = smul a P + smul a Q.
Proof.
  induction a as [|a IH|a IH] using Z_up_down.
  - by rewrite !smul_0, padd_0_l.
  - by rewrite !smul_succ, IH, padd_swap.
  - apply (padd_cancel_l (P + Q)). rewrite padd_swap, !(padd_comm _ (smul a _)), <- !smul_succ. exact IH.
Qed.
Lemma smul_popp a P : smul a (- P) = - smul a P.
Proof. rewrite <- smul_opp. replace (- a)%Z with (a * -1)%Z by lia. rewrite smul_mul. cbn. by rewrite padd_0_l. Qed.
Lemma smul_zero a : smul a 0 = 0.
Proof. apply (padd_cancel_l (smul a 0)). by rewrite <- smul_padd, !padd_0_r. Qed.
Lemma smul_comm a b P : smul a (smul b P) = smul b (smul a P).
Proof. by rewrite <- !smul_mul, Z.mul_comm. Qed.
Lemma smul_2 P : smul 2 P = P + P.
Proof. cbn. by rewrite padd_0_l. Qed.
