(* ===== verification/Ge.v ===== *)
(** The group of Ed25519: the ge_*.c files of curve25519/ed25519 and its additions/.

    A function that writes through its first argument returns what it writes.
    [None] is undefined behaviour: an overflow in a field operation or a read
    outside an array.  [signed char] values are integers that every assignment
    wraps to eight bits. *)

From S2P Require Import Prelude Limbs Fe GeBase Sha512.
Import Fe.

Module Ge.

(** * Conversions *)

Definition ge_p2_0 : ge_p2 := GeP2 fe_0 fe_1 fe_1.
Definition ge_p3_0 : ge_p3 := GeP3 fe_0 fe_1 fe_1 fe_0.
Definition ge_precomp_0 : ge_precomp := GePrecomp fe_1 fe_1 fe_0.

Definition ge_p3_to_p2 (p : ge_p3) : option ge_p2 :=
  X ← fe_copy (p3_X p); Y ← fe_copy (p3_Y p); Z ← fe_copy (p3_Z p); Some (GeP2 X Y Z).
Definition ge_p3_to_cached (p : ge_p3) : option ge_cached :=
  yp ← fe_add (p3_Y p) (p3_X p); ym ← fe_sub (p3_Y p) (p3_X p);
  Z ← fe_copy (p3_Z p); t ← fe_mul (p3_T p) fe_d2; Some (GeCached yp ym Z t).
Definition ge_p1p1_to_p2 (p : ge_p1p1) : option ge_p2 :=
  X ← fe_mul (p1_X p) (p1_T p); Y ← fe_mul (p1_Y p) (p1_Z p); Z ← fe_mul (p1_Z p) (p1_T p);
  Some (GeP2 X Y Z).
Definition ge_p1p1_to_p3 (p : ge_p1p1) : option ge_p3 :=
  X ← fe_mul (p1_X p) (p1_T p); Y ← fe_mul (p1_Y p) (p1_Z p); Z ← fe_mul (p1_Z p) (p1_T p);
  T ← fe_mul (p1_X p) (p1_Y p); Some (GeP3 X Y Z T).

(** * Addition

    The fields of [r] hold the intermediate values, as in the .h files. *)

Definition ge_p2_dbl (p : ge_p2) : option ge_p1p1 :=
  rX ← fe_sq (p2_X p);
  rZ ← fe_sq (p2_Y p);
  rT ← fe_sq2 (p2_Z p);
  rY ← fe_add (p2_X p) (p2_Y p);
  t0 ← fe_sq rY;
  rY ← fe_add rZ rX;
  rZ ← fe_sub rZ rX;
  rX ← fe_sub t0 rY;
  rT ← fe_sub rT rZ;
  Some (GeP1p1 rX rY rZ rT).
Definition ge_p3_dbl (p : ge_p3) : option ge_p1p1 :=
  q ← ge_p3_to_p2 p; ge_p2_dbl q.

Definition ge_add (p : ge_p3) (q : ge_cached) : option ge_p1p1 :=
  rX ← fe_add (p3_Y p) (p3_X p);
  rY ← fe_sub (p3_Y p) (p3_X p);
  rZ ← fe_mul rX (YplusX q);
  rY ← fe_mul rY (YminusX q);
  rT ← fe_mul (T2d q) (p3_T p);
  rX ← fe_mul (p3_Z p) (c_Z q);
  t0 ← fe_add rX rX;
  rX ← fe_sub rZ rY;
  rY ← fe_add rZ rY;
  rZ ← fe_add t0 rT;
  rT ← fe_sub t0 rT;
  Some (GeP1p1 rX rY rZ rT).
Definition ge_sub (p : ge_p3) (q : ge_cached) : option ge_p1p1 :=
  rX ← fe_add (p3_Y p) (p3_X p);
  rY ← fe_sub (p3_Y p) (p3_X p);
  rZ ← fe_mul rX (YminusX q);
  rY ← fe_mul rY (YplusX q);
  rT ← fe_mul (T2d q) (p3_T p);
  rX ← fe_mul (p3_Z p) (c_Z q);
  t0 ← fe_add rX rX;
  rX ← fe_sub rZ rY;
  rY ← fe_add rZ rY;
  rZ ← fe_sub t0 rT;
  rT ← fe_add t0 rT;
  Some (GeP1p1 rX rY rZ rT).
Definition ge_madd (p : ge_p3) (q : ge_precomp) : option ge_p1p1 :=
  rX ← fe_add (p3_Y p) (p3_X p);
  rY ← fe_sub (p3_Y p) (p3_X p);
  rZ ← fe_mul rX (yplusx q);
  rY ← fe_mul rY (yminusx q);
  rT ← fe_mul (xy2d q) (p3_T p);
  t0 ← fe_add (p3_Z p) (p3_Z p);
  rX ← fe_sub rZ rY;
  rY ← fe_add rZ rY;
  rZ ← fe_add t0 rT;
  rT ← fe_sub t0 rT;
  Some (GeP1p1 rX rY rZ rT).
Definition ge_msub (p : ge_p3) (q : ge_precomp) : option ge_p1p1 :=
  rX ← fe_add (p3_Y p) (p3_X p);
  rY ← fe_sub (p3_Y p) (p3_X p);
  rZ ← fe_mul rX (yminusx q);
  rY ← fe_mul rY (yplusx q);
  rT ← fe_mul (xy2d q) (p3_T p);
  t0 ← fe_add (p3_Z p) (p3_Z p);
  rX ← fe_sub rZ rY;
  rY ← fe_add rZ rY;
  rZ ← fe_sub t0 rT;
  rT ← fe_add t0 rT;
  Some (GeP1p1 rX rY rZ rT).

Definition ge_neg (p : ge_p3) : option ge_p3 :=
  X ← fe_neg (p3_X p); Y ← fe_copy (p3_Y p); Z ← fe_copy (p3_Z p); T ← fe_neg (p3_T p);
  Some (GeP3 X Y Z T).
Definition ge_isneutral (p : ge_p3) : option Z :=
  a ← fe_isequal (p3_X p) fe_0; b ← fe_isequal (p3_Y p) (p3_Z p); Some (Z.land a b).
Definition ge_p3_add (p q : ge_p3) : option ge_p3 :=
  p_cached ← ge_p3_to_cached p; r_p1p1 ← ge_add q p_cached; ge_p1p1_to_p3 r_p1p1.
Definition ge_scalarmult_cofactor (p : ge_p3) : option ge_p3 :=
  p1p1 ← ge_p3_dbl p; p2 ← ge_p1p1_to_p2 p1p1;
  p1p1 ← ge_p2_dbl p2; p2 ← ge_p1p1_to_p2 p1p1;
  p1p1 ← ge_p2_dbl p2; ge_p1p1_to_p3 p1p1.

(** * Encoding *)

(** [s[31] ^= fe_isnegative(x) << 7], after [fe_tobytes(s, y)]. *)
Definition encode_point (X Y Z : fe) : option bytes :=
  recip ← fe_invert Z;
  x ← fe_mul X recip;
  y ← fe_mul Y recip;
  s ← fe_tobytes y;
  b ← s !! 31%nat;
  n ← fe_isnegative x;
  Some (<[31%nat := u8 (Z.lxor b (Z.shiftl n 7))]> s).
Definition ge_tobytes (h : ge_p2) : option bytes := encode_point (p2_X h) (p2_Y h) (p2_Z h).
Definition ge_p3_tobytes (h : ge_p3) : option bytes := encode_point (p3_X h) (p3_Y h) (p3_Z h).

(** [Some None] is the return value [-1]. *)
Definition ge_frombytes_negate_vartime (s : bytes) : option (option ge_p3) :=
  Y ← fe_frombytes s;
  let Z := fe_1 in
  u ← fe_sq Y;
  v ← fe_mul u fe_d;
  u ← fe_sub u Z;
  v ← fe_add v Z;
  v3 ← fe_sq v;
  v3 ← fe_mul v3 v;
  X ← fe_sq v3;
  X ← fe_mul X v;
  X ← fe_mul X u;
  X ← fe_pow22523 X;
  X ← fe_mul X v3;
  X ← fe_mul X u;
  vxx ← fe_sq X;
  vxx ← fe_mul vxx v;
  check ← fe_sub vxx u;
  nz ← fe_isnonzero check;
  X ← (if nz =? 0 then Some (Some X) else
        check ← fe_add vxx u;
        nz ← fe_isnonzero check;
        if nz =? 0 then X ← fe_mul X fe_sqrtm1; Some (Some X) else Some None);
  match X with
  | None => Some None
  | Some X =>
    n ← fe_isnegative X;
    b ← s !! 31%nat;
    X ← (if n =? Z.shiftr b 7 then fe_neg X else Some X);
    T ← fe_mul X Y;
    Some (Some (GeP3 X Y Z T))
  end.

(** * Signed digits *)

Definition schar (z : Z) : Z := (z + 128) `mod` 256 - 128.

(** [e[2 * i + 0] = (a[i] >> 0) & 15; e[2 * i + 1] = (a[i] >> 4) & 15;] *)
Definition nibbles (a : bytes) : option (list Z) :=
  e ← mapM (λ i, x ← a !! i; Some [Z.land (Z.shiftr x 0) 15; Z.land (Z.shiftr x 4) 15]) (seq 0 32);
  Some (mjoin e).
Definition recode_digit (i : nat) (s : list Z * Z) : option (list Z * Z) :=
  let '(e, carry) := s in
  x ← e !! i;
  let x := schar (x + carry) in
  let carry := Z.shiftr (schar (x + 8)) 4 in
  Some (<[i := schar (x - Z.shiftl carry 4)]> e, carry).
Definition recode (a : bytes) : option (list Z) :=
  e ← nibbles a;
  '(e, carry) ← for_each recode_digit (seq 0 63) (e, 0);
  x ← e !! 63%nat;
  Some (<[63%nat := schar (x + carry)]> e).

Definition equal (b c : Z) : Z := Z.shiftr (u32 (Z.lxor (u8 b) (u8 c) - 1)) 31.
Definition negative (b : Z) : Z := Z.shiftr (usize b) 63.
Definition babs (b : Z) : Z := u8 (b - Z.shiftl (Z.land (- negative b) b) 1).

(** * Fixed-base multiplication *)

Definition precomp_cmov (t u : ge_precomp) (b : Z) : option ge_precomp :=
  yp ← fe_cmov (yplusx t) (yplusx u) b; ym ← fe_cmov (yminusx t) (yminusx u) b;
  xy ← fe_cmov (xy2d t) (xy2d u) b; Some (GePrecomp yp ym xy).
Definition select_base (pos : nat) (b : Z) : option ge_precomp :=
  t ← for_each (λ j t, row ← base !! pos; u ← row !! j;
        precomp_cmov t u (equal (schar (babs b)) (Z.of_nat (j + 1)))) (seq 0 8) ge_precomp_0;
  yp ← fe_copy (yminusx t); ym ← fe_copy (yplusx t); xy ← fe_neg (xy2d t);
  precomp_cmov t (GePrecomp yp ym xy) (negative b).

(** [select(&t, i / 2, e[i]); ge_madd(&r, h, &t); ge_p1p1_to_p3(h, &r);] *)
Definition base_step (e : list Z) (i : nat) (h : ge_p3) : option ge_p3 :=
  x ← e !! i; t ← select_base (i / 2) x; r ← ge_madd h t; ge_p1p1_to_p3 r.
(** [r = 2 * s] three times more, from [r]. *)
Definition dbl3 (r : ge_p1p1) : option ge_p3 :=
  s ← ge_p1p1_to_p2 r; r ← ge_p2_dbl s; s ← ge_p1p1_to_p2 r;
  r ← ge_p2_dbl s; s ← ge_p1p1_to_p2 r; r ← ge_p2_dbl s; ge_p1p1_to_p3 r.
Definition ge_scalarmult_base (a : bytes) : option ge_p3 :=
  e ← recode a;
  h ← for_each (base_step e) (steps2 1 64) ge_p3_0;
  r ← ge_p3_dbl h;
  h ← dbl3 r;
  for_each (base_step e) (steps2 0 64) h.

(** * Multiplication of a point *)

Definition cached_cmov (t u : ge_cached) (b : Z) : option ge_cached :=
  yp ← fe_cmov (YplusX t) (YplusX u) b; ym ← fe_cmov (YminusX t) (YminusX u) b;
  Z ← fe_cmov (c_Z t) (c_Z u) b; t2 ← fe_cmov (T2d t) (T2d u) b; Some (GeCached yp ym Z t2).
Definition select_cached (pre : list ge_cached) (b : Z) : option ge_cached :=
  t ← for_each (λ j t, u ← pre !! j; cached_cmov t u (equal (schar (babs b)) (Z.of_nat (j + 1))))
        (seq 0 8) (GeCached fe_1 fe_1 fe_1 fe_0);
  yp ← fe_copy (YminusX t); ym ← fe_copy (YplusX t); Z ← fe_copy (c_Z t); t2 ← fe_neg (T2d t);
  cached_cmov t (GeCached yp ym Z t2) (negative b).

(** [A], [2A], ..., [8A]. *)
Definition ge_multiples (A : ge_p3) : option (list ge_cached) :=
  pre0 ← ge_p3_to_cached A;
  r ← ge_p3_dbl A; t0 ← ge_p1p1_to_p3 r; pre1 ← ge_p3_to_cached t0;
  r ← ge_add A pre1; t1 ← ge_p1p1_to_p3 r; pre2 ← ge_p3_to_cached t1;
  r ← ge_p3_dbl t0; t0 ← ge_p1p1_to_p3 r; pre3 ← ge_p3_to_cached t0;
  r ← ge_add A pre3; t2 ← ge_p1p1_to_p3 r; pre4 ← ge_p3_to_cached t2;
  r ← ge_p3_dbl t1; t1 ← ge_p1p1_to_p3 r; pre5 ← ge_p3_to_cached t1;
  r ← ge_add A pre5; t1 ← ge_p1p1_to_p3 r; pre6 ← ge_p3_to_cached t1;
  r ← ge_p3_dbl t0; t0 ← ge_p1p1_to_p3 r; pre7 ← ge_p3_to_cached t0;
  Some [pre0; pre1; pre2; pre3; pre4; pre5; pre6; pre7].
Definition mult_add (pre : list ge_cached) (e : list Z) (i : nat) (h : ge_p3) : option ge_p1p1 :=
  x ← e !! i; t ← select_cached pre x; ge_add h t.
(** One round of the loop, which doubles four times after adding. *)
Definition mult_step (pre : list ge_cached) (e : list Z) (i : nat) (h : ge_p3) : option ge_p3 :=
  r ← mult_add pre e i h; s ← ge_p1p1_to_p2 r; r ← ge_p2_dbl s; dbl3 r.
Definition ge_scalarmult (a : bytes) (A : ge_p3) : option ge_p3 :=
  e ← recode a;
  pre ← ge_multiples A;
  h ← for_each (mult_step pre e) (rev (seq 1 63)) ge_p3_0;
  r ← mult_add pre e 0 h;
  ge_p1p1_to_p3 r.

(** * Double multiplication *)

(** [for (k = i + b; k < 256; ++k)], [n] rounds. *)
Fixpoint slide_carry (n k : nat) (r : list Z) : option (list Z) :=
  match n with
  | O => Some r
  | S n =>
    x ← r !! k;
    if x =? 0 then Some (<[k := 1]> r) else slide_carry n (k + 1) (<[k := 0]> r)
  end.
(** [for (b = 1; b <= 6 && i + b < 256; ++b)], [n] rounds to [b = 6]. *)
Fixpoint slide_digit (i n b : nat) (r : list Z) : option (list Z) :=
  match n with
  | O => Some r
  | S n =>
    if (i + b <? 256)%nat then
      y ← r !! (i + b)%nat;
      if y =? 0 then slide_digit i n (b + 1) r else
      x ← r !! i;
      let s := Z.shiftl y (Z.of_nat b) in
      if x + s <=? 15 then
        slide_digit i n (b + 1) (<[(i + b)%nat := 0]> (<[i := schar (x + s)]> r))
      else if -15 <=? x - s then
        r ← slide_carry (256 - (i + b)) (i + b) (<[i := schar (x - s)]> r);
        slide_digit i n (b + 1) r
      else Some r
    else Some r
  end.
Definition slide_bits (a : bytes) : option (list Z) :=
  mapM (λ i, x ← a !! (i / 8)%nat; Some (Z.land 1 (Z.shiftr x (Z.of_nat (i mod 8))))) (seq 0 256).
Definition slide (a : bytes) : option (list Z) :=
  r ← slide_bits a;
  for_each (λ i r, x ← r !! i; if x =? 0 then Some r else slide_digit i 6 1 r) (seq 0 256) r.

(** [A], [3A], ..., [15A]: [n] more, the last being [c]. *)
Fixpoint odd_multiples (n : nat) (A2 : ge_p3) (c : ge_cached) : option (list ge_cached) :=
  match n with
  | O => Some [c]
  | S n =>
    t ← ge_add A2 c; u ← ge_p1p1_to_p3 t; c' ← ge_p3_to_cached u;
    l ← odd_multiples n A2 c'; Some (c :: l)
  end.

(** The index of the highest nonzero digit below [n], plus one. *)
Fixpoint top_digit (aslide bslide : list Z) (n : nat) : option nat :=
  match n with
  | O => Some O
  | S i =>
    x ← aslide !! i; y ← bslide !! i;
    if negb (x =? 0) || negb (y =? 0) then Some (S i) else top_digit aslide bslide i
  end.
Definition add_digit (Ai : list ge_cached) (x : Z) (t : ge_p1p1) : option ge_p1p1 :=
  if 0 <? x then u ← ge_p1p1_to_p3 t; q ← Ai !! Z.to_nat (x ÷ 2); ge_add u q
  else if x <? 0 then u ← ge_p1p1_to_p3 t; q ← Ai !! Z.to_nat (- x ÷ 2); ge_sub u q
  else Some t.
Definition madd_digit (x : Z) (t : ge_p1p1) : option ge_p1p1 :=
  if 0 <? x then u ← ge_p1p1_to_p3 t; q ← Bi !! Z.to_nat (x ÷ 2); ge_madd u q
  else if x <? 0 then u ← ge_p1p1_to_p3 t; q ← Bi !! Z.to_nat (- x ÷ 2); ge_msub u q
  else Some t.
(** [for (;i >= 0;--i)], from [i = n - 1]. *)
Fixpoint double_loop (Ai : list ge_cached) (aslide bslide : list Z) (n : nat) (r : ge_p2) : option ge_p2 :=
  match n with
  | O => Some r
  | S i =>
    t ← ge_p2_dbl r;
    x ← aslide !! i; t ← add_digit Ai x t;
    y ← bslide !! i; t ← madd_digit y t;
    r ← ge_p1p1_to_p2 t;
    double_loop Ai aslide bslide i r
  end.
Definition ge_double_scalarmult_vartime (a : bytes) (A : ge_p3) (b : bytes) : option ge_p2 :=
  aslide ← slide a;
  bslide ← slide b;
  c ← ge_p3_to_cached A;
  t ← ge_p3_dbl A; A2 ← ge_p1p1_to_p3 t;
  Ai ← odd_multiples 7 A2 c;
  n ← top_digit aslide bslide 256;
  double_loop Ai aslide bslide n ge_p2_0.

(** * Montgomery coordinates *)

Definition A_bytes : bytes :=
  [0x06; 0x7e; 0x45; 0xff; 0xaa; 0x04; 0x6e; 0xcc; 0x82; 0x1a; 0x7d; 0x4b; 0xd1; 0xd3; 0xa1; 0xc5;
   0x7e; 0x4f; 0xfc; 0x03; 0xdc; 0x08; 0x7b; 0xd2; 0xbb; 0x06; 0xa0; 0x60; 0xf4; 0xed; 0x26; 0x0f].
Definition d_bytes : bytes :=
  [0xa3; 0x78; 0x59; 0x13; 0xca; 0x4d; 0xeb; 0x75; 0xab; 0xd8; 0x41; 0x41; 0x4d; 0x0a; 0x70; 0x00;
   0x98; 0xe8; 0x79; 0x77; 0x79; 0x40; 0xc7; 0x8c; 0x73; 0xfe; 0x6f; 0x2b; 0xee; 0x6c; 0x03; 0x52].
(** The block of the postcondition; a failed assertion is [None]. *)
Definition check_on_curve (X Y : fe) : option () :=
  d ← fe_frombytes d_bytes;
  x2 ← fe_sq X;
  y2 ← fe_sq Y;
  dx2y2 ← fe_mul x2 y2;
  dx2y2 ← fe_mul dx2y2 d;
  dx2y2 ← fe_add dx2y2 fe_1;
  x2y2 ← fe_neg x2;
  x2y2 ← fe_add x2y2 y2;
  e ← fe_isequal x2y2 dx2y2;
  if e =? 0 then None else Some ().
Definition ge_montx_to_p3 (u : fe) (ed_sign_bit : Z) : option ge_p3 :=
  A ← fe_frombytes A_bytes;
  y ← fe_montx_to_edy u;
  v2 ← fe_mont_rhs u;
  v ← fe_sqrt v2;
  x ← fe_mul u A;
  iv ← fe_invert v;
  x ← fe_mul x iv;
  nx ← fe_neg x;
  n ← fe_isnegative x;
  x ← fe_cmov x nx (Z.lxor n ed_sign_bit);
  X ← fe_copy x;
  Y ← fe_copy y;
  T ← fe_mul X Y;
  _ ← check_on_curve X Y;
  Some (GeP3 X Y fe_1 T).
Definition ge_p3_to_montx (ed : ge_p3) : option fe :=
  y_plus_one ← fe_add (p3_Y ed) (p3_Z ed);
  one_minus_y ← fe_sub (p3_Z ed) (p3_Y ed);
  inv_one_minus_y ← fe_invert one_minus_y;
  fe_mul y_plus_one inv_one_minus_y.
Definition curve25519_keygen (privkey : bytes) : option bytes :=
  ed ← ge_scalarmult_base privkey; u ← ge_p3_to_montx ed; fe_tobytes u.
Definition hash_to_point (input : bytes) : option ge_p3 :=
  hash ← crypto_hash_sha512 input;
  b ← hash !! 31%nat;
  let sign_bit := Z.shiftr (Z.land b 0x80) 7 in
  h ← fe_frombytes (<[31%nat := Z.land b 0x7f]> hash);
  u ← elligator h;
  p3 ← ge_montx_to_p3 u sign_bit;
  ge_scalarmult_cofactor p3.
End Ge.
