(* ===== verification/GeSpec.v ===== *)
(** The group operations of Ed25519 compute on the curve.

    [fel c f x]: the limbs [f] are within [c] times the unit bounds and stand for
    the field element [x].  Each representation of ge.h stands for a point of
    Edwards.v, whatever its projective factor; the functions of Ge.v add, double
    and negate points, and encode and decode them. *)

From S2P Require Import Prelude Limbs Donna DonnaField DonnaBytes Scalar ScalarSpec Fe FeSpec.
From S2P Require Import Prime Field25519 Edwards GeBase Ge.
Import Fe Ge.

(** * Field elements *)

Definition fel (c : Z) (f : fe) (x : Fp) : Prop := Forall2 within (fe_bound c) f ∧ F (eval f) = x.

Lemma fel_of c f v : felem c f v → fel c f (F v).
Proof. intros [H E]. split; [done|]. by apply F_eqp. Qed.
Lemma fel_felem c f x : fel c f x → felem c f (fval x).
Proof. intros [H <-]. split; [done|]. apply F_eqp. by rewrite F_val. Qed.
Lemma fel_weaken c d f x y : fel c f x → c <= d → x = y → fel d f y.
Proof.
  intros H Hcd <-. apply fel_felem in H. apply (felem_weaken c d) in H; [|done].
  apply fel_of in H. by rewrite F_val in H.
Qed.
Lemma fel_lift c f v x : felem c f v → F v = x → fel c f x.
Proof. intros H <-. by apply fel_of. Qed.

Lemma fel_add c d f g x y : fel c f x → fel d g y → c + d <= 2048 →
  runs (fe_add f g) (λ h, fel (c + d) h (x + y)%F).
Proof.
  intros Hf%fel_felem Hg%fel_felem Hc. destruct (fe_add_ok _ _ _ _ _ _ Hf Hg Hc) as (h & -> & Hh).
  apply runs_some. apply (fel_lift _ _ _ _ Hh). by rewrite F_add, !F_val.
Qed.
Lemma fel_sub c d f g x y : fel c f x → fel d g y → c + d <= 2048 →
  runs (fe_sub f g) (λ h, fel (c + d) h (x - y)%F).
Proof.
  intros Hf%fel_felem Hg%fel_felem Hc. destruct (fe_sub_ok _ _ _ _ _ _ Hf Hg Hc) as (h & -> & Hh).
  apply runs_some. apply (fel_lift _ _ _ _ Hh). by rewrite F_sub, !F_val.
Qed.
Lemma fel_neg c f x : fel c f x → c <= 2048 → runs (fe_neg f) (λ h, fel c h (- x)%F).
Proof.
  intros Hf%fel_felem Hc. destruct (fe_neg_ok _ _ _ Hf Hc) as (h & -> & Hh).
  apply runs_some. apply (fel_lift _ _ _ _ Hh). by rewrite F_opp, F_val.
Qed.
Lemma fel_copy c f x : fel c f x → runs (fe_copy f) (λ h, fel c h x).
Proof. intros H. rewrite (fe_copy_ok _ _ _ (fel_felem _ _ _ H)). by apply runs_some. Qed.
Lemma fel_mul c d f g x y : fel c f x → fel d g y → c <= 211 → d <= 211 →
  runs (fe_mul f g) (λ h, fel 65 h (x * y)%F).
Proof.
  intros Hf%fel_felem Hg%fel_felem Hc Hd.
  destruct (fe_mul_ok f g _ _ (felem_weaken _ _ _ _ Hf Hc) (felem_weaken _ _ _ _ Hg Hd)) as (h & -> & Hh).
  apply runs_some. apply (fel_lift _ _ _ _ Hh). by rewrite F_mul, !F_val.
Qed.
Lemma fel_sq c f x : fel c f x → c <= 211 → runs (fe_sq f) (λ h, fel 65 h (x * x)%F).
Proof.
  intros Hf%fel_felem Hc. destruct (fe_sq_ok f _ (felem_weaken _ _ _ _ Hf Hc)) as (h & -> & Hh).
  apply runs_some. apply (fel_lift _ _ _ _ Hh). by rewrite F_mul, !F_val.
Qed.
Lemma fel_sq2 c f x : fel c f x → c <= 211 → runs (fe_sq2 f) (λ h, fel 65 h (F 2 * (x * x))%F).
Proof.
  intros Hf%fel_felem Hc. destruct (fe_sq2_ok f _ (felem_weaken _ _ _ _ Hf Hc)) as (h & -> & Hh).
  apply runs_some. apply (fel_lift _ _ _ _ Hh). by rewrite !F_mul, !F_val.
Qed.
Lemma fel_invert c f x : fel c f x → c <= 211 → runs (fe_invert f) (λ h, fel 65 h (fp_inv x)).
Proof.
  intros Hf%fel_felem Hc. destruct (fe_invert_ok f _ (felem_weaken _ _ _ _ Hf Hc)) as (h & -> & Hh).
  apply runs_some. apply (fel_lift _ _ _ _ Hh). by rewrite F_pow, F_val, fp_pow_inv by done.
Qed.
Lemma fel_pow22523 c f x : fel c f x → c <= 211 →
  runs (fe_pow22523 f) (λ h, fel 65 h (fp_pow x (2 ^ 252 - 3))).
Proof.
  intros Hf%fel_felem Hc. destruct (fe_pow22523_ok f _ (felem_weaken _ _ _ _ Hf Hc)) as (h & -> & Hh).
  apply runs_some. apply (fel_lift _ _ _ _ Hh). by rewrite F_pow, F_val by done.
Qed.
Lemma fel_cmov c f g x y b : fel c f x → fel c g y → c <= 2048 → b = 0 ∨ b = 1 →
  fe_cmov f g b = Some (if decide (b = 1) then g else f).
Proof. intros Hf%fel_felem Hg%fel_felem. eapply fe_cmov_ok; done. Qed.
Lemma fel_0 : fel 1 fe_0 0%F.
Proof. apply (fel_lift _ _ _ _ felem_0), F_0. Qed.
Lemma fel_1 : fel 1 fe_1 1%F.
Proof. apply (fel_lift _ _ _ _ felem_1), F_1. Qed.

Lemma fval_mod x : fval x `mod` p25519 = fval x.
Proof. apply Z.mod_small, fval_range. Qed.
Lemma fval_0 : fval 0%F = 0.
Proof. by rewrite <- F_0, fval_F. Qed.
Lemma fval_1 : fval 1%F = 1.
Proof. by rewrite <- F_1, fval_F. Qed.

Lemma fel_tobytes c f x : fel c f x → c <= 200 → fe_tobytes f = Some (le_bytes 32 (fval x)).
Proof.
  intros Hf%fel_felem Hc. rewrite (fe_tobytes_ok f _ (felem_weaken _ _ _ _ Hf Hc)). by rewrite fval_mod.
Qed.
Lemma fel_isnegative c f x : fel c f x → c <= 200 → fe_isnegative f = Some (fval x `mod` 2).
Proof.
  intros Hf%fel_felem Hc. rewrite (fe_isnegative_ok f _ (felem_weaken _ _ _ _ Hf Hc)). by rewrite fval_mod.
Qed.
Lemma fel_isnonzero c f x : fel c f x → c <= 200 →
  fe_isnonzero f = Some (if decide (x = 0%F) then 0 else -1).
Proof.
  intros Hf%fel_felem Hc. rewrite (fe_isnonzero_ok f _ (felem_weaken _ _ _ _ Hf Hc)). f_equal.
  destruct (bool_decide_reflect (fval x =ₚ 0)) as [E|E], (decide (x = 0%F)) as [E'|E']; try done.
  - destruct E'. apply F_eqp in E. by rewrite F_val, F_0 in E.
  - destruct E. subst x. by rewrite fval_0.
Qed.
Lemma fel_isequal c d f g x y : fel c f x → fel d g y → c + d <= 200 →
  fe_isequal f g = Some (if decide (x = y) then 1 else 0).
Proof.
  intros Hf%fel_felem Hg%fel_felem Hc. rewrite (fe_isequal_ok _ _ _ _ _ _ Hf Hg Hc). f_equal.
  destruct (bool_decide_reflect (fval x =ₚ fval y)) as [E|E], (decide (x = y)) as [E'|E']; try done.
  - destruct E'. apply F_eqp in E. by rewrite !F_val in E.
  - destruct E. by subst x.
Qed.
Lemma fel_frombytes s : wf_bytes s → length s = 32%nat →
  runs (fe_frombytes s) (λ f, fel 65 f (F (le_value s `mod` 2 ^ 255))).
Proof.
  intros Hs Hl. destruct (fe_frombytes_ok s Hs Hl) as (f & -> & Hf). apply runs_some. by apply fel_of.
Qed.

(** * Stepping through field operations *)

#[export] Hint Resolve fel_0 fel_1 : fel.
Ltac fel_solve := first [eassumption | solve [eauto with fel]].
Ltac fe_op :=
  lazymatch goal with
  | |- runs (fe_mul _ _) _ => eapply fel_mul; [fel_solve|fel_solve|lia|lia]
  | |- runs (fe_add _ _) _ => eapply fel_add; [fel_solve|fel_solve|lia]
  | |- runs (fe_sub _ _) _ => eapply fel_sub; [fel_solve|fel_solve|lia]
  | |- runs (fe_sq _) _ => eapply fel_sq; [fel_solve|lia]
  | |- runs (fe_sq2 _) _ => eapply fel_sq2; [fel_solve|lia]
  | |- runs (fe_neg _) _ => eapply fel_neg; [fel_solve|lia]
  | |- runs (fe_copy _) _ => eapply fel_copy; fel_solve
  | |- runs (fe_invert _) _ => eapply fel_invert; [fel_solve|lia]
  | |- runs (fe_pow22523 _) _ => eapply fel_pow22523; [fel_solve|lia]
  end.
(** [fe_step h H] runs the first operation and names its result. *)
Ltac fe_step h H :=
  lazymatch goal with |- runs (_ ≫= _) _ => eapply runs_bind; [fe_op|]; cbv beta; intros h H end.
Ltac fe_steps :=
  repeat (let h := fresh "h" in let H := fresh "H" in fe_step h H).
Ltac fel_done H := eapply fel_weaken; [exact H|lia|ring].

(** * Representations *)

Definition rep_p3 (h : ge_p3) (P : point) : Prop :=
  ∃ z, z ≠ 0%F ∧ fel 65 (p3_X h) (px P * z)%F ∧ fel 65 (p3_Y h) (py P * z)%F ∧
    fel 65 (p3_Z h) z ∧ fel 65 (p3_T h) (px P * py P * z)%F.
Definition rep_p2 (h : ge_p2) (P : point) : Prop :=
  ∃ z, z ≠ 0%F ∧ fel 65 (p2_X h) (px P * z)%F ∧ fel 65 (p2_Y h) (py P * z)%F ∧ fel 65 (p2_Z h) z.
Definition rep_p1p1 (h : ge_p1p1) (P : point) : Prop :=
  ∃ z t, z ≠ 0%F ∧ t ≠ 0%F ∧ fel 195 (p1_X h) (px P * z)%F ∧ fel 195 (p1_Y h) (py P * t)%F ∧
    fel 195 (p1_Z h) z ∧ fel 195 (p1_T h) t.
Definition rep_cached (h : ge_cached) (P : point) : Prop :=
  ∃ z, z ≠ 0%F ∧ fel 130 (YplusX h) ((py P + px P) * z)%F ∧ fel 130 (YminusX h) ((py P - px P) * z)%F ∧
    fel 65 (c_Z h) z ∧ fel 65 (T2d h) (F 2 * ed_d * (px P * py P * z))%F.
Definition rep_precomp (h : ge_precomp) (P : point) : Prop :=
  fel 65 (yplusx h) (py P + px P)%F ∧ fel 65 (yminusx h) (py P - px P)%F ∧
  fel 65 (xy2d h) (F 2 * ed_d * (px P * py P))%F.

Lemma fel_d : fel 65 fe_d ed_d.
Proof.
  apply (fel_lift _ _ d25519); [|reflexivity]. split; [|vm_compute; reflexivity].
  repeat (apply Forall2_cons_2; [by split|]). apply Forall2_nil_2.
Qed.
Lemma fel_d2 : fel 65 fe_d2 (F 2 * ed_d)%F.
Proof.
  apply (fel_lift _ _ (2 * d25519)); [|by rewrite F_mul]. split; [|vm_compute; reflexivity].
  repeat (apply Forall2_cons_2; [by split|]). apply Forall2_nil_2.
Qed.
Lemma fel_sqrtm1 : fel 65 fe_sqrtm1 ed_i.
Proof.
  apply (fel_lift _ _ i25519); [|reflexivity]. split; [|vm_compute; reflexivity].
  repeat (apply Forall2_cons_2; [by split|]). apply Forall2_nil_2.
Qed.
#[export] Hint Resolve fel_d fel_d2 fel_sqrtm1 : fel.

(** * Conversions *)

Lemma rep_p3_0 : rep_p3 ge_p3_0 pzero.
Proof.
  exists 1%F. split; [apply f1_neq_0|]. cbn.
  split_and!; eapply fel_weaken; try apply fel_0; try apply fel_1; try lia; ring.
Qed.
Lemma rep_p2_0 : rep_p2 ge_p2_0 pzero.
Proof.
  exists 1%F. split; [apply f1_neq_0|]. cbn.
  split_and!; eapply fel_weaken; try apply fel_0; try apply fel_1; try lia; ring.
Qed.
Lemma rep_precomp_0 : rep_precomp ge_precomp_0 pzero.
Proof.
  split_and!; cbn; eapply fel_weaken; try apply fel_0; try apply fel_1; try lia; ring.
Qed.

Lemma p3_to_p2_ok h P : rep_p3 h P → runs (ge_p3_to_p2 h) (λ r, rep_p2 r P).
Proof.
  intros (z & Hz & HX & HY & HZ & HT). unfold ge_p3_to_p2. fe_steps. apply runs_some. by exists z.
Qed.
Lemma p3_to_cached_ok h P : rep_p3 h P → runs (ge_p3_to_cached h) (λ r, rep_cached r P).
Proof.
  intros (z & Hz & HX & HY & HZ & HT). unfold ge_p3_to_cached. fe_steps. apply runs_some.
  exists z. split; [done|]. cbn. split_and!; [fel_done H|fel_done H0|fel_done H1|fel_done H2].
Qed.
Lemma p1p1_to_p2_ok h P : rep_p1p1 h P → runs (ge_p1p1_to_p2 h) (λ r, rep_p2 r P).
Proof.
  intros (z & t & Hz & Ht & HX & HY & HZ & HT). unfold ge_p1p1_to_p2. fe_steps. apply runs_some.
  exists (z * t)%F. split; [by apply fp_mul_neq_0|]. cbn. split_and!; [fel_done H|fel_done H0|fel_done H1].
Qed.
Lemma p1p1_to_p3_ok h P : rep_p1p1 h P → runs (ge_p1p1_to_p3 h) (λ r, rep_p3 r P).
Proof.
  intros (z & t & Hz & Ht & HX & HY & HZ & HT). unfold ge_p1p1_to_p3. fe_steps. apply runs_some.
  exists (z * t)%F. split; [by apply fp_mul_neq_0|]. cbn.
  split_and!; [fel_done H|fel_done H0|fel_done H1|fel_done H2].
Qed.

(** * Addition *)

(** Four values with a common factor are a completed sum. *)
Lemma completed_sum r P Q s X Y Z T :
  s ≠ 0%F → fel 195 (p1_X r) X → fel 195 (p1_Y r) Y → fel 195 (p1_Z r) Z → fel 195 (p1_T r) T →
  let δ := delta (px P) (py P) (px Q) (py Q) in
  X = (s * (px P * py Q + px Q * py P))%F → Y = (s * (py P * py Q + px P * px Q))%F →
  Z = (s * (1 + δ))%F → T = (s * (1 - δ))%F → rep_p1p1 r (padd P Q).
Proof.
  intros Hs HX HY HZ HT δ EX EY EZ ET.
  pose proof (delta_plus _ _ _ _ (point_on P) (point_on Q)) as Hp.
  pose proof (delta_minus _ _ _ _ (point_on P) (point_on Q)) as Hm. fold δ in Hp, Hm.
  exists Z, T. rewrite EZ, ET. split; [by apply fp_mul_neq_0|]. split; [by apply fp_mul_neq_0|].
  split_and!; [| |by rewrite <- EZ|by rewrite <- ET]; cbn; unfold add_x, add_y; fold δ.
  - eapply fel_weaken; [exact HX|done|]. rewrite EX. field. done.
  - eapply fel_weaken; [exact HY|done|]. rewrite EY. field. done.
Qed.
(** [ge_step lemma r H] runs the first operation by its lemma. *)
Ltac ge_step t r H := eapply runs_bind; [eapply t; eassumption|]; cbv beta; intros r H.
Ltac completed s :=
  eapply (completed_sum _ _ _ s); cbn [p1_X p1_Y p1_Z p1_T];
  lazymatch goal with
  | |- fel _ _ _ => eapply fel_weaken; [eassumption|lia|reflexivity]
  | |- (_ ≠ _)%F => idtac
  | |- _ => idtac
  end.

Lemma f2_mul_neq_0 z : z ≠ 0%F → (F 2 * z)%F ≠ 0%F.
Proof. intros. apply fp_mul_neq_0; [apply f2_neq_0|done]. Qed.

Lemma ge_p2_dbl_ok h P : rep_p2 h P → runs (ge_p2_dbl h) (λ r, rep_p1p1 r (padd P P)).
Proof.
  intros (z & Hz & HX & HY & HZ). unfold ge_p2_dbl. fe_steps. apply runs_some.
  pose proof (point_on P) as E. unfold on_curve in E.
  completed (z * z)%F; [by apply fp_mul_neq_0|ring|ring| |]; unfold delta.
  - transitivity (z * z * (py P * py P - px P * px P))%F; [ring|]. rewrite E. ring.
  - transitivity (z * z * (F 2 - (py P * py P - px P * px P)))%F; [ring|]. rewrite E. ring.
Qed.
Lemma ge_p3_dbl_ok h P : rep_p3 h P → runs (ge_p3_dbl h) (λ r, rep_p1p1 r (padd P P)).
Proof.
  intros H. unfold ge_p3_dbl. ge_step p3_to_p2_ok q Hq. by apply ge_p2_dbl_ok.
Qed.

Lemma ge_add_ok h q P Q : rep_p3 h P → rep_cached q Q → runs (ge_add h q) (λ r, rep_p1p1 r (padd P Q)).
Proof.
  intros (z & Hz & HX & HY & HZ & HT) (w & Hw & Hp & Hm & HZ' & HT'). unfold ge_add. fe_steps. apply runs_some.
  completed (F 2 * (z * w))%F; [by apply f2_mul_neq_0, fp_mul_neq_0|..]; unfold delta; ring.
Qed.
Lemma ge_sub_ok h q P Q : rep_p3 h P → rep_cached q Q →
  runs (ge_sub h q) (λ r, rep_p1p1 r (padd P (popp Q))).
Proof.
  intros (z & Hz & HX & HY & HZ & HT) (w & Hw & Hp & Hm & HZ' & HT'). unfold ge_sub. fe_steps. apply runs_some.
  completed (F 2 * (z * w))%F; [by apply f2_mul_neq_0, fp_mul_neq_0|..]; unfold delta; cbn; ring.
Qed.
Lemma ge_madd_ok h q P Q : rep_p3 h P → rep_precomp q Q → runs (ge_madd h q) (λ r, rep_p1p1 r (padd P Q)).
Proof.
  intros (z & Hz & HX & HY & HZ & HT) (Hp & Hm & HT'). unfold ge_madd. fe_steps. apply runs_some.
  completed (F 2 * z)%F; [by apply f2_mul_neq_0|..]; unfold delta; ring.
Qed.
Lemma ge_msub_ok h q P Q : rep_p3 h P → rep_precomp q Q →
  runs (ge_msub h q) (λ r, rep_p1p1 r (padd P (popp Q))).
Proof.
  intros (z & Hz & HX & HY & HZ & HT) (Hp & Hm & HT'). unfold ge_msub. fe_steps. apply runs_some.
  completed (F 2 * z)%F; [by apply f2_mul_neq_0|..]; unfold delta; cbn; ring.
Qed.

Lemma ge_neg_ok h P : rep_p3 h P → runs (ge_neg h) (λ r, rep_p3 r (popp P)).
Proof.
  intros (z & Hz & HX & HY & HZ & HT). unfold ge_neg. fe_steps. apply runs_some.
  exists z. split; [done|]. cbn. split_and!; [fel_done H|fel_done H0|fel_done H1|fel_done H2].
Qed.
Lemma ge_p3_add_ok h q P Q : rep_p3 h P → rep_p3 q Q → runs (ge_p3_add h q) (λ r, rep_p3 r (padd P Q)).
Proof.
  intros HP HQ. unfold ge_p3_add. ge_step p3_to_cached_ok c Hc.
  ge_step ge_add_ok r Hr. rewrite padd_comm. by apply p1p1_to_p3_ok.
Qed.
Lemma ge_scalarmult_cofactor_ok h P : rep_p3 h P →
  runs (ge_scalarmult_cofactor h) (λ r, rep_p3 r (smul 8 P)).
Proof.
  intros H. unfold ge_scalarmult_cofactor.
  ge_step ge_p3_dbl_ok r Hr. ge_step p1p1_to_p2_ok s Hs. ge_step ge_p2_dbl_ok r' Hr'.
  ge_step p1p1_to_p2_ok s' Hs'. ge_step ge_p2_dbl_ok r'' Hr''.
  replace (smul 8 P) with (padd (padd (padd P P) (padd P P)) (padd (padd P P) (padd P P)))
    by (rewrite <- !smul_2, <- !smul_mul; done).
  by apply p1p1_to_p3_ok.
Qed.
Lemma ge_isneutral_ok h P : rep_p3 h P → ge_isneutral h = Some (if decide (P = pzero) then 1 else 0).
Proof.
  intros (z & Hz & HX & HY & HZ & HT). unfold ge_isneutral.
  rewrite (fel_isequal _ _ _ _ _ _ HX fel_0) by lia. rewrite (fel_isequal _ _ _ _ _ _ HY HZ) by lia.
  cbn [mbind option_bind]. f_equal.
  assert ((px P * z)%F = 0%F ↔ px P = 0%F) as EX by (rewrite fp_mul_0; tauto).
  assert ((py P * z)%F = z ↔ py P = 1%F) as EY.
  { split; [|intros ->; ring]. intros E. apply (fp_mul_cancel _ _ z); [done|]. rewrite <- E at 2. ring. }
  destruct (decide (P = pzero)) as [->|Hn].
  - rewrite !decide_True; [done| |]; [by apply EY|by apply EX].
  - destruct (decide (px P * z = 0)%F) as [E1%EX|], (decide (py P * z = z)%F) as [E2%EY|]; try done.
    destruct Hn. by apply point_eq.
Qed.

(** * Encoding *)

Definition encode (P : point) : bytes :=
  le_bytes 32 (fval (py P) + 2 ^ 255 * (fval (px P) `mod` 2)).

Lemma length_encode P : length (encode P) = 32%nat.
Proof. apply length_le_bytes. Qed.
Lemma wf_encode P : wf_bytes (encode P).
Proof. apply wf_le_bytes. Qed.

Lemma le_value_insert s i b b' : s !! i = Some b →
  le_value (<[i := b']> s) = le_value s + 256 ^ Z.of_nat i * (b' - b).
Proof.
  revert i. induction s as [|c s IH]; intros [|i] H; simplify_eq/=; [lia|].
  rewrite (IH i H). replace (Z.of_nat (S i)) with (Z.of_nat i + 1) by lia.
  rewrite Z.pow_add_r by lia. lia.
Qed.
Lemma le_bytes_nth n v i : (i < n)%nat → le_bytes n v !! i = Some ((v `div` 256 ^ Z.of_nat i) `mod` 256).
Proof.
  revert v i. induction n as [|n IH]; intros v [|i] Hi; try lia; cbn [le_bytes lookup list_lookup].
  - by rewrite Z.div_1_r.
  - change (list_lookup i (le_bytes n (v `div` 256))) with (le_bytes n (v `div` 256) !! i).
    rewrite IH by lia. replace (Z.of_nat (S i)) with (1 + Z.of_nat i) by lia.
    rewrite Z.pow_add_r, <- Z.div_div by lia. done.
Qed.
(** Changing the last byte of an encoded number. *)
Lemma le_bytes_top v b' : 0 <= v < 256 ^ 32 → 0 <= b' < 256 →
  <[31%nat := b']> (le_bytes 32 v) = le_bytes 32 (v `mod` 256 ^ 31 + 256 ^ 31 * b').
Proof.
  intros Hv Hb'. set (s := <[31%nat := b']> (le_bytes 32 v)).
  assert (length s = 32%nat) as Ls by (unfold s; by rewrite length_insert, length_le_bytes).
  assert (wf_bytes s) as Ws by (unfold s; apply Forall_insert; [apply wf_le_bytes|done]).
  rewrite <- (le_bytes_value s Ws), Ls. f_equal. unfold s.
  rewrite (le_value_insert _ 31 _ _ (le_bytes_nth 32 v 31 ltac:(lia))), le_value_bytes.
  change (256 ^ Z.of_nat 32) with (256 ^ 32). change (256 ^ Z.of_nat 31) with (256 ^ 31).
  rewrite (Z.mod_small v) by done. rewrite (Z.mod_small (v `div` _)).
  2: { split; [apply Z.div_pos; lia|]. apply Z.div_lt_upper_bound; lia. }
  pose proof (Z_div_mod_eq_full v (256 ^ 31)). lia.
Qed.

Lemma parity x : x `mod` 2 = 0 ∨ x `mod` 2 = 1.
Proof. pose proof (Z.mod_pos_bound x 2). lia. Qed.

Lemma sign_bit_xor b n : 0 <= b < 128 → n = 0 ∨ n = 1 → u8 (Z.lxor b (Z.shiftl n 7)) = b + 128 * n.
Proof.
  intros Hb Hn. apply Z.eqb_eq.
  assert (forallb (λ b, forallb (λ n, u8 (Z.lxor b (Z.shiftl n 7)) =? b + 128 * n) [0; 1]) (seqZ 0 128) = true)
    as H by reflexivity.
  rewrite forallb_forall in H. specialize (H b). rewrite forallb_forall in H.
  apply H; [apply list_elem_of_In, elem_of_seqZ; lia|]. destruct Hn as [-> | ->]; cbn; auto.
Qed.

Lemma encode_point_ok X Y Z P z : z ≠ 0%F → fel 65 X (px P * z)%F → fel 65 Y (py P * z)%F → fel 65 Z z →
  encode_point X Y Z = Some (encode P).
Proof.
  intros Hz HX HY HZ. unfold encode_point.
  destruct (fel_invert _ _ _ HZ) as (r & -> & Hr); [lia|]. cbn [mbind option_bind].
  destruct (fel_mul _ _ _ _ _ _ HX Hr) as (x & -> & Hx); [lia..|]. cbn [mbind option_bind].
  destruct (fel_mul _ _ _ _ _ _ HY Hr) as (y & -> & Hy); [lia..|]. cbn [mbind option_bind].
  rewrite (fel_tobytes _ _ _ Hy) by lia. cbn [mbind option_bind].
  rewrite le_bytes_nth by lia. cbn [mbind option_bind].
  rewrite (fel_isnegative _ _ _ Hx) by lia. cbn [mbind option_bind]. f_equal.
  replace (px P * z * fp_inv z)%F with (px P) by (field; done).
  replace (py P * z * fp_inv z)%F with (py P) by (field; done).
  pose proof (fval_range (py P)) as Hv. set (v := fval (py P)) in *. change (256 ^ Z.of_nat 31) with (256 ^ 31).
  assert (v < 2 ^ 255) as Hv' by (unfold p25519 in Hv; lia).
  assert (0 <= v `div` 256 ^ 31 < 128) as Hb.
  { split; [apply Z.div_pos; lia|]. apply Z.div_lt_upper_bound; lia. }
  rewrite (Z.mod_small (v `div` _)) by lia. rewrite sign_bit_xor by (done || apply parity).
  pose proof (parity (fval (px P))). rewrite le_bytes_top by lia. unfold encode. fold v. f_equal.
  pose proof (Z_div_mod_eq_full v (256 ^ 31)). change (2 ^ 255) with (256 ^ 31 * 128). lia.
Qed.
Lemma ge_p3_tobytes_ok h P : rep_p3 h P → ge_p3_tobytes h = Some (encode P).
Proof. intros (z & Hz & HX & HY & HZ & HT). by eapply encode_point_ok. Qed.
Lemma ge_tobytes_ok h P : rep_p2 h P → ge_tobytes h = Some (encode P).
Proof. intros (z & Hz & HX & HY & HZ). by eapply encode_point_ok. Qed.

(** * Decoding *)

(** A square root of [u / v], when there is one. *)
Definition root_candidate (u v : Fp) : Fp :=
  (fp_pow (v * v * v * (v * v * v) * v * u) (2 ^ 252 - 3) * (v * v * v) * u)%F.

Lemma curve_denominator (y : Fp) : (ed_d * (y * y) + 1)%F ≠ 0%F.
Proof.
  intros E. destruct (decide (y = 0%F)) as [->|Hy].
  - apply f1_neq_0. rewrite <- E. ring.
  - apply (ed_d_nonsquare (ed_i / y)%F). apply (fp_mul_cancel _ _ (y * y)%F); [by apply fp_mul_neq_0|].
    transitivity (ed_i * ed_i)%F; [|field; done]. rewrite ed_i_square.
    transitivity ((ed_d * (y * y) + 1) + F (-1))%F; [ring|]. rewrite E. ring.
Qed.
Lemma on_curve_root x y : on_curve x y ↔ ((ed_d * (y * y) + 1) * (x * x))%F = (y * y - 1)%F.
Proof.
  unfold on_curve. split; intros E.
  - transitivity ((1 + ed_d * (x * x * (y * y))) - 1 + x * x)%F; [ring|]. rewrite <- E. ring.
  - transitivity ((y * y - 1) + 1 - x * x)%F; [ring|]. rewrite <- E. ring.
Qed.

Lemma root_candidate_square u v x : v ≠ 0%F → (v * (x * x))%F = u →
  let b := root_candidate u v in (v * (b * b))%F = u ∨ (v * (b * b))%F = (- u)%F.
Proof.
  intros Hv Hx. cbv zeta.
  set (w := (v * v * v * (v * v * v) * v * u)%F).
  assert ((v * (root_candidate u v * root_candidate u v))%F = (u * fp_pow w (2 ^ 253 - 5))%F) as ->.
  { unfold root_candidate. fold w. replace (2 ^ 253 - 5) with ((2 ^ 252 - 3) + (2 ^ 252 - 3) + 1) by lia.
    rewrite !fp_pow_add, fp_pow_1 by lia. unfold w at 5. ring. }
  destruct (decide (x = 0%F)) as [->|Hx0].
  { left. rewrite <- Hx. ring. }
  assert (w = (v * v * v * v * x * (v * v * v * v * x))%F) as -> by (unfold w; rewrite <- Hx; ring).
  set (t := (v * v * v * v * x)%F). assert (t ≠ 0%F) as Ht by (unfold t; nonzero).
  rewrite fp_pow_mul_l, <- fp_pow_add by lia. change (2 ^ 253 - 5 + (2 ^ 253 - 5)) with p_half.
  destruct (fp_pow_half t Ht) as [-> | ->]; [left|right]; ring.
Qed.

Lemma fval_opp x : x ≠ 0%F → fval (- x)%F = p25519 - fval x.
Proof.
  intros Hx. pose proof (fval_range x) as Hr.
  assert (fval x ≠ 0) as H0 by (intros E; apply Hx; by rewrite <- (F_val x), E, F_0).
  rewrite <- (F_val x) at 1. rewrite <- F_opp, fval_F.
  replace (- fval x) with (p25519 - fval x + (-1) * p25519) by lia.
  rewrite Z_mod_plus_full. apply Z.mod_small. lia.
Qed.
Lemma parity_opp x : x ≠ 0%F → fval (- x)%F `mod` 2 = 1 - fval x `mod` 2.
Proof.
  intros Hx. rewrite fval_opp by done. rewrite Zminus_mod. change (p25519 `mod` 2) with 1.
  destruct (parity (fval x)) as [-> | ->]; done.
Qed.

(** The number [y] and the sign bit that 32 bytes hold. *)
Definition decode_y (s : bytes) : Fp := F (le_value s `mod` 2 ^ 255).
Definition decode_sign (s : bytes) : Z := le_value s `div` 2 ^ 255.

Lemma sign_byte s : wf_bytes s → length s = 32%nat →
  ∃ b, s !! 31%nat = Some b ∧ Z.shiftr b 7 = decode_sign s ∧ (decode_sign s = 0 ∨ decode_sign s = 1).
Proof.
  intros Hs Hl. pose proof (le_value_range s Hs) as Hr. unfold zlen in Hr. rewrite Hl in Hr.
  change (256 ^ Z.of_nat 32) with (2 ^ 255 * 2) in Hr. exists ((le_value s `div` 256 ^ 31) `mod` 256).
  assert (0 <= decode_sign s < 2) as Hd.
  { unfold decode_sign. split; [apply Z.div_pos; lia|]. apply Z.div_lt_upper_bound; lia. }
  split; [|split; [|lia]].
  - rewrite <- (le_bytes_value s Hs) at 1. rewrite Hl. by rewrite le_bytes_nth by lia.
  - rewrite Z.shiftr_div_pow2 by lia. unfold decode_sign. change (2 ^ 255) with (256 ^ 31 * 2 ^ 7).
    rewrite <- Z.div_div by lia. f_equal. apply Z.mod_small.
    split; [apply Z.div_pos; lia|]. apply Z.div_lt_upper_bound; lia.
Qed.

(** What decoding returns: the points with the given coordinate, the one whose
    sign differs; and an error exactly when there is none. *)
Definition decoded (s : bytes) (r : option ge_p3) : Prop :=
  match r with
  | None => ∀ x, ¬ on_curve x (decode_y s)
  | Some h => ∃ P, rep_p3 h P ∧ py P = decode_y s ∧
      (fval (px P) `mod` 2 ≠ decode_sign s ∨ px P = 0%F)
  end.

(** After the square root: choosing the sign and finishing the point. *)
Lemma choose_sign s X Y x : wf_bytes s → length s = 32%nat →
  fel 65 X x → fel 65 Y (decode_y s) → on_curve x (decode_y s) →
  runs (n ← fe_isnegative X; b ← s !! 31%nat;
        X ← (if n =? Z.shiftr b 7 then fe_neg X else Some X);
        T ← fe_mul X Y; Some (Some (GeP3 X Y fe_1 T))) (decoded s).
Proof.
  intros Hs Hl HX HY Hon. destruct (sign_byte s Hs Hl) as (b & Eb & Esign & Hsign).
  rewrite (fel_isnegative _ _ _ HX), Eb by lia. cbn [mbind option_bind]. rewrite Esign.
  eapply runs_bind.
  { instantiate (1 := λ X', ∃ x', fel 65 X' x' ∧ on_curve x' (decode_y s) ∧
      (fval x' `mod` 2 ≠ decode_sign s ∨ x' = 0%F)).
    destruct (Z.eqb_spec (fval x `mod` 2) (decode_sign s)) as [E|E].
    - eapply runs_mono; [eapply fel_neg; [eassumption|lia]|]. cbv beta. intros X' HX'.
      exists (- x)%F. split; [done|]. split; [by apply opp_on_curve|].
      destruct (decide (x = 0%F)) as [->|Hx]; [right; ring|left].
      rewrite parity_opp by done. lia.
    - apply runs_some. exists x. auto. }
  cbv beta. intros X' (x' & HX' & Hon' & Hpar). fe_step T HT. apply runs_some.
  exists (Point x' (decode_y s) Hon'). split; [|by split].
  exists 1%F. split; [apply f1_neq_0|]. cbn.
  split_and!; [fel_done HX'|fel_done HY| |fel_done HT]. eapply fel_weaken; [apply fel_1|lia|ring].
Qed.

(** After the candidate: the two tests. *)
Lemma choose_root s X Y uf vxx check (b u v : Fp) :
  wf_bytes s → length s = 32%nat → fel 65 Y (decode_y s) →
  u = (decode_y s * decode_y s - 1)%F → v = (ed_d * (decode_y s * decode_y s) + 1)%F →
  b = root_candidate u v → fel 65 X b → fel 66 uf u → fel 65 vxx (b * b * v)%F →
  fel 131 check (b * b * v - u)%F →
  runs (nz ← fe_isnonzero check;
        X ← (if nz =? 0 then Some (Some X) else
              check ← fe_add vxx uf;
              nz ← fe_isnonzero check;
              if nz =? 0 then X ← fe_mul X fe_sqrtm1; Some (Some X) else Some None);
        match X with
        | None => Some None
        | Some X =>
          n ← fe_isnegative X;
          b ← s !! 31%nat;
          X ← (if n =? Z.shiftr b 7 then fe_neg X else Some X);
          T ← fe_mul X Y;
          Some (Some (GeP3 X Y fe_1 T))
        end) (decoded s).
Proof.
  intros Hs Hl HY Eu Ev Eb HX Hu Hvxx Hc.
  pose proof (curve_denominator (decode_y s)) as Hv. rewrite <- Ev in Hv.
  rewrite (fel_isnonzero _ _ _ Hc) by lia. cbn [mbind option_bind].
  destruct (decide (b * b * v - u = 0)%F) as [E|E].
  - change (0 =? 0) with true. cbn [mbind option_bind].
    apply (choose_sign s _ _ b); try done. apply on_curve_root. rewrite <- Ev, <- Eu.
    rewrite fp_sub_eq_0 in E. rewrite <- E. ring.
  - change (-1 =? 0) with false. cbv iota. assoc. fe_step c' Hc'. assoc.
    rewrite (fel_isnonzero _ _ _ Hc') by lia. cbn [mbind option_bind].
    destruct (decide (b * b * v + u = 0)%F) as [E'|E'].
    + change (0 =? 0) with true. cbv iota. assoc. fe_step X' HX'. cbn [mbind option_bind].
      apply (choose_sign s _ _ (b * ed_i)%F); try done. apply on_curve_root. rewrite <- Ev, <- Eu.
      transitivity (b * b * v * (ed_i * ed_i))%F; [ring|]. rewrite ed_i_square.
      transitivity (u - (b * b * v + u))%F; [ring|]. rewrite E'. ring.
    + change (-1 =? 0) with false. cbn [mbind option_bind]. apply runs_some. intros x Hx.
      apply on_curve_root in Hx. rewrite <- Ev, <- Eu in Hx.
      destruct (root_candidate_square u v x Hv Hx) as [E1|E1]; rewrite <- Eb in E1.
      * apply E. rewrite fp_sub_eq_0. transitivity (v * (b * b))%F; [ring|exact E1].
      * apply E'. transitivity (v * (b * b) + u)%F; [ring|]. rewrite E1. ring.
Qed.

Lemma ge_frombytes_ok s : wf_bytes s → length s = 32%nat →
  runs (ge_frombytes_negate_vartime s) (decoded s).
Proof.
  intros Hs Hl. unfold ge_frombytes_negate_vartime.
  eapply runs_bind; [by apply fel_frombytes|]. fold (decode_y s). intros Y HY. cbv beta zeta in *.
  fe_steps. set (u := (decode_y s * decode_y s - 1)%F) in *.
  set (v := (decode_y s * decode_y s * ed_d + 1)%F) in *.
  eapply (choose_root s _ _ _ _ _ (root_candidate u v) u v); try eassumption.
  - reflexivity.
  - unfold v. ring.
  - reflexivity.
Qed.

(** Decoding an encoded point negates it. *)
Lemma decode_encode P : decode_y (encode P) = py P ∧ decode_sign (encode P) = fval (px P) `mod` 2.
Proof.
  unfold decode_y, decode_sign, encode. pose proof (fval_range (py P)) as Hr.
  pose proof (parity (fval (px P))) as Hp. rewrite le_value_bytes.
  change (256 ^ Z.of_nat 32) with (2 ^ 255 * 2). unfold p25519 in Hr.
  rewrite (Z.mod_small _ (2 ^ 255 * 2)) by lia. rewrite (Z.mul_comm (2 ^ 255) (_ `mod` _)). split.
  - rewrite Z_mod_plus_full, Z.mod_small by lia. apply F_val.
  - rewrite Z_div_plus_full, Z.div_small by lia. lia.
Qed.
Lemma same_y P Q : py P = py Q → px P = px Q ∨ px P = (- px Q)%F.
Proof.
  intros E. apply fsquares_eq. pose proof (point_on P) as HP. pose proof (point_on Q) as HQ.
  apply on_curve_root in HP, HQ. rewrite E, <- HQ in HP.
  eapply fp_mul_cancel; [|exact HP]. apply curve_denominator.
Qed.
Lemma ge_frombytes_encode P :
  runs (ge_frombytes_negate_vartime (encode P)) (λ r, ∃ h, r = Some h ∧ rep_p3 h (popp P)).
Proof.
  eapply runs_mono; [apply ge_frombytes_ok; [apply wf_encode|apply length_encode]|].
  destruct (decode_encode P) as [Ey Es]. intros [h|]; unfold decoded; rewrite Ey, ?Es.
  - intros (Q & HQ & Eq & Hpar). exists h. split; [done|].
    replace (popp P) with Q; [done|]. apply point_eq; cbn; [|done].
    destruct (same_y Q P Eq) as [E|E]; [|done]. destruct Hpar as [Hpar|Hz]; [by rewrite E in Hpar|].
    rewrite Hz. rewrite <- E, Hz. ring.
  - intros H. exfalso. apply (H (px P)). apply point_on.
Qed.
(** Points are determined by their encodings. *)
Lemma encode_inj P Q : encode P = encode Q → P = Q.
Proof.
  intros E. destruct (decode_encode P) as [EyP EsP], (decode_encode Q) as [EyQ EsQ].
  rewrite E in EyP, EsP. rewrite EyQ in EyP. rewrite EsQ in EsP. apply point_eq; [|done].
  destruct (same_y P Q (eq_sym EyP)) as [|Ex]; [done|]. destruct (decide (px Q = 0%F)) as [Hz|Hz].
  - rewrite Ex, Hz. ring.
  - rewrite Ex, parity_opp in EsP by done. pose proof (parity (fval (px Q))). lia.
Qed.

(** * The group operations *)

(** C22: the point operations of ed25519/ compute the group of the twisted Edwards curve:
    whatever projective representatives they get, sums, differences, doubles, opposites
    and the multiple by the cofactor are representatives of the right point, no field
    operation overflows, and the test for the neutral point is exact. *)
Theorem ed25519_point_arithmetic (h g : ge_p3) (P Q : point) :
  rep_p3 h P → rep_p3 g Q →
  runs (c ← ge_p3_to_cached g; r ← ge_add h c; ge_p1p1_to_p3 r) (λ r, rep_p3 r (P + Q)%pt) ∧
  runs (c ← ge_p3_to_cached g; r ← ge_sub h c; ge_p1p1_to_p3 r) (λ r, rep_p3 r (P - Q)%pt) ∧
  runs (r ← ge_p3_dbl h; ge_p1p1_to_p3 r) (λ r, rep_p3 r (P + P)%pt) ∧
  runs (ge_p3_add h g) (λ r, rep_p3 r (P + Q)%pt) ∧
  runs (ge_neg h) (λ r, rep_p3 r (- P)%pt) ∧
  runs (ge_scalarmult_cofactor h) (λ r, rep_p3 r (smul 8 P)) ∧
  ge_isneutral h = Some (if decide (P = pzero) then 1 else 0).
Proof.
  intros HP HQ. split_and!.
  - ge_step p3_to_cached_ok c Hc. eapply runs_bind; [apply (ge_add_ok _ _ _ _ HP Hc)|]. cbv beta. intros r Hr.
    by apply p1p1_to_p3_ok.
  - ge_step p3_to_cached_ok c Hc. eapply runs_bind; [apply (ge_sub_ok _ _ _ _ HP Hc)|]. cbv beta. intros r Hr.
    by apply p1p1_to_p3_ok.
  - ge_step ge_p3_dbl_ok r Hr. by apply p1p1_to_p3_ok.
  - by apply ge_p3_add_ok.
  - by apply ge_neg_ok.
  - by apply ge_scalarmult_cofactor_ok.
  - by apply ge_isneutral_ok.
Qed.

Lemma ed25519_point_arithmetic_witness :
  runs (c ← ge_p3_to_cached ge_p3_0; r ← ge_add ge_p3_0 c; ge_p1p1_to_p3 r) (λ r, rep_p3 r (pzero + pzero)%pt).
Proof. apply (ed25519_point_arithmetic ge_p3_0 ge_p3_0 pzero pzero rep_p3_0 rep_p3_0). Defined.

(** the encoding of a point is 32 bytes that no other point has, and decoding it gives
    the opposite point, which is what the check of a signature needs. *)
Theorem ed25519_point_encoding (h : ge_p3) (P : point) : rep_p3 h P →
  ∃ s, ge_p3_tobytes h = Some s ∧ length s = 32%nat ∧ wf_bytes s ∧
    runs (ge_frombytes_negate_vartime s) (λ r, ∃ g, r = Some g ∧ rep_p3 g (- P)%pt) ∧
    ∀ g Q, rep_p3 g Q → ge_p3_tobytes g = Some s → Q = P.
Proof.
  intros HP. exists (encode P). split; [by apply ge_p3_tobytes_ok|]. split; [apply length_encode|].
  split; [apply wf_encode|]. split; [apply ge_frombytes_encode|].
  intros g Q HQ E. rewrite (ge_p3_tobytes_ok _ _ HQ) in E. apply encode_inj. congruence.
Qed.

Lemma ed25519_point_encoding_witness :
  ∃ s, ge_p3_tobytes ge_p3_0 = Some s ∧ length s = 32%nat.
Proof.
  destruct (ed25519_point_encoding ge_p3_0 pzero rep_p3_0) as (s & E & L & _). exists s. split; assumption.
Defined.
