(* ===== verification/GeTable.v ===== *)
(** The base point of Ed25519, its order, and the precomputed tables.

    The multiples of the base point are recomputed on machine-word numbers with
    the complete addition formula, and every entry of base.h and base2.h is
    compared with the multiple its comment claims. *)

From Stdlib Require Import Zdivisibility.
From Bignums Require Import BigN.
From S2P Require Import Prelude Limbs DonnaField Fe FeSpec Prime Field25519 Edwards GeBase GeSpec.
Import Fe.

(** * The base point *)

Definition base_x : Fp := F 15112221349535400772501151409588531511454012693041857206046113283949847762202.
Definition base_y : Fp := F 46316835694926478169428394003475163141307993866256225615783033603165251855960.
Lemma base_on_curve : on_curve base_x base_y.
Proof.
  unfold on_curve, base_x, base_y, ed_d. rewrite <- F_1, <- !F_mul, <- F_add, <- F_sub.
  apply F_eqp. vm_compute. reflexivity.
Qed.
Definition B : point := Point base_x base_y base_on_curve.

(** "B is the Ed25519 base point (x,4/5) with x positive." *)
Lemma base_is_four_fifths : (F 5 * py B = F 4)%F ∧ fval (px B) `mod` 2 = 0.
Proof.
  split; [|unfold B, base_x; cbn [px]; rewrite fval_F; vm_compute; reflexivity].
  unfold B, base_y. cbn [py]. rewrite <- F_mul. apply F_eqp. vm_compute. reflexivity.
Qed.

(** * Canonical residues as machine-word numbers *)

Definition is_big (a : bigN) (x : Fp) : Prop := BigN.to_Z a = fval x.
Definition big_p : bigN := Eval vm_compute in big p25519.
Lemma big_p_spec : BigN.to_Z big_p = p25519.
Proof. vm_compute. reflexivity. Qed.
Definition mmul (a b : bigN) : bigN := BigN.modulo (BigN.mul a b) big_p.
Definition madd (a b : bigN) : bigN := BigN.modulo (BigN.add a b) big_p.
Definition msub (a b : bigN) : bigN := BigN.modulo (BigN.add a (BigN.sub big_p b)) big_p.
Definition of_int (z : Z) : bigN := big (z `mod` p25519).

Lemma fval_as_mod x z : F z = x → fval x = z `mod` p25519.
Proof. intros <-. apply fval_F. Qed.
Lemma is_big_mul a b x y : is_big a x → is_big b y → is_big (mmul a b) (x * y)%F.
Proof.
  unfold is_big, mmul. intros Ha Hb. rewrite BigN.spec_modulo, BigN.spec_mul, Ha, Hb, big_p_spec.
  symmetry. apply fval_as_mod. by rewrite F_mul, !F_val.
Qed.
Lemma is_big_add a b x y : is_big a x → is_big b y → is_big (madd a b) (x + y)%F.
Proof.
  unfold is_big, madd. intros Ha Hb. rewrite BigN.spec_modulo, BigN.spec_add, Ha, Hb, big_p_spec.
  symmetry. apply fval_as_mod. by rewrite F_add, !F_val.
Qed.
Lemma is_big_sub a b x y : is_big a x → is_big b y → is_big (msub a b) (x - y)%F.
Proof.
  unfold is_big, msub. intros Ha Hb.
  rewrite BigN.spec_modulo, BigN.spec_add, BigN.spec_sub, Ha, Hb, big_p_spec.
  pose proof (fval_range y). rewrite Z.max_r by lia.
  symmetry. apply fval_as_mod. rewrite F_add, F_sub, !F_val.
  assert (F p25519 = 0%F) as -> by (rewrite <- F_0; by apply F_eqp). ring.
Qed.
Lemma is_big_of_int z : is_big (of_int z) (F z).
Proof.
  unfold is_big, of_int. rewrite fval_F. apply big_spec. by apply Z.mod_pos_bound.
Qed.
Lemma is_big_eqb a b x y : is_big a x → is_big b y → BigN.eqb a b = true → x = y.
Proof.
  unfold is_big. rewrite BigN.spec_eqb, Z.eqb_eq. intros -> -> E.
  by rewrite <- (F_val x), <- (F_val y), E.
Qed.

(** * Extended coordinates *)

Record bpt := Bpt { bX : bigN; bY : bigN; bZ : bigN; bT : bigN }.
Definition big_d2 : bigN := Eval vm_compute in of_int (2 * d25519).
Lemma big_d2_spec : is_big big_d2 (F 2 * ed_d)%F.
Proof.
  unfold ed_d. rewrite <- F_mul. change big_d2 with (of_int (2 * d25519)). apply is_big_of_int.
Qed.

Definition badd (p q : bpt) : bpt :=
  let A := mmul (msub (bY p) (bX p)) (msub (bY q) (bX q)) in
  let B := mmul (madd (bY p) (bX p)) (madd (bY q) (bX q)) in
  let C := mmul (mmul big_d2 (bT p)) (bT q) in
  let D := mmul (madd (bZ p) (bZ p)) (bZ q) in
  let E := msub B A in let G := madd D C in let H := madd B A in let K := msub D C in
  Bpt (mmul E K) (mmul G H) (mmul K G) (mmul E H).

Definition rep_b (p : bpt) (P : point) : Prop :=
  ∃ z, z ≠ 0%F ∧ is_big (bX p) (px P * z)%F ∧ is_big (bY p) (py P * z)%F ∧ is_big (bZ p) z ∧
    is_big (bT p) (px P * py P * z)%F.

Ltac big_op :=
  lazymatch goal with
  | |- is_big (mmul _ _) _ => eapply is_big_mul; big_op
  | |- is_big (madd _ _) _ => eapply is_big_add; big_op
  | |- is_big (msub _ _) _ => eapply is_big_sub; big_op
  | |- is_big big_d2 _ => apply big_d2_spec
  | |- _ => eassumption
  end.
Lemma is_big_conv a x y : is_big a x → x = y → is_big a y.
Proof. by intros H <-. Qed.

Lemma badd_ok p q P Q : rep_b p P → rep_b q Q → rep_b (badd p q) (padd P Q).
Proof.
  intros (z & Hz & X1 & Y1 & Z1 & T1) (w & Hw & X2 & Y2 & Z2 & T2).
  pose proof (delta_plus _ _ _ _ (point_on P) (point_on Q)) as Hp.
  pose proof (delta_minus _ _ _ _ (point_on P) (point_on Q)) as Hm.
  set (δ := delta (px P) (py P) (px Q) (py Q)) in *.
  pose proof f2_neq_0 as H2.
  exists (F 2 * F 2 * (z * w * (z * w)) * ((1 + δ) * (1 - δ)))%F. split; [nonzero|].
  unfold badd. cbn [bX bY bZ bT padd px py]. unfold add_x, add_y. fold δ.
  split_and!; (eapply is_big_conv; [big_op|]); try (unfold δ, delta; ring).
  - transitivity (F 2 * F 2 * (z * w * (z * w)) * ((px P * py Q + px Q * py P) * (1 - δ)))%F;
      [unfold δ, delta; ring|]. field. done.
  - transitivity (F 2 * F 2 * (z * w * (z * w)) * ((py P * py Q + px P * px Q) * (1 + δ)))%F;
      [unfold δ, delta; ring|]. field. done.
  - transitivity (F 2 * F 2 * (z * w * (z * w)) *
      ((px P * py Q + px Q * py P) * (py P * py Q + px P * px Q)))%F; [unfold δ, delta; ring|].
    field. by split.
Qed.

Definition big_B : bpt := Eval vm_compute in
  Bpt (of_int 15112221349535400772501151409588531511454012693041857206046113283949847762202)
    (of_int 46316835694926478169428394003475163141307993866256225615783033603165251855960) BigN.one
    (of_int (15112221349535400772501151409588531511454012693041857206046113283949847762202 *
             46316835694926478169428394003475163141307993866256225615783033603165251855960)).
Lemma big_B_ok : rep_b big_B B.
Proof.
  exists 1%F. split; [apply f1_neq_0|]. unfold B. cbn [px py]. unfold base_x, base_y.
  split_and!.
  - eapply is_big_conv; [apply (is_big_of_int 15112221349535400772501151409588531511454012693041857206046113283949847762202)|ring].
  - eapply is_big_conv; [apply (is_big_of_int 46316835694926478169428394003475163141307993866256225615783033603165251855960)|ring].
  - unfold is_big. cbn [bZ big_B]. rewrite fval_1. reflexivity.
  - eapply is_big_conv; [apply (is_big_of_int (15112221349535400772501151409588531511454012693041857206046113283949847762202 *
             46316835694926478169428394003475163141307993866256225615783033603165251855960))|].
    rewrite F_mul. ring.
Qed.

Fixpoint bmul (k : positive) (p : bpt) : bpt :=
  match k with
  | xH => p
  | xO k => let r := bmul k p in badd r r
  | xI k => let r := bmul k p in badd (badd r r) p
  end.
Lemma bmul_ok k p P : rep_b p P → rep_b (bmul k p) (smul (Z.pos k) P).
Proof.
  intros Hp. induction k as [k IH|k IH|]; cbn [bmul].
  - replace (Z.pos k~1) with (Z.pos k + Z.pos k + 1) by lia. rewrite smul_succ, smul_add.
    apply badd_ok; [by apply badd_ok|done].
  - replace (Z.pos k~0) with (Z.pos k + Z.pos k) by lia. rewrite smul_add. by apply badd_ok.
  - by rewrite smul_1.
Qed.

(** * The order of the base point *)

Definition base_order : Z := 2 ^ 252 + 27742317777372353535851937790883648493.

Lemma rep_b_zero p P : rep_b p P → BigN.eqb (bX p) BigN.zero && BigN.eqb (bY p) (bZ p) = true → P = pzero.
Proof.
  intros (z & Hz & HX & HY & HZ & _) [EX EY]%andb_true_iff.
  assert (is_big BigN.zero 0%F) as H0 by (unfold is_big; by rewrite fval_0).
  pose proof (is_big_eqb _ _ _ _ HX H0 EX) as Ex. pose proof (is_big_eqb _ _ _ _ HY HZ EY) as Ey.
  apply point_eq; cbn.
  - apply fp_mul_0 in Ex as [|]; done.
  - apply (fp_mul_cancel _ _ z); [done|]. transitivity (py P * z)%F; [ring|]. rewrite Ey. ring.
Qed.

Lemma base_order_zero : smul base_order B = pzero.
Proof.
  change base_order with (Z.pos (Z.to_pos base_order)). eapply rep_b_zero; [apply bmul_ok, big_B_ok|].
  vm_compute. reflexivity.
Qed.
Lemma base_neq_zero : B ≠ pzero.
Proof.
  intros E%(f_equal (λ P, fval (py P))). cbn in E. rewrite fval_1 in E. unfold base_y in E.
  rewrite fval_F in E. vm_compute in E. discriminate.
Qed.
(** Scalars count modulo the order. *)
Lemma smul_mod k : smul (k `mod` base_order) B = smul k B.
Proof.
  rewrite (Z_div_mod_eq_full k base_order) at 2. rewrite smul_add, Z.mul_comm, smul_mul, base_order_zero.
  by rewrite smul_zero, padd_0_l.
Qed.
Lemma smul_zero_divide k : smul k B = pzero → (base_order | k).
Proof.
  intros H. destruct (Znumtheory.Zdivide_dec base_order k) as [|Hn]; [done|exfalso].
  apply Z.coprime_prime_l, Z.Bezout_coprime in Hn as (u & v & Huv); [|exact prime_order].
  apply base_neq_zero. rewrite <- (smul_1 B), <- Huv, smul_add, !smul_mul.
  by rewrite base_order_zero, H, !smul_zero, padd_0_l.
Qed.

(** * The tables *)

Definition fe_in (c : Z) (f : fe) : bool :=
  (length f =? 10)%nat && forallb (λ '(b, x), (- b <? x) && (x <? b)) (zip (fe_bound c) f).
Lemma fe_in_ok c f : fe_in c f = true → Forall2 within (fe_bound c) f.
Proof.
  unfold fe_in. rewrite andb_true_iff, Nat.eqb_eq, forallb_forall. intros [Hl H].
  apply Forall2_same_length_lookup. split; [by rewrite Hl|]. intros i b x Hb Hx.
  specialize (H (b, x)). rewrite andb_true_iff, !Z.ltb_lt in H. unfold within.
  apply H, list_elem_of_In. eapply (elem_of_lookup_zip_with_2 pair); done.
Qed.

Lemma fel_in c f x : fe_in c f = true → F (eval f) = x → fel c f x.
Proof. intros H E. split; [by apply fe_in_ok|exact E]. Qed.

(** The entry is [(y + x, y - x, 2 d x y)] of the point. *)
Definition entry_ok (e : ge_precomp) (p : bpt) : bool :=
  fe_in 65 (yplusx e) && fe_in 65 (yminusx e) && fe_in 65 (xy2d e) &&
  BigN.eqb (mmul (of_int (eval (yplusx e))) (bZ p)) (madd (bY p) (bX p)) &&
  BigN.eqb (mmul (of_int (eval (yminusx e))) (bZ p)) (msub (bY p) (bX p)) &&
  BigN.eqb (mmul (of_int (eval (xy2d e))) (bZ p)) (mmul big_d2 (bT p)).
Lemma entry_ok_rep e p P : rep_b p P → entry_ok e p = true → rep_precomp e P.
Proof.
  intros (z & Hz & HX & HY & HZ & HT). unfold entry_ok. rewrite !andb_true_iff.
  intros (((((H1 & H2) & H3) & E1) & E2) & E3).
  pose proof (is_big_of_int (eval (yplusx e))) as I1. pose proof (is_big_of_int (eval (yminusx e))) as I2.
  pose proof (is_big_of_int (eval (xy2d e))) as I3.
  eapply is_big_eqb in E1; [|big_op..]. eapply is_big_eqb in E2; [|big_op..]. eapply is_big_eqb in E3; [|big_op..].
  split; [|split].
  all: apply fel_in; [assumption|].
  all: apply (fp_mul_cancel _ _ z); [assumption|].
  - transitivity (F (eval (yplusx e)) * z)%F; [ring|]. rewrite E1. ring.
  - transitivity (F (eval (yminusx e)) * z)%F; [ring|]. rewrite E2. ring.
  - transitivity (F (eval (xy2d e)) * z)%F; [ring|]. rewrite E3. ring.
Qed.

(** A row holds [acc], [acc + step], [acc + 2 step], ... *)
Fixpoint row_ok (row : list ge_precomp) (step acc : bpt) : bool :=
  match row with
  | [] => true
  | e :: row => entry_ok e acc && row_ok row step (badd acc step)
  end.
Lemma row_ok_rep row step acc S A j e : rep_b step S → rep_b acc A → row_ok row step acc = true →
  row !! j = Some e → rep_precomp e (padd A (smul (Z.of_nat j) S)).
Proof.
  intros HS. revert acc A j. induction row as [|e' row IH]; intros acc A j HA Hrow Hj; [done|].
  cbn [row_ok] in Hrow. apply andb_true_iff in Hrow as [He Hrow]. destruct j as [|j].
  - injection Hj as <-. change (Z.of_nat 0) with 0. rewrite smul_0, padd_0_r. by eapply entry_ok_rep.
  - replace (Z.of_nat (Datatypes.S j)) with (1 + Z.of_nat j) by lia.
    rewrite smul_add, smul_1, padd_assoc. eapply IH; [by apply badd_ok|done|done].
Qed.

(** The rows of base.h are those of [B], [256 B], [256^2 B], ... *)
Fixpoint rows_ok (rows : list (list ge_precomp)) (p : bpt) : bool :=
  match rows with
  | [] => true
  | row :: rows => row_ok row p p && rows_ok rows (bmul 256 p)
  end.
Lemma rows_ok_rep rows p P i row : rep_b p P → rows_ok rows p = true → rows !! i = Some row →
  ∃ q, rep_b q (smul (256 ^ Z.of_nat i) P) ∧ row_ok row q q = true.
Proof.
  revert p P i. induction rows as [|r rows IH]; intros p P i Hp Hrows Hi; [done|].
  cbn [rows_ok] in Hrows. apply andb_true_iff in Hrows as [Hr Hrows]. destruct i as [|i].
  - injection Hi as <-. exists p. by rewrite Z.pow_0_r, smul_1.
  - destruct (IH _ _ i (bmul_ok 256 _ _ Hp) Hrows Hi) as (q & Hq & Hrow). exists q. split; [|done].
    rewrite <- smul_mul, Z.mul_comm in Hq. replace (Z.of_nat (S i)) with (1 + Z.of_nat i) by lia.
    by rewrite Z.pow_add_r by lia.
Qed.

Lemma base_ok : rows_ok base big_B = true.
Proof. vm_compute. reflexivity. Qed.
Lemma Bi_ok : row_ok Bi (badd big_B big_B) big_B = true.
Proof. vm_compute. reflexivity. Qed.

Lemma base_entry pos j row e : base !! pos = Some row → row !! j = Some e →
  rep_precomp e (smul (Z.of_nat (j + 1) * 256 ^ Z.of_nat pos) B).
Proof.
  intros Hrow He. destruct (rows_ok_rep _ _ _ _ _ big_B_ok base_ok Hrow) as (q & Hq & Hr).
  pose proof (row_ok_rep _ _ _ _ _ _ _ Hq Hq Hr He) as H.
  replace (Z.of_nat (j + 1)) with (1 + Z.of_nat j) by lia.
  by rewrite Z.mul_add_distr_r, Z.mul_1_l, smul_add, smul_mul.
Qed.
Lemma Bi_entry j e : Bi !! j = Some e → rep_precomp e (smul (2 * Z.of_nat j + 1) B).
Proof.
  intros He. pose proof (badd_ok _ _ _ _ big_B_ok big_B_ok) as H2.
  pose proof (row_ok_rep _ _ _ _ _ _ _ H2 big_B_ok Bi_ok He) as H.
  rewrite <- smul_2, <- smul_mul in H.
  by rewrite Z.add_comm, smul_add, smul_1, (Z.mul_comm 2).
Qed.
Lemma base_lengths : forallb (λ row, length row =? 8)%nat base = true.
Proof. vm_compute. reflexivity. Qed.
Lemma base_shape pos j : (pos < 32)%nat → (j < 8)%nat → ∃ row e, base !! pos = Some row ∧ row !! j = Some e.
Proof.
  intros Hp Hj. destruct (lookup_lt_is_Some_2 base pos) as [row Hrow]; [exact Hp|].
  pose proof (proj1 (forallb_forall _ _) base_lengths row) as Hl. cbv beta in Hl. rewrite Nat.eqb_eq in Hl.
  destruct (lookup_lt_is_Some_2 row j) as [e He]; [|eauto].
  rewrite Hl; [done|]. by apply list_elem_of_In, (list_elem_of_lookup_2 _ pos).
Qed.
