(* ===== verification/GeMult.v ===== *)
(** Scalar multiplication on Ed25519.

    The signed digits of [recode] and [slide] are those of the scalar, the
    constant-time selections pick the multiple a digit names, and so
    [ge_scalarmult_base], [ge_scalarmult] and [ge_double_scalarmult_vartime]
    multiply points of the curve. *)

From S2P Require Import Prelude Limbs Donna DonnaField DonnaBytes ScalarSpec Fe FeSpec.
From S2P Require Import Field25519 Edwards GeBase Ge GeSpec GeTable.
Import Fe Ge.

(** * Digits *)

(** The value of digits in a base, the lowest first. *)
Fixpoint dval (b : Z) (l : list Z) : Z :=
  match l with [] => 0 | x :: l => x + b * dval b l end.

Lemma dval_app b l k : dval b (l ++ k) = dval b l + b ^ zlen l * dval b k.
Proof.
  unfold zlen. induction l as [|x l IH]; cbn [dval app length].
  - rewrite Z.pow_0_r. lia.
  - rewrite IH, Nat2Z.inj_succ, Z.pow_succ_r by lia. ring.
Qed.

Lemma schar_small x : -128 <= x < 128 → schar x = x.
Proof. intros Hx. unfold schar. rewrite Z.mod_small; lia. Qed.

(** ** Radix 16 *)

Definition nibs (a : bytes) : list Z := mjoin ((λ x, [x `mod` 16; x `div` 16]) <$> a).
Lemma nibbles_ok a : wf_bytes a → length a = 32%nat →
  nibbles a = Some (nibs a).
Proof.
  intros Ha Hl. unfold nibbles.
  rewrite (mapM_Some_2 _ _ ((λ x, [x `mod` 16; x `div` 16]) <$> a)); [done|].
  apply Forall2_same_length_lookup_2; [by rewrite length_seq, length_fmap|].
  intros i j y Hi Hy. apply lookup_seq in Hi as [-> Hi]. cbn [Nat.add].
  rewrite list_lookup_fmap in Hy. destruct (a !! i) as [x|] eqn:Ex; [|done]. injection Hy as <-.
  cbn [mbind option_bind]. pose proof (Forall_lookup_1 _ _ _ _ Ha Ex) as Hx. unfold is_byte in Hx.
  rewrite Z.shiftr_0_r. change 15 with (Z.ones 4). rewrite !Z.land_ones, Z.shiftr_div_pow2 by lia.
  change (2 ^ 4) with 16. rewrite (Z.mod_small (x `div` 16)); [done|].
  split; [apply Z.div_pos; lia|]. apply Z.div_lt_upper_bound; lia.
Qed.
Lemma nibbles_value a : wf_bytes a →
  dval 16 (nibs a) = le_value a ∧
  Forall (λ x, 0 <= x < 16) (nibs a) ∧
  length (nibs a) = (2 * length a)%nat.
Proof.
  induction 1 as [|x a Hx _ (IH1 & IH2 & IH3)]; [by repeat split; try apply Forall_nil_2|].
  unfold is_byte in Hx. pose proof (Z_div_mod_eq_full x 16). pose proof (Z.mod_pos_bound x 16).
  change (nibs (x :: a)) with (x `mod` 16 :: x `div` 16 :: nibs a). cbn [dval le_value length].
  split; [rewrite IH1; lia|]. split; [|rewrite IH3; lia].
  apply Forall_cons_2; [lia|]. apply Forall_cons_2; [|done].
  split; [apply Z.div_pos; lia|]. apply Z.div_lt_upper_bound; lia.
Qed.

(** One digit: the carry is what exceeds the balanced range. *)
Lemma recode_digit_ok pre x xs c : 0 <= x < 16 → c = 0 ∨ c = 1 →
  ∃ y c', recode_digit (length pre) (pre ++ x :: xs, c) = Some (pre ++ y :: xs, c') ∧
    -8 <= y < 8 ∧ (c' = 0 ∨ c' = 1) ∧ y + 16 * c' = x + c.
Proof.
  intros Hx Hc. unfold recode_digit. rewrite lookup_app_r, Nat.sub_diag by done. cbn [lookup list_lookup mbind option_bind].
  rewrite !(schar_small (x + c)), (schar_small (x + c + 8)) by lia.
  rewrite Z.shiftr_div_pow2 by lia. change (2 ^ 4) with 16.
  assert (Z.shiftl ((x + c + 8) `div` 16) 4 = 16 * ((x + c + 8) `div` 16)) as ->
    by (rewrite Z.shiftl_mul_pow2 by lia; lia).
  pose proof (Z_div_mod_eq_full (x + c + 8) 16). pose proof (Z.mod_pos_bound (x + c + 8) 16).
  rewrite schar_small by lia. eexists _, _. split; [|split_and!].
  - f_equal. f_equal. rewrite insert_app_r_alt, Nat.sub_diag by done. reflexivity.
  - lia.
  - lia.
  - lia.
  - lia.
Qed.
Lemma recode_loop n pre xs c : (n <= length xs)%nat → Forall (λ x, 0 <= x < 16) xs → c = 0 ∨ c = 1 →
  ∃ ys c', for_each recode_digit (seq (length pre) n) (pre ++ xs, c) = Some (pre ++ ys ++ drop n xs, c') ∧
    length ys = n ∧ Forall (λ y, -8 <= y < 8) ys ∧ (c' = 0 ∨ c' = 1) ∧
    dval 16 ys + 16 ^ Z.of_nat n * c' = dval 16 (take n xs) + c.
Proof.
  revert pre xs c. induction n as [|n IH]; intros pre xs c Hn Hxs Hc.
  - exists [], c. split; [done|]. split; [done|]. split; [apply Forall_nil_2|]. split; [done|].
    rewrite take_0. change (16 ^ Z.of_nat 0) with 1. cbn [dval]. lia.
  - destruct xs as [|x xs]; [cbn in Hn; lia|]. apply Forall_cons in Hxs as [Hx Hxs].
    destruct (recode_digit_ok pre x xs c Hx Hc) as (y & c1 & E & Hy & Hc1 & V).
    cbn [seq for_each]. rewrite E. cbn [mbind option_bind].
    destruct (IH (pre ++ [y]) xs c1) as (ys & c' & E' & L & Hys & Hc' & V'); [cbn in Hn; lia|done|done|].
    rewrite <- app_assoc in E'. rewrite length_app, Nat.add_1_r in E'. cbn [app] in E'.
    exists (y :: ys), c'. rewrite E', <- app_assoc. split; [done|]. split; [cbn; lia|].
    split; [by apply Forall_cons_2|]. split; [done|].
    rewrite firstn_cons. cbn [dval].
    replace (Z.of_nat (S n)) with (1 + Z.of_nat n) by lia. rewrite Z.pow_add_r by lia. lia.
Qed.

Lemma recode_ok a : wf_bytes a → length a = 32%nat → le_value a < 2 ^ 255 →
  ∃ e, recode a = Some e ∧ length e = 64%nat ∧ Forall (λ y, -8 <= y <= 8) e ∧ dval 16 e = le_value a.
Proof.
  intros Ha Hl Hlt. unfold recode. rewrite nibbles_ok by done. cbn [mbind option_bind].
  destruct (nibbles_value a Ha) as (V & R & L). rewrite Hl in L.
  generalize dependent (nibs a). intros xs V R L.
  destruct (recode_loop 63 [] xs 0) as (ys & c & E & Ly & Ry & Hc & Vy); [lia|done|by left|].
  cbn [app length] in E. rewrite E. cbn [mbind option_bind].
  destruct (drop 63 xs) as [|x [|? ?]] eqn:Ed.
  1,3: exfalso; apply (f_equal length) in Ed; rewrite length_drop, L in Ed; cbn in Ed; lia.
  assert (xs = take 63 xs ++ [x]) as Exs by (rewrite <- Ed; by rewrite take_drop).
  assert (0 <= x < 16) as Hx.
  { rewrite Exs in R. apply Forall_app in R as [_ R]. by apply Forall_cons in R as [R _]. }
  assert (length (take 63 xs) = 63%nat) as Lt by (rewrite length_take; lia).
  rewrite Exs, dval_app in V. unfold zlen in V. rewrite Lt in V. cbn [dval] in V.
  change (16 ^ Z.of_nat 63) with (2 ^ 252) in *.
  assert (0 <= dval 16 (take 63 xs)) as Hpos.
  { clear -R. generalize 63%nat as n. induction xs as [|y l IH]; intros [|n]; rewrite ?take_nil, ?take_0, ?firstn_cons; cbn [dval]; try lia.
    apply Forall_cons in R as [Hy R]. specialize (IH R n). lia. }
  assert (x <= 7) as Hx7 by lia.
  rewrite lookup_app_r, Ly, Nat.sub_diag by lia. cbn [lookup list_lookup mbind option_bind].
  rewrite schar_small by lia. eexists. split; [done|].
  rewrite insert_app_r_alt, Ly, Nat.sub_diag by lia. cbn [insert list_insert].
  split; [rewrite length_app, Ly; done|]. split.
  - apply Forall_app. split; [eapply Forall_impl; [exact Ry|cbn; lia]|]. apply Forall_singleton. lia.
  - rewrite dval_app. unfold zlen. rewrite Ly. change (16 ^ Z.of_nat 63) with (2 ^ 252). cbn [dval]. lia.
Qed.

(** ** Selection *)

Lemma digit_bits b : -8 <= b <= 8 →
  schar (babs b) = Z.abs b ∧ negative b = (if decide (b < 0) then 1 else 0) ∧
  ∀ j, 1 <= j <= 8 → equal (Z.abs b) j = (if decide (Z.abs b = j) then 1 else 0).
Proof.
  intros Hb.
  assert (Forall (λ b, schar (babs b) = Z.abs b ∧ negative b = (if decide (b < 0) then 1 else 0) ∧
    Forall (λ j, equal (Z.abs b) j = (if decide (Z.abs b = j) then 1 else 0)) [1; 2; 3; 4; 5; 6; 7; 8])
    [-8; -7; -6; -5; -4; -3; -2; -1; 0; 1; 2; 3; 4; 5; 6; 7; 8]) as H by (repeat constructor).
  rewrite Forall_forall in H. destruct (H b) as (H1 & H2 & H3).
  { set_unfold. lia. }
  split; [done|]. split; [done|]. intros j Hj. rewrite Forall_forall in H3. apply H3.
  set_unfold. lia.
Qed.

Lemma precomp_cmov_ok t u P Q b : rep_precomp t P → rep_precomp u Q → b = 0 ∨ b = 1 →
  precomp_cmov t u b = Some (if decide (b = 1) then u else t).
Proof.
  intros (T1 & T2 & T3) (U1 & U2 & U3) Hb. unfold precomp_cmov.
  rewrite (fel_cmov _ _ _ _ _ _ T1 U1), (fel_cmov _ _ _ _ _ _ T2 U2), (fel_cmov _ _ _ _ _ _ T3 U3) by (done || lia).
  cbn [mbind option_bind]. by destruct (decide (b = 1)), t, u.
Qed.
Lemma cached_cmov_ok t u P Q b : rep_cached t P → rep_cached u Q → b = 0 ∨ b = 1 →
  cached_cmov t u b = Some (if decide (b = 1) then u else t).
Proof.
  intros (z & _ & T1 & T2 & T3 & T4) (w & _ & U1 & U2 & U3 & U4) Hb. unfold cached_cmov.
  rewrite (fel_cmov _ _ _ _ _ _ T1 U1), (fel_cmov _ _ _ _ _ _ T2 U2), (fel_cmov _ _ _ _ _ _ T3 U3),
    (fel_cmov _ _ _ _ _ _ T4 U4) by (done || lia).
  cbn [mbind option_bind]. by destruct (decide (b = 1)), t, u.
Qed.

(** Looking through a table for the entry a number names: the result stands for
    [k] times the point if entry [k] does, and for zero if [k] is zero. *)
Lemma select_loop {A} (rep : A → point → Prop) (cmov : A → A → Z → option A) (tbl : nat → option A) P k t0 :
  (∀ t u P Q b, rep t P → rep u Q → b = 0 ∨ b = 1 → cmov t u b = Some (if decide (b = 1) then u else t)) →
  (∀ j, (j < 8)%nat → runs (tbl j) (λ u, rep u (smul (Z.of_nat (j + 1)) P))) →
  0 <= k <= 8 → (∀ j, 1 <= j <= 8 → equal k j = (if decide (k = j) then 1 else 0)) → rep t0 pzero →
  runs (for_each (λ j t, u ← tbl j; cmov t u (equal k (Z.of_nat (j + 1)))) (seq 0 8) t0) (λ t, rep t (smul k P)).
Proof.
  intros Hcmov Htbl Hk Heq H0.
  assert (∀ n s t, (s + n = 8)%nat → rep t (smul (if decide (k <= Z.of_nat s) then k else 0) P) →
    runs (for_each (λ j t, u ← tbl j; cmov t u (equal k (Z.of_nat (j + 1)))) (seq s n) t) (λ t, rep t (smul k P)))
    as Hgo.
  { induction n as [|n IH]; intros s t Hs Ht; cbn [seq for_each].
    - apply runs_some. rewrite decide_True in Ht by lia. done.
    - destruct (Htbl s) as (u & -> & Hu); [lia|]. cbn [mbind option_bind].
      rewrite (Hcmov _ _ _ _ _ Ht Hu); [|rewrite Heq by lia; destruct (decide (k = Z.of_nat (s + 1))); [by right|by left]].
      cbn [mbind option_bind]. apply IH; [lia|]. rewrite Heq by lia.
      destruct (decide (k = Z.of_nat (s + 1))) as [->|Hne].
      + rewrite (decide_True (P := 1 = 1)) by done. rewrite decide_True by lia. done.
      + rewrite (decide_False (P := 0 = 1)) by done.
        destruct (decide (k <= Z.of_nat s)), (decide (k <= Z.of_nat (S s))); try done; lia. }
  apply (Hgo 8%nat 0%nat); [done|]. destruct (decide (k <= Z.of_nat 0)); [|done].
  by replace k with 0 by lia.
Qed.

Lemma for_each_ext {A} (f g : nat → A → option A) : (∀ j t, f j t = g j t) →
  ∀ l t, for_each f l t = for_each g l t.
Proof.
  intros E l. induction l as [|j l IH]; intros t; [done|]. cbn [for_each]. rewrite E.
  destruct (g j t); cbn [mbind option_bind]; [apply IH|done].
Qed.
Lemma smul_sign b P : (if decide (b < 0) then popp (smul (Z.abs b) P) else smul (Z.abs b) P) = smul b P.
Proof. destruct (decide (b < 0)); rewrite <- ?smul_opp; f_equal; lia. Qed.

Lemma select_base_ok pos b : (pos < 32)%nat → -8 <= b <= 8 →
  runs (select_base pos b) (λ t, rep_precomp t (smul (b * 256 ^ Z.of_nat pos) B)).
Proof.
  intros Hpos Hb. destruct (digit_bits b Hb) as (Eabs & Eneg & Eeq). unfold select_base. rewrite Eabs, Eneg.
  set (P := smul (256 ^ Z.of_nat pos) B). rewrite smul_mul. fold P.
  eapply runs_bind.
  { assert (∀ j t, (row ← base !! pos; u ← row !! j;
        precomp_cmov t u (equal (Z.abs b) (Z.of_nat (j + 1)))) =
      (u ← (row ← base !! pos; row !! j); precomp_cmov t u (equal (Z.abs b) (Z.of_nat (j + 1))))) as E
      by (intros; by destruct (base !! pos)).
    rewrite (for_each_ext _ _ E).
    apply (select_loop rep_precomp precomp_cmov (λ j, row ← base !! pos; row !! j) P (Z.abs b)).
    - apply precomp_cmov_ok.
    - intros j Hj. destruct (base_shape pos j Hpos Hj) as (row & e & Hrow & He).
      rewrite Hrow. cbn [mbind option_bind]. rewrite He. apply runs_some.
      unfold P. rewrite <- smul_mul. by eapply base_entry.
    - lia.
    - exact Eeq.
    - apply rep_precomp_0. }
  cbv beta. intros t Ht. pose proof Ht as (T1 & T2 & T3). fe_steps.
  assert (rep_precomp (GePrecomp h h0 h1) (popp (smul (Z.abs b) P))) as Hm.
  { split_and!; cbn; [fel_done H|fel_done H0|fel_done H1]. }
  rewrite (precomp_cmov_ok _ _ _ _ _ Ht Hm) by (destruct (decide (b < 0)); auto). apply runs_some.
  rewrite <- smul_sign. by destruct (decide (b < 0)).
Qed.

(** ** The base point *)

Fixpoint zsum (f : nat → Z) (l : list nat) : Z :=
  match l with [] => 0 | i :: l => f i + zsum f l end.

Lemma base_step_ok e i h P :
  length e = 64%nat → Forall (λ y, -8 <= y <= 8) e → (i < 64)%nat → rep_p3 h P →
  runs (base_step e i h) (λ r, rep_p3 r (padd P (smul (e !!! i * 256 ^ Z.of_nat (i / 2)) B))).
Proof.
  intros Le He Hi Hh. unfold base_step.
  rewrite (list_lookup_lookup_total_lt e i) by lia. cbn [mbind option_bind].
  assert (-8 <= e !!! i <= 8) as Hei by (apply (Forall_lookup_total_1 _ _ _ He); lia).
  eapply runs_bind; [apply select_base_ok; [apply Nat.Div0.div_lt_upper_bound; lia|done]|].
  cbv beta. intros t Ht. ge_step ge_madd_ok r Hr. by apply p1p1_to_p3_ok.
Qed.
Lemma base_steps_ok e idx h P :
  length e = 64%nat → Forall (λ y, -8 <= y <= 8) e → Forall (λ i, (i < 64)%nat) idx → rep_p3 h P →
  runs (for_each (base_step e) idx h)
    (λ r, rep_p3 r (padd P (smul (zsum (λ i, e !!! i * 256 ^ Z.of_nat (i / 2)) idx) B))).
Proof.
  intros Le He Hidx. revert h P. induction Hidx as [|i idx Hi _ IH]; intros h P Hh; cbn [for_each zsum].
  - apply runs_some. by rewrite smul_0, padd_0_r.
  - eapply runs_bind; [by apply (base_step_ok e i h P)|]. cbv beta. intros h' Hh'.
    eapply runs_mono; [apply IH; exact Hh'|]. cbv beta. intros r' Hr'.
    by rewrite smul_add, padd_assoc.
Qed.

Lemma dbl3_ok r P : rep_p1p1 r P → runs (dbl3 r) (λ h, rep_p3 h (smul 8 P)).
Proof.
  intros Hr. unfold dbl3. ge_step p1p1_to_p2_ok s Hs. ge_step ge_p2_dbl_ok r1 Hr1.
  ge_step p1p1_to_p2_ok s1 Hs1. ge_step ge_p2_dbl_ok r2 Hr2.
  ge_step p1p1_to_p2_ok s2 Hs2. ge_step ge_p2_dbl_ok r3 Hr3.
  replace (smul 8 P) with (padd (padd (padd P P) (padd P P)) (padd (padd P P) (padd P P)))
    by (rewrite <- !smul_2, <- !smul_mul; done).
  by apply p1p1_to_p3_ok.
Qed.

Lemma dval_zsum b e : dval b e = zsum (λ i, e !!! i * b ^ Z.of_nat i) (seq 0 (length e)).
Proof.
  assert (∀ k s, dval b (drop s e) * b ^ Z.of_nat s = zsum (λ i, e !!! i * b ^ Z.of_nat i) (seq s k)
    ∨ (s + k ≠ length e)%nat) as H.
  { induction k as [|k IH]; intros s.
    - destruct (decide (s + 0 = length e)%nat) as [E|]; [left|auto]. rewrite drop_ge by lia. done.
    - destruct (decide (s + S k = length e)%nat) as [E|]; [left|auto]. cbn [seq zsum].
      destruct (IH (S s)) as [E'|]; [|lia]. rewrite <- E'.
      destruct (lookup_lt_is_Some_2 e s) as [x Hx]; [lia|]. rewrite (drop_S _ _ _ Hx).
      rewrite (list_lookup_total_correct _ _ _ Hx). cbn [dval].
      replace (Z.of_nat (S s)) with (1 + Z.of_nat s) by lia. rewrite Z.pow_add_r by lia. ring. }
  destruct (H (length e) 0%nat) as [E|]; [|lia]. rewrite drop_0 in E. rewrite <- E.
  change (b ^ Z.of_nat 0) with 1. lia.
Qed.

(** The odd digits, times sixteen, and the even ones. *)
Lemma two_passes e : length e = 64%nat →
  zsum (λ i, e !!! i * 256 ^ Z.of_nat (i / 2)) (steps2 1 64) * 16 +
  zsum (λ i, e !!! i * 256 ^ Z.of_nat (i / 2)) (steps2 0 64) = dval 16 e.
Proof.
  intros Le. rewrite dval_zsum, Le.
  set (f := λ i, e !!! i). change (λ i, e !!! i * 16 ^ Z.of_nat i) with (λ i, f i * 16 ^ Z.of_nat i).
  change (λ i, e !!! i * 256 ^ Z.of_nat (i / 2)) with (λ i, f i * 256 ^ Z.of_nat (i / 2)). clearbody f.
  change (steps2 1 64) with [1;3;5;7;9;11;13;15;17;19;21;23;25;27;29;31;33;35;37;39;41;43;45;47;49;51;53;55;57;59;61;63]%nat.
  change (steps2 0 64) with [0;2;4;6;8;10;12;14;16;18;20;22;24;26;28;30;32;34;36;38;40;42;44;46;48;50;52;54;56;58;60;62]%nat.
  cbn [seq zsum].
  repeat match goal with |- context [?b ^ Z.of_nat ?k] =>
    let v := eval vm_compute in (b ^ Z.of_nat k) in change (b ^ Z.of_nat k) with v end.
  ring.
Qed.

Lemma ge_scalarmult_base_ok a : wf_bytes a → length a = 32%nat → le_value a < 2 ^ 255 →
  runs (ge_scalarmult_base a) (λ h, rep_p3 h (smul (le_value a) B)).
Proof.
  intros Ha Hl Hlt. unfold ge_scalarmult_base.
  destruct (recode_ok a Ha Hl Hlt) as (e & -> & Le & He & V). cbn [mbind option_bind].
  eapply runs_bind; [apply (base_steps_ok e _ ge_p3_0 pzero Le He); [|apply rep_p3_0]|].
  { rewrite Forall_forall. intros i. unfold steps2. rewrite list_elem_of_fmap. intros (k & -> & Hk%elem_of_seq).
    cbn in Hk. lia. }
  cbv beta. intros h Hh. ge_step ge_p3_dbl_ok r Hr. ge_step dbl3_ok h' Hh'.
  eapply runs_mono; [eapply (base_steps_ok e _ _ _ Le He); [|exact Hh']|].
  { rewrite Forall_forall. intros i. unfold steps2. rewrite list_elem_of_fmap. intros (k & -> & Hk%elem_of_seq).
    cbn in Hk. lia. }
  cbv beta. intros r' Hr'. rewrite padd_0_l, <- smul_2, <- !smul_mul, <- smul_add in Hr'.
  match type of Hr' with rep_p3 _ (smul ?k B) => replace (le_value a) with k; [done|] end.
  rewrite <- V, <- two_passes by done. lia.
Qed.

(** ** Any point *)

Lemma rep_cached_0 : rep_cached (GeCached fe_1 fe_1 fe_1 fe_0) pzero.
Proof.
  exists 1%F. split; [apply f1_neq_0|]. cbn.
  split_and!; eapply fel_weaken; try apply fel_0; try apply fel_1; try lia; ring.
Qed.
(** [pre] holds the multiples of a point. *)
Definition multiples (pre : list ge_cached) (P : point) : Prop :=
  ∀ j, (j < 8)%nat → runs (pre !! j) (λ u, rep_cached u (smul (Z.of_nat (j + 1)) P)).

Lemma select_cached_ok pre P b : multiples pre P → -8 <= b <= 8 →
  runs (select_cached pre b) (λ t, rep_cached t (smul b P)).
Proof.
  intros Hpre Hb. destruct (digit_bits b Hb) as (Eabs & Eneg & Eeq). unfold select_cached. rewrite Eabs, Eneg.
  eapply runs_bind.
  { apply (select_loop rep_cached cached_cmov (λ j, pre !! j) P (Z.abs b));
      [apply cached_cmov_ok|exact Hpre|lia|exact Eeq|apply rep_cached_0]. }
  cbv beta. intros t Ht. pose proof Ht as (z & Hz & T1 & T2 & T3 & T4). fe_steps.
  assert (rep_cached (GeCached h h0 h1 h2) (popp (smul (Z.abs b) P))) as Hm.
  { exists z. split; [done|]. split_and!; cbn; [fel_done H|fel_done H0|fel_done H1|fel_done H2]. }
  rewrite (cached_cmov_ok _ _ _ _ _ Ht Hm) by (destruct (decide (b < 0)); auto). apply runs_some.
  rewrite <- smul_sign. by destruct (decide (b < 0)).
Qed.

Lemma rep_p3_eq h P Q : rep_p3 h P → P = Q → rep_p3 h Q.
Proof. by intros H <-. Qed.
Lemma rep_cached_eq h P Q : rep_cached h P → P = Q → rep_cached h Q.
Proof. by intros H <-. Qed.

(** Points known as multiples of [P]. *)
Lemma dbl_multiple h k P : rep_p3 h (smul k P) → runs (ge_p3_dbl h) (λ r, rep_p1p1 r (smul (k + k) P)).
Proof. intros. rewrite smul_add. by apply ge_p3_dbl_ok. Qed.
Lemma add_multiple h q k m P : rep_p3 h (smul k P) → rep_cached q (smul m P) →
  runs (ge_add h q) (λ r, rep_p1p1 r (smul (k + m) P)).
Proof. intros. rewrite smul_add. by apply ge_add_ok. Qed.

Lemma ge_multiples_ok A P : rep_p3 A P → runs (ge_multiples A) (λ pre, multiples pre P).
Proof.
  intros HA. rewrite <- (smul_1 P) in HA. unfold ge_multiples.
  ge_step p3_to_cached_ok pre0 H0. ge_step dbl_multiple r1 R1. ge_step p1p1_to_p3_ok t1 T1.
  ge_step p3_to_cached_ok pre1 H1.
  eapply runs_bind; [apply (add_multiple _ _ _ _ _ HA H1)|]. cbv beta. intros r2 R2.
  ge_step p1p1_to_p3_ok t2 T2. ge_step p3_to_cached_ok pre2 H2.
  eapply runs_bind; [apply (dbl_multiple _ _ _ T1)|]. cbv beta. intros r3 R3.
  ge_step p1p1_to_p3_ok t3 T3. ge_step p3_to_cached_ok pre3 H3.
  eapply runs_bind; [apply (add_multiple _ _ _ _ _ HA H3)|]. cbv beta. intros r4 R4.
  ge_step p1p1_to_p3_ok t4 T4. ge_step p3_to_cached_ok pre4 H4.
  eapply runs_bind; [apply (dbl_multiple _ _ _ T2)|]. cbv beta. intros r5 R5.
  ge_step p1p1_to_p3_ok t5 T5. ge_step p3_to_cached_ok pre5 H5.
  eapply runs_bind; [apply (add_multiple _ _ _ _ _ HA H5)|]. cbv beta. intros r6 R6.
  ge_step p1p1_to_p3_ok t6 T6. ge_step p3_to_cached_ok pre6 H6.
  eapply runs_bind; [apply (dbl_multiple _ _ _ T3)|]. cbv beta. intros r7 R7.
  ge_step p1p1_to_p3_ok t7 T7. ge_step p3_to_cached_ok pre7 H7.
  apply runs_some. clear -H0 H1 H2 H3 H4 H5 H6 H7.
  intros j Hj. destruct j as [|[|[|[|[|[|[|[|j]]]]]]]]; [..|lia]; apply runs_some; assumption.
Qed.

Lemma mult_add_ok pre e i h P Q : multiples pre P → length e = 64%nat → Forall (λ y, -8 <= y <= 8) e →
  (i < 64)%nat → rep_p3 h Q → runs (mult_add pre e i h) (λ r, rep_p1p1 r (padd Q (smul (e !!! i) P))).
Proof.
  intros Hpre Le He Hi Hh. unfold mult_add.
  rewrite (list_lookup_lookup_total_lt e i) by lia. cbn [mbind option_bind].
  assert (-8 <= e !!! i <= 8) as Hei by (apply (Forall_lookup_total_1 _ _ _ He); lia).
  eapply runs_bind; [by apply (select_cached_ok _ P)|]. cbv beta. intros t Ht. by apply ge_add_ok.
Qed.
Lemma mult_step_ok pre e i h P k : multiples pre P → length e = 64%nat → Forall (λ y, -8 <= y <= 8) e →
  (i < 64)%nat → rep_p3 h (smul k P) →
  runs (mult_step pre e i h) (λ r, rep_p3 r (smul (16 * (k + e !!! i)) P)).
Proof.
  intros Hpre Le He Hi Hh. unfold mult_step.
  eapply runs_bind; [by apply (mult_add_ok _ _ _ _ P (smul k P))|]. cbv beta. intros r Hr.
  rewrite <- smul_add in Hr. ge_step p1p1_to_p2_ok s Hs. ge_step ge_p2_dbl_ok r' Hr'.
  rewrite <- smul_2, <- smul_mul in Hr'.
  replace (16 * (k + e !!! i)) with (8 * (2 * (k + e !!! i))) by lia. rewrite smul_mul. by apply dbl3_ok.
Qed.

(** Horner's rule, from the highest digit down. *)
Lemma mult_loop pre e P n h : multiples pre P → length e = 64%nat → Forall (λ y, -8 <= y <= 8) e →
  (n < 64)%nat → rep_p3 h (smul (16 * dval 16 (drop (n + 1) e)) P) →
  runs (for_each (mult_step pre e) (rev (seq 1 n)) h) (λ r, rep_p3 r (smul (16 * dval 16 (drop 1 e)) P)).
Proof.
  intros Hpre Le He. revert h. induction n as [|n IH]; intros h Hn Hh; [by apply runs_some|].
  rewrite seq_S, rev_unit. cbn [for_each Nat.add].
  eapply runs_bind; [apply (mult_step_ok _ _ (S n) _ P _ Hpre Le He Hn Hh)|]. cbv beta. intros h' Hh'.
  apply IH; [lia|]. replace (drop (n + 1) e) with (e !!! S n :: drop (S n + 1) e).
  - cbn [dval]. eapply rep_p3_eq; [exact Hh'|]. f_equal. lia.
  - rewrite !Nat.add_1_r. symmetry. apply drop_S, list_lookup_lookup_total_lt. lia.
Qed.

Lemma ge_scalarmult_ok a A P : wf_bytes a → length a = 32%nat → le_value a < 2 ^ 255 → rep_p3 A P →
  runs (ge_scalarmult a A) (λ h, rep_p3 h (smul (le_value a) P)).
Proof.
  intros Ha Hl Hlt HA. unfold ge_scalarmult.
  destruct (recode_ok a Ha Hl Hlt) as (e & -> & Le & He & V). cbn [mbind option_bind].
  ge_step ge_multiples_ok pre Hpre.
  eapply runs_bind.
  { apply (mult_loop pre e P 63 ge_p3_0 Hpre Le He); [lia|]. rewrite drop_ge by lia. apply rep_p3_0. }
  cbv beta. intros h Hh.
  eapply runs_bind; [apply (mult_add_ok _ _ 0 _ P _ Hpre Le He ltac:(lia) Hh)|]. cbv beta. intros r Hr.
  rewrite <- smul_add in Hr. replace (le_value a) with (16 * dval 16 (drop 1 e) + e !!! 0%nat);
    [by apply p1p1_to_p3_ok|].
  rewrite <- V. destruct e as [|x e]; [done|]. cbn [drop dval]. change ((x :: e) !!! 0%nat) with x.
  rewrite drop_0. lia.
Qed.
