(* ===== verification/GeSlide.v ===== *)
(** Sliding windows and double multiplication on Ed25519.

    [slide] turns the bits of a scalar into digits that are zero or odd and at
    most fifteen in magnitude.  Its inner loop only ever carries out of the fifth
    bit of a window, and the carry stops inside the array as long as the scalar is
    below [2^253]: scalars below the group order are, and so are those that the
    check of the three top bits of a signature lets through. *)

From S2P Require Import Prelude Limbs Donna DonnaField DonnaBytes ScalarSpec Fe FeSpec.
From S2P Require Import Field25519 Edwards GeBase Ge GeSpec GeTable GeMult.
Import Fe Ge.

(** * The loops on lists *)

Definition bit (x : Z) : Prop := x = 0 ∨ x = 1.

(** Adding one to the bits. *)
Fixpoint incr (l : list Z) : list Z :=
  match l with [] => [] | x :: l => if x =? 0 then 1 :: l else 0 :: incr l end.

Lemma length_incr l : length (incr l) = length l.
Proof. induction l as [|x l IH]; [done|]. cbn. destruct (x =? 0); cbn; lia. Qed.
Lemma incr_bits l : Forall bit l → Forall bit (incr l).
Proof.
  induction 1 as [|x l Hx Hl IH]; [apply Forall_nil_2|]. cbn [incr].
  destruct (x =? 0); apply Forall_cons_2; try done; [by right|by left].
Qed.
Lemma dval_bits l : Forall bit l → 0 <= dval 2 l < 2 ^ zlen l.
Proof.
  unfold zlen. induction 1 as [|x l [-> | ->] _ IH]; cbn [dval length]; [done|..];
    rewrite Nat2Z.inj_succ, Z.pow_succ_r by lia; lia.
Qed.
Lemma incr_value l : Forall bit l → dval 2 l + 1 < 2 ^ zlen l → dval 2 (incr l) = dval 2 l + 1.
Proof.
  unfold zlen. induction 1 as [|x l [-> | ->] Hl IH]; cbn [dval incr length]; [done|..];
    rewrite Nat2Z.inj_succ, Z.pow_succ_r by lia; intros Hlt.
  - change (0 =? 0) with true. cbn [dval]. lia.
  - change (1 =? 0) with false. cbn [dval]. rewrite IH; lia.
Qed.

Lemma slide_carry_ok p l : slide_carry (length l) (length p) (p ++ l) = Some (p ++ incr l).
Proof.
  revert p. induction l as [|x l IH]; intros p; [done|]. cbn [length slide_carry incr].
  rewrite lookup_app_r, Nat.sub_diag by done. cbn [lookup list_lookup mbind option_bind].
  rewrite insert_app_r_alt, Nat.sub_diag by done. cbn [insert list_insert].
  rewrite insert_app_r_alt, Nat.sub_diag by done. cbn [insert list_insert].
  destruct (x =? 0); [done|].
  specialize (IH (p ++ [0])). rewrite length_app, <- !app_assoc in IH. exact IH.
Qed.

(** The inner loop on the digits from [i] on. *)
Fixpoint win (n b : nat) (l : list Z) : list Z :=
  match n with
  | O => l
  | S n =>
    if (b <? length l)%nat then
      let y := l !!! b in
      if y =? 0 then win n (b + 1) l else
      let x := l !!! 0%nat in
      let s := Z.shiftl y (Z.of_nat b) in
      if x + s <=? 15 then win n (b + 1) (<[b := 0]> (<[0%nat := schar (x + s)]> l))
      else if -15 <=? x - s then
        let l := <[0%nat := schar (x - s)]> l in win n (b + 1) (take b l ++ incr (drop b l))
      else l
    else l
  end.

Lemma slide_digit_win n b pre l : (1 <= length l)%nat → (1 <= b)%nat → (length pre + length l = 256)%nat →
  slide_digit (length pre) n b (pre ++ l) = Some (pre ++ win n b l).
Proof.
  revert b l. induction n as [|n IH]; intros b l H1 Hb Hl; [reflexivity|]. cbn [slide_digit win].
  replace (length pre + b <? 256)%nat with (b <? length l)%nat
    by (destruct (Nat.ltb_spec b (length l)), (Nat.ltb_spec (length pre + b) 256); done || lia).
  destruct (Nat.ltb_spec b (length l)) as [Hlt|]; [|reflexivity].
  rewrite (lookup_app_r pre l (length pre + b)) by lia.
  replace (length pre + b - length pre)%nat with b by lia.
  rewrite (list_lookup_lookup_total_lt l b Hlt). cbn [mbind option_bind]. cbv zeta.
  destruct (l !!! b =? 0); [apply IH; lia|].
  rewrite lookup_app_r, Nat.sub_diag by lia.
  rewrite (list_lookup_lookup_total_lt l 0 ltac:(lia)). cbn [mbind option_bind].
  set (x := l !!! 0%nat). set (s := Z.shiftl _ _). destruct (x + s <=? 15).
  - rewrite !insert_app_r_alt by lia. rewrite Nat.sub_diag.
    replace (length pre + b - length pre)%nat with b by lia.
    apply IH; rewrite ?length_insert; lia.
  - destruct (-15 <=? x - s); [|reflexivity].
    rewrite insert_app_r_alt, Nat.sub_diag by lia. set (l' := <[0%nat := _]> l).
    assert (length l' = length l) as Ll by apply length_insert.
    pose proof (slide_carry_ok (pre ++ take b l') (drop b l')) as C.
    rewrite <- !app_assoc, take_drop, length_app, length_take, length_drop, Ll, Nat.min_l in C by lia.
    replace (length l - b)%nat with (256 - (length pre + b))%nat in C by lia. rewrite C.
    cbn [mbind option_bind].
    apply IH; rewrite ?length_app, ?length_incr, ?length_take, ?length_drop, ?Ll; lia.
Qed.

(** * One window *)

(** The digit and what is left of the bits: the next four are gone. *)
Definition window_ok (bits : list Z) (r : list Z) : Prop :=
  ∃ c k rest, r = c :: replicate k 0 ++ rest ∧ (rest = [] ∨ k = 4%nat) ∧
    Z.odd c = true ∧ -15 <= c <= 15 ∧ length r = S (length bits) ∧
    Forall bit rest ∧ dval 2 r = 1 + 2 * dval 2 bits.

Lemma win_stop n b c l : (5 <= b)%nat → -15 <= c <= 15 → Forall bit l → win n b (c :: l) = c :: l.
Proof.
  revert b. induction n as [|n IH]; intros b Hb Hc Hl; [done|]. cbn [win].
  destruct (Nat.ltb_spec b (length (c :: l))) as [Hlt|]; [|done]. cbv zeta.
  destruct b as [|b]; [lia|]. change ((c :: l) !!! S b) with (l !!! b).
  assert (bit (l !!! b)) as [E|E].
  { apply (Forall_lookup_total_1 bit l b Hl). cbn in Hlt. lia. }
  - rewrite E. change (0 =? 0) with true. apply IH; done || lia.
  - rewrite E. change (1 =? 0) with false. change ((c :: l) !!! 0%nat) with c.
    rewrite Z.shiftl_mul_pow2, Z.mul_1_l by lia.
    assert (2 ^ 5 <= 2 ^ Z.of_nat (S b)) by (apply Z.pow_le_mono_r; lia).
    rewrite (proj2 (Z.leb_gt _ 15)) by lia. by rewrite (proj2 (Z.leb_gt (-15) _)) by lia.
Qed.

Lemma win_long b1 b2 b3 b4 rest : bit b1 → bit b2 → bit b3 → bit b4 → Forall bit rest →
  (b4 = 1 → dval 2 rest + 1 < 2 ^ zlen rest) →
  window_ok (b1 :: b2 :: b3 :: b4 :: rest) (win 6 1 (1 :: b1 :: b2 :: b3 :: b4 :: rest)).
Proof.
  intros H1 H2 H3 H4 Hr Hno.
  set (c := 1 + 2 * b1 + 4 * b2 + 8 * b3 - 16 * b4). set (rest' := if b4 =? 1 then incr rest else rest).
  assert (Forall bit rest') as Hr' by (unfold rest'; destruct (b4 =? 1); [by apply incr_bits|done]).
  assert (∀ n, win (S (S (S (S n)))) 1 (1 :: b1 :: b2 :: b3 :: b4 :: rest) =
    win n 5 (c :: 0 :: 0 :: 0 :: 0 :: rest')) as E.
  { intros n. subst c rest'.
    destruct H1 as [-> | ->], H2 as [-> | ->], H3 as [-> | ->], H4 as [-> | ->]; reflexivity. }
  assert (-15 <= c <= 15) as Hc by (subst c; destruct H1 as [-> | ->], H2 as [-> | ->], H3 as [-> | ->], H4 as [-> | ->]; lia).
  rewrite (E 2%nat), win_stop; [|lia|done|].
  2:{ do 4 (apply Forall_cons_2; [by left|]). exact Hr'. }
  exists c, 4%nat, rest'. split; [reflexivity|]. split; [by right|]. split.
  { subst c. destruct H1 as [-> | ->], H2 as [-> | ->], H3 as [-> | ->], H4 as [-> | ->]; reflexivity. }
  split; [exact Hc|]. split.
  { subst rest'. cbn [length]. destruct (b4 =? 1); rewrite ?length_incr; reflexivity. }
  split; [done|]. cbn [dval]. subst c rest'.
  destruct H4 as [-> | ->]; [change (0 =? 1) with false | change (1 =? 1) with true]; cbv iota; [lia|].
  rewrite incr_value by auto. lia.
Qed.

Lemma win_short bits : Forall bit bits → (length bits < 4)%nat → window_ok bits (win 6 1 (1 :: bits)).
Proof.
  intros Hb Hl.
  assert (∃ c, win 6 1 (1 :: bits) = c :: replicate (length bits) 0 ∧ Z.odd c = true ∧ -15 <= c <= 15 ∧
    dval 2 (win 6 1 (1 :: bits)) = 1 + 2 * dval 2 bits) as (c & E & Ho & Hr & V).
  { destruct bits as [|b1 [|b2 [|b3 [|]]]]; [..|cbn in Hl; lia].
    all: repeat (apply Forall_cons in Hb as [? Hb]); clear Hb Hl.
    all: repeat match goal with H : bit _ |- _ => destruct H as [-> | ->] end.
    all: eexists; split; [reflexivity|]; done. }
  exists c, (length bits), []. rewrite app_nil_r. split; [exact E|]. split; [by left|].
  split; [exact Ho|]. split; [exact Hr|]. split; [|split; [apply Forall_nil_2|exact V]].
  rewrite E. cbn [length]. by rewrite length_replicate.
Qed.

Lemma win_ok bits : Forall bit bits →
  (bits !! 3%nat = Some 1 → dval 2 (drop 4 bits) + 1 < 2 ^ zlen (drop 4 bits)) →
  window_ok bits (win 6 1 (1 :: bits)).
Proof.
  intros Hb Hno. destruct bits as [|b1 [|b2 [|b3 [|b4 rest]]]]; try (apply win_short; [done|cbn; lia]).
  apply Forall_cons in Hb as [H1 Hb]. apply Forall_cons in Hb as [H2 Hb].
  apply Forall_cons in Hb as [H3 Hb]. apply Forall_cons in Hb as [H4 Hb].
  apply win_long; try done. intros ->. by apply Hno.
Qed.

(** * All windows *)

(** The zeros at the low end. *)
Fixpoint zeros (l : list Z) : nat :=
  match l with [] => O | x :: l => if x =? 0 then S (zeros l) else O end.
Lemma zeros_replicate k (l : list Z) : (k <= zeros (replicate k 0%Z ++ l))%nat.
Proof. induction k as [|k IH]; cbn [replicate app zeros]; [lia|]. change (0 =? 0) with true. cbv iota. lia. Qed.

(** The bits left at [i] are bits, and exceed the scalar by little. *)
Definition slide_inv (i : nat) (l : list Z) : Prop :=
  (i + length l = 256)%nat ∧ Forall bit l ∧
  2 * (2 ^ Z.of_nat i * dval 2 l) <= 2 ^ 254 + 2 ^ Z.of_nat (i + zeros l).

Definition slide_digit_range (x : Z) : Prop := x = 0 ∨ Z.odd x = true ∧ -15 <= x <= 15.

Lemma slide_inv_room i bits : slide_inv i (1 :: bits) →
  bits !! 3%nat = Some 1 → dval 2 (drop 4 bits) + 1 < 2 ^ zlen (drop 4 bits).
Proof.
  intros (Hl & Hb & Hv) H3. apply Forall_cons in Hb as [_ Hb].
  destruct bits as [|b1 [|b2 [|b3 [|b4 rest]]]]; try discriminate H3. injection H3 as ->.
  apply Forall_cons in Hb as [H1 Hb]. apply Forall_cons in Hb as [H2 Hb].
  apply Forall_cons in Hb as [H3 Hb]. apply Forall_cons in Hb as [_ Hb].
  change (drop 4 _) with rest. pose proof (dval_bits rest Hb) as Hr.
  destruct (Z_lt_dec (dval 2 rest + 1) (2 ^ zlen rest)) as [|Hge]; [done|exfalso].
  change (zeros (1 :: _)) with 0%nat in Hv. rewrite Nat.add_0_r in Hv. cbn [dval length] in Hv, Hl.
  assert (2 ^ Z.of_nat i * 2 ^ zlen rest = 2 ^ 251) as Hp.
  { rewrite <- Z.pow_add_r by (unfold zlen; lia). f_equal. unfold zlen. lia. }
  assert (2 ^ Z.of_nat i <= 2 ^ 251) as Hi by (apply Z.pow_le_mono_r; lia).
  assert (dval 2 rest = 2 ^ zlen rest - 1) as E by lia. rewrite E in Hv.
  assert (0 <= b1 + 2 * b2 + 4 * b3) as Hpos by (destruct H1 as [-> | ->], H2 as [-> | ->], H3 as [-> | ->]; lia).
  assert (0 < 2 ^ Z.of_nat i) by (apply Z.pow_pos_nonneg; lia).
  assert (2 ^ Z.of_nat i * (17 + 32 * (2 ^ zlen rest - 1)) <=
    2 ^ Z.of_nat i * (1 + 2 * (b1 + 2 * (b2 + 2 * (b3 + 2 * (1 + 2 * (2 ^ zlen rest - 1))))))).
  { apply Z.mul_le_mono_nonneg_l; lia. }
  assert (2 ^ Z.of_nat i * (17 + 32 * (2 ^ zlen rest - 1)) = 32 * 2 ^ 251 - 15 * 2 ^ Z.of_nat i) by (rewrite <- Hp; ring).
  lia.
Qed.

(** One round: a zero stays, a one starts a window. *)
Lemma slide_inv_zero i l : slide_inv i (0 :: l) → slide_inv (S i) l.
Proof.
  intros (Hl & Hb & Hv). apply Forall_cons in Hb as [_ Hb]. cbn [length dval zeros] in *.
  change (0 =? 0) with true in Hv. cbv iota in Hv. split; [lia|]. split; [done|].
  replace (S i + zeros l)%nat with (i + S (zeros l))%nat by lia.
  rewrite Nat2Z.inj_succ, Z.pow_succ_r by lia. lia.
Qed.
Lemma slide_inv_one i bits : slide_inv i (1 :: bits) →
  ∃ c l, win 6 1 (1 :: bits) = c :: l ∧ slide_digit_range c ∧ slide_inv (S i) l ∧
    c + 2 * dval 2 l = 1 + 2 * dval 2 bits.
Proof.
  intros Hi. pose proof (slide_inv_room _ _ Hi) as Hroom. destruct Hi as (Hl & Hb & Hv).
  apply Forall_cons in Hb as [_ Hb].
  destruct (win_ok bits Hb Hroom) as (c & k & rest & E & Hk & Ho & Hc & Lr & Hr & V).
  rewrite E in *. exists c, (replicate k 0 ++ rest). split; [done|]. split; [by right|].
  cbn [dval length] in *. split; [|done]. split; [lia|].
  assert (Forall bit (replicate k 0 ++ rest)) as Hb'.
  { apply Forall_app. split; [|done]. apply Forall_replicate. by left. }
  split; [done|]. change (zeros (1 :: _)) with 0%nat in Hv. rewrite Nat.add_0_r in Hv.
  assert (0 < 2 ^ Z.of_nat i) by (apply Z.pow_pos_nonneg; lia).
  destruct Hk as [-> | ->].
  - rewrite app_nil_r. assert (dval 2 (replicate k 0) = 0) as ->.
    { clear. induction k as [|k IH]; cbn [replicate dval]; lia. }
    rewrite Z.mul_0_r. assert (0 < 2 ^ Z.of_nat (S i + zeros (replicate k 0))) by (apply Z.pow_pos_nonneg; lia). lia.
  - pose proof (zeros_replicate 4 rest) as Hz.
    assert (2 ^ Z.of_nat (i + 5) <= 2 ^ Z.of_nat (S i + zeros (replicate 4 0 ++ rest))) as Hm
      by (apply Z.pow_le_mono_r; lia).
    rewrite Nat2Z.inj_add, Z.pow_add_r in Hm by lia. change (2 ^ Z.of_nat 5) with 32 in Hm.
    rewrite Nat2Z.inj_succ, Z.pow_succ_r by lia.
    assert (2 ^ Z.of_nat i * (2 * dval 2 (replicate 4 0 ++ rest)) = 2 ^ Z.of_nat i * (1 + 2 * dval 2 bits) - 2 ^ Z.of_nat i * c) as HV.
    { rewrite <- Z.mul_sub_distr_l. f_equal. lia. }
    assert (2 ^ Z.of_nat i * -15 <= 2 ^ Z.of_nat i * c) by (apply Z.mul_le_mono_nonneg_l; lia).
    lia.
Qed.

Lemma slide_loop n pre l : (n = length l)%nat → slide_inv (length pre) l →
  ∃ r, for_each (λ i r, x ← r !! i; if x =? 0 then Some r else slide_digit i 6 1 r) (seq (length pre) n) (pre ++ l) = Some (pre ++ r) ∧
    length r = length l ∧ Forall slide_digit_range r ∧ dval 2 r = dval 2 l.
Proof.
  revert pre l. induction n as [|n IH]; intros pre l Hn Hi.
  { destruct l; [|done]. exists []. split; [done|]. split; [done|]. split; [apply Forall_nil_2|done]. }
  destruct l as [|x bits]; [done|]. injection Hn as Hn. cbn [seq for_each].
  rewrite (lookup_app_r pre), Nat.sub_diag by done. cbn [lookup list_lookup mbind option_bind].
  assert (∃ c l, (if x =? 0 then Some (pre ++ x :: bits) else slide_digit (length pre) 6 1 (pre ++ x :: bits))
    = Some (pre ++ c :: l) ∧ slide_digit_range c ∧ slide_inv (S (length pre)) l ∧
    c + 2 * dval 2 l = x + 2 * dval 2 bits) as (c & l & E & Hc & Hi' & V).
  { assert (bit x) as [-> | ->] by (destruct Hi as (_ & Hb & _); by apply Forall_cons in Hb as [Hb _]).
    - exists 0, bits. split; [done|]. split; [by left|]. split; [by apply slide_inv_zero|done].
    - destruct (slide_inv_one _ _ Hi) as (c & l & E & Hc & Hi' & V). exists c, l.
      change (1 =? 0) with false. cbv iota. destruct Hi as (Hl & _ & _).
      rewrite slide_digit_win by (cbn [length] in *; lia). rewrite E. done. }
  rewrite E. cbn [mbind option_bind].
  assert (n = length l) as Hn' by (destruct Hi as (Hl & _), Hi' as (Hl' & _); cbn [length] in Hl; lia).
  destruct (IH (pre ++ [c]) l Hn') as (r & E' & Lr & Fr & Vr).
  { rewrite length_app. cbn [length]. by rewrite Nat.add_1_r. }
  rewrite length_app, Nat.add_1_r, <- !app_assoc in E'. cbn [app length] in E'.
  exists (c :: r). rewrite E'. split; [done|]. cbn [length dval]. split; [lia|].
  split; [by apply Forall_cons_2|]. lia.
Qed.

(** The bits of the scalar. *)
Definition bits8 (x : Z) : list Z := (λ j, Z.land 1 (Z.shiftr x (Z.of_nat j))) <$> seq 0 8.
Lemma bits8_ok x : is_byte x → Forall bit (bits8 x) ∧ dval 2 (bits8 x) = x.
Proof.
  intros Hx. apply (byte_forall (λ x, forallb (λ y, (y =? 0) || (y =? 1)) (bits8 x) && (dval 2 (bits8 x) =? x))) in Hx;
    [|by vm_compute].
  rewrite andb_true_iff, Z.eqb_eq in Hx. destruct Hx as [H ?]. split; [|done].
  apply Forall_forall. intros y Hy. rewrite forallb_forall in H. apply list_elem_of_In in Hy.
  specialize (H y Hy). unfold bit. rewrite orb_true_iff, !Z.eqb_eq in H. done.
Qed.
Lemma mapM_app_Some {A C} (f : A → option C) l1 l2 k1 k2 :
  mapM f l1 = Some k1 → mapM f l2 = Some k2 → mapM f (l1 ++ l2) = Some (k1 ++ k2).
Proof. rewrite !mapM_Some. apply Forall2_app. Qed.
Lemma slide_bits_from pre a :
  mapM (λ i, x ← (pre ++ a) !! (i / 8)%nat; Some (Z.land 1 (Z.shiftr x (Z.of_nat (i mod 8)))))
    (seq (8 * length pre) (8 * length a)) = Some (mjoin (bits8 <$> a)).
Proof.
  revert pre. induction a as [|x a IH]; intros pre; [done|]. cbn [length fmap list_fmap mjoin list_join].
  replace (8 * S (length a))%nat with (8 + 8 * length a)%nat by lia. rewrite seq_app. apply mapM_app_Some.
  - apply mapM_Some, Forall2_same_length_lookup_2; [done|]. intros i j y Hi Hy.
    apply lookup_seq in Hi as [-> Hi]. replace (8 * length pre + i)%nat with (i + length pre * 8)%nat by lia.
    rewrite Nat.Div0.mod_add, Nat.div_add, Nat.div_small, Nat.mod_small by lia.
    rewrite lookup_app_r, Nat.sub_diag by lia. cbn [lookup list_lookup mbind option_bind].
    unfold bits8 in Hy. rewrite list_lookup_fmap, lookup_seq_lt in Hy by lia. cbn in Hy. exact Hy.
  - specialize (IH (pre ++ [x])). rewrite length_app, <- app_assoc in IH. cbn [length app] in IH.
    replace (8 * (length pre + 1))%nat with (8 * length pre + 8)%nat in IH by lia. exact IH.
Qed.
Lemma slide_bits_ok a : wf_bytes a → length a = 32%nat →
  ∃ l, slide_bits a = Some l ∧ length l = 256%nat ∧ Forall bit l ∧ dval 2 l = le_value a.
Proof.
  intros Ha Hl. exists (mjoin (bits8 <$> a)).
  split; [pose proof (slide_bits_from [] a) as E; rewrite Hl in E; exact E|].
  assert (length (mjoin (bits8 <$> a)) = (8 * length a)%nat ∧ Forall bit (mjoin (bits8 <$> a)) ∧
    dval 2 (mjoin (bits8 <$> a)) = le_value a) as (L & F & V); [|rewrite L, Hl; done].
  clear Hl. induction Ha as [|x a Hx _ (IH1 & IH2 & IH3)]; [by repeat split; try apply Forall_nil_2|].
  destruct (bits8_ok x Hx) as [Fx Vx].
  change (mjoin (bits8 <$> x :: a)) with (bits8 x ++ mjoin (bits8 <$> a)). cbn [le_value length].
  rewrite length_app, dval_app, Vx. assert (length (bits8 x) = 8%nat) as L8 by reflexivity. unfold zlen. rewrite L8.
  split; [lia|]. split; [by apply Forall_app|]. change (2 ^ Z.of_nat 8) with 256. rewrite IH3. lia.
Qed.

Lemma slide_ok a : wf_bytes a → length a = 32%nat → le_value a < 2 ^ 253 →
  ∃ r, slide a = Some r ∧ length r = 256%nat ∧ Forall slide_digit_range r ∧ dval 2 r = le_value a.
Proof.
  intros Ha Hl Hlt. destruct (slide_bits_ok a Ha Hl) as (l & E & L & Hb & V). unfold slide. rewrite E.
  cbn [mbind option_bind]. destruct (slide_loop 256 [] l) as (r & E' & Lr & Fr & Vr).
  - done.
  - split; [done|]. split; [done|]. change (Z.of_nat (length [])) with 0. rewrite V.
    assert (0 < 2 ^ Z.of_nat (0 + zeros l)) by (apply Z.pow_pos_nonneg; lia). cbn [length]. lia.
  - exists r. cbn [app length] in E'. rewrite E'. split; [done|]. split; [lia|]. split; [done|lia].
Qed.

(** * Double multiplication *)

(** [A], [3A], ..., [15A]. *)
Definition odd_table (Ai : list ge_cached) (P : point) : Prop :=
  ∀ j : nat, (j < 8)%nat → runs (Ai !! j) (λ q, rep_cached q (smul (2 * Z.of_nat j + 1) P)).

Lemma odd_multiples_ok n k A2 c P : rep_p3 A2 (padd P P) → rep_cached c (smul k P) →
  runs (odd_multiples n A2 c) (λ l, ∀ j, (j <= n)%nat →
    runs (l !! j) (λ q, rep_cached q (smul (2 * Z.of_nat j + k) P))).
Proof.
  intros H2. revert k c. induction n as [|n IH]; intros k c Hc; cbn [odd_multiples].
  - apply runs_some. intros j Hj. replace j with 0%nat by lia. by apply runs_some.
  - eapply runs_bind; [apply (ge_add_ok _ _ _ _ H2 Hc)|]. cbv beta. intros t Ht.
    ge_step p1p1_to_p3_ok u Hu. ge_step p3_to_cached_ok c' Hc'.
    rewrite <- smul_2, <- smul_add in Hc'.
    eapply runs_bind; [apply (IH _ _ Hc')|]. cbv beta. intros l Hl. apply runs_some.
    intros [|j] Hj; [by apply runs_some|]. cbn [lookup list_lookup].
    replace (2 * Z.of_nat (S j) + k) with (2 * Z.of_nat j + (2 + k)) by lia. apply Hl. lia.
Qed.

(** A digit picks its multiple, and a zero digit leaves the point. *)
Lemma half_index x : Z.odd x = true → 0 < x <= 15 → (Z.to_nat (x ÷ 2) < 8)%nat ∧ 2 * Z.of_nat (Z.to_nat (x ÷ 2)) + 1 = x.
Proof.
  intros Ho Hx. rewrite Zodd_mod in Ho. rewrite Z.quot_div_nonneg by lia. apply Zeq_bool_eq in Ho.
  pose proof (Z_div_mod_eq_full x 2). split; lia.
Qed.
Lemma add_digit_ok Ai x t P Q : odd_table Ai P → slide_digit_range x → rep_p1p1 t Q →
  runs (add_digit Ai x t) (λ r, rep_p1p1 r (padd Q (smul x P))).
Proof.
  intros HA Hx Ht. unfold add_digit. destruct (Z.ltb_spec 0 x) as [Hp|Hn].
  - destruct Hx as [->|[Ho Hx]]; [lia|]. destruct (half_index x Ho ltac:(lia)) as [Hi E].
    ge_step p1p1_to_p3_ok u Hu. eapply runs_bind; [apply (HA _ Hi)|]. cbv beta. intros q Hq.
    rewrite E in Hq. by apply ge_add_ok.
  - destruct (Z.ltb_spec x 0) as [Hn'|Hz].
    + destruct Hx as [->|[Ho Hx]]; [lia|]. rewrite <- Z.odd_opp in Ho.
      destruct (half_index (- x) Ho ltac:(lia)) as [Hi E].
      ge_step p1p1_to_p3_ok u Hu. eapply runs_bind; [apply (HA _ Hi)|]. cbv beta. intros q Hq.
      rewrite E in Hq. replace (smul x P) with (popp (smul (- x) P)); [by apply ge_sub_ok|].
      rewrite <- smul_opp. f_equal. lia.
    + replace x with 0 by lia. rewrite smul_0, padd_0_r. by apply runs_some.
Qed.
Lemma madd_digit_ok x t Q : slide_digit_range x → rep_p1p1 t Q →
  runs (madd_digit x t) (λ r, rep_p1p1 r (padd Q (smul x B))).
Proof.
  intros Hx Ht. unfold madd_digit.
  assert (∀ j : nat, (j < 8)%nat → runs (Bi !! j) (λ q, rep_precomp q (smul (2 * Z.of_nat j + 1) B))) as HB.
  { intros j Hj. destruct (Bi !! j) as [q|] eqn:E; [by apply runs_some, Bi_entry|].
    apply lookup_ge_None in E. change (length Bi) with 8%nat in E. lia. }
  destruct (Z.ltb_spec 0 x) as [Hp|Hn].
  - destruct Hx as [->|[Ho Hx]]; [lia|]. destruct (half_index x Ho ltac:(lia)) as [Hi E].
    ge_step p1p1_to_p3_ok u Hu. eapply runs_bind; [apply (HB _ Hi)|]. cbv beta. intros q Hq.
    rewrite E in Hq. by apply ge_madd_ok.
  - destruct (Z.ltb_spec x 0) as [Hn'|Hz].
    + destruct Hx as [->|[Ho Hx]]; [lia|]. rewrite <- Z.odd_opp in Ho.
      destruct (half_index (- x) Ho ltac:(lia)) as [Hi E].
      ge_step p1p1_to_p3_ok u Hu. eapply runs_bind; [apply (HB _ Hi)|]. cbv beta. intros q Hq.
      rewrite E in Hq. replace (smul x B) with (popp (smul (- x) B)); [by apply ge_msub_ok|].
      rewrite <- smul_opp. f_equal. lia.
    + replace x with 0 by lia. rewrite smul_0, padd_0_r. by apply runs_some.
Qed.

Lemma drop_digit (l : list Z) i : (i < length l)%nat → dval 2 (drop i l) = l !!! i + 2 * dval 2 (drop (S i) l).
Proof.
  intros Hi. rewrite (drop_S l (l !!! i) i); [done|]. by apply list_lookup_lookup_total_lt.
Qed.
Lemma horner_step x y P : smul (x + 2 * y) P = padd (padd (smul y P) (smul y P)) (smul x P).
Proof. by rewrite smul_add, smul_mul, smul_2, padd_comm. Qed.
Lemma double_loop_ok Ai xs ys n r P : odd_table Ai P → length xs = 256%nat → length ys = 256%nat →
  Forall slide_digit_range xs → Forall slide_digit_range ys → (n <= 256)%nat →
  rep_p2 r (padd (smul (dval 2 (drop n xs)) P) (smul (dval 2 (drop n ys)) B)) →
  runs (double_loop Ai xs ys n r) (λ r, rep_p2 r (padd (smul (dval 2 xs) P) (smul (dval 2 ys) B))).
Proof.
  intros HA Lx Ly Fx Fy. revert r. induction n as [|i IH]; intros r Hn Hr; cbn [double_loop].
  { rewrite !drop_0 in Hr. by apply runs_some. }
  ge_step ge_p2_dbl_ok t Ht.
  rewrite (list_lookup_lookup_total_lt xs i) by lia. cbn [mbind option_bind].
  assert (slide_digit_range (xs !!! i)) as Hx by (apply Forall_lookup_total_1; [done|lia]).
  assert (slide_digit_range (ys !!! i)) as Hy by (apply Forall_lookup_total_1; [done|lia]).
  eapply runs_bind; [apply (add_digit_ok _ _ _ _ _ HA Hx Ht)|]. cbv beta. intros t1 Ht1.
  rewrite (list_lookup_lookup_total_lt ys i) by lia. cbn [mbind option_bind].
  eapply runs_bind; [apply (madd_digit_ok _ _ _ Hy Ht1)|]. cbv beta. intros t2 Ht2.
  ge_step p1p1_to_p2_ok r' Hr'. apply IH; [lia|].
  rewrite (drop_digit xs i), (drop_digit ys i) by lia. by rewrite (horner_step _ _ P), (horner_step _ _ B), (padd_swap (padd _ _)), padd_assoc, (padd_swap (smul _ P)).
Qed.

Lemma top_digit_ok xs ys n : length xs = 256%nat → length ys = 256%nat → (n <= 256)%nat →
  dval 2 (drop n xs) = 0 → dval 2 (drop n ys) = 0 →
  runs (top_digit xs ys n) (λ m, (m <= 256)%nat ∧ dval 2 (drop m xs) = 0 ∧ dval 2 (drop m ys) = 0).
Proof.
  intros Lx Ly. induction n as [|i IH]; intros Hn Hx Hy; cbn [top_digit]; [by apply runs_some|].
  rewrite (list_lookup_lookup_total_lt xs i), (list_lookup_lookup_total_lt ys i) by lia. cbn [mbind option_bind].
  destruct (xs !!! i =? 0) eqn:Ex; [|by apply runs_some].
  destruct (ys !!! i =? 0) eqn:Ey; [|by apply runs_some]. cbn [negb orb]. rewrite Z.eqb_eq in Ex, Ey.
  apply IH; [lia|..]; rewrite drop_digit by lia; lia.
Qed.

(** The double multiplication of a signature check, for every pair of scalars that the
    windows of [slide] represent. *)
Theorem ge_double_scalarmult_ok a A b P : wf_bytes a → length a = 32%nat → le_value a < 2 ^ 253 →
  wf_bytes b → length b = 32%nat → le_value b < 2 ^ 253 → rep_p3 A P →
  runs (ge_double_scalarmult_vartime a A b) (λ r, rep_p2 r (padd (smul (le_value a) P) (smul (le_value b) B))).
Proof.
  intros Ha La Va Hb Lb Vb HA. unfold ge_double_scalarmult_vartime.
  destruct (slide_ok a Ha La Va) as (xs & -> & Lx & Fx & Vx). cbn [mbind option_bind].
  destruct (slide_ok b Hb Lb Vb) as (ys & -> & Ly & Fy & Vy). cbn [mbind option_bind].
  ge_step p3_to_cached_ok c Hc. ge_step ge_p3_dbl_ok t Ht. ge_step p1p1_to_p3_ok A2 H2.
  rewrite <- (smul_1 P) in Hc.
  eapply runs_bind; [apply (odd_multiples_ok 7 1 _ _ P H2 Hc)|]. cbv beta. intros Ai HAi.
  eapply runs_bind; [apply (top_digit_ok xs ys 256 Lx Ly); [lia|by rewrite drop_ge by lia..]|]. cbv beta.
  intros n (Hn & Zx & Zy). rewrite <- Vx, <- Vy.
  apply double_loop_ok; try done; [intros j Hj; apply HAi; lia|].
  rewrite Zx, Zy, !smul_0, padd_0_l. apply rep_p2_0.
Qed.

(** C16: the three multiplications of ed25519/ compute multiples of points: of the base
    point by any 255-bit scalar from the tables, of any point by any 255-bit scalar with
    the signed radix-16 digits, and the sum of two multiples by 253-bit scalars with the
    sliding windows. *)
Theorem ed25519_multiplication (a b : bytes) (A : ge_p3) (P : point) :
  wf_bytes a → length a = 32%nat → wf_bytes b → length b = 32%nat → rep_p3 A P →
  (le_value a < 2 ^ 255 → runs (ge_scalarmult_base a) (λ h, rep_p3 h (smul (le_value a) B))) ∧
  (le_value a < 2 ^ 255 → runs (ge_scalarmult a A) (λ h, rep_p3 h (smul (le_value a) P))) ∧
  (le_value a < 2 ^ 253 → le_value b < 2 ^ 253 →
    runs (ge_double_scalarmult_vartime a A b)
      (λ r, rep_p2 r (padd (smul (le_value a) P) (smul (le_value b) B)))).
Proof.
  intros Ha La Hb Lb HA. split; [|split]; intros Va.
  - by apply ge_scalarmult_base_ok.
  - by apply ge_scalarmult_ok.
  - intros Vb. by apply ge_double_scalarmult_ok.
Qed.

Lemma ed25519_multiplication_witness :
  let a := 7 :: replicate 31 0 in let b := 9 :: replicate 31 3 in
  runs (ge_double_scalarmult_vartime a ge_p3_0 b)
    (λ r, rep_p2 r (padd (smul (le_value a) pzero) (smul (le_value b) B))).
Proof.
  cbv zeta. apply (ed25519_multiplication (7 :: replicate 31 0) (9 :: replicate 31 3) ge_p3_0 pzero).
  - by repeat constructor.
  - reflexivity.
  - by repeat constructor.
  - reflexivity.
  - apply rep_p3_0.
  - vm_compute. reflexivity.
  - vm_compute. reflexivity.
Defined.
