(* ===== verification/XEd.v ===== *)
(** Ed25519 and XEdDSA signatures: sign.c, open.c and, of additions/, sign_modified.c,
    open_modified.c, curve_sigs.c, xeddsa.c and zeroize.c.

    A buffer is the list of its bytes, read and written at offsets; [None] is an
    access outside a buffer, or undefined behaviour below.  The working buffers come
    from [malloc], whose answer and whose indeterminate contents are an argument.  A
    message and its length are one list. *)

From S2P Require Import Prelude Limbs Donna Scalar Fe GeBase Ge Sha512.
Import Fe Ge.

(** * Buffers *)

(** [memmove] out of and into a buffer. *)
Definition mem_read (buf : bytes) (off n : nat) : option bytes :=
  if (off + n <=? length buf)%nat then Some (take n (drop off buf)) else None.
Definition mem_write (buf : bytes) (off : nat) (src : bytes) : option bytes :=
  if (off + length src <=? length buf)%nat then
    Some (take off buf ++ src ++ drop (off + length src) buf)
  else None.

(** The outcome of one call of [malloc]. *)
Record alloc := Alloc { granted : bool; junk : nat → Z }.
Definition malloc (a : alloc) (n : Z) : option bytes :=
  if granted a then Some (junk a <$> seq 0 (Z.to_nat n)) else None.

(** [for (count = 0; count < len; count++) p[count] = 0]. *)
Fixpoint zeroize_from (p : bytes) (count n : nat) : option bytes :=
  match n with
  | O => Some p
  | S n => _ ← p !! count; zeroize_from (<[count := 0]> p) (count + 1) n
  end.
Definition zeroize (b : bytes) (len : nat) : option bytes := zeroize_from b 0 len.

(** * Ed25519 *)

(** [az[0] &= 248; az[31] &= 63; az[31] |= 64]. *)
Definition clamp_az (az : bytes) : option bytes :=
  az ← on_byte (λ x, Z.land x 248) 0 az;
  az ← on_byte (λ x, Z.land x 63) 31 az;
  on_byte (λ x, Z.lor x 64) 31 az.

(** The common end of both signing functions: [R] and [s] into [sm], from the hash
    that is to be the nonce. *)
Definition sign_tail (sm : bytes) (mlen : nat) (a pk nonce : bytes) : option bytes :=
  sm ← mem_write sm 32 pk;
  nonce ← sc_reduce nonce;
  R ← ge_scalarmult_base nonce;
  Rb ← ge_p3_tobytes R;
  sm ← mem_write sm 0 Rb;
  hashed ← mem_read sm 0 (mlen + 64);
  hram ← crypto_hash_sha512 hashed;
  hram ← sc_reduce hram;
  s ← sc_muladd hram a nonce;
  mem_write sm 32 s.

(** [sm] and [*smlen]. *)
Definition crypto_sign (sm m sk : bytes) : option (bytes * Z) :=
  pk ← mem_read sk 32 32;
  seed ← mem_read sk 0 32;
  az ← crypto_hash_sha512 seed;
  az ← clamp_az az;
  let smlen := usize (zlen m + 64) in
  sm ← mem_write sm 64 m;
  prefix ← mem_read az 32 32;
  sm ← mem_write sm 32 prefix;
  hashed ← mem_read sm 32 (length m + 32);
  nonce ← crypto_hash_sha512 hashed;
  a ← mem_read az 0 32;
  sm ← sign_tail sm (length m) a pk nonce;
  Some (sm, smlen).

(** The check both opening functions share: [m] as the check leaves it, and whether it
    succeeded. *)
Definition open_check (m sm pk : bytes) : option (bool * bytes) :=
  if (length sm <? 64)%nat then Some (false, m) else
  s63 ← sm !! 63%nat;
  if negb (Z.land s63 224 =? 0) then Some (false, m) else
  A ← ge_frombytes_negate_vartime pk;
  match A with
  | None => Some (false, m)
  | Some A =>
    pkcopy ← mem_read pk 0 32;
    rcopy ← mem_read sm 0 32;
    scopy ← mem_read sm 32 32;
    m ← mem_write m 0 sm;
    m ← mem_write m 32 pkcopy;
    hashed ← mem_read m 0 (length sm);
    h ← crypto_hash_sha512 hashed;
    h ← sc_reduce h;
    R ← ge_double_scalarmult_vartime h A scopy;
    rcheck ← ge_tobytes R;
    v ← crypto_verify_32_ref rcheck rcopy;
    Some (v =? 0, m)
  end.

(** The result, [*mlen] and [m]; [-1] is the largest [unsigned long long]. *)
Definition crypto_sign_open (m sm pk : bytes) : option (Z * Z * bytes) :=
  r ← open_check m sm pk;
  let '(ok, m) := r : bool * bytes in
  let smlen := length sm in
  if ok then
    msg ← mem_read m 64 (smlen - 64);
    m ← mem_write m 0 msg;
    m ← mem_write m (smlen - 64) (replicate 64 0);
    Some (0, zlen sm - 64, m)
  else
    m ← mem_write m 0 (replicate smlen 0);
    Some (-1, usize (-1), m).

(** * Ed25519 with an explicit private key *)

Definition crypto_sign_modified (sm m sk pk random : bytes) : option bytes :=
  sm ← mem_write sm 64 m;
  key ← mem_read sk 0 32;
  sm ← mem_write sm 32 key;
  sm ← mem_write sm 0 (0xFE :: replicate 31 0xFF);
  rnd ← mem_read random 0 64;
  sm ← mem_write sm (length m + 64) rnd;
  hashed ← mem_read sm 0 (length m + 128);
  nonce ← crypto_hash_sha512 hashed;
  pk ← mem_read pk 0 32;
  sign_tail sm (length m) sk pk nonce.
Definition crypto_sign_open_modified (m sm pk : bytes) : option Z :=
  r ← open_check m sm pk;
  Some (if (r.1 : bool) then 0 else -1).

(** * Curve25519 keys *)

(** The result and [signature_out]. *)
Definition curve25519_sign (a : alloc) (curve25519_privkey msg random : bytes) : option (Z * bytes) :=
  match malloc a (usize (zlen msg + 128)) with
  | None => Some (-1, replicate 64 0)
  | Some sigbuf =>
    ed_pubkey_point ← ge_scalarmult_base curve25519_privkey;
    ed_pubkey ← ge_p3_tobytes ed_pubkey_point;
    b ← ed_pubkey !! 31%nat;
    let sign_bit := Z.land b 0x80 in
    sigbuf ← crypto_sign_modified sigbuf msg curve25519_privkey ed_pubkey random;
    signature ← mem_read sigbuf 0 64;
    signature ← on_byte (λ x, Z.land x 0x7F) 63 signature;
    signature ← on_byte (λ x, Z.lor x sign_bit) 63 signature;
    Some (0, signature)
  end.

(** [y = (u - 1) / (u + 1)], encoded. *)
Definition edy_bytes (curve25519_pubkey : bytes) : option bytes :=
  u ← fe_frombytes curve25519_pubkey;
  y ← fe_montx_to_edy u;
  fe_tobytes y.
Definition curve25519_verify (a1 a2 : alloc) (signature curve25519_pubkey msg : bytes) : option Z :=
  match malloc a1 (usize (zlen msg + 64)) with
  | None => Some (-1)
  | Some verifybuf =>
    match malloc a2 (usize (zlen msg + 64)) with
    | None => Some (-1)
    | Some verifybuf2 =>
      ed_pubkey ← edy_bytes curve25519_pubkey;
      ed_pubkey ← on_byte (λ x, Z.land x 0x7F) 31 ed_pubkey;
      s63 ← signature !! 63%nat;
      ed_pubkey ← on_byte (λ x, Z.lor x (Z.land s63 0x80)) 31 ed_pubkey;
      sig ← mem_read signature 0 64;
      verifybuf ← mem_write verifybuf 0 sig;
      verifybuf ← on_byte (λ x, Z.land x 0x7F) 63 verifybuf;
      verifybuf ← mem_write verifybuf 64 msg;
      crypto_sign_open_modified verifybuf2 verifybuf ed_pubkey
    end
  end.

(** * XEdDSA *)

(** The Edwards public key with sign bit zero and the private key that belongs to it. *)
Definition xed_keypair (privkey : bytes) : option (bytes * bytes) :=
  ed_pubkey_point ← ge_scalarmult_base privkey;
  A ← ge_p3_tobytes ed_pubkey_point;
  b ← A !! 31%nat;
  let sign_bit := Z.shiftr (Z.land b 0x80) 7 in
  a ← mem_read privkey 0 32;
  aneg ← sc_neg a;
  a ← sc_cmov a aneg sign_bit;
  A ← on_byte (λ x, Z.land x 0x7F) 31 A;
  Some (a, A).
Definition xed25519_sign (al : alloc) (curve25519_privkey msg random : bytes) : option (Z * bytes) :=
  match malloc al (usize (zlen msg + 128)) with
  | None => Some (-1, replicate 64 0)
  | Some sigbuf =>
    k ← xed_keypair curve25519_privkey;
    let '(a, A) := k : bytes * bytes in
    sigbuf ← crypto_sign_modified sigbuf msg a A random;
    signature ← mem_read sigbuf 0 64;
    Some (0, signature)
  end.

Definition MAX_MSG_LEN : nat := 256.
(** The two buffers are arrays on the stack. *)
Definition xed25519_verify (verifybuf verifybuf2 signature curve25519_pubkey msg : bytes) : option Z :=
  if (MAX_MSG_LEN <? length msg)%nat then Some (-1) else
  reduced ← fe_isreduced curve25519_pubkey;
  if reduced =? 0 then Some (-1) else
  ed_pubkey ← edy_bytes curve25519_pubkey;
  sig ← mem_read signature 0 64;
  verifybuf ← mem_write verifybuf 0 sig;
  verifybuf ← mem_write verifybuf 64 msg;
  sm ← mem_read verifybuf 0 (64 + length msg);
  crypto_sign_open_modified verifybuf2 sm ed_pubkey.
