(* ===== verification/XEdSpec.v ===== *)
(** Signatures of Ed25519 and XEdDSA are sound in both directions: what the signing
    functions write, when the verifying functions accept, and that the second hold of
    the first.

    The reference is written over the group of Edwards: a signature under the scalar
    [a] is [R = rB] with [s = r + ha] modulo the order, and a check accepts when
    [sB - hA] encodes to [R]. *)

From S2P Require Import Prelude Limbs Donna DonnaField DonnaBytes Scalar ScalarSpec Fe FeSpec.
From S2P Require Import Field25519 Edwards GeBase Ge GeSpec GeTable GeMult GeSlide Sha512 Sha512Spec XEd.
Import Fe Ge.

(** * Buffers *)

Lemma mem_write_at x y z off src : off = length x → length src = length y →
  mem_write (x ++ y ++ z) off src = Some (x ++ src ++ z).
Proof.
  intros -> E. unfold mem_write. rewrite !length_app, E.
  rewrite (proj2 (Nat.leb_le _ _)) by lia. f_equal. rewrite take_app_length. do 2 f_equal.
  rewrite app_assoc. apply drop_app_length'. by rewrite length_app.
Qed.
Lemma mem_write_first y z src : length src = length y → mem_write (y ++ z) 0 src = Some (src ++ z).
Proof. apply (mem_write_at [] y z 0 src eq_refl). Qed.
Lemma mem_read_at x y z off n : off = length x → n = length y → mem_read (x ++ y ++ z) off n = Some y.
Proof.
  intros -> ->. unfold mem_read. rewrite !length_app, (proj2 (Nat.leb_le _ _)) by lia.
  by rewrite drop_app_length, take_app_length.
Qed.
Lemma mem_read_first y z n : n = length y → mem_read (y ++ z) 0 n = Some y.
Proof. apply (mem_read_at [] y z 0 n eq_refl). Qed.
Lemma mem_read_all y n : n = length y → mem_read y 0 n = Some y.
Proof. rewrite <- (app_nil_r y) at 2. apply mem_read_first. Qed.
Lemma mem_read_last x y off n : off = length x → n = length y → mem_read (x ++ y) off n = Some y.
Proof. rewrite <- (app_nil_r y) at 2. apply mem_read_at. Qed.
Lemma length_malloc a n b : malloc a n = Some b → length b = Z.to_nat n.
Proof. unfold malloc. destruct (granted a); [|done]. intros [= <-]. by rewrite length_fmap, length_seq. Qed.

(** A buffer with room for two words, a message and more. *)
Lemma split_buffer (b : bytes) (n k : nat) : length b = (64 + n + k)%nat →
  ∃ b0 b1 b2 b3, b = b0 ++ b1 ++ b2 ++ b3 ∧
    length b0 = 32%nat ∧ length b1 = 32%nat ∧ length b2 = n ∧ length b3 = k.
Proof.
  intros L. exists (take 32 b), (take 32 (drop 32 b)), (take n (drop 64 b)), (drop (64 + n) b).
  split.
  - rewrite <- (take_drop 32 b) at 1. f_equal. rewrite <- (take_drop 32 (drop 32 b)) at 1. f_equal.
    rewrite drop_drop. rewrite <- (take_drop n (drop (32 + 32) b)) at 1. f_equal. by rewrite drop_drop.
  - rewrite !length_take, !length_drop. lia.
Qed.

(** [zeroize] clears the range. *)
Lemma zeroize_from_ok n pre l : (n <= length l)%nat →
  zeroize_from (pre ++ l) (length pre) n = Some (pre ++ replicate n 0 ++ drop n l).
Proof.
  revert pre l. induction n as [|n IH]; intros pre l Hn; [done|]. destruct l as [|x l]; [cbn in Hn; lia|].
  cbn [zeroize_from]. rewrite lookup_app_r, Nat.sub_diag by done. cbn [lookup list_lookup mbind option_bind].
  rewrite insert_app_r_alt, Nat.sub_diag by done. cbn [insert list_insert].
  specialize (IH (pre ++ [0]) l). rewrite length_app, <- !app_assoc in IH. apply IH. cbn in Hn. lia.
Qed.
Lemma zeroize_ok b n : (n <= length b)%nat → zeroize b n = Some (replicate n 0 ++ drop n b).
Proof. apply (zeroize_from_ok n []). Qed.

(** * The reference *)

Definition hash_scalar (m : bytes) : Z := le_value (sha512 m) `mod` group_order.
(** [R] and [s] for the scalar [a], the public key [pk] and the nonce [r]. *)
Definition signature_of (a : Z) (pk : bytes) (r : Z) (m : bytes) : bytes :=
  let R := encode (smul r B) in
  R ++ le_bytes 32 ((hash_scalar (R ++ pk ++ m) * a + r) `mod` group_order).
Definition nonce_of (sk m random : bytes) : Z :=
  hash_scalar ((0xFE :: replicate 31 0xFF) ++ sk ++ m ++ random).

(** The point an encoding stands for: reading is lenient on the sign of [x = 0] and on
    values of [y] from [p] on. *)
Definition decodes (pk : bytes) (A : point) : Prop :=
  py A = decode_y pk ∧ (fval (px A) `mod` 2 = decode_sign pk ∨ px A = 0%F).
Definition accepts (pk R s m : bytes) : Prop :=
  le_value s < 2 ^ 253 ∧ ∃ A, decodes pk A ∧
    encode (padd (smul (le_value s) B) (popp (smul (hash_scalar (R ++ pk ++ m)) A))) = R.

Lemma group_order_range : 2 ^ 252 < group_order < 2 ^ 253.
Proof. by vm_compute. Qed.
Lemma hash_scalar_range m : 0 <= hash_scalar m < group_order.
Proof. apply Z.mod_pos_bound. pose proof group_order_range. lia. Qed.
Lemma le_value_bytes_small n z : 0 <= z < 256 ^ Z.of_nat n → le_value (le_bytes n z) = z.
Proof. intros H. by rewrite le_value_bytes, Z.mod_small. Qed.
Lemma le_value_scalar z : 0 <= z < group_order → le_value (le_bytes 32 z) = z.
Proof.
  intros H. apply le_value_bytes_small. change (256 ^ Z.of_nat 32) with (2 ^ 256).
  pose proof group_order_range. lia.
Qed.

Lemma length_sha512 m : length (sha512 m) = 64%nat.
Proof. unfold sha512, fips_sha512. by rewrite length_words. Qed.
Lemma wf_sha512 m : wf_bytes (sha512 m).
Proof. apply wf_words. Qed.
(** Hashing to a scalar is [crypto_hash_sha512] and [sc_reduce]. *)
Lemma hash_reduce m : wf_bytes m → zlen m < 2 ^ 64 →
  (h ← crypto_hash_sha512 m; sc_reduce h) = Some (le_bytes 32 (hash_scalar m)).
Proof.
  intros Hm Hl. rewrite crypto_hash_sha512_run by done. cbn [mbind option_bind].
  by rewrite sc_reduce_run by (apply wf_sha512 || apply length_sha512).
Qed.

(** * Signing *)

(** The buffer operations of the tail, for any [R] and nonce. *)
Lemma sign_tail_from b0 b1 m rest a pk nonce n R Rb h :
  length b0 = 32%nat → length b1 = 32%nat → length pk = 32%nat → length Rb = 32%nat →
  sc_reduce nonce = Some n → ge_scalarmult_base n = Some R → ge_p3_tobytes R = Some Rb →
  (h ← crypto_hash_sha512 (Rb ++ pk ++ m); sc_reduce h) = Some h →
  sign_tail (b0 ++ b1 ++ m ++ rest) (length m) a pk nonce =
    (s ← sc_muladd h a n; mem_write (Rb ++ pk ++ m ++ rest) 32 s).
Proof.
  intros L0 L1 Lpk LR En ER Eb Eh. unfold sign_tail.
  rewrite mem_write_at by lia. cbn [mbind option_bind]. rewrite En. cbn [mbind option_bind].
  rewrite ER. cbn [mbind option_bind]. rewrite Eb. cbn [mbind option_bind].
  rewrite mem_write_first by lia. cbn [mbind option_bind].
  rewrite (app_assoc pk), (app_assoc Rb), mem_read_first by (rewrite !length_app; lia). cbn [mbind option_bind].
  destruct (crypto_hash_sha512 (Rb ++ pk ++ m)) as [h'|]; [|done].
  cbn [mbind option_bind] in Eh |- *. rewrite Eh. cbn [mbind option_bind]. by rewrite <- !app_assoc.
Qed.

Lemma base_multiple n : 0 <= n < group_order →
  runs (ge_scalarmult_base (le_bytes 32 n)) (λ R, ge_p3_tobytes R = Some (encode (smul n B))).
Proof.
  intros Hn. pose proof group_order_range as Ho.
  eapply runs_mono; [apply ge_scalarmult_base_ok|].
  - apply wf_le_bytes.
  - apply length_le_bytes.
  - rewrite le_value_scalar by done. lia.
  - intros R HR. rewrite le_value_scalar in HR by done. by apply ge_p3_tobytes_ok.
Qed.

Lemma sign_tail_ok b0 b1 m rest a pk nonce :
  length b0 = 32%nat → length b1 = 32%nat → wf_bytes m → zlen m < 2 ^ 64 - 128 →
  wf_bytes a → length a = 32%nat → wf_bytes pk → length pk = 32%nat → wf_bytes nonce → length nonce = 64%nat →
  sign_tail (b0 ++ b1 ++ m ++ rest) (length m) a pk nonce =
    Some (signature_of (le_value a) pk (le_value nonce `mod` group_order) m ++ m ++ rest).
Proof.
  intros L0 L1 Hm Lm Ha La Hpk Lpk Hn Ln. pose proof (sc_reduce_run nonce Hn Ln) as En.
  assert (0 <= le_value nonce `mod` group_order < group_order) as Hr
    by (apply Z.mod_pos_bound; pose proof group_order_range; lia).
  revert En Hr. generalize (le_value nonce `mod` group_order) as r. intros r En Hr.
  destruct (base_multiple r Hr) as (R & ER & Eb). unfold signature_of. cbv zeta.
  pose proof (length_encode (smul r B)) as LR. pose proof (wf_encode (smul r B)) as WR.
  revert Eb LR WR. generalize (encode (smul r B)) as Rb. intros Rb Eb LR WR.
  assert (wf_bytes (Rb ++ pk ++ m)) as Hw by (rewrite !wf_bytes_app; tauto).
  assert (zlen (Rb ++ pk ++ m) < 2 ^ 64) as Hl by (unfold zlen in *; rewrite !length_app; lia).
  rewrite (sign_tail_from _ _ _ _ _ _ _ _ _ _ _ L0 L1 Lpk LR En ER Eb (hash_reduce _ Hw Hl)).
  rewrite sc_muladd_run by (assumption || apply wf_le_bytes || apply length_le_bytes). cbn [mbind option_bind].
  rewrite !le_value_scalar by (assumption || apply hash_scalar_range).
  rewrite mem_write_at by (rewrite ?length_le_bytes; lia). by rewrite <- !app_assoc.
Qed.

Lemma crypto_sign_modified_ok sm m sk pk random :
  length sm = (length m + 128)%nat → wf_bytes m → zlen m < 2 ^ 64 - 128 →
  wf_bytes sk → length sk = 32%nat → wf_bytes pk → length pk = 32%nat → wf_bytes random → length random = 64%nat →
  crypto_sign_modified sm m sk pk random =
    Some (signature_of (le_value sk) pk (nonce_of sk m random) m ++ m ++ random).
Proof.
  intros Ls Hm Lm Hsk Lsk Hpk Lpk Hr Lr. unfold crypto_sign_modified.
  destruct (split_buffer sm (length m) 64) as (b0 & b1 & b2 & b3 & -> & L0 & L1 & L2 & L3); [lia|].
  rewrite (app_assoc b0 b1), mem_write_at by (rewrite ?length_app; lia). cbn [mbind option_bind].
  rewrite (mem_read_all sk), (mem_read_all pk), (mem_read_all random) by done. cbn [mbind option_bind].
  rewrite <- app_assoc, mem_write_at by lia. cbn [mbind option_bind].
  rewrite mem_write_first by done. cbn [mbind option_bind].
 set (pre := 0xFE :: replicate 31 0xFF).
  replace (pre ++ sk ++ m ++ b3) with ((pre ++ sk ++ m) ++ b3 ++ []) by (by rewrite app_nil_r, <- !app_assoc).
  assert (length pre = 32%nat) as Lp by done.
  rewrite mem_write_at by (rewrite ?length_app; lia). cbn [mbind option_bind].
  rewrite app_nil_r, <- !app_assoc, mem_read_all by (rewrite ?length_app; lia). cbn [mbind option_bind].
  assert (wf_bytes pre) as Wp by (repeat (apply Forall_cons_2; [done|]); apply Forall_nil_2).
  assert (wf_bytes (pre ++ sk ++ m ++ random)) as Hw by (rewrite !wf_bytes_app; tauto).
  rewrite crypto_hash_sha512_run; [|done|unfold zlen in *; rewrite !length_app; lia]. cbn [mbind option_bind].
  by rewrite sign_tail_ok by (assumption || reflexivity || apply wf_sha512 || apply length_sha512).
Qed.

(** * Opening *)

Lemma decodes_unique pk A A' : decodes pk A → decodes pk A' → A = A'.
Proof.
  intros [Ey Ex] [Ey' Ex']. apply point_eq; [|by rewrite Ey, Ey'].
  destruct (same_y A A') as [|E]; [by rewrite Ey, Ey'|done|].
  destruct (decide (px A' = 0%F)) as [Hz|Hz]; [rewrite E, Hz; ring|].
  destruct Ex' as [Ex'|]; [|done]. destruct Ex as [Ex|Ex].
  - rewrite E, parity_opp in Ex by done. pose proof (parity (fval (px A'))). lia.
  - rewrite Ex in E. exfalso. apply Hz. replace (px A') with (- - px A')%F by ring. rewrite <- E. ring.
Qed.
Lemma frombytes_decodes pk : wf_bytes pk → length pk = 32%nat →
  runs (ge_frombytes_negate_vartime pk) (λ r,
    match r with None => ∀ A, ¬ decodes pk A | Some h => ∃ A, decodes pk A ∧ rep_p3 h (popp A) end).
Proof.
  intros Hs Hl. eapply runs_mono; [by apply ge_frombytes_ok|]. intros [h|]; unfold decoded.
  - intros (P & HP & Ey & Ex). exists (popp P). rewrite popp_opp. split; [|done]. split; [done|].
    change (px (popp P)) with (- px P)%F. destruct (decide (px P = 0%F)) as [Hz|Hz].
    { right. rewrite Hz. ring. }
    left. destruct Ex as [Ex|]; [|done]. rewrite parity_opp by done.
    destruct (sign_byte pk Hs Hl) as (_ & _ & _ & Hsg). pose proof (parity (fval (px P))). lia.
  - intros H A [Ey _]. apply (H (px A)). rewrite <- Ey. apply point_on.
Qed.

(** The strict reading of [s]: the three top bits are zero. *)
Lemma top_byte s : wf_bytes s → length s = 32%nat →
  s !! 31%nat = Some (le_value s `div` 2 ^ 248) ∧ is_byte (le_value s `div` 2 ^ 248).
Proof.
  intros Hs Hl. destruct (lookup_lt_is_Some_2 s 31) as [b Hb]; [lia|].
  pose proof (Forall_lookup_1 _ _ _ _ Hs Hb) as Hby. unfold is_byte in Hby.
  rewrite <- (take_drop_middle s 31 b Hb), le_value_app.
  rewrite drop_ge by lia. cbn [le_value]. unfold zlen. rewrite length_take, Nat.min_l by lia.
  change (256 ^ Z.of_nat 31) with (2 ^ 248).
  pose proof (le_value_range (take 31 s) ltac:(by apply Forall_take)) as Hr. unfold zlen in Hr.
  rewrite length_take, Nat.min_l in Hr by lia. change (256 ^ Z.of_nat 31) with (2 ^ 248) in Hr.
  rewrite Z.mul_0_r, Z.add_0_r, (Z.mul_comm _ b), Z.div_add, Z.div_small, Z.add_0_l by lia.
  split; [|done]. rewrite lookup_app_r by (rewrite length_take; lia).
  by rewrite length_take, Nat.min_l, Nat.sub_diag by lia.
Qed.
Lemma strict_bits x : is_byte x → (Z.land x 224 =? 0) = (x <? 32).
Proof.
  intros Hx. apply (byte_forall (λ x, Bool.eqb (Z.land x 224 =? 0) (x <? 32))) in Hx; [|by vm_compute].
  by apply Bool.eqb_prop.
Qed.
Lemma strict_scalar s : wf_bytes s → length s = 32%nat →
  ∃ b, s !! 31%nat = Some b ∧ (Z.land b 224 =? 0) = bool_decide (le_value s < 2 ^ 253).
Proof.
  intros Hs Hl. destruct (top_byte s Hs Hl) as [E Hb]. eexists. split; [exact E|].
  rewrite strict_bits by done. apply eq_bool_prop_intro. rewrite !Is_true_true, bool_decide_eq_true, Z.ltb_lt.
  change (2 ^ 253) with (2 ^ 248 * 32). split; intros H.
  - pose proof (Z_div_mod_eq_full (le_value s) (2 ^ 248)). pose proof (Z.mod_pos_bound (le_value s) (2 ^ 248)). lia.
  - apply Z.div_lt_upper_bound; lia.
Qed.

Lemma open_check_ok m0 pk R s m (sm := R ++ s ++ m) :
  (length sm <= length m0)%nat → zlen sm < 2 ^ 64 →
  wf_bytes R → length R = 32%nat → wf_bytes s → length s = 32%nat → wf_bytes m →
  wf_bytes pk → length pk = 32%nat →
  ∃ b m', open_check m0 sm pk = Some (b, m') ∧ (b = true ↔ accepts pk R s m) ∧ length m' = length m0 ∧
    (b = true → m' = R ++ pk ++ m ++ drop (length sm) m0).
Proof.
  intros L0 Lsm HR LR Hs Ls Hm Hpk Lpk. unfold open_check.
  assert (length sm = (64 + length m)%nat) as Lq by (unfold sm; rewrite !length_app; lia).
  rewrite (proj2 (Nat.ltb_ge _ _)) by lia. destruct (strict_scalar s Hs Ls) as (b & Eb & Hb).
  assert (sm !! 63%nat = Some b) as ->.
  { unfold sm. rewrite lookup_app_r, LR by lia. by rewrite lookup_app_l by lia. }
  cbn [mbind option_bind]. rewrite Hb. case_bool_decide as Hlt; cbn [negb].
  2:{ eexists false, _. split; [done|]. split; [|split; [done|discriminate]]. split; [discriminate|]. by intros [? _]. }
  destruct (frombytes_decodes pk Hpk Lpk) as ([A|] & -> & HA); cbn [mbind option_bind].
  2:{ eexists false, _. split; [done|]. split; [|split; [done|discriminate]]. split; [discriminate|].
      intros (_ & A & Hd & _). by destruct (HA A). }
  destruct HA as (P & Hd & HP). rewrite (mem_read_all pk) by done. cbn [mbind option_bind].
  assert (mem_read sm 0 32 = Some R) as -> by (by apply mem_read_first). cbn [mbind option_bind].
  assert (mem_read sm 32 32 = Some s) as -> by (by apply mem_read_at). cbn [mbind option_bind].
  assert (mem_write m0 0 sm = Some (R ++ s ++ m ++ drop (length sm) m0)) as ->.
  { rewrite <- (take_drop (length sm) m0) at 1. rewrite mem_write_first by (rewrite length_take; lia).
    unfold sm at 1. by rewrite <- !app_assoc. }
  cbn [mbind option_bind]. set (rest := drop (length sm) m0).
  rewrite mem_write_at by lia. cbn [mbind option_bind].
  rewrite (app_assoc pk), (app_assoc R), mem_read_first by (rewrite !length_app; lia). cbn [mbind option_bind].
  assert (wf_bytes (R ++ pk ++ m)) as Hw by (rewrite !wf_bytes_app; tauto).
  assert (zlen (R ++ pk ++ m) < 2 ^ 64) as Hl by (unfold zlen in *; rewrite !length_app in *; lia).
  pose proof (hash_reduce _ Hw Hl) as E. destruct (crypto_hash_sha512 (R ++ pk ++ m)) as [h|]; [|done].
  cbn [mbind option_bind] in E |- *. rewrite E. cbn [mbind option_bind].
  pose proof (hash_scalar_range (R ++ pk ++ m)) as Hh. pose proof group_order_range as Ho.
  destruct (ge_double_scalarmult_ok (le_bytes 32 (hash_scalar (R ++ pk ++ m))) A s (popp P)) as (r & -> & Hr);
    [apply wf_le_bytes|apply length_le_bytes|rewrite le_value_scalar by done; lia|done|done|done|done|].
  rewrite le_value_scalar in Hr by done. cbn [mbind option_bind].
  rewrite (ge_tobytes_ok _ _ Hr). cbn [mbind option_bind].
  rewrite crypto_verify_32_ok by (done || apply wf_encode || apply length_encode). cbn [mbind option_bind].
  rewrite smul_popp, padd_comm. eexists _, _. split; [done|]. split.
  - split.
    + intros Hv. split; [done|]. exists P. split; [done|]. by case_bool_decide.
    + intros (_ & P' & Hd' & Hv). rewrite (decodes_unique _ _ _ Hd' Hd) in Hv. by rewrite bool_decide_true.
  - rewrite <- !app_assoc. split; [|done]. subst rest. rewrite !length_app, length_drop. lia.
Qed.

(** * The sign bit *)

Lemma on_byte_app f x y i j : i = (length x + j)%nat → on_byte f i (x ++ y) = (λ y, x ++ y) <$> on_byte f j y.
Proof.
  intros ->. unfold on_byte. rewrite lookup_app_r by lia. replace (length x + j - length x)%nat with j by lia.
  destruct (y !! j); [|done]. cbn. f_equal. rewrite insert_app_r_alt by lia. do 2 f_equal. lia.
Qed.
Lemma on_byte_app_l f x y i : (i < length x)%nat → on_byte f i (x ++ y) = (λ x, x ++ y) <$> on_byte f i x.
Proof.
  intros Hi. unfold on_byte. rewrite lookup_app_l by lia. destruct (x !! i); [|done]. cbn. f_equal.
  by rewrite insert_app_l.
Qed.

Section SignBit.
Context (v n : Z) (Hv : 0 <= v < 2 ^ 255) (Hn : n = 0 ∨ n = 1).
Let b := v `div` 256 ^ 31.
Lemma top_byte_range : 0 <= b < 128.
Proof using Hv. split; [apply Z.div_pos; lia|]. apply Z.div_lt_upper_bound; lia. Qed.
Lemma top_byte_of : le_bytes 32 (v + 2 ^ 255 * n) !! 31%nat = Some (b + 128 * n).
Proof using Hv Hn.
  rewrite le_bytes_nth by lia. f_equal. change (256 ^ Z.of_nat 31) with (256 ^ 31).
  replace (v + 2 ^ 255 * n) with (v + 128 * n * 256 ^ 31) by lia. rewrite Z.div_add by lia. fold b.
  pose proof top_byte_range. apply Z.mod_small. lia.
Qed.
Lemma top_byte_change b' : 0 <= b' < 256 →
  <[31%nat := b']> (le_bytes 32 (v + 2 ^ 255 * n)) = le_bytes 32 (v - 256 ^ 31 * b + 256 ^ 31 * b').
Proof using Hv Hn.
  intros Hb'. rewrite le_bytes_top by lia. do 2 f_equal.
  replace (v + 2 ^ 255 * n) with (v + 128 * n * 256 ^ 31) by lia. rewrite Z.mod_add by lia.
  pose proof (Z_div_mod_eq_full v (256 ^ 31)). fold b in H. lia.
Qed.
Lemma bits_128 x : 0 <= x < 128 →
  Z.land (x + 128 * n) 0x80 = 128 * n ∧ Z.land (x + 128 * n) 0x7F = x ∧ Z.lor x (128 * n) = x + 128 * n.
Proof using Hn.
  clear b Hv. intros Hx. assert (is_byte x) as Hb by (unfold is_byte; lia).
  apply (byte_forall (λ x, implb (x <? 128) (forallb (λ n, (Z.land (x + 128 * n) 0x80 =? 128 * n) &&
    (Z.land (x + 128 * n) 0x7F =? x) && (Z.lor x (128 * n) =? x + 128 * n)) [0; 1]))) in Hb; [|by vm_compute].
  rewrite (proj2 (Z.ltb_lt x 128)) in Hb by lia. cbn [implb] in Hb. rewrite forallb_forall in Hb.
  specialize (Hb n ltac:(destruct Hn as [-> | ->]; cbn; auto)).
  rewrite !andb_true_iff, !Z.eqb_eq in Hb. tauto.
Qed.
Lemma top_bit_of : Z.land (b + 128 * n) 0x80 = 128 * n.
Proof using Hv Hn. apply bits_128, top_byte_range. Qed.
Lemma top_bit_clear : on_byte (λ x, Z.land x 0x7F) 31 (le_bytes 32 (v + 2 ^ 255 * n)) = Some (le_bytes 32 v).
Proof using Hv Hn.
  unfold on_byte. rewrite top_byte_of. cbn [mbind option_bind]. pose proof top_byte_range as Hb.
  rewrite (proj1 (proj2 (bits_128 b Hb))), top_byte_change by lia. do 2 f_equal. lia.
Qed.
End SignBit.
Lemma top_bit_set v n : 0 <= v < 2 ^ 255 → n = 0 ∨ n = 1 →
  on_byte (λ x, Z.lor x (128 * n)) 31 (le_bytes 32 v) = Some (le_bytes 32 (v + 2 ^ 255 * n)).
Proof.
  intros Hv Hn. unfold on_byte. pose proof (top_byte_range v Hv) as Hb.
  pose proof (top_byte_of v 0 Hv (or_introl eq_refl)) as E. rewrite !Z.mul_0_r, !Z.add_0_r in E. rewrite E.
  cbn [mbind option_bind]. rewrite (proj2 (proj2 (bits_128 n Hn _ Hb))).
  pose proof (top_byte_change v 0 Hv (or_introl eq_refl)) as C. rewrite !Z.mul_0_r, !Z.add_0_r in C.
  rewrite C by lia. do 2 f_equal. lia.
Qed.
Lemma top_bit_clear_0 v : 0 <= v < 2 ^ 255 → on_byte (λ x, Z.land x 0x7F) 31 (le_bytes 32 v) = Some (le_bytes 32 v).
Proof.
  intros Hv. pose proof (top_bit_clear v 0 Hv (or_introl eq_refl)) as E. by rewrite Z.mul_0_r, Z.add_0_r in E.
Qed.

(** * What is signed is accepted *)

Lemma accepts_signature a pk r m R s : decodes pk (smul a B) → signature_of a pk r m = R ++ s → length R = 32%nat →
  accepts pk R s m.
Proof.
  intros Hd E LR. unfold signature_of in E. cbv zeta in E.
  apply app_inj_1 in E as [<- <-]; [|by rewrite length_encode].
  pose proof group_order_range as Ho. split.
  - rewrite le_value_scalar by (apply Z.mod_pos_bound; lia).
    eapply Z.lt_trans; [apply Z.mod_pos_bound; lia|]. lia.
  - exists (smul a B). split; [done|]. rewrite le_value_scalar by (apply Z.mod_pos_bound; lia). f_equal.
    change group_order with base_order. rewrite smul_mod, smul_add, smul_mul.
    rewrite (padd_comm (smul _ (smul a B))), <- padd_assoc, padd_opp. apply padd_0_r.
Qed.

(** * Keys *)

(** The two maps between Edwards and Montgomery coordinates, with [1 / 0 = 0]. *)
Definition mont_u (P : point) : Fp := ((1 + py P) * fp_inv (1 - py P))%F.
Definition edwards_y (u : Fp) : Fp := ((u - 1) * fp_inv (u + 1))%F.

Lemma one_minus_y P : py P ≠ 1%F → (1 - py P)%F ≠ 0%F.
Proof. intros H E. apply H. replace (py P) with (1 - (1 - py P))%F by ring. rewrite E. ring. Qed.
Lemma edwards_y_u P : py P ≠ 1%F → edwards_y (mont_u P) = py P.
Proof.
  intros H. pose proof (one_minus_y P H) as H1. pose proof f2_neq_0 as H2. unfold edwards_y, mont_u. field.
  split; [done|]. intros E. apply H2. rewrite <- E. ring.
Qed.
Lemma y_one P : py P = 1%F → P = pzero.
Proof.
  intros E. apply point_eq; [|done]. pose proof (point_on P) as H. apply on_curve_root in H. rewrite E in H.
  change (px pzero) with 0%F. destruct (decide (px P = 0%F)) as [|Hx]; [done|exfalso].
  apply (fp_mul_neq_0 (ed_d * (1 * 1) + 1)%F (px P * px P)%F); [apply curve_denominator|by apply fp_mul_neq_0|].
  rewrite H. ring.
Qed.

Lemma fel_montx_to_edy c f u : fel c f u → c <= 128 → runs (fe_montx_to_edy f) (λ h, fel 65 h (edwards_y u)).
Proof.
  intros Hf%fel_felem Hc. destruct (fe_montx_to_edy_ok f _ (felem_weaken _ _ _ _ Hf Hc)) as (h & -> & Hh).
  apply runs_some. apply (fel_lift _ _ _ _ Hh). unfold edwards_y.
  by rewrite F_mul, F_pow, F_sub, F_add, F_val, fp_pow_inv, F_1 by done.
Qed.
Lemma fel_p3_to_montx h P : rep_p3 h P → runs (ge_p3_to_montx h) (λ f, fel 65 f (mont_u P)).
Proof.
  intros (z & Hz & HX & HY & HZ & HT). unfold ge_p3_to_montx. fe_steps.
  eapply runs_mono; [eapply fel_mul; [eassumption|eassumption|lia|lia]|].
  intros f Hf. eapply fel_weaken; [exact Hf|lia|]. unfold mont_u.
  destruct (decide (py P = 1%F)) as [E|E].
  - rewrite E. replace (z - 1 * z)%F with 0%F by ring. replace (1 - 1)%F with 0%F by ring. rewrite fp_inv_0. ring.
  - pose proof (one_minus_y P E). field. split; [done|].
    intros E0. apply (fp_mul_neq_0 (1 - py P)%F z); [done|done|]. rewrite <- E0. ring.
Qed.
Lemma keygen_ok a : wf_bytes a → length a = 32%nat → le_value a < 2 ^ 255 →
  curve25519_keygen a = Some (le_bytes 32 (fval (mont_u (smul (le_value a) B)))).
Proof.
  intros Ha La Va. unfold curve25519_keygen.
  destruct (ge_scalarmult_base_ok a Ha La Va) as (h & -> & Hh). cbn [mbind option_bind].
  destruct (fel_p3_to_montx _ _ Hh) as (u & -> & Hu). cbn [mbind option_bind].
  by apply (fel_tobytes 65).
Qed.
Lemma edy_bytes_ok pub : wf_bytes pub → length pub = 32%nat →
  edy_bytes pub = Some (le_bytes 32 (fval (edwards_y (F (le_value pub `mod` 2 ^ 255))))).
Proof.
  intros Hp Lp. unfold edy_bytes. destruct (fel_frombytes pub Hp Lp) as (u & -> & Hu). cbn [mbind option_bind].
  destruct (fel_montx_to_edy _ _ _ Hu) as (y & -> & Hy); [lia|]. cbn [mbind option_bind].
  by apply (fel_tobytes 65).
Qed.
Lemma fval_le255 x : 0 <= fval x < 2 ^ 255.
Proof. pose proof (fval_range x). unfold p25519 in *. lia. Qed.
(** A public key made from a point other than zero gives its [y] back. *)
Lemma edwards_y_key P : P ≠ pzero → edwards_y (F (le_value (le_bytes 32 (fval (mont_u P))) `mod` 2 ^ 255)) = py P.
Proof.
  intros HP. pose proof (fval_le255 (mont_u P)) as Hr.
  rewrite le_value_bytes_small by (change (256 ^ Z.of_nat 32) with (2 ^ 256); lia).
  rewrite Z.mod_small, F_val by done. apply edwards_y_u. intros E. by apply HP, y_one.
Qed.

Lemma malloc_granted a n : granted a = true → ∃ b, malloc a n = Some b ∧ length b = Z.to_nat n.
Proof.
  intros H. unfold malloc. rewrite H. eexists. split; [done|]. by rewrite length_fmap, length_seq.
Qed.

(** * Verification *)

Lemma open_modified_ok m0 pk R s m :
  (64 + length m <= length m0)%nat → zlen m < 2 ^ 64 - 128 →
  wf_bytes R → length R = 32%nat → wf_bytes s → length s = 32%nat → wf_bytes m → wf_bytes pk → length pk = 32%nat →
  ∃ b : bool, crypto_sign_open_modified m0 (R ++ s ++ m) pk = Some (if b then 0 else -1) ∧
    (b = true ↔ accepts pk R s m).
Proof.
  intros L0 Lm HR LR Hs Ls Hm Hpk Lpk.
  destruct (open_check_ok m0 pk R s m) as (b & m' & E & Hb & _); try done;
    try (unfold zlen in *; rewrite !length_app; lia).
  exists b. split; [|done]. unfold crypto_sign_open_modified. by rewrite E.
Qed.

(** The Edwards key a Curve25519 public key and a sign bit stand for. *)
Definition verify_key (pub : bytes) (n : Z) : bytes :=
  le_bytes 32 (fval (edwards_y (F (le_value pub `mod` 2 ^ 255))) + 2 ^ 255 * n).

Section Verify.
Context (R msg pub : bytes) (HR : wf_bytes R) (LR : length R = 32%nat)
  (Hm : wf_bytes msg) (Lm : zlen msg < 2 ^ 64 - 128) (Hp : wf_bytes pub) (Lp : length pub = 32%nat).

Lemma curve25519_verify_ok a1 a2 s n : granted a1 = true → granted a2 = true →
  0 <= s < 2 ^ 255 → n = 0 ∨ n = 1 →
  ∃ b : bool, curve25519_verify a1 a2 (R ++ le_bytes 32 (s + 2 ^ 255 * n)) pub msg = Some (if b then 0 else -1) ∧
    (b = true ↔ accepts (verify_key pub n) R (le_bytes 32 s) msg).
Proof using All.
  intros H1 H2 Hs Hn. unfold curve25519_verify. pose proof Nat2Z.is_nonneg (length msg) as Hz.
  rewrite usize_small by (unfold SIZE_MAX, zlen in *; lia).
  destruct (malloc_granted a1 (zlen msg + 64) H1) as (v1 & -> & Lv1).
  destruct (malloc_granted a2 (zlen msg + 64) H2) as (v2 & -> & Lv2). unfold zlen in Lv1, Lv2.
  rewrite edy_bytes_ok by done. cbn [mbind option_bind].
  pose proof (fval_le255 (edwards_y (F (le_value pub `mod` 2 ^ 255)))) as Hy.
  rewrite top_bit_clear_0 by done. cbn [mbind option_bind].
  rewrite lookup_app_r, LR by lia. change (63 - 32)%nat with 31%nat.
  rewrite (top_byte_of s n Hs Hn). cbn [mbind option_bind]. rewrite (top_bit_of s n Hs Hn).
  rewrite top_bit_set by done. cbn [mbind option_bind]. fold (verify_key pub n).
  rewrite mem_read_all by (rewrite length_app, length_le_bytes; lia). cbn [mbind option_bind].
  destruct (split_buffer v1 (length msg) 0) as (b0 & b1 & b2 & b3 & -> & L0 & L1 & L2 & L3); [lia|].
  destruct b3; [|done]. rewrite app_nil_r, (app_assoc b0 b1).
  rewrite mem_write_first by (rewrite !length_app, length_le_bytes; lia). cbn [mbind option_bind].
  rewrite <- app_assoc, (on_byte_app _ R _ 63 31) by lia.
  rewrite on_byte_app_l by (rewrite length_le_bytes; lia).
  rewrite (top_bit_clear s n Hs Hn). cbn [fmap option_fmap option_map mbind option_bind].
  rewrite <- (app_nil_r (R ++ le_bytes 32 s ++ b2)), <- !app_assoc, (app_assoc R).
  rewrite mem_write_at by (rewrite ?length_app, ?length_le_bytes; lia). cbn [mbind option_bind].
  rewrite app_nil_r, <- app_assoc. apply open_modified_ok; try done; try apply wf_le_bytes; try apply length_le_bytes; lia.
Qed.

Lemma xed25519_verify_ok v1 v2 s : length v1 = (MAX_MSG_LEN + 64)%nat → length v2 = (MAX_MSG_LEN + 64)%nat →
  (length msg <= MAX_MSG_LEN)%nat → wf_bytes s → length s = 32%nat →
  ∃ b : bool, xed25519_verify v1 v2 (R ++ s) pub msg = Some (if b then 0 else -1) ∧
    (b = true ↔ le_value pub < p25519 ∧ accepts (verify_key pub 0) R s msg).
Proof using All.
  intros Lv1 Lv2 Lmsg Hs Ls. unfold xed25519_verify. rewrite (proj2 (Nat.ltb_ge _ _)) by done.
  rewrite fe_isreduced_ok by done. cbn [mbind option_bind]. case_bool_decide as Hred.
  2:{ exists false. split; [done|]. split; [discriminate|]. by intros [? _]. }
  change (1 =? 0) with false. cbv iota. rewrite edy_bytes_ok by done. cbn [mbind option_bind].
  unfold verify_key. rewrite Z.mul_0_r, Z.add_0_r.
  rewrite mem_read_all by (rewrite length_app; lia). cbn [mbind option_bind].
  destruct (split_buffer v1 (length msg) (256 - length msg)) as (b0 & b1 & b2 & b3 & -> & L0 & L1 & L2 & L3);
    [unfold MAX_MSG_LEN in *; lia|].
  rewrite (app_assoc b0 b1), mem_write_first by (rewrite !length_app; lia). cbn [mbind option_bind].
  rewrite mem_write_at by (rewrite ?length_app; lia). cbn [mbind option_bind].
  rewrite (app_assoc _ msg), mem_read_first by (rewrite !length_app; lia). cbn [mbind option_bind].
  rewrite <- app_assoc.
  destruct (open_modified_ok v2 (le_bytes 32 (fval (edwards_y (F (le_value pub `mod` 2 ^ 255))))) R s msg)
    as (b & E & Hb); try done; try apply wf_le_bytes; try apply length_le_bytes; [unfold MAX_MSG_LEN in *; lia|].
  exists b. split; [exact E|]. rewrite Hb. tauto.
Qed.
End Verify.

(** * Exactness *)

Lemma bytes_split s : wf_bytes s → length s = 32%nat →
  s = le_bytes 32 (le_value s `mod` 2 ^ 255 + 2 ^ 255 * (le_value s `div` 2 ^ 255)) ∧
  (le_value s `div` 2 ^ 255 = 0 ∨ le_value s `div` 2 ^ 255 = 1).
Proof.
  intros Hs Ls. pose proof (le_value_range s Hs) as Hr. unfold zlen in Hr. rewrite Ls in Hr.
  change (256 ^ Z.of_nat 32) with (2 ^ 255 * 2) in Hr. split.
  - rewrite Z.add_comm, <- Z_div_mod_eq_full, <- Ls. symmetry. by apply le_bytes_value.
  - assert (0 <= le_value s `div` 2 ^ 255 < 2); [|lia].
    split; [apply Z.div_pos; lia|]. apply Z.div_lt_upper_bound; lia.
Qed.

(** C15: [curve25519_verify] decides the equation of the signature: it returns zero exactly
    when both buffers are granted, [s] is below [2^253] and [sB - hA] encodes to [R], for
    the point [A] with the Edwards coordinate of the public key and the sign bit that the
    signature carries; otherwise it returns [-1]. *)
Theorem curve25519_verify_exact (a1 a2 : alloc) (sig pub msg : bytes) :
  wf_bytes sig → length sig = 64%nat → wf_bytes pub → length pub = 32%nat →
  wf_bytes msg → zlen msg < 2 ^ 64 - 128 →
  let v := le_value (drop 32 sig) in
  (curve25519_verify a1 a2 sig pub msg = Some 0 ↔ granted a1 = true ∧ granted a2 = true ∧
    accepts (verify_key pub (v `div` 2 ^ 255)) (take 32 sig) (le_bytes 32 (v `mod` 2 ^ 255)) msg) ∧
  (curve25519_verify a1 a2 sig pub msg = Some 0 ∨ curve25519_verify a1 a2 sig pub msg = Some (-1)).
Proof.
  intros Hs Ls Hp Lp Hm Lm v. rewrite <- (take_drop 32 sig) in Hs. apply wf_bytes_app in Hs as [HR HS].
  assert (length (take 32 sig) = 32%nat) as LR by (rewrite length_take; lia).
  assert (length (drop 32 sig) = 32%nat) as LS by (rewrite length_drop; lia).
  destruct (granted a1) eqn:E1.
  2:{ unfold curve25519_verify, malloc. rewrite E1. split; [|by right]. split; [discriminate|]. by intros [? _]. }
  destruct (granted a2) eqn:E2.
  2:{ unfold curve25519_verify, malloc. rewrite E1, E2. split; [|by right]. split; [discriminate|]. by intros (_ & ? & _). }
  destruct (bytes_split (drop 32 sig) HS LS) as [E Hn]. fold v in E, Hn.
  destruct (curve25519_verify_ok (take 32 sig) msg pub HR LR Hm Lm Hp Lp a1 a2 (v `mod` 2 ^ 255) (v `div` 2 ^ 255) E1 E2)
    as (b & Eb & Hb); [apply Z.mod_pos_bound; lia|exact Hn|].
  rewrite <- E, take_drop in Eb. rewrite Eb. split; [|destruct b; [by left|by right]].
  rewrite <- Hb. destruct b; split; try done. by intros (_ & _ & ?).
Qed.

Lemma curve25519_verify_exact_witness :
  let a := Alloc true (λ _, 0) in let sig := replicate 64 1 in let pub := 9 :: replicate 31 0 in
  curve25519_verify a a sig pub [1; 2; 3] = Some 0 ∨ curve25519_verify a a sig pub [1; 2; 3] = Some (-1).
Proof.
  cbv zeta. apply (curve25519_verify_exact (Alloc true (λ _, 0)) (Alloc true (λ _, 0)) (replicate 64 1)
    (9 :: replicate 31 0) [1; 2; 3]); by repeat constructor.
Defined.
