(* ===== verification/XEdSign.v ===== *)
(** Signatures verify: for every key, message and random input the check accepts what
    the signing function of its scheme wrote. *)

From S2P Require Import Prelude Limbs Donna DonnaField DonnaBytes Scalar ScalarSpec Fe FeSpec.
From S2P Require Import Field25519 Edwards GeBase Ge GeSpec GeTable GeMult GeSlide Sha512 Sha512Spec XEd XEdSpec.
Import Fe Ge.

(** * Encodings of public keys *)

Lemma decodes_encode P : decodes (encode P) P.
Proof. destruct (decode_encode P) as [Ey Es]. split; [by rewrite Ey|left; by rewrite Es]. Qed.
(** With the sign bit cleared the encoding is that of the point or of its opposite. *)
Lemma decodes_unsigned P : decodes (le_bytes 32 (fval (py P))) (if decide (fval (px P) `mod` 2 = 1) then popp P else P).
Proof.
  pose proof (fval_le255 (py P)) as Hr. unfold decodes, decode_y, decode_sign.
  rewrite le_value_bytes_small by (change (256 ^ Z.of_nat 32) with (2 ^ 256); lia).
  rewrite (Z.mod_small _ (2 ^ 255)), Z.div_small, F_val by done. destruct (decide (fval (px P) `mod` 2 = 1)) as [E|E].
  - split; [done|]. left. change (px (popp P)) with (- px P)%F. rewrite parity_opp; [lia|].
    intros E0. rewrite E0, <- F_0, fval_F in E. by vm_compute in E.
  - split; [done|]. left. pose proof (parity (fval (px P))). lia.
Qed.
Lemma base_multiple_neq a : ¬ (group_order | a) → smul a B ≠ pzero.
Proof. intros H E. by apply H, smul_zero_divide. Qed.
Lemma base_multiple_bytes a : wf_bytes a → length a = 32%nat → le_value a < 2 ^ 255 →
  runs (ge_scalarmult_base a) (λ h, ge_p3_tobytes h = Some (encode (smul (le_value a) B))).
Proof.
  intros Ha La Va. eapply runs_mono; [by apply ge_scalarmult_base_ok|]. intros h. apply ge_p3_tobytes_ok.
Qed.
Lemma signature_split a pk r m : ∃ R s, signature_of a pk r m = R ++ le_bytes 32 s ∧
  wf_bytes R ∧ length R = 32%nat ∧ 0 <= s < 2 ^ 255.
Proof.
  unfold signature_of. cbv zeta. eexists _, _. split; [done|]. split; [apply wf_encode|].
  split; [apply length_encode|]. pose proof group_order_range.
  pose proof (Z.mod_pos_bound (hash_scalar (encode (smul r B) ++ pk ++ m) * a + r) group_order ltac:(lia)). lia.
Qed.

(** * curve_sigs.c *)

Section Curve.
Context (priv msg random : bytes) (Hk : wf_bytes priv) (Lk : length priv = 32%nat)
  (Vk : le_value priv < 2 ^ 255) (Hm : wf_bytes msg) (Lm : zlen msg < 2 ^ 64 - 128)
  (Hr : wf_bytes random) (Lr : length random = 64%nat).
Let P := smul (le_value priv) B.

Lemma curve25519_sign_ok al : granted al = true →
  ∃ R s, signature_of (le_value priv) (encode P) (nonce_of priv msg random) msg = R ++ le_bytes 32 s ∧
    wf_bytes R ∧ length R = 32%nat ∧ 0 <= s < 2 ^ 255 ∧
    curve25519_sign al priv msg random = Some (0, R ++ le_bytes 32 (s + 2 ^ 255 * (fval (px P) `mod` 2))).
Proof using All.
  intros Hal. destruct (signature_split (le_value priv) (encode P) (nonce_of priv msg random) msg)
    as (R & s & E & HR & LR & Hs). exists R, s. do 4 (split; [done|]).
  unfold curve25519_sign. rewrite usize_small by (unfold SIZE_MAX, zlen in *; lia).
  destruct (malloc_granted al (zlen msg + 128) Hal) as (b & -> & Lb). unfold zlen in Lb.
  destruct (base_multiple_bytes priv Hk Lk Vk) as (h & -> & Eh). cbn [mbind option_bind].
  rewrite Eh. cbn [mbind option_bind]. fold P in Eh |- *. clear Eh.
  pose proof (fval_le255 (py P)) as Hy. pose proof (parity (fval (px P))) as Hn.
  pose proof (top_byte_of _ _ Hy Hn) as Eb. fold (encode P) in Eb. rewrite Eb. cbn [mbind option_bind].
  rewrite (top_bit_of _ _ Hy Hn). clear Eb.
  rewrite crypto_sign_modified_ok; try assumption; [|lia|apply wf_encode|apply length_encode].
  cbn [mbind option_bind]. rewrite E.
  rewrite mem_read_first by (rewrite length_app, length_le_bytes; lia). cbn [mbind option_bind].
  rewrite (on_byte_app _ R _ 63 31), top_bit_clear_0 by lia. cbn [fmap option_fmap option_map mbind option_bind].
  rewrite (on_byte_app _ R _ 63 31), top_bit_set by (assumption || lia). reflexivity.
Qed.

Lemma curve25519_roundtrip al a1 a2 : granted al = true → granted a1 = true → granted a2 = true →
  ¬ (group_order | le_value priv) →
  ∃ sig, curve25519_sign al priv msg random = Some (0, sig) ∧ length sig = 64%nat ∧
    curve25519_verify a1 a2 sig (le_bytes 32 (fval (mont_u P))) msg = Some 0.
Proof using All.
  intros Hal H1 H2 Hnz. destruct (curve25519_sign_ok al Hal) as (R & s & E & HR & LR & Hs & Es).
  eexists. split; [exact Es|]. split; [by rewrite length_app, length_le_bytes, LR|].
  destruct (curve25519_verify_ok R msg (le_bytes 32 (fval (mont_u P))) HR LR Hm Lm) with (a1 := a1) (a2 := a2)
    (s := s) (n := fval (px P) `mod` 2) as (b & -> & Hb);
    [apply wf_le_bytes|apply length_le_bytes|assumption|assumption|assumption|apply parity|].
  destruct b; [done|]. exfalso. cut (false = true); [done|]. apply Hb.
  apply (accepts_signature (le_value priv) _ (nonce_of priv msg random)); [|clear Hb|done].
  - unfold verify_key. rewrite edwards_y_key by (by apply base_multiple_neq). apply decodes_encode.
  - unfold verify_key. rewrite edwards_y_key by (by apply base_multiple_neq). exact E.
Qed.

(** * xeddsa.c *)

Lemma xed_keypair_ok : ∃ a, xed_keypair priv = Some (a, le_bytes 32 (fval (py P))) ∧
  wf_bytes a ∧ length a = 32%nat ∧ le_value a < 2 ^ 255 ∧ decodes (le_bytes 32 (fval (py P))) (smul (le_value a) B).
Proof using All.
  unfold xed_keypair. destruct (base_multiple_bytes priv Hk Lk Vk) as (h & -> & Eh). cbn [mbind option_bind].
  rewrite Eh. cbn [mbind option_bind]. fold P in Eh |- *. clear Eh.
  pose proof (fval_le255 (py P)) as Hy. pose proof (parity (fval (px P))) as Hn. unfold encode.
  rewrite (top_byte_of _ _ Hy Hn). cbn [mbind option_bind]. rewrite (top_bit_of _ _ Hy Hn).
  rewrite mem_read_all by done. cbn [mbind option_bind]. rewrite sc_neg_run by done. cbn [mbind option_bind].
  replace (Z.shiftr (128 * (fval (px P) `mod` 2)) 7) with (fval (px P) `mod` 2)
    by (destruct Hn as [-> | ->]; done).
  rewrite sc_cmov_run by (assumption || apply wf_le_bytes || apply length_le_bytes). cbn [mbind option_bind].
  rewrite (top_bit_clear _ _ Hy Hn). cbn [mbind option_bind]. eexists. split; [done|].
  pose proof (decodes_unsigned P) as Hd. pose proof group_order_range.
  destruct (decide (fval (px P) `mod` 2 = 1)) as [E|E].
  - split; [apply wf_le_bytes|]. split; [apply length_le_bytes|].
    rewrite le_value_scalar by (apply Z.mod_pos_bound; lia).
    split; [eapply Z.lt_trans; [apply Z.mod_pos_bound; lia|lia]|]. change group_order with base_order.
    by rewrite smul_mod, smul_opp.
  - done.
Qed.

Lemma xed25519_sign_ok al : granted al = true →
  ∃ a R s, decodes (le_bytes 32 (fval (py P))) (smul (le_value a) B) ∧
    signature_of (le_value a) (le_bytes 32 (fval (py P))) (nonce_of a msg random) msg = R ++ le_bytes 32 s ∧
    wf_bytes R ∧ length R = 32%nat ∧ xed25519_sign al priv msg random = Some (0, R ++ le_bytes 32 s).
Proof using All.
  intros Hal. destruct xed_keypair_ok as (a & Ek & Ha & La & _ & Hd).
  destruct (signature_split (le_value a) (le_bytes 32 (fval (py P))) (nonce_of a msg random) msg) as (R & s & E & HR & LR & Hs).
  exists a, R, s. do 4 (split; [assumption|]).
  unfold xed25519_sign. rewrite usize_small by (unfold SIZE_MAX, zlen in *; lia).
  destruct (malloc_granted al (zlen msg + 128) Hal) as (b & -> & Lb). unfold zlen in Lb.
  rewrite Ek. cbn [mbind option_bind].
  rewrite crypto_sign_modified_ok; try assumption; [|lia|apply wf_le_bytes|apply length_le_bytes].
  cbn [mbind option_bind]. rewrite E.
  by rewrite mem_read_first by (rewrite length_app, length_le_bytes; lia).
Qed.
Lemma xed25519_roundtrip al v1 v2 : granted al = true → ¬ (group_order | le_value priv) →
  length v1 = (MAX_MSG_LEN + 64)%nat → length v2 = (MAX_MSG_LEN + 64)%nat →
  ∃ sig, xed25519_sign al priv msg random = Some (0, sig) ∧ length sig = 64%nat ∧
    xed25519_verify v1 v2 sig (le_bytes 32 (fval (mont_u P))) msg =
      Some (if (length msg <=? MAX_MSG_LEN)%nat then 0 else -1).
Proof using All.
  intros Hal Hnz Lv1 Lv2. destruct (xed25519_sign_ok al Hal) as (a & R & s & Hd & E & HR & LR & Es).
  eexists. split; [exact Es|]. split; [by rewrite length_app, length_le_bytes, LR|].
  destruct (Nat.leb_spec (length msg) MAX_MSG_LEN) as [Lmsg|Hgt];
    [|unfold xed25519_verify; by rewrite (proj2 (Nat.ltb_lt _ _)) by lia].
  destruct (xed25519_verify_ok R msg (le_bytes 32 (fval (mont_u P))) HR LR Hm Lm) with (v1 := v1) (v2 := v2)
    (s := le_bytes 32 s) as (ok & -> & Hok);
    [apply wf_le_bytes|apply length_le_bytes|assumption..|apply wf_le_bytes|apply length_le_bytes|].
  destruct ok; [done|]. exfalso. cut (false = true); [done|]. apply Hok. split.
  - rewrite le_value_bytes_small; [apply fval_range|]. pose proof (fval_le255 (mont_u P)).
    change (256 ^ Z.of_nat 32) with (2 ^ 256). lia.
  - assert (verify_key (le_bytes 32 (fval (mont_u P))) 0 = le_bytes 32 (fval (py P))) as ->.
    { unfold verify_key. rewrite edwards_y_key by (by apply base_multiple_neq). by rewrite Z.mul_0_r, Z.add_0_r. }
    by apply (accepts_signature (le_value a) _ (nonce_of a msg random)).
Qed.
End Curve.

(** * sign.c and open.c *)

(** The private scalar of a seed. *)
Definition ed_scalar (seed : bytes) : Z :=
  let x := take 32 (sha512 seed) in
  le_value (<[31%nat := Z.lor (Z.land (x !!! 31%nat) 63) 64]> (<[0%nat := Z.land (x !!! 0%nat) 248]> x)).

Lemma byte_ops x : is_byte x → is_byte (Z.land x 248) ∧ 64 <= Z.lor (Z.land x 63) 64 < 128.
Proof.
  intros Hx. apply (byte_forall (λ x, (0 <=? Z.land x 248) && (Z.land x 248 <? 256) &&
    (64 <=? Z.lor (Z.land x 63) 64) && (Z.lor (Z.land x 63) 64 <? 128))) in Hx; [|by vm_compute].
  rewrite !andb_true_iff, !Z.leb_le, !Z.ltb_lt in Hx. unfold is_byte. lia.
Qed.
Lemma clamp_az_ok x y : wf_bytes x → length x = 32%nat →
  ∃ x', clamp_az (x ++ y) = Some (x' ++ y) ∧ wf_bytes x' ∧ length x' = 32%nat ∧ le_value x' < 2 ^ 255 ∧
    x' = <[31%nat := Z.lor (Z.land (x !!! 31%nat) 63) 64]> (<[0%nat := Z.land (x !!! 0%nat) 248]> x).
Proof.
  intros Hx Lx. unfold clamp_az, on_byte.
  rewrite lookup_app_l, (list_lookup_lookup_total_lt x 0) by lia. cbn [mbind option_bind].
  rewrite insert_app_l by lia. set (x1 := <[0%nat := _]> x). assert (length x1 = 32%nat) as L1 by (unfold x1; by rewrite length_insert).
  rewrite lookup_app_l by lia. assert (x1 !! 31%nat = Some (x !!! 31%nat)) as E1.
  { unfold x1. rewrite list_lookup_insert_ne by lia. apply list_lookup_lookup_total_lt. lia. }
  rewrite E1. cbn [mbind option_bind]. rewrite insert_app_l by lia.
  rewrite lookup_app_l by (rewrite length_insert; lia). rewrite list_lookup_insert_eq by lia. cbn [mbind option_bind].
  rewrite insert_app_l by (rewrite length_insert; lia). rewrite list_insert_insert_eq.
  destruct (byte_ops (x !!! 0%nat)) as [B0 _]; [apply Forall_lookup_total_1; [done|lia]|].
  destruct (byte_ops (x !!! 31%nat)) as [_ B31]; [apply Forall_lookup_total_1; [done|lia]|].
  eexists. split; [reflexivity|].
  assert (wf_bytes (<[31%nat := Z.lor (Z.land (x !!! 31%nat) 63) 64]> x1)) as W.
  { apply Forall_insert; [apply Forall_insert; done|]. unfold is_byte. lia. }
  assert (length (<[31%nat := Z.lor (Z.land (x !!! 31%nat) 63) 64]> x1) = 32%nat) as L by (by rewrite length_insert).
  split; [done|]. split; [done|]. split; [|done].
  destruct (top_byte _ W L) as [E _]. rewrite list_lookup_insert_eq in E by lia. injection E as E.
  pose proof (Z_div_mod_eq_full (le_value (<[31%nat := Z.lor (Z.land (x !!! 31%nat) 63) 64]> x1)) (2 ^ 248)).
  pose proof (Z.mod_pos_bound (le_value (<[31%nat := Z.lor (Z.land (x !!! 31%nat) 63) 64]> x1)) (2 ^ 248) ltac:(lia)).
  lia.
Qed.

Section Ed25519.
Context (seed m : bytes) (Hs : wf_bytes seed) (Ls : length seed = 32%nat)
  (Hm : wf_bytes m) (Lm : zlen m < 2 ^ 64 - 128).
Let pk := encode (smul (ed_scalar seed) B).

(** The nonce is the hash of the second half of the seed's hash and the message. *)
Definition ed_nonce : Z := hash_scalar (drop 32 (sha512 seed) ++ m).

Lemma crypto_sign_ok sm : length sm = (length m + 64)%nat →
  crypto_sign sm m (seed ++ pk) = Some (signature_of (ed_scalar seed) pk ed_nonce m ++ m, zlen m + 64).
Proof using Hs Ls Hm Lm.
  intros Lsm. unfold crypto_sign. pose proof (length_encode (smul (ed_scalar seed) B)) as Lpk. fold pk in Lpk.
  pose proof (wf_encode (smul (ed_scalar seed) B)) as Wpk. fold pk in Wpk.
  assert (mem_read (seed ++ pk) 32 32 = Some pk) as -> by (apply mem_read_last; lia).
  cbn [mbind option_bind]. rewrite mem_read_first by lia. cbn [mbind option_bind].
  rewrite crypto_hash_sha512_run by (done || unfold zlen; rewrite Ls; lia). cbn [mbind option_bind].
  pose proof (length_sha512 seed) as Lh. pose proof (wf_sha512 seed) as Wh.
  unfold ed_nonce, ed_scalar in *. cbv zeta in *.
  rewrite <- (take_drop 32 (sha512 seed)) in Wh. apply wf_bytes_app in Wh as [Wx Wy].
  assert (length (take 32 (sha512 seed)) = 32%nat) as Lx by (rewrite length_take; lia).
  assert (length (drop 32 (sha512 seed)) = 32%nat) as Ly by (rewrite length_drop; lia).
  rewrite <- (take_drop 32 (sha512 seed)) at 1.
  destruct (clamp_az_ok (take 32 (sha512 seed)) (drop 32 (sha512 seed)) Wx Lx) as (x' & -> & Wx' & Lx' & Vx' & Ex').
  cbn [mbind option_bind]. rewrite <- Ex' in *. clear Ex'. set (y := drop 32 (sha512 seed)) in *.
  destruct (split_buffer sm (length m) 0) as (b0 & b1 & b2 & b3 & -> & L0 & L1 & L2 & L3); [lia|].
  rewrite (app_assoc b0 b1), mem_write_at by (rewrite ?length_app; lia). cbn [mbind option_bind].
  assert (mem_read (x' ++ y) 32 32 = Some y) as -> by (apply mem_read_last; lia).
  cbn [mbind option_bind]. rewrite <- app_assoc, mem_write_at by lia. cbn [mbind option_bind].
  destruct b3; [|done]. rewrite app_nil_r.
  assert (mem_read (b0 ++ y ++ m) 32 (length m + 32) = Some (y ++ m)) as ->
    by (apply mem_read_last; rewrite ?length_app; lia).
  cbn [mbind option_bind]. rewrite crypto_hash_sha512_run;
    [|by rewrite wf_bytes_app|unfold zlen in *; rewrite length_app; lia]. cbn [mbind option_bind].
  rewrite mem_read_first by lia. cbn [mbind option_bind]. rewrite <- (app_nil_r m) at 1.
  rewrite sign_tail_ok by (assumption || apply wf_sha512 || apply length_sha512). cbn [mbind option_bind].
  rewrite app_nil_r, usize_small by (unfold SIZE_MAX, zlen in *; lia). reflexivity.
Qed.

Lemma crypto_open_ok m0 sm : (length m + 64 <= length m0)%nat → length sm = (length m + 64)%nat →
  ∃ sm', crypto_sign sm m (seed ++ pk) = Some (sm', zlen m + 64) ∧
    crypto_sign_open m0 sm' pk = Some (0, zlen m, m ++ replicate 64 0 ++ drop (length m + 64) m0).
Proof using Hs Ls Hm Lm.
  intros L0 Lsm. eexists. split; [by apply crypto_sign_ok|].
  destruct (signature_split (ed_scalar seed) pk ed_nonce m) as (R & s & E & HR & LR & Hr). rewrite E, <- app_assoc.
  unfold crypto_sign_open. set (sb := le_bytes 32 s) in *. assert (length sb = 32%nat) as Lsb by apply length_le_bytes.
  destruct (open_check_ok m0 pk R sb m) as (b & m' & Eo & Hb & _ & Hm');
    [rewrite !length_app; lia|unfold zlen in *; rewrite !length_app; lia|assumption|assumption|apply wf_le_bytes|done
    |assumption|apply wf_encode|apply length_encode|].
  rewrite Eo. cbn [mbind option_bind].
  assert (b = true) as ->.
  { apply Hb, (accepts_signature (ed_scalar seed) _ ed_nonce); [apply decodes_encode|exact E|done]. }
  specialize (Hm' eq_refl). subst m'.
  assert (length pk = 32%nat) as Lpk by apply length_encode.
  assert (length (R ++ sb ++ m) = (length m + 64)%nat) as Lall by (rewrite !length_app; lia).
  rewrite Lall. replace (length m + 64 - 64)%nat with (length m) by lia. set (rest := drop (length m + 64) m0).
  rewrite (app_assoc R pk), mem_read_at by (rewrite ?length_app; lia). cbn [mbind option_bind].
  assert (∃ c0 c1, (R ++ pk) ++ m ++ rest = c0 ++ c1 ++ rest ∧ length c0 = length m ∧ length c1 = 64%nat)
    as (c0 & c1 & -> & Lc0 & Lc1).
  { exists (take (length m) ((R ++ pk) ++ m)), (drop (length m) ((R ++ pk) ++ m)).
    rewrite (app_assoc (take _ _)), take_drop, length_take, length_drop, !length_app.
    split; [by rewrite <- !app_assoc|lia]. }
  rewrite mem_write_first by lia. cbn [mbind option_bind].
  rewrite mem_write_at by (rewrite ?length_replicate; lia). cbn [mbind option_bind].
  unfold zlen. rewrite Lall. do 3 f_equal. lia.
Qed.
End Ed25519.

(** * Round trips *)

Lemma indivisible a : a `mod` group_order ≠ 0 → ¬ (group_order | a).
Proof. intros H D. by apply H, Z.mod_divide. Qed.

(** XEdDSA: for every 255-bit private key that is no multiple of the group order, every
    message of at most 256 bytes and all random bytes, the signature [xed25519_sign] writes
    is accepted by [xed25519_verify] under the key that [curve25519_keygen] makes; a longer
    message is rejected. *)
Theorem xed25519_signature_verifies (al : alloc) (priv msg random v1 v2 : bytes) :
  granted al = true → wf_bytes priv → length priv = 32%nat → le_value priv < 2 ^ 255 →
  le_value priv `mod` group_order ≠ 0 → wf_bytes msg → wf_bytes random → length random = 64%nat →
  length v1 = (MAX_MSG_LEN + 64)%nat → length v2 = (MAX_MSG_LEN + 64)%nat → zlen msg < 2 ^ 64 - 128 →
  ∃ sig pub, xed25519_sign al priv msg random = Some (0, sig) ∧ length sig = 64%nat ∧
    curve25519_keygen priv = Some pub ∧
    xed25519_verify v1 v2 sig pub msg = Some (if (length msg <=? MAX_MSG_LEN)%nat then 0 else -1).
Proof.
  intros Hal Hk Lk Vk Hnz Hm Hr Lr L1 L2 Lm.
  destruct (xed25519_roundtrip priv msg random Hk Lk Vk Hm Lm Hr Lr al v1 v2 Hal (indivisible _ Hnz) L1 L2)
    as (sig & E & Ls & Ev).
  eexists _, _. split; [exact E|]. split; [exact Ls|]. split; [by apply keygen_ok|exact Ev].
Qed.

Lemma xed25519_signature_verifies_witness :
  ∃ sig pub, xed25519_sign (Alloc true (λ _, 0)) (8 :: replicate 30 7 ++ [64]) [1; 2; 3] (replicate 64 5) = Some (0, sig) ∧
    length sig = 64%nat ∧ curve25519_keygen (8 :: replicate 30 7 ++ [64]) = Some pub ∧
    xed25519_verify (replicate 320 0) (replicate 320 0) sig pub [1; 2; 3] = Some 0.
Proof.
  apply (xed25519_signature_verifies (Alloc true (λ _, 0)) (8 :: replicate 30 7 ++ [64]) [1; 2; 3] (replicate 64 5)
    (replicate 320 0) (replicate 320 0)); try (vm_compute; (reflexivity || discriminate)); by repeat constructor.
Defined.

(** Ed25519: [crypto_sign_open] returns the message that [crypto_sign] signed, with its
    length, and clears the rest of its buffer. *)
Theorem ed25519_open_sign (seed m m0 sm : bytes) :
  wf_bytes seed → length seed = 32%nat → wf_bytes m → zlen m < 2 ^ 64 - 128 →
  (length m + 64 <= length m0)%nat → length sm = (length m + 64)%nat →
  let pk := encode (smul (ed_scalar seed) B) in
  ∃ sm', crypto_sign sm m (seed ++ pk) = Some (sm', zlen m + 64) ∧
    crypto_sign_open m0 sm' pk = Some (0, zlen m, m ++ replicate 64 0 ++ drop (length m + 64) m0).
Proof. intros Hs Ls Hm Lm L0 Lsm pk. by apply crypto_open_ok. Qed.

Lemma ed25519_open_sign_witness :
  let seed := replicate 32 3 in let pk := encode (smul (ed_scalar seed) B) in
  ∃ sm', crypto_sign (replicate 66 0) [1; 2] (seed ++ pk) = Some (sm', 66) ∧
    crypto_sign_open (replicate 70 9) sm' pk = Some (0, 2, [1; 2] ++ replicate 64 0 ++ replicate 4 9).
Proof.
  apply (ed25519_open_sign (replicate 32 3) [1; 2] (replicate 70 9) (replicate 66 0));
    [by repeat constructor|reflexivity|by repeat constructor|reflexivity|cbn; lia|reflexivity].
Defined.
