(* ===== verification/Montgomery.v ===== *)
(** The Montgomery ladder multiplies points of the Edwards curve.

    A pair of integers [(X, Z)] stands for a point with [y] when it is proportional to
    [(1 + y, 1 - y)].  The two formulas of the ladder double and add under this
    reading, so X25519 is multiplication, and its commutation on the base point is a
    theorem. *)

From S2P Require Import Prelude Limbs DonnaField DonnaBytes DonnaLadder Prime Field25519 Edwards GeSpec GeTable.
From S2P Require Import XEdSpec.
Local Open Scope F_scope.

(** * Arithmetic *)

Lemma F_mod a : F (a `mod` p25519)%Z = F a.
Proof. apply F_eqp, mod_eqp. Qed.
Lemma F_ftimes a b : F (ftimes a b) = F a * F b.
Proof. unfold ftimes. by rewrite F_mod, F_mul. Qed.
Lemma F_fadd a b : F (fadd a b) = F a + F b.
Proof. unfold fadd. by rewrite F_mod, F_add. Qed.
Lemma F_fsub a b : F (fsub a b) = F a - F b.
Proof. unfold fsub. by rewrite F_mod, F_sub. Qed.
Lemma F_fpow a e : F (fpow a e) = fp_pow (F a) (Z.pos e).
Proof. rewrite <- F_pow by done. apply F_eqp, fpow_eqp. Qed.

Ltac push_F := repeat first [rewrite F_ftimes|rewrite F_fadd|rewrite F_fsub].

(** * Pairs *)

Definition mrep (c : Z * Z) (P : point) : Prop :=
  ∃ s, s ≠ 0 ∧ F c.1 = s * (1 + py P) ∧ F c.2 = s * (1 - py P).

(** A pair stands for a point when the cross products agree and it is not zero. *)
Lemma mrep_cross c P : F c.1 * (1 - py P) = F c.2 * (1 + py P) → ¬ (F c.1 = 0 ∧ F c.2 = 0) → mrep c P.
Proof.
  intros E Hn. pose proof f2_neq_0 as H2. exists ((F c.1 + F c.2) / F 2).
  assert (F c.1 = (F c.1 + F c.2) / F 2 * (1 + py P)) as E1.
  { transitivity ((F c.1 * (1 + py P) + F c.2 * (1 + py P)) / F 2); [rewrite <- E|]; field; done. }
  assert (F c.2 = (F c.1 + F c.2) / F 2 * (1 - py P)) as E2.
  { transitivity ((F c.1 * (1 - py P) + F c.2 * (1 - py P)) / F 2); [rewrite E|]; field; done. }
  split; [|done]. intros E0. apply Hn. rewrite E0 in E1, E2. split; [rewrite E1; ring|rewrite E2; ring].
Qed.
(** The quotient the ladder ends with. *)
Lemma mrep_value c P : mrep c P → F c.1 * fp_inv (F c.2) = mont_u P.
Proof.
  intros (s & Hs & -> & ->). unfold mont_u. destruct (decide (py P = 1)) as [E|E].
  - rewrite E. replace (s * (1 - 1)) with 0 by ring. replace (1 - 1) with 0 by ring. rewrite fp_inv_0. ring.
  - pose proof (one_minus_y P E). field. split; done.
Qed.

(** * Doubling *)

Lemma ladder_constant x y : on_curve x y → (1 + F 121665 * (1 - y * y)) * (1 + x * x) = y * y.
Proof.
  intros H. apply on_curve_root in H.
  transitivity ((F 121666 * ed_d + F 121666) * (y * y)); [|rewrite ed_d_ratio; ring].
  transitivity ((F 121666 - F 121665 * (y * y)) * (1 + x * x)); [ring|].
  transitivity ((F 121666 + F (-121665) * (y * y)) * (1 + x * x)); [ring|]. rewrite <- ed_d_ratio.
  transitivity (F 121666 * ((ed_d * (y * y) + 1) + (ed_d * (y * y) + 1) * (x * x))); [ring|]. rewrite H. ring.
Qed.
Lemma ladder_constant_neq y : 1 + F 121665 * (1 - y * y) ≠ 0.
Proof.
  replace (1 + F 121665 * (1 - y * y)) with (F 121666 * (ed_d * (y * y) + 1)).
  - apply fp_mul_neq_0; [|apply curve_denominator]. apply F_nonzero. vm_compute. discriminate.
  - transitivity ((F 121666 * ed_d) * (y * y) + F 121666); [ring|]. rewrite ed_d_ratio. ring.
Qed.
Lemma xdbl_ok c P : mrep c P → mrep (xdbl c) (padd P P).
Proof.
  intros (s & Hs & EX & EZ). pose proof (point_on P) as Hc.
  pose proof (delta_minus _ _ _ _ Hc Hc) as Hd. pose proof (ladder_constant_neq (py P)) as HK.
  pose proof (ladder_constant _ _ Hc) as EK. pose proof Hc as Hc'. unfold on_curve in Hc'.
  exists (F 8 * (s * s * (s * s)) * (1 + F 121665 * (1 - py P * py P)) * (1 - delta (px P) (py P) (px P) (py P))).
  split.
  { repeat apply fp_mul_neq_0; try assumption. apply F_nonzero. vm_compute. discriminate. }
  unfold xdbl. cbn [fst snd padd py]. push_F. rewrite EX, EZ.
  unfold add_y. set (x := px P) in *. set (y := py P) in *.
  assert (delta x y x y = y * y - x * x - 1) as Ed by (unfold delta; rewrite Hc'; ring). split.
  - transitivity (F 16 * (s * s * (s * s)) * ((1 + F 121665 * (1 - y * y)) * (1 + x * x))); [rewrite EK; ring|].
    transitivity (F 8 * (s * s * (s * s)) * (1 + F 121665 * (1 - y * y)) * ((1 - delta x y x y) + (y * y + x * x)));
      [rewrite Ed; ring|]. field. done.
  - transitivity (F 8 * (s * s * (s * s)) * (1 + F 121665 * (1 - y * y)) * ((1 - delta x y x y) - (y * y + x * x)));
      [rewrite Ed; ring|]. field. done.
Qed.

(** * Differential addition *)

Section Differential.
Context (P Q : point).
Let x1 := px P.
Let y1 := py P.
Let x2 := px Q.
Let y2 := py Q.
Let m := y1 * y2.
Let W := (ed_d * (y1 * y1) + 1) * (ed_d * (y2 * y2) + 1).
Let k := (ed_d + 1) * (1 + ed_d * (m * m)).

Lemma product_squares : W * (x1 * x2 * (x1 * x2)) = (y1 * y1 - 1) * (y2 * y2 - 1).
Proof.
  pose proof (point_on P) as H1. pose proof (point_on Q) as H2. apply on_curve_root in H1, H2.
  fold x1 y1 in H1. fold x2 y2 in H2.
  transitivity (((ed_d * (y1 * y1) + 1) * (x1 * x1)) * ((ed_d * (y2 * y2) + 1) * (x2 * x2))); [unfold W; ring|].
  by rewrite H1, H2.
Qed.
(** [(1 + y3) (1 + yD)] and [(1 - y3) (1 - yD)], up to the same factor. *)
Lemma sum_numerators :
  W * ((1 - ed_d * (x1 * x2 * y1 * y2) + m + x1 * x2) * (1 + ed_d * (x1 * x2 * y1 * y2) + m - x1 * x2)) =
    k * ((y1 + y2) * (y1 + y2)) ∧
  W * ((1 - ed_d * (x1 * x2 * y1 * y2) - m - x1 * x2) * (1 + ed_d * (x1 * x2 * y1 * y2) - m + x1 * x2)) =
    k * ((y1 - y2) * (y1 - y2)).
Proof.
  pose proof product_squares as E. split.
  - transitivity (W * ((1 + m) * (1 + m)) -
      W * (x1 * x2 * (x1 * x2)) * ((ed_d * m - 1) * (ed_d * m - 1))); [unfold W, m; ring|].
    rewrite E. unfold W, k, m. ring.
  - transitivity (W * ((1 - m) * (1 - m)) -
      W * (x1 * x2 * (x1 * x2)) * ((ed_d * m + 1) * (ed_d * m + 1))); [unfold W, m; ring|].
    rewrite E. unfold W, k, m. ring.
Qed.
Lemma differential :
  (1 + py (padd P Q)) * (1 + py (padd P (popp Q))) * ((y1 - y2) * (y1 - y2)) =
  (1 - py (padd P Q)) * (1 - py (padd P (popp Q))) * ((y1 + y2) * (y1 + y2)).
Proof.
  pose proof (point_on P) as H1. pose proof (point_on Q) as H2. pose proof (opp_on_curve _ _ H2) as H3.
  pose proof (delta_minus _ _ _ _ H1 H2) as D1. pose proof (delta_minus _ _ _ _ H1 H3) as D2.
  destruct sum_numerators as [S1 S2]. cbn [padd popp px py]. unfold add_y. fold x1 x2 y1 y2 in D1, D2 |- *.
  assert (W ≠ 0) as HW by (apply fp_mul_neq_0; apply curve_denominator).
  unfold delta in *.
  apply (fp_mul_cancel _ _ (W * ((1 - ed_d * (x1 * x2 * y1 * y2)) * (1 - ed_d * (x1 * - x2 * y1 * y2)))));
    [apply fp_mul_neq_0; [exact HW|apply fp_mul_neq_0; [exact D1|exact D2]]|].
  clear H1 H2 H3 HW. clearbody W k. revert S1 S2 D1 D2. generalize ed_d as dd. clearbody x1 x2 y1 y2.
  intros dd S1 S2 D1 D2.
  transitivity (W * ((1 - dd * (x1 * x2 * y1 * y2) + m + x1 * x2) * (1 + dd * (x1 * x2 * y1 * y2) + m - x1 * x2))
    * ((y1 - y2) * (y1 - y2))); [unfold m; field; split; assumption|].
  rewrite S1. transitivity (k * ((y1 - y2) * (y1 - y2)) * ((y1 + y2) * (y1 + y2))); [ring|].
  rewrite <- S2. unfold m. field. split; assumption.
Qed.

(** Neither neutral nor of order two. *)
Definition proper (D : point) : Prop := 1 - py D ≠ 0 ∧ 1 + py D ≠ 0.

Lemma both_zero : y1 = 0 → y2 = 0 → ¬ proper (padd P (popp Q)).
Proof.
  intros E1 E2 [Hm Hp]. pose proof (point_on P) as H1. pose proof (point_on Q) as H2. unfold on_curve in H1, H2.
  fold x1 y1 in H1. fold x2 y2 in H2. rewrite E1 in H1. rewrite E2 in H2.
  apply (fp_mul_neq_0 _ _ Hm Hp). cbn [padd popp px py]. unfold add_y. fold x1 x2 y1 y2. rewrite E1, E2. unfold delta.
  replace (x1 * - x2 * 0 * 0) with 0 by ring.
  transitivity (1 - (x1 * x1) * (x2 * x2)); [field; intros E; apply f1_neq_0; rewrite <- E; ring|].
  transitivity (1 - (0 * 0 - (0 * 0 - x1 * x1)) * (0 * 0 - (0 * 0 - x2 * x2))); [ring|]. rewrite H1, H2. ring.
Qed.

Lemma xadd_ok c e q : mrep c P → mrep e Q → proper (padd P (popp Q)) → F q = mont_u (padd P (popp Q)) →
  mrep (xadd q c e) (padd P Q).
Proof.
  intros (s & Hs & EX & EZ) (r & Hr & EX' & EZ') HD Eq. pose proof HD as [Hm Hp]. pose proof f2_neq_0 as H2.
  assert (F 16 * (s * s * (r * r)) ≠ 0) as H16.
  { repeat apply fp_mul_neq_0; try assumption. apply F_nonzero. vm_compute. discriminate. }
  assert (F (xadd q c e).1 = F 16 * (s * s * (r * r)) * ((y1 + y2) * (y1 + y2))) as E1.
  { unfold xadd. cbn [fst snd]. push_F. rewrite EX, EZ, EX', EZ'.
    unfold y1, y2. ring. }
  assert (F (xadd q c e).2 = F 16 * (s * s * (r * r)) * ((y1 - y2) * (y1 - y2)) * mont_u (padd P (popp Q))) as E2.
  { unfold xadd. cbn [fst snd]. push_F. rewrite EX, EZ, EX', EZ', Eq.
    unfold y1, y2. ring. }
  apply mrep_cross; rewrite E1, E2; clear E1 E2 Eq EX EZ EX' EZ'; pose proof differential as Hdiff;
    unfold mont_u; set (yD := py (padd P (popp Q))) in *; set (y3 := py (padd P Q)) in *.
  - apply (fp_mul_cancel _ _ (1 - yD)); [done|].
    transitivity (F 16 * (s * s * (r * r)) * ((1 - y3) * (1 - yD) * ((y1 + y2) * (y1 + y2)))); [ring|].
    rewrite <- Hdiff. field. done.
  - intros [Z1 Z2]. apply fp_mul_0 in Z1 as [Z1|Z1]; [done|]. apply fp_mul_0 in Z2 as [Z2|Z2].
    + apply fp_mul_0 in Z2 as [Z2|Z2]; [done|].
      assert (y1 + y2 = 0) as A by (apply fp_mul_0 in Z1 as [Z1|Z1]; exact Z1).
      assert (y1 - y2 = 0) as C by (apply fp_mul_0 in Z2 as [Z2|Z2]; exact Z2).
      apply both_zero; [..|exact HD]; apply (fp_mul_cancel _ _ (F 2)); try exact H2.
      * transitivity ((y1 + y2) + (y1 - y2)); [ring|]. rewrite A, C. ring.
      * transitivity ((y1 + y2) - (y1 - y2)); [ring|]. rewrite A, C. ring.
    + apply fp_mul_0 in Z2 as [Z2|Z2]; [done|]. apply f1_neq_0. transitivity (fp_inv (1 - yD) * (1 - yD)); [|rewrite Z2; ring].
      field. done.
Qed.
End Differential.

(** * The ladder *)

Lemma mont_u_opp P : mont_u (popp P) = mont_u P.
Proof. done. Qed.
Lemma mrep_start : mrep (1%Z, 0%Z) pzero.
Proof.
  apply mrep_cross; cbn [fst snd pzero py]; rewrite F_0, F_1; [ring|]. intros [E _]. by apply f1_neq_0.
Qed.
Lemma mrep_affine q P : 1 - py P ≠ 0 → F q = mont_u P → mrep (q, 1%Z) P.
Proof.
  intros Hm Eq. apply mrep_cross; cbn [fst snd]; rewrite F_1, ?Eq.
  - unfold mont_u. field. exact Hm.
  - intros [_ E]. by apply f1_neq_0.
Qed.

Section Ladder.
Context (Q : point) (q : Z) (HQ : proper Q) (Eq : F q = mont_u Q).

Lemma ladder_step_ok R n (b : bool) : mrep R.1 (smul n Q) → mrep R.2 (smul (n + 1) Q) →
  let n' := (2 * n + Z.b2z b)%Z in
  mrep (ladder_step q R b).1 (smul n' Q) ∧ mrep (ladder_step q R b).2 (smul (n' + 1) Q).
Proof using All.
  intros H1 H2 n'. unfold ladder_step.
  assert (padd (smul n Q) (popp (smul (n + 1) Q)) = popp Q) as D1.
  { rewrite <- smul_sub. replace (n - (n + 1))%Z with (- (1))%Z by lia. by rewrite smul_opp, smul_1. }
  assert (padd (smul (n + 1) Q) (popp (smul n Q)) = Q) as D2.
  { rewrite <- smul_sub. replace (n + 1 - n)%Z with 1%Z by lia. apply smul_1. }
  destruct b; cbn [fst snd Z.b2z] in n' |- *; unfold n'; split.
  - replace (2 * n + 1)%Z with ((n + 1) + n)%Z by lia. rewrite smul_add. apply xadd_ok; try assumption; by rewrite D2.
  - replace (2 * n + 1 + 1)%Z with ((n + 1) + (n + 1))%Z by lia. rewrite smul_add. by apply xdbl_ok.
  - replace (2 * n + 0)%Z with (n + n)%Z by lia. rewrite smul_add. by apply xdbl_ok.
  - replace (2 * n + 0 + 1)%Z with (n + (n + 1))%Z by lia. rewrite smul_add. apply xadd_ok; try assumption; by rewrite D1.
Qed.

Lemma ladder_ok m k R n : mrep R.1 (smul n Q) → mrep R.2 (smul (n + 1) Q) →
  mrep (foldl (ladder_step q) R (bits_of m k)).1 (smul (n * 2 ^ Z.of_nat m + k `mod` 2 ^ Z.of_nat m) Q).
Proof using All.
  revert R n. induction m as [|m IH]; intros R n H1 H2; cbn [bits_of foldl].
  - change (2 ^ Z.of_nat 0)%Z with 1%Z. rewrite Z.mod_1_r. by replace (n * 1 + 0)%Z with n by lia.
  - destruct (ladder_step_ok R n (Z.testbit k (Z.of_nat m)) H1 H2) as [H1' H2'].
    specialize (IH _ _ H1' H2').
    replace (n * 2 ^ Z.of_nat (S m) + k `mod` 2 ^ Z.of_nat (S m))%Z
      with ((2 * n + Z.b2z (Z.testbit k (Z.of_nat m))) * 2 ^ Z.of_nat m + k `mod` 2 ^ Z.of_nat m)%Z; [done|].
    rewrite Nat2Z.inj_succ, Z.pow_succ_r, (Z.mul_comm 2 (2 ^ _)), Z.rem_mul_r by lia.
    rewrite Z.testbit_spec' by lia. lia.
Qed.
End Ladder.

(** With the coordinate zero the ladder stays at zero. *)
Lemma ladder_zero l R q : F q = 0 → F R.1.2 = 0 → F R.2.2 = 0 ∨ F R.2.1 = 0 →
  F (foldl (ladder_step q) R l).1.2 = 0.
Proof.
  intros Hq. revert R. induction l as [|b l IH]; intros R H1 H2; [done|]. cbn [foldl].
  assert (∀ c, F c.2 = 0 ∨ F c.1 = 0 → F (xdbl c).2 = 0) as Hdbl.
  { intros c [E|E]; unfold xdbl; cbn [fst snd]; push_F; rewrite E; ring. }
  assert (∀ c e, F (xadd q c e).2 = 0) as Hadd.
  { intros c e. unfold xadd. cbn [fst snd]. push_F. rewrite Hq. ring. }
  unfold ladder_step at 2. destruct b; apply IH; cbn [fst snd]; try apply Hadd; try left; try apply Hadd.
  - by apply Hdbl.
  - apply Hdbl. by left.
Qed.

(** * X25519 *)

Lemma x25519_val k u : x25519 k u = fval (F (x25519 k u)).
Proof. unfold x25519, ftimes. cbv zeta. by rewrite fval_F, Z.mod_mod. Qed.
Lemma x25519_field k u : (0 <= u < 2 ^ 255)%Z →
  let R := foldl (ladder_step u) ((1, 0), (u, 1))%Z (bits_of 256 k) in
  F (x25519 k u) = F R.1.1 * fp_inv (F R.1.2).
Proof.
  intros Hu R. unfold x25519. rewrite (Z.mod_small u) by done. cbv zeta. fold R. rewrite F_ftimes, F_fpow.
  by rewrite <- fp_pow_inv.
Qed.

Lemma x25519_proper k Q : proper Q →
  x25519 k (fval (mont_u Q)) = fval (mont_u (smul (k `mod` 2 ^ 256) Q)).
Proof.
  intros HQ. rewrite x25519_val. f_equal. rewrite x25519_field by apply fval_le255. cbv zeta.
  apply mrep_value. change (k `mod` 2 ^ 256)%Z with (0 * 2 ^ Z.of_nat 256 + k `mod` 2 ^ Z.of_nat 256)%Z.
  apply (ladder_ok Q _ HQ (F_val _)); cbn [fst snd].
  - apply mrep_start.
  - rewrite Z.add_0_l, smul_1. apply mrep_affine; [apply HQ|apply F_val].
Qed.
Lemma x25519_zero k : x25519 k 0 = 0%Z.
Proof.
  rewrite x25519_val, x25519_field by done. cbv zeta. rewrite ladder_zero; cbn [fst snd].
  - rewrite fp_inv_0. transitivity (fval (F 0)); [f_equal; rewrite F_0; ring|]. by rewrite fval_F.
  - apply F_0.
  - apply F_0.
  - right. apply F_0.
Qed.

(** The multiples of the base point have odd order. *)
Lemma base_multiple_proper b : smul b B = pzero ∨ proper (smul b B).
Proof.
  destruct (decide (smul b B = pzero)) as [|Hz]; [by left|right]. split; intros E.
  - apply Hz, y_one. rewrite fp_sub_eq_0 in E. done.
  - assert (py (smul b B) = F (-1)) as Ey.
    { transitivity ((1 + py (smul b B)) - 1); [ring|]. rewrite E. ring. }
    assert (smul (2 * b) B = pzero) as E2.
    { rewrite smul_mul, smul_2. set (P := smul b B) in *.
      assert (px P = 0) as Ex.
      { pose proof (point_on P) as H. apply on_curve_root in H. rewrite Ey in H.
        destruct (decide (px P = 0)) as [|Hx]; [assumption|exfalso].
        apply (fp_mul_neq_0 (ed_d * (F (-1) * F (-1)) + 1) (px P * px P));
          [apply curve_denominator|by apply fp_mul_neq_0|]. rewrite H. ring. }
      replace P with (popp P) at 2; [apply padd_opp|]. apply point_eq; [|done]. cbn [popp px]. rewrite Ex. ring. }
    apply smul_zero_divide in E2. apply Hz.
    assert (base_order | b)%Z as [c ->].
    { apply (Znumtheory.Gauss _ 2); [done|]. apply Znumtheory.Zgcd_1_rel_prime. vm_compute. reflexivity. }
    rewrite smul_mul, base_order_zero. apply smul_zero.
Qed.
Lemma mont_u_zero : mont_u pzero = 0.
Proof. unfold mont_u. cbn [pzero py]. replace (1 - 1) with 0 by ring. rewrite fp_inv_0. ring. Qed.
Lemma x25519_multiple k b : x25519 k (fval (mont_u (smul b B))) = fval (mont_u (smul (k `mod` 2 ^ 256) (smul b B))).
Proof.
  destruct (base_multiple_proper b) as [E|E]; [|by apply x25519_proper].
  rewrite E, smul_zero, mont_u_zero, <- F_0, fval_F. apply x25519_zero.
Qed.
Lemma mont_u_base : mont_u B = F 9.
Proof.
  destruct base_is_four_fifths as [E _]. unfold mont_u.
  assert (1 - py B ≠ 0) as H.
  { intros H. apply f1_neq_0. transitivity (F 5 * (1 - py B)); [|rewrite H; ring].
    transitivity (F 5 - F 5 * py B); [rewrite E|]; ring. }
  apply (fp_mul_cancel _ _ (1 - py B)); [exact H|]. transitivity (1 + py B); [field; exact H|].
  transitivity (F 9 - F 2 * (F 5 * py B) + py B * (F 10 - F 9) - F 8 + F 8); [rewrite E|]; ring.
Qed.
(** X25519 on its base point is multiplication of the base point of Edwards. *)
Lemma x25519_base k : x25519 k 9 = fval (mont_u (smul (k `mod` 2 ^ 256) B)).
Proof.
  change 9%Z with (9 `mod` p25519)%Z at 1. rewrite <- fval_F, <- mont_u_base, <- (smul_1 B) at 1.
  rewrite x25519_multiple. by rewrite smul_1.
Qed.
