(* ===== verification/CurveLink.v ===== *)
(** The interfaces of Provider, discharged by the modelled curve25519/.

    [DonnaLink] reduces Diffie-Hellman to the commutation of X25519 on its base point;
    here that is a theorem, and so is the law of signatures.  What the rest of the
    library assumes of the curve, the code under curve25519/ provides. *)

From S2P Require Import Prelude Provider Curve Limbs Donna DonnaField DonnaBytes DonnaLadder DonnaLink Scalar ScalarSpec.
From S2P Require Import Prime Field25519 Edwards GeSpec GeTable Ge XEd XEdSpec XEdSign Montgomery.

(** * Diffie-Hellman *)

#[export] Instance x25519_commutes : X25519Commutes.
Proof. intros a b. rewrite !x25519_base, !x25519_multiple. do 2 f_equal. apply smul_comm. Qed.

(** The fixed-base multiplication of the Ed25519 code and the ladder make the same
    public key. *)
Lemma keygen_is_donna sk : wf_bytes sk → length sk = 32%nat → le_value sk < 2 ^ 255 →
  Ge.curve25519_keygen sk = Some (x25519_bytes sk basepoint).
Proof.
  intros Hs Ls Vs. rewrite keygen_ok by done. unfold x25519_bytes. change (le_value basepoint) with 9.
  rewrite x25519_base, Z.mod_small; [done|]. pose proof (le_value_range sk Hs). lia.
Qed.

(** * Clamped keys *)

Lemma clamped_bytes sk : clamped sk → wf_bytes sk ∧ length sk = 32%nat.
Proof. by intros (Hl & Hw & _). Qed.
Lemma top_bits b : is_byte b → Z.testbit b 6 = true → Z.testbit b 7 = false → 64 <= b < 128.
Proof.
  intros Hb. apply (byte_forall (λ b, implb (Z.testbit b 6 && negb (Z.testbit b 7)) ((64 <=? b) && (b <? 128)))) in Hb;
    [|by vm_compute]. intros H6 H7. rewrite H6, H7 in Hb. cbn in Hb. lia.
Qed.
Lemma clamped_value sk : clamped sk → 2 ^ 254 <= le_value sk < 2 ^ 255 ∧ le_value sk `mod` 8 = 0.
Proof.
  intros (Hl & Hw & b0 & b31 & E0 & E31 & Hlow & H6 & H7).
  destruct (top_byte sk Hw Hl) as [E Hb]. rewrite E31 in E. injection E as E. rewrite <- E in Hb.
  pose proof (top_bits b31 Hb H6 H7) as Hr. split.
  - pose proof (Z_div_mod_eq_full (le_value sk) (2 ^ 248)).
    pose proof (Z.mod_pos_bound (le_value sk) (2 ^ 248) ltac:(lia)). lia.
  - destruct sk as [|b sk]; [done|]. injection E0 as ->. cbn [le_value].
    replace (b0 + 256 * le_value sk) with (b0 + 32 * le_value sk * 8) by lia. rewrite Z.mod_add by done.
    change 7 with (Z.ones 3) in Hlow. by rewrite Z.land_ones in Hlow.
Qed.
(** No clamped key is a multiple of the order: its public key is not the neutral point. *)
Lemma clamped_order sk : clamped sk → ¬ (group_order | le_value sk).
Proof.
  intros Hc [c E]. destruct (clamped_value sk Hc) as [Hr Hm]. pose proof group_order_range as Ho.
  assert (8 | c) as [e ->].
  { apply (Znumtheory.Gauss _ group_order); [|apply Znumtheory.Zgcd_1_rel_prime; by vm_compute].
    rewrite Z.mul_comm, <- E. by apply Z.mod_divide. }
  rewrite E in Hr. assert (0 < e) by nia. nia.
Qed.

(** * Signatures *)

Section Sign.
Context (al a1 a2 : alloc) (Hal : granted al = true) (H1 : granted a1 = true) (H2 : granted a2 = true).

(** The C functions take pointers to bytes; lists that are no byte arrays, or too long
    for a buffer, stand for no call. *)
Definition is_bytes (n : nat) (s : bytes) : bool :=
  (length s =? n)%nat && forallb (λ b, (0 <=? b) && (b <? 256)) s.
Definition is_buffer (m : bytes) : bool := (zlen m <? 2 ^ 63) && is_bytes (length m) m.
Definition signs (sk msg random : bytes) : Z * bytes :=
  if is_bytes 32 sk && is_buffer msg then
    default (-1, []) (curve25519_sign al sk msg (if is_bytes 64 random then random else replicate 64 0))
  else (0, replicate 64 0).
Definition verifies (sig pk msg : bytes) : Z :=
  if is_buffer msg then default (-1) (curve25519_verify a1 a2 sig pk msg) else 0.

Lemma is_bytes_spec n s : is_bytes n s = true ↔ length s = n ∧ wf_bytes s.
Proof.
  unfold is_bytes. rewrite andb_true_iff, Nat.eqb_eq, forallb_forall. unfold wf_bytes. rewrite Forall_forall.
  split; intros [L H]; (split; [done|]); intros b Hb; [apply list_elem_of_In in Hb|apply list_elem_of_In in Hb];
    specialize (H b Hb); unfold is_byte in *; lia.
Qed.
Lemma is_buffer_spec m : is_buffer m = true → wf_bytes m ∧ zlen m < 2 ^ 64 - 128.
Proof.
  unfold is_buffer. rewrite andb_true_iff, Z.ltb_lt, is_bytes_spec. intros (L & _ & H). split; [done|lia].
Qed.

Lemma signs_verifies sk msg random : clamped sk →
  ∃ sig, signs sk msg random = (0, sig) ∧ length sig = 64%nat ∧ verifies sig (x25519_bytes sk basepoint) msg = 0.
Proof using Hal H1 H2.
  intros Hc. destruct (clamped_bytes sk Hc) as [Hw Hl]. destruct (clamped_value sk Hc) as [Hr _].
  unfold signs, verifies. rewrite (proj2 (is_bytes_spec 32 sk)) by done. cbn [andb].
  destruct (is_buffer msg) eqn:Eb; [|exists (replicate 64 0); done].
  destruct (is_buffer_spec msg Eb) as [Hm Lm].
  assert (∃ rnd, (if is_bytes 64 random then random else replicate 64 0) = rnd ∧ wf_bytes rnd ∧ length rnd = 64%nat)
    as (rnd & -> & Wr & Lr).
  { eexists. split; [reflexivity|]. destruct (is_bytes 64 random) eqn:E; [by apply is_bytes_spec in E as [? ?]|].
    split; [apply wf_zeros|apply length_replicate]. }
  destruct (curve25519_roundtrip sk msg rnd Hw Hl ltac:(lia) Hm Lm Wr Lr al a1 a2 Hal H1 H2 (clamped_order sk Hc))
    as (sig & -> & Ls & Ev).
  exists sig. split; [done|]. split; [done|].
  assert (x25519_bytes sk basepoint = le_bytes 32 (fval (mont_u (smul (le_value sk) B)))) as ->.
  { unfold x25519_bytes. change (le_value basepoint) with 9. rewrite x25519_base, Z.mod_small; [done|lia]. }
  by rewrite Ev.
Qed.

#[export] Instance xed_sign_laws : SignLaws (donna_curve signs verifies) (donna_laws signs verifies).
Proof using Hal H1 H2.
  constructor.
  - intros sk msg rnd Hc. destruct (signs_verifies sk msg rnd Hc) as (sig & E & L & _). by exists sig.
  - intros sk msg rnd sig Hc Hs. destruct (signs_verifies sk msg rnd Hc) as (sig' & E & _ & Ev).
    change (signs sk msg rnd = (0, sig)) in Hs. rewrite E in Hs. injection Hs as <-. exact Ev.
Qed.
End Sign.

(** * The library on its curve *)

(** Curve25519-donna.c computes a Diffie-Hellman agreement: for all private keys of 32
    bytes both sides get the same 32 bytes, and [curve25519_keygen] of the Ed25519 code
    makes the same public key. *)
Theorem donna_agreement (a b : bytes) :
  wf_bytes a → length a = 32%nat → wf_bytes b → length b = 32%nat →
  ∃ A C k, Donna.curve25519_donna a basepoint = Some (0, A) ∧ Donna.curve25519_donna b basepoint = Some (0, C) ∧
    Donna.curve25519_donna a C = Some (0, k) ∧ Donna.curve25519_donna b A = Some (0, k) ∧ length k = 32%nat ∧
    (le_value a < 2 ^ 255 → Ge.curve25519_keygen a = Some A).
Proof.
  intros Ha La Hb Lb. assert (wf_bytes basepoint) as Hp by (by repeat constructor).
  exists (x25519_bytes a basepoint), (x25519_bytes b basepoint), (x25519_bytes a (x25519_bytes b basepoint)).
  unfold x25519_bytes. rewrite !curve25519_donna_runs by (done || apply wf_le_bytes || apply length_le_bytes).
  do 3 (split; [reflexivity|]). split; [|split; [apply length_le_bytes|intros Va; by apply keygen_is_donna]].
  rewrite !le_value_bytes, !(Z.mod_small (x25519 _ _)) by apply x25519_range.
  change (le_value basepoint) with 9. by rewrite (x25519_comm (le_value a)).
Qed.

Lemma donna_agreement_witness :
  ∃ A C k, Donna.curve25519_donna (replicate 32 5) basepoint = Some (0, A) ∧
    Donna.curve25519_donna (replicate 32 7) basepoint = Some (0, C) ∧
    Donna.curve25519_donna (replicate 32 5) C = Some (0, k) ∧ Donna.curve25519_donna (replicate 32 7) A = Some (0, k).
Proof.
  destruct (donna_agreement (replicate 32 5) (replicate 32 7)) as (A & C & k & H1 & H2 & H3 & H4 & _);
    [by repeat constructor|reflexivity|by repeat constructor|reflexivity|].
  exists A, C, k. split_and!; assumption.
Defined.

(** C10: for every 255-bit private key that is no multiple of the group order, every message
    and all random bytes, [curve25519_verify] accepts what [curve25519_sign] writes, under
    the public key that [curve25519_donna] makes of the private key. *)
Theorem curve25519_signature_verifies (al a1 a2 : alloc) (priv msg random : bytes) :
  granted al = true → granted a1 = true → granted a2 = true →
  wf_bytes priv → length priv = 32%nat → le_value priv < 2 ^ 255 → le_value priv `mod` group_order ≠ 0 →
  wf_bytes msg → zlen msg < 2 ^ 64 - 128 → wf_bytes random → length random = 64%nat →
  ∃ sig pub, Donna.curve25519_donna priv basepoint = Some (0, pub) ∧
    curve25519_sign al priv msg random = Some (0, sig) ∧ length sig = 64%nat ∧
    curve25519_verify a1 a2 sig pub msg = Some 0.
Proof.
  intros Hal E1 E2 Hk Lk Vk Hnz Hm Lm Hr Lr. assert (wf_bytes basepoint) as Hp by (by repeat constructor).
  destruct (curve25519_roundtrip priv msg random Hk Lk Vk Hm Lm Hr Lr al a1 a2 Hal E1 E2 (indivisible _ Hnz))
    as (sig & Es & Ls & Ev).
  exists sig, (le_bytes 32 (fval (mont_u (smul (le_value priv) B)))). split; [|done].
  rewrite curve25519_donna_runs by done. change (le_value basepoint) with 9.
  pose proof (le_value_range priv Hk). rewrite x25519_base, Z.mod_small; [done|lia].
Qed.

Lemma curve25519_signature_verifies_witness :
  let a := Alloc true (λ _, 0) in let priv := 8 :: replicate 30 7 ++ [64] in
  ∃ sig pub, Donna.curve25519_donna priv basepoint = Some (0, pub) ∧
    curve25519_sign a priv [1; 2; 3] (replicate 64 5) = Some (0, sig) ∧ length sig = 64%nat ∧
    curve25519_verify a a sig pub [1; 2; 3] = Some 0.
Proof.
  apply (curve25519_signature_verifies (Alloc true (λ _, 0)) (Alloc true (λ _, 0)) (Alloc true (λ _, 0))
    (8 :: replicate 30 7 ++ [64]) [1; 2; 3] (replicate 64 5));
    try (vm_compute; (reflexivity || discriminate)); by repeat constructor.
Defined.

(** C11: curve.c on the modelled curve25519/: whatever the random source, a generated key
    pair signs every message so that its public key verifies the signature, and two
    generated pairs agree on a secret, with nothing assumed of the curve. *)
Theorem library_keys_work {U} {CP : CryptoProvider U} {RL : RandomLaws CP} (al a1 a2 : alloc)
    (u u1 u2 : U) (msg : bytes) :
  granted al = true → granted a1 = true → granted a2 = true →
  let C := donna_curve (signs al) (verifies a1 a2) in
  ∃ p q u' u1', curve_generate_key_pair (calm u) = (Ok p, calm u') ∧
    curve_generate_key_pair (calm u1) = (Ok q, calm u1') ∧
    (∃ sig u2', curve_calculate_signature (kp_private p) msg (calm u2) = (Ok sig, calm u2') ∧
      length sig = 64%nat ∧ ∀ w : world U, curve_verify_signature (kp_public p) msg sig w = (Ok 1, w)) ∧
    ∃ secret, length secret = 32%nat ∧
      curve_calculate_agreement (Some (kp_public q)) (Some (kp_private p)) (calm u) = (Ok secret, calm u) ∧
      curve_calculate_agreement (Some (kp_public p)) (Some (kp_private q)) (calm u1) = (Ok secret, calm u1).
Proof.
  intros Hal E1 E2 C. pose (xed_sign_laws al a1 a2 Hal E1 E2) as SL.
  destruct (curve_generate_key_pair_calm (C := C) u) as (bs & u' & Hr & Hl & Hg).
  destruct (curve_generate_key_pair_calm (C := C) u1) as (bs1 & u1' & Hr1 & Hl1 & Hg1).
  eexists _, _, u', u1'. split; [exact Hg|]. split; [exact Hg1|]. split.
  - apply (signature_verifies (SL := SL)), pair_of_signs; [done|by eapply random_wf].
  - eexists. split; [|split; [apply curve_calculate_agreement_calm|]]; [apply dh_length|].
    rewrite curve_calculate_agreement_calm. do 2 f_equal.
    apply agreement_comm; by apply pair_of_wf.
Qed.

Lemma library_keys_work_witness :
  let a := Alloc true (λ _, 0) in let C := donna_curve (signs a) (verifies a a) in
  ∃ p q u' u1', curve_generate_key_pair (CP := Toy.provider) (calm 7) = (Ok p, calm u') ∧
    curve_generate_key_pair (CP := Toy.provider) (calm 8) = (Ok q, calm u1').
Proof.
  destruct (library_keys_work (RL := Toy.random_laws) (Alloc true (λ _, 0)) (Alloc true (λ _, 0)) (Alloc true (λ _, 0))
    7 8 9 [1; 2] eq_refl eq_refl eq_refl) as (p & q & u' & u1' & H1 & H2 & _).
  exists p, q, u', u1'. split; assumption.
Defined.
