(* ===== verification/Labels.v ===== *)
(** Label sets and buffer filling: additions/generalized/gen_labelset.c.

    A pointer into a buffer is its offset, [None] the null pointer; the buffer is
    passed along and returned with what was written.  [None] around a result is an
    access outside an array.  Lengths passed as [unsigned char] are cut to a byte. *)

From S2P Require Import Prelude Limbs.

Definition LABELSETMAXLEN : nat := 512.
Definition LABELMAXLEN : nat := 128.
Definition BUFLEN : nat := 1024.
Definition BLOCKLEN : nat := 128.
Definition HASHLEN : nat := 64.
Definition POINTLEN : nat := 32.
Definition SCALARLEN : nat := 32.
Definition RANDLEN : nat := 32.
Definition SIGNATURELEN : nat := 64.
Definition VRFSIGNATURELEN : nat := 96.
Definition VRFOUTPUTLEN : nat := 32.
Definition MSTART : nat := 2048.
Definition MSGMAXLEN : Z := 1048576.

Definition B_bytes : bytes := 0x58 :: replicate 31 0x66.

(** * Buffers *)

(** [for (count = 0; count < in_len; count++)]: the pointer, or null. *)
Fixpoint buffer_copy (buf : bytes) (bufptr bufend : nat) (inp : bytes) (count n : nat)
    : option (bytes * option nat) :=
  match n with
  | O => Some (buf, Some bufptr)
  | S n =>
    if (bufend <=? bufptr)%nat then Some (buf, None) else
    x ← inp !! count;
    _ ← buf !! bufptr;
    buffer_copy (<[bufptr := x]> buf) (bufptr + 1) bufend inp (count + 1) n
  end.
Definition buffer_add (buf : bytes) (bufptr : option nat) (bufend : nat) (inp : option bytes) (in_len : nat)
    : option (bytes * option nat) :=
  match bufptr with
  | None => Some (buf, None)
  | Some p =>
    if (bufend <? p)%nat then Some (buf, None) else
    match inp with
    | None => if (in_len =? 0)%nat then Some (buf, Some p) else Some (buf, None)
    | Some i => if (bufend - p <? in_len)%nat then Some (buf, None) else buffer_copy buf p bufend i 0 in_len
    end
  end.
Fixpoint buffer_zeros (buf : bytes) (bufptr bufend n : nat) : option (bytes * option nat) :=
  match n with
  | O => Some (buf, Some bufptr)
  | S n =>
    if (bufend <=? bufptr)%nat then Some (buf, None) else
    _ ← buf !! bufptr;
    buffer_zeros (<[bufptr := 0]> buf) (bufptr + 1) bufend n
  end.
Definition buffer_pad (buf : bytes) (start : nat) (bufptr : option nat) (bufend : nat)
    : option (bytes * option nat) :=
  match bufptr with
  | None => Some (buf, None)
  | Some p =>
    if (bufend <=? p)%nat || (p <? start)%nat then Some (buf, None) else
    let pad_len := ((BLOCKLEN - (p - start) mod BLOCKLEN) mod BLOCKLEN)%nat in
    if (bufend - p <? pad_len)%nat then Some (buf, None) else buffer_zeros buf p bufend pad_len
  end.

(** * Label sets *)

(** The result, the array and [*labelset_len]. *)
Definition labelset_new (labelset : bytes) (labelset_maxlen : nat) (protocol_name : option bytes) (protocol_name_len : Z)
    (customization_label : option bytes) (customization_label_len : Z) : option (Z * bytes * nat) :=
  let pl := Z.to_nat (u8 protocol_name_len) in
  let cl := Z.to_nat (u8 customization_label_len) in
  let failed l := Some (-1, l, 0%nat) in
  if (LABELSETMAXLEN <? labelset_maxlen)%nat then failed labelset else
  if (labelset_maxlen <? 3 + pl + cl)%nat then failed labelset else
  if bool_decide (protocol_name = None) && negb (pl =? 0)%nat then failed labelset else
  if bool_decide (customization_label = None) && negb (cl =? 0)%nat then failed labelset else
  if (LABELMAXLEN <? pl)%nat then failed labelset else
  if (LABELMAXLEN <? cl)%nat then failed labelset else
  _ ← labelset !! 1%nat;
  let labelset := <[1%nat := Z.of_nat pl]> (<[0%nat := 2]> labelset) in
  r ← buffer_add labelset (Some 2%nat) labelset_maxlen protocol_name pl;
  let '(labelset, bufptr) := r : bytes * option nat in
  r ← (match bufptr with
       | Some p =>
         if (p <? labelset_maxlen)%nat then
           _ ← labelset !! p; Some (<[p := Z.of_nat cl]> labelset, Some (p + 1)%nat)
         else Some (labelset, Some p)
       | None => Some (labelset, None)
       end);
  let '(labelset, bufptr) := r : bytes * option nat in
  r ← buffer_add labelset bufptr labelset_maxlen customization_label cl;
  let '(labelset, bufptr) := r : bytes * option nat in
  match bufptr with
  | Some p => if (p =? 3 + pl + cl)%nat then Some (0, labelset, p) else failed labelset
  | None => failed labelset
  end.

Definition labelset_add (labelset : bytes) (labelset_len labelset_maxlen : nat) (label : bytes) (label_len : Z)
    : option (Z * bytes * nat) :=
  let n := Z.to_nat (u8 label_len) in
  let failed l := Some (-1, l, labelset_len) in
  if (LABELSETMAXLEN <? labelset_len)%nat || (LABELSETMAXLEN <? labelset_maxlen)%nat then failed labelset else
  if (labelset_maxlen <=? labelset_len)%nat || (labelset_maxlen <? labelset_len + n + 1)%nat then failed labelset else
  if (labelset_len <? 3)%nat || (labelset_maxlen <? 4)%nat then failed labelset else
  if (LABELMAXLEN <? n)%nat then failed labelset else
  x ← labelset !! 0%nat;
  let labelset := <[0%nat := u8 (x + 1)]> labelset in
  _ ← labelset !! labelset_len;
  let labelset := <[labelset_len := Z.of_nat n]> labelset in
  r ← buffer_add labelset (Some (labelset_len + 1)%nat) labelset_maxlen (Some label) n;
  let '(labelset, bufptr) := r : bytes * option nat in
  match bufptr with
  | None => failed labelset
  | Some p =>
    if (labelset_maxlen <=? p)%nat then failed labelset else
    if negb (p =? labelset_len + 1 + n)%nat then failed labelset else
    Some (0, labelset, (labelset_len + (1 + n))%nat)
  end.

(** The loop over the labels; the offset behind them, or [-1]. *)
Fixpoint validate_labels (labelset : bytes) (labelset_len offset n : nat) : option (option nat) :=
  match n with
  | O => Some (Some offset)
  | S n =>
    x ← labelset !! offset;
    let label_len := Z.to_nat x in
    if (LABELMAXLEN <? label_len)%nat then Some None else
    let offset := (offset + (1 + label_len))%nat in
    if (labelset_len <? offset)%nat then Some None else validate_labels labelset labelset_len offset n
  end.
Definition labelset_validate (labelset : bytes) (labelset_len : nat) : option Z :=
  if (labelset_len <? 3)%nat || (LABELSETMAXLEN <? labelset_len)%nat then Some (-1) else
  num_labels ← labelset !! 0%nat;
  r ← validate_labels labelset labelset_len 1 (Z.to_nat num_labels);
  Some (match r with Some offset => if (offset =? labelset_len)%nat then 0 else -1 | None => -1 end).
Definition labelset_is_empty (labelset_len : nat) : bool := (labelset_len =? 3)%nat.
