(* ===== verification/GenEd.v ===== *)
(** Generalized EdDSA and its VRF variant: gen_eddsa.c, gen_veddsa.c, gen_x.c and
    point_isreduced.c of additions/generalized/.

    Arguments the code compares with null are options.  A function that returns [-1]
    gives [None] for what it would have written; the message buffer is returned either
    way. *)

From S2P Require Import Prelude Limbs Donna Scalar Fe GeBase Ge Sha512 XEd Labels.
Import Fe Ge.

Definition point_isreduced (p : bytes) : option bool :=
  strict ← mem_read p 0 32;
  strict ← on_byte (λ x, Z.land x 0x7F) 31 strict;
  r ← fe_isreduced strict;
  Some (negb (r =? 0)).

(** * gen_eddsa.c *)

(** [extra] and its length: null means no bytes, and bytes need a label set. *)
Definition bad_extra (labelset_len : nat) (extra : option bytes) : bool :=
  match extra with
  | None => false
  | Some e => (length e =? 0)%nat || labelset_is_empty labelset_len
  end.
Definition extra_len (extra : option bytes) : nat := match extra with None => 0%nat | Some e => length e end.

Definition pad_to_block (n : nat) : nat := (n + (BLOCKLEN - n mod BLOCKLEN) mod BLOCKLEN)%nat.
Definition commit_prefix_len (labelset_len extra_len : nat) : nat :=
  (pad_to_block (pad_to_block (POINTLEN + labelset_len + RANDLEN) + SCALARLEN) +
    (labelset_len + POINTLEN + extra_len))%nat.

(** [bufptr = buffer_add(bufptr, bufend, in, in_len)] for each input in turn. *)
Fixpoint buffer_adds (buf : bytes) (bufptr : option nat) (bufend : nat) (inputs : list (option bytes))
    : option (bytes * option nat) :=
  match inputs with
  | [] => Some (buf, bufptr)
  | inp :: inputs =>
    r ← buffer_add buf bufptr bufend inp (extra_len inp);
    buffer_adds r.1 r.2 bufend inputs
  end.

(** [R] and [r], and the buffer. *)
Definition generalized_commit (labelset : bytes) (labelset_len : nat) (extra : option bytes)
    (K_bytes k_scalar : bytes) (Z : option bytes) (M_buf : bytes) (M_start M_len : nat)
    : option (option (bytes * bytes) * bytes) :=
  let failed M_buf := (M ← zeroize M_buf M_start; Some (None, M)) in
  v ← labelset_validate labelset labelset_len;
  if negb (v =? 0) then failed M_buf else
  match Z with
  | None => failed M_buf
  | Some Z =>
    if bad_extra labelset_len extra then failed M_buf else
    let prefix_len := commit_prefix_len labelset_len (extra_len extra) in
    if (M_start <? prefix_len)%nat then failed M_buf else
    let bufstart := (M_start - prefix_len)%nat in
    let bufend := M_start in
    K ← mem_read K_bytes 0 POINTLEN;
    k ← mem_read k_scalar 0 SCALARLEN;
    z ← mem_read Z 0 RANDLEN;
    ls ← mem_read labelset 0 labelset_len;
    r ← buffer_adds M_buf (Some bufstart) bufend [Some B_bytes; Some ls; Some z];
    r ← buffer_pad r.1 bufstart r.2 bufend;
    r ← buffer_adds r.1 r.2 bufend [Some k];
    r ← buffer_pad r.1 bufstart r.2 bufend;
    r ← buffer_adds r.1 r.2 bufend [Some ls; Some K; extra];
    let M_buf := r.1 in
    if negb (bool_decide (r.2 = Some bufend)) then failed M_buf else
    hashed ← mem_read M_buf bufstart (prefix_len + M_len);
    hash ← crypto_hash_sha512 hashed;
    hash ← sc_reduce hash;
    R_point ← ge_scalarmult_base hash;
    R_bytes ← ge_p3_tobytes R_point;
    M_buf ← mem_write M_buf bufstart (replicate prefix_len 0);
    Some (Some (R_bytes, hash), M_buf)
  end.

(** [h], and the buffer. *)
Definition generalized_challenge (labelset : bytes) (labelset_len : nat) (extra : option bytes)
    (R_bytes K_bytes : bytes) (M_buf : bytes) (M_start M_len : nat) : option (option bytes * bytes) :=
  v ← labelset_validate labelset labelset_len;
  if negb (v =? 0) then Some (None, M_buf) else
  if bad_extra labelset_len extra then Some (None, M_buf) else
  R ← mem_read R_bytes 0 POINTLEN;
  K ← mem_read K_bytes 0 POINTLEN;
  r ← (if labelset_is_empty labelset_len then
         if (M_start <? 2 * POINTLEN)%nat then Some (M_buf, None) else
         M_buf ← mem_write M_buf (M_start - 2 * POINTLEN) R;
         M_buf ← mem_write M_buf (M_start - 1 * POINTLEN) K;
         Some (M_buf, Some (2 * POINTLEN)%nat)
       else
         let prefix_len := (3 * POINTLEN + 2 * labelset_len + extra_len extra)%nat in
         if (M_start <? prefix_len)%nat then Some (M_buf, None) else
         ls ← mem_read labelset 0 labelset_len;
         r ← buffer_adds M_buf (Some (M_start - prefix_len)%nat) M_start
               [Some B_bytes; Some ls; Some R; Some ls; Some K; extra];
         Some (r.1, if bool_decide (r.2 = Some M_start) then Some prefix_len else None));
  match r with
  | (M_buf, None) => Some (None, M_buf)
  | (M_buf, Some prefix_len) =>
    hashed ← mem_read M_buf (M_start - prefix_len) (prefix_len + M_len);
    hash ← crypto_hash_sha512 hashed;
    h ← sc_reduce hash;
    Some (Some h, M_buf)
  end.

Definition generalized_prove (r_scalar k_scalar h_scalar : bytes) : option bytes :=
  sc_muladd h_scalar k_scalar r_scalar.

(** [R] and [K]; [B_point] null is the base point. *)
Definition generalized_solve_commitment (B_point : option ge_p3) (s_scalar K_bytes h_scalar : bytes)
    : option (option (bytes * ge_p3)) :=
  Kneg ← ge_frombytes_negate_vartime K_bytes;
  match Kneg with
  | None => Some None
  | Some Kneg_point =>
    R_bytes ← (match B_point with
      | None => R ← ge_double_scalarmult_vartime h_scalar Kneg_point s_scalar; ge_tobytes R
      | Some B_point =>
        sB ← ge_scalarmult s_scalar B_point;
        hK ← ge_scalarmult h_scalar Kneg_point;
        R ← ge_p3_add sB hK;
        ge_p3_tobytes R
      end);
    K_point ← ge_neg Kneg_point;
    Some (Some (R_bytes, K_point))
  end.

(** The checks of the arguments that all four entry points share; [None] is an error. *)
Definition checked_label (label : option bytes) (label_len : Z) : bool :=
  negb (bool_decide (label = None) && negb (label_len =? 0)) && (label_len <=? Z.of_nat LABELMAXLEN).
Definition message_buffer (a : alloc) (msg : option bytes) (label : option bytes) (label_len : Z)
    : option (option (bytes * bytes)) :=
  match msg with
  | None => Some None
  | Some msg =>
    if negb (checked_label label label_len) then Some None else
    if MSGMAXLEN <? zlen msg then Some None else
    match malloc a (zlen msg + Z.of_nat MSTART) with
    | None => Some None
    | Some M_buf => M_buf ← mem_write M_buf MSTART msg; Some (Some (M_buf, msg))
    end
  end.

(** The result and [signature_out], which is cleared first. *)
Definition generalized_eddsa_25519_sign (a : alloc) (uninit : bytes) (pubkey privkey msg random label : option bytes)
    (label_len : Z) : option (Z * bytes) :=
  let failed := Some (-1, replicate SIGNATURELEN 0) in
  match pubkey, privkey with
  | Some K, Some k =>
    b ← message_buffer a msg label label_len;
    match b with
    | None => failed
    | Some (M_buf, msg) =>
      l ← labelset_new uninit LABELSETMAXLEN None 0 label label_len;
      let '(e, labelset, labelset_len) := l : Z * bytes * nat in
      if negb (e =? 0) then failed else
      c ← generalized_commit labelset labelset_len None K k random M_buf MSTART (length msg);
      match c with
      | (None, _) => failed
      | (Some (R_bytes, r_scalar), M_buf) =>
        h ← generalized_challenge labelset labelset_len None R_bytes K M_buf MSTART (length msg);
        match h with
        | (None, _) => failed
        | (Some h_scalar, _) =>
          s_scalar ← generalized_prove r_scalar k h_scalar;
          Some (0, R_bytes ++ s_scalar)
        end
      end
    end
  | _, _ => failed
  end.

Definition generalized_eddsa_25519_verify (a : alloc) (uninit : bytes) (signature pubkey msg label : option bytes)
    (label_len : Z) : option Z :=
  let failed := Some (-1) in
  match signature, pubkey with
  | Some signature, Some K =>
    b ← message_buffer a msg label label_len;
    match b with
    | None => failed
    | Some (M_buf, msg) =>
      l ← labelset_new uninit LABELSETMAXLEN None 0 label label_len;
      let '(e, labelset, labelset_len) := l : Z * bytes * nat in
      if negb (e =? 0) then failed else
      R_bytes ← mem_read signature 0 POINTLEN;
      s_scalar ← mem_read signature POINTLEN SCALARLEN;
      c1 ← point_isreduced K;
      if negb c1 then failed else
      c2 ← point_isreduced R_bytes;
      if negb c2 then failed else
      c3 ← sc_isreduced s_scalar;
      if negb c3 then failed else
      h ← generalized_challenge labelset labelset_len None R_bytes K M_buf MSTART (length msg);
      match h with
      | (None, _) => failed
      | (Some h_scalar, _) =>
        R ← generalized_solve_commitment None s_scalar K h_scalar;
        match R with
        | None => failed
        | Some (R_calc_bytes, _) =>
          v ← crypto_verify_32_ref R_bytes R_calc_bytes;
          Some (if v =? 0 then 0 else -1)
        end
      end
    end
  | _, _ => failed
  end.
