(* ===== verification/GenVrf.v ===== *)
(** The verifiable random function: gen_veddsa.c, and the entry points for Curve25519
    keys in gen_x.c, of additions/generalized/. *)

From stdpp Require Import strings.
From S2P Require Import Prelude Limbs Donna Scalar Fe GeBase Ge Sha512 XEd Labels GenEd.
Import Fe Ge.

Definition protocol_name : bytes := Eval vm_compute in str_bytes "VEdDSA_25519_SHA512_Elligator2".

(** * gen_veddsa.c *)

Definition generalized_calculate_Bv (labelset : bytes) (labelset_len : nat) (K_bytes M_buf : bytes) (M_start M_len : nat)
    : option (option ge_p3 * bytes) :=
  v ← labelset_validate labelset labelset_len;
  if negb (v =? 0) then Some (None, M_buf) else
  let prefix_len := (2 * POINTLEN + labelset_len)%nat in
  if (M_start <? prefix_len)%nat then Some (None, M_buf) else
  ls ← mem_read labelset 0 labelset_len;
  K ← mem_read K_bytes 0 POINTLEN;
  r ← buffer_adds M_buf (Some (M_start - prefix_len)%nat) M_start [Some B_bytes; Some ls; Some K];
  let M_buf := r.1 in
  if negb (bool_decide (r.2 = Some M_start)) then Some (None, M_buf) else
  hashed ← mem_read M_buf (M_start - prefix_len) (prefix_len + M_len);
  Bv_point ← hash_to_point hashed;
  n ← ge_isneutral Bv_point;
  Some (if n =? 0 then Some Bv_point else None, M_buf).

(** [buf] is the array on the stack. *)
Definition generalized_calculate_vrf_output (buf labelset : bytes) (labelset_len : nat) (cKv_point : ge_p3)
    : option (option bytes) :=
  if (BUFLEN <? labelset_len + 2 * POINTLEN)%nat then Some None else
  v ← labelset_validate labelset labelset_len;
  if negb (v =? 0) then Some None else
  cKv_bytes ← ge_p3_tobytes cKv_point;
  ls ← mem_read labelset 0 labelset_len;
  r ← buffer_adds buf (Some 0%nat) BUFLEN [Some B_bytes; Some ls; Some cKv_bytes];
  match r.2 with
  | None => Some None
  | Some p =>
    if (BUFLEN <? p)%nat then Some None else
    hashed ← mem_read r.1 0 p;
    hash ← crypto_hash_sha512 hashed;
    out ← mem_read hash 0 VRFOUTPUTLEN;
    Some (Some out)
  end.

(** [labelset[labelset_len - 1] = c]. *)
Definition set_label (labelset : bytes) (labelset_len : nat) (c : Z) : option bytes :=
  on_byte (λ _, c) (labelset_len - 1) labelset.
(** The label set with the label "1" added; the result of [labelset_add] is not looked at. *)
Definition vrf_labelset (uninit : bytes) (label : option bytes) (label_len : Z) : option (option (bytes * nat)) :=
  l ← labelset_new uninit LABELSETMAXLEN (Some protocol_name) (zlen protocol_name) label label_len;
  let '(e, labelset, labelset_len) := l : Z * bytes * nat in
  if negb (e =? 0) then Some None else
  l ← labelset_add labelset labelset_len LABELSETMAXLEN [49] 1;
  Some (Some (l.1.2, l.2)).

Definition generalized_veddsa_25519_sign (a : alloc) (uninit : bytes) (pubkey privkey msg random label : option bytes)
    (label_len : Z) : option (Z * bytes) :=
  let failed := Some (-1, replicate VRFSIGNATURELEN 0) in
  match pubkey, privkey with
  | Some K, Some k =>
    b ← message_buffer a msg label label_len;
    match b with
    | None => failed
    | Some (M_buf, msg) =>
      l ← vrf_labelset uninit label label_len;
      match l with
      | None => failed
      | Some (labelset, labelset_len) =>
        bv ← generalized_calculate_Bv labelset labelset_len K M_buf MSTART (length msg);
        match bv with
        | (None, _) => failed
        | (Some Bv_point, M_buf) =>
          Kv_point ← ge_scalarmult k Bv_point;
          Bv_bytes ← ge_p3_tobytes Bv_point;
          Kv_bytes ← ge_p3_tobytes Kv_point;
          labelset ← set_label labelset labelset_len 50;
          c ← generalized_commit labelset labelset_len (Some (Bv_bytes ++ Kv_bytes)) K k random M_buf MSTART (length msg);
          match c with
          | (None, _) => failed
          | (Some (R_bytes, r_scalar), M_buf) =>
            Rv_point ← ge_scalarmult r_scalar Bv_point;
            Rv_bytes ← ge_p3_tobytes Rv_point;
            labelset ← set_label labelset labelset_len 51;
            h ← generalized_challenge labelset labelset_len (Some (Bv_bytes ++ Kv_bytes ++ Rv_bytes)) R_bytes K
                  M_buf MSTART (length msg);
            match h with
            | (None, _) => failed
            | (Some h_scalar, _) =>
              s_scalar ← generalized_prove r_scalar k h_scalar;
              Some (0, Kv_bytes ++ h_scalar ++ s_scalar)
            end
          end
        end
      end
    end
  | _, _ => failed
  end.

(** The result and [vrf_out], which is cleared first. *)
Definition generalized_veddsa_25519_verify (a : alloc) (uninit buf : bytes) (signature pubkey msg label : option bytes)
    (label_len : Z) : option (Z * bytes) :=
  let failed := Some (-1, replicate VRFOUTPUTLEN 0) in
  match signature, pubkey with
  | Some signature, Some K =>
    b ← message_buffer a msg label label_len;
    match b with
    | None => failed
    | Some (M_buf, msg) =>
      Kv_bytes ← mem_read signature 0 POINTLEN;
      h_scalar ← mem_read signature POINTLEN SCALARLEN;
      s_scalar ← mem_read signature (POINTLEN + SCALARLEN) SCALARLEN;
      c1 ← point_isreduced K;
      if negb c1 then failed else
      c2 ← point_isreduced Kv_bytes;
      if negb c2 then failed else
      c3 ← sc_isreduced h_scalar;
      if negb c3 then failed else
      c4 ← sc_isreduced s_scalar;
      if negb c4 then failed else
      l ← vrf_labelset uninit label label_len;
      match l with
      | None => failed
      | Some (labelset, labelset_len) =>
        bv ← generalized_calculate_Bv labelset labelset_len K M_buf MSTART (length msg);
        match bv with
        | (None, _) => failed
        | (Some Bv_point, M_buf) =>
          Bv_bytes ← ge_p3_tobytes Bv_point;
          r ← generalized_solve_commitment None s_scalar K h_scalar;
          match r with
          | None => failed
          | Some (R_calc_bytes, K_point) =>
            r ← generalized_solve_commitment (Some Bv_point) s_scalar Kv_bytes h_scalar;
            match r with
            | None => failed
            | Some (Rv_calc_bytes, Kv_point) =>
              cK_point ← ge_scalarmult_cofactor K_point;
              cKv_point ← ge_scalarmult_cofactor Kv_point;
              n1 ← ge_isneutral cK_point;
              n2 ← ge_isneutral cKv_point;
              n3 ← ge_isneutral Bv_point;
              if negb (n1 =? 0) || negb (n2 =? 0) || negb (n3 =? 0) then failed else
              labelset ← set_label labelset labelset_len 51;
              h ← generalized_challenge labelset labelset_len (Some (Bv_bytes ++ Kv_bytes ++ Rv_calc_bytes))
                    R_calc_bytes K M_buf MSTART (length msg);
              match h with
              | (None, _) => failed
              | (Some h_calc_scalar, _) =>
                v ← crypto_verify_32_ref h_scalar h_calc_scalar;
                if negb (v =? 0) then failed else
                labelset ← set_label labelset labelset_len 52;
                o ← generalized_calculate_vrf_output buf labelset labelset_len cKv_point;
                match o with
                | None => failed
                | Some out => Some (0, out)
                end
              end
            end
          end
        end
      end
    end
  | _, _ => failed
  end.

(** * gen_x.c *)

Definition convert_25519_pubkey (x25519_pubkey_bytes : bytes) : option (option bytes) :=
  reduced ← fe_isreduced x25519_pubkey_bytes;
  if reduced =? 0 then Some None else K ← edy_bytes x25519_pubkey_bytes; Some (Some K).
(** [K_bytes] and [k_scalar]. *)
Definition calculate_25519_keypair (x25519_privkey_scalar : bytes) : option (bytes * bytes) :=
  ed_pubkey_point ← ge_scalarmult_base x25519_privkey_scalar;
  K_bytes ← ge_p3_tobytes ed_pubkey_point;
  b ← K_bytes !! 31%nat;
  let sign_bit := Z.shiftr (Z.land b 0x80) 7 in
  k_scalar ← mem_read x25519_privkey_scalar 0 32;
  kneg ← sc_neg k_scalar;
  k_scalar ← sc_cmov k_scalar kneg sign_bit;
  K_bytes ← on_byte (λ x, Z.land x 0x7F) 31 K_bytes;
  Some (K_bytes, k_scalar).

Definition generalized_xeddsa_25519_sign (a : alloc) (uninit privkey : bytes) (msg random label : option bytes)
    (label_len : Z) : option (Z * bytes) :=
  p ← calculate_25519_keypair privkey;
  generalized_eddsa_25519_sign a uninit (Some p.1) (Some p.2) msg random label label_len.
Definition generalized_xveddsa_25519_sign (a : alloc) (uninit privkey : bytes) (msg random label : option bytes)
    (label_len : Z) : option (Z * bytes) :=
  p ← calculate_25519_keypair privkey;
  generalized_veddsa_25519_sign a uninit (Some p.1) (Some p.2) msg random label label_len.
Definition generalized_xeddsa_25519_verify (a : alloc) (uninit : bytes) (signature : option bytes) (pubkey : bytes)
    (msg label : option bytes) (label_len : Z) : option Z :=
  K ← convert_25519_pubkey pubkey;
  match K with
  | None => Some (-1)
  | Some K => generalized_eddsa_25519_verify a uninit signature (Some K) msg label label_len
  end.
(** [vrf_out] stays as it was when the key is rejected. *)
Definition generalized_xveddsa_25519_verify (a : alloc) (uninit buf vrf_out : bytes) (signature : option bytes)
    (pubkey : bytes) (msg label : option bytes) (label_len : Z) : option (Z * bytes) :=
  K ← convert_25519_pubkey pubkey;
  match K with
  | None => Some (-1, vrf_out)
  | Some K => generalized_veddsa_25519_verify a uninit buf signature (Some K) msg label label_len
  end.
