(* ===== verification/LabelsSpec.v ===== *)
(** Filling buffers and label sets.

    [buffer_adds] writes the concatenation of its inputs, and a label set is the count of
    its labels followed by each label with its length: [labelset_new] and [labelset_add]
    write this encoding, [labelset_validate] accepts it, and it is injective. *)

From S2P Require Import Prelude Limbs Scalar XEd XEdSpec Labels GenEd GenVrf.

(** * Buffers *)

Lemma buffer_copy_ok n count pre mid post inp bufend : (count + n <= length inp)%nat → length mid = n →
  (length pre + n <= bufend)%nat →
  buffer_copy (pre ++ mid ++ post) (length pre) bufend inp count n =
    Some (pre ++ take n (drop count inp) ++ post, Some (length pre + n)%nat).
Proof.
  revert count pre mid. induction n as [|n IH]; intros count pre mid Hi Lm He; cbn [buffer_copy].
  - destruct mid; [|done]. by rewrite take_0, Nat.add_0_r.
  - destruct mid as [|y mid]; [done|]. injection Lm as Lm. rewrite (proj2 (Nat.leb_gt _ _)) by lia.
    destruct (lookup_lt_is_Some_2 inp count) as [x Hx]; [lia|]. rewrite Hx. cbn [mbind option_bind].
    rewrite lookup_app_r, Nat.sub_diag by done. cbn [app lookup list_lookup mbind option_bind].
    rewrite insert_app_r_alt, Nat.sub_diag by done. cbn [insert list_insert].
    specialize (IH (count + 1)%nat (pre ++ [x]) mid). rewrite length_app, <- app_assoc in IH. cbn [app length] in IH.
    rewrite IH by lia. rewrite (drop_S _ _ _ Hx), firstn_cons, <- app_assoc, Nat.add_1_r. cbn [app].
    do 2 f_equal. f_equal. lia.
Qed.
Lemma buffer_add_ok pre mid post inp bufend : length mid = extra_len inp → (length pre + length mid <= bufend)%nat →
  buffer_add (pre ++ mid ++ post) (Some (length pre)) bufend inp (extra_len inp) =
    Some (pre ++ default [] inp ++ post, Some (length pre + length mid)%nat).
Proof.
  intros Lm He. unfold buffer_add. rewrite (proj2 (Nat.ltb_ge _ _)) by lia. destruct inp as [i|]; cbn [extra_len default] in *.
  - rewrite (proj2 (Nat.ltb_ge _ _)) by lia. rewrite (buffer_copy_ok (length i)) by lia.
    by rewrite drop_0, firstn_all, Lm.
  - destruct mid; [|done]. by rewrite Nat.add_0_r.
Qed.
(** A sequence of inputs. *)
Definition inputs_bytes (l : list (option bytes)) : bytes := mjoin (default [] <$> l).
Lemma buffer_adds_ok inputs pre mid post bufend : length mid = length (inputs_bytes inputs) →
  (length pre + length mid <= bufend)%nat →
  buffer_adds (pre ++ mid ++ post) (Some (length pre)) bufend inputs =
    Some (pre ++ inputs_bytes inputs ++ post, Some (length pre + length mid)%nat).
Proof.
  revert pre mid. induction inputs as [|i inputs IH]; intros pre mid Lm He; cbn [buffer_adds].
  - destruct mid; [|done]. by rewrite Nat.add_0_r.
  - change (inputs_bytes (i :: inputs)) with (default [] i ++ inputs_bytes inputs) in *.
    assert (length (default [] i) = extra_len i) as Li by (by destruct i). rewrite length_app, Li in Lm.
    rewrite <- (take_drop (extra_len i) mid), <- app_assoc.
    rewrite buffer_add_ok by (rewrite length_take; lia). cbn [mbind option_bind fst snd].
    replace (length (take (extra_len i) mid)) with (length (default [] i)) by (rewrite length_take; lia).
    rewrite <- length_app, (app_assoc pre).
    rewrite IH by (rewrite ?length_app, length_drop; lia). rewrite <- !app_assoc, !length_app, length_drop.
    do 3 f_equal. rewrite length_take. lia.
Qed.

Lemma buffer_zeros_ok n pre mid post bufend : length mid = n → (length pre + n <= bufend)%nat →
  buffer_zeros (pre ++ mid ++ post) (length pre) bufend n = Some (pre ++ replicate n 0 ++ post, Some (length pre + n)%nat).
Proof.
  revert pre mid. induction n as [|n IH]; intros pre mid Lm He; cbn [buffer_zeros].
  - destruct mid; [|done]. by rewrite Nat.add_0_r.
  - destruct mid as [|y mid]; [done|]. injection Lm as Lm. rewrite (proj2 (Nat.leb_gt _ _)) by lia.
    rewrite lookup_app_r, Nat.sub_diag by done. cbn [app lookup list_lookup mbind option_bind].
    rewrite insert_app_r_alt, Nat.sub_diag by done. cbn [insert list_insert].
    specialize (IH (pre ++ [0]) mid). rewrite length_app, <- app_assoc in IH. cbn [app length] in IH.
    rewrite IH by lia. rewrite <- app_assoc. cbn [replicate app]. do 2 f_equal. f_equal. lia.
Qed.
Definition pad_len (n : nat) : nat := ((BLOCKLEN - n mod BLOCKLEN) mod BLOCKLEN)%nat.
Definition padded (x : bytes) : bytes := x ++ replicate (pad_len (length x)) 0.
Lemma length_padded x : length (padded x) = pad_to_block (length x).
Proof. unfold padded, pad_to_block, pad_len. by rewrite length_app, length_replicate. Qed.
Lemma wf_padded x : wf_bytes x → wf_bytes (padded x).
Proof. intros H. apply wf_bytes_app. split; [done|]. apply Forall_replicate. done. Qed.
Lemma buffer_pad_ok junk x mid post bufend : length mid = pad_len (length x) →
  (length junk + length x < bufend)%nat → (length junk + length x + length mid <= bufend)%nat →
  buffer_pad (junk ++ x ++ mid ++ post) (length junk) (Some (length junk + length x)%nat) bufend =
    Some (junk ++ padded x ++ post, Some (length junk + length (padded x))%nat).
Proof.
  intros Lm Hlt He. unfold buffer_pad.
  rewrite (proj2 (Nat.leb_gt _ _)), (proj2 (Nat.ltb_ge _ _)) by lia. cbn [orb].
  replace (length junk + length x - length junk)%nat with (length x) by lia. fold (pad_len (length x)).
  rewrite (proj2 (Nat.ltb_ge _ _)) by lia.
  rewrite (app_assoc junk), <- length_app, (buffer_zeros_ok (pad_len (length x))) by (rewrite ?length_app; lia).
  unfold padded. rewrite <- !app_assoc, !length_app, length_replicate. do 2 f_equal. f_equal. lia.
Qed.

(** * Label sets *)

Definition label_bytes (l : bytes) : bytes := zlen l :: l.
Definition labels_bytes (ls : list bytes) : bytes := mjoin (label_bytes <$> ls).
Definition labelset_of (ls : list bytes) : bytes := zlen ls :: labels_bytes ls.
Definition label_fits (l : bytes) : Prop := (length l <= LABELMAXLEN)%nat.

Lemma labels_bytes_cons l ls : labels_bytes (l :: ls) = label_bytes l ++ labels_bytes ls.
Proof. done. Qed.
Lemma labels_bytes_app ls ks : labels_bytes (ls ++ ks) = labels_bytes ls ++ labels_bytes ks.
Proof.
  induction ls as [|l ls IH]; [done|]. change ((l :: ls) ++ ks) with (l :: ls ++ ks).
  by rewrite !labels_bytes_cons, IH, app_assoc.
Qed.
Lemma wf_labelset ls : Forall wf_bytes ls → Forall label_fits ls → (length ls < 256)%nat → wf_bytes (labelset_of ls).
Proof.
  intros Hw Hf Hl. apply Forall_cons_2; [unfold is_byte, zlen; lia|]. clear Hl.
  induction Hw as [|l ls Hl _ IH]; [apply Forall_nil_2|]. apply Forall_cons in Hf as [Hf Hfs].
  rewrite labels_bytes_cons. apply wf_bytes_app. split; [|by apply IH].
  apply Forall_cons_2; [|done]. unfold label_fits, LABELMAXLEN in Hf. unfold is_byte, zlen. lia.
Qed.

(** The encoding is injective: distinct label sets separate the uses of the hash. *)
Lemma labels_bytes_inj ls ks x y : length ls = length ks → labels_bytes ls ++ x = labels_bytes ks ++ y → ls = ks ∧ x = y.
Proof.
  revert ks. induction ls as [|l ls IH]; intros [|k ks] Hl E; try discriminate Hl; [done|].
  rewrite !labels_bytes_cons, <- !app_assoc in E. injection E as E1 E2.
  apply app_inj_1 in E2 as [-> E2]; [|unfold zlen in E1; lia]. injection Hl as Hl.
  by destruct (IH _ Hl E2) as [-> ->].
Qed.
Lemma labelset_of_inj ls ks x y : labelset_of ls ++ x = labelset_of ks ++ y → ls = ks ∧ x = y.
Proof. intros E. injection E as E1 E2. apply labels_bytes_inj; [|done]. unfold zlen in E1. lia. Qed.

Lemma validate_labels_ok pre ls rest n : Forall label_fits ls → n = length (pre ++ labels_bytes ls) →
  validate_labels (pre ++ labels_bytes ls ++ rest) n (length pre) (length ls) = Some (Some n).
Proof.
  revert pre. induction ls as [|l ls IH]; intros pre Hf En; cbn [validate_labels length].
  - by rewrite En, app_nil_r.
  - apply Forall_cons in Hf as [Hf Hfs]. rewrite labels_bytes_cons.
    rewrite lookup_app_r, Nat.sub_diag by done. cbn [label_bytes app lookup list_lookup mbind option_bind].
    unfold zlen. rewrite Nat2Z.id. unfold label_fits in Hf. rewrite (proj2 (Nat.ltb_ge _ _)) by lia.
    rewrite labels_bytes_cons, app_assoc in En.
    rewrite (proj2 (Nat.ltb_ge _ _)) by (rewrite En, !length_app; cbn [length label_bytes]; lia).
    specialize (IH (pre ++ label_bytes l) Hfs En). rewrite <- app_assoc, length_app in IH. rewrite <- app_assoc. exact IH.
Qed.
Lemma labelset_validate_ok ls rest n : Forall label_fits ls → n = length (labelset_of ls) →
  (3 <= n <= LABELSETMAXLEN)%nat → labelset_validate (labelset_of ls ++ rest) n = Some 0.
Proof.
  intros Hf En Hn. unfold labelset_validate. rewrite !(proj2 (Nat.ltb_ge _ _)) by lia. cbn [orb].
  cbn [labelset_of app lookup list_lookup mbind option_bind]. unfold zlen. rewrite Nat2Z.id.
  pose proof (validate_labels_ok [Z.of_nat (length ls)] ls rest n Hf En) as E. cbn [app length] in E. rewrite E.
  cbn [mbind option_bind]. by rewrite Nat.eqb_refl.
Qed.

Lemma u8_small n : (n <= 128)%nat → Z.to_nat (u8 (Z.of_nat n)) = n.
Proof. intros H. unfold u8. rewrite Z.mod_small by lia. apply Nat2Z.id. Qed.
Lemma absent_input (i : option bytes) : bool_decide (i = None) && negb (extra_len i =? 0)%nat = false.
Proof. destruct i; [by rewrite bool_decide_false|done]. Qed.

Lemma labelset_new_ok uninit p c (ls := [default [] p; default [] c]) :
  length uninit = LABELSETMAXLEN → (extra_len p <= LABELMAXLEN)%nat → (extra_len c <= LABELMAXLEN)%nat →
  labelset_new uninit LABELSETMAXLEN p (Z.of_nat (extra_len p)) c (Z.of_nat (extra_len c)) =
    Some (0, labelset_of ls ++ drop (length (labelset_of ls)) uninit, length (labelset_of ls)).
Proof.
  intros Lu Hp Hc. unfold LABELMAXLEN in *.
  assert (length (labelset_of ls) = 3 + extra_len p + extra_len c)%nat as Ll.
  { destruct p, c; cbn; rewrite ?length_app; cbn; rewrite ?length_app; cbn; lia. }
  rewrite Ll. unfold labelset_new. rewrite !u8_small by done. cbv zeta.
  rewrite (proj2 (Nat.ltb_ge LABELSETMAXLEN _)) by lia.
  rewrite (proj2 (Nat.ltb_ge LABELSETMAXLEN _)) by (unfold LABELSETMAXLEN; lia).
  rewrite !absent_input. unfold LABELMAXLEN. rewrite !(proj2 (Nat.ltb_ge 128 _)) by lia.
  destruct (lookup_lt_is_Some_2 uninit 1) as [x1 E1]; [rewrite Lu; unfold LABELSETMAXLEN; lia|]. rewrite E1. cbn [mbind option_bind].
  destruct uninit as [|x0 [|? u]]; [done|done|]. cbn [insert list_insert].
  cbn [length] in Lu. clear E1 x1.
  rewrite <- (take_drop (extra_len p) u). change (2 :: Z.of_nat (extra_len p) :: take (extra_len p) u ++ drop (extra_len p) u)
    with ([2; Z.of_nat (extra_len p)] ++ take (extra_len p) u ++ drop (extra_len p) u).
  change (Some 2%nat) with (Some (length [2; Z.of_nat (extra_len p)])).
  unfold LABELSETMAXLEN in *.
  rewrite buffer_add_ok by (rewrite length_take; cbn [length]; lia). cbn [mbind option_bind].
  rewrite length_take, Nat.min_l by lia. cbn [length]. rewrite (proj2 (Nat.ltb_lt _ _)) by lia.
  destruct (drop (extra_len p) u) as [|y v] eqn:Ev; [apply (f_equal length) in Ev; rewrite length_drop in Ev; cbn in Ev; lia|].
  assert (length v = 509 - extra_len p)%nat as Lv by (apply (f_equal length) in Ev; rewrite length_drop in Ev; cbn in Ev; lia).
  set (pre := [2; Z.of_nat (extra_len p)] ++ default [] p).
  assert (length pre = 2 + extra_len p)%nat as Lpre by (unfold pre; rewrite length_app; destruct p; done).
  rewrite (app_assoc [2; Z.of_nat (extra_len p)]). fold pre.
  rewrite lookup_app_r, Lpre, Nat.sub_diag by lia. cbn [lookup list_lookup mbind option_bind].
  rewrite insert_app_r_alt, Lpre, Nat.sub_diag by lia. cbn [insert list_insert].
  replace (pre ++ Z.of_nat (extra_len c) :: v) with ((pre ++ [Z.of_nat (extra_len c)]) ++ take (extra_len c) v ++ drop (extra_len c) v)
    by (rewrite take_drop, <- app_assoc; done).
  replace (Some (2 + extra_len p + 1)%nat) with (Some (length (pre ++ [Z.of_nat (extra_len c)])))
    by (rewrite length_app, Lpre; done).
  rewrite buffer_add_ok by (rewrite length_take, ?length_app; cbn [length]; lia). cbn [mbind option_bind].
  rewrite length_take, Nat.min_l, length_app, Lpre by lia. cbn [length].
  replace (2 + extra_len p + 1 + extra_len c)%nat with (3 + extra_len p + extra_len c)%nat by lia. rewrite Nat.eqb_refl.
  assert (drop (3 + extra_len p + extra_len c) (x0 :: z :: u) = drop (extra_len c) v) as Ed.
  { change (drop (1 + extra_len p + extra_len c) u = drop (extra_len c) v).
    replace (1 + extra_len p + extra_len c)%nat with (extra_len p + (1 + extra_len c))%nat by lia.
    by rewrite <- drop_drop, Ev. }
  rewrite <- Ev, take_drop, Ed. clear. unfold pre, labelset_of, ls, labels_bytes, label_bytes, zlen.
  cbn [fmap list_fmap mjoin list_join length app].
  assert (∀ i : option bytes, length (default [] i) = extra_len i) as Le by (by intros []). rewrite !Le, app_nil_r.
  by rewrite <- !app_assoc.
Qed.

Lemma labelset_add_ok ls rest l n : n = length (labelset_of ls) → (n + length rest = LABELSETMAXLEN)%nat →
  (3 <= n)%nat → label_fits l → (n + (1 + length l) < LABELSETMAXLEN)%nat → (length ls < 255)%nat →
  labelset_add (labelset_of ls ++ rest) n LABELSETMAXLEN l (zlen l) =
    Some (0, labelset_of (ls ++ [l]) ++ drop (1 + length l) rest, length (labelset_of (ls ++ [l]))).
Proof.
  intros En Lr Hn Hl Hmax Hls. unfold labelset_add, label_fits, LABELMAXLEN, zlen in *. rewrite u8_small by done. cbv zeta.
  rewrite !(proj2 (Nat.ltb_ge LABELSETMAXLEN _)) by lia. rewrite (proj2 (Nat.leb_gt _ _)) by lia. cbn [orb].
  rewrite (proj2 (Nat.ltb_ge n 3)) by lia. change (LABELSETMAXLEN <? 4)%nat with false. cbn [orb].
  rewrite (proj2 (Nat.ltb_ge 128 _)) by lia. cbn [labelset_of app lookup list_lookup mbind option_bind insert list_insert].
  unfold zlen. replace (u8 (Z.of_nat (length ls) + 1)) with (zlen (ls ++ [l]))
    by (unfold zlen, u8; rewrite length_app, Z.mod_small by (cbn [length]; lia); cbn [length]; lia).
  change (zlen (ls ++ [l]) :: labels_bytes ls ++ rest) with ((zlen (ls ++ [l]) :: labels_bytes ls) ++ rest).
  set (pre := zlen (ls ++ [l]) :: labels_bytes ls). assert (length pre = n) as Lpre by (by rewrite En).
  destruct rest as [|x rest]; [cbn in Lr; lia|]. cbn [length] in Lr.
  rewrite lookup_app_r, Lpre, Nat.sub_diag by lia. cbn [lookup list_lookup mbind option_bind].
  rewrite insert_app_r_alt, Lpre, Nat.sub_diag by lia. cbn [insert list_insert].
  replace (pre ++ Z.of_nat (length l) :: rest) with
    ((pre ++ [Z.of_nat (length l)]) ++ take (length l) rest ++ drop (length l) rest)
    by (rewrite take_drop, <- app_assoc; done).
  replace (Some (n + 1)%nat) with (Some (length (pre ++ [Z.of_nat (length l)]))) by (rewrite length_app, Lpre; done).
  pose proof (buffer_add_ok (pre ++ [Z.of_nat (length l)]) (take (length l) rest) (drop (length l) rest) (Some l) LABELSETMAXLEN) as E.
  cbn [extra_len default] in E. rewrite length_take, Nat.min_l, length_app, Lpre in E by lia. cbn [length] in E.
  rewrite (length_app pre), Lpre. cbn [length].
  rewrite E by lia. cbn [mbind option_bind]. rewrite (proj2 (Nat.leb_gt _ _)) by lia.
  replace (n + 1 + length l =? n + 1 + length l)%nat with true by (symmetry; apply Nat.eqb_refl). cbn [negb].
  assert (labelset_of (ls ++ [l]) = pre ++ Z.of_nat (length l) :: l) as El.
  { unfold labelset_of, pre. rewrite labels_bytes_app. cbn [app]. do 2 f_equal. unfold labels_bytes, label_bytes, zlen. cbn.
    by rewrite app_nil_r. }
  change (Z.of_nat (length (ls ++ [l])) :: labels_bytes (ls ++ [l]) ++ drop (1 + length l) (x :: rest)) with
    (labelset_of (ls ++ [l]) ++ drop (length l) rest).
  rewrite El, length_app, Lpre. cbn [length id]. rewrite <- !app_assoc. cbn [app].
  do 2 f_equal.
Qed.
(** Replacing the only byte of the last label. *)
Lemma set_label_ok ls x rest c n : n = length (labelset_of (ls ++ [[x]])) →
  set_label (labelset_of (ls ++ [[x]]) ++ rest) n c = Some (labelset_of (ls ++ [[c]]) ++ rest).
Proof.
  intros En. unfold set_label, labelset_of in *. rewrite !labels_bytes_app in *.
  change (labels_bytes [[x]]) with [1; x] in *. change (labels_bytes [[c]]) with [1; c].
  cbn [length] in En. rewrite length_app in En. cbn [length] in En.
  unfold zlen. rewrite !length_app. cbn [length app].
  set (pre := Z.of_nat (length ls + 1) :: labels_bytes ls).
  replace (Z.of_nat (length ls + 1) :: (labels_bytes ls ++ [1; x]) ++ rest) with ((pre ++ [1]) ++ [x] ++ rest)
    by (unfold pre; cbn [app]; by rewrite <- !app_assoc).
  rewrite (on_byte_app _ (pre ++ [1]) _ (n - 1) 0) by (rewrite length_app; cbn [length pre]; lia).
  unfold on_byte. cbn [app lookup list_lookup mbind option_bind fmap option_fmap option_map insert list_insert].
  unfold pre. cbn [app]. by rewrite <- !app_assoc.
Qed.

(** Label sets: [labelset_new] and [labelset_add] write the count of the labels and
    each label with its length, both results pass [labelset_validate], and no other list
    of labels has an encoding that starts the same hash input, so that labels separate
    the uses of the hash. *)
Theorem labelset_encoding (uninit : bytes) (p c : option bytes) (l : bytes) :
  length uninit = LABELSETMAXLEN → (extra_len p <= LABELMAXLEN)%nat → (extra_len c <= LABELMAXLEN)%nat → label_fits l →
  let ls := [default [] p; default [] c] in
  ∃ s n s' n',
    labelset_new uninit LABELSETMAXLEN p (Z.of_nat (extra_len p)) c (Z.of_nat (extra_len c)) = Some (0, s, n) ∧
    labelset_add s n LABELSETMAXLEN l (zlen l) = Some (0, s', n') ∧
    labelset_validate s n = Some 0 ∧ labelset_validate s' n' = Some 0 ∧
    take n s = labelset_of ls ∧ take n' s' = labelset_of (ls ++ [l]) ∧
    ∀ ks x y, take n' s' ++ x = labelset_of ks ++ y → ks = ls ++ [l] ∧ x = y.
Proof.
  intros Lu Hp Hc Hl ls.
  assert (∀ i : option bytes, length (default [] i) = extra_len i) as Le by (by intros []).
  assert (length (labelset_of ls) = 3 + extra_len p + extra_len c)%nat as Ln.
  { unfold ls, labelset_of. rewrite !labels_bytes_cons. cbn [length]. rewrite !length_app. cbn [length label_bytes].
    rewrite !Le. cbn. lia. }
  assert (length (labelset_of (ls ++ [l])) = length (labelset_of ls) + 1 + length l)%nat as Ln'.
  { unfold labelset_of. rewrite labels_bytes_app. cbn [length]. rewrite length_app, labels_bytes_cons, length_app.
    cbn. lia. }
  unfold label_fits, LABELMAXLEN in *. assert (Forall label_fits ls) as Hf.
  { unfold label_fits, LABELMAXLEN. repeat apply Forall_cons_2; rewrite ?Le; try lia. apply Forall_nil_2. }
  do 4 eexists. split; [by apply labelset_new_ok|]. fold ls. split.
  { apply labelset_add_ok; [reflexivity|rewrite length_drop, Lu; unfold LABELSETMAXLEN|..];
      unfold label_fits, LABELSETMAXLEN, LABELMAXLEN; try lia. cbn. lia. }
  rewrite !take_app_length. split_and!; try reflexivity.
  - apply labelset_validate_ok; [done|reflexivity|unfold LABELSETMAXLEN; lia].
  - apply labelset_validate_ok; [|reflexivity|unfold LABELSETMAXLEN; lia].
    apply Forall_app. split; [done|]. apply Forall_singleton. done.
  - intros ks x y E. apply labelset_of_inj in E as [-> ->]. done.
Qed.

Lemma labelset_encoding_witness :
  ∃ s n s' n', labelset_new (replicate 512 0) 512 (Some [86; 69]) 2 None 0 = Some (0, s, n) ∧
    labelset_add s n 512 [49] 1 = Some (0, s', n') ∧ take n' s' = [3; 2; 86; 69; 0; 1; 49].
Proof.
  destruct (labelset_encoding (replicate 512 0) (Some [86; 69]) None [49]) as (s & n & s' & n' & E1 & E2 & _ & _ & _ & E3 & _);
    [reflexivity|unfold LABELMAXLEN; cbn; lia|unfold LABELMAXLEN; cbn; lia|unfold label_fits, LABELMAXLEN; cbn; lia|].
  exists s, n, s', n'. split; [exact E1|]. split; [exact E2|exact E3].
Defined.

(** [labelset_validate] reads the length of the next label before it compares the offset
    with the length of the set: a full array that announces one label too many is read
    one byte past its end. *)
Lemma labelset_validate_overread :
  let s := [5] ++ mjoin (replicate 3 (128 :: replicate 128 0)) ++ 123 :: replicate 123 0 in
  length s = LABELSETMAXLEN ∧ labelset_validate s LABELSETMAXLEN = None.
Proof. split; vm_compute; reflexivity. Qed.
(** [labelset_add] rejects a label that exactly fills the array, after writing it. *)
Lemma labelset_add_full :
  let s := [2] ++ (128 :: replicate 128 0) ++ (128 :: replicate 128 0) in
  ∃ s', labelset_add (s ++ replicate 3 0) 259 262 [7; 7] 2 = Some (-1, s', 259%nat) ∧ s' !! 0%nat = Some 3.
Proof. cbv zeta. eexists. split; vm_compute; reflexivity. Qed.
