(* ===== verification/GroupOrder.v ===== *)
(** The group of the curve has exponent eight times the order of the base point.

    A point of order eight and the base point generate [8 L] points; a point outside
    them would give [16 L] points, but each of the [p] values of [y] has at most two.
    Hence multiplication by the cofactor leads into the subgroup of order [L]. *)

From Bignums Require Import BigN.
From S2P Require Import Prelude DonnaField DonnaBytes Prime Field25519 Edwards GeSpec GeTable.

(** * Counting *)

Lemma pigeonhole (f : Z → Z) (n m : Z) : 0 <= n → 0 <= m → (∀ i, 0 <= i < n → 0 <= f i < m) →
  (∀ i j, 0 <= i < n → 0 <= j < n → f i = f j → i = j) → n <= m.
Proof.
  intros Hn Hm Hf Hi. apply Z2Nat.inj_le; [done|done|].
  replace (Z.to_nat n) with (length (f <$> seqZ 0 n)) by (by rewrite length_fmap, length_seqZ).
  replace (Z.to_nat m) with (length (seqZ 0 m)) by apply length_seqZ.
  apply submseteq_length, NoDup_submseteq.
  - apply NoDup_fmap_2_strong; [|apply NoDup_seqZ]. intros i j Hi' Hj'. apply elem_of_seqZ in Hi', Hj'. apply Hi; lia.
  - intros x Hx. apply list_elem_of_fmap in Hx as (i & -> & Hi'). apply elem_of_seqZ in Hi'. apply elem_of_seqZ.
    specialize (Hf i). lia.
Qed.

(** A number below [2 p] for each point. *)
Definition point_number (P : point) : Z := 2 * fval (py P) + fval (px P) `mod` 2.
Lemma point_number_range P : 0 <= point_number P < 2 * p25519.
Proof. unfold point_number. pose proof (fval_range (py P)). pose proof (parity (fval (px P))). lia. Qed.
Lemma point_number_inj P Q : point_number P = point_number Q → P = Q.
Proof.
  unfold point_number. intros E. pose proof (parity (fval (px P))) as H1. pose proof (parity (fval (px Q))) as H2.
  assert (py P = py Q) as Ey by (rewrite <- (F_val (py P)), <- (F_val (py Q)); f_equal; lia).
  assert (fval (px P) `mod` 2 = fval (px Q) `mod` 2) as Ex by lia. clear E.
  apply point_eq; [|exact Ey]. destruct (same_y P Q Ey) as [|E]; [done|].
  destruct (decide (px Q = 0%F)) as [Hz|Hz]; [rewrite E, Hz; ring|].
  rewrite E, parity_opp in Ex by done. lia.
Qed.

(** * A point of order eight *)

Definition torsion_x : Fp := F 43496726750457979451437558183816721346016168361625936758514574428539776020131.
Definition torsion_y : Fp := F 2707385501144840649318225287225658788936804267575313519463743609750303402022.
Lemma torsion_on_curve : on_curve torsion_x torsion_y.
Proof.
  unfold on_curve, torsion_x, torsion_y, ed_d. rewrite <- F_1, <- !F_mul, <- F_add, <- F_sub.
  apply F_eqp. vm_compute. reflexivity.
Qed.
Definition torsion : point := Point torsion_x torsion_y torsion_on_curve.
Definition big_torsion : bpt := Eval vm_compute in
  let x := 43496726750457979451437558183816721346016168361625936758514574428539776020131 in
  let y := 2707385501144840649318225287225658788936804267575313519463743609750303402022 in
  Bpt (of_int x) (of_int y) (of_int 1) (of_int (x * y)).
Lemma big_torsion_ok : rep_b big_torsion torsion.
Proof.
  exists 1%F. split; [apply f1_neq_0|]. unfold torsion. cbn [px py]. unfold torsion_x, torsion_y. split_and!.
  - eapply is_big_conv; [exact (is_big_of_int 43496726750457979451437558183816721346016168361625936758514574428539776020131)|ring].
  - eapply is_big_conv; [exact (is_big_of_int 2707385501144840649318225287225658788936804267575313519463743609750303402022)|ring].
  - eapply is_big_conv; [exact (is_big_of_int 1)|apply F_1].
  - eapply is_big_conv; [exact (is_big_of_int (43496726750457979451437558183816721346016168361625936758514574428539776020131 *
      2707385501144840649318225287225658788936804267575313519463743609750303402022))|]. rewrite F_mul. ring.
Qed.
Lemma torsion_8 : smul 8 torsion = pzero.
Proof. eapply rep_b_zero; [apply (bmul_ok 8), big_torsion_ok|]. vm_compute. reflexivity. Qed.
Lemma rep_b_neq p P : rep_b p P → BigN.eqb (bY p) (bZ p) = false → P ≠ pzero.
Proof.
  intros (z & Hz & _ & HY & HZ & _) E ->. unfold is_big in *. cbn in HY.
  rewrite <- not_true_iff_false in E. apply E. rewrite BigN.spec_eqb, Z.eqb_eq, HY, HZ. f_equal. ring.
Qed.
Lemma torsion_4 : smul 4 torsion ≠ pzero.
Proof. eapply rep_b_neq; [apply (bmul_ok 4), big_torsion_ok|]. vm_compute. reflexivity. Qed.
Lemma torsion_divide n : smul n torsion = pzero → (8 | n).
Proof.
  intros H. destruct (Znumtheory.Zdivide_dec 8 n) as [|Hn]; [done|exfalso]. apply torsion_4.
  assert (∃ a b, a * n + b * 8 = 4) as (a & b & <-).
  { pose proof (Z_div_mod_eq_full n 8) as E. pose proof (Z.mod_pos_bound n 8 ltac:(lia)) as Hr.
    assert (n `mod` 8 ≠ 0) by (intros E0; apply Hn; by apply Z.mod_divide).
    set (q := n `div` 8) in *. set (r := n `mod` 8) in *. clearbody q r. clear H Hn.
    assert (r = 1 ∨ r = 2 ∨ r = 3 ∨ r = 4 ∨ r = 5 ∨ r = 6 ∨ r = 7) as Hc by lia.
    destruct Hc as [->|[->|[->|[->|[->|[->| ->]]]]]];
      [exists 4, (- 4 * q)|exists 2, (- 2 * q)|exists 4, (- 4 * q - 1)|exists 1, (- q)|exists 4, (- 4 * q - 2)
      |exists 2, (- 2 * q - 1)|exists 4, (- 4 * q - 3)]; lia. }
  by rewrite smul_add, !smul_mul, H, torsion_8, !smul_zero, padd_0_l.
Qed.

(** * The exponent *)

Definition full_order : Z := 8 * base_order.
Definition generator : point := padd B torsion.
Lemma full_order_range : 2 * p25519 < 2 * full_order.
Proof. by vm_compute. Qed.
Lemma base_order_pos : 0 < base_order.
Proof. by vm_compute. Qed.
Lemma coprime_8 n : (base_order | 8 * n) → (base_order | n).
Proof. intros H. apply (Znumtheory.Gauss _ 8 _ H), Znumtheory.Zgcd_1_rel_prime. by vm_compute. Qed.
Lemma generator_full : smul full_order generator = pzero.
Proof.
  unfold full_order, generator. rewrite smul_padd, smul_mul, base_order_zero, smul_zero, padd_0_l.
  rewrite Z.mul_comm, smul_mul, torsion_8. apply smul_zero.
Qed.
Lemma generator_divide n : smul n generator = pzero → (full_order | n).
Proof.
  unfold generator. rewrite smul_padd. intros H.
  assert (base_order | n) as HB.
  { apply coprime_8, smul_zero_divide. apply (f_equal (smul 8)) in H. rewrite smul_zero, smul_padd, <- !smul_mul in H.
    rewrite (smul_mul 8 n torsion), (smul_comm 8 n), torsion_8, smul_zero, padd_0_r in H. exact H. }
  assert (8 | n) as H8.
  { destruct HB as [c E]. rewrite E in H at 1. rewrite smul_mul, base_order_zero, smul_zero, padd_0_l in H.
    by apply torsion_divide. }
  destruct HB as [c ->]. rewrite Z.mul_comm in H8. apply (Znumtheory.Gauss 8 base_order) in H8;
    [|apply Znumtheory.Zgcd_1_rel_prime; by vm_compute].
  destruct H8 as [e ->]. exists e. unfold full_order. lia.
Qed.
Lemma generator_inj i j : 0 <= i < full_order → 0 <= j < full_order → smul i generator = smul j generator → i = j.
Proof.
  intros Hi Hj E. destruct (generator_divide (i - j)) as [c Hc].
  { rewrite smul_sub, E. apply padd_opp. }
  assert (c = 0) by nia. lia.
Qed.

Lemma exponent P : smul full_order P = pzero.
Proof.
  destruct (decide (smul full_order P = pzero)) as [|Hn]; [done|exfalso].
  pose proof full_order_range as Hr. pose proof base_order_pos as Hb.
  assert (0 < full_order) as Hf by (unfold full_order; lia).
  set (f i := if i <? full_order then smul i generator else padd P (smul (i - full_order) generator)).
  cut (2 * full_order <= 2 * p25519); [lia|].
  apply (pigeonhole (λ i, point_number (f i))); [lia|vm_compute; discriminate| |].
  { intros i _. apply point_number_range. }
  assert (∀ i j, smul i generator ≠ padd P (smul j generator)) as Hmix.
  { intros i j E. apply Hn. assert (P = smul (i - j) generator) as ->.
    { rewrite smul_sub, E, <- padd_assoc, padd_opp. by rewrite padd_0_r. }
    rewrite smul_comm, generator_full. apply smul_zero. }
  intros i j Hi Hj E%point_number_inj. unfold f in E.
  destruct (Z.ltb_spec i full_order) as [Li|Li], (Z.ltb_spec j full_order) as [Lj|Lj].
  - apply generator_inj; [lia|lia|exact E].
  - by apply Hmix in E.
  - symmetry in E. by apply Hmix in E.
  - apply padd_cancel_l, generator_inj in E; lia.
Qed.

(** Multiples of eight lie in the subgroup of prime order. *)
Definition in_subgroup (P : point) : Prop := smul base_order P = pzero.
Lemma cofactor_subgroup P : in_subgroup (smul 8 P).
Proof. unfold in_subgroup. rewrite <- smul_mul, Z.mul_comm. apply exponent. Qed.
Lemma subgroup_mod P k : in_subgroup P → smul (k `mod` base_order) P = smul k P.
Proof.
  intros H. rewrite (Z_div_mod_eq_full k base_order) at 2. rewrite smul_add, Z.mul_comm, smul_mul, H.
  by rewrite smul_zero, padd_0_l.
Qed.
Lemma subgroup_neq P k : in_subgroup P → P ≠ pzero → ¬ (base_order | k) → smul k P ≠ pzero.
Proof.
  intros H HP Hn E. apply Z.coprime_prime_l, Z.Bezout_coprime in Hn as (u & v & Huv); [|exact prime_order].
  apply HP. rewrite <- (smul_1 P), <- Huv, smul_add, !smul_mul. by rewrite H, E, !smul_zero, padd_0_l.
Qed.
