(* ===== verification/Elligator.v ===== *)
(** Elligator: additions/elligator.c and ge_montx_to_p3.c map every hash to the curve.

    For every field element the Montgomery equation has a solution at the coordinate
    that [elligator] chooses, so that no assertion of [fe_sqrt] and [ge_montx_to_p3]
    fails, and [hash_to_point] gives a point of the subgroup of prime order. *)

From Bignums Require Import BigN.
From S2P Require Import Prelude Limbs Donna DonnaField DonnaBytes Scalar ScalarSpec Fe FeSpec.
From S2P Require Import Prime Field25519 Edwards GeBase Ge GeSpec GeTable Sha512 Sha512Spec XEd XEdSpec GroupOrder.
Import Fe Ge.

(** * Squares *)

Local Open Scope F_scope.

Definition mont_A : Fp := F 486662.
Definition mont_rhs (u : Fp) : Fp := u * (u * u + mont_A * u + 1).
Definition is_square (a : Fp) : Prop := ∃ w, a = w * w.

Lemma half_compute a : (0 <= a)%Z → BigN.to_Z (pow_mod (big a) (big p25519) (Z.to_pos p_half)) = ((p25519 - 1) `mod` p25519)%Z →
  fp_pow (F a) p_half = F (-1).
Proof.
  intros Ha H. change p_half with (Z.pos (Z.to_pos p_half)).
  rewrite (fp_pow_compute _ _ (p25519 - 1)); [apply F_eqp; vm_compute; reflexivity|done|vm_compute; discriminate|exact H].
Qed.
Lemma two_nonsquare : fp_pow (F 2) p_half = F (-1).
Proof. apply half_compute; [done|]. vm_compute. reflexivity. Qed.
(** [A - 2], the equation at [u = -1]. *)
Lemma minus_one_nonsquare : fp_pow (F 486660) p_half = F (-1).
Proof. apply half_compute; [done|]. vm_compute. reflexivity. Qed.
(** [A^2 - 4], the discriminant. *)
Lemma discriminant_nonsquare : fp_pow (F (486662 * 486662 - 4)) p_half = F (-1).
Proof. apply half_compute; [done|]. vm_compute. reflexivity. Qed.

Lemma minus_one_square : F (-1) * F (-1) = 1.
Proof. rewrite <- F_mul, <- F_1. apply F_eqp. reflexivity. Qed.

(** The candidate of [fe_sqrt]. *)
Definition sqrt_candidate (a : Fp) : Fp := a * fp_pow a (2 ^ 252 - 3).
Lemma sqrt_candidate_square a : sqrt_candidate a * sqrt_candidate a = a * fp_pow a (2 ^ 253 - 5).
Proof.
  unfold sqrt_candidate. replace (2 ^ 253 - 5)%Z with ((2 ^ 252 - 3) + (2 ^ 252 - 3) + 1)%Z by lia.
  rewrite !fp_pow_add, fp_pow_1 by lia. ring.
Qed.
Lemma power_quarter a : fp_pow a (2 ^ 253 - 5) * fp_pow a (2 ^ 253 - 5) = fp_pow a p_half.
Proof. rewrite <- fp_pow_add by lia. reflexivity. Qed.
(** Every nonzero element whose half power is one has a root: the candidate or [i]
    times it. *)
Lemma sqrt_ok a : a = 0 ∨ fp_pow a p_half = 1 → let b := sqrt_candidate a in
  b * b = a ∨ b * ed_i * (b * ed_i) = a.
Proof.
  intros Ha b. unfold b. replace (sqrt_candidate a * ed_i * (sqrt_candidate a * ed_i))
    with (ed_i * ed_i * (sqrt_candidate a * sqrt_candidate a)) by ring.
  rewrite sqrt_candidate_square, ed_i_square. destruct Ha as [->|Ha]; [left; ring|].
  assert (fp_pow a (2 ^ 253 - 5) * fp_pow a (2 ^ 253 - 5) = 1 * 1) as E by (rewrite power_quarter, Ha; ring).
  apply fsquares_eq in E as [-> | ->]; [left; ring|right]. ring.
Qed.
Lemma half_of_square w : w * w = 0 ∨ fp_pow (w * w) p_half = 1.
Proof.
  destruct (decide (w = 0)) as [->|Hw]; [left; ring|right].
  rewrite fp_pow_mul_l, <- fp_pow_add, p_half_twice by apply p_half_nonneg. by apply fermat.
Qed.
Lemma square_of_half a : a = 0 ∨ fp_pow a p_half = 1 → is_square a.
Proof. intros H. destruct (sqrt_ok a H) as [E|E]; eexists; symmetry; exact E. Qed.

(** * The map *)

Definition elligator_x (r : Fp) : Fp := - (fp_inv (F 2 * (r * r) + 1) * mont_A).
Definition elligator_u (r : Fp) : Fp :=
  let x := elligator_x r in
  if decide (fp_pow (mont_rhs x) p_half = F (-1)) then - (x + mont_A) else x.

(** [1 + 2 r^2] is not zero, since [-2] is no square. *)
Lemma elligator_denominator r : F 2 * (r * r) + 1 ≠ 0.
Proof.
  intros E. destruct (decide (r = 0)) as [->|Hr].
  { apply f1_neq_0. rewrite <- E. ring. }
  apply (nonsquare _ two_nonsquare (ed_i / r)). apply (fp_mul_cancel _ _ (r * r)); [by apply fp_mul_neq_0|].
  transitivity (ed_i * ed_i); [|field; done]. rewrite ed_i_square.
  transitivity ((F 2 * (r * r) + 1) + F (-1)); [ring|]. rewrite E. ring.
Qed.
Lemma elligator_x_spec r : elligator_x r * (F 2 * (r * r) + 1) = - mont_A.
Proof. unfold elligator_x. field. apply elligator_denominator. Qed.

Lemma elligator_square r : is_square (mont_rhs (elligator_u r)).
Proof.
  unfold elligator_u. cbv zeta. pose proof (elligator_x_spec r) as Hx. set (x := elligator_x r) in *. clearbody x.
  destruct (decide (fp_pow (mont_rhs x) p_half = F (-1))) as [Hn|Hn].
  - assert (- (x + mont_A) = F 2 * (r * r) * x) as ->.
    { transitivity (- mont_A - x); [ring|]. rewrite <- Hx. ring. }
    assert (mont_rhs (F 2 * (r * r) * x) = F 2 * mont_rhs x * (r * r)) as ->.
    { unfold mont_rhs. assert (mont_A = - (x * (F 2 * (r * r) + 1))) as -> by (rewrite Hx; ring). ring. }
    destruct (square_of_half (F 2 * mont_rhs x)) as [w Hw].
    { right. rewrite fp_pow_mul_l, two_nonsquare, Hn by apply p_half_nonneg. apply minus_one_square. }
    exists (w * r). rewrite Hw. ring.
  - apply square_of_half. destruct (decide (mont_rhs x = 0)) as [|H0]; [by left|right].
    destruct (fp_pow_half _ H0) as [|]; [done|]. by destruct Hn.
Qed.

(** * The point of a coordinate *)

(** [sqrt(-(A + 2))]. *)
Definition mont_c : Fp := F (le_value A_bytes).
Lemma mont_c_square : mont_c * mont_c = - (mont_A + F 2).
Proof. unfold mont_c, mont_A. rewrite <- F_mul, <- F_add, <- F_opp. apply F_eqp. vm_compute. reflexivity. Qed.

Lemma mont_quadratic u : u * u + mont_A * u + 1 ≠ 0.
Proof.
  intros E. apply (nonsquare _ discriminant_nonsquare (F 2 * u + mont_A)).
  transitivity (mont_A * mont_A - F 4); [unfold mont_A; rewrite F_sub, F_mul; ring|].
  transitivity (F 4 * (u * u + mont_A * u + 1) + (mont_A * mont_A - F 4)); [rewrite E; ring|].
  change 4%Z with (2 * 2)%Z. rewrite F_mul. ring_simplify. replace (F 2) with (1 + 1); [ring|].
  rewrite <- F_1, <- F_add. reflexivity.
Qed.
Lemma mont_not_minus_one u : is_square (mont_rhs u) → u + 1 ≠ 0.
Proof.
  intros [w Hw] E. apply (nonsquare _ minus_one_nonsquare w). rewrite <- Hw.
  assert (u = - (1)) as -> by (transitivity ((u + 1) - 1); [ring|rewrite E; ring]).
  unfold mont_rhs, mont_A. change 486660%Z with (486662 - 2)%Z. rewrite F_sub.
  replace (F 2) with (1 + 1) by (rewrite <- F_1, <- F_add; reflexivity). ring.
Qed.

Lemma d_times : ed_d * (mont_A + F 2) = - (mont_A - F 2).
Proof.
  unfold mont_A. replace (F 486662 + F 2) with (F 4 * F 121666) by (rewrite <- F_mul, <- F_add; reflexivity).
  transitivity (F 4 * (F 121666 * ed_d)); [ring|]. rewrite ed_d_ratio.
  rewrite <- F_mul, <- F_sub, <- F_opp. reflexivity.
Qed.
Lemma two_is : F 2 = 1 + 1.
Proof. rewrite <- F_1, <- F_add. reflexivity. Qed.
Lemma birational u X Y : (u + 1) * (u + 1) ≠ 0 → u * u + mont_A * u + 1 ≠ 0 →
  X * (u * u + mont_A * u + 1) = - (mont_A + F 2) * u → Y * ((u + 1) * (u + 1)) = (u - 1) * (u - 1) →
  Y - X = 1 + ed_d * (X * Y).
Proof.
  intros H1 HQ EX EY. set (Q := u * u + mont_A * u + 1) in *.
  apply (fp_mul_cancel _ _ (Q * ((u + 1) * (u + 1)))); [by apply fp_mul_neq_0|].
  transitivity (Q * (Y * ((u + 1) * (u + 1))) - X * Q * ((u + 1) * (u + 1))); [ring|].
  transitivity (Q * ((u + 1) * (u + 1)) + ed_d * (X * Q) * (Y * ((u + 1) * (u + 1)))); [|ring].
  rewrite EX, EY. transitivity (Q * ((u + 1) * (u + 1)) - (ed_d * (mont_A + F 2)) * u * ((u - 1) * (u - 1))); [|ring].
  rewrite d_times. unfold Q. rewrite two_is. ring.
Qed.
Lemma mont_on_curve u w : mont_rhs u = w * w → on_curve (u * mont_c * fp_inv w) (edwards_y u).
Proof.
  intros Hw. pose proof (mont_not_minus_one u (ex_intro _ w Hw)) as H1. pose proof (mont_quadratic u) as HQ.
  unfold on_curve. destruct (decide (u = 0)) as [->|Hu].
  - replace (edwards_y 0) with (- (1)) by (unfold edwards_y; field; exact H1). ring.
  - assert (w ≠ 0) as Hw0.
    { intros E. apply (fp_mul_neq_0 _ _ Hu HQ). transitivity (w * w); [exact Hw|]. rewrite E. ring. }
    apply (birational u); [by apply fp_mul_neq_0|exact HQ| |unfold edwards_y; field; exact H1].
    apply (fp_mul_cancel _ _ u); [exact Hu|].
    transitivity (u * mont_c * fp_inv w * (u * mont_c * fp_inv w) * mont_rhs u); [unfold mont_rhs; ring|].
    rewrite Hw. transitivity (u * u * (mont_c * mont_c)); [field; exact Hw0|]. rewrite mont_c_square. ring.
Qed.
Local Close Scope F_scope.

(** * The code *)

Lemma fel_A : fel 1 fe_A mont_A.
Proof. apply (fel_lift _ _ _ _ felem_A). reflexivity. Qed.
#[local] Hint Resolve fel_A : fel.
Lemma runs_step {A C} (m : option A) (k : A → option C) x Q : m = Some x → runs (k x) Q → runs (m ≫= k) Q.
Proof. intros -> H. exact H. Qed.
Lemma cmov_runs c d e f g x y b : fel c f x → fel d g y → c <= e → d <= e → e <= 2048 → b = 0 ∨ b = 1 →
  runs (fe_cmov f g b) (λ h, fel e h (if decide (b = 1) then y else x)).
Proof.
  intros Hf Hg Hc Hd He Hb. apply (fel_weaken c e _ _ x) in Hf; [|done|done]. apply (fel_weaken d e _ _ y) in Hg; [|done|done].
  rewrite (fel_cmov _ _ _ _ _ _ Hf Hg He Hb). apply runs_some. by destruct (decide (b = 1)).
Qed.
Lemma fel_mont_rhs c f u : fel c f u → c <= 211 → runs (fe_mont_rhs f) (λ h, fel 65 h (mont_rhs u)).
Proof.
  intros Hf%fel_felem Hc. destruct (fe_mont_rhs_ok f _ (felem_weaken _ _ _ _ Hf Hc)) as (h & -> & Hh).
  apply runs_some, (fel_lift _ _ _ _ Hh). unfold mont_rhs, mont_A. by rewrite !F_mul, !F_add, !F_mul, F_val, F_1.
Qed.
Lemma half_power x : (fp_pow x (2 ^ 252 - 3) * fp_pow x (2 ^ 252 - 3) * (fp_pow x (2 ^ 252 - 3) * fp_pow x (2 ^ 252 - 3)) * x * x)%F =
  fp_pow x p_half.
Proof.
  change p_half with ((2 ^ 252 - 3) + (2 ^ 252 - 3) + ((2 ^ 252 - 3) + (2 ^ 252 - 3)) + 1 + 1).
  rewrite !fp_pow_add, fp_pow_1 by lia. ring.
Qed.
Lemma legendre_ok c f x : fel c f x → c <= 211 →
  legendre_is_nonsquare f = Some (if decide (fp_pow x p_half = F (-1)) then 1 else 0).
Proof.
  intros Hf Hc. enough (runs (legendre_is_nonsquare f) (λ n, n = if decide (fp_pow x p_half = F (-1)) then 1 else 0)) as (n & -> & ->)
    by done.
  unfold legendre_is_nonsquare. fe_steps.
  match goal with H : fel 65 ?h (_ * x * x)%F |- _ => rewrite half_power in H; rename H into Hp end.
  rewrite (fel_tobytes _ _ _ Hp) by lia. cbn [mbind option_bind]. clear - x.
  assert (fp_pow x p_half = 0%F ∨ fp_pow x p_half = 1%F ∨ fp_pow x p_half = F (-1)) as Hc.
  { destruct (decide (x = 0%F)) as [->|Hx]; [left; by apply fp_pow_0_l|right; by apply fp_pow_half]. }
  destruct Hc as [->|[-> | ->]].
  - rewrite fval_0, decide_False; [by apply runs_some|]. rewrite <- F_0. intros E%F_eqp. by vm_compute in E.
  - rewrite fval_1, decide_False; [by apply runs_some|]. rewrite <- F_1. intros E%F_eqp. by vm_compute in E.
  - rewrite fval_F, decide_True by done. change (-1 `mod` p25519) with (p25519 - 1). by apply runs_some.
Qed.

Lemma elligator_ok c f r : fel c f r → c <= 211 → runs (elligator f) (λ h, fel 66 h (elligator_u r)).
Proof.
  intros Hf Hc. unfold elligator. do 5 (let h := fresh "h" in let H := fresh "H" in fe_step h H).
  match goal with H : fel 65 ?h (- (fp_inv _ * mont_A))%F |- _ => fold (elligator_x r) in H; rename H into Hx; rename h into fx end.
  eapply runs_bind; [eapply fel_mont_rhs; [exact Hx|lia]|]. cbv beta. intros e He.
  eapply runs_step; [apply (legendre_ok _ _ _ He); lia|]. cbv beta. unfold elligator_u. cbv zeta.
  destruct (decide (fp_pow (mont_rhs (elligator_x r)) p_half = F (-1))).
  - eapply runs_bind; [apply (cmov_runs 1 1 1 _ _ _ _ 1 fel_0 fel_A); (lia || auto)|]. cbv beta. intros t Ht.
    rewrite decide_True in Ht by done. fe_step u Hu. fe_step v Hv.
    eapply runs_mono; [eapply (cmov_runs _ _ 66 _ _ _ _ 1 Hu Hv); (lia || auto)|]. cbv beta. intros w Hw.
    by rewrite decide_True in Hw.
  - eapply runs_bind; [apply (cmov_runs 1 1 1 _ _ _ _ 0 fel_0 fel_A); (lia || auto)|]. cbv beta. intros t Ht.
    rewrite decide_False in Ht by done. fe_step u Hu. fe_step v Hv.
    eapply runs_mono; [eapply (cmov_runs _ _ 66 _ _ _ _ 0 Hu Hv); (lia || auto)|]. cbv beta. intros w Hw.
    rewrite decide_False in Hw by done. eapply fel_weaken; [exact Hw|lia|ring].
Qed.

Lemma frombytes_constant s z : wf_bytes s → length s = 32%nat → F (le_value s `mod` 2 ^ 255) = F z →
  runs (fe_frombytes s) (λ f, fel 65 f (F z)).
Proof. intros Hs Ls E. eapply runs_mono; [by apply fel_frombytes|]. cbv beta. intros f Hf. by rewrite E in Hf. Qed.
Lemma fel_i : runs (fe_frombytes i_bytes) (λ f, fel 65 f ed_i).
Proof. apply frombytes_constant; [by repeat constructor|done|]. apply F_eqp. vm_compute. reflexivity. Qed.
Lemma fel_A_root : runs (fe_frombytes A_bytes) (λ f, fel 65 f mont_c).
Proof. apply frombytes_constant; [by repeat constructor|done|]. apply F_eqp. vm_compute. reflexivity. Qed.
Lemma fel_d_bytes : runs (fe_frombytes d_bytes) (λ f, fel 65 f ed_d).
Proof. apply frombytes_constant; [by repeat constructor|done|]. apply F_eqp. vm_compute. reflexivity. Qed.

Lemma isequal_runs c d f g x y Q : fel c f x → fel d g y → c + d <= 200 →
  Q (if decide (x = y) then 1 else 0) → runs (fe_isequal f g) Q.
Proof. intros Hf Hg Hc H. rewrite (fel_isequal _ _ _ _ _ _ Hf Hg Hc). by apply runs_some. Qed.

(** The tail of [fe_sqrt]: choosing between the candidate and [i] times it. *)
Lemma sqrt_tail f exp fi a : fel 65 f a → fel 65 exp (fp_pow a (2 ^ 252 - 3)) → fel 65 fi ed_i →
  a = 0%F ∨ fp_pow a p_half = 1%F →
  runs (b ← fe_mul f exp;
    b2 ← fe_sq b;
    bi ← fe_mul b fi;
    e ← fe_isequal b2 f;
    b ← fe_cmov b bi (Z.lxor 1 e);
    out ← fe_copy b;
    b2 ← fe_sq out;
    e ← fe_isequal f b2;
    if bool_decide (e ≠ 0) then Some out else None) (λ h, ∃ w, fel 65 h w ∧ (w * w)%F = a).
Proof.
  intros Hf Hexp Hi Ha. fe_step b Hb. fe_step b2 Hb2. fe_step bi Hbi. fold (sqrt_candidate a) in Hb, Hb2, Hbi.
  pose proof (sqrt_ok a Ha) as Hs. cbv zeta in Hs. set (s := sqrt_candidate a) in *. clearbody s.
  eapply runs_bind; [eapply (isequal_runs _ _ _ _ _ _ (λ e, e = if decide ((s * s)%F = a) then 1 else 0) Hb2 Hf); [lia|reflexivity]|].
  cbv beta. intros e ->.
  eapply runs_bind with (Q := λ w, fel 65 w (if decide ((s * s)%F = a) then s else (s * ed_i)%F)).
  { destruct (decide ((s * s)%F = a)) as [E|E].
    - eapply runs_mono; [eapply (cmov_runs _ _ 65 _ _ _ _ 0 Hb Hbi); (lia || auto)|]. cbv beta. intros w Hw. by rewrite decide_False in Hw.
    - eapply runs_mono; [eapply (cmov_runs _ _ 65 _ _ _ _ 1 Hb Hbi); (lia || auto)|]. cbv beta. intros w Hw. by rewrite decide_True in Hw. }
  cbv beta. intros w Hw. fe_step out Hout. fe_step o2 Ho2.
  assert (((if decide ((s * s)%F = a) then s else s * ed_i) * (if decide ((s * s)%F = a) then s else s * ed_i))%F = a) as Ew.
  { destruct (decide ((s * s)%F = a)) as [E|E]; [exact E|]. destruct Hs as [Hs|Hs]; [done|exact Hs]. }
  set (t := if decide ((s * s)%F = a) then s else (s * ed_i)%F) in *. clearbody t.
  eapply runs_bind; [eapply (isequal_runs _ _ _ _ _ _ (λ e, e = 1) Hf Ho2); [lia|]|].
  { by rewrite decide_True. }
  cbv beta. intros e ->. rewrite bool_decide_true by done. apply runs_some. exists t. split; [exact Hout|exact Ew].
Qed.
Lemma fe_sqrt_ok f a : fel 65 f a → is_square a → runs (fe_sqrt f) (λ h, ∃ w, fel 65 h w ∧ (w * w)%F = a).
Proof.
  intros Hf [v Hv]. assert (a = 0%F ∨ fp_pow a p_half = 1%F) as Ha by (rewrite Hv; apply half_of_square).
  unfold fe_sqrt. eapply runs_bind; [apply fel_i|]. cbv beta. intros fi Hi.
  fe_step xp Hxp. do 4 (let h := fresh "h" in let H := fresh "H" in fe_step h H).
  match goal with H : fel 65 ?h (_ * a * a)%F |- _ => rewrite half_power in H; rename H into Hp; rename h into fp end.
  eapply runs_bind; [eapply (isequal_runs _ _ _ _ _ _ (λ e, e = if decide (fp_pow a p_half = 0%F) then 1 else 0) Hp fel_0);
    [lia|reflexivity]|]. cbv beta. intros z ->.
  eapply runs_bind; [eapply (isequal_runs _ _ _ _ _ _ (λ e, e = if decide (fp_pow a p_half = 1%F) then 1 else 0) Hp fel_1);
    [lia|reflexivity]|]. cbv beta. intros o ->.
  assert ((if decide (fp_pow a p_half = 0%F) then 1 else 0) ≠ 0 ∨ (if decide (fp_pow a p_half = 1%F) then 1 else 0) ≠ 0) as Hd.
  { destruct Ha as [Ha|Ha]; [left|right].
    - rewrite decide_True; [lia|]. rewrite Ha. by apply fp_pow_0_l.
    - rewrite decide_True; [lia|exact Ha]. }
  rewrite (bool_decide_true _ Hd). exact (sqrt_tail f xp fi a Hf Hxp Hi Ha).
Qed.

Lemma check_on_curve_ok X Y x y : fel 65 X x → fel 65 Y y → on_curve x y → check_on_curve X Y = Some ().
Proof.
  intros HX HY Hon. enough (runs (check_on_curve X Y) (λ _, True)) as ([] & -> & _) by done.
  unfold check_on_curve. eapply runs_bind; [apply fel_d_bytes|]. cbv beta. intros d Hd. fe_steps.
  match goal with |- runs (fe_isequal ?f ?g ≫= _) _ =>
    match goal with Hf : fel _ f _, Hg : fel _ g _ |- _ =>
      eapply runs_bind; [eapply (isequal_runs _ _ _ _ _ _ (λ e, e = 1) Hf Hg); [lia|]|] end end.
  - rewrite decide_True; [done|]. unfold on_curve in Hon. transitivity (y * y - x * x)%F; [ring|]. rewrite Hon. ring.
  - cbv beta. intros e ->. by apply runs_some.
Qed.

Lemma bits_differ a n : a = 0 ∨ a = 1 → n = 0 ∨ n = 1 →
  (Z.lxor a n = 1 → 1 - a = n) ∧ (Z.lxor a n ≠ 1 → a = n).
Proof. by intros [-> | ->] [-> | ->]. Qed.
Lemma ge_montx_to_p3_ok c f u n : fel c f u → c <= 128 → is_square (mont_rhs u) → n = 0 ∨ n = 1 →
  runs (ge_montx_to_p3 f n) (λ h, ∃ P, rep_p3 h P ∧ py P = edwards_y u ∧ (px P = 0%F ∨ fval (px P) `mod` 2 = n)).
Proof.
  intros Hf Hc Hsq Hn. unfold ge_montx_to_p3. eapply runs_bind; [apply fel_A_root|]. cbv beta. intros fA HA.
  eapply runs_bind; [eapply fel_montx_to_edy; [exact Hf|lia]|]. cbv beta. intros Y HY.
  eapply runs_bind; [eapply fel_mont_rhs; [exact Hf|lia]|]. cbv beta. intros v2 Hv2.
  eapply runs_bind; [apply (fe_sqrt_ok _ _ Hv2 Hsq)|]. cbv beta. intros v (w & Hv & Ew). symmetry in Ew.
  pose proof (mont_on_curve u w Ew) as Hon. clear Ew Hsq Hv2.
  fe_step x0 Hx0. fe_step iv Hiv. fe_step X HX. fe_step NX HNX.
  set (x := (u * mont_c * fp_inv w)%F) in *. clearbody x.
  eapply runs_step; [apply (fel_isnegative _ _ _ HX); lia|]. cbv beta.
  assert (Z.lxor (fval x `mod` 2) n = 0 ∨ Z.lxor (fval x `mod` 2) n = 1) as Hl.
  { destruct (parity (fval x)) as [-> | ->], Hn as [-> | ->]; auto. }
  eapply runs_bind with (Q := λ X', ∃ x', fel 65 X' x' ∧ on_curve x' (edwards_y u) ∧ (x' = 0%F ∨ fval x' `mod` 2 = n)).
  { eapply runs_mono; [eapply (cmov_runs _ _ 65 _ _ _ _ _ HX HNX); (lia || auto)|]. cbv beta. intros X' HX'.
    eexists. split; [exact HX'|]. destruct (decide (Z.lxor (fval x `mod` 2) n = 1)) as [E|E].
    - split; [by apply opp_on_curve|]. destruct (decide (x = 0%F)) as [->|Hx]; [left; ring|right].
      rewrite parity_opp by done. apply (bits_differ _ _ (parity _) Hn), E.
    - split; [exact Hon|right]. apply (bits_differ _ _ (parity _) Hn), E. }
  cbv beta. clear Hl. intros X' (x' & HX' & Hon' & Hp). fe_step X1 HX1. fe_step Y1 HY1. fe_step T HT.
  eapply runs_step; [apply (check_on_curve_ok _ _ _ _ HX1 HY1 Hon')|]. cbv beta. apply runs_some.
  exists (Point x' (edwards_y u) Hon'). split; [|by split].
  exists 1%F. split; [apply f1_neq_0|]. cbn [p3_X p3_Y p3_Z p3_T px py].
  split_and!; [fel_done HX1|fel_done HY1| |fel_done HT]. eapply fel_weaken; [apply fel_1|lia|ring].
Qed.

(** * Hashing to the curve *)

Lemma load_3_app x y off : (off + 2 < length x)%nat → load_3 (x ++ y) off = load_3 x off.
Proof. intros H. unfold load_3. by rewrite !lookup_app_l by lia. Qed.
Lemma load_4_app x y off : (off + 3 < length x)%nat → load_4 (x ++ y) off = load_4 x off.
Proof. intros H. unfold load_4. by rewrite !lookup_app_l by lia. Qed.
(** [fe_frombytes] reads 32 bytes of a longer array. *)
Lemma fe_frombytes_app x y : length x = 32%nat → fe_frombytes (x ++ y) = fe_frombytes x.
Proof. intros Lx. unfold fe_frombytes. cbv zeta. by rewrite !load_4_app, !load_3_app by lia. Qed.

(** The number and the sign bit that are mapped. *)
Definition hash_number (m : bytes) : Fp := F (le_value (take 32 (sha512 m)) `mod` 2 ^ 255).

Lemma hash_top m : ∃ b rest, sha512 m !! 31%nat = Some b ∧
  (Z.shiftr (Z.land b 0x80) 7 = 0 ∨ Z.shiftr (Z.land b 0x80) 7 = 1) ∧
  <[31%nat := Z.land b 0x7f]> (sha512 m) = le_bytes 32 (le_value (take 32 (sha512 m)) `mod` 2 ^ 255) ++ rest.
Proof.
  pose proof (wf_sha512 m) as Hw. pose proof (length_sha512 m) as Hl. set (h := sha512 m) in *. clearbody h.
  rewrite <- (take_drop 32 h) in Hw. apply wf_bytes_app in Hw as [Hx _].
  assert (length (take 32 h) = 32%nat) as Lx by (rewrite length_take; lia).
  pose proof (take_drop 32 h) as Eh. set (x := take 32 h) in *. set (y := drop 32 h) in *. clearbody x y. subst h.
  destruct (bytes_split x Hx Lx) as [E Hn]. set (v := le_value x) in *.
  assert (0 <= v `mod` 2 ^ 255 < 2 ^ 255) as Hv by (apply Z.mod_pos_bound; lia).
  pose proof (top_byte_of _ _ Hv Hn) as Eb. rewrite <- E in Eb. eexists _, y.
  rewrite lookup_app_l by lia. split; [exact Eb|]. split.
  - rewrite (top_bit_of _ _ Hv Hn). destruct Hn as [-> | ->]; auto.
  - rewrite insert_app_l by lia. f_equal. pose proof (top_bit_clear _ _ Hv Hn) as Ec. rewrite <- E in Ec.
    unfold on_byte in Ec. rewrite Eb in Ec. cbn [mbind option_bind] in Ec. congruence.
Qed.
Lemma hash_to_point_ok m : wf_bytes m → zlen m < 2 ^ 64 →
  runs (hash_to_point m) (λ h, ∃ Q, rep_p3 h (smul 8 Q) ∧ py Q = edwards_y (elligator_u (hash_number m))).
Proof.
  intros Hm Lm. unfold hash_to_point. eapply runs_step; [by apply crypto_hash_sha512_run|]. cbv beta.
  destruct (hash_top m) as (b & rest & Eb & Hn & Ei). eapply runs_step; [exact Eb|]. cbv beta zeta.
  rewrite Ei, fe_frombytes_app by apply length_le_bytes.
  eapply runs_bind; [apply fel_frombytes; [apply wf_le_bytes|apply length_le_bytes]|]. cbv beta. intros f Hf.
  assert (0 <= le_value (take 32 (sha512 m)) `mod` 2 ^ 255 < 2 ^ 255) as Hv by (apply Z.mod_pos_bound; lia).
  rewrite le_value_bytes_small, Z.mod_mod in Hf by (lia || change (256 ^ Z.of_nat 32) with (2 ^ 256); lia).
  fold (hash_number m) in Hf. clear Eb Ei Hv. generalize dependent (hash_number m). intros r Hf.
  eapply runs_bind; [apply (elligator_ok _ _ _ Hf); lia|]. cbv beta. intros u Hu.
  eapply runs_bind; [apply (ge_montx_to_p3_ok _ _ _ _ Hu ltac:(lia) (elligator_square r) Hn)|].
  cbv beta. intros p (Q & HQ & Ey & _). eapply runs_mono; [by apply ge_scalarmult_cofactor_ok|].
  cbv beta. intros h Hh. exists Q. split; [exact Hh|exact Ey].
Qed.

(** C17: [hash_to_point] is total: whatever bytes are hashed, Elligator finds a coordinate
    of the curve, no assertion of [fe_sqrt] or [ge_montx_to_p3] fails and no limb
    overflows, and the result represents a point of the subgroup of prime order, eight
    times a point with the [y] that the specification of Elligator gives. *)
Theorem hash_to_point_total (m : bytes) : wf_bytes m → zlen m < 2 ^ 64 →
  ∃ h Q, hash_to_point m = Some h ∧ rep_p3 h (smul 8 Q) ∧ py Q = edwards_y (elligator_u (hash_number m)) ∧
    smul base_order (smul 8 Q) = pzero.
Proof.
  intros Hm Lm. destruct (hash_to_point_ok m Hm Lm) as (h & E & Q & HQ & Ey).
  exists h, Q. split; [exact E|]. split; [exact HQ|]. split; [exact Ey|apply cofactor_subgroup].
Qed.

Lemma hash_to_point_total_witness : ∃ h Q, hash_to_point [1; 2; 3] = Some h ∧ rep_p3 h (smul 8 Q).
Proof.
  destruct (hash_to_point_total [1; 2; 3]) as (h & Q & E & HQ & _); [by repeat constructor|reflexivity|].
  exists h, Q. split; assumption.
Defined.
