(* ===== verification/GenEdSpec.v ===== *)
(** Generalized EdDSA: what [generalized_commit] and [generalized_challenge] hash, and
    when [generalized_eddsa_25519_verify] accepts.

    The commitment hashes [B || labels || Z] padded to a block, the private scalar padded
    to a block, then labels, key, extra bytes and the message; the challenge hashes
    [B || labels || R || labels || K || extra || M], or [R || K || M] for the empty label
    set, which is the hash of Ed25519. *)

From S2P Require Import Prelude Limbs Donna DonnaField DonnaBytes Scalar ScalarSpec Fe FeSpec.
From S2P Require Import Field25519 Edwards GeBase Ge GeSpec GeTable GeMult GeSlide Sha512 Sha512Spec XEd XEdSpec XEdSign.
From S2P Require Import Labels GenEd GenVrf LabelsSpec.
Import Fe Ge.

(** * Filling the buffer in front of the message *)

Lemma cut_at {A} (l : list A) a b : length l = (a + b)%nat → ∃ x y, l = x ++ y ∧ length x = a ∧ length y = b.
Proof.
  intros L. exists (take a l), (drop a l). rewrite take_drop, length_take, length_drop. split; [done|]. lia.
Qed.
Lemma buffer_adds_at inputs j x mid post bufend : length mid = length (inputs_bytes inputs) →
  (length j + length x + length mid <= bufend)%nat →
  buffer_adds (j ++ x ++ mid ++ post) (Some (length j + length x)%nat) bufend inputs =
    Some (j ++ (x ++ inputs_bytes inputs) ++ post, Some (length j + length (x ++ inputs_bytes inputs))%nat).
Proof.
  intros Lm He. rewrite (app_assoc j), <- length_app.
  rewrite buffer_adds_ok by (rewrite ?length_app; lia).
  rewrite <- !app_assoc, !length_app, Lm. do 2 f_equal. f_equal. lia.
Qed.
Lemma pad_len_lt n : (pad_len n < 128)%nat.
Proof. apply Nat.mod_upper_bound. unfold BLOCKLEN. lia. Qed.
Lemma pad_to_block_len n : pad_to_block n = (n + pad_len n)%nat.
Proof. done. Qed.

(** What the two hashes are taken of. *)
Definition commit_prefix (L K k z E : bytes) : bytes := padded (padded (B_bytes ++ L ++ z) ++ k) ++ L ++ K ++ E.
Definition challenge_prefix (L R K E : bytes) : bytes :=
  if labelset_is_empty (length L) then R ++ K else B_bytes ++ L ++ R ++ L ++ K ++ E.

Lemma length_commit_prefix L K k z E : length K = 32%nat → length k = 32%nat → length z = 32%nat →
  length (commit_prefix L K k z E) = commit_prefix_len (length L) (length E).
Proof.
  intros LK Lk Lz. unfold commit_prefix, commit_prefix_len. rewrite !length_app, length_padded, length_app, length_padded.
  rewrite !length_app, LK, Lk, Lz. change (length B_bytes) with 32%nat. unfold POINTLEN, RANDLEN, SCALARLEN.
  replace (32 + (length L + 32))%nat with (32 + length L + 32)%nat by lia. lia.
Qed.
Lemma commit_prefix_bound n e : (n <= 512)%nat → (e <= 96)%nat → (commit_prefix_len n e <= MSTART)%nat.
Proof.
  intros Hn He. unfold commit_prefix_len. rewrite !pad_to_block_len.
  pose proof (pad_len_lt (POINTLEN + n + RANDLEN)).
  pose proof (pad_len_lt (POINTLEN + n + RANDLEN + pad_len (POINTLEN + n + RANDLEN) + SCALARLEN)).
  unfold POINTLEN, RANDLEN, SCALARLEN, MSTART in *. lia.
Qed.
Lemma wf_B_bytes : wf_bytes B_bytes.
Proof. apply Forall_cons_2; [done|]. apply Forall_replicate. done. Qed.
Lemma wf_commit_prefix L K k z E : wf_bytes L → wf_bytes K → wf_bytes k → wf_bytes z → wf_bytes E →
  wf_bytes (commit_prefix L K k z E).
Proof.
  intros HL HK Hk Hz HE. pose proof wf_B_bytes. unfold commit_prefix. rewrite !wf_bytes_app. split; [|tauto].
  apply wf_padded. rewrite wf_bytes_app. split; [|done]. apply wf_padded. rewrite !wf_bytes_app. tauto.
Qed.
Lemma wf_challenge_prefix L R K E : wf_bytes L → wf_bytes R → wf_bytes K → wf_bytes E → wf_bytes (challenge_prefix L R K E).
Proof.
  intros. pose proof wf_B_bytes. unfold challenge_prefix. destruct (labelset_is_empty _); rewrite !wf_bytes_app; tauto.
Qed.
(** Writing the prefix of the commitment in front of the message. *)
Lemma fill_commit j mid post L K k z extra bufend :
  let E := default [] extra in
  length K = 32%nat → length k = 32%nat → length z = 32%nat →
  length mid = length (commit_prefix L K k z E) → bufend = (length j + length mid)%nat →
  (r ← buffer_adds (j ++ mid ++ post) (Some (length j)) bufend [Some B_bytes; Some L; Some z];
   r ← buffer_pad r.1 (length j) r.2 bufend;
   r ← buffer_adds r.1 r.2 bufend [Some k];
   r ← buffer_pad r.1 (length j) r.2 bufend;
   buffer_adds r.1 r.2 bufend [Some L; Some K; extra]) =
  Some (j ++ commit_prefix L K k z E ++ post, Some bufend).
Proof.
  intros E LK Lk Lz Lm ->. assert (length E = extra_len extra) as LE by (by destruct extra).
  assert (inputs_bytes [Some L; Some K; extra] = L ++ K ++ E) as E5 by (unfold inputs_bytes; cbn; by rewrite app_nil_r).
  assert (length (inputs_bytes [Some L; Some K; extra]) = length L + length K + length E)%nat as L5
    by (rewrite E5, !length_app; lia).
  unfold commit_prefix in *. set (x1 := B_bytes ++ L ++ z) in *. set (x2 := padded x1 ++ k) in *.
  unfold padded in Lm at 1. rewrite !length_app, length_replicate in Lm.
  unfold x2 in Lm at 1. rewrite length_app in Lm. unfold padded in Lm. rewrite !length_app, length_replicate in Lm.
  destruct (cut_at mid (length x1 + pad_len (length x1) + length k + pad_len (length x2))
    (length L + length K + length E)) as (m4 & m5 & -> & L4 & L5'); [lia|]. clear Lm.
  destruct (cut_at m4 _ _ L4) as (m3 & n4 & -> & L3 & M4). destruct (cut_at m3 _ _ L3) as (m2 & n3 & -> & L2 & M3).
  destruct (cut_at m2 _ _ L2) as (n1 & n2 & -> & L1 & M2). rewrite <- !app_assoc. rewrite !length_app.
  assert (inputs_bytes [Some B_bytes; Some L; Some z] = x1) as E1
    by (unfold inputs_bytes, x1; cbn -[B_bytes]; by rewrite app_nil_r).
  pose proof (buffer_adds_at [Some B_bytes; Some L; Some z] j [] n1) as A1. cbn [app length] in A1.
  rewrite Nat.add_0_r, E1 in A1. rewrite A1 by lia. cbn [mbind option_bind fst snd]. clear A1.
  rewrite buffer_pad_ok by lia. cbn [mbind option_bind fst snd].
  assert (length (padded x1) = length x1 + pad_len (length x1))%nat as P1 by (unfold padded; by rewrite length_app, length_replicate).
  assert (inputs_bytes [Some k] = k) as E2 by (unfold inputs_bytes; cbn; apply app_nil_r).
  rewrite buffer_adds_at by (rewrite ?E2; lia). rewrite E2. cbn [mbind option_bind fst snd]. fold x2.
  assert (length x2 = length (padded x1) + length k)%nat as P2 by (unfold x2; by rewrite length_app).
  rewrite buffer_pad_ok by lia. cbn [mbind option_bind fst snd].
  assert (length (padded x2) = length x2 + pad_len (length x2))%nat as P3 by (unfold padded; by rewrite length_app, length_replicate).
  rewrite buffer_adds_at by lia. rewrite (length_app (padded x2)), L5, E5, <- !app_assoc.
  do 3 f_equal. lia.
Qed.

(** * The two hashes *)

Lemma length_extra (extra : option bytes) : length (default [] extra) = extra_len extra.
Proof. by destruct extra. Qed.

(** One step of a computation that succeeds. *)
Lemma bind_step {A C} (m : option A) (f : A → option C) x y : m = Some x → f x = y → (m ≫= f) = y.
Proof. intros -> E. exact E. Qed.
Lemma bind_bind_step {A1 A2 A3 C} (m : option A1) (f : A1 → option A2) (g : A2 → option A3) (k : A3 → option C) x y :
  (a ← m; b ← f a; g b) = Some x → k x = y → (a ← m; b ← f a; c ← g b; k c) = y.
Proof. destruct m as [a|]; [|done]. cbn. destruct (f a) as [b|]; [|done]. cbn. intros -> E. exact E. Qed.

Lemma mem_read_length s off n r : mem_read s off n = Some r → length r = n.
Proof.
  unfold mem_read. destruct (Nat.leb_spec (off + n) (length s)) as [H|]; [|done]. intros [= <-].
  rewrite length_take, length_drop. lia.
Qed.
Lemma front_hash j p msg off n : wf_bytes p → (length p <= MSTART)%nat → wf_bytes msg → zlen msg < 2 ^ 63 →
  off = length j → n = length p →
  (hashed ← mem_read (j ++ p ++ msg) off (n + length msg); hash ← crypto_hash_sha512 hashed; sc_reduce hash) =
    Some (le_bytes 32 (hash_scalar (p ++ msg))).
Proof.
  intros Wp Bp Hm Lm -> ->. rewrite mem_read_last by (rewrite ?length_app; done). cbn [mbind option_bind].
  apply hash_reduce; [by rewrite wf_bytes_app|]. unfold zlen, MSTART in *. rewrite length_app. lia.
Qed.
Lemma commit_tail j p msg off n : wf_bytes p → (length p <= MSTART)%nat → wf_bytes msg → zlen msg < 2 ^ 63 →
  off = length j → n = length p →
  (hashed ← mem_read (j ++ p ++ msg) off (n + length msg);
   hash ← crypto_hash_sha512 hashed;
   hash ← sc_reduce hash;
   R_point ← ge_scalarmult_base hash;
   R_bytes ← ge_p3_tobytes R_point;
   M_buf ← mem_write (j ++ p ++ msg) off (replicate n 0);
   Some (Some (R_bytes, hash), M_buf)) =
  Some (Some (encode (smul (hash_scalar (p ++ msg)) B), le_bytes 32 (hash_scalar (p ++ msg))), j ++ replicate n 0 ++ msg).
Proof.
  intros Wp Bp Hm Lm Ho Hn. pose proof (front_hash j p msg off n Wp Bp Hm Lm Ho Hn) as Eh.
  pose proof (hash_scalar_range (p ++ msg)) as Hr.
  revert Eh Hr. generalize (hash_scalar (p ++ msg)) as r. intros r Eh Hr.
  destruct (base_multiple r Hr) as (R & ER & Eb). revert Eb. generalize (encode (smul r B)) as Rb. intros Rb Eb.
  apply (bind_bind_step _ _ _ _ _ _ Eh). cbv beta. apply (bind_step _ _ _ _ ER). cbv beta.
  apply (bind_step _ _ _ _ Eb). cbv beta. apply (bind_step _ _ (j ++ replicate n 0 ++ msg)); [|reflexivity].
  apply mem_write_at; [assumption|]. by rewrite length_replicate.
Qed.

Section Hashes.
Context (ls : list bytes) (rest : bytes) (Hfit : Forall label_fits ls) (Hwf : Forall wf_bytes ls)
  (Hcount : (length ls < 256)%nat) (Hlen : (3 <= length (labelset_of ls) <= LABELSETMAXLEN)%nat).
Let L := labelset_of ls.
Lemma labels_valid : labelset_validate (L ++ rest) (length L) = Some 0.
Proof using Hfit Hlen. by apply labelset_validate_ok. Qed.
Context (extra : option bytes) (Hextra : bad_extra (length L) extra = false) (He : wf_bytes (default [] extra))
  (Le : (extra_len extra <= 96)%nat).
Let E := default [] extra.
Context (K msg junk : bytes) (HK : wf_bytes K) (LK : length K = 32%nat) (Hm : wf_bytes msg) (Lm : zlen msg < 2 ^ 63)
  (Lj : length junk = MSTART).

Lemma generalized_commit_ok k random z : wf_bytes k → length k = 32%nat → mem_read random 0 RANDLEN = Some z → wf_bytes z →
  let r := hash_scalar (commit_prefix L K k z E ++ msg) in
  ∃ junk', length junk' = MSTART ∧
    generalized_commit (L ++ rest) (length L) extra K k (Some random) (junk ++ msg) MSTART (length msg) =
      Some (Some (encode (smul r B), le_bytes 32 r), junk' ++ msg).
Proof using All.
  intros Hk Lk Ez Hz r. pose proof (mem_read_length _ _ _ _ Ez) as Lz. unfold RANDLEN in Lz. unfold generalized_commit. rewrite labels_valid. cbn [mbind option_bind].
  change (negb (0 =? 0)) with false. cbv iota. rewrite Hextra. cbv zeta.
  pose proof (length_commit_prefix L K k z E LK Lk Lz) as Lp. unfold E in Lp; rewrite length_extra in Lp; fold E in Lp. rewrite <- Lp.
  pose proof (commit_prefix_bound (length L) (extra_len extra) (proj2 Hlen) Le) as Hb. rewrite <- Lp in Hb.
  rewrite (proj2 (Nat.ltb_ge _ _)) by done.
  rewrite (mem_read_all K), (mem_read_all k), Ez, (mem_read_first L) by done. cbn [mbind option_bind].
  destruct (cut_at junk (MSTART - length (commit_prefix L K k z E)) (length (commit_prefix L K k z E)))
    as (j & mid & -> & Hj & Hmid); [lia|]. rewrite <- Hj, <- app_assoc.
  pose proof (fill_commit j mid msg L K k z extra MSTART LK Lk Lz Hmid) as F.
  specialize (F ltac:(lia)). fold E in F. clear Hj.
  destruct (buffer_adds (j ++ _) _ _ _) as [r1|]; [|done]. cbn [mbind option_bind] in F |- *.
  destruct (buffer_pad r1.1 _ _ _) as [r2|]; [|done]. cbn [mbind option_bind] in F |- *.
  destruct (buffer_adds r2.1 _ _ _) as [r3|]; [|done]. cbn [mbind option_bind] in F |- *.
  destruct (buffer_pad r3.1 _ _ _) as [r4|]; [|done]. cbn [mbind option_bind] in F |- *.
  rewrite F. cbn [mbind option_bind fst snd]. clear F r1 r2 r3 r4. rewrite bool_decide_true by done. cbn [negb].
  pose proof (wf_commit_prefix L K k z E (wf_labelset ls Hwf Hfit Hcount) HK Hk Hz He) as Wp.
  subst r. rewrite commit_tail by (assumption || reflexivity || (symmetry; assumption)).
  eexists. split; [|by rewrite app_assoc]. rewrite length_app, length_replicate in *. lia.
Qed.

Lemma generalized_challenge_ok R : wf_bytes R → length R = 32%nat →
  ∃ M', generalized_challenge (L ++ rest) (length L) extra R K (junk ++ msg) MSTART (length msg) =
    Some (Some (le_bytes 32 (hash_scalar (challenge_prefix L R K E ++ msg))), M').
Proof using All.
  intros HR LR. unfold generalized_challenge. rewrite labels_valid. cbn [mbind option_bind].
  change (negb (0 =? 0)) with false. cbv iota. rewrite Hextra.
  rewrite (mem_read_all K), (mem_read_all R) by done. cbn [mbind option_bind].
  pose proof (wf_challenge_prefix L R K E (wf_labelset ls Hwf Hfit Hcount) HR HK He) as Wp.
  assert (∀ j p, wf_bytes p → (length p <= MSTART)%nat → length j = (MSTART - length p)%nat →
    ∃ M', (hashed ← mem_read (j ++ p ++ msg) (MSTART - length p) (length p + length msg);
      hash ← crypto_hash_sha512 hashed; h ← sc_reduce hash; Some (Some h, j ++ p ++ msg)) =
      Some (Some (le_bytes 32 (hash_scalar (p ++ msg))), M')) as Hash.
  { clear - Hm Lm. intros j p Wp Bp Lp. exists (j ++ p ++ msg).
    pose proof (front_hash j p msg (MSTART - length p) (length p) Wp Bp Hm Lm (eq_sym Lp) eq_refl) as Eh.
    by apply (bind_bind_step _ _ _ _ _ _ Eh). }
  unfold challenge_prefix in *. destruct (labelset_is_empty (length L)).
  - change (MSTART <? 2 * POINTLEN)%nat with false. cbv iota.
    destruct (cut_at junk (MSTART - 64) 64) as (j & mid & -> & Hj & Hmid); [rewrite Lj; unfold MSTART; lia|].
    destruct (cut_at mid 32 32 Hmid) as (m1 & m2 & -> & M1 & M2). rewrite <- !app_assoc.
    rewrite mem_write_at by (unfold POINTLEN; lia). cbn [mbind option_bind].
    rewrite (app_assoc j R), (mem_write_at (j ++ R) m2 msg) by (rewrite ?length_app; unfold POINTLEN, MSTART in *; lia). cbn [mbind option_bind].
    rewrite <- (app_assoc j R), (app_assoc R). replace (2 * POINTLEN)%nat with (length (R ++ K)) by (rewrite length_app; unfold POINTLEN; lia).
    apply Hash; [done|rewrite length_app; unfold MSTART; lia|rewrite length_app; unfold MSTART in *; lia].
  - assert (length (B_bytes ++ L ++ R ++ L ++ K ++ E) = 3 * POINTLEN + 2 * length L + extra_len extra)%nat as Lp.
    { rewrite !length_app, LR, LK. unfold E. rewrite length_extra. change (length B_bytes) with 32%nat. unfold POINTLEN. lia. }
    rewrite <- Lp. assert (length (B_bytes ++ L ++ R ++ L ++ K ++ E) <= MSTART)%nat as Hb.
    { rewrite Lp. unfold POINTLEN, MSTART, LABELSETMAXLEN in *. fold L in Hlen. lia. }
    rewrite (proj2 (Nat.ltb_ge _ _)) by done. rewrite (mem_read_first L) by done. cbn [mbind option_bind].
    assert (inputs_bytes [Some B_bytes; Some L; Some R; Some L; Some K; extra] = B_bytes ++ L ++ R ++ L ++ K ++ E) as Ei
      by (unfold inputs_bytes; cbn -[B_bytes]; by rewrite app_nil_r).
    rewrite <- Ei in *. clear Lp.
    set (p := inputs_bytes [Some B_bytes; Some L; Some R; Some L; Some K; extra]) in *.
    destruct (cut_at junk (MSTART - length p) (length p)) as (j & mid & -> & Hj & Hmid); [lia|].
    rewrite <- !app_assoc, <- Hj. rewrite buffer_adds_ok by (unfold p in *; lia). cbn [mbind option_bind fst snd].
    rewrite bool_decide_true by (f_equal; lia). fold p. apply Hash; [done|done|lia].
Qed.
End Hashes.

(** * Verification *)

Lemma point_isreduced_ok s : wf_bytes s → length s = 32%nat →
  point_isreduced s = Some (bool_decide (le_value s `mod` 2 ^ 255 < p25519)).
Proof.
  intros Hs Ls. unfold point_isreduced. rewrite mem_read_all by done. cbn [mbind option_bind].
  destruct (bytes_split s Hs Ls) as [E Hn].
  assert (0 <= le_value s `mod` 2 ^ 255 < 2 ^ 255) as Hr by (by apply Z.mod_pos_bound).
  rewrite E at 1. rewrite top_bit_clear by done. cbn [mbind option_bind].
  rewrite fe_isreduced_ok by (apply wf_le_bytes || apply length_le_bytes). cbn [mbind option_bind].
  rewrite le_value_bytes_small by (change (256 ^ Z.of_nat 32) with (2 ^ 256); lia). by case_bool_decide.
Qed.

(** [sB - hA], for the base point or another one. *)
Definition commitment (C A : point) (s h : Z) : point := padd (smul s C) (popp (smul h A)).
Section Solve.
Context (K : bytes) (HK : wf_bytes K) (LK : length K = 32%nat) (s : bytes) (Hs : wf_bytes s) (Ls : length s = 32%nat)
  (Vs : le_value s < group_order) (h : Z) (Hh : 0 <= h < group_order).

Lemma solve_base_ok : runs (generalized_solve_commitment None s K (le_bytes 32 h)) (λ r,
  match r with
  | None => ∀ A, ¬ decodes K A
  | Some (R, q) => ∃ A, decodes K A ∧ R = encode (commitment B A (le_value s) h) ∧ rep_p3 q A
  end).
Proof using All.
  unfold generalized_solve_commitment. pose proof group_order_range as Ho.
  destruct (frombytes_decodes K HK LK) as ([A|] & EA & HA); [|exists None; split; [by rewrite EA|done]].
  destruct HA as (P & Hd & HP).
  destruct (ge_double_scalarmult_ok (le_bytes 32 h) A s (popp P)) as (r & Er & Hr);
    [apply wf_le_bytes|apply length_le_bytes|rewrite le_value_scalar by done; lia|done|done|lia|done|].
  rewrite le_value_scalar in Hr by done. pose proof (ge_tobytes_ok _ _ Hr) as Eb.
  destruct (ge_neg_ok _ _ HP) as (q & Eq & Hq). rewrite popp_opp in Hq. rewrite smul_popp, padd_comm in Eb.
  exists (Some (encode (commitment B P (le_value s) h), q)). split; [|exists P; split; [exact Hd|split; [reflexivity|exact Hq]]].
  eapply bind_step; [exact EA|]. cbv beta iota. eapply bind_step; [eapply bind_step; [exact Er|exact Eb]|].
  cbv beta. eapply bind_step; [exact Eq|]. reflexivity.
Qed.
Lemma solve_other_ok b C : rep_p3 b C → runs (generalized_solve_commitment (Some b) s K (le_bytes 32 h)) (λ r,
  match r with
  | None => ∀ A, ¬ decodes K A
  | Some (R, q) => ∃ A, decodes K A ∧ R = encode (commitment C A (le_value s) h) ∧ rep_p3 q A
  end).
Proof using All.
  intros Hb. unfold generalized_solve_commitment. pose proof group_order_range as Ho.
  destruct (frombytes_decodes K HK LK) as ([A|] & EA & HA); [|exists None; split; [by rewrite EA|done]].
  destruct HA as (P & Hd & HP).
  destruct (ge_scalarmult_ok s b C Hs Ls ltac:(lia) Hb) as (sB & EsB & HsB).
  destruct (ge_scalarmult_ok (le_bytes 32 h) A (popp P)) as (hK & EhK & HhK);
    [apply wf_le_bytes|apply length_le_bytes|rewrite le_value_scalar by done; lia|done|].
  rewrite le_value_scalar, smul_popp in HhK by done.
  destruct (ge_p3_add_ok _ _ _ _ HsB HhK) as (R & ER & HR). pose proof (ge_p3_tobytes_ok _ _ HR) as Eb.
  destruct (ge_neg_ok _ _ HP) as (q & Eq & Hq). rewrite popp_opp in Hq.
  exists (Some (encode (commitment C P (le_value s) h), q)). split; [|exists P; split; [exact Hd|split; [reflexivity|exact Hq]]].
  eapply bind_step; [exact EA|]. cbv beta iota. eapply bind_step.
  { eapply bind_step; [exact EsB|]. cbv beta. eapply bind_step; [exact EhK|]. cbv beta.
    eapply bind_step; [exact ER|exact Eb]. }
  cbv beta. eapply bind_step; [exact Eq|]. reflexivity.
Qed.
End Solve.

Definition gen_accepts (L K R s msg : bytes) : Prop :=
  le_value K `mod` 2 ^ 255 < p25519 ∧ le_value R `mod` 2 ^ 255 < p25519 ∧ le_value s < group_order ∧
  ∃ A, decodes K A ∧ encode (commitment B A (le_value s) (hash_scalar (challenge_prefix L R K [] ++ msg))) = R.

Definition label_labels (label : option bytes) : list bytes := [[]; default [] label].
Definition label_set (label : option bytes) : bytes := labelset_of (label_labels label).
Lemma length_label_set label : length (label_set label) = (3 + extra_len label)%nat.
Proof. unfold label_set. destruct label; cbn; rewrite ?length_app; cbn; lia. Qed.

(** The two allocations and limits that the entry points check first. *)
Definition call_fits (a : alloc) (msg : bytes) (label : option bytes) : Prop :=
  granted a = true ∧ (extra_len label <= LABELMAXLEN)%nat ∧ zlen msg <= MSGMAXLEN.
Lemma message_buffer_ok a msg label :
  (call_fits a msg label ∧ ∃ junk, length junk = MSTART ∧
    message_buffer a (Some msg) label (Z.of_nat (extra_len label)) = Some (Some (junk ++ msg, msg))) ∨
  (¬ call_fits a msg label ∧ message_buffer a (Some msg) label (Z.of_nat (extra_len label)) = Some None).
Proof.
  unfold call_fits, message_buffer, checked_label.
  assert (bool_decide (label = None) && negb (Z.of_nat (extra_len label) =? 0) = false) as ->
    by (destruct label; [by rewrite bool_decide_false|done]). cbn [negb andb].
  destruct (Z.leb_spec (Z.of_nat (extra_len label)) (Z.of_nat LABELMAXLEN)) as [Hl|Hl]; cbn [negb].
  2:{ right. split; [|done]. intros (_ & H & _). lia. }
  destruct (Z.ltb_spec MSGMAXLEN (zlen msg)) as [Hm|Hm].
  { right. split; [|done]. intros (_ & _ & H). lia. }
  destruct (granted a) eqn:Ea.
  2:{ right. split; [by intros [? _]|]. unfold malloc. by rewrite Ea. }
  left. split; [split; [done|]; split; [lia|lia]|].
  destruct (malloc_granted a (zlen msg + Z.of_nat MSTART) Ea) as (b & -> & Lb).
  unfold zlen in Lb. destruct (cut_at b MSTART (length msg)) as (j & m & -> & Lj & Lm); [lia|].
  exists j. split; [done|]. rewrite <- (app_nil_r m), mem_write_at by done. cbn [mbind option_bind]. by rewrite app_nil_r.
Qed.

Section Eddsa.
Context (uninit : bytes) (Lu : length uninit = LABELSETMAXLEN) (label : option bytes) (Hlabel : wf_bytes (default [] label)).
Let L := label_set label.

Lemma label_set_new : (extra_len label <= LABELMAXLEN)%nat →
  ∃ rest, labelset_new uninit LABELSETMAXLEN None 0 label (Z.of_nat (extra_len label)) = Some (0, L ++ rest, length L).
Proof using Lu.
  intros Hl. eexists. apply (labelset_new_ok uninit None label Lu); [|done]. cbn. unfold LABELMAXLEN. lia.
Qed.
Lemma label_set_fits : (extra_len label <= LABELMAXLEN)%nat →
  Forall label_fits (label_labels label) ∧ Forall wf_bytes (label_labels label) ∧
  (length (label_labels label) < 256)%nat ∧ (3 <= length (labelset_of (label_labels label)) <= LABELSETMAXLEN)%nat.
Proof using Hlabel.
  clear Lu uninit. intros Hl. rewrite <- length_extra in Hl. split_and!.
  - repeat apply Forall_cons_2; [unfold label_fits; cbn; lia|done|apply Forall_nil_2].
  - repeat apply Forall_cons_2; [apply Forall_nil_2|done|apply Forall_nil_2].
  - cbn. lia.
  - change (labelset_of (label_labels label)) with (label_set label). rewrite length_label_set. lia.
  - change (labelset_of (label_labels label)) with (label_set label). rewrite length_label_set.
    rewrite length_extra in Hl. unfold LABELMAXLEN, LABELSETMAXLEN in *. lia.
Qed.

Context (K msg : bytes) (HK : wf_bytes K) (LK : length K = 32%nat) (Hm : wf_bytes msg).

Lemma eddsa_verify_ok a R s : wf_bytes R → length R = 32%nat → wf_bytes s → length s = 32%nat →
  ∃ b : bool, generalized_eddsa_25519_verify a uninit (Some (R ++ s)) (Some K) (Some msg) label (Z.of_nat (extra_len label)) =
      Some (if b then 0 else -1) ∧ (b = true ↔ call_fits a msg label ∧ gen_accepts L K R s msg).
Proof using All.
  intros HR LR Hs Ls. unfold generalized_eddsa_25519_verify, gen_accepts.
  destruct (message_buffer_ok a msg label) as [(Hfit & junk & Lj & ->)|(Hfit & ->)]; cbn [mbind option_bind].
  2:{ exists false. split; [done|]. split; [discriminate|tauto]. }
  destruct Hfit as (Ha & Hl & Hml). destruct (label_set_new Hl) as (rest & ->). cbn [mbind option_bind].
  change (negb (0 =? 0)) with false. cbv iota.
  rewrite (mem_read_first R), (mem_read_last R s) by (unfold POINTLEN, SCALARLEN; lia). cbn [mbind option_bind].
  rewrite !point_isreduced_ok, sc_isreduced_run by done. cbn [mbind option_bind].
  case_bool_decide as H1; cbn [negb]; [|exists false; split; [done|]; split; [discriminate|tauto]].
  case_bool_decide as H2; cbn [negb]; [|exists false; split; [done|]; split; [discriminate|tauto]].
  case_bool_decide as H3; cbn [negb]; [|exists false; split; [done|]; split; [discriminate|tauto]].
  destruct (label_set_fits Hl) as (F1 & F2 & F3 & F4).
  destruct (generalized_challenge_ok (label_labels label) rest F1 F2 F3 F4 None eq_refl (Forall_nil_2 _) ltac:(cbn; lia)
    K msg junk HK LK Hm ltac:(unfold MSGMAXLEN in *; lia) Lj R HR LR) as (M' & EM).
  change (labelset_of (label_labels label)) with L in EM. change (default [] None) with (@nil Z) in EM.
  pose proof (hash_scalar_range (challenge_prefix L R K [] ++ msg)) as Hh.
  revert Hh EM. generalize (hash_scalar (challenge_prefix L R K [] ++ msg)) as h. intros h Hh EM.
  destruct (solve_base_ok K HK LK s Hs Ls H3 h Hh) as (r & Er & Hr).
  assert (∃ b : bool, match r with None => Some (-1) | Some (R_calc, _) =>
    v ← crypto_verify_32_ref R R_calc; Some (if v =? 0 then 0 else -1) end = Some (if b then 0 else -1) ∧
    (b = true ↔ ∃ A, decodes K A ∧ encode (commitment B A (le_value s) h) = R)) as (b & Eb & Hb).
  { clear Er EM. destruct r as [[R' q]|].
    - destruct Hr as (A & Hd & -> & _). rewrite crypto_verify_32_ok by (done || apply wf_encode || apply length_encode).
      cbn [mbind option_bind]. exists (bool_decide (R = encode (commitment B A (le_value s) h))).
      split; [by case_bool_decide|]. rewrite bool_decide_eq_true. split.
      + intros E. exists A. split; [exact Hd|]. symmetry. exact E.
      + intros (A' & Hd' & <-). by rewrite (decodes_unique _ _ _ Hd' Hd).
    - exists false. split; [done|]. split; [discriminate|]. intros (A & Hd & _). by destruct (Hr A). }
  exists b. split; [|unfold call_fits; tauto].
  eapply bind_step; [exact EM|]. cbv beta iota. eapply bind_step; [exact Er|]. exact Eb.
Qed.

(** What is signed: the scalar [k] of the key, the nonce from the secret, the label and
    the random bytes. *)
Definition gen_nonce (k z : bytes) : Z := hash_scalar (commit_prefix L K k z [] ++ msg).
Definition gen_signature (k : bytes) (r : Z) : bytes :=
  let R := encode (smul r B) in
  R ++ le_bytes 32 ((hash_scalar (challenge_prefix L R K [] ++ msg) * le_value k + r) `mod` group_order).

Lemma eddsa_sign_ok a k z : call_fits a msg label → wf_bytes k → length k = 32%nat → wf_bytes z → length z = 32%nat →
  generalized_eddsa_25519_sign a uninit (Some K) (Some k) (Some msg) (Some z) label (Z.of_nat (extra_len label)) =
    Some (0, gen_signature k (gen_nonce k z)).
Proof using All.
  intros Hf Hk Lk Hz Lz. unfold generalized_eddsa_25519_sign, gen_signature.
  destruct (message_buffer_ok a msg label) as [(_ & junk & Lj & ->)|(Hfit & _)]; [|done]. cbn [mbind option_bind].
  destruct Hf as (Ha & Hl & Hml). destruct (label_set_new Hl) as (rest & ->). cbn [mbind option_bind].
  change (negb (0 =? 0)) with false. cbv iota zeta. destruct (label_set_fits Hl) as (F1 & F2 & F3 & F4).
  assert (zlen msg < 2 ^ 63) as Lm by (unfold MSGMAXLEN in *; lia).
  destruct (generalized_commit_ok (label_labels label) rest F1 F2 F3 F4 None eq_refl (Forall_nil_2 _) ltac:(cbn; lia)
    K msg junk HK LK Hm Lm Lj k z z Hk Lk (mem_read_all z 32 (eq_sym Lz)) Hz) as (junk' & Lj' & EC).
  change (labelset_of (label_labels label)) with L in EC. change (default [] None) with (@nil Z) in EC.
  fold (gen_nonce k z) in EC. pose proof (hash_scalar_range (commit_prefix L K k z [] ++ msg)) as Hr. fold (gen_nonce k z) in Hr.
  revert Hr EC. generalize (gen_nonce k z) as r. intros r Hr EC.
  pose proof (wf_encode (smul r B)) as HR. pose proof (length_encode (smul r B)) as LR.
  revert HR LR EC. generalize (encode (smul r B)) as R. intros R HR LR EC.
  destruct (generalized_challenge_ok (label_labels label) rest F1 F2 F3 F4 None eq_refl (Forall_nil_2 _) ltac:(cbn; lia)
    K msg junk' HK LK Hm Lm Lj' R HR LR) as (M' & EM).
  change (labelset_of (label_labels label)) with L in EM. change (default [] None) with (@nil Z) in EM.
  pose proof (hash_scalar_range (challenge_prefix L R K [] ++ msg)) as Hh.
  revert Hh EM. generalize (hash_scalar (challenge_prefix L R K [] ++ msg)) as h. intros h Hh EM.
  eapply bind_step; [exact EC|]. cbv beta iota. eapply bind_step; [exact EM|]. cbv beta iota.
  eapply bind_step; [apply sc_muladd_run; (assumption || apply wf_le_bytes || apply length_le_bytes)|].
  cbv beta. rewrite !le_value_scalar by assumption. reflexivity.
Qed.

(** A signature is accepted under the key of its scalar. *)
Lemma gen_signature_accepted k r : 0 <= r < group_order → decodes K (smul (le_value k) B) →
  le_value K `mod` 2 ^ 255 < p25519 →
  ∃ R s, gen_signature k r = R ++ s ∧ wf_bytes R ∧ length R = 32%nat ∧ wf_bytes s ∧ length s = 32%nat ∧ gen_accepts L K R s msg.
Proof using Lu LK.
  intros Hr Hd HKr. unfold gen_signature. cbv zeta. pose proof group_order_range as Ho.
  eexists _, _. split; [reflexivity|]. split; [apply wf_encode|]. split; [apply length_encode|].
  split; [apply wf_le_bytes|]. split; [apply length_le_bytes|]. unfold gen_accepts.
  set (h := hash_scalar (challenge_prefix L (encode (smul r B)) K [] ++ msg)).
  assert (0 <= (h * le_value k + r) `mod` group_order < group_order) as Hs by (apply Z.mod_pos_bound; lia).
  split; [exact HKr|]. split; [|split; [rewrite le_value_scalar by exact Hs; lia|]].
  - clear.
    pose proof (fval_range (py (smul r B))) as Hy. pose proof (fval_le255 (py (smul r B))) as Hy'.
    pose proof (parity (fval (px (smul r B)))) as Hn. unfold encode.
    rewrite le_value_bytes_small by (change (256 ^ Z.of_nat 32) with (2 ^ 256); lia).
    rewrite (Z.mul_comm (2 ^ 255)), Z.mod_add, Z.mod_small by lia. lia.
  - exists (smul (le_value k) B). split; [exact Hd|]. rewrite le_value_scalar by exact Hs. unfold commitment. f_equal.
    clearbody h. clear Hs. change group_order with base_order. rewrite smul_mod, smul_add, smul_mul.
    rewrite (padd_comm (smul _ (smul _ B))), <- padd_assoc, padd_opp. apply padd_0_r.
Qed.
End Eddsa.

(** * Curve25519 keys: gen_x.c *)

Lemma calculate_keypair_eq priv : calculate_25519_keypair priv = (λ p, (p.2, p.1)) <$> xed_keypair priv.
Proof.
  unfold calculate_25519_keypair, xed_keypair.
  destruct (ge_scalarmult_base priv) as [q|]; [|reflexivity]. cbn [mbind option_bind].
  destruct (ge_p3_tobytes q) as [K|]; [|reflexivity]. cbn [mbind option_bind].
  destruct (K !! 31%nat) as [b|]; [|reflexivity]. cbn [mbind option_bind].
  destruct (mem_read priv 0 32) as [k|]; [|reflexivity]. cbn [mbind option_bind].
  destruct (sc_neg k) as [kn|]; [|reflexivity]. cbn [mbind option_bind].
  destruct (sc_cmov k kn _) as [k'|]; [|reflexivity]. cbn [mbind option_bind].
  destruct (on_byte _ 31 K) as [K'|]; reflexivity.
Qed.
Lemma convert_25519_pubkey_ok pub : wf_bytes pub → length pub = 32%nat →
  convert_25519_pubkey pub = Some (if bool_decide (le_value pub < p25519) then Some (verify_key pub 0) else None).
Proof.
  intros Hp Lp. unfold convert_25519_pubkey, verify_key. rewrite fe_isreduced_ok by done. cbn [mbind option_bind].
  case_bool_decide; [|done]. change (1 =? 0) with false. cbv iota. rewrite edy_bytes_ok by done. cbn [mbind option_bind].
  by rewrite Z.mul_0_r, Z.add_0_r.
Qed.
Lemma reduced_key P : le_value (le_bytes 32 (fval (py P))) `mod` 2 ^ 255 < p25519.
Proof.
  pose proof (fval_range (py P)). pose proof (fval_le255 (py P)).
  rewrite le_value_bytes_small by (change (256 ^ Z.of_nat 32) with (2 ^ 256); lia). rewrite Z.mod_small by lia. lia.
Qed.
(** The public key that [curve25519_keygen] makes converts to the Edwards key. *)
Lemma converts_keygen priv : wf_bytes priv → length priv = 32%nat → le_value priv < 2 ^ 255 →
  le_value priv `mod` group_order ≠ 0 →
  ∃ pub K k, curve25519_keygen priv = Some pub ∧ convert_25519_pubkey pub = Some (Some K) ∧
    calculate_25519_keypair priv = Some (K, k) ∧ wf_bytes K ∧ length K = 32%nat ∧ wf_bytes k ∧ length k = 32%nat ∧
    le_value k < 2 ^ 255 ∧ ¬ (group_order | le_value k) ∧
    decodes K (smul (le_value k) B) ∧ le_value K `mod` 2 ^ 255 < p25519.
Proof.
  intros Hk Lk Vk Hnz. set (P := smul (le_value priv) B).
  destruct (xed_keypair_ok priv [] (replicate 64 0) Hk Lk Vk (Forall_nil_2 _) ltac:(by vm_compute) ltac:(apply wf_zeros)
    (length_replicate _ _)) as (k & Ek & Hk' & Lk' & Vk' & Hd).
  fold P in Ek, Hd. exists (le_bytes 32 (fval (mont_u P))), (le_bytes 32 (fval (py P))), k.
  split; [by apply keygen_ok|]. split.
  { rewrite convert_25519_pubkey_ok by (apply wf_le_bytes || apply length_le_bytes).
    pose proof (fval_range (mont_u P)). pose proof (fval_le255 (mont_u P)).
    rewrite bool_decide_true by (rewrite le_value_bytes_small by (change (256 ^ Z.of_nat 32) with (2 ^ 256); lia); lia).
    unfold verify_key. rewrite edwards_y_key by (by apply base_multiple_neq, indivisible).
    by rewrite Z.mul_0_r, Z.add_0_r. }
  rewrite calculate_keypair_eq, Ek. split; [reflexivity|].
  split; [apply wf_le_bytes|]. split; [apply length_le_bytes|]. split; [exact Hk'|]. split; [exact Lk'|].
  split; [exact Vk'|]. split; [|split; [exact Hd|apply reduced_key]].
  intros [c Ec]. apply (base_multiple_neq _ (indivisible _ Hnz)), y_one. fold P.
  pose proof (proj1 (decodes_unsigned P)) as E1. pose proof (proj1 Hd) as E2. rewrite Ec, smul_mul in E2.
  change group_order with base_order in E2. rewrite base_order_zero, smul_zero in E2. cbn [py pzero] in E2.
  transitivity (decode_y (le_bytes 32 (fval (py P)))); [|symmetry; exact E2]. etransitivity; [|exact E1].
  destruct (decide _); reflexivity.
Qed.

(** [generalized_xeddsa_25519_verify] decides the signature equation: it returns zero
    exactly when the buffer is granted, the label and the message keep their limits, the
    public key, [R] and [s] are reduced and [sB - hA] encodes to [R], where [h] hashes the
    label set with [R], the Edwards key and the message; otherwise it returns [-1]. *)
Theorem generalized_xeddsa_verify_exact (a : alloc) (uninit sig pub msg : bytes) (label : option bytes) :
  length uninit = LABELSETMAXLEN → wf_bytes (default [] label) → wf_bytes sig → length sig = 64%nat →
  wf_bytes pub → length pub = 32%nat → wf_bytes msg →
  ∃ b : bool,
    generalized_xeddsa_25519_verify a uninit (Some sig) pub (Some msg) label (Z.of_nat (extra_len label)) =
      Some (if b then 0 else -1) ∧
    (b = true ↔ call_fits a msg label ∧ le_value pub < p25519 ∧
      gen_accepts (label_set label) (verify_key pub 0) (take 32 sig) (drop 32 sig) msg).
Proof.
  intros Lu Hl Hs Ls Hp Lp Hm. unfold generalized_xeddsa_25519_verify. rewrite convert_25519_pubkey_ok by done.
  cbn [mbind option_bind]. case_bool_decide as Hr; [|exists false; split; [done|]; split; [discriminate|tauto]].
  rewrite <- (take_drop 32 sig) in Hs. apply wf_bytes_app in Hs as [HR HS].
  destruct (eddsa_verify_ok uninit Lu label Hl (verify_key pub 0) msg ltac:(apply wf_le_bytes) ltac:(apply length_le_bytes) Hm
    a (take 32 sig) (drop 32 sig) HR ltac:(rewrite length_take; lia) HS ltac:(rewrite length_drop; lia)) as (b & E & Hb).
  rewrite take_drop in E. exists b. split; [exact E|]. tauto.
Qed.

Lemma generalized_xeddsa_verify_exact_witness : ∃ b : bool,
  generalized_xeddsa_25519_verify (Alloc true (λ _, 0)) (replicate 512 0) (Some (replicate 64 1)) (9 :: replicate 31 0)
    (Some [1; 2; 3]) (Some [65]) 1 = Some (if b then 0 else -1).
Proof.
  destruct (generalized_xeddsa_verify_exact (Alloc true (λ _, 0)) (replicate 512 0) (replicate 64 1) (9 :: replicate 31 0)
    [1; 2; 3] (Some [65])) as (b & E & _);
    [reflexivity|by repeat constructor|by repeat constructor|reflexivity|by repeat constructor|reflexivity|by repeat constructor|].
  exists b. exact E.
Defined.

(** C18: generalized XEdDSA: for every 255-bit private key that is no multiple of the group
    order, every label of at most 128 bytes, message of at most [MSGMAXLEN] bytes and
    random input, [generalized_xeddsa_25519_verify] accepts the signature that
    [generalized_xeddsa_25519_sign] writes, under the key of [curve25519_keygen]. *)
Theorem generalized_xeddsa_signature_verifies (a1 a2 : alloc) (u1 u2 priv msg z : bytes) (label : option bytes) :
  call_fits a1 msg label → granted a2 = true → length u1 = LABELSETMAXLEN → length u2 = LABELSETMAXLEN →
  wf_bytes priv → length priv = 32%nat → le_value priv < 2 ^ 255 → le_value priv `mod` group_order ≠ 0 →
  wf_bytes msg → wf_bytes z → length z = 32%nat → wf_bytes (default [] label) →
  ∃ sig pub, curve25519_keygen priv = Some pub ∧
    generalized_xeddsa_25519_sign a1 u1 priv (Some msg) (Some z) label (Z.of_nat (extra_len label)) = Some (0, sig) ∧
    length sig = 64%nat ∧
    generalized_xeddsa_25519_verify a2 u2 (Some sig) pub (Some msg) label (Z.of_nat (extra_len label)) = Some 0.
Proof.
  intros Hf Ha2 Lu1 Lu2 Hk Lk Vk Hnz Hm Hz Lz Hl.
  destruct (converts_keygen priv Hk Lk Vk Hnz) as (pub & K & k & Eg & Ec & Ep & HK & LK & Hk' & Lk' & _ & _ & Hd & Hr).
  pose proof (eddsa_sign_ok u1 Lu1 label Hl K msg HK LK Hm a1 k z Hf Hk' Lk' Hz Lz) as Es.
  destruct (gen_signature_accepted u1 Lu1 label K msg LK k (gen_nonce label K msg k z) (hash_scalar_range _) Hd Hr)
    as (R & s & Esig & HR & LR & Hs & Ls & Hacc). rewrite Esig in Es.
  destruct (eddsa_verify_ok u2 Lu2 label Hl K msg HK LK Hm a2 R s HR LR Hs Ls) as (b & Ev & Hb).
  assert (b = true) as -> by (apply Hb; split; [|exact Hacc]; destruct Hf as (_ & ? & ?); split; [exact Ha2|tauto]).
  exists (R ++ s), pub. split; [exact Eg|]. split; [|split; [rewrite length_app; lia|]].
  - unfold generalized_xeddsa_25519_sign. eapply bind_step; [exact Ep|]. exact Es.
  - unfold generalized_xeddsa_25519_verify. eapply bind_step; [exact Ec|]. exact Ev.
Qed.

Lemma generalized_xeddsa_signature_verifies_witness :
  let a := Alloc true (λ _, 0) in let priv := 8 :: replicate 30 7 ++ [64] in let u := replicate 512 0 in
  ∃ sig pub, curve25519_keygen priv = Some pub ∧
    generalized_xeddsa_25519_sign a u priv (Some [1; 2; 3]) (Some (replicate 32 5)) (Some [65]) 1 = Some (0, sig) ∧
    length sig = 64%nat ∧
    generalized_xeddsa_25519_verify a u (Some sig) pub (Some [1; 2; 3]) (Some [65]) 1 = Some 0.
Proof.
  apply (generalized_xeddsa_signature_verifies (Alloc true (λ _, 0)) (Alloc true (λ _, 0)) (replicate 512 0) (replicate 512 0)
    (8 :: replicate 30 7 ++ [64]) [1; 2; 3] (replicate 32 5) (Some [65]));
    try (vm_compute; (reflexivity || discriminate)); try (by repeat constructor).
Defined.
