(* ===== verification/VrfSpec.v ===== *)
(** The verifiable random function: [generalized_veddsa_25519_verify] accepts what
    [generalized_veddsa_25519_sign] writes and gives an output that depends on the key,
    the label and the message, not on the random bytes of the signature. *)

From S2P Require Import Prelude Limbs Donna DonnaField DonnaBytes Scalar ScalarSpec Fe FeSpec Prime.
From S2P Require Import Field25519 Edwards GeBase Ge GeSpec GeTable GeMult GeSlide Sha512 Sha512Spec XEd XEdSpec XEdSign.
From S2P Require Import GroupOrder Elligator Labels GenEd GenVrf LabelsSpec GenEdSpec.
Import Fe Ge.

(** * Commitments over any point of the subgroup *)

Lemma commitment_proof C k r h : in_subgroup C →
  commitment C (smul k C) ((h * k + r) `mod` group_order) h = smul r C.
Proof.
  intros HC. unfold commitment. change group_order with base_order. rewrite subgroup_mod, smul_add, smul_mul by done.
  rewrite (padd_comm (smul _ (smul _ C))), <- padd_assoc, padd_opp. apply padd_0_r.
Qed.

(** * Label sets *)

Definition vrf_labels (label : option bytes) (n : Z) : list bytes := [protocol_name; default [] label; [n]].
Definition vrf_set (label : option bytes) (n : Z) : bytes := labelset_of (vrf_labels label n).
Lemma length_vrf_set label n : length (vrf_set label n) = (35 + extra_len label)%nat.
Proof.
  rewrite <- length_extra. unfold vrf_set, vrf_labels, labelset_of, labels_bytes, label_bytes.
  cbn [fmap list_fmap mjoin list_join length app]. rewrite !length_app. change (length protocol_name) with 30%nat. cbn [length app].
  rewrite ?length_app. cbn [length]. lia.
Qed.
Lemma byte_lit n : (0 <=? n) && (n <? 256) = true → is_byte n.
Proof. unfold is_byte. lia. Qed.
Section VrfLabels.
Context (label : option bytes) (Hl : (extra_len label <= LABELMAXLEN)%nat).

Lemma vrf_labelset_ok uninit : length uninit = LABELSETMAXLEN →
  ∃ rest, vrf_labelset uninit label (Z.of_nat (extra_len label)) = Some (Some (vrf_set label 49 ++ rest, length (vrf_set label 49))).
Proof using Hl.
  intros Lu. unfold vrf_labelset.
  pose proof (labelset_new_ok uninit (Some protocol_name) label Lu ltac:(vm_compute; lia) Hl) as E. cbn [default extra_len] in E.
  change (id protocol_name) with protocol_name in E.
  assert (length (labelset_of [protocol_name; default [] label]) = 33 + extra_len label)%nat as Ln.
  { rewrite <- length_extra. unfold labelset_of, labels_bytes, label_bytes.
    cbn [fmap list_fmap mjoin list_join length app]. rewrite !length_app. change (length protocol_name) with 30%nat. cbn [length app].
  rewrite ?length_app. cbn [length]. lia. }
  unfold zlen. rewrite E. cbn [mbind option_bind]. change (negb (0 =? 0)) with false. cbv iota. clear E.
  pose proof (labelset_add_ok [protocol_name; default [] label]
    (drop (length (labelset_of [protocol_name; default [] label])) uninit) [49] _ eq_refl) as E.
  rewrite length_drop, Lu in E. unfold LABELMAXLEN, LABELSETMAXLEN in *.
  change (zlen [49]) with 1 in E. rewrite E; [|lia|lia|unfold label_fits, LABELMAXLEN; cbn; lia|rewrite Ln; change (length [49]) with 1%nat; lia|cbn; lia].
  cbn [mbind option_bind fst snd]. eexists. reflexivity.
Qed.
Lemma vrf_set_label n c rest :
  set_label (vrf_set label n ++ rest) (length (vrf_set label n)) c = Some (vrf_set label c ++ rest).
Proof using. apply (set_label_ok [protocol_name; default [] label] n rest c _ eq_refl). Qed.
Lemma vrf_set_fits n : wf_bytes (default [] label) → is_byte n →
  Forall label_fits (vrf_labels label n) ∧ Forall wf_bytes (vrf_labels label n) ∧
  (length (vrf_labels label n) < 256)%nat ∧ (3 <= length (labelset_of (vrf_labels label n)) <= LABELSETMAXLEN)%nat.
Proof using Hl.
  intros Hw Hn. fold (vrf_set label n). rewrite length_vrf_set. unfold LABELMAXLEN, LABELSETMAXLEN in *. split_and!; try lia.
  - repeat apply Forall_cons_2; [unfold label_fits, LABELMAXLEN; vm_compute; lia|unfold label_fits; rewrite length_extra; exact Hl
      |unfold label_fits, LABELMAXLEN; cbn; lia|apply Forall_nil_2].
  - apply Forall_cons_2; [by repeat constructor|]. apply Forall_cons_2; [exact Hw|].
    apply Forall_cons_2; [|apply Forall_nil_2]. apply Forall_cons_2; [exact Hn|apply Forall_nil_2].
  - cbn. lia.
Qed.
Lemma vrf_set_extra n e : e ≠ [] → bad_extra (length (vrf_set label n)) (Some e) = false.
Proof using.
  clear Hl. intros He. unfold bad_extra, labelset_is_empty. rewrite length_vrf_set. destruct e; [done|]. cbn [length].
  by rewrite (proj2 (Nat.eqb_neq _ _)) by lia.
Qed.
End VrfLabels.

(** * The base point of a message and the output *)

Definition base_input (label : option bytes) (K msg : bytes) : bytes := (B_bytes ++ vrf_set label 49 ++ K) ++ msg.
(** Whether the message hashes to a point other than the neutral one. *)
Definition has_base (label : option bytes) (K msg : bytes) : bool :=
  match hash_to_point (base_input label K msg) with
  | None => false
  | Some p => match ge_isneutral p with Some n => n =? 0 | None => false end
  end.
Definition output_of (label : option bytes) (P : point) : bytes := take 32 (sha512 (B_bytes ++ vrf_set label 52 ++ encode P)).

Section Vrf.
Context (label : option bytes) (Hl : (extra_len label <= LABELMAXLEN)%nat) (Hlabel : wf_bytes (default [] label)).

Lemma wf_vrf_set n : is_byte n → wf_bytes (vrf_set label n).
Proof using Hl Hlabel.
  intros Hn. destruct (vrf_set_fits label Hl n Hlabel Hn) as (F1 & F2 & F3 & _). by apply wf_labelset.
Qed.
Lemma vrf_set_valid n rest : is_byte n → labelset_validate (vrf_set label n ++ rest) (length (vrf_set label n)) = Some 0.
Proof using Hl Hlabel.
  intros Hn. destruct (vrf_set_fits label Hl n Hlabel Hn) as (F1 & _ & _ & F4). by apply labelset_validate_ok.
Qed.

Lemma calculate_vrf_output_ok buf rest p P : length buf = BUFLEN → rep_p3 p P →
  generalized_calculate_vrf_output buf (vrf_set label 52 ++ rest) (length (vrf_set label 52)) p = Some (Some (output_of label P)).
Proof using Hl Hlabel.
  intros Lb HP. unfold generalized_calculate_vrf_output, output_of. pose proof (wf_vrf_set 52 ltac:(done)) as WL.
  pose proof (length_vrf_set label 52) as LL. unfold LABELMAXLEN in Hl.
  rewrite (proj2 (Nat.ltb_ge _ _)) by (rewrite LL; unfold BUFLEN, POINTLEN; lia).
  eapply bind_step; [by apply vrf_set_valid|]. cbv beta. change (negb (0 =? 0)) with false. cbv iota.
  eapply bind_step; [apply (ge_p3_tobytes_ok _ _ HP)|]. cbv beta.
  pose proof (length_encode P) as LP. pose proof (wf_encode P) as WP.
  revert LP WP. generalize (encode P) as e. intros e Le We. clear HP p P.
  eapply bind_step; [by apply mem_read_first|]. cbv beta. set (L := vrf_set label 52) in *. clearbody L.
  destruct (cut_at buf (64 + length L) (BUFLEN - (64 + length L))) as (m & post & -> & Lm & _); [unfold BUFLEN in *; lia|].
  assert (inputs_bytes [Some B_bytes; Some L; Some e] = B_bytes ++ L ++ e) as Ei
    by (unfold inputs_bytes; cbn -[B_bytes]; by rewrite app_nil_r).
  assert (length (B_bytes ++ L ++ e) = 64 + length L)%nat as Lp
    by (rewrite !length_app; change (length B_bytes) with 32%nat; lia).
  pose proof (buffer_adds_ok [Some B_bytes; Some L; Some e] [] m post BUFLEN) as E. rewrite Ei in E. cbn [app length] in E.
  eapply bind_step; [apply E; [lia|unfold BUFLEN in *; lia]|]. cbv beta. cbn [fst snd]. rewrite Nat.add_0_l.
  rewrite (proj2 (Nat.ltb_ge _ _)) by (unfold BUFLEN in *; lia).
  eapply bind_step; [apply mem_read_first; lia|]. cbv beta.
  eapply bind_step; [apply crypto_hash_sha512_run|].
  { rewrite !wf_bytes_app. pose proof wf_B_bytes. tauto. }
  { unfold zlen. rewrite Lp. lia. }
  cbv beta. eapply bind_step; [|reflexivity]. rewrite <- (take_drop 32 (sha512 _)) at 1. apply mem_read_first.
  rewrite length_take, length_sha512. done.
Qed.

Context (K msg : bytes) (HK : wf_bytes K) (LK : length K = 32%nat) (Hm : wf_bytes msg) (Lm : zlen msg <= MSGMAXLEN).

Lemma base_point_ok : ∃ bv Q, hash_to_point (base_input label K msg) = Some bv ∧ rep_p3 bv (smul 8 Q) ∧
  has_base label K msg = negb (bool_decide (smul 8 Q = pzero)).
Proof using All.
  pose proof (wf_vrf_set 49 ltac:(done)) as WL. pose proof (length_vrf_set label 49) as LL.
  destruct (hash_to_point_ok (base_input label K msg)) as (bv & E & Q & HQ & _).
  { unfold base_input. rewrite !wf_bytes_app. pose proof wf_B_bytes. tauto. }
  { unfold base_input, zlen in *. rewrite !length_app, LL, LK. change (length B_bytes) with 32%nat.
    unfold MSGMAXLEN, LABELMAXLEN in *. lia. }
  exists bv, Q. split; [exact E|]. split; [exact HQ|]. unfold has_base. rewrite E, (ge_isneutral_ok _ _ HQ).
  destruct (decide (smul 8 Q = pzero)) as [E0|E0]; [rewrite (bool_decide_true _ E0)|rewrite (bool_decide_false _ E0)]; reflexivity.
Qed.
Lemma calculate_Bv_ok rest junk bv Q : length junk = MSTART → hash_to_point (base_input label K msg) = Some bv →
  rep_p3 bv (smul 8 Q) →
  ∃ junk', length junk' = MSTART ∧
    generalized_calculate_Bv (vrf_set label 49 ++ rest) (length (vrf_set label 49)) K (junk ++ msg) MSTART (length msg) =
      Some (if decide (smul 8 Q = pzero) then None else Some bv, junk' ++ msg).
Proof using Hl Hlabel LK.
  intros Lj Eb Hb. unfold generalized_calculate_Bv, base_input in *. pose proof (length_vrf_set label 49) as LL.
  unfold LABELMAXLEN in Hl.
  set (L := vrf_set label 49) in *. set (p := B_bytes ++ L ++ K) in *.
  assert (length p = 2 * POINTLEN + length L)%nat as Lp.
  { unfold p. rewrite !length_app, LK. change (length B_bytes) with 32%nat. unfold POINTLEN. lia. }
  assert (length p <= MSTART)%nat as Hp by (rewrite Lp, LL; unfold POINTLEN, MSTART; lia). rewrite <- Lp.
  destruct (cut_at junk (MSTART - length p) (length p)) as (j & mid & -> & Hj & Hmid); [lia|].
  exists (j ++ p). split; [rewrite length_app; lia|]. rewrite <- !app_assoc, <- Hj.
  eapply bind_step; [by apply vrf_set_valid|]. cbv beta zeta. change (negb (0 =? 0)) with false. cbv iota.
  rewrite (proj2 (Nat.ltb_ge _ _)) by done. eapply bind_step; [by apply mem_read_first|]. cbv beta.
  eapply bind_step; [by apply mem_read_all|]. cbv beta.
  assert (inputs_bytes [Some B_bytes; Some L; Some K] = p) as Ei
    by (unfold p, inputs_bytes; cbn -[B_bytes]; by rewrite app_nil_r).
  pose proof (buffer_adds_ok [Some B_bytes; Some L; Some K] j mid msg MSTART) as E. rewrite Ei in E.
  eapply bind_step; [apply E; lia|]. cbv beta. cbn [fst snd]. clearbody p. clear E Ei.
  rewrite bool_decide_true by (f_equal; lia). cbn [negb].
  eapply bind_step; [apply mem_read_last; [done|by rewrite length_app]|]. cbv beta.
  eapply bind_step; [exact Eb|]. cbv beta. eapply bind_step; [apply (ge_isneutral_ok _ _ Hb)|]. cbv beta.
  destruct (decide (smul 8 Q = pzero)); reflexivity.
Qed.

(** A message that hashes to the neutral point is not signed. *)
Lemma veddsa_sign_neutral a uninit k z : has_base label K msg = false → length uninit = LABELSETMAXLEN →
  generalized_veddsa_25519_sign a uninit (Some K) (Some k) (Some msg) z label (Z.of_nat (extra_len label)) =
    Some (-1, replicate VRFSIGNATURELEN 0).
Proof using All.
  intros Hb Lu. unfold generalized_veddsa_25519_sign. destruct base_point_ok as (bv & Q & Ebv & Hbv & E). rewrite Hb in E.
  case_bool_decide as H0; [|discriminate E]. clear E.
  destruct (message_buffer_ok a msg label) as [(_ & junk & Lj & Eb)|(_ & Eb)];
    (eapply bind_step; [exact Eb|]); cbv beta iota zeta; [|reflexivity].
  destruct (vrf_labelset_ok label Hl uninit Lu) as (rest & El). eapply bind_step; [exact El|]. cbv beta iota.
  destruct (calculate_Bv_ok rest junk bv Q Lj Ebv Hbv) as (junk1 & L1 & E1). rewrite decide_True in E1 by exact H0.
  eapply bind_step; [exact E1|]. reflexivity.
Qed.

(** * Signing and verifying *)

Context (k : bytes) (Hk : wf_bytes k) (Lk : length k = 32%nat) (Vk : le_value k < 2 ^ 255)
  (Hd : decodes K (smul (le_value k) B)) (HKr : le_value K `mod` 2 ^ 255 < p25519) (Hnz : ¬ (group_order | le_value k)).
Context (bv : ge_p3) (C : point) (Ebv : hash_to_point (base_input label K msg) = Some bv) (Hbv : rep_p3 bv C)
  (HC : C ≠ pzero) (HsC : in_subgroup C) (H8 : ∃ Q, C = smul 8 Q).
Let Kv := smul (le_value k) C.
Let ext := encode C ++ encode Kv.

Definition vrf_nonce (z : bytes) : Z := hash_scalar (commit_prefix (vrf_set label 50) K k z ext ++ msg).
Definition vrf_challenge (r : Z) : Z :=
  hash_scalar (challenge_prefix (vrf_set label 51) (encode (smul r B)) K (ext ++ encode (smul r C)) ++ msg).
Definition vrf_signature (r : Z) : bytes :=
  encode Kv ++ le_bytes 32 (vrf_challenge r) ++ le_bytes 32 ((vrf_challenge r * le_value k + r) `mod` group_order).

Lemma challenge_at junk rest R e : length junk = MSTART → length e = 96%nat → wf_bytes e → wf_bytes R → length R = 32%nat →
  ∃ M', generalized_challenge (vrf_set label 51 ++ rest) (length (vrf_set label 51)) (Some e) R K (junk ++ msg) MSTART (length msg) =
    Some (Some (le_bytes 32 (hash_scalar (challenge_prefix (vrf_set label 51) R K e ++ msg))), M').
Proof using Hl Hlabel HK LK Hm Lm Lk.
  intros Lj Le We HR LR. destruct (vrf_set_fits label Hl 51 Hlabel (byte_lit 51 eq_refl)) as (F1 & F2 & F3 & F4).
  apply (generalized_challenge_ok (vrf_labels label 51) rest F1 F2 F3 F4 (Some e)); try assumption.
  - apply vrf_set_extra. intros ->. discriminate Le.
  - cbn [extra_len]. lia.
  - unfold MSGMAXLEN in Lm. lia.
Qed.
Lemma commit_at junk rest random z : length junk = MSTART → mem_read random 0 RANDLEN = Some z → wf_bytes z →
  ∃ junk', length junk' = MSTART ∧
    generalized_commit (vrf_set label 50 ++ rest) (length (vrf_set label 50)) (Some ext) K k (Some random) (junk ++ msg) MSTART (length msg) =
      Some (Some (encode (smul (vrf_nonce z) B), le_bytes 32 (vrf_nonce z)), junk' ++ msg).
Proof using Hl Hlabel HK LK Hm Lm Hk Lk.
  intros Lj Ez Hz. destruct (vrf_set_fits label Hl 50 Hlabel (byte_lit 50 eq_refl)) as (F1 & F2 & F3 & F4).
  assert (length ext = 64%nat) as Le by (unfold ext; rewrite length_app, !length_encode; reflexivity).
  apply (generalized_commit_ok (vrf_labels label 50) rest F1 F2 F3 F4 (Some ext)); try assumption.
  - apply vrf_set_extra. intros E. rewrite E in Le. discriminate Le.
  - change (wf_bytes (encode C ++ encode Kv)). rewrite wf_bytes_app. split; apply wf_encode.
  - cbn [extra_len]. lia.
  - unfold MSGMAXLEN in Lm. lia.
Qed.
Lemma scalarmult_at s n q P : wf_bytes s → length s = 32%nat → le_value s < 2 ^ 255 → rep_p3 q P → n = le_value s →
  ∃ r, ge_scalarmult s q = Some r ∧ rep_p3 r (smul n P) ∧ ge_p3_tobytes r = Some (encode (smul n P)).
Proof using.
  intros Hs Ls Vs Hq ->. destruct (ge_scalarmult_ok s q P Hs Ls Vs Hq) as (r & E & Hr).
  exists r. split; [exact E|]. split; [exact Hr|apply (ge_p3_tobytes_ok _ _ Hr)].
Qed.

Lemma veddsa_sign_ok a uninit random z : granted a = true → length uninit = LABELSETMAXLEN →
  mem_read random 0 RANDLEN = Some z → wf_bytes z →
  generalized_veddsa_25519_sign a uninit (Some K) (Some k) (Some msg) (Some random) label (Z.of_nat (extra_len label)) =
    Some (0, vrf_signature (vrf_nonce z)).
Proof using All.
  intros Ha Lu Ez Hz. unfold generalized_veddsa_25519_sign.
  destruct (message_buffer_ok a msg label) as [(_ & junk & Lj & Eb)|(Hno & _)]; [|destruct Hno; split; [exact Ha|split; [exact Hl|exact Lm]]].
  eapply bind_step; [exact Eb|]. cbv beta iota zeta. clear Eb.
  destruct (vrf_labelset_ok label Hl uninit Lu) as (rest & El). eapply bind_step; [exact El|]. cbv beta iota. clear El.
  destruct H8 as [Q HQ]. rewrite HQ in HC, Hbv.
  destruct (calculate_Bv_ok rest junk bv Q Lj Ebv Hbv) as (junk1 & L1 & E1). rewrite decide_False in E1 by exact HC.
  rewrite <- HQ in HC, Hbv.
  eapply bind_step; [exact E1|]. cbv beta iota. clear E1.
  destruct (scalarmult_at k _ bv C Hk Lk Vk Hbv eq_refl) as (kv & Ekv & Hkv & Bkv). fold Kv in Hkv, Bkv.
  eapply bind_step; [exact Ekv|]. cbv beta. clear Ekv.
  eapply bind_step; [apply (ge_p3_tobytes_ok _ _ Hbv)|]. cbv beta.
  eapply bind_step; [exact Bkv|]. cbv beta. clear Bkv.
  eapply bind_step; [rewrite (length_vrf_set label 49), <- (length_vrf_set label 49); apply vrf_set_label|]. cbv beta.
  replace (length (vrf_set label 49)) with (length (vrf_set label 50)) by (rewrite !length_vrf_set; reflexivity).
  destruct (commit_at junk1 rest random z L1 Ez Hz) as (junk2 & L2 & E2). fold ext.
  eapply bind_step; [exact E2|]. cbv beta iota. clear E2.
  assert (0 <= vrf_nonce z < group_order) as Hr by apply hash_scalar_range.
  revert Hr. generalize (vrf_nonce z) as r. intros r Hr. pose proof group_order_range as Ho.
  destruct (scalarmult_at (le_bytes 32 r) r bv C) as (rv & Erv & _ & Brv);
    [apply wf_le_bytes|apply length_le_bytes|rewrite le_value_scalar by exact Hr; lia|exact Hbv|symmetry; apply le_value_scalar, Hr|].
  eapply bind_step; [exact Erv|]. cbv beta. eapply bind_step; [exact Brv|]. cbv beta. clear Erv Brv.
  eapply bind_step; [apply vrf_set_label|]. cbv beta.
  replace (length (vrf_set label 50)) with (length (vrf_set label 51)) by (rewrite !length_vrf_set; reflexivity).
  replace (encode C ++ encode Kv ++ encode (smul r C)) with (ext ++ encode (smul r C)) by (unfold ext; rewrite <- app_assoc; reflexivity).
  destruct (challenge_at junk2 rest (encode (smul r B)) (ext ++ encode (smul r C)) L2) as (M' & EM).
  { unfold ext. rewrite !length_app, !length_encode. reflexivity. }
  { unfold ext. rewrite !wf_bytes_app. split; [split|]; apply wf_encode. }
  { apply wf_encode. }
  { apply length_encode. }
  eapply bind_step; [exact EM|]. cbv beta iota. clear EM. unfold vrf_signature. fold (vrf_challenge r).
  assert (0 <= vrf_challenge r < group_order) as Hh by apply hash_scalar_range.
  revert Hh. generalize (vrf_challenge r) as h. intros h Hh.
  eapply bind_step; [apply sc_muladd_run; (assumption || apply wf_le_bytes || apply length_le_bytes)|].
  cbv beta. rewrite !le_value_scalar by assumption. reflexivity.
Qed.

(** The points that verification rejects do not arise. *)
Lemma cofactor_neq P : in_subgroup P → P ≠ pzero → smul 8 P ≠ pzero.
Proof using. clear. intros HP Hn. apply subgroup_neq; [exact HP|exact Hn|]. intros D. apply Z.divide_pos_le in D; [|lia].
  unfold base_order in D. lia.
Qed.
Lemma multiple_subgroup n P : in_subgroup P → in_subgroup (smul n P).
Proof using. clear. unfold in_subgroup. intros E. rewrite smul_comm, E. apply smul_zero. Qed.
Lemma not_neutral p P : rep_p3 p P → P ≠ pzero → ge_isneutral p = Some 0.
Proof using. clear. intros Hp HP. rewrite (ge_isneutral_ok _ _ Hp), decide_False by exact HP. reflexivity. Qed.
Lemma reduced_point P : point_isreduced (encode P) = Some true.
Proof using.
  clear. rewrite point_isreduced_ok by (apply wf_encode || apply length_encode). f_equal. apply bool_decide_true.
  pose proof (fval_range (py P)) as Hy. pose proof (fval_le255 (py P)) as Hy'.
  pose proof (parity (fval (px P))) as Hn. unfold encode.
  rewrite le_value_bytes_small by (change (256 ^ Z.of_nat 32) with (2 ^ 256); lia).
  rewrite (Z.mul_comm (2 ^ 255)), Z.mod_add, Z.mod_small by lia. lia.
Qed.
Lemma reduced_scalar n : 0 <= n < group_order → sc_isreduced (le_bytes 32 n) = Some true.
Proof using.
  clear. intros Hn. rewrite sc_isreduced_run by (apply wf_le_bytes || apply length_le_bytes). f_equal. apply bool_decide_true.
  rewrite le_value_scalar by exact Hn. lia.
Qed.

Lemma veddsa_verify_ok a uninit buf r : granted a = true → length uninit = LABELSETMAXLEN → length buf = BUFLEN →
  0 <= r < group_order →
  generalized_veddsa_25519_verify a uninit buf (Some (vrf_signature r)) (Some K) (Some msg) label (Z.of_nat (extra_len label)) =
    Some (0, output_of label (smul 8 Kv)).
Proof using All.
  intros Ha Lu Lb Hr. unfold generalized_veddsa_25519_verify, vrf_signature.
  assert (0 <= vrf_challenge r < group_order) as Hh by apply hash_scalar_range.
  pose proof (challenge_at) as Hch. pose proof group_order_range as Ho.
  assert (0 <= (vrf_challenge r * le_value k + r) `mod` group_order < group_order) as Hs by (apply Z.mod_pos_bound; lia).
  pose proof (commitment_proof B (le_value k) r (vrf_challenge r) base_order_zero) as EB.
  pose proof (commitment_proof C (le_value k) r (vrf_challenge r) HsC) as EC. fold Kv in EC.
  unfold vrf_challenge in Hch |- *. fold (vrf_challenge r) in *.
  set (s := (vrf_challenge r * le_value k + r) `mod` group_order) in *. clearbody s.
  assert (∀ junk rest, length junk = MSTART → ∃ M', generalized_challenge (vrf_set label 51 ++ rest) (length (vrf_set label 51))
    (Some (encode C ++ encode Kv ++ encode (smul r C))) (encode (smul r B)) K (junk ++ msg) MSTART (length msg) =
    Some (Some (le_bytes 32 (vrf_challenge r)), M')) as Hchal.
  { intros junk rest Lj. replace (encode C ++ encode Kv ++ encode (smul r C)) with (ext ++ encode (smul r C))
      by (unfold ext; rewrite <- app_assoc; reflexivity).
    apply (Hch junk rest (encode (smul r B)) (ext ++ encode (smul r C)) Lj).
    - unfold ext. rewrite !length_app, !length_encode. reflexivity.
    - unfold ext. rewrite !wf_bytes_app. split; [split|]; apply wf_encode.
    - apply wf_encode.
    - apply length_encode. }
  clear Hch. revert Hh EB EC Hchal. generalize (vrf_challenge r) as h. intros h Hh EB EC Hchal.
  destruct (message_buffer_ok a msg label) as [(_ & junk & Lj & Eb)|(Hno & _)];
    [|destruct Hno; split; [exact Ha|split; [exact Hl|exact Lm]]].
  eapply bind_step; [exact Eb|]. cbv beta iota zeta. clear Eb.
  pose proof (length_encode Kv) as LKv.
  eapply bind_step; [apply mem_read_first; symmetry; exact LKv|]. cbv beta.
  eapply bind_step; [apply mem_read_at; [symmetry; exact LKv|symmetry; apply length_le_bytes]|]. cbv beta.
  eapply bind_step; [rewrite (app_assoc (encode Kv)); apply mem_read_last;
    [rewrite length_app, LKv, length_le_bytes; reflexivity|symmetry; apply length_le_bytes]|]. cbv beta.
  eapply bind_step; [apply (point_isreduced_ok _ HK LK)|]. cbv beta. rewrite (bool_decide_true _ HKr). cbn [negb].
  eapply bind_step; [apply reduced_point|]. cbv beta. cbn [negb].
  eapply bind_step; [apply (reduced_scalar _ Hh)|]. cbv beta. cbn [negb].
  eapply bind_step; [apply (reduced_scalar _ Hs)|]. cbv beta. cbn [negb].
  destruct (vrf_labelset_ok label Hl uninit Lu) as (rest & El). eapply bind_step; [exact El|]. cbv beta iota. clear El.
  destruct H8 as [Q HQ]. rewrite HQ in HC, Hbv.
  destruct (calculate_Bv_ok rest junk bv Q Lj Ebv Hbv) as (junk1 & L1 & E1). rewrite decide_False in E1 by exact HC.
  rewrite <- HQ in HC, Hbv.
  eapply bind_step; [exact E1|]. cbv beta iota. clear E1.
  eapply bind_step; [apply (ge_p3_tobytes_ok _ _ Hbv)|]. cbv beta.
  (* R *)
  assert (le_value (le_bytes 32 s) = s) as Vs by (apply le_value_scalar, Hs).
  destruct (solve_base_ok K HK LK (le_bytes 32 s) (wf_le_bytes _ _) (length_le_bytes _ _) ltac:(rewrite Vs; lia) h Hh)
    as ([[R q]|] & ER & HR); [|destruct (HR _ Hd)].
  eapply bind_step; [exact ER|]. cbv beta iota. clear ER. destruct HR as (A & HA & -> & Hq).
  rewrite (decodes_unique _ _ _ HA Hd) in Hq |- *. clear HA A. rewrite Vs, EB.
  (* Rv *)
  destruct (solve_other_ok (encode Kv) (wf_encode _) LKv (le_bytes 32 s) (wf_le_bytes _ _) (length_le_bytes _ _)
    ltac:(rewrite Vs; lia) h Hh bv C Hbv) as ([[Rv qv]|] & ER & HR); [|destruct (HR _ (decodes_encode Kv))].
  eapply bind_step; [exact ER|]. cbv beta iota. clear ER. destruct HR as (A & HA & -> & Hqv).
  rewrite (decodes_unique _ _ _ HA (decodes_encode Kv)) in Hqv |- *. clear HA A. rewrite Vs, EC.
  (* the neutral points *)
  destruct (ge_scalarmult_cofactor_ok _ _ Hq) as (cq & Ecq & Hcq). eapply bind_step; [exact Ecq|]. cbv beta.
  destruct (ge_scalarmult_cofactor_ok _ _ Hqv) as (cqv & Ecqv & Hcqv). eapply bind_step; [exact Ecqv|]. cbv beta.
  clear Ecq Ecqv.
  assert (smul 8 Kv ≠ pzero) as HKv.
  { apply cofactor_neq; [apply multiple_subgroup, HsC|]. apply subgroup_neq; assumption. }
  eapply bind_step; [apply (not_neutral _ _ Hcq), cofactor_neq; [apply multiple_subgroup, base_order_zero|apply base_multiple_neq, Hnz]|].
  cbv beta. eapply bind_step; [apply (not_neutral _ _ Hcqv HKv)|]. cbv beta.
  eapply bind_step; [apply (not_neutral _ _ Hbv HC)|]. cbv beta. change (negb (0 =? 0)) with false. cbn [orb].
  (* the challenge and the output *)
  eapply bind_step; [apply vrf_set_label|]. cbv beta.
  replace (length (vrf_set label 49)) with (length (vrf_set label 51)) by (rewrite !length_vrf_set; reflexivity).
  destruct (Hchal junk1 rest L1) as (M' & EM). eapply bind_step; [exact EM|]. cbv beta iota. clear EM Hchal.
  eapply bind_step; [apply crypto_verify_32_ok; (apply wf_le_bytes || apply length_le_bytes)|]. cbv beta.
  rewrite bool_decide_true by reflexivity. change (negb (0 =? 0)) with false. cbv iota.
  eapply bind_step; [apply vrf_set_label|]. cbv beta.
  replace (length (vrf_set label 51)) with (length (vrf_set label 52)) by (rewrite !length_vrf_set; reflexivity).
  eapply bind_step; [apply (calculate_vrf_output_ok buf rest cqv _ Lb Hcqv)|]. reflexivity.
Qed.
End Vrf.

(** * Curve25519 keys *)

Section Keys.
Context (label : option bytes) (Hl : (extra_len label <= LABELMAXLEN)%nat) (Hlabel : wf_bytes (default [] label))
  (priv msg : bytes) (Hk : wf_bytes priv) (Lk : length priv = 32%nat) (Vk : le_value priv < 2 ^ 255)
  (Hnz : le_value priv `mod` group_order ≠ 0) (Hm : wf_bytes msg) (Lm : zlen msg <= MSGMAXLEN).

(** One output for all random inputs. *)
Lemma xveddsa_ok pub K k : curve25519_keygen priv = Some pub → convert_25519_pubkey pub = Some (Some K) →
  calculate_25519_keypair priv = Some (K, k) → has_base label K msg = true →
  ∃ out, length out = 32%nat ∧ ∀ a1 a2 u1 u2 buf v0 random, granted a1 = true → granted a2 = true →
    length u1 = LABELSETMAXLEN → length u2 = LABELSETMAXLEN → length buf = BUFLEN → wf_bytes random → (32 <= length random)%nat →
    ∃ sig, generalized_xveddsa_25519_sign a1 u1 priv (Some msg) (Some random) label (Z.of_nat (extra_len label)) = Some (0, sig) ∧
      length sig = 96%nat ∧
      generalized_xveddsa_25519_verify a2 u2 buf v0 (Some sig) pub (Some msg) label (Z.of_nat (extra_len label)) = Some (0, out).
Proof using All.
  intros Eg Ec Ep Hbase.
  destruct (converts_keygen priv Hk Lk Vk Hnz) as (pub' & K' & k' & Eg' & Ec' & Ep' & HK & LK & Hk' & Lk' & Vk' & Hn' & Hd & Hr).
  rewrite Ep' in Ep. injection Ep as -> ->. clear Ec' Eg' pub'.
  destruct (base_point_ok label Hl Hlabel K msg HK LK Hm Lm) as (bv & Q & Ebv & Hbv & Hhas).
  rewrite Hbase in Hhas. case_bool_decide as H0; [discriminate Hhas|]. clear Hhas.
  set (C := smul 8 Q) in *. pose proof (cofactor_subgroup Q) as HsC. fold C in HsC.
  assert (∃ Q, C = smul 8 Q) as H8 by (exists Q; reflexivity). clearbody C. clear Q.
  exists (output_of label (smul 8 (smul (le_value k) C))).
  split; [unfold output_of; rewrite length_take, length_sha512; reflexivity|].
  intros a1 a2 u1 u2 buf v0 random Ha1 Ha2 Lu1 Lu2 Lb Hz Lz. set (z := take 32 random).
  assert (mem_read random 0 RANDLEN = Some z) as Ez.
  { rewrite <- (take_drop 32 random). apply mem_read_first. unfold RANDLEN, z. rewrite length_take. lia. }
  assert (wf_bytes z) as Hz' by (apply Forall_take, Hz).
  pose proof (veddsa_sign_ok label Hl Hlabel K msg HK LK Hm Lm k Hk' Lk' Vk' Hd Hr Hn' bv C Ebv Hbv H0 HsC H8 a1 u1 random z Ha1 Lu1 Ez Hz') as Es.
  pose proof (veddsa_verify_ok label Hl Hlabel K msg HK LK Hm Lm k Hk' Lk' Vk' Hd Hr Hn' bv C Ebv Hbv H0 HsC H8 a2 u2 buf _ Ha2 Lu2 Lb
    (hash_scalar_range (commit_prefix (vrf_set label 50) K k z (encode C ++ encode (smul (le_value k) C)) ++ msg))) as Ev.
  eexists. split; [|split].
  - unfold generalized_xveddsa_25519_sign. eapply bind_step; [exact Ep'|]. exact Es.
  - unfold vrf_signature. rewrite !length_app, length_encode, !length_le_bytes. reflexivity.
  - unfold generalized_xveddsa_25519_verify. eapply bind_step; [exact Ec|]. exact Ev.
Qed.
End Keys.

(** C12: the VRF of gen_veddsa.c and gen_x.c: for every 255-bit private key that is no
    multiple of the group order, every label and message within the limits, either the
    message hashes to the neutral point and signing fails, or there is one output such
    that whatever the random bytes, signing succeeds and verification under the public
    key accepts the signature and returns that output. *)
Theorem vrf_output_deterministic (label : option bytes) (priv msg : bytes) :
  (extra_len label <= LABELMAXLEN)%nat → wf_bytes (default [] label) →
  wf_bytes priv → length priv = 32%nat → le_value priv < 2 ^ 255 → le_value priv `mod` group_order ≠ 0 →
  wf_bytes msg → zlen msg <= MSGMAXLEN →
  let n := Z.of_nat (extra_len label) in
  ∃ pub K out, curve25519_keygen priv = Some pub ∧ convert_25519_pubkey pub = Some (Some K) ∧ length out = 32%nat ∧
    ∀ a1 a2 u1 u2 buf v0 random, granted a1 = true → granted a2 = true →
      length u1 = LABELSETMAXLEN → length u2 = LABELSETMAXLEN → length buf = BUFLEN →
      wf_bytes random → (32 <= length random)%nat →
      if has_base label K msg then
        ∃ sig, generalized_xveddsa_25519_sign a1 u1 priv (Some msg) (Some random) label n = Some (0, sig) ∧
          length sig = 96%nat ∧
          generalized_xveddsa_25519_verify a2 u2 buf v0 (Some sig) pub (Some msg) label n = Some (0, out)
      else
        generalized_xveddsa_25519_sign a1 u1 priv (Some msg) (Some random) label n = Some (-1, replicate 96 0).
Proof.
  intros Hl Hlabel Hk Lk Vk Hnz Hm Lm n.
  destruct (converts_keygen priv Hk Lk Vk Hnz) as (pub & K & k & Eg & Ec & Ep & HK & LK & _).
  exists pub, K. destruct (has_base label K msg) eqn:Hb.
  - destruct (xveddsa_ok label Hl Hlabel priv msg Hk Lk Vk Hnz Hm Lm pub K k Eg Ec Ep Hb) as (out & Lo & Hout).
    exists out. split; [exact Eg|]. split; [exact Ec|]. split; [exact Lo|exact Hout].
  - exists (replicate 32 0). split; [exact Eg|]. split; [exact Ec|]. split; [apply length_replicate|].
    intros a1 a2 u1 u2 buf v0 random _ _ Lu1 _ _ _ _. unfold generalized_xveddsa_25519_sign.
    eapply bind_step; [exact Ep|]. by apply veddsa_sign_neutral.
Qed.

Lemma vrf_output_deterministic_witness :
  let priv := 8 :: replicate 30 7 ++ [64] in let a := Alloc true (λ _, 0) in let u := replicate 512 0 in
  ∃ pub K out, curve25519_keygen priv = Some pub ∧ length out = 32%nat ∧
    if has_base (Some [65]) K [1; 2; 3] then
      ∃ sig, generalized_xveddsa_25519_sign a u priv (Some [1; 2; 3]) (Some (replicate 64 5)) (Some [65]) 1 = Some (0, sig) ∧
        generalized_xveddsa_25519_verify a u (replicate 1024 0) [] (Some sig) pub (Some [1; 2; 3]) (Some [65]) 1 = Some (0, out)
    else generalized_xveddsa_25519_sign a u priv (Some [1; 2; 3]) (Some (replicate 64 5)) (Some [65]) 1 = Some (-1, replicate 96 0).
Proof.
  cbv zeta. destruct (vrf_output_deterministic (Some [65]) (8 :: replicate 30 7 ++ [64]) [1; 2; 3])
    as (pub & K & out & Eg & _ & Lo & H);
    [unfold LABELMAXLEN; cbn; lia|by repeat constructor|by repeat constructor|reflexivity|vm_compute; reflexivity
    |vm_compute; discriminate|by repeat constructor|vm_compute; discriminate|].
  exists pub, K, out. split; [exact Eg|]. split; [exact Lo|].
  specialize (H (Alloc true (λ _, 0)) (Alloc true (λ _, 0)) (replicate 512 0) (replicate 512 0) (replicate 1024 0) []
    (replicate 64 5) eq_refl eq_refl eq_refl eq_refl eq_refl ltac:(by repeat constructor) ltac:(vm_compute; lia)).
  destruct (has_base (Some [65]) K [1; 2; 3]); [|exact H]. destruct H as (sig & Es & _ & Ev). exists sig. split; assumption.
Defined.
