(* ===== verification/VrfLink.v ===== *)
(** The VRF interface of Consistency, discharged by the modelled gen_x.c and gen_veddsa.c:
    the device-consistency protocol on the curve of this library, with nothing assumed. *)

From S2P Require Import Prelude Provider Curve Limbs Donna DonnaField DonnaBytes DonnaLadder DonnaLink Scalar ScalarSpec.
From S2P Require Import Prime Field25519 Edwards GeSpec GeTable Ge XEd XEdSpec XEdSign Montgomery CurveLink.
From S2P Require Import Buffer Order Digest KeyList Fingerprint Consistency Labels GenEd GenVrf LabelsSpec GenEdSpec VrfSpec.

Section Link.
Context (a1 a2 : alloc) (u1 u2 buf v0 : bytes) (H1 : granted a1 = true) (H2 : granted a2 = true)
  (L1 : length u1 = LABELSETMAXLEN) (L2 : length u2 = LABELSETMAXLEN) (Lb : length buf = BUFLEN).

(** curve.c passes 64 random bytes and no label. *)
Definition vrf_signs (sk msg random : bytes) : Z * bytes :=
  if is_bytes 32 sk && is_buffer msg then
    default (-1, []) (GenVrf.generalized_xveddsa_25519_sign a1 u1 sk (Some msg)
      (Some (if is_bytes 64 random then random else replicate 64 0)) None 0)
  else (-1, []).
Definition vrf_verifies (sig pk msg : bytes) : Z * bytes :=
  default (-1, []) (GenVrf.generalized_xveddsa_25519_verify a2 u2 buf v0 (Some sig) pk (Some msg) None 0).
#[export] Instance donna_xveddsa : Xveddsa := {|
  Consistency.generalized_xveddsa_25519_sign := vrf_signs;
  Consistency.generalized_xveddsa_25519_verify := vrf_verifies
|}.

(** The messages a key can sign: within the limit, and not hashed to the neutral point. *)
Definition can_sign (sk msg : bytes) : bool :=
  is_buffer msg && (zlen msg <=? MSGMAXLEN) &&
  match calculate_25519_keypair sk with Some (K, _) => has_base None K msg | None => false end.
Definition vrf_of (sk msg : bytes) : bytes :=
  let sig := (vrf_signs sk msg (replicate 64 0)).2 in
  let out := (vrf_verifies sig (x25519_bytes sk basepoint) msg).2 in
  if (length out =? 32)%nat then out else replicate 32 0.

Lemma vrf_signs_verifies sk msg : clamped sk → can_sign sk msg = true →
  ∃ out, length out = 32%nat ∧ ∀ random, ∃ sig, vrf_signs sk msg random = (0, sig) ∧ length sig = 96%nat ∧
    vrf_verifies sig (x25519_bytes sk basepoint) msg = (0, out).
Proof using H1 H2 L1 L2 Lb.
  intros Hc Hcan. destruct (clamped_bytes sk Hc) as [Hw Hl]. destruct (clamped_value sk Hc) as [Hr _].
  unfold can_sign in Hcan. apply andb_true_iff in Hcan as [[Hbuf Hlen%Z.leb_le]%andb_true_iff Hbase].
  destruct (is_buffer_spec msg Hbuf) as [Hm _].
  assert (le_value sk `mod` group_order ≠ 0) as Hnz.
  { intros E. apply (clamped_order sk Hc), Z.mod_divide; [|exact E]. pose proof group_order_range. lia. }
  destruct (converts_keygen sk Hw Hl ltac:(lia) Hnz) as (pub & K & k & Eg & Ec & Ep & _). rewrite Ep in Hbase.
  destruct (xveddsa_ok None ltac:(vm_compute; lia) (Forall_nil_2 _) sk msg Hw Hl ltac:(lia) Hnz Hm Hlen pub K k Eg Ec Ep Hbase)
    as (out & Lo & Hout).
  rewrite keygen_is_donna in Eg by (assumption || lia). injection Eg as <-.
  exists out. split; [exact Lo|]. intros random. unfold vrf_signs, vrf_verifies.
  rewrite (proj2 (is_bytes_spec 32 sk)), Hbuf by (split; assumption). cbn [andb].
  assert (∃ rnd, (if is_bytes 64 random then random else replicate 64 0) = rnd ∧ wf_bytes rnd ∧ length rnd = 64%nat)
    as (rnd & -> & Wr & Lr).
  { eexists. split; [reflexivity|]. destruct (is_bytes 64 random) eqn:E; [by apply is_bytes_spec in E as [? ?]|].
    split; [apply wf_zeros|apply length_replicate]. }
  destruct (Hout a1 a2 u1 u2 buf v0 rnd H1 H2 L1 L2 Lb Wr ltac:(lia)) as (sig & Es & Ls & Ev).
  change (Z.of_nat (extra_len None)) with 0 in Es, Ev. exists sig. rewrite Es, Ev. split; [reflexivity|]. split; [exact Ls|reflexivity].
Qed.

#[export] Instance donna_vrf_laws sign verify : VrfLaws (donna_laws sign verify) donna_xveddsa.
Proof using H1 H2 L1 L2 Lb.
  refine {| vrf := vrf_of; vrf_defined sk msg := can_sign sk msg = true |}.
  - intros sk msg. unfold vrf_of. cbv zeta. destruct (Nat.eqb_spec (length (vrf_verifies (vrf_signs sk msg (replicate 64 0)).2
      (x25519_bytes sk basepoint) msg).2) 32) as [E|E]; [exact E|apply length_replicate].
  - intros sk msg rnd Hc Hd. destruct (vrf_signs_verifies sk msg Hc Hd) as (out & _ & H).
    destruct (H rnd) as (sig & E & L & _). exists sig. split; assumption.
  - intros sk msg rnd sig Hc Hd Hs. destruct (vrf_signs_verifies sk msg Hc Hd) as (out & Lo & H).
    destruct (H rnd) as (sig' & E & _ & Ev). change (vrf_signs sk msg rnd = (0, sig)) in Hs. rewrite E in Hs. injection Hs as <-.
    change (vrf_verifies sig' (x25519_bytes sk basepoint) msg = (0, vrf_of sk msg)). rewrite Ev. f_equal. unfold vrf_of.
    destruct (H (replicate 64 0)) as (sig0 & E0 & _ & Ev0). rewrite E0. cbn [snd]. rewrite Ev0. cbn [snd].
    rewrite Lo. reflexivity.
Defined.
End Link.


