(* ===== verification/RefCount.v ===== *)
(** The memory of the library: reference-counted objects and the buffers and
    list nodes they own.

    The other files model what the objects hold; this one models who owns
    them.  Every [malloc] of the library is a cell of a heap, every owning
    pointer of a struct is a field of an [object], and [signal_type_init],
    [signal_type_ref], [signal_type_unref] (signal_protocol.c) and the
    [*_destroy] functions of the 29 reference-counted structs act on it.  An
    access to a cell that is not allocated, a pointer that was never set, a
    second [free] and a failed [assert] are [Abort].

    A doubly linked list of nodes is the Rocq list of its nodes, each with the
    address of its own allocation.  Plain data that no ownership decision
    reads is left out.  Addresses are [positive]; a new cell is placed beyond
    the highest live one, so an address can be reused after [free]. *)
From stdpp Require Import gmap.
From S2P Require Import Prelude.

(** * Pointers, objects and the heap *)

Abbreviation loc := positive.

(** [Wild]: the value of a pointer field of a struct that was allocated and not
    cleared. *)
Inductive ptr : Type := Null | Loc (l : loc) | Wild.

Global Instance ptr_eq_dec : EqDecision ptr.
Proof. solve_decision. Defined.

(** [session_state_receiver_chain] with the address of the node and of its
    [message_keys_node]s, which carry the counter of the message key. *)
Record receiver_node : Type := ReceiverNode {
  rn_node : loc;
  rn_sender_ratchet_key : ptr;
  rn_chain_key : ptr;
  rn_message_keys : list (loc * Z) }.

(** The owning fields of [struct session_state] and the flags that decide what
    is released. *)
Record state_fields : Type := StateFields {
  sf_local_identity_public : ptr;
  sf_remote_identity_public : ptr;
  sf_root_key : ptr;
  sf_has_sender_chain : bool;
  sf_sender_ratchet_key_pair : ptr;
  sf_sender_chain_key : ptr;
  sf_receiver_chain : list receiver_node;
  sf_has_pending_key_exchange : bool;
  sf_local_base_key : ptr;
  sf_local_ratchet_key : ptr;
  sf_local_identity_key : ptr;
  sf_has_pending_pre_key : bool;
  sf_pending_base_key : ptr;
  sf_alice_base_key : ptr }.

(** One constructor per reference-counted struct, its arguments the owning
    pointers in the order of the declaration.  [nodes] of a list are pairs of
    the node's address and the pointer the node holds. *)
Inductive object : Type :=
| EcPublicKey (data : bytes)
| EcPrivateKey
| HkdfContext
| EcKeyPair (public_key private_key : ptr)
| RatchetChainKey (kdf key : ptr)
| RatchetRootKey (kdf key : ptr)
| RatchetIdentityKeyPair (public_key private_key : ptr)
| SymmetricParameters (our_identity_key our_base_key our_ratchet_key
    their_base_key their_ratchet_key their_identity_key : ptr)
| AliceParameters (our_identity_key our_base_key their_identity_key
    their_signed_pre_key their_one_time_pre_key their_ratchet_key : ptr)
| BobParameters (our_identity_key our_signed_pre_key our_one_time_pre_key
    our_ratchet_key their_identity_key their_base_key : ptr)
| SessionState (s : state_fields)
| SessionRecord (state : ptr) (previous_states : list (loc * ptr))
| SessionPreKey (key_pair : ptr)
| SessionSignedPreKey (key_pair : ptr)
| SessionPreKeyBundle (pre_key_public signed_pre_key_public
    signed_pre_key_signature identity_key : ptr)
| SignalMessage (serialized sender_ratchet_key ciphertext : ptr)
| PreKeySignalMessage (serialized base_key identity_key message : ptr)
| SenderKeyMessage (serialized ciphertext : ptr)
| DistributionMessage (serialized chain_key signature_key : ptr)
| SenderMessageKey (iteration : Z) (iv cipher_key seed : ptr)
| SenderChainKey (chain_key : ptr)
| SenderKeyState (chain_key signature_public_key signature_private_key : ptr)
    (message_keys : list (loc * ptr))
| SenderKeyRecord (sender_key_states : list (loc * ptr))
| Fingerprint (displayable scannable : ptr)
| DisplayableFingerprint (local_fingerprint remote_fingerprint display_text : ptr)
| ScannableFingerprint (local_stable_identifier local_fingerprint
    remote_stable_identifier remote_fingerprint : ptr)
| ConsistencySignature (signature vrf_output : ptr)
| ConsistencyCommitment (serialized : ptr)
| ConsistencyMessage (signature serialized : ptr).

(** A cell is a buffer, string or list node ([Raw]) or a struct that starts
    with [signal_type_base]: its [ref_count] and the object, whose constructor
    stands for the [destroy] pointer. *)
Inductive cell : Type := Raw | Obj (ref_count : Z) (o : object).

Abbreviation heap := (gmap loc cell).

(** * The destroy functions

    A body is the sequence of its [SIGNAL_UNREF]s and [free]s; both do nothing
    on a null pointer, so the tests for null around some of them add nothing.
    The fields that [SIGNAL_UNREF] clears belong to the struct that the last
    [free] releases. *)

Inductive action : Type := Unref (p : ptr) | Free (p : ptr).

Definition ec_public_key_destroy (self : loc) : list action := [Free (Loc self)].

Definition ec_private_key_destroy (self : loc) : list action := [Free (Loc self)].

Definition hkdf_destroy (self : loc) : list action := [Free (Loc self)].

Definition ec_key_pair_destroy (self : loc) (public_key private_key : ptr) : list action :=
  [Unref public_key; Unref private_key; Free (Loc self)].

Definition ratchet_chain_key_destroy (self : loc) (kdf key : ptr) : list action :=
  [Unref kdf; Free key; Free (Loc self)].

Definition ratchet_root_key_destroy (self : loc) (kdf key : ptr) : list action :=
  [Unref kdf; Free key; Free (Loc self)].

Definition ratchet_identity_key_pair_destroy (self : loc) (public_key private_key : ptr)
    : list action :=
  [Unref public_key; Unref private_key; Free (Loc self)].

Definition symmetric_signal_protocol_parameters_destroy (self : loc)
    (our_identity_key our_base_key our_ratchet_key
     their_base_key their_ratchet_key their_identity_key : ptr) : list action :=
  [Unref our_identity_key; Unref our_base_key; Unref our_ratchet_key;
   Unref their_base_key; Unref their_ratchet_key; Unref their_identity_key;
   Free (Loc self)].

Definition alice_signal_protocol_parameters_destroy (self : loc)
    (our_identity_key our_base_key their_identity_key
     their_signed_pre_key their_one_time_pre_key their_ratchet_key : ptr) : list action :=
  [Unref our_identity_key; Unref our_base_key; Unref their_identity_key;
   Unref their_signed_pre_key; Unref their_ratchet_key;
   Unref their_one_time_pre_key; Free (Loc self)].

Definition bob_signal_protocol_parameters_destroy (self : loc)
    (our_identity_key our_signed_pre_key our_one_time_pre_key
     our_ratchet_key their_identity_key their_base_key : ptr) : list action :=
  [Unref our_identity_key; Unref our_signed_pre_key; Unref our_ratchet_key;
   Unref their_identity_key; Unref their_base_key; Unref our_one_time_pre_key;
   Free (Loc self)].

(** [DL_FOREACH_SAFE(head, cur) { DL_DELETE; SIGNAL_UNREF(cur->p); free(cur); }]. *)
Definition free_nodes (nodes : list (loc * ptr)) : list action :=
  nodes ≫= λ '(node, p), [Unref p; Free (Loc node)].

Definition session_state_free_sender_chain (s : state_fields) : list action :=
  [Unref (sf_sender_ratchet_key_pair s); Unref (sf_sender_chain_key s)].

Definition free_message_keys (keys : list (loc * Z)) : list action :=
  (λ '(node, _), Free (Loc node)) <$> keys.

Definition session_state_free_receiver_chain_node (node : receiver_node) : list action :=
  [Unref (rn_sender_ratchet_key node); Unref (rn_chain_key node)]
  ++ free_message_keys (rn_message_keys node) ++ [Free (Loc (rn_node node))].

Definition session_state_free_receiver_chain (s : state_fields) : list action :=
  sf_receiver_chain s ≫= session_state_free_receiver_chain_node.

Definition session_state_destroy (self : loc) (s : state_fields) : list action :=
  [Unref (sf_local_identity_public s); Unref (sf_remote_identity_public s);
   Unref (sf_root_key s)]
  ++ session_state_free_sender_chain s
  ++ session_state_free_receiver_chain s
  ++ (if sf_has_pending_key_exchange s
      then [Unref (sf_local_base_key s); Unref (sf_local_ratchet_key s);
            Unref (sf_local_identity_key s)] else [])
  ++ (if sf_has_pending_pre_key s then [Unref (sf_pending_base_key s)] else [])
  ++ [Unref (sf_alice_base_key s); Free (Loc self)].

Definition session_record_free_previous_states (previous : list (loc * ptr)) : list action :=
  free_nodes previous.

Definition session_record_destroy (self : loc) (state : ptr) (previous : list (loc * ptr))
    : list action :=
  [Unref state] ++ session_record_free_previous_states previous ++ [Free (Loc self)].

Definition session_pre_key_destroy (self : loc) (key_pair : ptr) : list action :=
  [Unref key_pair; Free (Loc self)].

Definition session_signed_pre_key_destroy (self : loc) (key_pair : ptr) : list action :=
  [Unref key_pair; Free (Loc self)].

Definition session_pre_key_bundle_destroy (self : loc)
    (pre_key_public signed_pre_key_public signed_pre_key_signature identity_key : ptr)
    : list action :=
  [Unref pre_key_public; Unref signed_pre_key_public; Free signed_pre_key_signature;
   Unref identity_key; Free (Loc self)].

Definition signal_message_destroy (self : loc)
    (serialized sender_ratchet_key ciphertext : ptr) : list action :=
  [Free serialized; Unref sender_ratchet_key; Free ciphertext; Free (Loc self)].

Definition pre_key_signal_message_destroy (self : loc)
    (serialized base_key identity_key message : ptr) : list action :=
  [Free serialized; Unref base_key; Unref identity_key; Unref message; Free (Loc self)].

Definition sender_key_message_destroy (self : loc) (serialized ciphertext : ptr)
    : list action :=
  [Free serialized; Free ciphertext; Free (Loc self)].

Definition sender_key_distribution_message_destroy (self : loc)
    (serialized chain_key signature_key : ptr) : list action :=
  [Free serialized; Free chain_key; Unref signature_key; Free (Loc self)].

Definition sender_message_key_destroy (self : loc) (iv cipher_key seed : ptr)
    : list action :=
  [Free iv; Free cipher_key; Free seed; Free (Loc self)].

Definition sender_chain_key_destroy (self : loc) (chain_key : ptr) : list action :=
  [Free chain_key; Free (Loc self)].

Definition sender_key_state_destroy (self : loc)
    (chain_key signature_public_key signature_private_key : ptr)
    (message_keys : list (loc * ptr)) : list action :=
  [Unref chain_key; Unref signature_public_key; Unref signature_private_key]
  ++ free_nodes message_keys ++ [Free (Loc self)].

Definition sender_key_record_destroy (self : loc) (states : list (loc * ptr))
    : list action :=
  free_nodes states ++ [Free (Loc self)].

Definition fingerprint_destroy (self : loc) (displayable scannable : ptr) : list action :=
  [Unref displayable; Unref scannable; Free (Loc self)].

Definition displayable_fingerprint_destroy (self : loc)
    (local_fingerprint remote_fingerprint display_text : ptr) : list action :=
  [Free local_fingerprint; Free remote_fingerprint; Free display_text; Free (Loc self)].

Definition scannable_fingerprint_destroy (self : loc)
    (local_stable_identifier local_fingerprint
     remote_stable_identifier remote_fingerprint : ptr) : list action :=
  [Free local_stable_identifier; Free remote_stable_identifier;
   Free local_fingerprint; Free remote_fingerprint; Free (Loc self)].

Definition device_consistency_signature_destroy (self : loc) (signature vrf_output : ptr)
    : list action :=
  [Free signature; Free vrf_output; Free (Loc self)].

Definition device_consistency_commitment_destroy (self : loc) (serialized : ptr)
    : list action :=
  [Free serialized; Free (Loc self)].

Definition device_consistency_message_destroy (self : loc) (signature serialized : ptr)
    : list action :=
  [Unref signature; Free serialized; Free (Loc self)].

(** [instance->destroy(instance)]. *)
Definition destroy (self : loc) (o : object) : list action :=
  match o with
  | EcPublicKey _ => ec_public_key_destroy self
  | EcPrivateKey => ec_private_key_destroy self
  | HkdfContext => hkdf_destroy self
  | EcKeyPair a b => ec_key_pair_destroy self a b
  | RatchetChainKey a b => ratchet_chain_key_destroy self a b
  | RatchetRootKey a b => ratchet_root_key_destroy self a b
  | RatchetIdentityKeyPair a b => ratchet_identity_key_pair_destroy self a b
  | SymmetricParameters a b c d e f =>
      symmetric_signal_protocol_parameters_destroy self a b c d e f
  | AliceParameters a b c d e f => alice_signal_protocol_parameters_destroy self a b c d e f
  | BobParameters a b c d e f => bob_signal_protocol_parameters_destroy self a b c d e f
  | SessionState s => session_state_destroy self s
  | SessionRecord a l => session_record_destroy self a l
  | SessionPreKey a => session_pre_key_destroy self a
  | SessionSignedPreKey a => session_signed_pre_key_destroy self a
  | SessionPreKeyBundle a b c d => session_pre_key_bundle_destroy self a b c d
  | SignalMessage a b c => signal_message_destroy self a b c
  | PreKeySignalMessage a b c d => pre_key_signal_message_destroy self a b c d
  | SenderKeyMessage a b => sender_key_message_destroy self a b
  | DistributionMessage a b c => sender_key_distribution_message_destroy self a b c
  | SenderMessageKey _ a b c => sender_message_key_destroy self a b c
  | SenderChainKey a => sender_chain_key_destroy self a
  | SenderKeyState a b c l => sender_key_state_destroy self a b c l
  | SenderKeyRecord l => sender_key_record_destroy self l
  | Fingerprint a b => fingerprint_destroy self a b
  | DisplayableFingerprint a b c => displayable_fingerprint_destroy self a b c
  | ScannableFingerprint a b c d => scannable_fingerprint_destroy self a b c d
  | ConsistencySignature a b => device_consistency_signature_destroy self a b
  | ConsistencyCommitment a => device_consistency_commitment_destroy self a
  | ConsistencyMessage a b => device_consistency_message_destroy self a b
  end.

(** * Primitives *)

(** [free(p)]. *)
Definition free (p : ptr) (h : heap) : option heap :=
  match p with
  | Null => Some h
  | Wild => None
  | Loc l => match h !! l with Some _ => Some (delete l h) | None => None end
  end.

(** A destroy body, given the meaning of [signal_type_unref]. *)
Fixpoint run_actions (unref : ptr → heap → option heap) (acts : list action) (h : heap)
    : option heap :=
  match acts with
  | [] => Some h
  | Unref p :: acts =>
      match unref p h with Some h' => run_actions unref acts h' | None => None end
  | Free p :: acts =>
      match free p h with Some h' => run_actions unref acts h' | None => None end
  end.

(** [signal_type_unref]; [depth] bounds the nesting of [destroy] calls. *)
Fixpoint signal_type_unref_at (depth : nat) (instance : ptr) (h : heap) : option heap :=
  match instance, depth with
  | Null, _ => Some h
  | Wild, _ => None
  | Loc _, O => None
  | Loc l, S depth =>
      match h !! l with
      | Some (Obj ref_count o) =>
          if bool_decide (ref_count > 0) then
            if bool_decide (ref_count > 1) then Some (<[l := Obj (ref_count - 1) o]> h)
            else run_actions (signal_type_unref_at depth) (destroy l o) h
          else None
      | _ => None
      end
  end.

(** A record destroys its states, a state its key pairs, a key pair its keys. *)
Definition unref_depth : nat := 4.

(** [signal_type_ref]; the count is an [unsigned int]. *)
Definition signal_type_ref (instance : ptr) (h : heap) : option heap :=
  match instance with
  | Loc l =>
      match h !! l with
      | Some (Obj ref_count o) =>
          if bool_decide (ref_count > 0)
          then Some (<[l := Obj (u32 (ref_count + 1)) o]> h) else None
      | _ => None
      end
  | _ => None
  end.

(** The computations of this file: the world's user data is the heap. *)
Abbreviation mem := (world heap).

Definition heap_op (f : heap → option heap) : M mem unit := λ w,
  match f (w_user w) with
  | Some h => (Ok tt, World (w_mem w) h)
  | None => (Abort, w)
  end.

Definition SIGNAL_UNREF (p : ptr) : M mem unit := heap_op (signal_type_unref_at unref_depth p).
Definition SIGNAL_REF (p : ptr) : M mem unit := heap_op (signal_type_ref p).
Definition mem_free (p : ptr) : M mem unit := heap_op (free p).
Definition perform (acts : list action) : M mem unit :=
  heap_op (run_actions (signal_type_unref_at unref_depth) acts).

Definition new_loc (h : heap) : loc := Pos.succ (map_fold (λ l _ m, Pos.max l m) 1%positive h).

Definition place (c : cell) : M mem loc := λ w,
  let l := new_loc (w_user w) in (Ok l, World (w_mem w) (<[l := c]> (w_user w))).

(** [malloc] of a cell that starts as [c]; [None] is the null pointer. *)
Definition new_cell (c : cell) : M mem (option loc) :=
  let* ok := malloc in
  if (ok : bool) then let* l := place c in ret (Some l) else ret None.

(** [p = malloc(..); if(!p) return SG_ERR_NOMEM; SIGNAL_INIT(p, ..)]. *)
Definition new_object (o : object) : M mem loc :=
  let* p := new_cell (Obj 1 o) in non_null p SG_ERR_NOMEM.

Definition new_node : M mem loc :=
  let* p := new_cell Raw in non_null p SG_ERR_NOMEM.

Definition of_loc (p : option loc) : ptr := from_option Loc Null p.

(** [signal_buffer_create], [signal_buffer_copy], [strdup] or [malloc] of bytes. *)
Definition new_buffer : M mem ptr :=
  let* p := new_cell Raw in ret (of_loc p).

Definition load (l : loc) : M mem object := λ w,
  match w_user w !! l with
  | Some (Obj _ o) => (Ok o, w)
  | _ => (Abort, w)
  end.

Definition store (l : loc) (o : object) : M mem unit := λ w,
  match w_user w !! l with
  | Some (Obj n _) => (Ok tt, World (w_mem w) (<[l := Obj n o]> (w_user w)))
  | _ => (Abort, w)
  end.

(** [assert(p)]. *)
Definition assert_ptr (p : ptr) : M mem unit :=
  match p with Null => abort | _ => ret tt end.

(** [if(!p || ..) return SG_ERR_INVAL;] *)
Definition require_ptrs (ps : list ptr) : M mem unit :=
  if bool_decide (Null ∈ ps) then fail SG_ERR_INVAL else ret tt.

(** [if(p) SIGNAL_REF(p);] *)
Definition ref_if (p : ptr) : M mem unit :=
  if bool_decide (p = Null) then ret tt else SIGNAL_REF p.

(** * Owning fields

    An owning pointer of a struct that a function replaces: how to read it and
    how to write it. *)
Record field : Type := Field {
  field_get : object → option ptr;
  field_set : ptr → object → object }.

Definition get_field (l : loc) (f : field) : M mem ptr :=
  let* o := load l in
  match field_get f o with Some p => ret p | None => abort end.

Definition set_field (l : loc) (f : field) (p : ptr) : M mem unit :=
  let* o := load l in
  match field_get f o with Some _ => store l (field_set f p o) | None => abort end.

(** [SIGNAL_UNREF(x->f)] also clears the field. *)
Definition unref_field (l : loc) (f : field) : M mem unit :=
  let* p := get_field l f in
  let* _ := SIGNAL_UNREF p in
  set_field l f Null.

(** [if(x->f) { SIGNAL_UNREF(x->f); } SIGNAL_REF(p); x->f = p;] *)
Definition replace_field (l : loc) (f : field) (p : ptr) : M mem unit :=
  let* _ := unref_field l f in
  let* _ := SIGNAL_REF p in
  set_field l f p.

Definition state_field (get : state_fields → ptr) (set : ptr → state_fields → state_fields)
    : field :=
  Field (λ o, match o with SessionState s => Some (get s) | _ => None end)
        (λ p o, match o with SessionState s => SessionState (set p s) | _ => o end).
