(* ===== verification/RefCountInv.v ===== *)
(** The ownership invariant of the heap of RefCount.v and what
    [signal_type_ref] and [signal_type_unref] do to it.

    [inv b H D h]: the holders outside the heap are the handles [H], every
    reference count is the number of handles and fields that point to the
    object, less the references [D] that fields already hold and that
    [SIGNAL_REF] has still to count; fields point to live cells of their type;
    no count exceeds [b].  Types are layered by [rank], which bounds the
    nesting of destroy calls. *)
From stdpp Require Import gmap.
From S2P Require Import Prelude RefCount.

(** * Types and fields *)

Inductive ty : Type :=
| TRaw | TPublicKey | TPrivateKey | THkdf | TKeyPair | TChainKey | TRootKey
| TIdentityKeyPair | TSymmetric | TAlice | TBob | TState | TRecord | TPreKey
| TSignedPreKey | TBundle | TMessage | TPreKeyMessage | TSenderMessage
| TDistribution | TSenderMessageKey | TSenderChainKey | TSenderState
| TSenderRecord | TFingerprint | TDisplayable | TScannable | TSignature
| TCommitment | TConsistency.

Global Instance ty_eq_dec : EqDecision ty.
Proof. solve_decision. Defined.

Definition ty_of (o : object) : ty :=
  match o with
  | EcPublicKey _ => TPublicKey
  | EcPrivateKey => TPrivateKey
  | HkdfContext => THkdf
  | EcKeyPair _ _ => TKeyPair
  | RatchetChainKey _ _ => TChainKey
  | RatchetRootKey _ _ => TRootKey
  | RatchetIdentityKeyPair _ _ => TIdentityKeyPair
  | SymmetricParameters _ _ _ _ _ _ => TSymmetric
  | AliceParameters _ _ _ _ _ _ => TAlice
  | BobParameters _ _ _ _ _ _ => TBob
  | SessionState _ => TState
  | SessionRecord _ _ => TRecord
  | SessionPreKey _ => TPreKey
  | SessionSignedPreKey _ => TSignedPreKey
  | SessionPreKeyBundle _ _ _ _ => TBundle
  | SignalMessage _ _ _ => TMessage
  | PreKeySignalMessage _ _ _ _ => TPreKeyMessage
  | SenderKeyMessage _ _ => TSenderMessage
  | DistributionMessage _ _ _ => TDistribution
  | SenderMessageKey _ _ _ _ => TSenderMessageKey
  | SenderChainKey _ => TSenderChainKey
  | SenderKeyState _ _ _ _ => TSenderState
  | SenderKeyRecord _ => TSenderRecord
  | Fingerprint _ _ => TFingerprint
  | DisplayableFingerprint _ _ _ => TDisplayable
  | ScannableFingerprint _ _ _ _ => TScannable
  | ConsistencySignature _ _ => TSignature
  | ConsistencyCommitment _ => TCommitment
  | ConsistencyMessage _ _ => TConsistency
  end.

Definition rank (t : ty) : nat :=
  match t with
  | TRaw | TPublicKey | TPrivateKey | THkdf => 0
  | TRecord | TSenderRecord => 3
  | TSymmetric | TAlice | TBob | TState | TPreKey | TSignedPreKey
  | TPreKeyMessage | TSenderState | TFingerprint | TConsistency => 2
  | _ => 1
  end.

(** Every owning pointer of an object with the type it is declared with. *)
Definition node_fields (t : ty) (nodes : list (loc * ptr)) : list (ty * ptr) :=
  nodes ≫= λ '(node, p), [(t, p); (TRaw, Loc node)].

Definition receiver_node_fields (node : receiver_node) : list (ty * ptr) :=
  [(TPublicKey, rn_sender_ratchet_key node); (TChainKey, rn_chain_key node)]
  ++ ((λ '(k, _), (TRaw, Loc k)) <$> rn_message_keys node)
  ++ [(TRaw, Loc (rn_node node))].

Definition state_owns (s : state_fields) : list (ty * ptr) :=
  [(TPublicKey, sf_local_identity_public s); (TPublicKey, sf_remote_identity_public s);
   (TRootKey, sf_root_key s); (TKeyPair, sf_sender_ratchet_key_pair s);
   (TChainKey, sf_sender_chain_key s)]
  ++ (sf_receiver_chain s ≫= receiver_node_fields)
  ++ [(TKeyPair, sf_local_base_key s); (TKeyPair, sf_local_ratchet_key s);
      (TIdentityKeyPair, sf_local_identity_key s);
      (TPublicKey, sf_pending_base_key s); (TPublicKey, sf_alice_base_key s)].

Definition owns (o : object) : list (ty * ptr) :=
  match o with
  | EcPublicKey _ | EcPrivateKey | HkdfContext => []
  | EcKeyPair a b | RatchetIdentityKeyPair a b => [(TPublicKey, a); (TPrivateKey, b)]
  | RatchetChainKey a b | RatchetRootKey a b => [(THkdf, a); (TRaw, b)]
  | SymmetricParameters a b c d e f =>
      [(TIdentityKeyPair, a); (TKeyPair, b); (TKeyPair, c);
       (TPublicKey, d); (TPublicKey, e); (TPublicKey, f)]
  | AliceParameters a b c d e f =>
      [(TIdentityKeyPair, a); (TKeyPair, b); (TPublicKey, c);
       (TPublicKey, d); (TPublicKey, f); (TPublicKey, e)]
  | BobParameters a b c d e f =>
      [(TIdentityKeyPair, a); (TKeyPair, b); (TKeyPair, d);
       (TPublicKey, e); (TPublicKey, f); (TKeyPair, c)]
  | SessionState s => state_owns s
  | SessionRecord a l => [(TState, a)] ++ node_fields TState l
  | SessionPreKey a | SessionSignedPreKey a => [(TKeyPair, a)]
  | SessionPreKeyBundle a b c d =>
      [(TPublicKey, a); (TPublicKey, b); (TRaw, c); (TPublicKey, d)]
  | SignalMessage a b c => [(TRaw, a); (TPublicKey, b); (TRaw, c)]
  | PreKeySignalMessage a b c d =>
      [(TRaw, a); (TPublicKey, b); (TPublicKey, c); (TMessage, d)]
  | SenderKeyMessage a b => [(TRaw, a); (TRaw, b)]
  | DistributionMessage a b c => [(TRaw, a); (TRaw, b); (TPublicKey, c)]
  | SenderMessageKey _ a b c => [(TRaw, a); (TRaw, b); (TRaw, c)]
  | SenderChainKey a => [(TRaw, a)]
  | SenderKeyState a b c l =>
      [(TSenderChainKey, a); (TPublicKey, b); (TPrivateKey, c)]
      ++ node_fields TSenderMessageKey l
  | SenderKeyRecord l => node_fields TSenderState l
  | Fingerprint a b => [(TDisplayable, a); (TScannable, b)]
  | DisplayableFingerprint a b c => [(TRaw, a); (TRaw, b); (TRaw, c)]
  | ScannableFingerprint a b c d => [(TRaw, a); (TRaw, c); (TRaw, b); (TRaw, d)]
  | ConsistencySignature a b => [(TRaw, a); (TRaw, b)]
  | ConsistencyCommitment a => [(TRaw, a)]
  | ConsistencyMessage a b => [(TSignature, a); (TRaw, b)]
  end.

(** The flags of a session state cover the pointers they guard, and the nodes
    of a sender key state hold a key, which their readers assert. *)
Definition flags_ok (o : object) : Prop :=
  match o with
  | SessionState s =>
      (sf_has_pending_key_exchange s = false →
       sf_local_base_key s = Null ∧ sf_local_ratchet_key s = Null ∧
       sf_local_identity_key s = Null) ∧
      (sf_has_pending_pre_key s = false → sf_pending_base_key s = Null)
  | SenderKeyState _ _ _ l => Forall (λ '(_, p), p ≠ Null) l
  | _ => True
  end.

(** * Handles and counting *)

(** A handle is a typed reference. *)
Abbreviation handle := (ty * loc)%type.

Definition ptr_handles (t : ty) (p : ptr) : list handle :=
  match p with Loc l => [(t, l)] | _ => [] end.

Definition handles (fs : list (ty * ptr)) : list handle :=
  fs ≫= λ '(t, p), ptr_handles t p.

Fixpoint occ (k : loc) (H : list handle) : Z :=
  match H with
  | [] => 0
  | (_, l) :: H => (if decide (l = k) then 1 else 0) + occ k H
  end.

Definition cell_handles (c : cell) : list handle :=
  match c with Raw => [] | Obj _ o => handles (owns o) end.

Definition incoming (h : heap) (k : loc) : Z :=
  foldr (λ '(_, c) n, occ k (cell_handles c) + n) 0 (map_to_list h).

Definition cell_count (c : cell) : Z := match c with Raw => 1 | Obj n _ => n end.

Definition count (h : heap) (k : loc) : Z := from_option cell_count 0 (h !! k).

Definition cell_ty (c : cell) : ty := match c with Raw => TRaw | Obj _ o => ty_of o end.

Definition type_at (h : heap) (k : loc) : option ty := cell_ty <$> h !! k.

Definition ptr_ok (h : heap) (t : ty) (p : ptr) : Prop :=
  match p with Null => True | Wild => False | Loc l => type_at h l = Some t end.

Definition obj_ok (h : heap) (o : object) : Prop :=
  Forall (λ '(t, p), ptr_ok h t p) (owns o) ∧ flags_ok o.

Record inv (b : Z) (H D : list handle) (h : heap) : Prop := Inv {
  inv_bound : 1 <= b < 2 ^ 32;
  inv_count k : occ k H + incoming h k = count h k + occ k D;
  inv_obj l n o : h !! l = Some (Obj n o) → obj_ok h o ∧ 1 <= n <= b;
  inv_handle t l : (t, l) ∈ H → type_at h l = Some t }.

(** ** Counting lemmas *)

Lemma occ_app k H1 H2 : occ k (H1 ++ H2) = occ k H1 + occ k H2.
Proof. induction H1 as [|[t l] H1 IH]; cbn; [done|]. rewrite IH. lia. Qed.

Lemma occ_nonneg k H : 0 <= occ k H.
Proof. induction H as [|[t l] H IH]; cbn; [done|]. case_decide; lia. Qed.

Lemma occ_elem k H : 0 < occ k H ↔ ∃ t, (t, k) ∈ H.
Proof.
  induction H as [|[t l] H IH]; cbn.
  - split; [lia|]. intros [? E]. by apply not_elem_of_nil in E.
  - pose proof (occ_nonneg k H). case_decide as E.
    + subst. split; [intros; exists t; left|lia].
    + rewrite Z.add_0_l, IH. split; intros [t' E']; exists t'; [by right|].
      apply elem_of_cons in E' as [E'|E']; [congruence|done].
Qed.

Lemma foldr_incoming_perm k (l1 l2 : list (loc * cell)) : l1 ≡ₚ l2 →
  foldr (λ '(_, c) n, occ k (cell_handles c) + n) 0 l1 =
  foldr (λ '(_, c) n, occ k (cell_handles c) + n) 0 l2.
Proof.
  induction 1 as [|[? ?] ? ? ? IH|[? ?] [? ?] ?|? ? ? ? IH1 ? IH2]; cbn; [done| | |].
  - by rewrite IH.
  - lia.
  - by rewrite IH1.
Qed.

Lemma incoming_insert_new h l c k : h !! l = None →
  incoming (<[l := c]> h) k = occ k (cell_handles c) + incoming h k.
Proof.
  intros E. unfold incoming.
  by rewrite (foldr_incoming_perm k _ _ (map_to_list_insert h l c E)).
Qed.

Lemma incoming_delete h l c k : h !! l = Some c →
  incoming h k = occ k (cell_handles c) + incoming (delete l h) k.
Proof.
  intros E. rewrite <- (insert_delete_id h l c E) at 1.
  apply incoming_insert_new. apply lookup_delete_eq.
Qed.

Lemma incoming_update h l c c' k : h !! l = Some c →
  incoming (<[l := c']> h) k + occ k (cell_handles c) =
  incoming h k + occ k (cell_handles c').
Proof.
  intros E. rewrite (incoming_delete h l c k E).
  rewrite (incoming_delete (<[l := c']> h) l c' k) by apply lookup_insert_eq.
  rewrite delete_insert_eq. lia.
Qed.

Lemma incoming_nonneg h k : 0 <= incoming h k.
Proof.
  unfold incoming. induction (map_to_list h) as [|[? c] l IH]; cbn; [done|].
  pose proof (occ_nonneg k (cell_handles c)). lia.
Qed.

Lemma incoming_source h k : 0 < incoming h k →
  ∃ l n o t, h !! l = Some (Obj n o) ∧ (t, k) ∈ handles (owns o).
Proof.
  unfold incoming. intros E.
  assert (∃ l c, (l, c) ∈ map_to_list h ∧ 0 < occ k (cell_handles c)) as (l & c & Hin & Ho).
  { revert E. generalize (map_to_list h) as L. induction L as [|[l c] L IH]; cbn; [lia|].
    intros E. destruct (decide (0 < occ k (cell_handles c))).
    - exists l, c. split; [left|done].
    - destruct IH as (l' & c' & ? & ?); [lia|]. exists l', c'. split; [by right|done]. }
  apply elem_of_map_to_list in Hin. destruct c as [|n o]; cbn in Ho; [lia|].
  apply occ_elem in Ho as [t ?]. eauto 10.
Qed.

Lemma handles_cons t p fs : handles ((t, p) :: fs) = ptr_handles t p ++ handles fs.
Proof. done. Qed.

Lemma handles_app fs1 fs2 : handles (fs1 ++ fs2) = handles fs1 ++ handles fs2.
Proof. unfold handles. by rewrite bind_app. Qed.

Lemma elem_of_handles t l fs : (t, l) ∈ handles fs ↔ (t, Loc l) ∈ fs.
Proof.
  unfold handles. rewrite list_elem_of_bind. split.
  - intros ([t' p] & Hin & Hp). destruct p; cbn in Hin; try by apply not_elem_of_nil in Hin.
    apply list_elem_of_singleton in Hin. by simplify_eq.
  - intros. exists (t, Loc l). split; [by left|done].
Qed.

(** * The heap operations and the invariant *)

Lemma type_at_insert h l c k : type_at h l = Some (cell_ty c) →
  type_at (<[l := c]> h) k = type_at h k.
Proof.
  intros E. unfold type_at in *. destruct (decide (l = k)) as [->|Hn].
  - by rewrite lookup_insert_eq, E.
  - by rewrite lookup_insert_ne.
Qed.

Lemma ptr_ok_mono h h' t p :
  (∀ k u, type_at h k = Some u → type_at h' k = Some u) → ptr_ok h t p → ptr_ok h' t p.
Proof. destruct p; cbn; auto. Qed.

Lemma obj_ok_mono h h' o :
  (∀ k u, type_at h k = Some u → type_at h' k = Some u) → obj_ok h o → obj_ok h' o.
Proof.
  intros E [Ho Hf]. split; [|done]. eapply Forall_impl; [exact Ho|].
  intros [t p]. by apply ptr_ok_mono.
Qed.

Lemma type_at_fresh h l c k u : h !! l = None →
  type_at h k = Some u → type_at (<[l := c]> h) k = Some u.
Proof.
  unfold type_at. intros E Ek. rewrite lookup_insert_ne; [done|].
  intros ->. by rewrite E in Ek.
Qed.

Lemma handle_obj b H D h t l : inv b H D h → (t, l) ∈ H → t ≠ TRaw →
  ∃ n o, h !! l = Some (Obj n o) ∧ ty_of o = t ∧ 1 <= n <= b.
Proof.
  intros I Hin Ht. pose proof (inv_handle _ _ _ _ I _ _ Hin) as E.
  unfold type_at in E. destruct (h !! l) as [[|n o]|] eqn:El; cbn in E; simplify_eq.
  exists n, o. pose proof (inv_obj _ _ _ _ I _ _ _ El) as [_ ?]. done.
Qed.

Lemma handle_raw b H D h l : inv b H D h → (TRaw, l) ∈ H → h !! l = Some Raw.
Proof.
  intros I Hin. pose proof (inv_handle _ _ _ _ I _ _ Hin) as E.
  unfold type_at in E. destruct (h !! l) as [[|n o]|] eqn:El; cbn in E; simplify_eq; [done|].
  by destruct o.
Qed.

(** The invariant does not depend on the order of handles and debts. *)
Lemma inv_equiv b H D H' D' h : inv b H D h →
  (∀ k, occ k H' + occ k D = occ k H + occ k D') → (∀ x, x ∈ H' → x ∈ H) →
  inv b H' D' h.
Proof.
  intros [B C O T] E Hsub. split; [done| |done|].
  - intros k. specialize (C k). specialize (E k). lia.
  - intros t l ?. by apply T, Hsub.
Qed.

Lemma inv_perm b H H' D h : H ≡ₚ H' → inv b H D h → inv b H' D h.
Proof.
  intros P I. apply (inv_equiv _ _ _ _ _ _ I); [|intros x; by rewrite P].
  intros k. enough (occ k H = occ k H') by lia. clear I.
  induction P as [|[? ?] ? ? ? IH|[? ?] [? ?] ?|? ? ? ? IH1 ? IH2]; cbn; lia.
Qed.

Lemma inv_weaken b b' H D h : b <= b' < 2 ^ 32 → inv b H D h → inv b' H D h.
Proof.
  intros ? [B C O T]. split; [lia|done| |done].
  intros l n o E. apply O in E as [? ?]. split; [done|lia].
Qed.

(** A new object holds references that are still to be counted. *)
Lemma inv_new b H D h l o : inv b H D h → h !! l = None → obj_ok h o →
  inv b ((ty_of o, l) :: H) (handles (owns o) ++ D) (<[l := Obj 1 o]> h).
Proof.
  intros [B C O T] El Ho. split; [done|..].
  - intros k. specialize (C k). rewrite incoming_insert_new, occ_app by done.
    unfold count in *. cbn [occ cell_handles]. case_decide as E.
    + subst. rewrite lookup_insert_eq. rewrite El in C. cbn in *. lia.
    + rewrite lookup_insert_ne by done. lia.
  - intros l' n o'. rewrite lookup_insert_Some. intros [[<- [= <- <-]]|[? E]].
    + split; [|lia]. by eapply obj_ok_mono; [intros; by apply type_at_fresh|].
    + apply O in E as [? ?]. split; [|done].
      by eapply obj_ok_mono; [intros; by apply type_at_fresh|].
  - intros t l'. rewrite elem_of_cons. intros [[= -> ->]|Hin].
    + unfold type_at. by rewrite lookup_insert_eq.
    + apply type_at_fresh; auto.
Qed.

Lemma inv_new_raw b H D h l : inv b H D h → h !! l = None →
  inv b ((TRaw, l) :: H) D (<[l := Raw]> h).
Proof.
  intros [B C O T] El. split; [done|..].
  - intros k. specialize (C k). rewrite incoming_insert_new by done.
    unfold count in *. cbn [occ cell_handles]. case_decide as E.
    + subst. rewrite lookup_insert_eq. rewrite El in C. cbn in *. lia.
    + rewrite lookup_insert_ne by done. lia.
  - intros l' n o'. rewrite lookup_insert_Some. intros [[? ?]|[? E]]; [done|].
    apply O in E as [? ?]. split; [|done].
    by eapply obj_ok_mono; [intros; by apply type_at_fresh|].
  - intros t l'. rewrite elem_of_cons. intros [[= -> ->]|Hin].
    + unfold type_at. by rewrite lookup_insert_eq.
    + apply type_at_fresh; auto.
Qed.

(** A count and the payload of an object change together. *)
Lemma inv_update b b' H D H' D' h l n o n' o' :
  inv b H D h → h !! l = Some (Obj n o) → ty_of o' = ty_of o → obj_ok h o' →
  b <= b' < 2 ^ 32 → 1 <= n' <= b' →
  (∀ k, occ k H' + occ k (handles (owns o')) + occ k D + (if decide (l = k) then n else 0) =
        occ k H + occ k (handles (owns o)) + occ k D' + (if decide (l = k) then n' else 0)) →
  (∀ t k, (t, k) ∈ H' → type_at h k = Some t) →
  inv b' H' D' (<[l := Obj n' o']> h).
Proof.
  intros [B C O T] El Ht Ho Hb Hn Hbal HT.
  assert (type_at h l = Some (cell_ty (Obj n' o'))) as Hty
    by (unfold type_at; rewrite El; cbn; congruence).
  split; [lia|..].
  - intros k. specialize (C k). specialize (Hbal k).
    pose proof (incoming_update h l _ (Obj n' o') k El) as U. cbn [cell_handles] in U.
    unfold count in *. destruct (decide (l = k)) as [->|].
    + rewrite lookup_insert_eq. rewrite El in C. cbn in *. lia.
    + rewrite lookup_insert_ne by done. lia.
  - intros l' m x. rewrite lookup_insert_Some. intros [[<- [= <- <-]]|[? E]].
    + split; [|lia]. eapply obj_ok_mono; [|done]. intros. by rewrite type_at_insert.
    + apply O in E as [? ?]. split; [|lia].
      eapply obj_ok_mono; [|done]. intros. by rewrite type_at_insert.
  - intros t k Hin. rewrite type_at_insert; auto.
Qed.

(** A count of one and a handle: nothing else points to the cell. *)
Lemma sole_holder b H D h t l c :
  inv b ((t, l) :: H) D h → h !! l = Some c → cell_count c = 1 → occ l D = 0 →
  occ l H = 0 ∧ incoming h l = 0.
Proof.
  intros I El Hc Hd. pose proof (inv_count _ _ _ _ I l) as C. unfold count in C.
  rewrite El in C. cbn in C. rewrite decide_True in C by done.
  pose proof (occ_nonneg l H). pose proof (incoming_nonneg h l). lia.
Qed.

Lemma not_incoming h l k n o u :
  incoming h l = 0 → h !! k = Some (Obj n o) → (u, Loc l) ∉ owns o.
Proof.
  intros Hin E Hm. rewrite (incoming_delete h k _ l E) in Hin.
  pose proof (incoming_nonneg (delete k h) l).
  enough (0 < occ l (cell_handles (Obj n o))) by lia.
  apply occ_elem. exists u. by apply elem_of_handles.
Qed.

Lemma not_handle l t (H : list handle) : occ l H = 0 → (t, l) ∉ H.
Proof. intros E Hm. enough (0 < occ l H) by lia. apply occ_elem. eauto. Qed.

(** Releasing a cell that only one handle holds. *)
Lemma inv_delete b H D h l t c :
  inv b ((t, l) :: H) (cell_handles c ++ D) h → h !! l = Some c → cell_count c = 1 →
  occ l (cell_handles c ++ D) = 0 → inv b H D (delete l h).
Proof.
  intros I El Hc Hd. destruct (sole_holder _ _ _ _ _ _ _ I El Hc Hd) as [HH Hin].
  destruct I as [B C O T].
  assert (∀ k u, k ≠ l → type_at h k = Some u → type_at (delete l h) k = Some u) as Hty
    by (intros k u ? E; unfold type_at in *; by rewrite lookup_delete_ne).
  split; [done|..].
  - intros k. specialize (C k). rewrite (incoming_delete h l c k El), occ_app in C.
    unfold count in *. cbn [occ] in C. destruct (decide (l = k)) as [->|].
    + rewrite lookup_delete_eq. rewrite El in C. cbn in *. lia.
    + rewrite lookup_delete_ne by done. lia.
  - intros l' n o. rewrite lookup_delete_Some. intros [Hne E].
    pose proof (O _ _ _ E) as [[Hf Hfl] ?]. split; [|done]. split; [|done].
    rewrite Forall_forall in Hf |- *. intros [u p] Hm. pose proof (Hf _ Hm) as Hp.
    destruct p as [|k|]; cbn in *; [done| |done].
    apply Hty; [|done]. intros ->. by eapply not_incoming.
  - intros u k Hk. apply Hty; [|apply T; by right]. intros ->. by eapply not_handle.
Qed.

(** * What a destroy function releases *)

(** [releases acts H]: the actions give up exactly the references [H], objects
    with [SIGNAL_UNREF] and plain memory with [free]. *)
Inductive releases : list action → list handle → Prop :=
| releases_nil : releases [] []
| releases_unref_null acts H : releases acts H → releases (Unref Null :: acts) H
| releases_free_null acts H : releases acts H → releases (Free Null :: acts) H
| releases_unref_cons t l acts H :
    t ≠ TRaw → releases acts H → releases (Unref (Loc l) :: acts) ((t, l) :: H)
| releases_free_cons l acts H :
    releases acts H → releases (Free (Loc l) :: acts) ((TRaw, l) :: H).

Lemma releases_unref t p acts H : t ≠ TRaw → p ≠ Wild →
  releases acts H → releases (Unref p :: acts) (ptr_handles t p ++ H).
Proof. destruct p; [by constructor|by constructor|done]. Qed.

Lemma releases_free p acts H : p ≠ Wild →
  releases acts H → releases (Free p :: acts) (ptr_handles TRaw p ++ H).
Proof. destruct p; [by constructor|by constructor|done]. Qed.

Lemma releases_app a1 a2 H1 H2 :
  releases a1 H1 → releases a2 H2 → releases (a1 ++ a2) (H1 ++ H2).
Proof. induction 1; cbn; intros; [done|constructor; auto..]. Qed.

Definition set_ptrs (fs : list (ty * ptr)) : Prop := Forall (λ '(_, p), p ≠ Wild) fs.

Lemma releases_bind {A} (f : A → list action) (g : A → list (ty * ptr)) xs :
  (∀ x, set_ptrs (g x) → releases (f x) (handles (g x))) →
  set_ptrs (xs ≫= g) → releases (xs ≫= f) (handles (xs ≫= g)).
Proof.
  intros Hx. induction xs as [|x xs IH]; [constructor|]. cbn.
  unfold set_ptrs. rewrite Forall_app. intros [? ?]. rewrite handles_app.
  apply releases_app; auto.
Qed.

(** Straight-line bodies. *)
Ltac releases_line :=
  unfold set_ptrs in *;
  repeat match goal with
  | H : Forall _ (_ :: _) |- _ => apply Forall_cons in H as [? H]
  end;
  cbn [app]; rewrite ?handles_cons;
  repeat first [apply releases_unref; [done|done|] | apply releases_free; [done|]];
  try apply releases_nil.

Lemma releases_nodes t nodes : t ≠ TRaw → set_ptrs (node_fields t nodes) →
  releases (free_nodes nodes) (handles (node_fields t nodes)).
Proof.
  intros Ht. apply releases_bind. intros [node p] Hs. releases_line.
Qed.

Lemma releases_message_keys keys :
  releases (free_message_keys keys) (handles ((λ '(k, _), (TRaw, Loc k)) <$> keys)).
Proof. induction keys as [|[k c] keys IH]; cbn; by constructor. Qed.

Lemma releases_receiver_node node : set_ptrs (receiver_node_fields node) →
  releases (session_state_free_receiver_chain_node node) (handles (receiver_node_fields node)).
Proof.
  intros Hs. unfold receiver_node_fields, session_state_free_receiver_chain_node in *.
  apply Forall_app in Hs as [Hs _]. rewrite !handles_app.
  apply releases_app; [releases_line|]. apply releases_app; [apply releases_message_keys|].
  repeat constructor.
Qed.

(** The pointers a flag guards, when the flag is clear, are null. *)
Lemma session_state_releases s self : set_ptrs (state_owns s) → flags_ok (SessionState s) →
  ∃ acts, session_state_destroy self s = acts ++ [Free (Loc self)] ∧
    releases acts (handles (state_owns s)).
Proof.
  intros Hs [Hx Hp]. unfold session_state_destroy, state_owns in *.
  change [Unref (sf_alice_base_key s); Free (Loc self)]
    with ([Unref (sf_alice_base_key s)] ++ [Free (Loc self)]).
  rewrite !app_assoc. eexists. split; [done|]. rewrite <- !app_assoc.
  apply Forall_app in Hs as [H1 Hs]. apply Forall_app in Hs as [H2 H3].
  change (set_ptrs (sf_receiver_chain s ≫= receiver_node_fields)) in H2.
  rewrite !handles_app. rewrite app_assoc.
  apply releases_app; [unfold session_state_free_sender_chain; releases_line|].
  apply releases_app; [apply releases_bind; auto using releases_receiver_node|].
  destruct (sf_has_pending_key_exchange s), (sf_has_pending_pre_key s).
  - releases_line.
  - rewrite Hp in * by done. releases_line. cbn. releases_line.
  - destruct Hx as (-> & -> & ->); [done|]. releases_line. cbn. releases_line.
  - destruct Hx as (-> & -> & ->); [done|]. rewrite Hp in * by done.
    releases_line. cbn. releases_line.
Qed.

(** Every destroy function releases each owned reference once and then frees
    the object. *)
Lemma destroy_releases o self : set_ptrs (owns o) → flags_ok o →
  ∃ acts, destroy self o = acts ++ [Free (Loc self)] ∧ releases acts (handles (owns o)).
Proof.
  intros Hs Hf. destruct o;
    try (by apply session_state_releases);
    cbn [destroy owns] in *;
    try (exists []; split; [reflexivity|apply releases_nil]; fail);
    try (eexists; split;
         [first [exact (eq_refl : [_; _] = [_] ++ [_])
                |exact (eq_refl : [_; _; _] = [_; _] ++ [_])
                |exact (eq_refl : [_; _; _; _] = [_; _; _] ++ [_])
                |exact (eq_refl : [_; _; _; _; _] = [_; _; _; _] ++ [_])
                |exact (eq_refl : [_; _; _; _; _; _; _] = [_; _; _; _; _; _] ++ [_])]
         |releases_line]; fail).
  - unfold session_record_destroy, session_record_free_previous_states.
    rewrite app_assoc. eexists. split; [done|]. apply Forall_app in Hs as [H1 H2].
    rewrite handles_app. apply releases_app; [releases_line|by apply releases_nodes].
  - unfold sender_key_state_destroy. rewrite app_assoc. eexists. split; [done|].
    apply Forall_app in Hs as [H1 H2]. rewrite handles_app.
    apply releases_app; [releases_line|by apply releases_nodes].
  - eexists. split; [done|]. by apply releases_nodes.
Qed.

(** * [signal_type_unref] *)

(** Releasing never brings a cell back, never changes what an object holds and
    never raises a count. *)
Definition shrinks (h h' : heap) : Prop :=
  ∀ k c', h' !! k = Some c' →
    match c' with
    | Raw => h !! k = Some Raw
    | Obj n' o => ∃ n, h !! k = Some (Obj n o) ∧ n' <= n
    end.

Lemma shrinks_refl h : shrinks h h.
Proof. intros k [|n o] E; eauto with lia. Qed.

Lemma shrinks_trans h1 h2 h3 : shrinks h1 h2 → shrinks h2 h3 → shrinks h1 h3.
Proof.
  intros H1 H2 k c E. apply H2 in E. destruct c as [|n o].
  - by apply H1 in E.
  - destruct E as (m & E & ?). apply H1 in E as (m' & E & ?). exists m'. split; [done|lia].
Qed.

Lemma free_shrinks p h h' : free p h = Some h' → shrinks h h'.
Proof.
  destruct p as [|l|]; cbn; [|destruct (h !! l) eqn:E|]; intros; simplify_eq;
    [apply shrinks_refl|].
  intros k c'. rewrite lookup_delete_Some. intros [_ Ek]. by apply shrinks_refl.
Qed.

Lemma run_shrinks u acts : (∀ p h h', u p h = Some h' → shrinks h h') →
  ∀ h h', run_actions u acts h = Some h' → shrinks h h'.
Proof.
  intros Hu. induction acts as [|a acts IH]; cbn; intros h h' E.
  - simplify_eq. apply shrinks_refl.
  - destruct a as [p|p].
    + destruct (u p h) as [h1|] eqn:E1; [|done]. eapply shrinks_trans; eauto.
    + destruct (free p h) as [h1|] eqn:E1; [|done].
      eapply shrinks_trans; [by eapply free_shrinks|eauto].
Qed.

Lemma unref_shrinks depth p h h' : signal_type_unref_at depth p h = Some h' → shrinks h h'.
Proof.
  revert p h h'. induction depth as [|depth IH]; intros [|l|] h h'; cbn; intros E;
    simplify_eq; try apply shrinks_refl.
  destruct (h !! l) as [[|n o]|] eqn:El; [done| |done].
  repeat case_bool_decide; [|by eapply run_shrinks; [|exact E]; eauto|done].
  simplify_eq. intros k c. rewrite lookup_insert_Some. intros [[<- <-]|[_ Ek]].
  - exists n. split; [done|lia].
  - by apply shrinks_refl.
Qed.

Lemma run_app u a1 a2 h :
  run_actions u (a1 ++ a2) h =
  match run_actions u a1 h with Some h' => run_actions u a2 h' | None => None end.
Proof.
  revert h. induction a1 as [|[p|p] a1 IH]; intros h; cbn; [done|..].
  - destruct (u p h); [apply IH|done].
  - destruct (free p h); [apply IH|done].
Qed.

(** ** The object being destroyed

    [swap l o h] is [h] with another payload in the object at [l].  A release
    that leaves [l] alive does not look at its payload. *)
Definition swap (l : loc) (o : object) (h : heap) : heap :=
  match h !! l with Some (Obj n _) => <[l := Obj n o]> h | _ => h end.

Definition alive (l : loc) (h : heap) : Prop := ∃ n o, h !! l = Some (Obj n o).

Lemma shrinks_alive l h h' : shrinks h h' → alive l h' → alive l h.
Proof. intros S (n & o & E). apply S in E as (m & E & _). by exists m, o. Qed.

Lemma lookup_swap_ne l o h k : k ≠ l → swap l o h !! k = h !! k.
Proof.
  intros. unfold swap. destruct (h !! l) as [[|n x]|]; [done| |done].
  by rewrite lookup_insert_ne.
Qed.

Lemma swap_insert_ne l o h k c : k ≠ l → swap l o (<[k := c]> h) = <[k := c]> (swap l o h).
Proof.
  intros. unfold swap. rewrite lookup_insert_ne by done.
  destruct (h !! l) as [[|n x]|]; [done| |done]. by rewrite insert_insert_ne.
Qed.

Lemma swap_delete_ne l o h k : k ≠ l → swap l o (delete k h) = delete k (swap l o h).
Proof.
  intros. unfold swap. rewrite lookup_delete_ne by done.
  destruct (h !! l) as [[|n x]|]; [done| |done]. by rewrite delete_insert_ne.
Qed.

Lemma free_frame p h h' l o : free p h = Some h' → alive l h' →
  free p (swap l o h) = Some (swap l o h').
Proof.
  destruct p as [|k|]; cbn; [congruence| |done].
  destruct (h !! k) eqn:E; [|done]. intros [= <-] (n & x & El).
  apply lookup_delete_Some in El as [? El].
  rewrite lookup_swap_ne, E by done. by rewrite swap_delete_ne.
Qed.

Lemma run_frame u acts l o :
  (∀ p h h', u p h = Some h' → shrinks h h') →
  (∀ p h h', u p h = Some h' → alive l h' → u p (swap l o h) = Some (swap l o h')) →
  ∀ h h', run_actions u acts h = Some h' → alive l h' →
    run_actions u acts (swap l o h) = Some (swap l o h').
Proof.
  intros Hs Hu. induction acts as [|a acts IH]; cbn; intros h h' E Hl; [congruence|].
  destruct a as [p|p].
  - destruct (u p h) as [h1|] eqn:E1; [|done].
    pose proof (run_shrinks _ _ Hs _ _ E) as S.
    rewrite (Hu _ _ _ E1) by eauto using shrinks_alive. auto.
  - destruct (free p h) as [h1|] eqn:E1; [|done].
    pose proof (run_shrinks _ _ Hs _ _ E) as S.
    rewrite (free_frame _ _ _ l o E1) by eauto using shrinks_alive. auto.
Qed.

Lemma destroy_last o self : ∃ acts, destroy self o = acts ++ [Free (Loc self)].
Proof.
  destruct o; cbn [destroy]; try (by exists []);
    try (unfold session_record_destroy, sender_key_state_destroy;
         rewrite !app_assoc; by eexists);
    try (unfold session_state_destroy;
         change [Unref (sf_alice_base_key s); Free (Loc self)]
           with ([Unref (sf_alice_base_key s)] ++ [Free (Loc self)]);
         rewrite !app_assoc; by eexists);
    first [by eexists [_]|by eexists [_; _]|by eexists [_; _; _]|by eexists [_; _; _; _]
          |by eexists [_; _; _; _; _; _]|by eexists].
Qed.

Lemma destroyed_dead u l o h h' :
  run_actions u (destroy l o) h = Some h' → ¬ alive l h'.
Proof.
  destruct (destroy_last o l) as [acts ->]. rewrite run_app.
  destruct (run_actions u acts h) as [h1|]; [|done]. cbn.
  destruct (h1 !! l); [|done]. intros [= <-] (n & x & E). by rewrite lookup_delete_eq in E.
Qed.

Lemma unref_frame depth p h h' l o :
  signal_type_unref_at depth p h = Some h' → alive l h' →
  signal_type_unref_at depth p (swap l o h) = Some (swap l o h').
Proof.
  revert p h h'. induction depth as [|depth IH]; intros [|k|] h h'; cbn; intros E Hl;
    simplify_eq; try done.
  destruct (h !! k) as [[|n x]|] eqn:Ek; [done| |done].
  destruct (decide (k = l)) as [->|Hne].
  - unfold swap at 1. rewrite Ek, lookup_insert_eq.
    repeat case_bool_decide; [|by destruct (destroyed_dead _ _ _ _ _ E)|done].
    simplify_eq. unfold swap. rewrite Ek, lookup_insert_eq. by rewrite !insert_insert_eq.
  - rewrite lookup_swap_ne, Ek by done.
    repeat case_bool_decide; [|by apply run_frame; eauto using unref_shrinks|done].
    simplify_eq. by rewrite swap_insert_ne.
Qed.

(** ** Ranks *)

Lemma owns_rank o t p : (t, p) ∈ owns o → (rank t < rank (ty_of o))%nat.
Proof.
  assert (∀ u nodes, (t, p) ∈ node_fields u nodes → t = u ∨ t = TRaw) as Hn.
  { intros u nodes. unfold node_fields. rewrite list_elem_of_bind.
    intros ([node q] & Hin & _). rewrite !elem_of_cons in Hin.
    destruct Hin as [?|[?|Hin]]; [by simplify_eq; auto..|by apply not_elem_of_nil in Hin]. }
  destruct o; cbn [owns]; unfold state_owns;
    rewrite ?elem_of_app, ?elem_of_cons; intros Hin;
    repeat match goal with
    | H : _ ∨ _ |- _ => destruct H
    | H : (_, _) = (_, _) |- _ => simplify_eq
    | H : _ ∈ [] |- _ => by apply not_elem_of_nil in H
    | H : _ ∈ _ :: _ |- _ => apply elem_of_cons in H
    | H : _ ∈ node_fields _ _ |- _ => apply Hn in H as [-> | ->]
    end; cbn; try lia.
  match goal with H : _ ∈ _ ≫= _ |- _ => apply list_elem_of_bind in H as (node & Hin & _) end.
  unfold receiver_node_fields in Hin.
  rewrite !elem_of_app, !elem_of_cons, list_elem_of_fmap in Hin.
  destruct Hin as [[Hin|[Hin|Hin]]|[([k c] & Hin & _)|[Hin|Hin]]]; simplify_eq; cbn;
    try lia; by apply not_elem_of_nil in Hin.
Qed.

Lemma obj_ok_set h o : obj_ok h o → set_ptrs (owns o).
Proof.
  intros [Ho _]. eapply Forall_impl; [exact Ho|]. by intros [t [| |]].
Qed.

Lemma inv_free_raw b H h l : inv b ((TRaw, l) :: H) [] h →
  ∃ h', free (Loc l) h = Some h' ∧ inv b H [] h'.
Proof.
  intros I. assert (h !! l = Some Raw) as El by (eapply handle_raw; [done|left]).
  exists (delete l h). cbn. rewrite El. split; [done|].
  by eapply (inv_delete b H [] h l TRaw Raw).
Qed.

(** The body of a destroy function, given that nested releases keep the
    invariant. *)
Lemma run_inv u depth b acts R :
  (∀ H t l h, inv b ((t, l) :: H) [] h → t ≠ TRaw → (rank t < depth)%nat →
     ∃ h', u (Loc l) h = Some h' ∧ inv b H [] h') →
  (∀ h, u Null h = Some h) →
  releases acts R → (∀ t l, (t, l) ∈ R → (rank t < depth)%nat) →
  ∀ H h, inv b (R ++ H) [] h → ∃ h', run_actions u acts h = Some h' ∧ inv b H [] h'.
Proof.
  intros Hu Hnull. induction 1 as [|acts R _ IH|acts R _ IH|t l acts R Ht _ IH|l acts R _ IH];
    intros Hr H h I; cbn.
  - by exists h.
  - rewrite Hnull. auto.
  - auto.
  - destruct (Hu (R ++ H) t l h I Ht) as (h1 & -> & I1); [eapply Hr; left|].
    apply IH; [|done]. intros. eapply Hr. by right.
  - destruct (inv_free_raw b (R ++ H) h l I) as (h1 & E & I1). cbn in E. rewrite E.
    apply IH; [|done]. intros. eapply Hr. by right.
Qed.

(** The last reference: the object's own references become handles. *)
Lemma inv_gut b H t l h o : inv b ((t, l) :: H) [] h → h !! l = Some (Obj 1 o) →
  inv b (handles (owns o) ++ (TPrivateKey, l) :: H) [] (<[l := Obj 1 EcPrivateKey]> h).
Proof.
  intros I El. destruct (sole_holder _ _ _ _ _ _ _ I El eq_refl eq_refl) as [HH Hin].
  destruct I as [B C O T].
  assert (∀ k u, k ≠ l → type_at h k = Some u →
    type_at (<[l := Obj 1 EcPrivateKey]> h) k = Some u) as Hty
    by (intros k u ? E; unfold type_at in *; by rewrite lookup_insert_ne).
  split; [done|..].
  - intros k. specialize (C k). pose proof (incoming_update h l _ (Obj 1 EcPrivateKey) k El) as U.
    cbn [cell_handles owns handles] in U. cbn in U. rewrite occ_app. cbn [occ] in *.
    unfold count in *. destruct (decide (l = k)) as [->|].
    + rewrite lookup_insert_eq. rewrite El in C. cbn in *. lia.
    + rewrite lookup_insert_ne by done. lia.
  - intros l' n x. rewrite lookup_insert_Some. intros [[<- [= <- <-]]|[? E]].
    + split; [|lia]. split; [constructor|done].
    + pose proof (O _ _ _ E) as [[Hf Hfl] ?]. split; [|done]. split; [|done].
      rewrite Forall_forall in Hf |- *. intros [u p] Hm. pose proof (Hf _ Hm) as Hp.
      destruct p as [|k|]; cbn in *; [done| |done].
      apply Hty; [|done]. intros ->. by eapply not_incoming.
  - intros u k Hm. apply elem_of_app in Hm as [Hm|Hm].
    + apply elem_of_handles in Hm. pose proof (O _ _ _ El) as [[Hf _] _].
      rewrite Forall_forall in Hf. pose proof (Hf _ Hm) as Hp. cbn in Hp.
      apply Hty; [|done]. intros ->. by eapply not_incoming.
    + apply elem_of_cons in Hm as [[= -> ->]|Hm].
      * unfold type_at. by rewrite lookup_insert_eq.
      * apply Hty; [|apply T; by right]. intros ->. by eapply not_handle.
Qed.

Lemma swap_swap l o n x h : h !! l = Some (Obj n x) → swap l x (<[l := Obj n o]> h) = h.
Proof.
  intros E. unfold swap. rewrite lookup_insert_eq, insert_insert_eq. by apply insert_id.
Qed.

(** Giving up a handle succeeds and leaves the invariant for the others. *)
Lemma unref_inv depth b H t l h : inv b ((t, l) :: H) [] h → t ≠ TRaw → (rank t < depth)%nat →
  ∃ h', signal_type_unref_at depth (Loc l) h = Some h' ∧ inv b H [] h'.
Proof.
  revert H t l h. induction depth as [|depth IH]; [lia|]. intros H t l h I Ht Hr.
  destruct (handle_obj _ _ _ _ t l I) as (n & o & El & Ho & Hn); [left|done|].
  pose proof (inv_obj _ _ _ _ I _ _ _ El) as [Hok _].
  cbn. rewrite El, bool_decide_true by lia. case_bool_decide as Hn1.
  - eexists. split; [done|]. pose proof (inv_bound _ _ _ _ I).
    eapply inv_update; [exact I|exact El|done|done|lia|lia| |].
    + intros k. cbn. repeat case_decide; simplify_eq; lia.
    + intros u k Hk. eapply inv_handle; [done|by right].
  - assert (n = 1) as -> by lia.
    destruct (destroy_releases o l (obj_ok_set _ _ Hok) (proj2 Hok)) as (acts & -> & R).
    pose proof (inv_gut _ _ _ _ _ _ I El) as I0.
    destruct (run_inv (signal_type_unref_at depth) depth b acts _ IH
      (ltac:(by destruct depth)) R) with (2 := I0) as (h0 & E0 & I1).
    { intros u k Hm. apply elem_of_handles, owns_rank in Hm. rewrite Ho in Hm. lia. }
    pose proof (run_shrinks _ _ (unref_shrinks depth) _ _ E0) as S.
    destruct (handle_obj _ _ _ _ TPrivateKey l I1) as (m & x & E & Hx & Hm); [left|done|].
    pose proof (S _ _ E) as (m' & E' & ?). rewrite lookup_insert_eq in E'. simplify_eq.
    assert (m = 1) as -> by lia.
    eapply (run_frame _ _ l o) in E0;
      [|apply unref_shrinks|eauto using unref_frame|by exists 1, EcPrivateKey].
    rewrite (swap_swap l EcPrivateKey 1 o h El) in E0. rewrite run_app, E0. cbn.
    exists (delete l h0). unfold swap. rewrite E, lookup_insert_eq, delete_insert_eq.
    split; [done|]. by eapply (inv_delete b H [] h0 l _ (Obj 1 EcPrivateKey)).
Qed.

(** * Exactly the unreachable cells are freed *)

Definition owned (H : list handle) (h : heap) : Prop := ∃ b, inv b H [] h.

(** A cell is reachable from the handles through the owning fields. *)
Inductive reachable (h : heap) (H : list handle) : loc → Prop :=
| reach_handle t l : (t, l) ∈ H → reachable h H l
| reach_field l n o t k :
    reachable h H l → h !! l = Some (Obj n o) → (t, Loc k) ∈ owns o → reachable h H k.

Lemma rank_top t : (rank t <= 3)%nat.
Proof. destruct t; cbn; lia. Qed.

Lemma owned_reachable H h k : owned H h → is_Some (h !! k) → reachable h H k.
Proof.
  intros [b I]. revert k.
  assert (∀ m k t, (3 - rank t < m)%nat → type_at h k = Some t → reachable h H k) as Hall.
  { induction m as [|m IH]; intros k t Hm Ht; [lia|].
    pose proof (inv_count _ _ _ _ I k) as C. cbn in C. unfold type_at in Ht. unfold count in C.
    destruct (h !! k) as [c|] eqn:Ek; [|done]. cbn in *. simplify_eq.
    assert (1 <= cell_count c) as Hc.
    { destruct c as [|n o]; cbn; [lia|]. apply (inv_obj _ _ _ _ I) in Ek as [_ ?]. lia. }
    pose proof (incoming_nonneg h k). destruct (decide (0 < occ k H)) as [Ho|Ho].
    - apply occ_elem in Ho as [t ?]. by econstructor.
    - destruct (incoming_source h k) as (l & n & o & t & El & Hin); [lia|].
      apply elem_of_handles in Hin. pose proof (owns_rank _ _ _ Hin) as Hr.
      pose proof (inv_obj _ _ _ _ I _ _ _ El) as [[Hf _] _]. rewrite Forall_forall in Hf.
      pose proof (Hf _ Hin) as Hp. cbn in Hp. unfold type_at in Hp. rewrite Ek in Hp.
      cbn in Hp. injection Hp as Hp. rewrite Hp in Hm. pose proof (rank_top (ty_of o)).
      apply (reach_field h H l n o t k); [|done|done].
      apply (IH l (ty_of o)); [lia|]. unfold type_at. by rewrite El. }
  intros k [c Ek]. apply (Hall (4 - rank (cell_ty c))%nat k (cell_ty c)).
  - pose proof (rank_top (cell_ty c)). lia.
  - unfold type_at. by rewrite Ek.
Qed.

Lemma reachable_live H h k : owned H h → reachable h H k → is_Some (h !! k).
Proof.
  assert (∀ j t, type_at h j = Some t → is_Some (h !! j)) as Hs
    by (intros j t; unfold type_at; by destruct (h !! j)).
  intros [b I] [t l Hin|l n o t k' _ El Hin].
  - eapply Hs. by eapply inv_handle.
  - pose proof (inv_obj _ _ _ _ I _ _ _ El) as [[Hf _] _]. rewrite Forall_forall in Hf.
    pose proof (Hf _ Hin) as Hp. exact (Hs _ _ Hp).
Qed.

Lemma reachable_shrinks H h h' k : owned H h' → shrinks h h' →
  reachable h H k ↔ reachable h' H k.
Proof.
  intros O S. split.
  - induction 1 as [t l Hin|l n o t k _ IH El Hin]; [by econstructor|].
    pose proof (reachable_live _ _ _ O IH) as [[|n' o'] E'];
      pose proof (S _ _ E') as Sk; cbn in Sk; [congruence|].
    destruct Sk as (m & Em & _). rewrite El in Em. simplify_eq. by econstructor.
  - induction 1 as [t l Hin|l n o t k _ IH El Hin]; [by econstructor|].
    apply S in El as (m & El & _). by econstructor.
Qed.

Lemma owned_live H h k : owned H h → is_Some (h !! k) ↔ reachable h H k.
Proof. intros O. split; eauto using owned_reachable, reachable_live. Qed.

(** Giving up everything that is held. *)
Definition drop_handle (x : handle) : action :=
  if decide (x.1 = TRaw) then Free (Loc x.2) else Unref (Loc x.2).

Lemma releases_drop H : releases (drop_handle <$> H) H.
Proof.
  induction H as [|[t l] H IH]; cbn; [constructor|].
  unfold drop_handle. cbn. case_decide; [subst|]; by constructor.
Qed.

Lemma owned_nil h : owned [] h → h = ∅.
Proof.
  assert (∀ k, ¬ reachable h [] k) as Hn
    by (intros k; induction 1 as [t l Hin|]; [by apply not_elem_of_nil in Hin|done]).
  intros O. apply map_empty. intros k. destruct (h !! k) eqn:E; [|done].
  destruct (Hn k). apply owned_reachable; [done|by rewrite E].
Qed.

(** ** The empty heap *)

Lemma empty_inv : inv 2 [] [] ∅.
Proof.
  split; [done| | |].
  - intros k. unfold incoming, count. by rewrite map_to_list_empty, lookup_empty.
  - intros l n o. by rewrite lookup_empty.
  - intros t l Hl. by apply not_elem_of_nil in Hl.
Qed.

(** A key pair whose public key nobody else holds. *)
Definition pair_heap : heap :=
  <[2%positive := Obj 1 (EcKeyPair (Loc 1) Null)]> (<[1%positive := Obj 1 (EcPublicKey [])]> ∅).

Lemma pair_heap_owned : owned [(TKeyPair, 2%positive)] pair_heap.
Proof.
  exists 2.
  pose proof (inv_new 2 [] [] ∅ 1 (EcPublicKey []) empty_inv eq_refl) as I1.
  assert (obj_ok ∅ (EcPublicKey [])) as O1 by (split; [constructor|done]).
  pose proof (inv_new 2 _ _ _ 2 (EcKeyPair (Loc 1) Null) (I1 O1) eq_refl) as I2.
  assert (obj_ok (<[1%positive := Obj 1 (EcPublicKey [])]> ∅) (EcKeyPair (Loc 1) Null)) as O2.
  { split; [|done]. repeat constructor. }
  eapply inv_equiv; [exact (I2 O2)| |].
  - intros k. cbn. repeat case_decide; lia.
  - intros x. rewrite !elem_of_cons. tauto.
Qed.

(** C21: giving up one handle of a well-counted heap never meets a freed or
    foreign cell, nests at most four destroy calls, and frees exactly the
    cells that the other handles do not reach; what is left keeps its
    contents and is well counted for the other handles. *)
Theorem signal_type_unref_exact H t l h :
  owned ((t, l) :: H) h → t ≠ TRaw →
  ∃ h', signal_type_unref_at unref_depth (Loc l) h = Some h' ∧ owned H h' ∧
    (∀ k, is_Some (h' !! k) ↔ reachable h H k) ∧ shrinks h h'.
Proof.
  intros [b I] Ht. pose proof (rank_top t).
  destruct (unref_inv unref_depth b H t l h I Ht) as (h' & E & I'); [unfold unref_depth; lia|].
  pose proof (unref_shrinks _ _ _ _ E) as S. assert (owned H h') as O by (by exists b).
  exists h'. split_and!; [done|done| |done].
  intros k. by rewrite (reachable_shrinks H h h' k O S), owned_live.
Qed.

Lemma signal_type_unref_exact_witness :
  ∃ h', signal_type_unref_at unref_depth (Loc 2) pair_heap = Some h' ∧
    (∀ k, is_Some (h' !! k) ↔ reachable pair_heap [] k).
Proof.
  destruct (signal_type_unref_exact [] TKeyPair 2 pair_heap pair_heap_owned) as (h' & E & _ & R & _);
    [discriminate|].
  exists h'. split; assumption.
Defined.

(** Dropping every handle, in any order, empties the heap. *)
Lemma drop_all H h : owned H h →
  run_actions (signal_type_unref_at unref_depth) (drop_handle <$> H) h = Some ∅.
Proof.
  intros [b I]. rewrite <- (app_nil_r H) in I.
  destruct (run_inv (signal_type_unref_at unref_depth) unref_depth b _ H
    (unref_inv unref_depth b) (λ _, eq_refl) (releases_drop H)) with (2 := I) as (h' & E & I').
  - intros t l _. pose proof (rank_top t). unfold unref_depth. lia.
  - rewrite E, (owned_nil h'); [done|]. by exists b.
Qed.
