(* ===== verification/RefOps.v ===== *)
(** The functions that create the reference-counted objects of RefCount.v, the
    setters that replace their fields and the functions that grow and trim
    their lists, as operations on the heap: curve.c, hkdf.c, ratchet.c,
    session_state.c, session_record.c, session_pre_key.c, sender_key.c,
    sender_key_state.c, sender_key_record.c, fingerprint.c and
    device_consistency.c.

    A constructor is an allocation with the values its fields get before
    anything can fail, then its [SIGNAL_REF]s and the steps that can fail.  A
    function whose out parameter is set even when it fails returns it with
    its code ([None] is 0). *)
From stdpp Require Import gmap.
From S2P Require Import Prelude RefCount.

(** * Keys *)

Definition DJB_TYPE : Z := 5.
Definition DJB_KEY_LEN : Z := 32.

Definition curve_decode_point (key_data : bytes) : M mem loc :=
  if bool_decide (zlen key_data > 0) && negb (bool_decide (head key_data = Some DJB_TYPE))
  then fail SG_ERR_INVALID_KEY
  else if bool_decide (zlen key_data = DJB_KEY_LEN + 1)
  then new_object (EcPublicKey (drop 1 key_data))
  else fail SG_ERR_INVALID_KEY.

Definition curve_decode_private_point (key_data : bytes) : M mem loc :=
  if bool_decide (zlen key_data = DJB_KEY_LEN) then new_object EcPrivateKey
  else fail SG_ERR_INVALID_KEY.

Definition ec_key_pair_create (public_key private_key : ptr) : M mem loc :=
  let* result := new_object (EcKeyPair public_key private_key) in
  let* _ := SIGNAL_REF public_key in
  let* _ := SIGNAL_REF private_key in
  ret result.

Definition ratchet_identity_key_pair_create (public_key private_key : ptr) : M mem loc :=
  let* result := new_object (RatchetIdentityKeyPair public_key private_key) in
  let* _ := SIGNAL_REF public_key in
  let* _ := SIGNAL_REF private_key in
  ret result.

(** On an unknown version the context is freed and [*context] keeps its
    address. *)
Definition hkdf_create (message_version : Z) : M mem (ptr * option Z) :=
  let* context := new_cell (Obj 1 HkdfContext) in
  match context with
  | None => ret (Null, Some SG_ERR_NOMEM)
  | Some l =>
      if bool_decide (message_version = 2) || bool_decide (message_version = 3)
      then ret (Loc l, None)
      else let* _ := mem_free (Loc l) in ret (Loc l, Some SG_ERR_INVAL)
  end.

(** [key_set]: the [key] argument is not null. *)
Definition ratchet_chain_key_create (kdf : ptr) (key_set : bool) : M mem loc :=
  if bool_decide (kdf = Null) || negb key_set then fail SG_ERR_INVAL else
  let* result := new_object (RatchetChainKey kdf Wild) in
  let* key := new_buffer in
  let* _ := store result (RatchetChainKey kdf key) in
  if bool_decide (key = Null)
  then let* _ := mem_free (Loc result) in fail SG_ERR_NOMEM
  else let* _ := SIGNAL_REF kdf in ret result.

Definition ratchet_root_key_create (kdf : ptr) (key_set : bool) : M mem loc :=
  if bool_decide (kdf = Null) || negb key_set then fail SG_ERR_INVAL else
  let* result := new_object (RatchetRootKey kdf Wild) in
  let* key := new_buffer in
  let* _ := store result (RatchetRootKey kdf key) in
  if bool_decide (key = Null)
  then let* _ := mem_free (Loc result) in fail SG_ERR_NOMEM
  else let* _ := SIGNAL_REF kdf in ret result.

(** * Session initialization parameters *)

Definition symmetric_signal_protocol_parameters_create
    (our_identity_key our_base_key our_ratchet_key
     their_base_key their_ratchet_key their_identity_key : ptr) : M mem loc :=
  let* _ := require_ptrs [our_identity_key; our_base_key; our_ratchet_key;
                          their_base_key; their_ratchet_key; their_identity_key] in
  let* result := new_object (SymmetricParameters our_identity_key our_base_key
    our_ratchet_key their_base_key their_ratchet_key their_identity_key) in
  let* _ := SIGNAL_REF our_identity_key in
  let* _ := SIGNAL_REF our_base_key in
  let* _ := SIGNAL_REF our_ratchet_key in
  let* _ := SIGNAL_REF their_base_key in
  let* _ := SIGNAL_REF their_ratchet_key in
  let* _ := SIGNAL_REF their_identity_key in
  ret result.

Definition alice_signal_protocol_parameters_create
    (our_identity_key our_base_key their_identity_key
     their_signed_pre_key their_one_time_pre_key their_ratchet_key : ptr) : M mem loc :=
  let* _ := require_ptrs [our_identity_key; our_base_key; their_identity_key;
                          their_signed_pre_key; their_ratchet_key] in
  let* result := new_object (AliceParameters our_identity_key our_base_key
    their_identity_key their_signed_pre_key their_one_time_pre_key their_ratchet_key) in
  let* _ := SIGNAL_REF our_identity_key in
  let* _ := SIGNAL_REF our_base_key in
  let* _ := SIGNAL_REF their_identity_key in
  let* _ := SIGNAL_REF their_signed_pre_key in
  let* _ := SIGNAL_REF their_ratchet_key in
  let* _ := ref_if their_one_time_pre_key in
  ret result.

Definition bob_signal_protocol_parameters_create
    (our_identity_key our_signed_pre_key our_one_time_pre_key
     our_ratchet_key their_identity_key their_base_key : ptr) : M mem loc :=
  let* _ := require_ptrs [our_identity_key; our_signed_pre_key; our_ratchet_key;
                          their_identity_key; their_base_key] in
  let* result := new_object (BobParameters our_identity_key our_signed_pre_key
    our_one_time_pre_key our_ratchet_key their_identity_key their_base_key) in
  let* _ := SIGNAL_REF our_identity_key in
  let* _ := SIGNAL_REF our_signed_pre_key in
  let* _ := SIGNAL_REF our_ratchet_key in
  let* _ := SIGNAL_REF their_identity_key in
  let* _ := SIGNAL_REF their_base_key in
  let* _ := ref_if our_one_time_pre_key in
  ret result.

(** * Session states *)

Definition empty_state : state_fields :=
  StateFields Null Null Null false Null Null [] false Null Null Null false Null Null.

Definition session_state_create : M mem loc := new_object (SessionState empty_state).

Definition set_local_identity_public p (s : state_fields) : state_fields :=
  let '(StateFields _ b c d e f g h i j k l m n) := s in StateFields p b c d e f g h i j k l m n.
Definition set_remote_identity_public p (s : state_fields) : state_fields :=
  let '(StateFields a _ c d e f g h i j k l m n) := s in StateFields a p c d e f g h i j k l m n.
Definition set_root_key p (s : state_fields) : state_fields :=
  let '(StateFields a b _ d e f g h i j k l m n) := s in StateFields a b p d e f g h i j k l m n.
Definition set_has_sender_chain x (s : state_fields) : state_fields :=
  let '(StateFields a b c _ e f g h i j k l m n) := s in StateFields a b c x e f g h i j k l m n.
Definition set_sender_ratchet_key_pair p (s : state_fields) : state_fields :=
  let '(StateFields a b c d _ f g h i j k l m n) := s in StateFields a b c d p f g h i j k l m n.
Definition set_sender_chain_key p (s : state_fields) : state_fields :=
  let '(StateFields a b c d e _ g h i j k l m n) := s in StateFields a b c d e p g h i j k l m n.
Definition set_receiver_chain rs (s : state_fields) : state_fields :=
  let '(StateFields a b c d e f _ h i j k l m n) := s in StateFields a b c d e f rs h i j k l m n.
Definition set_pending_key_exchange base ratchet identity (s : state_fields) : state_fields :=
  let '(StateFields a b c d e f g _ _ _ _ l m n) := s in
  StateFields a b c d e f g true base ratchet identity l m n.
Definition set_local_base_key p (s : state_fields) : state_fields :=
  let '(StateFields a b c d e f g h _ j k l m n) := s in StateFields a b c d e f g h p j k l m n.
Definition set_local_ratchet_key p (s : state_fields) : state_fields :=
  let '(StateFields a b c d e f g h i _ k l m n) := s in StateFields a b c d e f g h i p k l m n.
Definition set_local_identity_key p (s : state_fields) : state_fields :=
  let '(StateFields a b c d e f g h i j _ l m n) := s in StateFields a b c d e f g h i j p l m n.
Definition set_pending_pre_key x p (s : state_fields) : state_fields :=
  let '(StateFields a b c d e f g h i j k _ _ n) := s in StateFields a b c d e f g h i j k x p n.
Definition set_pending_base_key p (s : state_fields) : state_fields :=
  let '(StateFields a b c d e f g h i j k l _ n) := s in StateFields a b c d e f g h i j k l p n.
Definition set_alice_base_key p (s : state_fields) : state_fields :=
  let '(StateFields a b c d e f g h i j k l m _) := s in StateFields a b c d e f g h i j k l m p.

Definition f_local_identity : field := state_field sf_local_identity_public set_local_identity_public.
Definition f_remote_identity : field := state_field sf_remote_identity_public set_remote_identity_public.
Definition f_root_key : field := state_field sf_root_key set_root_key.
Definition f_sender_pair : field := state_field sf_sender_ratchet_key_pair set_sender_ratchet_key_pair.
Definition f_sender_chain_key : field := state_field sf_sender_chain_key set_sender_chain_key.
Definition f_local_base : field := state_field sf_local_base_key set_local_base_key.
Definition f_local_ratchet : field := state_field sf_local_ratchet_key set_local_ratchet_key.
Definition f_local_identity_pair : field := state_field sf_local_identity_key set_local_identity_key.
Definition f_pending_base : field := state_field sf_pending_base_key set_pending_base_key.
Definition f_alice_base : field := state_field sf_alice_base_key set_alice_base_key.

Definition load_state (state : loc) : M mem state_fields :=
  let* o := load state in
  match o with SessionState s => ret s | _ => abort end.

Definition update_state (state : loc) (f : state_fields → state_fields) : M mem unit :=
  let* s := load_state state in store state (SessionState (f s)).

Definition session_state_set_local_identity_key (state : loc) (identity_key : ptr) : M mem unit :=
  let* _ := assert_ptr identity_key in replace_field state f_local_identity identity_key.

Definition session_state_set_remote_identity_key (state : loc) (identity_key : ptr) : M mem unit :=
  let* _ := assert_ptr identity_key in replace_field state f_remote_identity identity_key.

Definition session_state_set_root_key (state : loc) (root_key : ptr) : M mem unit :=
  let* _ := assert_ptr root_key in replace_field state f_root_key root_key.

Definition session_state_set_sender_chain (state : loc) (sender_ratchet_key_pair chain_key : ptr)
    : M mem unit :=
  let* _ := assert_ptr sender_ratchet_key_pair in
  let* _ := assert_ptr chain_key in
  let* _ := update_state state (set_has_sender_chain true) in
  let* _ := replace_field state f_sender_pair sender_ratchet_key_pair in
  replace_field state f_sender_chain_key chain_key.

Definition session_state_set_sender_chain_key (state : loc) (chain_key : ptr) : M mem unit :=
  let* s := load_state state in
  if sf_has_sender_chain s then replace_field state f_sender_chain_key chain_key
  else fail SG_ERR_UNKNOWN.

Definition session_state_set_alice_base_key (state : loc) (key : ptr) : M mem unit :=
  let* _ := assert_ptr key in replace_field state f_alice_base key.

Definition session_state_set_pending_key_exchange (state : loc)
    (our_base_key our_ratchet_key our_identity_key : ptr) : M mem unit :=
  let* _ := assert_ptr our_base_key in
  let* _ := assert_ptr our_ratchet_key in
  let* _ := assert_ptr our_identity_key in
  let* _ := unref_field state f_local_base in
  let* _ := unref_field state f_local_ratchet in
  let* _ := unref_field state f_local_identity_pair in
  let* _ := SIGNAL_REF our_base_key in
  let* _ := SIGNAL_REF our_ratchet_key in
  let* _ := SIGNAL_REF our_identity_key in
  update_state state (set_pending_key_exchange our_base_key our_ratchet_key our_identity_key).

Definition session_state_set_unacknowledged_pre_key_message (state : loc) (base_key : ptr)
    : M mem unit :=
  let* _ := assert_ptr base_key in
  let* _ := unref_field state f_pending_base in
  let* _ := SIGNAL_REF base_key in
  update_state state (set_pending_pre_key true base_key).

Definition session_state_clear_unacknowledged_pre_key_message (state : loc) : M mem unit :=
  let* _ := unref_field state f_pending_base in
  update_state state (set_pending_pre_key false Null).

(** ** Receiver chains and skipped message keys *)

(** [ec_public_key_compare(key1, key2) == 0]. *)
Definition ec_public_key_equal (key1 key2 : ptr) : M mem bool :=
  if bool_decide (key1 = key2) then ret true else
  match key1, key2 with
  | Null, _ | _, Null => ret false
  | Loc l1, Loc l2 =>
      let* o1 := load l1 in
      let* o2 := load l2 in
      match o1, o2 with
      | EcPublicKey d1, EcPublicKey d2 => ret (bool_decide (d1 = d2))
      | _, _ => abort
      end
  | _, _ => abort
  end.

(** The index of the node that [session_state_find_receiver_chain] returns. *)
Fixpoint find_receiver (nodes : list receiver_node) (sender_ephemeral : ptr)
    : M mem (option nat) :=
  match nodes with
  | [] => ret None
  | node :: nodes =>
      let* eq := ec_public_key_equal (rn_sender_ratchet_key node) sender_ephemeral in
      if (eq : bool) then ret (Some O)
      else let* i := find_receiver nodes sender_ephemeral in ret (S <$> i)
  end.

Definition session_state_find_receiver_chain (state : loc) (sender_ephemeral : ptr)
    : M mem (option nat) :=
  let* s := load_state state in find_receiver (sf_receiver_chain s) sender_ephemeral.

(** [while(count > 5)]: take the first node off the list and free it. *)
Fixpoint evict_receivers (n : nat) (state : loc) : M mem unit :=
  match n with
  | O => ret tt
  | S n =>
      let* s := load_state state in
      match sf_receiver_chain s with
      | [] => abort
      | node :: rest =>
          let* _ := store state (SessionState (set_receiver_chain rest s)) in
          let* _ := perform (session_state_free_receiver_chain_node node) in
          evict_receivers n state
      end
  end.

Definition session_state_add_receiver_chain (state : loc) (sender_ratchet_key chain_key : ptr)
    : M mem unit :=
  let* _ := assert_ptr sender_ratchet_key in
  let* _ := assert_ptr chain_key in
  let* node := new_node in
  let* _ := SIGNAL_REF sender_ratchet_key in
  let* _ := SIGNAL_REF chain_key in
  let* s := load_state state in
  let nodes := sf_receiver_chain s ++ [ReceiverNode node sender_ratchet_key chain_key []] in
  let* _ := store state (SessionState (set_receiver_chain nodes s)) in
  evict_receivers (length nodes - 5) state.

Definition set_rn_chain_key (p : ptr) (node : receiver_node) : receiver_node :=
  ReceiverNode (rn_node node) (rn_sender_ratchet_key node) p (rn_message_keys node).

Definition set_rn_message_keys (keys : list (loc * Z)) (node : receiver_node) : receiver_node :=
  ReceiverNode (rn_node node) (rn_sender_ratchet_key node) (rn_chain_key node) keys.

(** [node->chain_key] of the [i]-th node. *)
Definition f_receiver_chain_key (i : nat) : field :=
  Field (λ o, match o with
              | SessionState s => rn_chain_key <$> sf_receiver_chain s !! i
              | _ => None end)
        (λ p o, match o with
                | SessionState s =>
                    SessionState (set_receiver_chain
                      (alter (set_rn_chain_key p) i (sf_receiver_chain s)) s)
                | _ => o end).

Definition session_state_set_receiver_chain_key (state : loc) (sender_ephemeral chain_key : ptr)
    : M mem unit :=
  let* _ := assert_ptr sender_ephemeral in
  let* _ := assert_ptr chain_key in
  let* found := session_state_find_receiver_chain state sender_ephemeral in
  match found with
  | None => fail SG_ERR_UNKNOWN
  | Some i => replace_field state (f_receiver_chain_key i) chain_key
  end.

Definition MAX_MESSAGE_KEYS : nat := 2000.

Definition update_receiver (state : loc) (i : nat) (f : receiver_node → receiver_node)
    : M mem unit :=
  update_state state (λ s, set_receiver_chain (alter f i (sf_receiver_chain s)) s).

Definition load_receiver (state : loc) (i : nat) : M mem receiver_node :=
  let* s := load_state state in
  match sf_receiver_chain s !! i with Some node => ret node | None => abort end.

(** [while(count > MAX_MESSAGE_KEYS)]: free the oldest key. *)
Fixpoint evict_message_keys (n : nat) (state : loc) (i : nat) : M mem unit :=
  match n with
  | O => ret tt
  | S n =>
      let* node := load_receiver state i in
      match rn_message_keys node with
      | [] => abort
      | (k, _) :: rest =>
          let* _ := update_receiver state i (set_rn_message_keys rest) in
          let* _ := mem_free (Loc k) in
          evict_message_keys n state i
      end
  end.

Definition session_state_set_message_keys (state : loc) (sender_ephemeral : ptr) (counter : Z)
    : M mem unit :=
  let* _ := assert_ptr sender_ephemeral in
  let* found := session_state_find_receiver_chain state sender_ephemeral in
  match found with
  | None => ret tt
  | Some i =>
      let* k := new_node in
      let* node := load_receiver state i in
      let keys := rn_message_keys node ++ [(k, counter)] in
      let* _ := update_receiver state i (set_rn_message_keys keys) in
      evict_message_keys (length keys - MAX_MESSAGE_KEYS) state i
  end.

(** The first key node with this counter and the list without it. *)
Fixpoint take_key (counter : Z) (keys : list (loc * Z)) : option (loc * list (loc * Z)) :=
  match keys with
  | [] => None
  | (k, c) :: keys =>
      if bool_decide (c = counter) then Some (k, keys)
      else match take_key counter keys with
           | Some (k', keys') => Some (k', (k, c) :: keys')
           | None => None
           end
  end.

Definition session_state_remove_message_keys (state : loc) (sender_ephemeral : ptr) (counter : Z)
    : M mem bool :=
  let* _ := assert_ptr sender_ephemeral in
  let* found := session_state_find_receiver_chain state sender_ephemeral in
  match found with
  | None => ret false
  | Some i =>
      let* node := load_receiver state i in
      match take_key counter (rn_message_keys node) with
      | None => ret false
      | Some (k, keys) =>
          let* _ := update_receiver state i (set_rn_message_keys keys) in
          let* _ := mem_free (Loc k) in
          ret true
      end
  end.

(** * Session records *)

Definition load_record (record : loc) : M mem (ptr * list (loc * ptr)) :=
  let* o := load record in
  match o with SessionRecord state previous => ret (state, previous) | _ => abort end.

Definition f_record_state : field :=
  Field (λ o, match o with SessionRecord p _ => Some p | _ => None end)
        (λ p o, match o with SessionRecord _ l => SessionRecord p l | _ => o end).

Definition session_record_create (state : ptr) : M mem loc :=
  let* result := new_object (SessionRecord Null []) in
  if bool_decide (state = Null) then
    let* created := try session_state_create in
    match created with
    | inr e => let* _ := SIGNAL_UNREF (Loc result) in fail e
    | inl s => let* _ := set_field result f_record_state (Loc s) in ret result
    end
  else
    let* _ := SIGNAL_REF state in
    let* _ := set_field result f_record_state state in
    ret result.

Definition session_record_set_state (record : loc) (state : ptr) : M mem unit :=
  let* _ := assert_ptr state in replace_field record f_record_state state.

Definition ARCHIVED_STATES_MAX_LENGTH : nat := 40.

(** The nodes beyond the maximum length are deleted from the list one by one
    and released. *)
Fixpoint evict_previous (n : nat) (record : loc) : M mem unit :=
  match n with
  | O => ret tt
  | S n =>
      let* '(state, previous) := load_record record in
      match previous !! ARCHIVED_STATES_MAX_LENGTH with
      | None => abort
      | Some node =>
          let* _ := store record
            (SessionRecord state (delete ARCHIVED_STATES_MAX_LENGTH previous)) in
          let* _ := perform (free_nodes [node]) in
          evict_previous n record
      end
  end.

Definition session_record_promote_state (record : loc) (promoted_state : ptr) : M mem unit :=
  let* _ := assert_ptr promoted_state in
  let* '(state, previous) := load_record record in
  let* _ :=
    if bool_decide (state = Null) then ret tt
    else let* node := new_node in
         store record (SessionRecord Null ((node, state) :: previous)) in
  let* _ := SIGNAL_REF promoted_state in
  let* _ := set_field record f_record_state promoted_state in
  let* '(_, previous) := load_record record in
  evict_previous (length previous - ARCHIVED_STATES_MAX_LENGTH) record.

Definition session_record_archive_current_state (record : loc) : M mem unit :=
  let* created := try session_state_create in
  match created with
  | inr e => let* _ := SIGNAL_UNREF Null in fail e
  | inl new_state =>
      let* result := try (session_record_promote_state record (Loc new_state)) in
      let* _ := SIGNAL_UNREF (Loc new_state) in
      match result with inr e => fail e | inl _ => ret tt end
  end.

(** [node] is given by its place in the list. *)
Definition session_record_get_previous_states_remove (record : loc) (i : nat) : M mem unit :=
  let* '(state, previous) := load_record record in
  match previous !! i with
  | None => abort
  | Some node =>
      let* _ := store record (SessionRecord state (delete i previous)) in
      let* _ := perform (free_nodes [node]) in
      ret tt
  end.

(** * Pre keys *)

Definition session_pre_key_create (key_pair : ptr) : M mem loc :=
  let* _ := assert_ptr key_pair in
  let* result := new_object (SessionPreKey key_pair) in
  let* _ := SIGNAL_REF key_pair in
  ret result.

Definition sizeof_session_signed_pre_key : Z := 48.

Definition session_signed_pre_key_create (key_pair : ptr) (signature_len : Z) : M mem loc :=
  let* _ := assert_ptr key_pair in
  if bool_decide (signature_len <= 0) then abort
  else if bool_decide (signature_len > SIZE_MAX - sizeof_session_signed_pre_key)
  then fail SG_ERR_NOMEM
  else
    let* result := new_object (SessionSignedPreKey key_pair) in
    let* _ := SIGNAL_REF key_pair in
    ret result.

(** [has_signature]: the signature bytes are given and not empty. *)
Definition session_pre_key_bundle_create (pre_key_public signed_pre_key_public : ptr)
    (has_signature : bool) (identity_key : ptr) : M mem loc :=
  let* result := new_object (SessionPreKeyBundle Null Null Null Null) in
  let* _ := ref_if pre_key_public in
  let* _ := store result (SessionPreKeyBundle pre_key_public Null Null Null) in
  let* _ := ref_if signed_pre_key_public in
  let* _ := store result (SessionPreKeyBundle pre_key_public signed_pre_key_public Null Null) in
  let* signature := if has_signature then new_buffer else ret Null in
  let* _ := store result
    (SessionPreKeyBundle pre_key_public signed_pre_key_public signature Null) in
  let* _ := ref_if identity_key in
  let* _ := store result
    (SessionPreKeyBundle pre_key_public signed_pre_key_public signature identity_key) in
  ret result.

(** * Sender keys *)

(** [result->chain_key = signal_buffer_copy(chain_key)] may store a null
    pointer, which the destroy function accepts. *)
Definition sender_chain_key_create (chain_key_set : bool) : M mem loc :=
  if negb chain_key_set then fail SG_ERR_INVAL else
  let* result := new_object (SenderChainKey Wild) in
  let* chain_key := new_buffer in
  let* _ := store result (SenderChainKey chain_key) in
  if bool_decide (chain_key = Null)
  then let* _ := SIGNAL_UNREF (Loc result) in fail SG_ERR_NOMEM
  else ret result.

(** From the allocation of the object to the label [complete]: the locals
    [kdf] and [derivative] and the code.  [derive_ok]: the provider's HMAC
    calls succeed, so that [hkdf_derive_secrets] only needs its output; what
    else it allocates it also frees. *)
Definition sender_message_key_fill (result : loc) (iteration : Z) (derive_ok : bool)
    : M mem (ptr * ptr * option Z) :=
  let* '(kdf, code) := hkdf_create 3 in
  match code with
  | Some e => ret (kdf, Null, Some e)
  | None =>
      let* derivative := if derive_ok then new_buffer else ret Null in
      if bool_decide (derivative = Null)
      then ret (kdf, Null, Some (if derive_ok then SG_ERR_NOMEM else SG_ERR_UNKNOWN)) else
      let* seed := new_buffer in
      let* _ := store result (SenderMessageKey iteration Wild Wild seed) in
      if bool_decide (seed = Null) then ret (kdf, derivative, Some SG_ERR_NOMEM) else
      let* iv := new_buffer in
      let* _ := store result (SenderMessageKey iteration iv Wild seed) in
      if bool_decide (iv = Null) then ret (kdf, derivative, Some SG_ERR_NOMEM) else
      let* cipher_key := new_buffer in
      let* _ := store result (SenderMessageKey iteration iv cipher_key seed) in
      if bool_decide (cipher_key = Null) then ret (kdf, derivative, Some SG_ERR_NOMEM)
      else ret (kdf, derivative, None)
  end.

Definition sender_message_key_create (iteration : Z) (seed_set derive_ok : bool) : M mem loc :=
  if negb seed_set then fail SG_ERR_INVAL else
  let* result := new_object (SenderMessageKey iteration Wild Wild Wild) in
  let* '(kdf, derivative, code) := sender_message_key_fill result iteration derive_ok in
  let* _ := SIGNAL_UNREF kdf in
  let* _ := mem_free derivative in
  match code with
  | Some e => let* _ := SIGNAL_UNREF (Loc result) in fail e
  | None => ret result
  end.

Definition sender_key_state_create (chain_key signature_public_key signature_private_key : ptr)
    : M mem loc :=
  let* _ := require_ptrs [chain_key; signature_public_key] in
  let* result := new_object
    (SenderKeyState chain_key signature_public_key signature_private_key []) in
  let* _ := SIGNAL_REF chain_key in
  let* _ := SIGNAL_REF signature_public_key in
  let* _ := ref_if signature_private_key in
  ret result.

Definition f_sender_state_chain_key : field :=
  Field (λ o, match o with SenderKeyState p _ _ _ => Some p | _ => None end)
        (λ p o, match o with SenderKeyState _ b c l => SenderKeyState p b c l | _ => o end).

Definition sender_key_state_set_chain_key (state : loc) (chain_key : ptr) : M mem unit :=
  let* _ := assert_ptr chain_key in replace_field state f_sender_state_chain_key chain_key.

Definition load_message_keys (state : loc) : M mem (list (loc * ptr)) :=
  let* o := load state in
  match o with SenderKeyState _ _ _ keys => ret keys | _ => abort end.

Definition store_message_keys (state : loc) (keys : list (loc * ptr)) : M mem unit :=
  let* o := load state in
  match o with
  | SenderKeyState a b c _ => store state (SenderKeyState a b c keys)
  | _ => abort
  end.

(** [while(count > MAX_MESSAGE_KEYS)]: release the oldest key. *)
Fixpoint evict_sender_keys (n : nat) (state : loc) : M mem unit :=
  match n with
  | O => ret tt
  | S n =>
      let* keys := load_message_keys state in
      match keys with
      | [] => abort
      | node :: rest =>
          let* _ := store_message_keys state rest in
          let* _ := perform (free_nodes [node]) in
          evict_sender_keys n state
      end
  end.

Definition sender_key_state_add_sender_message_key (state : loc) (message_key : ptr)
    : M mem unit :=
  let* _ := assert_ptr message_key in
  let* node := new_node in
  let* _ := SIGNAL_REF message_key in
  let* keys := load_message_keys state in
  let keys := keys ++ [(node, message_key)] in
  let* _ := store_message_keys state keys in
  evict_sender_keys (length keys - MAX_MESSAGE_KEYS) state.

Definition sender_message_key_get_iteration (key : ptr) : M mem Z :=
  match key with
  | Loc l =>
      let* o := load l in
      match o with SenderMessageKey iteration _ _ _ => ret iteration | _ => abort end
  | _ => abort
  end.

(** The place of the first key with this iteration. *)
Fixpoint find_sender_key (keys : list (loc * ptr)) (iteration : Z) : M mem (option nat) :=
  match keys with
  | [] => ret None
  | (_, key) :: keys =>
      let* it := sender_message_key_get_iteration key in
      if bool_decide (it = iteration) then ret (Some O)
      else let* i := find_sender_key keys iteration in ret (S <$> i)
  end.

(** The node's reference passes to the caller. *)
Definition sender_key_state_remove_sender_message_key (state : loc) (iteration : Z)
    : M mem ptr :=
  let* keys := load_message_keys state in
  let* found := find_sender_key keys iteration in
  match found with
  | None => ret Null
  | Some i =>
      match keys !! i with
      | None => abort
      | Some (node, key) =>
          let* _ := store_message_keys state (delete i keys) in
          let* _ := mem_free (Loc node) in
          ret key
      end
  end.

Definition sender_key_record_create : M mem loc := new_object (SenderKeyRecord []).

Definition load_states (record : loc) : M mem (list (loc * ptr)) :=
  let* o := load record in
  match o with SenderKeyRecord states => ret states | _ => abort end.

Definition MAX_STATES : nat := 5.

(** [while(count > MAX_STATES)]: release the last state. *)
Fixpoint evict_states (n : nat) (record : loc) : M mem unit :=
  match n with
  | O => ret tt
  | S n =>
      let* states := load_states record in
      match last states with
      | None => abort
      | Some node =>
          let* _ := store record (SenderKeyRecord (take (length states - 1) states)) in
          let* _ := perform (free_nodes [node]) in
          evict_states n record
      end
  end.

(** The part of [sender_key_record_add_sender_key_state_impl] after the chain
    key exists: the local [state] and the code. *)
Definition add_state_body (record : loc) (chain_key_element : loc)
    (signature_public_key signature_private_key : ptr) : M mem (ptr * option Z) :=
  let* created := try (sender_key_state_create (Loc chain_key_element)
    signature_public_key signature_private_key) in
  match created with
  | inr e => ret (Null, Some e)
  | inl state =>
      let* node := new_cell Raw in
      match node with
      | None => ret (Loc state, Some SG_ERR_NOMEM)
      | Some node =>
          let* states := load_states record in
          let states := (node, Loc state) :: states in
          let* _ := store record (SenderKeyRecord states) in
          let* _ := evict_states (length states - MAX_STATES) record in
          ret (Loc state, None)
      end
  end.

Definition sender_key_record_add_sender_key_state_impl (record : loc) (chain_key_set : bool)
    (signature_public_key signature_private_key : ptr) : M mem unit :=
  let* created := try (sender_chain_key_create chain_key_set) in
  match created with
  | inr e => let* _ := perform [Unref Null; Unref Null] in fail e
  | inl chain_key_element =>
      let* '(state, code) := add_state_body record chain_key_element
        signature_public_key signature_private_key in
      let* _ := SIGNAL_UNREF (Loc chain_key_element) in
      match code with
      | Some e => let* _ := SIGNAL_UNREF state in fail e
      | None => ret tt
      end
  end.

Definition sender_key_record_add_sender_key_state (record : loc) (chain_key_set : bool)
    (signature_key : ptr) : M mem unit :=
  sender_key_record_add_sender_key_state_impl record chain_key_set signature_key Null.

(** [DL_FOREACH_SAFE]: every node is taken off the list and released. *)
Fixpoint clear_states (n : nat) (record : loc) : M mem unit :=
  match n with
  | O => ret tt
  | S n =>
      let* states := load_states record in
      match states with
      | [] => abort
      | node :: rest =>
          let* _ := store record (SenderKeyRecord rest) in
          let* _ := perform (free_nodes [node]) in
          clear_states n record
      end
  end.

Definition load_key_pair (key_pair : ptr) : M mem (ptr * ptr) :=
  match key_pair with
  | Loc l =>
      let* o := load l in
      match o with EcKeyPair public private => ret (public, private) | _ => abort end
  | _ => abort
  end.

Definition sender_key_record_set_sender_key_state (record : loc) (chain_key_set : bool)
    (signature_key_pair : ptr) : M mem unit :=
  let* states := load_states record in
  let* _ := clear_states (length states) record in
  let* _ := store record (SenderKeyRecord []) in
  let* '(public, private) := load_key_pair signature_key_pair in
  sender_key_record_add_sender_key_state_impl record chain_key_set public private.

(** * Fingerprints *)

Definition fingerprint_create (displayable scannable : ptr) : M mem loc :=
  let* result := new_object (Fingerprint displayable scannable) in
  let* _ := ref_if displayable in
  let* _ := ref_if scannable in
  ret result.

(** A sequence [x->f = copy(..); if(!x->f) { result = SG_ERR_NOMEM; goto
    complete; }] over the fields listed by their setters, with the error path
    [SIGNAL_UNREF(x)]. *)
Fixpoint fill_buffers (x : loc) (sets : list (ptr → object → object)) : M mem loc :=
  match sets with
  | [] => ret x
  | set :: sets =>
      let* p := new_buffer in
      let* o := load x in
      let* _ := store x (set p o) in
      if bool_decide (p = Null)
      then let* _ := SIGNAL_UNREF (Loc x) in fail SG_ERR_NOMEM
      else fill_buffers x sets
  end.

Definition set_displayable (i : nat) (p : ptr) (o : object) : object :=
  match o, i with
  | DisplayableFingerprint _ b c, 0%nat => DisplayableFingerprint p b c
  | DisplayableFingerprint a _ c, 1%nat => DisplayableFingerprint a p c
  | DisplayableFingerprint a b _, _ => DisplayableFingerprint a b p
  | _, _ => o
  end.

Definition displayable_fingerprint_create (local_set remote_set : bool) : M mem loc :=
  if negb local_set || negb remote_set then fail SG_ERR_INVAL else
  let* result := new_object (DisplayableFingerprint Null Null Null) in
  fill_buffers result [set_displayable 0; set_displayable 1; set_displayable 2].

Definition set_scannable (i : nat) (p : ptr) (o : object) : object :=
  match o, i with
  | ScannableFingerprint _ b c d, 0%nat => ScannableFingerprint p b c d
  | ScannableFingerprint a _ c d, 1%nat => ScannableFingerprint a p c d
  | ScannableFingerprint a b _ d, 2%nat => ScannableFingerprint a b p d
  | ScannableFingerprint a b c _, _ => ScannableFingerprint a b c p
  | _, _ => o
  end.

(** The identifiers are copied in version 0 only. *)
Definition scannable_fingerprint_create (version : Z)
    (local_id_set local_set remote_id_set remote_set : bool) : M mem loc :=
  if bool_decide (version = 0) && (negb local_id_set || negb remote_id_set)
  then fail SG_ERR_INVAL
  else if negb local_set || negb remote_set then fail SG_ERR_INVAL else
  let* result := new_object (ScannableFingerprint Null Null Null Null) in
  fill_buffers result
    (if bool_decide (version = 0)
     then [set_scannable 0; set_scannable 1; set_scannable 2; set_scannable 3]
     else [set_scannable 1; set_scannable 3]).

Definition set_signature (i : nat) (p : ptr) (o : object) : object :=
  match o, i with
  | ConsistencySignature _ b, 0%nat => ConsistencySignature p b
  | ConsistencySignature a _, _ => ConsistencySignature a p
  | _, _ => o
  end.

Definition device_consistency_signature_create : M mem loc :=
  let* result := new_object (ConsistencySignature Null Null) in
  fill_buffers result [set_signature 0; set_signature 1].

(** * Deserialization of session states

    What [session_state_deserialize_protobuf] reads of the unpacked messages:
    [Some] is a set [has_] flag or a message that is present. *)

Record chain_structure : Type := ChainStructure {
  cs_sender_ratchet_key : option bytes;
  cs_sender_ratchet_key_private : option bytes;
  cs_chain_key : option (option bytes * option Z);
  cs_message_keys : list Z }.

Record exchange_structure : Type := ExchangeStructure {
  ex_base_key : option bytes;
  ex_base_key_private : option bytes;
  ex_ratchet_key : option bytes;
  ex_ratchet_key_private : option bytes;
  ex_identity_key : option bytes;
  ex_identity_key_private : option bytes }.

Record session_structure : Type := SessionStructure {
  st_version : option Z;
  st_local_identity_public : option bytes;
  st_remote_identity_public : option bytes;
  st_root_key : option bytes;
  st_sender_chain : option chain_structure;
  st_receiver_chains : list chain_structure;
  st_pending_key_exchange : option exchange_structure;
  st_pending_pre_key : option (option bytes);
  st_alice_base_key : option bytes }.

(** The result of a call as an out parameter, null on failure, and its code. *)
Definition outcome (m : M mem loc) : M mem (ptr * option Z) :=
  let* r := try m in
  match r with inl l => ret (Loc l, None) | inr e => ret (Null, Some e) end.

(** [if(result < 0) goto complete;] before a step that sets a local. *)
Definition unless_failed (code : option Z) (m : M mem (ptr * option Z)) : M mem (ptr * option Z) :=
  match code with Some e => ret (Null, Some e) | None => m end.

(** The block that decodes the two halves of a pair and creates it: the locals
    of the public key, the private key and the pair, and the code. *)
Definition decode_pair (create : ptr → ptr → M mem loc) (public private : option bytes)
    (code : option Z) : M mem (ptr * ptr * ptr * option Z) :=
  match code, public, private with
  | None, Some public, Some private =>
      let* '(pub, code) := outcome (curve_decode_point public) in
      let* '(priv, code) := unless_failed code (outcome (curve_decode_private_point private)) in
      let* '(pr, code) := unless_failed code (outcome (create pub priv)) in
      ret (pub, priv, pr, code)
  | _, _, _ => ret (Null, Null, Null, code)
  end.

(** [hkdf_create] and [ratchet_chain_key_create] for a chain: the locals [kdf]
    and [chain_key] and the code.  The unpacked bytes of an empty field are
    null. *)
Definition decode_chain_key (session_version : Z) (chain_key : option (option bytes * option Z))
    (code : option Z) : M mem (ptr * ptr * option Z) :=
  match code, chain_key with
  | None, Some (Some key, Some _) =>
      let* '(kdf, code) := hkdf_create session_version in
      let* '(chain, code) := unless_failed code
        (outcome (ratchet_chain_key_create kdf (negb (bool_decide (key = []))))) in
      ret (kdf, chain, code)
  | _, _ => ret (Null, Null, code)
  end.

Definition session_state_deserialize_protobuf_sender_chain (session_version : Z)
    (chain : chain_structure) : M mem (ptr * ptr) :=
  let* '(pub, priv, pr, code) := decode_pair ec_key_pair_create
    (cs_sender_ratchet_key chain) (cs_sender_ratchet_key_private chain) None in
  let* '(kdf, chain_key, code) := decode_chain_key session_version (cs_chain_key chain) code in
  let* _ := perform [Unref kdf; Unref pub; Unref priv] in
  match code with
  | Some e => let* _ := perform [Unref pr; Unref chain_key] in fail e
  | None => ret (pr, chain_key)
  end.

(** The list of message key nodes built so far and the code. *)
Fixpoint decode_message_keys (counters : list Z) (keys : list (loc * Z))
    : M mem (list (loc * Z) * option Z) :=
  match counters with
  | [] => ret (keys, None)
  | c :: counters =>
      let* node := new_cell Raw in
      match node with
      | None => ret (keys, Some SG_ERR_NOMEM)
      | Some k => decode_message_keys counters (keys ++ [(k, c)])
      end
  end.

Definition session_state_deserialize_protobuf_receiver_chain (session_version : Z) (node : loc)
    (chain : chain_structure) : M mem receiver_node :=
  let* '(key, code) :=
    match cs_sender_ratchet_key chain with
    | Some data => outcome (curve_decode_point data)
    | None => ret (Null, None)
    end in
  let* '(kdf, chain_key, code) := decode_chain_key session_version (cs_chain_key chain) code in
  let* '(keys, code) :=
    match code with
    | Some e => ret ([], Some e)
    | None => decode_message_keys (cs_message_keys chain) []
    end in
  let* _ := SIGNAL_UNREF kdf in
  match code with
  | Some e =>
      let* _ := perform ([Unref key; Unref chain_key] ++ free_message_keys keys) in
      fail e
  | None => ret (ReceiverNode node key chain_key keys)
  end.

Definition session_state_deserialize_protobuf_pending_key_exchange (ex : exchange_structure)
    : M mem (ptr * ptr * ptr) :=
  let* '(pub1, priv1, base, code) := decode_pair ec_key_pair_create
    (ex_base_key ex) (ex_base_key_private ex) None in
  let* '(pub2, priv2, ratchet, code) := decode_pair ec_key_pair_create
    (ex_ratchet_key ex) (ex_ratchet_key_private ex) code in
  let* '(pub3, priv3, identity, code) := decode_pair ratchet_identity_key_pair_create
    (ex_identity_key ex) (ex_identity_key_private ex) code in
  let* _ := perform [Unref pub1; Unref priv1; Unref pub2; Unref priv2; Unref pub3; Unref priv3] in
  match code with
  | Some e => let* _ := perform [Unref base; Unref ratchet; Unref identity] in fail e
  | None => ret (base, ratchet, identity)
  end.

(** A public key field that is decoded straight into the state. *)
Definition decode_into (state : loc) (f : field) (data : option bytes) : M mem unit :=
  match data with
  | None => ret tt
  | Some data => let* key := curve_decode_point data in set_field state f (Loc key)
  end.

Definition decode_root_key (state : loc) (session_version : Z) (root_key : option bytes)
    : M mem unit :=
  match root_key with
  | None => ret tt
  | Some key =>
      let* '(kdf, code) := hkdf_create session_version in
      match code with
      | Some e => fail e
      | None =>
          let* '(root, code) := outcome
            (ratchet_root_key_create kdf (negb (bool_decide (key = [])))) in
          let* _ := set_field state f_root_key root in
          let* _ := SIGNAL_UNREF kdf in
          match code with Some e => fail e | None => ret tt end
      end
  end.

(** The returned code is not looked at: [has_sender_chain] is set in any case. *)
Definition decode_sender_chain (state : loc) (session_version : Z)
    (chain : option chain_structure) : M mem unit :=
  match chain with
  | None => ret tt
  | Some chain =>
      let* r := try (session_state_deserialize_protobuf_sender_chain session_version chain) in
      let* _ :=
        match r with
        | inl (pr, key) =>
            update_state state (λ s, set_sender_chain_key key (set_sender_ratchet_key_pair pr s))
        | inr _ => ret tt
        end in
      update_state state (set_has_sender_chain true)
  end.

Fixpoint decode_receiver_chains (state : loc) (session_version : Z)
    (chains : list chain_structure) : M mem unit :=
  match chains with
  | [] => ret tt
  | chain :: chains =>
      let* node := new_node in
      let* r := try (session_state_deserialize_protobuf_receiver_chain session_version node chain) in
      match r with
      | inr e => let* _ := mem_free (Loc node) in fail e
      | inl rn =>
          let* _ := update_state state
            (λ s, set_receiver_chain (sf_receiver_chain s ++ [rn]) s) in
          decode_receiver_chains state session_version chains
      end
  end.

Definition decode_exchange (state : loc) (exchange : option exchange_structure) : M mem unit :=
  match exchange with
  | None => ret tt
  | Some ex =>
      let* '(base, ratchet, identity) :=
        session_state_deserialize_protobuf_pending_key_exchange ex in
      update_state state (set_pending_key_exchange base ratchet identity)
  end.

(** [session_state_deserialize_protobuf_pending_pre_key] and its caller. *)
Definition decode_pre_key (state : loc) (pre_key : option (option bytes)) : M mem unit :=
  match pre_key with
  | None => ret tt
  | Some None => update_state state (λ s, set_pending_pre_key true (sf_pending_base_key s) s)
  | Some (Some data) =>
      let* key := curve_decode_point data in
      update_state state (set_pending_pre_key true (Loc key))
  end.

(** From the creation of the state to the label [complete]. *)
Definition decode_state (state : loc) (st : session_structure) : M mem unit :=
  let session_version := default 2 (st_version st) in
  let* _ := decode_into state f_local_identity (st_local_identity_public st) in
  let* _ := decode_into state f_remote_identity (st_remote_identity_public st) in
  let* _ := decode_root_key state session_version (st_root_key st) in
  let* _ := decode_sender_chain state session_version (st_sender_chain st) in
  let* _ := decode_receiver_chains state session_version (st_receiver_chains st) in
  let* _ := decode_exchange state (st_pending_key_exchange st) in
  let* _ := decode_pre_key state (st_pending_pre_key st) in
  decode_into state f_alice_base (st_alice_base_key st).

Definition session_state_deserialize_protobuf (st : session_structure) : M mem loc :=
  let* state := session_state_create in
  let* r := try (decode_state state st) in
  match r with
  | inr e => let* _ := SIGNAL_UNREF (Loc state) in fail e
  | inl _ => ret state
  end.
