(* ===== verification/RefRules.v ===== *)
(** Rules for the computations of RefOps.v: a weakest precondition that rules
    out [Abort] and [Hang], and one rule per primitive that carries the
    ownership invariant of RefCountInv.v across it. *)
From stdpp Require Import gmap.
From S2P Require Import Prelude RefCount RefCountInv RefOps.

(** [wp m w Q]: from [w] the call returns, and its result or error code and the
    final world satisfy [Q]. *)
Definition wp {A} (m : M mem A) (w : mem) (Q : A + Z → mem → Prop) : Prop :=
  match m w with
  | (Ok a, w') => Q (inl a) w'
  | (Err e, w') => Q (inr e) w'
  | _ => False
  end.

Lemma wp_ret {A} (a : A) w Q : Q (inl a) w → wp (ret a) w Q.
Proof. done. Qed.

Lemma wp_fail {A} e w (Q : A + Z → mem → Prop) : Q (inr e) w → wp (fail e) w Q.
Proof. done. Qed.

Lemma wp_mono {A} (m : M mem A) w (P Q : A + Z → mem → Prop) :
  wp m w P → (∀ r w', P r w' → Q r w') → wp m w Q.
Proof. unfold wp. destruct (m w) as [[]]; auto. Qed.

Lemma wp_bind {A B} (m : M mem A) (k : A → M mem B) w Q :
  wp m w (λ r w', match r with inl a => wp (k a) w' Q | inr e => Q (inr e) w' end) →
  wp (bind m k) w Q.
Proof. unfold wp, bind. by destruct (m w) as [[]]. Qed.

Lemma wp_try {A} (m : M mem A) w (Q : (A + Z) + Z → mem → Prop) :
  wp m w (λ r w', Q (inl r) w') → wp (try m) w Q.
Proof. unfold wp, try. by destruct (m w) as [[]]. Qed.

(** ** Primitives *)

Definition payload_at (h : heap) (l : loc) (o : object) : Prop := ∃ n, h !! l = Some (Obj n o).

Lemma payload_ok b H D h l o : inv b H D h → payload_at h l o → obj_ok h o.
Proof. intros I [n E]. by apply (inv_obj _ _ _ _ I) in E as [? _]. Qed.

Lemma handle_payload b H D h t l : inv b H D h → (t, l) ∈ H → t ≠ TRaw →
  ∃ o, payload_at h l o ∧ ty_of o = t.
Proof.
  intros I Hin Ht. destruct (handle_obj _ _ _ _ _ _ I Hin Ht) as (n & o & E & Ho & _).
  exists o. split; [by exists n|done].
Qed.

Lemma shrinks_payload b H D h h' l t o : inv b H D h' → (t, l) ∈ H → shrinks h h' →
  payload_at h l o → payload_at h' l o.
Proof.
  intros I Hin S P. pose proof (inv_handle _ _ _ _ I _ _ Hin) as E. unfold type_at in E.
  destruct (h' !! l) as [c|] eqn:El; [|done]. pose proof (S _ _ El) as Sl. destruct P as [n P].
  destruct c as [|m x]; [congruence|]. destruct Sl as (m' & Sl & _).
  rewrite P in Sl. simplify_eq. by exists m.
Qed.

Lemma new_loc_fresh h : h !! new_loc h = None.
Proof.
  unfold new_loc.
  assert (∀ k, is_Some (h !! k) → (k <= map_fold (λ l _ m, Pos.max l m) 1 h)%positive) as Hb.
  { apply (map_fold_weak_ind (λ r m, ∀ k, is_Some (m !! k) → (k <= r)%positive)).
    - intros k. rewrite lookup_empty. by intros [? ?].
    - intros i x m r _ IH k [y Hk]. apply lookup_insert_Some in Hk as [[-> _]|[_ Hk]].
      + lia.
      + assert (k <= r)%positive by (apply IH; by rewrite Hk). lia. }
  destruct (h !! Pos.succ _) eqn:E; [|done].
  assert (is_Some (h !! Pos.succ (map_fold (λ l _ m, Pos.max l m) 1%positive h))) as Hs
    by (by rewrite E). apply Hb in Hs. lia.
Qed.

Lemma wp_new_cell c w (Q : option loc + Z → mem → Prop) :
  (∀ m l, w_user w !! l = None → Q (inl (Some l)) (World m (<[l := c]> (w_user w)))) →
  Q (inl None) w → wp (new_cell c) w Q.
Proof.
  intros HS HN. unfold wp, new_cell, bind, malloc, place, ret. destruct w as [m h]. cbn in *.
  destruct m as [[|m]|]; cbn; [done|..]; apply HS, new_loc_fresh.
Qed.

Lemma wp_new_object o b H D w (Q : loc + Z → mem → Prop) :
  inv b H D (w_user w) → obj_ok (w_user w) o →
  (∀ m l, w_user w !! l = None →
     inv b ((ty_of o, l) :: H) (handles (owns o) ++ D) (<[l := Obj 1 o]> (w_user w)) →
     Q (inl l) (World m (<[l := Obj 1 o]> (w_user w)))) →
  Q (inr SG_ERR_NOMEM) w → wp (new_object o) w Q.
Proof.
  intros I Ho HS HN. apply wp_bind, wp_new_cell; [|done].
  intros m l E. apply wp_ret, HS; [done|]. by apply inv_new.
Qed.

Lemma wp_new_raw b H D w (Q : option loc + Z → mem → Prop) :
  inv b H D (w_user w) →
  (∀ m l, w_user w !! l = None →
     inv b ((TRaw, l) :: H) D (<[l := Raw]> (w_user w)) →
     Q (inl (Some l)) (World m (<[l := Raw]> (w_user w)))) →
  Q (inl None) w → wp (new_cell Raw) w Q.
Proof. intros I HS HN. apply wp_new_cell; [|done]. intros. apply HS; [done|]. by apply inv_new_raw. Qed.

Lemma heap_op_wp f w h (Q : unit + Z → mem → Prop) :
  f (w_user w) = Some h → Q (inl tt) (World (w_mem w) h) → wp (heap_op f) w Q.
Proof. unfold wp, heap_op. by intros ->. Qed.

Lemma wp_ref b b' H t k D w (Q : unit + Z → mem → Prop) :
  inv b H ((t, k) :: D) (w_user w) → type_at (w_user w) k = Some t → t ≠ TRaw →
  b <= b' < 2 ^ 32 → count (w_user w) k + 1 <= b' →
  (∀ n o, w_user w !! k = Some (Obj n o) → inv b' H D (<[k := Obj (n + 1) o]> (w_user w)) →
     Q (inl tt) (World (w_mem w) (<[k := Obj (n + 1) o]> (w_user w)))) →
  wp (SIGNAL_REF (Loc k)) w Q.
Proof.
  intros I Ht Hr Hb Hc HQ. unfold type_at in Ht. unfold count in Hc.
  destruct (w_user w !! k) as [[|n o]|] eqn:E; cbn in *; simplify_eq.
  pose proof (inv_obj _ _ _ _ I _ _ _ E) as [Ho Hn].
  eapply heap_op_wp; cycle 1.
  - apply (HQ n o); [done|].
    eapply inv_update; [exact I|exact E|done|done|lia|lia| |].
    + intros j. cbn. repeat case_decide; simplify_eq; lia.
    + intros u j. by apply (inv_handle _ _ _ _ I).
  - cbn. rewrite E, bool_decide_true by lia. unfold u32. by rewrite Z.mod_small by lia.
Qed.

Lemma wp_unref b H t l w (Q : unit + Z → mem → Prop) :
  inv b ((t, l) :: H) [] (w_user w) → t ≠ TRaw →
  (∀ h', inv b H [] h' → shrinks (w_user w) h' → Q (inl tt) (World (w_mem w) h')) →
  wp (SIGNAL_UNREF (Loc l)) w Q.
Proof.
  intros I Ht HQ. pose proof (rank_top t).
  destruct (unref_inv unref_depth b H t l _ I Ht) as (h' & E & I'); [unfold unref_depth; lia|].
  eapply heap_op_wp; [exact E|]. apply HQ; [done|by eapply unref_shrinks].
Qed.

Lemma wp_perform b R H acts w (Q : unit + Z → mem → Prop) :
  inv b (R ++ H) [] (w_user w) → releases acts R →
  (∀ h', inv b H [] h' → shrinks (w_user w) h' → Q (inl tt) (World (w_mem w) h')) →
  wp (perform acts) w Q.
Proof.
  intros I HR HQ.
  destruct (run_inv (signal_type_unref_at unref_depth) unref_depth b _ R
    (unref_inv unref_depth b) (λ _, eq_refl) HR) with (2 := I) as (h' & E & I').
  - intros t l _. pose proof (rank_top t). unfold unref_depth. lia.
  - eapply heap_op_wp; [exact E|]. apply HQ; [done|].
    eapply run_shrinks; [apply unref_shrinks|exact E].
Qed.

Lemma wp_unref_ptr b H t p w (Q : unit + Z → mem → Prop) :
  inv b (ptr_handles t p ++ H) [] (w_user w) → t ≠ TRaw → p ≠ Wild →
  (∀ h', inv b H [] h' → shrinks (w_user w) h' → Q (inl tt) (World (w_mem w) h')) →
  wp (SIGNAL_UNREF p) w Q.
Proof.
  destruct p as [|l|]; cbn [ptr_handles app]; [|by intros I Ht _; apply (wp_unref _ _ _ _ _ _ I Ht)|done].
  intros I _ _ HQ. eapply heap_op_wp; [done|]. apply HQ; [done|apply shrinks_refl].
Qed.

Lemma wp_free_raw b H p w (Q : unit + Z → mem → Prop) :
  inv b (ptr_handles TRaw p ++ H) [] (w_user w) → p ≠ Wild →
  (∀ h', inv b H [] h' → shrinks (w_user w) h' → Q (inl tt) (World (w_mem w) h')) →
  wp (mem_free p) w Q.
Proof.
  destruct p as [|l|]; cbn [ptr_handles app]; [| |done]; intros I _ HQ.
  - eapply heap_op_wp; [done|]. apply HQ; [done|apply shrinks_refl].
  - destruct (inv_free_raw _ _ _ _ I) as (h' & E & I').
    eapply heap_op_wp; [exact E|]. apply HQ; [done|by eapply free_shrinks].
Qed.

Lemma wp_load l o w (Q : object + Z → mem → Prop) :
  payload_at (w_user w) l o → Q (inl o) w → wp (load l) w Q.
Proof. intros [n E] ?. unfold wp, load. by rewrite E. Qed.

Lemma wp_store b H D H' D' l o o' w (Q : unit + Z → mem → Prop) :
  inv b H D (w_user w) → payload_at (w_user w) l o → ty_of o' = ty_of o →
  obj_ok (w_user w) o' →
  (∀ k, occ k H' + occ k (handles (owns o')) + occ k D =
        occ k H + occ k (handles (owns o)) + occ k D') →
  (∀ t k, (t, k) ∈ H' → type_at (w_user w) k = Some t) →
  (∀ n, w_user w !! l = Some (Obj n o) → inv b H' D' (<[l := Obj n o']> (w_user w)) →
     Q (inl tt) (World (w_mem w) (<[l := Obj n o']> (w_user w)))) →
  wp (store l o') w Q.
Proof.
  intros I [n E] Ht Ho Hbal HT HQ. unfold wp, store. rewrite E. apply HQ; [done|].
  pose proof (inv_obj _ _ _ _ I _ _ _ E) as [_ Hn]. pose proof (inv_bound _ _ _ _ I).
  eapply inv_update; [exact I|exact E|done|done|lia|lia| |done].
  intros k. specialize (Hbal k). lia.
Qed.

(** ** Allocations that succeed or fail *)

Definition next_mem (m : option nat) : option nat :=
  match m with Some n => Some (n - 1)%nat | None => None end.

(** The next allocation succeeds. *)
Definition can_alloc (m : option nat) : Prop := m ≠ Some O.

Lemma bind_run {S A B} (m : M S A) (k : A → M S B) s a s' :
  m s = (Ok a, s') → bind m k s = k a s'.
Proof. intros E. unfold bind. by rewrite E. Qed.

Lemma new_cell_ok c m h : can_alloc m →
  new_cell c (World m h) = (Ok (Some (new_loc h)), World (next_mem m) (<[new_loc h := c]> h)).
Proof.
  unfold can_alloc, new_cell, bind, malloc, place, ret. destruct m as [[|n]|]; cbn; [done|..].
  - intros _. by rewrite Nat.sub_0_r.
  - done.
Qed.

Lemma new_buffer_full h : new_buffer (World (Some O) h) = (Ok Null, World (Some O) h).
Proof. done. Qed.

Lemma new_object_ok o m h : can_alloc m →
  new_object o (World m h) = (Ok (new_loc h), World (next_mem m) (<[new_loc h := Obj 1 o]> h)).
Proof. intros E. unfold new_object. by rewrite (bind_run _ _ _ _ _ (new_cell_ok _ _ _ E)). Qed.

Lemma new_buffer_ok m h : can_alloc m →
  new_buffer (World m h) = (Ok (Loc (new_loc h)), World (next_mem m) (<[new_loc h := Raw]> h)).
Proof. intros E. unfold new_buffer. by rewrite (bind_run _ _ _ _ _ (new_cell_ok _ _ _ E)). Qed.

Lemma hkdf_create_ok m h : can_alloc m →
  hkdf_create 3 (World m h)
  = (Ok (Loc (new_loc h), None), World (next_mem m) (<[new_loc h := Obj 1 HkdfContext]> h)).
Proof. intros E. unfold hkdf_create. by rewrite (bind_run _ _ _ _ _ (new_cell_ok _ _ _ E)). Qed.

Lemma store_ok l o o' n m h : h !! l = Some (Obj n o) →
  store l o' (World m h) = (Ok tt, World m (<[l := Obj n o']> h)).
Proof. intros E. unfold store. cbn. by rewrite E. Qed.

Lemma new_loc_ne h l : is_Some (h !! l) → new_loc h ≠ l.
Proof. intros [c E] <-. by rewrite new_loc_fresh in E. Qed.

Lemma lookup_new h c y v : h !! y = Some v → <[new_loc h := c]> h !! y = Some v.
Proof. intros E. rewrite lookup_insert_ne; [done|]. apply new_loc_ne. by rewrite E. Qed.

(** The next [n] allocations succeed. *)
Fixpoint room (n : nat) (m : option nat) : Prop :=
  match n with O => True | S n => can_alloc m ∧ room n (next_mem m) end.

Lemma wp_eq {A} (m : M mem A) w r w' (Q : A + Z → mem → Prop) :
  m w = (Ok r, w') → Q (inl r) w' → wp m w Q.
Proof. unfold wp. by intros ->. Qed.

(** ** Fields *)

(** [f] is an owning field of type [tf] of objects of type [to]. *)
Class FieldOk (f : field) (to tf : ty) : Prop := {
  field_tf : tf ≠ TRaw;
  field_to : to ≠ TRaw;
  field_ty o p : field_get f o = Some p → ty_of o = to;
  field_set_ty o p q : field_get f o = Some p → ty_of (field_set f q o) = to;
  field_get_set o p q : field_get f o = Some p → field_get f (field_set f q o) = Some q;
  field_owns k o p q : field_get f o = Some p →
    occ k (handles (owns (field_set f q o))) + occ k (ptr_handles tf p) =
    occ k (handles (owns o)) + occ k (ptr_handles tf q);
  field_ptr_ok h o p : field_get f o = Some p → obj_ok h o → ptr_ok h tf p;
  field_null h o p : field_get f o = Some p → obj_ok h o → obj_ok h (field_set f Null o) }.

(** A field no flag guards can take any pointer of its type. *)
Class FieldFree (f : field) (tf : ty) : Prop :=
  field_free h o p q : field_get f o = Some p → obj_ok h o → ptr_ok h tf q →
    obj_ok h (field_set f q o).

Section Fields.
Context (f : field) (to tf : ty) `{!FieldOk f to tf}.

Lemma wp_get_field l o p w (Q : ptr + Z → mem → Prop) :
  payload_at (w_user w) l o → field_get f o = Some p → Q (inl p) w → wp (get_field l f) w Q.
Proof. intros P E HQ. apply wp_bind. eapply wp_load; [exact P|]. by rewrite E. Qed.

(** Writing a null field takes over a handle. *)
Lemma wp_set_field `{!FieldFree f tf} b H l o q w (Q : unit + Z → mem → Prop) :
  inv b (ptr_handles tf q ++ H) [] (w_user w) → q ≠ Wild →
  payload_at (w_user w) l o → field_get f o = Some Null →
  (∀ h', inv b H [] h' → payload_at h' l (field_set f q o) →
     Q (inl tt) (World (w_mem w) h')) →
  wp (set_field l f q) w Q.
Proof.
  intros I Hq P E HQ. apply wp_bind. eapply wp_load; [exact P|]. rewrite E.
  pose proof (payload_ok _ _ _ _ _ _ I P) as Ho.
  eapply wp_store with (H' := H) (D' := []); [exact I|exact P| | | | |].
  - by rewrite (field_set_ty _ _ q E), (field_ty _ _ E).
  - eapply field_free; [exact E|exact Ho|]. destruct q as [|k|]; [done| |done].
    eapply (inv_handle _ _ _ _ I). left.
  - intros k. pose proof (field_owns k o Null q E) as Hk. rewrite occ_app. cbn in *. lia.
  - intros t k Hk. apply (inv_handle _ _ _ _ I). apply elem_of_app. by right.
  - intros n En I'. apply HQ; [done|]. exists n. apply lookup_insert_eq.
Qed.

(** [SIGNAL_UNREF(x->f)] while the caller holds [x]. *)
Lemma wp_unref_field b H l o p w (Q : unit + Z → mem → Prop) :
  inv b H [] (w_user w) → (to, l) ∈ H → payload_at (w_user w) l o → field_get f o = Some p →
  (∀ h', inv b H [] h' → payload_at h' l (field_set f Null o) →
     Q (inl tt) (World (w_mem w) h')) →
  wp (unref_field l f) w Q.
Proof.
  intros I Hl P E HQ. pose proof (payload_ok _ _ _ _ _ _ I P) as Ho. destruct P as [n P].
  set (h0 := <[l := Obj n (field_set f Null o)]> (w_user w)).
  pose proof (inv_obj _ _ _ _ I _ _ _ P) as [_ Hn]. pose proof (inv_bound _ _ _ _ I).
  pose proof (field_ptr_ok _ _ _ E Ho) as Hp.
  assert (inv b (ptr_handles tf p ++ H) [] h0) as I0.
  { eapply inv_update; [exact I|exact P| | |lia|lia| |].
    - by rewrite (field_set_ty _ _ _ E), (field_ty _ _ E).
    - by eapply field_null.
    - intros k. pose proof (field_owns k o p Null E). rewrite occ_app. cbn in *. lia.
    - intros t k. rewrite elem_of_app. intros [Hk|Hk]; [|by eapply inv_handle].
      destruct p as [|k'|]; cbn in Hk, Hp; try by apply not_elem_of_nil in Hk.
      apply list_elem_of_singleton in Hk. by simplify_eq. }
  assert (∃ h1, signal_type_unref_at unref_depth p h0 = Some h1 ∧ inv b H [] h1) as (h1 & E1 & I1).
  { destruct p as [|k|]; [by exists h0| |done]. pose proof (rank_top tf).
    apply (unref_inv unref_depth b H tf k h0 I0); [apply field_tf|unfold unref_depth; lia]. }
  pose proof (unref_shrinks _ _ _ _ E1) as S1.
  assert (payload_at h1 l (field_set f Null o)) as P1.
  { eapply shrinks_payload; [exact I1|exact Hl|exact S1|]. exists n. apply lookup_insert_eq. }
  destruct P1 as [m P1].
  apply (unref_frame _ _ _ _ l o) in E1; [|by exists m, (field_set f Null o)].
  unfold h0 in E1. rewrite (swap_swap l (field_set f Null o) n o _ P) in E1.
  apply wp_bind. eapply wp_get_field; [by exists n|exact E|].
  apply wp_bind. eapply heap_op_wp; [exact E1|].
  apply wp_bind. eapply wp_load; [exists m; unfold swap; rewrite P1; apply lookup_insert_eq|].
  rewrite E. unfold wp, store. cbn [w_user w_mem]. unfold swap. rewrite P1, lookup_insert_eq.
  rewrite insert_insert_eq, insert_id by done. apply HQ; [done|by exists m].
Qed.

Lemma wp_replace_field `{!FieldFree f tf} b H l k o p w (Q : unit + Z → mem → Prop) :
  inv b H [] (w_user w) → b + 1 < 2 ^ 32 → (to, l) ∈ H → (tf, k) ∈ H →
  payload_at (w_user w) l o → field_get f o = Some p →
  (∀ h', inv (b + 1) H [] h' → payload_at h' l (field_set f (Loc k) (field_set f Null o)) →
     Q (inl tt) (World (w_mem w) h')) →
  wp (replace_field l f (Loc k)) w Q.
Proof.
  intros I Hb Hl Hk P E HQ. pose proof (inv_bound _ _ _ _ I).
  apply wp_bind. eapply wp_unref_field; [done|done|exact P|exact E|]. intros h1 I1 P1.
  pose proof (inv_handle _ _ _ _ I1 _ _ Hk) as T1.
  destruct (handle_obj _ _ _ _ _ _ I1 Hk field_tf) as (n & x & En & _ & Hn).
  apply wp_bind. eapply (wp_ref b (b + 1) ((tf, k) :: H) tf k []); [|done|apply field_tf|lia| |].
  - eapply inv_equiv; [exact I1|intros j; cbn; lia|]. intros y. rewrite elem_of_cons.
    by intros [->|?].
  - unfold count. cbn [w_user]. rewrite En. cbn. lia.
  - intros n' o' E' I2. cbn [w_mem w_user].
    destruct P1 as [m P1].
    eapply (wp_set_field (b + 1) H l (field_set f Null o)); [exact I2|done| |by eapply field_get_set|].
    + destruct (decide (k = l)) as [->|].
      * cbn [w_user] in E'. rewrite P1 in E'. simplify_eq. eexists. apply lookup_insert_eq.
      * exists m. cbn [w_user]. by rewrite lookup_insert_ne.
    + intros h' I' P'. by apply HQ.
Qed.
End Fields.
