(* ===== verification/RefOpsSpec.v ===== *)
(** Every constructor, setter and list operation of RefOps.v keeps the
    ownership invariant, whichever allocation fails: it never touches freed
    memory, hands its caller exactly one reference to what it creates, and on
    an error gives back everything it took. *)
From stdpp Require Import gmap.
From S2P Require Import Prelude RefCount RefCountInv RefOps RefRules.

(** * The owning fields *)

Abbreviation pocc k t p := (occ k (ptr_handles t p)).

Lemma occ_handles_cons k t p fs : occ k (handles ((t, p) :: fs)) = pocc k t p + occ k (handles fs).
Proof. by rewrite handles_cons, occ_app. Qed.

Lemma occ_handles_app k fs gs : occ k (handles (fs ++ gs)) = occ k (handles fs) + occ k (handles gs).
Proof. by rewrite handles_app, occ_app. Qed.

Definition receivers_own (s : state_fields) : list (ty * ptr) :=
  sf_receiver_chain s ≫= receiver_node_fields.

Lemma occ_state k s :
  occ k (handles (owns (SessionState s))) =
  pocc k TPublicKey (sf_local_identity_public s) + pocc k TPublicKey (sf_remote_identity_public s)
  + pocc k TRootKey (sf_root_key s) + pocc k TKeyPair (sf_sender_ratchet_key_pair s)
  + pocc k TChainKey (sf_sender_chain_key s) + occ k (handles (receivers_own s))
  + pocc k TKeyPair (sf_local_base_key s) + pocc k TKeyPair (sf_local_ratchet_key s)
  + pocc k TIdentityKeyPair (sf_local_identity_key s) + pocc k TPublicKey (sf_pending_base_key s)
  + pocc k TPublicKey (sf_alice_base_key s).
Proof.
  cbn [owns]. unfold state_owns. rewrite !occ_handles_app, !occ_handles_cons.
  fold (receivers_own s). cbn [handles mbind list_bind occ]. lia.
Qed.

Definition ptrs_ok (h : heap) (fs : list (ty * ptr)) : Prop := Forall (λ '(t, p), ptr_ok h t p) fs.

Lemma obj_ok_state h s :
  obj_ok h (SessionState s) ↔
  (ptr_ok h TPublicKey (sf_local_identity_public s) ∧
   ptr_ok h TPublicKey (sf_remote_identity_public s) ∧ ptr_ok h TRootKey (sf_root_key s) ∧
   ptr_ok h TKeyPair (sf_sender_ratchet_key_pair s) ∧ ptr_ok h TChainKey (sf_sender_chain_key s) ∧
   ptrs_ok h (receivers_own s) ∧ ptr_ok h TKeyPair (sf_local_base_key s) ∧
   ptr_ok h TKeyPair (sf_local_ratchet_key s) ∧
   ptr_ok h TIdentityKeyPair (sf_local_identity_key s) ∧
   ptr_ok h TPublicKey (sf_pending_base_key s) ∧ ptr_ok h TPublicKey (sf_alice_base_key s)) ∧
  flags_ok (SessionState s).
Proof.
  unfold obj_ok, ptrs_ok. cbn [owns]. unfold state_owns. fold (receivers_own s).
  rewrite !Forall_app, !Forall_cons, Forall_nil. tauto.
Qed.

(** Case analysis on the objects that are session states. *)
Ltac state_cases :=
  match goal with x : object |- _ => destruct x as [| | | | | | | | | |[]| | | | | | | | | | | | | | | | | |] end; try done;
  cbn [field_get field_set state_field] in *; simplify_eq.

Ltac state_field_ok f :=
  unfold f; split; [done|done|intros ? ? ?|intros ? ? ? ?|intros ? ? ? ?|intros ? ? ? ? ?
         |intros ? ? ? ?|intros ? ? ? ?]; state_cases; try done;
  [ rewrite !occ_state; unfold receivers_own; cbn -[handles]; lia
  | rewrite obj_ok_state; cbn; tauto
  | rewrite !obj_ok_state; cbn; intuition ].

Ltac state_field_free f :=
  unfold f; intros ? ? ? ? ?; state_cases; rewrite !obj_ok_state; cbn; tauto.

Global Instance f_local_identity_ok : FieldOk f_local_identity TState TPublicKey.
Proof. state_field_ok f_local_identity. Qed.
Global Instance f_remote_identity_ok : FieldOk f_remote_identity TState TPublicKey.
Proof. state_field_ok f_remote_identity. Qed.
Global Instance f_root_key_ok : FieldOk f_root_key TState TRootKey.
Proof. state_field_ok f_root_key. Qed.
Global Instance f_sender_pair_ok : FieldOk f_sender_pair TState TKeyPair.
Proof. state_field_ok f_sender_pair. Qed.
Global Instance f_sender_chain_key_ok : FieldOk f_sender_chain_key TState TChainKey.
Proof. state_field_ok f_sender_chain_key. Qed.
Global Instance f_local_base_ok : FieldOk f_local_base TState TKeyPair.
Proof. state_field_ok f_local_base. Qed.
Global Instance f_local_ratchet_ok : FieldOk f_local_ratchet TState TKeyPair.
Proof. state_field_ok f_local_ratchet. Qed.
Global Instance f_local_identity_pair_ok : FieldOk f_local_identity_pair TState TIdentityKeyPair.
Proof. state_field_ok f_local_identity_pair. Qed.
Global Instance f_pending_base_ok : FieldOk f_pending_base TState TPublicKey.
Proof. state_field_ok f_pending_base. Qed.
Global Instance f_alice_base_ok : FieldOk f_alice_base TState TPublicKey.
Proof. state_field_ok f_alice_base. Qed.

Global Instance f_local_identity_free : FieldFree f_local_identity TPublicKey.
Proof. state_field_free f_local_identity. Qed.
Global Instance f_remote_identity_free : FieldFree f_remote_identity TPublicKey.
Proof. state_field_free f_remote_identity. Qed.
Global Instance f_root_key_free : FieldFree f_root_key TRootKey.
Proof. state_field_free f_root_key. Qed.
Global Instance f_sender_pair_free : FieldFree f_sender_pair TKeyPair.
Proof. state_field_free f_sender_pair. Qed.
Global Instance f_sender_chain_key_free : FieldFree f_sender_chain_key TChainKey.
Proof. state_field_free f_sender_chain_key. Qed.
Global Instance f_alice_base_free : FieldFree f_alice_base TPublicKey.
Proof. state_field_free f_alice_base. Qed.

Global Instance f_record_state_ok : FieldOk f_record_state TRecord TState.
Proof.
  split; [done|done|..].
  - by intros [] ? ?; simplify_eq.
  - by intros [] ? ? ?; simplify_eq.
  - by intros [] ? ? ?; simplify_eq.
  - intros k [] p q E; cbn in E; simplify_eq.
    cbn [f_record_state f_sender_state_chain_key field_set owns app].
    rewrite !occ_handles_cons. lia.
  - intros h [] p E [Ho _]; cbn in E; simplify_eq. by apply Forall_cons in Ho as [? _].
  - intros h [] p E [Ho Hf]; cbn in E; simplify_eq. apply Forall_cons in Ho as [_ Ho].
    split; [|done]. by apply Forall_cons.
Qed.
Global Instance f_record_state_free : FieldFree f_record_state TState.
Proof.
  intros h [] p q E [Ho Hf] Hq; cbn in E; simplify_eq. apply Forall_cons in Ho as [_ Ho].
  split; [|done]. by apply Forall_cons.
Qed.

Global Instance f_sender_state_chain_key_ok :
  FieldOk f_sender_state_chain_key TSenderState TSenderChainKey.
Proof.
  split; [done|done|..].
  - by intros [] ? ?; simplify_eq.
  - by intros [] ? ? ?; simplify_eq.
  - by intros [] ? ? ?; simplify_eq.
  - intros k [] p q E; cbn in E; simplify_eq.
    cbn [f_record_state f_sender_state_chain_key field_set owns app].
    rewrite !occ_handles_cons. lia.
  - intros h [] p E [Ho _]; cbn in E; simplify_eq. by apply Forall_cons in Ho as [? _].
  - intros h [] p E [Ho Hf]; cbn in E; simplify_eq. apply Forall_cons in Ho as [_ Ho].
    split; [|done]. by apply Forall_cons.
Qed.
Global Instance f_sender_state_chain_key_free : FieldFree f_sender_state_chain_key TSenderChainKey.
Proof.
  intros h [] p q E [Ho Hf] Hq; cbn in E; simplify_eq. apply Forall_cons in Ho as [_ Ho].
  split; [|done]. by apply Forall_cons.
Qed.

(** * Specifications

    [post b H R]: on success the caller also holds [R], on an error what it
    held before. *)
Definition post {A} (b : Z) (H : list handle) (R : A → list handle) : A + Z → mem → Prop :=
  λ r w, inv b (match r with inl a => R a ++ H | inr _ => H end) [] (w_user w).

(** What the objects that were there hold is unchanged. *)
Definition kept (h h' : heap) : Prop := ∀ j o, payload_at h j o → payload_at h' j o.

Lemma kept_refl h : kept h h.
Proof. by intros j o. Qed.

Lemma kept_trans h1 h2 h3 : kept h1 h2 → kept h2 h3 → kept h1 h3.
Proof. intros H1 H2 j o P. by apply H2, H1. Qed.

Lemma kept_cells h h' : (∀ j c, h !! j = Some c → h' !! j = Some c) → kept h h'.
Proof. intros Hc j o [n E]. exists n. by apply Hc. Qed.

Definition postk {A} (b : Z) (H : list handle) (R : A → list handle) (h : heap)
    : A + Z → mem → Prop :=
  λ r w, post b H R r w ∧ kept h (w_user w).

Lemma wp_create o b H D m h (Q : loc + Z → mem → Prop) :
  inv b H D h → obj_ok h o →
  (∀ m' l h', h !! l = None → h' !! l = Some (Obj 1 o) →
     (∀ j u, type_at h j = Some u → type_at h' j = Some u) →
     (∀ j c, h !! j = Some c → h' !! j = Some c) →
     inv b ((ty_of o, l) :: H) (handles (owns o) ++ D) h' → Q (inl l) (World m' h')) →
  Q (inr SG_ERR_NOMEM) (World m h) → wp (new_object o) (World m h) Q.
Proof.
  intros I Ho HS HN. eapply wp_new_object; [exact I|exact Ho| |exact HN].
  cbn [w_user]. intros m' l El I'.
  apply (HS m' l); [done|apply lookup_insert_eq| | |done].
  - intros j u. by apply type_at_fresh.
  - intros j c Ej. rewrite lookup_insert_ne; [done|]. congruence.
Qed.

Lemma wp_buffer b H D m h (Q : option loc + Z → mem → Prop) :
  inv b H D h →
  (∀ m' l h', h !! l = None →
     (∀ j u, type_at h j = Some u → type_at h' j = Some u) →
     (∀ j c, h !! j = Some c → h' !! j = Some c) →
     inv b ((TRaw, l) :: H) D h' → Q (inl (Some l)) (World m' h')) →
  Q (inl None) (World m h) → wp (new_cell Raw) (World m h) Q.
Proof.
  intros I HS HN. eapply wp_new_raw; [exact I| |exact HN].
  cbn [w_user]. intros m' l El I'. apply (HS m' l); [done| | |done].
  - intros j u. by apply type_at_fresh.
  - intros j c Ej. rewrite lookup_insert_ne; [done|]. congruence.
Qed.

Lemma count_le b H D h k t : inv b H D h → type_at h k = Some t → count h k <= b.
Proof.
  intros I T. unfold type_at in T. unfold count. pose proof (inv_bound _ _ _ _ I).
  destruct (h !! k) as [[|n o]|] eqn:E; [|..|done]; cbn; [lia|].
  apply (inv_obj _ _ _ _ I) in E as [_ ?]. lia.
Qed.

(** Counting one more reference keeps types, payloads and the other counts. *)
Lemma wp_ref_at b b' H t k D m h (Q : unit + Z → mem → Prop) :
  inv b H ((t, k) :: D) h → type_at h k = Some t → t ≠ TRaw →
  b <= b' < 2 ^ 32 → count h k + 1 <= b' →
  (∀ h', (∀ j, type_at h' j = type_at h j) →
     (∀ j o, payload_at h j o → payload_at h' j o) →
     (∀ j, count h' j = count h j + (if decide (j = k) then 1 else 0)) →
     inv b' H D h' → Q (inl tt) (World m h')) →
  wp (SIGNAL_REF (Loc k)) (World m h) Q.
Proof.
  intros I T Ht Hb Hc HQ. eapply wp_ref; [exact I|exact T|exact Ht|exact Hb|exact Hc|].
  cbn [w_user w_mem]. intros n o E I'. apply HQ; [| | |done].
  - intros j. apply type_at_insert. unfold type_at. by rewrite E.
  - intros j x [m' Ej]. destruct (decide (k = j)) as [->|].
    + rewrite E in Ej. simplify_eq. eexists. apply lookup_insert_eq.
    + exists m'. by rewrite lookup_insert_ne.
  - intros j. unfold count. case_decide as Ej.
    + subst. by rewrite lookup_insert_eq, E.
    + rewrite lookup_insert_ne by done. lia.
Qed.

Lemma wp_ref_next b H t k D m h (Q : unit + Z → mem → Prop) :
  inv b H ((t, k) :: D) h → type_at h k = Some t → t ≠ TRaw → b + 1 < 2 ^ 32 →
  (∀ h', (∀ j, type_at h' j = type_at h j) →
     (∀ j o, payload_at h j o → payload_at h' j o) →
     inv (b + 1) H D h' → Q (inl tt) (World m h')) →
  wp (SIGNAL_REF (Loc k)) (World m h) Q.
Proof.
  intros I T Ht Hb HQ. pose proof (count_le _ _ _ _ _ _ I T).
  eapply (wp_ref_at b (b + 1)); [exact I|exact T|exact Ht|lia|lia|]. auto.
Qed.

Lemma ptr_ok_eq h h' t p : (∀ j, type_at h' j = type_at h j) → ptr_ok h t p → ptr_ok h' t p.
Proof. intros E. apply ptr_ok_mono. intros k u. by rewrite E. Qed.

(** ** Automation

    [T : type_at h k = Some t] hypotheses follow the heap. *)
Ltac move_types E :=
  repeat match goal with
  | T : type_at ?h _ = Some _ |- _ =>
      match type of E with
      | ∀ j, type_at _ j = type_at h j => rewrite <- E in T
      | ∀ j u, type_at h j = Some u → _ => apply E in T
      end
  | T : ptr_ok ?h _ _ |- _ =>
      match type of E with
      | ∀ j, type_at _ j = type_at h j => apply (ptr_ok_eq _ _ _ _ E) in T
      | ∀ j u, type_at h j = Some u → _ => apply (ptr_ok_mono _ _ _ _ E) in T
      end
  end.

Ltac ref_step :=
  apply wp_bind; eapply wp_ref_next; [eassumption|eassumption|done|lia|];
  let h := fresh "h" in let Ht := fresh "Ht" in let Hp := fresh "Hp" in let I := fresh "I" in
  intros h Ht Hp I; move_types Ht; cbv beta iota.

Ltac create_step :=
  apply wp_bind; eapply wp_create;
  [ eassumption
  | split; [repeat (constructor; try done)|first [done|constructor]]
  | let m := fresh "m" in let l := fresh "l" in let h := fresh "h" in
    let E := fresh "E" in let El := fresh "El" in let Ht := fresh "Ht" in
    let Hc := fresh "Hc" in let I := fresh "I" in
    intros m l h E El Ht Hc I; move_types Ht; cbv beta iota;
    cbn [ty_of owns node_fields handles ptr_handles mbind list_bind app] in I;
    rewrite <- ?app_assoc in I; cbn [app] in I
  | cbv beta iota ].

(** The invariant at hand, with a larger bound. *)
Ltac finish_post :=
  try apply wp_ret; try apply wp_fail; unfold post; cbn [w_user app];
  match goal with
  | I : inv _ ?H [] ?h |- inv _ ?H [] ?h =>
      eapply inv_weaken; [|exact I]; pose proof (inv_bound _ _ _ _ I); lia
  end.

Lemma type_live h j t : type_at h j = Some t → is_Some (h !! j).
Proof. unfold type_at. by destruct (h !! j). Qed.

Lemma count_mono h h' j : (∀ k c, h !! k = Some c → h' !! k = Some c) →
  is_Some (h !! j) → count h' j = count h j.
Proof. intros Hc [c E]. unfold count. by rewrite (Hc _ _ E), E. Qed.

(** A pair of keys, with the counts of the keys explicit. *)
Lemma pair_refs_spec b b' H m h pub priv (l : loc) t :
  inv b ((t, l) :: H) [(TPublicKey, pub); (TPrivateKey, priv)] h → b <= b' < 2 ^ 32 →
  type_at h pub = Some TPublicKey → type_at h priv = Some TPrivateKey →
  count h pub + 1 <= b' → count h priv + 1 <= b' →
  wp (let* _ := SIGNAL_REF (Loc pub) in let* _ := SIGNAL_REF (Loc priv) in ret l) (World m h)
    (postk b' H (λ l, [(t, l)]) h).
Proof.
  intros I Hb T1 T2 C1 C2. apply wp_bind.
  eapply (wp_ref_at b b'); [exact I|exact T1|done|done|done|].
  intros h1 Ht K1 Hc I1. move_types Ht. apply wp_bind.
  eapply (wp_ref_at b' b'); [exact I1|exact T2|done|lia| |].
  - rewrite Hc. case_decide; [|lia]. subst. congruence.
  - intros h2 _ K2 _ I2. apply wp_ret. split; [finish_post|by eapply kept_trans].
Qed.

Lemma ec_key_pair_create_spec b b' H m h pub priv :
  inv b H [] h → b <= b' < 2 ^ 32 →
  type_at h pub = Some TPublicKey → type_at h priv = Some TPrivateKey →
  count h pub + 1 <= b' → count h priv + 1 <= b' →
  wp (ec_key_pair_create (Loc pub) (Loc priv)) (World m h) (postk b' H (λ l, [(TKeyPair, l)]) h).
Proof.
  intros I Hb T1 T2 C1 C2. pose proof (type_live _ _ _ T1) as L1.
  pose proof (type_live _ _ _ T2) as L2. create_step; [|split; [finish_post|apply kept_refl]].
  eapply wp_mono; [eapply pair_refs_spec; [exact I0|done|done|done|..]; by rewrite (count_mono h h0)|].
  intros r w [Hp Hk]. split; [done|]. eapply kept_trans; [by apply kept_cells|done].
Qed.

Lemma ratchet_identity_key_pair_create_spec b b' H m h pub priv :
  inv b H [] h → b <= b' < 2 ^ 32 →
  type_at h pub = Some TPublicKey → type_at h priv = Some TPrivateKey →
  count h pub + 1 <= b' → count h priv + 1 <= b' →
  wp (ratchet_identity_key_pair_create (Loc pub) (Loc priv)) (World m h)
    (postk b' H (λ l, [(TIdentityKeyPair, l)]) h).
Proof.
  intros I Hb T1 T2 C1 C2. pose proof (type_live _ _ _ T1) as L1.
  pose proof (type_live _ _ _ T2) as L2. create_step; [|split; [finish_post|apply kept_refl]].
  eapply wp_mono; [eapply pair_refs_spec; [exact I0|done|done|done|..]; by rewrite (count_mono h h0)|].
  intros r w [Hp Hk]. split; [done|]. eapply kept_trans; [by apply kept_cells|done].
Qed.

Lemma symmetric_parameters_spec b H m h a b1 c d e f :
  inv b H [] h → b + 8 < 2 ^ 32 → type_at h a = Some TIdentityKeyPair →
  type_at h b1 = Some TKeyPair → type_at h c = Some TKeyPair → type_at h d = Some TPublicKey →
  type_at h e = Some TPublicKey → type_at h f = Some TPublicKey →
  wp (symmetric_signal_protocol_parameters_create (Loc a) (Loc b1) (Loc c) (Loc d) (Loc e) (Loc f))
    (World m h) (post (b + 8) H (λ l, [(TSymmetric, l)])).
Proof.
  intros I Hb T1 T2 T3 T4 T5 T6. apply wp_bind. unfold require_ptrs.
  rewrite bool_decide_false by set_solver. create_step; [|finish_post].
  do 6 ref_step. finish_post.
Qed.

Ltac require_step :=
  apply wp_bind; unfold require_ptrs; rewrite bool_decide_false by set_solver; apply wp_ret.

(** [SIGNAL_REF] of a pointer that may be null. *)
Lemma wp_ref_if b H t p D m h (Q : unit + Z → mem → Prop) :
  inv b H (ptr_handles t p ++ D) h → ptr_ok h t p → t ≠ TRaw → b + 1 < 2 ^ 32 →
  (∀ h', (∀ j, type_at h' j = type_at h j) →
     (∀ j o, payload_at h j o → payload_at h' j o) →
     inv (b + 1) H D h' → Q (inl tt) (World m h')) →
  wp (ref_if p) (World m h) Q.
Proof.
  intros I T Ht Hb HQ. unfold ref_if. destruct p as [|k|]; [| |done]; cbn [ptr_handles app] in I.
  - rewrite bool_decide_true by done. apply wp_ret, HQ; [done|done|].
    eapply inv_weaken; [|exact I]. lia.
  - rewrite bool_decide_false by done. by eapply wp_ref_next.
Qed.

Ltac ref_if_step :=
  apply wp_bind; eapply wp_ref_if; [eassumption|eassumption|done|lia|];
  let h := fresh "h" in let Ht := fresh "Ht" in let Hp := fresh "Hp" in let I := fresh "I" in
  intros h Ht Hp I; move_types Ht; cbv beta iota.

Lemma post_weaken {A} b b' H (R : A → list handle) r w :
  b <= b' < 2 ^ 32 → post b H R r w → post b' H R r w.
Proof. intros Hb. by apply inv_weaken. Qed.

Lemma alice_parameters_spec b H m h a b1 c d e f :
  inv b H [] h → b + 8 < 2 ^ 32 → type_at h a = Some TIdentityKeyPair →
  type_at h b1 = Some TKeyPair → type_at h c = Some TPublicKey → type_at h d = Some TPublicKey →
  ptr_ok h TPublicKey e → type_at h f = Some TPublicKey →
  wp (alice_signal_protocol_parameters_create (Loc a) (Loc b1) (Loc c) (Loc d) e (Loc f))
    (World m h) (post (b + 8) H (λ l, [(TAlice, l)])).
Proof.
  intros I Hb T1 T2 T3 T4 Te T5. require_step. create_step; [|finish_post].
  do 5 ref_step. ref_if_step. finish_post.
Qed.

Lemma bob_parameters_spec b H m h a b1 c d e f :
  inv b H [] h → b + 8 < 2 ^ 32 → type_at h a = Some TIdentityKeyPair →
  type_at h b1 = Some TKeyPair → ptr_ok h TKeyPair c → type_at h d = Some TKeyPair →
  type_at h e = Some TPublicKey → type_at h f = Some TPublicKey →
  wp (bob_signal_protocol_parameters_create (Loc a) (Loc b1) c (Loc d) (Loc e) (Loc f))
    (World m h) (post (b + 8) H (λ l, [(TBob, l)])).
Proof.
  intros I Hb T1 T2 Tc T3 T4 T5. require_step. create_step; [|finish_post].
  do 5 ref_step. ref_if_step. finish_post.
Qed.

Lemma sender_key_state_create_spec b H m h ck pub priv :
  inv b H [] h → b + 8 < 2 ^ 32 → type_at h ck = Some TSenderChainKey →
  type_at h pub = Some TPublicKey → ptr_ok h TPrivateKey priv →
  wp (sender_key_state_create (Loc ck) (Loc pub) priv) (World m h)
    (post (b + 8) H (λ l, [(TSenderState, l)])).
Proof.
  intros I Hb T1 T2 Tp. require_step. create_step; [|finish_post].
  do 2 ref_step. ref_if_step. finish_post.
Qed.

Lemma session_pre_key_create_spec b H m h kp :
  inv b H [] h → b + 8 < 2 ^ 32 → type_at h kp = Some TKeyPair →
  wp (session_pre_key_create (Loc kp)) (World m h) (post (b + 8) H (λ l, [(TPreKey, l)])).
Proof.
  intros I Hb T. apply wp_bind, wp_ret. create_step; [|finish_post]. ref_step. finish_post.
Qed.

Lemma session_signed_pre_key_create_spec b H m h kp len :
  inv b H [] h → b + 8 < 2 ^ 32 → type_at h kp = Some TKeyPair → 0 < len →
  wp (session_signed_pre_key_create (Loc kp) len) (World m h)
    (post (b + 8) H (λ l, [(TSignedPreKey, l)])).
Proof.
  intros I Hb T Hl. apply wp_bind, wp_ret. rewrite bool_decide_false by lia.
  case_bool_decide; [finish_post|]. create_step; [|finish_post]. ref_step. finish_post.
Qed.

(** ** Objects without references *)

Lemma wp_leaf o b H m h : inv b H [] h → obj_ok h o → handles (owns o) = [] →
  wp (new_object o) (World m h) (post b H (λ l, [(ty_of o, l)])).
Proof.
  intros I Ho E. eapply wp_create; [exact I|exact Ho| |exact I].
  intros m' l h' _ _ _ _ I'. by rewrite E in I'.
Qed.

Lemma session_state_create_spec b H m h : inv b H [] h →
  wp session_state_create (World m h) (post b H (λ l, [(TState, l)])).
Proof.
  intros I. apply (wp_leaf (SessionState empty_state)); [done| |done].
  apply obj_ok_state. cbn. split_and!; try done. constructor.
Qed.

Lemma sender_key_record_create_spec b H m h : inv b H [] h →
  wp sender_key_record_create (World m h) (post b H (λ l, [(TSenderRecord, l)])).
Proof. intros I. apply (wp_leaf (SenderKeyRecord [])); [done|split; [constructor|done]|done]. Qed.

Lemma curve_decode_point_spec data b H m h : inv b H [] h →
  wp (curve_decode_point data) (World m h) (post b H (λ l, [(TPublicKey, l)])).
Proof.
  intros I. unfold curve_decode_point. destruct (_ && _); [finish_post|].
  case_bool_decide; [|finish_post].
  apply (wp_leaf (EcPublicKey _)); [done|split; [constructor|done]|done].
Qed.

Lemma curve_decode_private_point_spec data b H m h : inv b H [] h →
  wp (curve_decode_private_point data) (World m h) (post b H (λ l, [(TPrivateKey, l)])).
Proof.
  intros I. unfold curve_decode_private_point. case_bool_decide; [|finish_post].
  apply (wp_leaf EcPrivateKey); [done|split; [constructor|done]|done].
Qed.

(** [hkdf_create] for the two versions there are. *)
Lemma hkdf_create_spec v b H m h : v = 2 ∨ v = 3 → inv b H [] h →
  wp (hkdf_create v) (World m h)
    (λ r w, ∃ p code, r = inl (p, code) ∧ inv b (ptr_handles THkdf p ++ H) [] (w_user w) ∧
       kept h (w_user w) ∧
       ((code = None ∧ ∃ k, p = Loc k ∧ w_user w !! k = Some (Obj 1 HkdfContext)) ∨
        (code = Some SG_ERR_NOMEM ∧ p = Null))).
Proof.
  intros Hv I. apply wp_bind, wp_new_cell.
  - cbn [w_user]. intros m' l E.
    assert (bool_decide (v = 2) || bool_decide (v = 3) = true) as ->
      by (destruct Hv as [->| ->]; done).
    apply wp_ret. exists (Loc l), None. split; [done|].
    pose proof (inv_new b H [] h l HkdfContext I E) as I'. split_and!.
    + apply I'. split; [constructor|done].
    + apply kept_cells. intros j c Ej. cbn [w_user]. rewrite lookup_insert_ne; [done|congruence].
    + left. split; [done|]. exists l. split; [done|]. apply lookup_insert_eq.
  - apply wp_ret. exists Null, (Some SG_ERR_NOMEM). by split_and!; [done|done|apply kept_refl|right].
Qed.

(** ** An object, then its buffer

    The object is allocated with an unset field [ow], the buffer is allocated
    and its pointer, null or not, is stored. *)
Lemma wp_create_fill ow (mk : ptr → object) b H m h (K : loc → ptr → M mem loc)
    (Q : loc + Z → mem → Prop) :
  inv b H [] h → (∀ h' p, ptr_ok h' TRaw p →
    (∀ j u, type_at h j = Some u → type_at h' j = Some u) → obj_ok h' (mk p)) →
  (∀ m' l k h', (∀ j c, h !! j = Some c → h' !! j = Some c) →
     inv b ((ty_of (mk (Loc k)), l) :: (TRaw, k) :: H) (handles (owns (mk (Loc k)))) h' →
     wp (K l (Loc k)) (World m' h') Q) →
  (∀ m' l h', h !! l = None → h' = <[l := Obj 1 (mk Null)]> h →
     inv b ((ty_of (mk Null), l) :: H) (handles (owns (mk Null))) h' →
     wp (K l Null) (World m' h') Q) →
  Q (inr SG_ERR_NOMEM) (World m h) →
  wp (let* result := new_object ow in
      let* key := new_buffer in
      let* _ := store result (mk key) in
      K result key) (World m h) Q.
Proof.
  intros I Hok HS HN HF. do 2 apply wp_bind. apply wp_new_cell; [|exact HF].
  cbn [w_user]. intros m1 l El. apply wp_ret. do 2 apply wp_bind.
  apply wp_new_cell; cbn [w_user].
  - intros m2 k Ek. apply lookup_insert_None in Ek as [Ek Hne].
    apply wp_ret. apply wp_bind. unfold wp at 1, store. cbn [w_user w_mem of_loc from_option].
    rewrite lookup_insert_ne, lookup_insert_eq by done.
    rewrite (insert_insert_ne h k l), insert_insert_eq by done.
    assert (<[k := Raw]> h !! l = None) as El' by (by rewrite lookup_insert_ne).
    pose proof (inv_new_raw b H [] h k I Ek) as I1.
    apply HS.
    + intros j c Ej. rewrite !lookup_insert_ne; [done|congruence|congruence].
    + rewrite <- (app_nil_r (handles _)). apply (inv_new b _ [] _ l _ I1 El').
      apply Hok; [|intros; by apply type_at_fresh]. unfold ptr_ok, type_at.
      by rewrite lookup_insert_eq.
  - apply wp_ret. apply wp_bind. unfold wp at 1, store. cbn [w_user w_mem of_loc from_option].
    rewrite lookup_insert_eq, insert_insert_eq. apply HN; [done|done|].
    rewrite <- (app_nil_r (handles _)). apply (inv_new b _ [] _ l _ I El). by apply Hok.
Qed.

(** [free] of an object nobody else holds yet, before its references are
    counted. *)
Lemma wp_free_new b H l o w (Q : unit + Z → mem → Prop) :
  inv b ((ty_of o, l) :: H) (handles (owns o)) (w_user w) →
  w_user w !! l = Some (Obj 1 o) → occ l (handles (owns o)) = 0 →
  (inv b H [] (delete l (w_user w)) → Q (inl tt) (World (w_mem w) (delete l (w_user w)))) →
  wp (mem_free (Loc l)) w Q.
Proof.
  intros I E Ho HQ. eapply heap_op_wp; [cbn; by rewrite E|]. apply HQ.
  eapply (inv_delete b H [] _ l _ (Obj 1 o)); rewrite ?app_nil_r; done.
Qed.

Lemma kdf_key_spec (mk : ptr → ptr → object) t b b' H m h kdf (set : bool) :
  (∀ p q, ty_of (mk p q) = t) → (∀ p q, owns (mk p q) = [(THkdf, p); (TRaw, q)]) →
  (∀ p q, flags_ok (mk p q)) →
  inv b H [] h → b <= b' < 2 ^ 32 → type_at h kdf = Some THkdf → count h kdf + 1 <= b' →
  wp (if bool_decide (Loc kdf = Null) || negb set then fail SG_ERR_INVAL else
      let* result := new_object (mk (Loc kdf) Wild) in
      let* key := new_buffer in
      let* _ := store result (mk (Loc kdf) key) in
      if bool_decide (key = Null)
      then let* _ := mem_free (Loc result) in fail SG_ERR_NOMEM
      else let* _ := SIGNAL_REF (Loc kdf) in ret result) (World m h)
    (postk b' H (λ l, [(t, l)]) h).
Proof.
  intros Hty Hown Hfl I Hb T C. pose proof (type_live _ _ _ T) as L. cbn.
  destruct set; cbn [negb]; [|apply wp_fail; split; [finish_post|apply kept_refl]].
  apply (wp_create_fill _ (mk (Loc kdf)) b H); [done|..].
  - intros h' p Hp HT. split; [|done]. rewrite Hown.
    constructor; [by apply HT|]. constructor; [done|]. constructor.
  - intros m' l k h' Hc I'. rewrite Hty, Hown in I'. rewrite bool_decide_false by done.
    apply wp_bind. eapply (wp_ref_at b b' ((t, l) :: H) THkdf kdf []); [| |done|done| |].
    + eapply inv_equiv; [exact I'|intros j; cbn; lia|].
      intros x. rewrite !elem_of_cons. tauto.
    + destruct L as [c Ec]. unfold type_at in *. rewrite (Hc _ _ Ec), <- T. by rewrite Ec.
    + by rewrite (count_mono h h').
    + intros h2 _ K2 _ I2. apply wp_ret. split; [exact I2|].
      eapply kept_trans; [by apply kept_cells|done].
  - intros m' l h' El -> I'. rewrite bool_decide_true by done. apply wp_bind.
    rewrite Hown in I'. rewrite <- (Hown (Loc kdf) Null) in I'.
    eapply wp_free_new; [exact I'|apply lookup_insert_eq| |].
    + rewrite Hown. cbn. rewrite decide_False; [done|]. intros ->. destruct L as [c Ec]. congruence.
    + intros I2. apply wp_fail. split; [finish_post|]. apply kept_cells. cbn [w_user].
      intros j c Ej. rewrite delete_insert_id by done. done.
  - split; [finish_post|apply kept_refl].
Qed.

Lemma ratchet_chain_key_create_spec b b' H m h kdf set :
  inv b H [] h → b <= b' < 2 ^ 32 → type_at h kdf = Some THkdf → count h kdf + 1 <= b' →
  wp (ratchet_chain_key_create (Loc kdf) set) (World m h)
    (postk b' H (λ l, [(TChainKey, l)]) h).
Proof. by apply (kdf_key_spec RatchetChainKey TChainKey). Qed.

Lemma ratchet_root_key_create_spec b b' H m h kdf set :
  inv b H [] h → b <= b' < 2 ^ 32 → type_at h kdf = Some THkdf → count h kdf + 1 <= b' →
  wp (ratchet_root_key_create (Loc kdf) set) (World m h)
    (postk b' H (λ l, [(TRootKey, l)]) h).
Proof. by apply (kdf_key_spec RatchetRootKey TRootKey). Qed.

Lemma sender_chain_key_create_spec b H m h set : inv b H [] h →
  wp (sender_chain_key_create set) (World m h) (post b H (λ l, [(TSenderChainKey, l)])).
Proof.
  intros I. unfold sender_chain_key_create. destruct set; cbn [negb]; [|finish_post].
  apply (wp_create_fill _ SenderChainKey b H); [done|..].
  - intros h' p Hp _. split; [|done]. by repeat constructor.
  - intros m' l k h' _ I'. rewrite bool_decide_false by done. apply wp_ret.
    unfold post. eapply inv_equiv; [exact I'|intros j; cbn; lia|].
    intros x. cbn. rewrite !elem_of_cons. tauto.
  - intros m' l h' _ _ I'. rewrite bool_decide_true by done. apply wp_bind.
    eapply wp_unref; [exact I'|done|]. intros h2 I2 _. finish_post.
  - finish_post.
Qed.

(** ** Buffers filled one by one *)

(** [set] writes one buffer field that is null. *)
Definition fills (set : ptr → object → object) (o : object) : Prop :=
  ∀ p, ty_of (set p o) = ty_of o ∧ flags_ok (set p o) ∧
    (∀ h, obj_ok h o → ptr_ok h TRaw p → obj_ok h (set p o)) ∧
    (∀ k, occ k (handles (owns (set p o))) = occ k (handles (owns o)) + pocc k TRaw p).

Fixpoint fills_all (sets : list (ptr → object → object)) (o : object) : Prop :=
  match sets with
  | [] => True
  | set :: sets => fills set o ∧ ∀ k, fills_all sets (set (Loc k) o)
  end.

Lemma fill_buffers_spec t b H sets x o m h : t ≠ TRaw →
  inv b ((t, x) :: H) [] h → payload_at h x o → fills_all sets o →
  wp (fill_buffers x sets) (World m h) (post b H (λ l, [(t, l)])).
Proof.
  intros Ht. revert o m h. induction sets as [|set sets IH]; intros o m h I P Hf; [by apply wp_ret|].
  destruct Hf as [Hf Hr]. cbn [fill_buffers]. apply wp_bind.
  assert (∀ m' p h', inv b ((t, x) :: ptr_handles TRaw p ++ H) [] h' → p ≠ Wild →
    payload_at h' x o →
    wp (let* o := load x in let* _ := store x (set p o) in
        if bool_decide (p = Null) then let* _ := SIGNAL_UNREF (Loc x) in fail SG_ERR_NOMEM
        else fill_buffers x sets) (World m' h') (post b H (λ l, [(t, l)]))) as Hstep.
  { intros m' p h' I' Hp P'. destruct (Hf p) as (Hty & Hfl & Hok & Hocc).
    apply wp_bind. eapply wp_load; [exact P'|]. apply wp_bind.
    eapply (wp_store b _ [] ((t, x) :: H) []); [exact I'|exact P'|done| | | |].
    - apply Hok; [by eapply payload_ok|]. destruct p as [|k|]; [done| |done].
      apply (inv_handle _ _ _ _ I'). right. left.
    - intros k. rewrite Hocc. cbn. rewrite occ_app. lia.
    - intros u k Hk. apply (inv_handle _ _ _ _ I'). set_solver.
    - cbn [w_user w_mem]. intros n En I2. case_bool_decide.
      + apply wp_bind. eapply wp_unref; [exact I2|done|]. intros h2 I3 _. finish_post.
      + destruct p as [|k|]; [done| |done]. eapply IH; [exact I2| |apply Hr].
        exists n. apply lookup_insert_eq. }
  apply wp_bind. eapply wp_buffer; [exact I| |].
  - intros m' k h' _ _ Hc I'. apply wp_ret. apply Hstep; [|done|].
    + eapply inv_perm; [|exact I']. apply Permutation_swap.
    + destruct P as [n P]. exists n. by apply Hc.
  - apply wp_ret. by apply Hstep.
Qed.

Ltac solve_fills :=
  cbn [fills_all set_displayable set_scannable set_signature];
  repeat match goal with
  | |- _ ∧ _ => split
  | |- fills _ _ => intros ?
  | |- ∀ _, _ => intros ?
  end; cbn [set_displayable set_scannable set_signature]; try done;
  [ .. ];
  lazymatch goal with
  | H : obj_ok _ _ |- obj_ok _ _ =>
      destruct H as [H _]; cbn [owns] in H; split; [|done]; cbn [owns];
      rewrite ?Forall_cons in *; cbn in *; tauto
  | |- occ _ _ = _ =>
      cbn [owns]; rewrite ?occ_handles_cons; cbn [ptr_handles occ]; lia
  end.

Lemma displayable_fingerprint_create_spec b H m h l r : inv b H [] h →
  wp (displayable_fingerprint_create l r) (World m h) (post b H (λ x, [(TDisplayable, x)])).
Proof.
  intros I. unfold displayable_fingerprint_create. destruct (_ || _); [finish_post|].
  create_step; [|finish_post].
  eapply fill_buffers_spec; [done|exact I0|by exists 1|]. solve_fills.
Qed.

Lemma scannable_fingerprint_create_spec b H m h v a1 a2 a3 a4 : inv b H [] h →
  wp (scannable_fingerprint_create v a1 a2 a3 a4) (World m h) (post b H (λ x, [(TScannable, x)])).
Proof.
  intros I. unfold scannable_fingerprint_create. destruct (_ && _); [finish_post|].
  destruct (_ || _); [finish_post|]. create_step; [|finish_post].
  case_bool_decide; (eapply fill_buffers_spec; [done|exact I0|by exists 1|]); solve_fills.
Qed.

Lemma device_consistency_signature_create_spec b H m h : inv b H [] h →
  wp device_consistency_signature_create (World m h) (post b H (λ x, [(TSignature, x)])).
Proof.
  intros I. create_step; [|finish_post].
  eapply fill_buffers_spec; [done|exact I0|by exists 1|]. solve_fills.
Qed.

Lemma fingerprint_create_spec b H m h d s :
  inv b H [] h → b + 8 < 2 ^ 32 → ptr_ok h TDisplayable d → ptr_ok h TScannable s →
  wp (fingerprint_create d s) (World m h) (post (b + 8) H (λ x, [(TFingerprint, x)])).
Proof.
  intros I Hb Td Ts. create_step; [|finish_post].
  ref_if_step. ref_if_step. finish_post.
Qed.

(** Counting a reference and storing it in a field of an object that is held. *)
Lemma wp_ref_store {A} b H t p l o o' m h (K : M mem A) (Q : A + Z → mem → Prop) :
  inv b H [] h → b + 1 < 2 ^ 32 → t ≠ TRaw → ptr_ok h t p → payload_at h l o →
  ty_of o' = ty_of o → (∀ h', obj_ok h' o → ptr_ok h' t p → obj_ok h' o') →
  (∀ k, occ k (handles (owns o')) = occ k (handles (owns o)) + pocc k t p) →
  (∀ h', (∀ j, type_at h' j = type_at h j) → payload_at h' l o' →
     inv (b + 1) H [] h' → wp K (World m h') Q) →
  wp (let* _ := ref_if p in let* _ := store l o' in K) (World m h) Q.
Proof.
  intros I Hb Ht Tp P Hty Hok Hocc HK. apply wp_bind.
  eapply (wp_ref_if b (ptr_handles t p ++ H) t p []); [|done|done|done|].
  - pose proof I as [B C O T]. split; [done| |done|].
    + intros k. specialize (C k). rewrite !occ_app. cbn in *. lia.
    + intros u k. rewrite elem_of_app. intros [Hk|Hk]; [|by apply T].
      destruct p as [|k'|]; cbn in Hk; try by apply not_elem_of_nil in Hk.
      apply list_elem_of_singleton in Hk. by simplify_eq.
  - intros h' Ht' Hp' I'. apply wp_bind. move_types Ht'.
    eapply (wp_store (b + 1) _ [] H []); [exact I'|by apply Hp'|done| | | |].
    + apply Hok; [|done]. by eapply payload_ok, Hp'.
    + intros k. rewrite Hocc, occ_app. cbn. lia.
    + intros u k Hk. apply (inv_handle _ _ _ _ I'). apply elem_of_app. by right.
    + cbn [w_user w_mem]. intros n En I2. apply HK; [| |done].
      * intros j. rewrite <- Ht'. apply type_at_insert. unfold type_at. rewrite En. cbn. congruence.
      * exists n. apply lookup_insert_eq.
Qed.

Ltac bundle_ref T :=
  eapply (wp_ref_store _ _ TPublicKey);
  [eassumption|lia|done|exact T|eassumption|done| | |];
  [ intros ? [Ho _] ?; split; [|done]; cbn [owns] in *; rewrite ?Forall_cons in *; cbn in *; tauto
  | intros; cbn [owns]; rewrite ?occ_handles_cons; cbn [ptr_handles occ]; lia
  | let h := fresh "h" in let Ht := fresh "Ht" in intros h Ht ? ?; move_types Ht ].

Lemma session_pre_key_bundle_create_spec b H m h pre spk (sig : bool) idk :
  inv b H [] h → b + 8 < 2 ^ 32 → ptr_ok h TPublicKey pre → ptr_ok h TPublicKey spk →
  ptr_ok h TPublicKey idk →
  wp (session_pre_key_bundle_create pre spk sig idk) (World m h)
    (post (b + 8) H (λ l, [(TBundle, l)])).
Proof.
  intros I Hb T1 T2 T3. create_step; [|finish_post].
  assert (payload_at h0 l (SessionPreKeyBundle Null Null Null Null)) as P by (by exists 1).
  bundle_ref T1. bundle_ref T2. apply wp_bind.
  assert (∀ m' p h', inv (b + 1 + 1) (ptr_handles TRaw p ++ (TBundle, l) :: H) [] h' → p ≠ Wild →
    ptr_ok h' TPublicKey idk → payload_at h' l (SessionPreKeyBundle pre spk Null Null) →
    wp (let* _ := store l (SessionPreKeyBundle pre spk p Null) in
        let* _ := ref_if idk in
        let* _ := store l (SessionPreKeyBundle pre spk p idk) in ret l) (World m' h')
      (post (b + 8) H (λ l, [(TBundle, l)]))) as Hrest.
  { intros m' p h' I' Hp Ti P'. apply wp_bind.
    eapply (wp_store _ _ [] ((TBundle, l) :: H) []); [exact I'|exact P'|done| | | |].
    - destruct (payload_ok _ _ _ _ _ _ I' P') as [Ho _]. split; [|done]. cbn [owns] in *.
      assert (ptr_ok h' TRaw p) by (destruct p; [done|apply (inv_handle _ _ _ _ I'); left|done]).
      rewrite ?Forall_cons in *; cbn in *; tauto.
    - intros k. cbn [owns]. rewrite ?occ_handles_cons, occ_app. cbn. lia.
    - intros u k Hk. apply (inv_handle _ _ _ _ I'). apply elem_of_app. by right.
    - cbn [w_user w_mem]. intros n En I2.
      assert (payload_at (<[l := Obj n (SessionPreKeyBundle pre spk p Null)]> h') l
        (SessionPreKeyBundle pre spk p Null)) as P2 by (exists n; apply lookup_insert_eq).
      assert (ptr_ok (<[l := Obj n (SessionPreKeyBundle pre spk p Null)]> h') TPublicKey idk) as Ti2.
      { eapply ptr_ok_mono; [|exact Ti]. intros j u Hj. rewrite type_at_insert; [done|].
        unfold type_at. by rewrite En. }
      bundle_ref Ti2. finish_post. }
  destruct sig.
  - apply wp_bind. eapply wp_buffer; [eassumption| |].
    + intros m' k h3 _ Ht3 Hc3 I3. apply wp_ret. move_types Ht3. apply Hrest; [done|done|done|].
      match goal with P : payload_at h2 l _ |- _ => destruct P as [n P]; exists n; by apply Hc3 end.
    + by apply wp_ret, Hrest.
  - by apply wp_ret, Hrest.
Qed.

(** ** Setters *)

Section SetState.
Context (f : field) (t : ty) `{!FieldOk f TState t} `{!FieldFree f t}.

Lemma replace_state_field_spec b H m h st k :
  (∀ s, is_Some (field_get f (SessionState s))) →
  inv b H [] h → b + 1 < 2 ^ 32 → (TState, st) ∈ H → (t, k) ∈ H →
  wp (replace_field st f (Loc k)) (World m h) (post (b + 1) H (λ _, [])).
Proof.
  intros Hf I Hb Hst Hk. destruct (handle_payload _ _ _ _ _ _ I Hst) as (o & P & Ho); [done|].
  destruct o; try done. destruct (Hf s) as [p E].
  eapply (wp_replace_field f TState t); [exact I|done|done|done|exact P|exact E|].
  intros h' I' _. exact I'.
Qed.
End SetState.

Ltac setter :=
  intros; apply wp_bind, wp_ret; eapply wp_mono;
  [eapply (replace_state_field_spec _ _); [by eexists|eassumption|lia|eassumption|eassumption]
  |intros ? ?; apply post_weaken;
   match goal with I : inv _ _ _ _ |- _ => pose proof (inv_bound _ _ _ _ I); lia end].

Lemma session_state_set_local_identity_key_spec b H m h st k :
  inv b H [] h → b + 8 < 2 ^ 32 → (TState, st) ∈ H → (TPublicKey, k) ∈ H →
  wp (session_state_set_local_identity_key st (Loc k)) (World m h) (post (b + 8) H (λ _, [])).
Proof. setter. Qed.

Lemma session_state_set_remote_identity_key_spec b H m h st k :
  inv b H [] h → b + 8 < 2 ^ 32 → (TState, st) ∈ H → (TPublicKey, k) ∈ H →
  wp (session_state_set_remote_identity_key st (Loc k)) (World m h) (post (b + 8) H (λ _, [])).
Proof. setter. Qed.

Lemma session_state_set_root_key_spec b H m h st k :
  inv b H [] h → b + 8 < 2 ^ 32 → (TState, st) ∈ H → (TRootKey, k) ∈ H →
  wp (session_state_set_root_key st (Loc k)) (World m h) (post (b + 8) H (λ _, [])).
Proof. setter. Qed.

Lemma session_state_set_alice_base_key_spec b H m h st k :
  inv b H [] h → b + 8 < 2 ^ 32 → (TState, st) ∈ H → (TPublicKey, k) ∈ H →
  wp (session_state_set_alice_base_key st (Loc k)) (World m h) (post (b + 8) H (λ _, [])).
Proof. setter. Qed.
