(* ===== verification/RefStateSpec.v ===== *)
(** The ownership of the operations on session states and session records
    (RefOps.v): setters that replace several fields, receiver chains with
    their skipped message keys, archived states. *)
From stdpp Require Import gmap.
From S2P Require Import Prelude RefCount RefCountInv RefOps RefRules RefOpsSpec.

Lemma state_payload b H D h st : inv b H D h → (TState, st) ∈ H →
  ∃ s, payload_at h st (SessionState s).
Proof.
  intros I Hin. destruct (handle_payload _ _ _ _ _ _ I Hin) as (o & P & Ho); [done|].
  destruct o; try done. by eexists.
Qed.

Lemma wp_load_state st s w (Q : state_fields + Z → mem → Prop) :
  payload_at (w_user w) st (SessionState s) → Q (inl s) w → wp (load_state st) w Q.
Proof. intros P HQ. apply wp_bind. by eapply wp_load. Qed.

(** Handles that move into a state as [f] is applied to it. *)
Lemma wp_update_state b R H st s f m h (Q : unit + Z → mem → Prop) :
  inv b (R ++ H) [] h → payload_at h st (SessionState s) →
  obj_ok h (SessionState (f s)) →
  (∀ k, occ k (handles (owns (SessionState (f s)))) =
        occ k (handles (owns (SessionState s))) + occ k R) →
  (∀ h', (∀ j, type_at h' j = type_at h j) → payload_at h' st (SessionState (f s)) →
     inv b H [] h' → Q (inl tt) (World m h')) →
  wp (update_state st f) (World m h) Q.
Proof.
  intros I P Ho Hocc HQ. apply wp_bind. eapply wp_load_state; [exact P|].
  eapply (wp_store b _ [] H []); [exact I|exact P|done|done| | |].
  - intros k. rewrite Hocc, occ_app. cbn. lia.
  - intros t k Hk. apply (inv_handle _ _ _ _ I), elem_of_app. by right.
  - cbn [w_user w_mem]. intros n En I'. apply HQ; [| |done].
    + intros j. apply type_at_insert. unfold type_at. by rewrite En.
    + exists n. apply lookup_insert_eq.
Qed.

Lemma session_state_set_sender_chain_spec b H m h st kp ck :
  inv b H [] h → b + 8 < 2 ^ 32 → (TState, st) ∈ H → (TKeyPair, kp) ∈ H → (TChainKey, ck) ∈ H →
  wp (session_state_set_sender_chain st (Loc kp) (Loc ck)) (World m h) (post (b + 8) H (λ _, [])).
Proof.
  intros I Hb Hst Hkp Hck. do 2 apply wp_bind, wp_ret.
  destruct (state_payload _ _ _ _ _ I Hst) as [s P].
  apply wp_bind. eapply (wp_update_state b []); [exact I|exact P| | |].
  - destruct s. pose proof (payload_ok _ _ _ _ _ _ I P) as Ho.
    rewrite obj_ok_state in *. cbn in *. tauto.
  - intros k. destruct s. rewrite !occ_state. cbn -[handles]. unfold receivers_own. cbn. lia.
  - intros h1 _ _ I1. apply wp_bind. eapply wp_mono.
    { eapply (replace_state_field_spec f_sender_pair TKeyPair); [by eexists|exact I1|lia|done|done]. }
    intros [[]|e] [m2 h2]; unfold post; cbn [w_user app]; intros I2.
    + eapply wp_mono.
      { eapply (replace_state_field_spec f_sender_chain_key TChainKey);
          [by eexists|exact I2|lia|done|done]. }
      intros r w. apply post_weaken. pose proof (inv_bound _ _ _ _ I2). lia.
    + finish_post.
Qed.

Lemma session_state_set_sender_chain_key_spec b H m h st ck :
  inv b H [] h → b + 8 < 2 ^ 32 → (TState, st) ∈ H → (TChainKey, ck) ∈ H →
  wp (session_state_set_sender_chain_key st (Loc ck)) (World m h) (post (b + 8) H (λ _, [])).
Proof.
  intros I Hb Hst Hck. destruct (state_payload _ _ _ _ _ I Hst) as [s P].
  apply wp_bind. eapply wp_load_state; [exact P|].
  destruct (sf_has_sender_chain s); [|finish_post]. eapply wp_mono.
  - eapply (replace_state_field_spec f_sender_chain_key TChainKey); [by eexists|exact I|lia|done|done].
  - intros r w. apply post_weaken. pose proof (inv_bound _ _ _ _ I). lia.
Qed.

(** A handle counted once more, to be moved into a field. *)
Lemma wp_ref_held b H t k m h (Q : unit + Z → mem → Prop) :
  inv b H [] h → b + 1 < 2 ^ 32 → t ≠ TRaw → (t, k) ∈ H →
  (∀ h', (∀ j, type_at h' j = type_at h j) →
     (∀ j o, payload_at h j o → payload_at h' j o) →
     inv (b + 1) ((t, k) :: H) [] h' → Q (inl tt) (World m h')) →
  wp (SIGNAL_REF (Loc k)) (World m h) Q.
Proof.
  intros I Hb Ht Hk HQ. eapply (wp_ref_next b ((t, k) :: H) t k []); [|by eapply inv_handle|done|done|done].
  eapply inv_equiv; [exact I|intros j; cbn; lia|]. intros x. rewrite elem_of_cons. by intros [->|?].
Qed.

Lemma session_state_set_pending_key_exchange_spec b H m h st base ratchet idk :
  inv b H [] h → b + 8 < 2 ^ 32 → (TState, st) ∈ H →
  (TKeyPair, base) ∈ H → (TKeyPair, ratchet) ∈ H → (TIdentityKeyPair, idk) ∈ H →
  wp (session_state_set_pending_key_exchange st (Loc base) (Loc ratchet) (Loc idk)) (World m h)
    (post (b + 8) H (λ _, [])).
Proof.
  intros I Hb Hst H1 H2 H3. do 3 apply wp_bind, wp_ret.
  destruct (state_payload _ _ _ _ _ I Hst) as [s P]. destruct s.
  apply wp_bind. eapply (wp_unref_field f_local_base TState TKeyPair); [exact I|done|exact P|done|].
  intros h1 I1 P1. apply wp_bind.
  eapply (wp_unref_field f_local_ratchet TState TKeyPair); [exact I1|done|exact P1|done|].
  intros h2 I2 P2. apply wp_bind.
  eapply (wp_unref_field f_local_identity_pair TState TIdentityKeyPair); [exact I2|done|exact P2|done|].
  intros h3 I3 P3. cbn in P3. apply wp_bind.
  eapply (wp_ref_held _ _ TKeyPair base); [exact I3|lia|done|exact H1|]. intros h4 _ Hp4 I4. apply wp_bind.
  eapply (wp_ref_held _ _ TKeyPair ratchet); [exact I4|lia|done|by right|]. intros h5 _ Hp5 I5. apply wp_bind.
  eapply (wp_ref_held _ _ TIdentityKeyPair idk); [exact I5|lia|done|right; by right|]. intros h6 _ Hp6 I6.
  apply Hp4, Hp5, Hp6 in P3.
  eapply (wp_update_state _ [(TIdentityKeyPair, idk); (TKeyPair, ratchet); (TKeyPair, base)]);
    [exact I6|exact P3| | |].
  - pose proof (payload_ok _ _ _ _ _ _ I6 P3) as Ho. rewrite obj_ok_state in *.
    pose proof (inv_handle _ _ _ _ I6) as T6. cbn in *.
    split_and!; try tauto; try (by intros); try (apply T6; rewrite !elem_of_cons; tauto).
  - intros k. rewrite !occ_state. cbn -[handles]. unfold receivers_own. cbn -[handles]. lia.
  - intros h7 _ _ I7. finish_post.
Qed.

Lemma session_state_set_unacknowledged_pre_key_message_spec b H m h st base :
  inv b H [] h → b + 8 < 2 ^ 32 → (TState, st) ∈ H → (TPublicKey, base) ∈ H →
  wp (session_state_set_unacknowledged_pre_key_message st (Loc base)) (World m h)
    (post (b + 8) H (λ _, [])).
Proof.
  intros I Hb Hst H1. apply wp_bind, wp_ret.
  destruct (state_payload _ _ _ _ _ I Hst) as [s P]. destruct s.
  apply wp_bind. eapply (wp_unref_field f_pending_base TState TPublicKey); [exact I|done|exact P|done|].
  intros h1 I1 P1. cbn in P1. apply wp_bind.
  eapply (wp_ref_held _ _ TPublicKey base); [exact I1|lia|done|exact H1|]. intros h2 _ Hp2 I2. apply Hp2 in P1.
  eapply (wp_update_state _ [(TPublicKey, base)]); [exact I2|exact P1| | |].
  - pose proof (payload_ok _ _ _ _ _ _ I2 P1) as Ho. rewrite obj_ok_state in *.
    pose proof (inv_handle _ _ _ _ I2) as T2. cbn in *.
    split_and!; try tauto; try (by intros); try (apply T2; rewrite !elem_of_cons; tauto).
  - intros k. rewrite !occ_state. cbn -[handles]. unfold receivers_own. cbn -[handles]. lia.
  - intros h3 _ _ I3. finish_post.
Qed.

Lemma session_state_clear_unacknowledged_pre_key_message_spec b H m h st :
  inv b H [] h → b + 8 < 2 ^ 32 → (TState, st) ∈ H →
  wp (session_state_clear_unacknowledged_pre_key_message st) (World m h)
    (post (b + 8) H (λ _, [])).
Proof.
  intros I Hb Hst. destruct (state_payload _ _ _ _ _ I Hst) as [s P]. destruct s.
  apply wp_bind. eapply (wp_unref_field f_pending_base TState TPublicKey); [exact I|done|exact P|done|].
  intros h1 I1 P1. cbn in P1.
  eapply (wp_update_state _ []); [exact I1|exact P1| | |].
  - pose proof (payload_ok _ _ _ _ _ _ I1 P1) as Ho. rewrite obj_ok_state in *. cbn in *. tauto.
  - intros k. rewrite !occ_state. cbn -[handles]. unfold receivers_own. cbn -[handles]. lia.
  - intros h3 _ _ I3. finish_post.
Qed.

(** ** Receiver chains *)

Lemma ptrs_ok_handles h fs t k : ptrs_ok h fs → (t, k) ∈ handles fs → type_at h k = Some t.
Proof.
  intros Hf Hk. apply elem_of_handles in Hk. unfold ptrs_ok in Hf. rewrite Forall_forall in Hf.
  exact (Hf _ Hk).
Qed.

Lemma ptrs_ok_set h fs : ptrs_ok h fs → set_ptrs fs.
Proof. intros Hf. eapply Forall_impl; [exact Hf|]. by intros [t [| |]]. Qed.

Lemma ec_public_key_equal_spec h m p q :
  ptr_ok h TPublicKey p → ptr_ok h TPublicKey q →
  wp (ec_public_key_equal p q) (World m h) (λ r w, w = World m h ∧ ∃ x, r = inl x).
Proof.
  intros Tp Tq. unfold ec_public_key_equal. case_bool_decide; [apply wp_ret; eauto|].
  assert (∀ l, type_at h l = Some TPublicKey → ∃ d, payload_at h l (EcPublicKey d)) as Hl.
  { intros l T. unfold type_at in T. destruct (h !! l) as [[|n o]|] eqn:E; try done.
    cbn in T. destruct o; try done. eexists. by exists n. }
  destruct p as [|lp|], q as [|lq|]; try done; try (apply wp_ret; by eauto).
  destruct (Hl _ Tp) as [dp Pp], (Hl _ Tq) as [dq Pq].
  apply wp_bind. eapply wp_load; [exact Pp|]. apply wp_bind. eapply wp_load; [exact Pq|].
  apply wp_ret. eauto.
Qed.

Lemma find_receiver_spec h m eph nodes : ptr_ok h TPublicKey eph →
  ptrs_ok h (nodes ≫= receiver_node_fields) →
  wp (find_receiver nodes eph) (World m h)
    (λ r w, w = World m h ∧ ∃ i, r = inl i ∧ ∀ j, i = Some j → (j < length nodes)%nat).
Proof.
  intros He. induction nodes as [|node nodes IH]; cbn [mbind list_bind find_receiver].
  - intros _. apply wp_ret. split; [done|]. by exists None.
  - intros Hn. apply Forall_app in Hn as [Hn Hr]. apply wp_bind. eapply wp_mono.
    { apply ec_public_key_equal_spec; [|exact He]. by apply Forall_cons in Hn as [? _]. }
    intros ? ? [-> [[] ->]].
    + apply wp_ret. split; [done|]. exists (Some O). split; [done|]. intros j [= <-]. cbn. lia.
    + apply wp_bind. eapply wp_mono; [by apply IH|]. intros ? ? [-> (i & -> & Hi)].
      apply wp_ret. split; [done|]. eexists. split; [done|]. intros j Hj.
      destruct i as [i|]; cbn in Hj; simplify_eq. specialize (Hi i eq_refl). cbn. lia.
Qed.

Lemma session_state_find_receiver_chain_spec b H D h m st s eph :
  inv b H D h → payload_at h st (SessionState s) → ptr_ok h TPublicKey eph →
  wp (session_state_find_receiver_chain st eph) (World m h)
    (λ r w, w = World m h ∧ ∃ i, r = inl i ∧
       ∀ j, i = Some j → (j < length (sf_receiver_chain s))%nat).
Proof.
  intros I P He. apply wp_bind. eapply wp_load_state; [exact P|].
  apply find_receiver_spec; [done|]. pose proof (payload_ok _ _ _ _ _ _ I P) as Ho.
  apply obj_ok_state in Ho. cbn in Ho. unfold receivers_own in Ho. tauto.
Qed.

(** Replacing the receiver chain by one that owns fewer or more references. *)
Lemma wp_store_chain b H H' st s nodes m h (Q : unit + Z → mem → Prop) :
  inv b H [] h → payload_at h st (SessionState s) → ptrs_ok h (nodes ≫= receiver_node_fields) →
  (∀ k, occ k H' + occ k (handles (nodes ≫= receiver_node_fields)) =
        occ k H + occ k (handles (receivers_own s))) →
  (∀ t k, (t, k) ∈ H' → type_at h k = Some t) →
  (∀ h', (∀ j, type_at h' j = type_at h j) →
     payload_at h' st (SessionState (set_receiver_chain nodes s)) →
     inv b H' [] h' → Q (inl tt) (World m h')) →
  wp (store st (SessionState (set_receiver_chain nodes s))) (World m h) Q.
Proof.
  intros I P Hn Hocc HT HQ.
  eapply (wp_store b _ [] H' []); [exact I|exact P|done| | |exact HT|].
  - pose proof (payload_ok _ _ _ _ _ _ I P) as Ho. destruct s. rewrite obj_ok_state in *.
    unfold receivers_own in *. cbn in *. tauto.
  - intros k. specialize (Hocc k). destruct s. rewrite !occ_state.
    unfold receivers_own in *. cbn -[handles occ] in *. cbn [occ]. lia.
  - cbn [w_user w_mem]. intros n En I'. apply HQ; [| |done].
    + intros j. apply type_at_insert. unfold type_at. by rewrite En.
    + exists n. apply lookup_insert_eq.
Qed.

Lemma state_chain_ok b H D h st s : inv b H D h → payload_at h st (SessionState s) →
  ptrs_ok h (sf_receiver_chain s ≫= receiver_node_fields).
Proof. intros I P. pose proof (payload_ok _ _ _ _ _ _ I P) as Ho. apply obj_ok_state in Ho. tauto. Qed.

Lemma evict_receivers_spec n b H st s m h :
  inv b H [] h → (TState, st) ∈ H → payload_at h st (SessionState s) →
  (n <= length (sf_receiver_chain s))%nat →
  wp (evict_receivers n st) (World m h) (post b H (λ _, [])).
Proof.
  revert s m h. induction n as [|n IH]; intros s m h I Hst P Hn; [by apply wp_ret|].
  cbn [evict_receivers]. apply wp_bind. eapply wp_load_state; [exact P|].
  destruct (sf_receiver_chain s) as [|node rest] eqn:Es; [cbn in Hn; lia|].
  pose proof (state_chain_ok _ _ _ _ _ _ I P) as Hc. rewrite Es in Hc.
  cbn [mbind list_bind] in Hc. apply Forall_app in Hc as [Hc1 Hc2].
  apply wp_bind.
  eapply (wp_store_chain b H (handles (receiver_node_fields node) ++ H)); [exact I|exact P|exact Hc2| | |].
  - intros k. unfold receivers_own. rewrite Es. cbn [mbind list_bind].
    rewrite occ_handles_app, occ_app. lia.
  - intros t k. rewrite elem_of_app. intros [Hk|Hk];
      [exact (ptrs_ok_handles _ _ _ _ Hc1 Hk)|exact (inv_handle _ _ _ _ I _ _ Hk)].
  - intros h1 _ P1 I1. apply wp_bind.
    eapply wp_perform; [exact I1|apply releases_receiver_node; by eapply ptrs_ok_set|].
    cbn [w_user w_mem]. intros h2 I2 S2.
    eapply (IH (set_receiver_chain rest s)); [exact I2|done|exact (shrinks_payload _ _ _ _ _ _ _ _ I2 Hst S2 P1)|].
    destruct s. cbn in *. lia.
Qed.

Lemma wp_node b H D m h (Q : loc + Z → mem → Prop) :
  inv b H D h →
  (∀ m' l h', (∀ j u, type_at h j = Some u → type_at h' j = Some u) →
     (∀ j c, h !! j = Some c → h' !! j = Some c) →
     inv b ((TRaw, l) :: H) D h' → Q (inl l) (World m' h')) →
  Q (inr SG_ERR_NOMEM) (World m h) → wp new_node (World m h) Q.
Proof.
  intros I HS HN. apply wp_bind. eapply wp_buffer; [exact I| |exact HN].
  intros m' l h' _ Ht Hc I'. by apply wp_ret, HS.
Qed.

Lemma payload_mono h h' l o : (∀ j c, h !! j = Some c → h' !! j = Some c) →
  payload_at h l o → payload_at h' l o.
Proof. intros Hc [n E]. exists n. auto. Qed.

Lemma session_state_add_receiver_chain_spec b H m h st key ck :
  inv b H [] h → b + 8 < 2 ^ 32 → (TState, st) ∈ H → (TPublicKey, key) ∈ H → (TChainKey, ck) ∈ H →
  wp (session_state_add_receiver_chain st (Loc key) (Loc ck)) (World m h) (post (b + 8) H (λ _, [])).
Proof.
  intros I Hb Hst Hk Hc. do 2 apply wp_bind, wp_ret.
  apply wp_bind. eapply wp_node; [exact I| |finish_post]. intros m1 node h1 _ _ I1. apply wp_bind.
  eapply (wp_ref_held _ _ TPublicKey key); [exact I1|lia|done|by right|]. intros h2 _ _ I2. apply wp_bind.
  eapply (wp_ref_held _ _ TChainKey ck); [exact I2|lia|done|right; by right|]. intros h3 _ _ I3.
  destruct (state_payload _ _ _ _ st I3) as [s P]; [by do 3 right|].
  apply wp_bind. eapply wp_load_state; [exact P|]. apply wp_bind.
  set (rn := ReceiverNode node (Loc key) (Loc ck) []).
  pose proof (inv_handle _ _ _ _ I3) as T3.
  eapply (wp_store_chain _ _ H); [exact I3|exact P| | | |].
  - rewrite bind_app. apply Forall_app. split; [by eapply state_chain_ok|].
    cbn. repeat constructor; apply T3; rewrite !elem_of_cons; tauto.
  - intros k. rewrite bind_app, occ_handles_app. unfold receivers_own. cbn -[handles].
    unfold receiver_node_fields. cbn -[handles]. rewrite !occ_handles_cons. cbn. lia.
  - intros t k Hin. apply T3. by do 3 right.
  - intros h4 _ P4 I4. eapply wp_mono.
    + eapply evict_receivers_spec; [exact I4|done|exact P4|]. destruct s. cbn. lia.
    + intros r w. apply post_weaken. pose proof (inv_bound _ _ _ _ I). lia.
Qed.

(** ** One node of the chain *)

Lemma occ_alter_node k g i nodes rn : nodes !! i = Some rn →
  occ k (handles (alter g i nodes ≫= receiver_node_fields)) + occ k (handles (receiver_node_fields rn)) =
  occ k (handles (nodes ≫= receiver_node_fields)) + occ k (handles (receiver_node_fields (g rn))).
Proof.
  revert i. induction nodes as [|x nodes IH]; intros [|i] E; try done.
  - cbn in E. simplify_eq. cbn -[handles receiver_node_fields]. rewrite !occ_handles_app. lia.
  - cbn in E. cbn -[handles receiver_node_fields]. rewrite !occ_handles_app.
    specialize (IH i E). cbn -[handles receiver_node_fields] in IH. lia.
Qed.

Lemma ptrs_ok_node h i nodes rn : nodes !! i = Some rn →
  ptrs_ok h (nodes ≫= receiver_node_fields) → ptrs_ok h (receiver_node_fields rn).
Proof.
  revert i. induction nodes as [|x nodes IH]; intros [|i] E Hn; try done;
    cbn in E; apply Forall_app in Hn as [H1 H2]; simplify_eq; [done|eauto].
Qed.

Lemma ptrs_ok_alter h g i nodes rn : nodes !! i = Some rn →
  ptrs_ok h (nodes ≫= receiver_node_fields) → ptrs_ok h (receiver_node_fields (g rn)) →
  ptrs_ok h (alter g i nodes ≫= receiver_node_fields).
Proof.
  revert i. induction nodes as [|x nodes IH]; intros [|i] E Hn Hg; try done;
    cbn in E; apply Forall_app in Hn as [H1 H2]; simplify_eq;
    apply Forall_app; split; [done|done|done|by eapply IH].
Qed.

Lemma occ_node_keys k node key ck keys :
  occ k (handles (receiver_node_fields (ReceiverNode node key ck keys))) =
  pocc k TPublicKey key + pocc k TChainKey ck
  + occ k (handles ((λ '(x, _), (TRaw, Loc x)) <$> keys)) + pocc k TRaw (Loc node).
Proof.
  unfold receiver_node_fields. cbn [rn_node rn_sender_ratchet_key rn_chain_key rn_message_keys].
  rewrite !occ_handles_app, !occ_handles_cons. cbn. lia.
Qed.

Global Instance f_receiver_chain_key_ok i : FieldOk (f_receiver_chain_key i) TState TChainKey.
Proof.
  split; [done|done|..].
  - by intros [] ? ?.
  - by intros [] ? ? ?.
  - intros [] p q E; try done. cbn in *. destruct s. cbn in *. rewrite list_lookup_alter_eq.
    by destruct (sf_receiver_chain !! i).
  - intros k [] p q E; try done. cbn in E. destruct (sf_receiver_chain s !! i) as [rn|] eqn:Ei; [|done].
    cbn in E. simplify_eq. cbn [f_receiver_chain_key field_set]. rewrite !occ_state.
    pose proof (occ_alter_node k (set_rn_chain_key q) i _ _ Ei) as Hk.
    destruct s, rn. unfold receivers_own, set_rn_chain_key in *. rewrite !occ_node_keys in Hk.
    cbn -[handles occ] in *. lia.
  - intros h [] p E Ho; try done. cbn in E.
    destruct (sf_receiver_chain s !! i) as [rn|] eqn:Ei; [|done]. cbn in E. simplify_eq.
    apply obj_ok_state in Ho. unfold receivers_own in Ho.
    assert (ptrs_ok h (receiver_node_fields rn)) as Hr by (eapply ptrs_ok_node; [exact Ei|tauto]).
    apply Forall_cons in Hr as [_ Hr]. by apply Forall_cons in Hr as [? _].
  - intros h [] p E Ho; try done. cbn in E.
    destruct (sf_receiver_chain s !! i) as [rn|] eqn:Ei; [|done].
    cbn [f_receiver_chain_key field_set]. rewrite obj_ok_state in *. destruct s.
    unfold receivers_own in *. cbn in *. destruct Ho as [Ho Hfl]. split; [|done].
    split_and!; try tauto. eapply ptrs_ok_alter; [exact Ei|tauto|].
    assert (ptrs_ok h (receiver_node_fields rn)) as Hr by (eapply ptrs_ok_node; [exact Ei|tauto]).
    apply Forall_cons in Hr as [Hr1 Hr]. apply Forall_cons in Hr as [_ Hr].
    by repeat (apply Forall_cons; split; [done|]).
Qed.

Global Instance f_receiver_chain_key_free i : FieldFree (f_receiver_chain_key i) TChainKey.
Proof.
  intros h [] p q E Ho Hq; try done. cbn in E.
  destruct (sf_receiver_chain s !! i) as [rn|] eqn:Ei; [|done].
  cbn [f_receiver_chain_key field_set]. rewrite obj_ok_state in *. destruct s.
  unfold receivers_own in *. cbn in *. destruct Ho as [Ho Hfl]. split; [|done].
  split_and!; try tauto. eapply ptrs_ok_alter; [exact Ei|tauto|].
  assert (ptrs_ok h (receiver_node_fields rn)) as Hr by (eapply ptrs_ok_node; [exact Ei|tauto]).
  apply Forall_cons in Hr as [Hr1 Hr]. apply Forall_cons in Hr as [_ Hr].
  by repeat (apply Forall_cons; split; [done|]).
Qed.

Lemma session_state_set_receiver_chain_key_spec b H m h st eph ck :
  inv b H [] h → b + 8 < 2 ^ 32 → (TState, st) ∈ H → (TPublicKey, eph) ∈ H → (TChainKey, ck) ∈ H →
  wp (session_state_set_receiver_chain_key st (Loc eph) (Loc ck)) (World m h)
    (post (b + 8) H (λ _, [])).
Proof.
  intros I Hb Hst He Hk. do 2 apply wp_bind, wp_ret.
  destruct (state_payload _ _ _ _ _ I Hst) as [s P]. apply wp_bind. eapply wp_mono.
  { eapply session_state_find_receiver_chain_spec; [exact I|exact P|].
    exact (inv_handle _ _ _ _ I _ _ He). }
  intros ? ? [-> (i & -> & Hi)]. destruct i as [i|]; [|finish_post].
  specialize (Hi i eq_refl). apply lookup_lt_is_Some_2 in Hi as [rn Ei].
  eapply (wp_replace_field (f_receiver_chain_key i) TState TChainKey);
    [exact I|lia|done|done|exact P|cbn; by rewrite Ei|].
  intros h' I' _. finish_post.
Qed.

(** ** Skipped message keys *)

Definition key_fields (keys : list (loc * Z)) : list (ty * ptr) :=
  (λ '(x, _), (TRaw, Loc x)) <$> keys.

Lemma occ_key_cons k x c keys :
  occ k (handles (key_fields ((x, c) :: keys))) =
  pocc k TRaw (Loc x) + occ k (handles (key_fields keys)).
Proof. apply occ_handles_cons. Qed.

(** A node's list of keys changes; the handles change with it. *)
Lemma wp_update_keys b H H' st s i rn keys m h (Q : unit + Z → mem → Prop) :
  inv b H [] h → payload_at h st (SessionState s) → sf_receiver_chain s !! i = Some rn →
  ptrs_ok h (key_fields keys) →
  (∀ k, occ k H' + occ k (handles (key_fields keys)) =
        occ k H + occ k (handles (key_fields (rn_message_keys rn)))) →
  (∀ t k, (t, k) ∈ H' → type_at h k = Some t) →
  (∀ h', (∀ j, type_at h' j = type_at h j) →
     payload_at h' st (SessionState (set_receiver_chain
       (alter (set_rn_message_keys keys) i (sf_receiver_chain s)) s)) →
     inv b H' [] h' → Q (inl tt) (World m h')) →
  wp (update_receiver st i (set_rn_message_keys keys)) (World m h) Q.
Proof.
  intros I P Ei Hk Hocc HT HQ. apply wp_bind. eapply wp_load_state; [exact P|].
  pose proof (state_chain_ok _ _ _ _ _ _ I P) as Hc.
  eapply (wp_store_chain b H H'); [exact I|exact P| | |exact HT|exact HQ].
  - eapply ptrs_ok_alter; [exact Ei|exact Hc|].
    pose proof (ptrs_ok_node _ _ _ _ Ei Hc) as Hr. destruct rn.
    unfold receiver_node_fields, ptrs_ok in *. rewrite !Forall_app in *. tauto.
  - intros k. specialize (Hocc k). unfold receivers_own.
    pose proof (occ_alter_node k (set_rn_message_keys keys) i _ _ Ei) as Ha.
    destruct rn. unfold set_rn_message_keys, key_fields in *. rewrite !occ_node_keys in Ha.
    cbn -[handles occ] in *. lia.
Qed.

Lemma wp_load_receiver st s i rn w (Q : receiver_node + Z → mem → Prop) :
  payload_at (w_user w) st (SessionState s) → sf_receiver_chain s !! i = Some rn →
  Q (inl rn) w → wp (load_receiver st i) w Q.
Proof. intros P Ei HQ. apply wp_bind. eapply wp_load_state; [exact P|]. by rewrite Ei. Qed.

Lemma node_keys_ok b H D h st s i rn : inv b H D h → payload_at h st (SessionState s) →
  sf_receiver_chain s !! i = Some rn → ptrs_ok h (key_fields (rn_message_keys rn)).
Proof.
  intros I P Ei. pose proof (ptrs_ok_node _ _ _ _ Ei (state_chain_ok _ _ _ _ _ _ I P)) as Hr.
  unfold receiver_node_fields, ptrs_ok in Hr. rewrite !Forall_app in Hr. tauto.
Qed.

Lemma lookup_set_keys s i rn keys : sf_receiver_chain s !! i = Some rn →
  sf_receiver_chain (set_receiver_chain
    (alter (set_rn_message_keys keys) i (sf_receiver_chain s)) s) !! i
  = Some (set_rn_message_keys keys rn).
Proof. intros Ei. destruct s. cbn in *. by rewrite list_lookup_alter_eq, Ei. Qed.

Lemma evict_message_keys_spec n b H st s i rn m h :
  inv b H [] h → (TState, st) ∈ H → payload_at h st (SessionState s) →
  sf_receiver_chain s !! i = Some rn → (n <= length (rn_message_keys rn))%nat →
  wp (evict_message_keys n st i) (World m h) (post b H (λ _, [])).
Proof.
  revert s rn m h. induction n as [|n IH]; intros s rn m h I Hst P Ei Hn; [by apply wp_ret|].
  cbn [evict_message_keys]. apply wp_bind. eapply wp_load_receiver; [exact P|exact Ei|].
  pose proof (node_keys_ok _ _ _ _ _ _ _ _ I P Ei) as Hk.
  destruct (rn_message_keys rn) as [|[x c] rest] eqn:Er; [cbn in Hn; lia|].
  apply Forall_cons in Hk as [Hx Hk]. apply wp_bind.
  eapply (wp_update_keys b H ((TRaw, x) :: H)); [exact I|exact P|exact Ei|exact Hk| | |].
  - intros k. rewrite Er. rewrite occ_key_cons. cbn [occ ptr_handles]. lia.
  - intros t k. rewrite elem_of_cons. intros [[= -> ->]|Hin]; [exact Hx|].
    exact (inv_handle _ _ _ _ I _ _ Hin).
  - intros h1 _ P1 I1. apply wp_bind. eapply (wp_free_raw b H (Loc x)); [exact I1|done|].
    cbn [w_user w_mem]. intros h2 I2 S2.
    eapply IH; [exact I2|done|exact (shrinks_payload _ _ _ _ _ _ _ _ I2 Hst S2 P1)
               |by apply lookup_set_keys|]. cbn in *. lia.
Qed.

Lemma key_fields_app l1 l2 : key_fields (l1 ++ l2) = key_fields l1 ++ key_fields l2.
Proof. apply fmap_app. Qed.

Lemma session_state_set_message_keys_spec b H m h st eph counter :
  inv b H [] h → b + 8 < 2 ^ 32 → (TState, st) ∈ H → (TPublicKey, eph) ∈ H →
  wp (session_state_set_message_keys st (Loc eph) counter) (World m h) (post (b + 8) H (λ _, [])).
Proof.
  intros I Hb Hst He. apply wp_bind, wp_ret.
  destruct (state_payload _ _ _ _ _ I Hst) as [s P]. apply wp_bind. eapply wp_mono.
  { eapply session_state_find_receiver_chain_spec; [exact I|exact P|].
    exact (inv_handle _ _ _ _ I _ _ He). }
  intros ? ? [-> (i & -> & Hi)]. destruct i as [i|]; [|finish_post].
  specialize (Hi i eq_refl). apply lookup_lt_is_Some_2 in Hi as [rn Ei].
  apply wp_bind. eapply wp_node; [exact I| |finish_post]. intros m1 x h1 _ Hc I1.
  apply (payload_mono _ h1) in P; [|done].
  apply wp_bind. eapply wp_load_receiver; [exact P|exact Ei|]. apply wp_bind.
  eapply (wp_update_keys b _ H); [exact I1|exact P|exact Ei| | | |].
  - rewrite key_fields_app. apply Forall_app. split; [by eapply node_keys_ok|].
    constructor; [|constructor]. apply (inv_handle _ _ _ _ I1). left.
  - intros k. rewrite key_fields_app, occ_handles_app. cbn. lia.
  - intros t k Hin. apply (inv_handle _ _ _ _ I1). by right.
  - intros h2 _ P2 I2. eapply wp_mono.
    + eapply evict_message_keys_spec; [exact I2|done|exact P2|by apply lookup_set_keys|]. cbn. lia.
    + intros r w. apply post_weaken. pose proof (inv_bound _ _ _ _ I). lia.
Qed.

Lemma take_key_occ counter keys x rest k : take_key counter keys = Some (x, rest) →
  occ k (handles (key_fields keys)) = pocc k TRaw (Loc x) + occ k (handles (key_fields rest)).
Proof.
  revert rest. induction keys as [|[y c] keys IH]; intros rest; cbn [take_key]; [done|].
  case_bool_decide.
  - intros [= <- <-]. apply occ_key_cons.
  - destruct (take_key counter keys) as [[x' keys']|]; [|done]. intros [= -> <-].
    specialize (IH _ eq_refl). rewrite !occ_key_cons. lia.
Qed.

Lemma take_key_ok counter keys x rest h : take_key counter keys = Some (x, rest) →
  ptrs_ok h (key_fields keys) → type_at h x = Some TRaw ∧ ptrs_ok h (key_fields rest).
Proof.
  revert rest. induction keys as [|[y c] keys IH]; intros rest; cbn [take_key]; [done|].
  case_bool_decide; intros E Hk; apply Forall_cons in Hk as [H1 H2].
  - by simplify_eq.
  - destruct (take_key counter keys) as [[x' keys']|]; [|done]. simplify_eq.
    destruct (IH _ eq_refl H2). split; [done|]. by constructor.
Qed.

Lemma session_state_remove_message_keys_spec b H m h st eph counter :
  inv b H [] h → b + 8 < 2 ^ 32 → (TState, st) ∈ H → (TPublicKey, eph) ∈ H →
  wp (session_state_remove_message_keys st (Loc eph) counter) (World m h)
    (post (b + 8) H (λ _, [])).
Proof.
  intros I Hb Hst He. apply wp_bind, wp_ret.
  destruct (state_payload _ _ _ _ _ I Hst) as [s P]. apply wp_bind. eapply wp_mono.
  { eapply session_state_find_receiver_chain_spec; [exact I|exact P|].
    exact (inv_handle _ _ _ _ I _ _ He). }
  intros ? ? [-> (i & -> & Hi)]. destruct i as [i|]; [|finish_post].
  specialize (Hi i eq_refl). apply lookup_lt_is_Some_2 in Hi as [rn Ei].
  apply wp_bind. eapply wp_load_receiver; [exact P|exact Ei|].
  destruct (take_key counter (rn_message_keys rn)) as [[x rest]|] eqn:Et; [|finish_post].
  destruct (take_key_ok _ _ _ _ h Et) as [Hx Hr]; [by eapply node_keys_ok|].
  apply wp_bind. eapply (wp_update_keys b H ((TRaw, x) :: H)); [exact I|exact P|exact Ei|exact Hr| | |].
  - intros k. rewrite (take_key_occ _ _ _ _ k Et). cbn [occ ptr_handles]. lia.
  - intros t k. rewrite elem_of_cons. intros [[= -> ->]|Hin]; [exact Hx|].
    exact (inv_handle _ _ _ _ I _ _ Hin).
  - intros h1 _ P1 I1. apply wp_bind. eapply (wp_free_raw b H (Loc x)); [exact I1|done|].
    cbn [w_user w_mem]. intros h2 I2 _. finish_post.
Qed.

(** * Lists of nodes that hold an object each *)

Lemma occ_nodes_cons k t n p nodes :
  occ k (handles (node_fields t ((n, p) :: nodes))) =
  pocc k t p + pocc k TRaw (Loc n) + occ k (handles (node_fields t nodes)).
Proof.
  change (node_fields t ((n, p) :: nodes)) with ((t, p) :: (TRaw, Loc n) :: node_fields t nodes).
  rewrite !occ_handles_cons. lia.
Qed.

Lemma occ_nodes_delete k t nodes i n p : nodes !! i = Some (n, p) →
  occ k (handles (node_fields t nodes)) =
  pocc k t p + pocc k TRaw (Loc n) + occ k (handles (node_fields t (delete i nodes))).
Proof.
  revert i. induction nodes as [|[n' p'] nodes IH]; intros [|i] E; try done.
  - cbn in E. simplify_eq. apply occ_nodes_cons.
  - cbn in E. change (delete (S i) ((n', p') :: nodes)) with ((n', p') :: delete i nodes).
    rewrite !occ_nodes_cons. specialize (IH i E). lia.
Qed.

Lemma nodes_ok_cons h t n p nodes :
  ptrs_ok h (node_fields t ((n, p) :: nodes)) ↔
  ptr_ok h t p ∧ type_at h n = Some TRaw ∧ ptrs_ok h (node_fields t nodes).
Proof.
  change (node_fields t ((n, p) :: nodes)) with ((t, p) :: (TRaw, Loc n) :: node_fields t nodes).
  unfold ptrs_ok. by rewrite !Forall_cons.
Qed.

Lemma nodes_ok_delete h t nodes i n p : nodes !! i = Some (n, p) →
  ptrs_ok h (node_fields t nodes) →
  ptr_ok h t p ∧ type_at h n = Some TRaw ∧ ptrs_ok h (node_fields t (delete i nodes)).
Proof.
  revert i. induction nodes as [|[n' p'] nodes IH]; intros [|i] E; try done;
    cbn in E; rewrite nodes_ok_cons; intros (H1 & H2 & H3).
  - by simplify_eq.
  - change (delete (S i) ((n', p') :: nodes)) with ((n', p') :: delete i nodes).
    rewrite nodes_ok_cons.
    destruct (IH i E H3) as (? & ? & ?). done.
Qed.

(** Taking a node off a list and releasing it. *)
Lemma wp_drop_node {A} b H to l o o' t n p m h (K : M mem A) (Q : A + Z → mem → Prop) :
  inv b H [] h → (to, l) ∈ H → payload_at h l o → ty_of o' = ty_of o → obj_ok h o' →
  t ≠ TRaw → ptr_ok h t p → type_at h n = Some TRaw →
  (∀ k, occ k (handles (owns o)) =
        pocc k t p + pocc k TRaw (Loc n) + occ k (handles (owns o'))) →
  (∀ h', inv b H [] h' → payload_at h' l o' → wp K (World m h') Q) →
  wp (let* _ := store l o' in let* _ := perform (free_nodes [(n, p)]) in K) (World m h) Q.
Proof.
  intros I Hl P Hty Ho Ht Tp Tn Hocc HK. apply wp_bind.
  eapply (wp_store b H [] (ptr_handles t p ++ (TRaw, n) :: H) []); [exact I|exact P|done|done| | |].
  - intros k. rewrite Hocc, occ_app. cbn. lia.
  - intros u k. rewrite elem_of_app, elem_of_cons. intros [Hk|[[= -> ->]|Hk]].
    + destruct p as [|k'|]; cbn in Hk; try by apply not_elem_of_nil in Hk.
      apply list_elem_of_singleton in Hk. by simplify_eq.
    + done.
    + exact (inv_handle _ _ _ _ I _ _ Hk).
  - cbn [w_user w_mem]. intros c Ec I1. apply wp_bind.
    eapply (wp_perform b (handles (node_fields t [(n, p)]))).
    + cbn [w_user]. cbn. rewrite <- app_assoc. exact I1.
    + apply releases_nodes; [done|]. repeat constructor; [|done]. by destruct p.
    + cbn [w_user w_mem]. intros h2 I2 S2. apply HK; [done|].
      eapply shrinks_payload; [exact I2|exact Hl|exact S2|]. exists c. apply lookup_insert_eq.
Qed.

(** * Session records *)

Lemma record_payload b H D h r : inv b H D h → (TRecord, r) ∈ H →
  ∃ p l, payload_at h r (SessionRecord p l).
Proof.
  intros I Hin. destruct (handle_payload _ _ _ _ _ _ I Hin) as (o & P & Ho); [done|].
  destruct o; try done. by eexists _, _.
Qed.

Lemma wp_load_record r p l w (Q : (ptr * list (loc * ptr)) + Z → mem → Prop) :
  payload_at (w_user w) r (SessionRecord p l) → Q (inl (p, l)) w → wp (load_record r) w Q.
Proof. intros P HQ. apply wp_bind. by eapply wp_load. Qed.

Lemma record_ok h p l :
  obj_ok h (SessionRecord p l) ↔ ptr_ok h TState p ∧ ptrs_ok h (node_fields TState l).
Proof. unfold obj_ok. cbn [owns app flags_ok]. rewrite Forall_cons. unfold ptrs_ok. tauto. Qed.

Lemma occ_record k p l :
  occ k (handles (owns (SessionRecord p l))) =
  pocc k TState p + occ k (handles (node_fields TState l)).
Proof. apply occ_handles_cons. Qed.

Lemma evict_previous_spec n b H r p l m h :
  inv b H [] h → (TRecord, r) ∈ H → payload_at h r (SessionRecord p l) →
  (ARCHIVED_STATES_MAX_LENGTH + n <= length l)%nat →
  wp (evict_previous n r) (World m h) (post b H (λ _, [])).
Proof.
  revert l m h. induction n as [|n IH]; intros l m h I Hr P Hn; [by apply wp_ret|].
  cbn [evict_previous]. apply wp_bind. eapply wp_load_record; [exact P|].
  destruct (lookup_lt_is_Some_2 l ARCHIVED_STATES_MAX_LENGTH) as [[x q] Ex]; [lia|]. rewrite Ex.
  pose proof (proj1 (record_ok _ _ _) (payload_ok _ _ _ _ _ _ I P)) as [Hp Hl].
  destruct (nodes_ok_delete _ _ _ _ _ _ Ex Hl) as (Hq & Hx & Hd).
  eapply wp_drop_node; [exact I|exact Hr|exact P|done|by apply record_ok| |exact Hq|exact Hx| |].
  - done.
  - intros k. rewrite !occ_record, (occ_nodes_delete _ _ _ _ _ _ Ex). lia.
  - intros h' I' P'. eapply IH; [exact I'|done|exact P'|].
    rewrite length_delete by (by rewrite Ex). lia.
Qed.

Lemma session_record_promote_state_spec b H m h r k :
  inv b H [] h → b + 1 < 2 ^ 32 → (TRecord, r) ∈ H → (TState, k) ∈ H →
  wp (session_record_promote_state r (Loc k)) (World m h) (post (b + 1) H (λ _, [])).
Proof.
  intros I Hb Hr Hk. apply wp_bind, wp_ret.
  destruct (record_payload _ _ _ _ _ I Hr) as (p & l & P).
  apply wp_bind. eapply wp_load_record; [exact P|]. apply wp_bind.
  assert (∀ m' h' l', inv b H [] h' → payload_at h' r (SessionRecord Null l') →
    wp (let* _ := SIGNAL_REF (Loc k) in
        let* _ := set_field r f_record_state (Loc k) in
        let* '(_, previous) := load_record r in
        evict_previous (length previous - ARCHIVED_STATES_MAX_LENGTH) r) (World m' h')
      (post (b + 1) H (λ _, []))) as Hrest.
  { intros m' h' l' I' P'. apply wp_bind.
    eapply (wp_ref_held _ _ TState k); [exact I'|done|done|done|]. intros h1 _ Hp1 I1.
    apply wp_bind. eapply (wp_set_field f_record_state TRecord TState (b + 1) H r);
      [exact I1|done|by apply Hp1|done|].
    cbn [w_user w_mem]. intros h2 I2 P2. apply wp_bind. eapply wp_load_record; [exact P2|].
    destruct (decide (ARCHIVED_STATES_MAX_LENGTH <= length l')%nat).
    - eapply evict_previous_spec; [exact I2|done|exact P2|lia].
    - replace (length l' - ARCHIVED_STATES_MAX_LENGTH)%nat with O by lia. by apply wp_ret. }
  case_bool_decide as Ep.
  - subst. apply wp_ret. by eapply Hrest.
  - apply wp_bind. eapply wp_node; [exact I| |finish_post]. intros m1 x h1 Ht1 Hc1 I1.
    apply (payload_mono _ h1) in P; [|done].
    pose proof (proj1 (record_ok _ _ _) (payload_ok _ _ _ _ _ _ I1 P)) as [Hp Hl].
    eapply (wp_store b _ [] H []); [exact I1|exact P|done| | | |].
    + apply record_ok. split; [done|]. apply nodes_ok_cons. split_and!; [done| |done].
      apply (inv_handle _ _ _ _ I1). left.
    + intros j. rewrite !occ_record, occ_nodes_cons. cbn. lia.
    + intros t j Hj. apply (inv_handle _ _ _ _ I1). by right.
    + cbn [w_user w_mem]. intros n En I2. eapply Hrest; [exact I2|]. exists n. apply lookup_insert_eq.
Qed.

Lemma session_record_archive_current_state_spec b H m h r :
  inv b H [] h → b + 8 < 2 ^ 32 → (TRecord, r) ∈ H →
  wp (session_record_archive_current_state r) (World m h) (post (b + 8) H (λ _, [])).
Proof.
  intros I Hb Hr. pose proof (inv_bound _ _ _ _ I). apply wp_bind, wp_try. eapply wp_mono; [by apply session_state_create_spec|].
  intros [s|e] [m1 h1]; unfold post; cbn [w_user app]; intros I1.
  - apply wp_bind, wp_try. eapply wp_mono.
    { eapply session_record_promote_state_spec; [exact I1|lia|by right|left]. }
    intros [[]|e] [m2 h2]; unfold post; cbn [w_user app]; intros I2;
      (apply wp_bind; eapply wp_unref; [exact I2|done|]; intros h3 I3 _; finish_post).
  - apply wp_bind. eapply (wp_unref_ptr b H TState Null); [exact I1|done|done|]. intros h2 I2 _. finish_post.
Qed.

Lemma session_record_set_state_spec b H m h r k :
  inv b H [] h → b + 8 < 2 ^ 32 → (TRecord, r) ∈ H → (TState, k) ∈ H →
  wp (session_record_set_state r (Loc k)) (World m h) (post (b + 8) H (λ _, [])).
Proof.
  intros I Hb Hr Hk. apply wp_bind, wp_ret. destruct (record_payload _ _ _ _ _ I Hr) as (p & l & P).
  eapply (wp_replace_field f_record_state TRecord TState); [exact I|lia|done|done|exact P|done|].
  intros h' I' _. finish_post.
Qed.

Lemma session_record_create_spec b H m h p :
  inv b H [] h → b + 8 < 2 ^ 32 → (p = Null ∨ ∃ k, p = Loc k ∧ (TState, k) ∈ H) →
  wp (session_record_create p) (World m h) (post (b + 8) H (λ l, [(TRecord, l)])).
Proof.
  intros I Hb Hp. create_step; [|finish_post].
  assert (payload_at h0 l (SessionRecord Null [])) as P by (by exists 1).
  destruct Hp as [->|(k & -> & Hk)].
  - rewrite bool_decide_true by done. apply wp_bind, wp_try.
    eapply (wp_create (SessionState empty_state)); [exact I0| | |].
    + apply obj_ok_state. cbn. split_and!; try done. constructor.
    + intros m1 s h1 _ _ _ Hc1 I1. cbn in I1. apply wp_bind.
      eapply (wp_set_field f_record_state TRecord TState b ((TRecord, l) :: H) l);
        [exact I1|done|by eapply payload_mono|done|].
      cbn [w_user w_mem]. intros h2 I2 _. finish_post.
    + apply wp_bind. eapply wp_unref; [exact I0|done|]. intros h1 I1 _. finish_post.
  - rewrite bool_decide_false by done. apply wp_bind.
    eapply (wp_ref_held _ _ TState k); [exact I0|lia|done|by right|]. intros h1 _ Hp1 I1.
    apply wp_bind. eapply (wp_set_field f_record_state TRecord TState (b + 1) ((TRecord, l) :: H) l);
      [exact I1|done|by apply Hp1|done|].
    cbn [w_user w_mem]. intros h2 I2 _. finish_post.
Qed.

(** [i] is the place of a node of the list. *)
Lemma session_record_get_previous_states_remove_spec b H m h r i p l :
  inv b H [] h → b + 8 < 2 ^ 32 → (TRecord, r) ∈ H → payload_at h r (SessionRecord p l) →
  (i < length l)%nat →
  wp (session_record_get_previous_states_remove r i) (World m h) (post (b + 8) H (λ _, [])).
Proof.
  intros I Hb Hr P Hi. apply wp_bind. eapply wp_load_record; [exact P|].
  destruct (lookup_lt_is_Some_2 l i Hi) as [[x q] Ex]. rewrite Ex.
  pose proof (proj1 (record_ok _ _ _) (payload_ok _ _ _ _ _ _ I P)) as [Hp Hl].
  destruct (nodes_ok_delete _ _ _ _ _ _ Ex Hl) as (Hq & Hx & Hd).
  eapply wp_drop_node; [exact I|exact Hr|exact P|done|by apply record_ok| |exact Hq|exact Hx| |].
  - done.
  - intros k. rewrite !occ_record, (occ_nodes_delete _ _ _ _ _ _ Ex). lia.
  - intros h' I' _. finish_post.
Qed.
