(* ===== verification/RefSenderSpec.v ===== *)
(** The ownership of the operations on sender keys (RefOps.v): message keys of
    a state, states of a record, and the creation of a sender message key,
    whose error path frees pointers that were never set. *)
From stdpp Require Import gmap.
From S2P Require Import Prelude RefCount RefCountInv RefOps RefRules RefOpsSpec RefStateSpec.

(** * Sender key states *)

Lemma sender_payload b H D h st : inv b H D h → (TSenderState, st) ∈ H →
  ∃ a p q l, payload_at h st (SenderKeyState a p q l).
Proof.
  intros I Hin. destruct (handle_payload _ _ _ _ _ _ I Hin) as (o & P & Ho); [done|].
  destruct o; try done. by eexists _, _, _, _.
Qed.

Lemma wp_load_keys st a p q l w (Q : list (loc * ptr) + Z → mem → Prop) :
  payload_at (w_user w) st (SenderKeyState a p q l) → Q (inl l) w → wp (load_message_keys st) w Q.
Proof. intros P HQ. apply wp_bind. by eapply wp_load. Qed.

Lemma wp_store_keys st a p q l l' w (Q : unit + Z → mem → Prop) :
  payload_at (w_user w) st (SenderKeyState a p q l) →
  wp (store st (SenderKeyState a p q l')) w Q → wp (store_message_keys st l') w Q.
Proof. intros P HQ. apply wp_bind. by eapply wp_load. Qed.

Lemma sender_state_ok h a p q l :
  obj_ok h (SenderKeyState a p q l) ↔
  (ptr_ok h TSenderChainKey a ∧ ptr_ok h TPublicKey p ∧ ptr_ok h TPrivateKey q) ∧
  ptrs_ok h (node_fields TSenderMessageKey l) ∧ Forall (λ '(_, p), p ≠ Null) l.
Proof.
  unfold obj_ok. cbn [owns app flags_ok]. rewrite !Forall_cons. unfold ptrs_ok. tauto.
Qed.

Lemma occ_sender_state k a p q l :
  occ k (handles (owns (SenderKeyState a p q l))) =
  pocc k TSenderChainKey a + pocc k TPublicKey p + pocc k TPrivateKey q
  + occ k (handles (node_fields TSenderMessageKey l)).
Proof. cbn [owns app]. rewrite !occ_handles_cons. lia. Qed.

Lemma sender_key_state_set_chain_key_spec b H m h st k :
  inv b H [] h → b + 8 < 2 ^ 32 → (TSenderState, st) ∈ H → (TSenderChainKey, k) ∈ H →
  wp (sender_key_state_set_chain_key st (Loc k)) (World m h) (post (b + 8) H (λ _, [])).
Proof.
  intros I Hb Hst Hk. apply wp_bind, wp_ret.
  destruct (sender_payload _ _ _ _ _ I Hst) as (a & p & q & l & P).
  eapply (wp_replace_field f_sender_state_chain_key TSenderState TSenderChainKey);
    [exact I|lia|done|done|exact P|done|].
  intros h' I' _. finish_post.
Qed.

Lemma evict_sender_keys_spec n b H st a p q l m h :
  inv b H [] h → (TSenderState, st) ∈ H → payload_at h st (SenderKeyState a p q l) →
  (n <= length l)%nat →
  wp (evict_sender_keys n st) (World m h) (post b H (λ _, [])).
Proof.
  revert l m h. induction n as [|n IH]; intros l m h I Hst P Hn; [by apply wp_ret|].
  cbn [evict_sender_keys]. apply wp_bind. eapply wp_load_keys; [exact P|].
  destruct l as [|[x y] l]; [cbn in Hn; lia|].
  pose proof (proj1 (sender_state_ok _ _ _ _ _) (payload_ok _ _ _ _ _ _ I P)) as (Ha & Hl & Hnn).
  apply nodes_ok_cons in Hl as (Hy & Hx & Hl). apply Forall_cons in Hnn as [_ Hnn].
  apply wp_bind. eapply wp_store_keys; [exact P|].
  enough (wp (let* _ := store st (SenderKeyState a p q l) in
              let* _ := perform (free_nodes [(x, y)]) in evict_sender_keys n st) (World m h)
            (post b H (λ _, []))) as Hw.
  { unfold wp in *. unfold bind at 1 in Hw. by destruct (store _ _ _) as [[]]. }
  eapply (wp_drop_node _ _ TSenderState st _ _ TSenderMessageKey);
    [exact I|exact Hst|exact P|done|by apply sender_state_ok|done|exact Hy|exact Hx| |].
  - intros k. rewrite !occ_sender_state, occ_nodes_cons. lia.
  - intros h' I' P'. eapply IH; [exact I'|done|exact P'|]. cbn in Hn. lia.
Qed.

Lemma nodes_ok_app h t l1 l2 :
  ptrs_ok h (node_fields t (l1 ++ l2)) ↔
  ptrs_ok h (node_fields t l1) ∧ ptrs_ok h (node_fields t l2).
Proof. unfold ptrs_ok, node_fields. by rewrite bind_app, Forall_app. Qed.

Lemma occ_nodes_app k t l1 l2 :
  occ k (handles (node_fields t (l1 ++ l2))) =
  occ k (handles (node_fields t l1)) + occ k (handles (node_fields t l2)).
Proof. unfold node_fields. by rewrite bind_app, occ_handles_app. Qed.

Lemma sender_key_state_add_sender_message_key_spec b H m h st k :
  inv b H [] h → b + 8 < 2 ^ 32 → (TSenderState, st) ∈ H → (TSenderMessageKey, k) ∈ H →
  wp (sender_key_state_add_sender_message_key st (Loc k)) (World m h) (post (b + 8) H (λ _, [])).
Proof.
  intros I Hb Hst Hk. apply wp_bind, wp_ret.
  apply wp_bind. eapply wp_node; [exact I| |finish_post]. intros m1 node h1 _ _ I1. apply wp_bind.
  eapply (wp_ref_held _ _ TSenderMessageKey k); [exact I1|lia|done|by right|]. intros h2 _ _ I2.
  destruct (sender_payload _ _ _ _ st I2) as (a & p & q & l & P); [by do 2 right|].
  pose proof (proj1 (sender_state_ok _ _ _ _ _) (payload_ok _ _ _ _ _ _ I2 P)) as (Ha & Hl & Hnn).
  pose proof (inv_handle _ _ _ _ I2) as T2.
  apply wp_bind. eapply wp_load_keys; [exact P|]. apply wp_bind. eapply wp_store_keys; [exact P|].
  eapply (wp_store _ _ [] H []); [exact I2|exact P|done| | | |].
  - apply sender_state_ok. split; [done|]. split.
    + apply nodes_ok_app. split; [done|]. apply nodes_ok_cons. split_and!.
      * apply T2. left.
      * apply T2. right. left.
      * constructor.
    + apply Forall_app. split; [done|]. by repeat constructor.
  - intros j. rewrite !occ_sender_state, occ_nodes_app, occ_nodes_cons. cbn. lia.
  - intros t j Hj. apply T2. by do 2 right.
  - cbn [w_user w_mem]. intros n En I3. eapply wp_mono.
    + eapply evict_sender_keys_spec; [exact I3|done|exists n; apply lookup_insert_eq|lia].
    + intros r w. apply post_weaken. pose proof (inv_bound _ _ _ _ I). lia.
Qed.

Lemma find_sender_key_spec h m it l :
  ptrs_ok h (node_fields TSenderMessageKey l) → Forall (λ '(_, p), p ≠ Null) l →
  wp (find_sender_key l it) (World m h)
    (λ r w, w = World m h ∧ ∃ i, r = inl i ∧ ∀ j, i = Some j → (j < length l)%nat).
Proof.
  induction l as [|[x y] l IH]; cbn [find_sender_key]; intros Hl Hn.
  - apply wp_ret. split; [done|]. by exists None.
  - apply nodes_ok_cons in Hl as (Hy & _ & Hl). apply Forall_cons in Hn as [Hny Hn].
    destruct y as [|k|]; [done| |done]. cbn in Hy. apply wp_bind. cbn [sender_message_key_get_iteration].
    unfold type_at in Hy. destruct (h !! k) as [[|n o]|] eqn:Ek; try done. cbn in Hy.
    destruct o; try done. apply wp_bind. eapply wp_load; [by exists n|]. apply wp_ret.
    case_bool_decide.
    + apply wp_ret. split; [done|]. exists (Some O). split; [done|]. intros j [= <-]. cbn. lia.
    + apply wp_bind. eapply wp_mono; [by apply IH|]. intros ? ? [-> (i & -> & Hi)].
      apply wp_ret. split; [done|]. eexists. split; [done|]. intros j Hj.
      destruct i as [i|]; cbn in Hj; simplify_eq. specialize (Hi i eq_refl). cbn. lia.
Qed.

Lemma Forall_delete {A} (P : A → Prop) i l : Forall P l → Forall P (delete i l).
Proof.
  intros Hl. revert i. induction Hl as [|x l ? ? IH]; intros [|i]; [constructor|constructor|done|].
  constructor; [done|apply IH].
Qed.

(** The key that is found passes to the caller. *)
Lemma sender_key_state_remove_sender_message_key_spec b H m h st it :
  inv b H [] h → b + 8 < 2 ^ 32 → (TSenderState, st) ∈ H →
  wp (sender_key_state_remove_sender_message_key st it) (World m h)
    (post (b + 8) H (ptr_handles TSenderMessageKey)).
Proof.
  intros I Hb Hst. destruct (sender_payload _ _ _ _ st I Hst) as (a & p & q & l & P).
  pose proof (proj1 (sender_state_ok _ _ _ _ _) (payload_ok _ _ _ _ _ _ I P)) as (Ha & Hl & Hnn).
  apply wp_bind. eapply wp_load_keys; [exact P|]. apply wp_bind.
  eapply wp_mono; [by apply find_sender_key_spec|]. intros ? ? [-> (i & -> & Hi)].
  destruct i as [i|]; [|finish_post]. specialize (Hi i eq_refl).
  apply lookup_lt_is_Some_2 in Hi as [[x y] Ei]. rewrite Ei.
  destruct (nodes_ok_delete _ _ _ _ _ _ Ei Hl) as (Hy & Hx & Hd).
  apply wp_bind. eapply wp_store_keys; [exact P|].
  eapply (wp_store b H [] ((TRaw, x) :: ptr_handles TSenderMessageKey y ++ H) []);
    [exact I|exact P|done| | | |].
  - apply sender_state_ok. split_and!; [tauto..|done|by apply Forall_delete].
  - intros k. rewrite !occ_sender_state, (occ_nodes_delete _ _ _ _ _ _ Ei). cbn. rewrite occ_app. lia.
  - intros t k. rewrite elem_of_cons, elem_of_app. intros [[= -> ->]|[Hk|Hk]]; [done| |].
    + destruct y as [|k'|]; cbn in Hk; try by apply not_elem_of_nil in Hk.
      apply list_elem_of_singleton in Hk. by simplify_eq.
    + exact (inv_handle _ _ _ _ I _ _ Hk).
  - cbn [w_user w_mem]. intros n En I1. apply wp_bind.
    eapply (wp_free_raw b _ (Loc x)); [exact I1|done|]. cbn [w_user w_mem]. intros h2 I2 _.
    finish_post.
Qed.

(** * Sender key records *)

Lemma states_payload b H D h r : inv b H D h → (TSenderRecord, r) ∈ H →
  ∃ l, payload_at h r (SenderKeyRecord l).
Proof.
  intros I Hin. destruct (handle_payload _ _ _ _ _ _ I Hin) as (o & P & Ho); [done|].
  destruct o; try done. by eexists.
Qed.

Lemma wp_load_states r l w (Q : list (loc * ptr) + Z → mem → Prop) :
  payload_at (w_user w) r (SenderKeyRecord l) → Q (inl l) w → wp (load_states r) w Q.
Proof. intros P HQ. apply wp_bind. by eapply wp_load. Qed.

Lemma sender_record_ok h l :
  obj_ok h (SenderKeyRecord l) ↔ ptrs_ok h (node_fields TSenderState l).
Proof. unfold obj_ok, ptrs_ok. cbn. tauto. Qed.

Lemma evict_states_spec n b H r l m h :
  inv b H [] h → (TSenderRecord, r) ∈ H → payload_at h r (SenderKeyRecord l) →
  (n <= length l)%nat →
  wp (evict_states n r) (World m h) (λ x w, x = inl tt ∧ inv b H [] (w_user w)).
Proof.
  revert l m h. induction n as [|n IH]; intros l m h I Hr P Hn; [by apply wp_ret|].
  cbn [evict_states]. apply wp_bind. eapply wp_load_states; [exact P|].
  destruct (last l) as [[x y]|] eqn:El; [|apply last_None in El; subst; cbn in Hn; lia].
  apply last_Some in El as [l' ->]. rewrite length_app in *. cbn in Hn |- *.
  replace (length l' + 1 - 1)%nat with (length l') by lia. rewrite take_app_length.
  pose proof (proj1 (sender_record_ok _ _) (payload_ok _ _ _ _ _ _ I P)) as Hl.
  apply nodes_ok_app in Hl as [Hl Hx]. apply nodes_ok_cons in Hx as (Hy & Hx & _).
  eapply (wp_drop_node _ _ TSenderRecord r _ _ TSenderState);
    [exact I|exact Hr|exact P|done|by apply sender_record_ok|done|exact Hy|exact Hx| |].
  - intros k. cbn [owns]. rewrite occ_nodes_app, occ_nodes_cons. cbn [node_fields handles mbind list_bind occ]. lia.
  - intros h' I' P'. eapply IH; [exact I'|done|exact P'|lia].
Qed.

Lemma clear_states_spec n b H r l m h :
  inv b H [] h → (TSenderRecord, r) ∈ H → payload_at h r (SenderKeyRecord l) →
  n = length l →
  wp (clear_states n r) (World m h)
    (λ x w, x = inl tt ∧ inv b H [] (w_user w) ∧ payload_at (w_user w) r (SenderKeyRecord [])).
Proof.
  revert l m h. induction n as [|n IH]; intros l m h I Hr P Hn.
  { destruct l; [|done]. by apply wp_ret. }
  cbn [clear_states]. apply wp_bind. eapply wp_load_states; [exact P|].
  destruct l as [|[x y] l]; [done|].
  pose proof (proj1 (sender_record_ok _ _) (payload_ok _ _ _ _ _ _ I P)) as Hl.
  apply nodes_ok_cons in Hl as (Hy & Hx & Hl).
  eapply (wp_drop_node _ _ TSenderRecord r _ _ TSenderState);
    [exact I|exact Hr|exact P|done|by apply sender_record_ok|done|exact Hy|exact Hx| |].
  - intros k. cbn [owns]. by rewrite occ_nodes_cons.
  - intros h' I' P'. eapply IH; [exact I'|done|exact P'|]. cbn in Hn. lia.
Qed.

(** The pointer arguments may be borrowed: they only have to be live. *)
Lemma sender_key_state_create_ptr b H m h ck pub priv :
  inv b H [] h → b + 8 < 2 ^ 32 → type_at h ck = Some TSenderChainKey →
  ptr_ok h TPublicKey pub → ptr_ok h TPrivateKey priv →
  wp (sender_key_state_create (Loc ck) pub priv) (World m h)
    (post (b + 8) H (λ l, [(TSenderState, l)])).
Proof.
  intros I Hb T1 T2 Tp. destruct pub as [|k|]; [| |done].
  - apply wp_bind. unfold require_ptrs. rewrite bool_decide_true by set_solver. finish_post.
  - by apply sender_key_state_create_spec.
Qed.

Lemma add_state_body_spec b H m h r ce pub priv :
  inv b ((TSenderChainKey, ce) :: H) [] h → b + 8 < 2 ^ 32 → (TSenderRecord, r) ∈ H →
  ptr_ok h TPublicKey pub → ptr_ok h TPrivateKey priv →
  wp (add_state_body r ce pub priv) (World m h)
    (λ x w, ∃ state code, x = inl (state, code) ∧ state ≠ Wild ∧
       inv (b + 8) ((TSenderChainKey, ce) ::
         match code with Some _ => ptr_handles TSenderState state ++ H | None => H end) []
         (w_user w)).
Proof.
  intros I Hb Hr T1 T2. pose proof (inv_bound _ _ _ _ I). apply wp_bind, wp_try. eapply wp_mono.
  { apply sender_key_state_create_ptr; [exact I|done| |exact T1|exact T2].
    apply (inv_handle _ _ _ _ I). left. }
  intros [s|e] [m1 h1]; unfold post; cbn [w_user app]; intros I1.
  - apply wp_bind. eapply wp_buffer; [exact I1| |].
    + intros m2 node h2 _ _ _ I2.
      destruct (states_payload _ _ _ _ r I2) as [l P]; [by do 3 right|].
      pose proof (proj1 (sender_record_ok _ _) (payload_ok _ _ _ _ _ _ I2 P)) as Hl.
      pose proof (inv_handle _ _ _ _ I2) as T.
      apply wp_bind. eapply wp_load_states; [exact P|]. apply wp_bind.
      eapply (wp_store _ _ [] ((TSenderChainKey, ce) :: H) []); [exact I2|exact P|done| | | |].
      * apply sender_record_ok, nodes_ok_cons. split_and!; [|apply T; left|done].
        apply T. right. left.
      * intros k. cbn [owns]. rewrite occ_nodes_cons. cbn [occ ptr_handles]. lia.
      * intros t k Hk. apply T. by do 2 right.
      * cbn [w_user w_mem]. intros n En I3. apply wp_bind. eapply wp_mono.
        { eapply evict_states_spec; [exact I3|by right|exists n; apply lookup_insert_eq|lia]. }
        intros ? [m4 h4] [-> I4]. apply wp_ret. by exists (Loc s), None.
    + apply wp_ret. exists (Loc s), (Some SG_ERR_NOMEM). split_and!; [done|done|].
      cbn. eapply inv_perm; [|exact I1]. apply Permutation_swap.
  - apply wp_ret. exists Null, (Some e). split_and!; [done|done|]. cbn. done.
Qed.

Lemma sender_key_record_add_impl_spec b H m h r (set : bool) pub priv :
  inv b H [] h → b + 8 < 2 ^ 32 → (TSenderRecord, r) ∈ H →
  ptr_ok h TPublicKey pub → ptr_ok h TPrivateKey priv →
  wp (sender_key_record_add_sender_key_state_impl r set pub priv) (World m h)
    (post (b + 8) H (λ _, [])).
Proof.
  intros I Hb Hr T1 T2. unfold sender_key_record_add_sender_key_state_impl.
  apply wp_bind, wp_try. unfold sender_chain_key_create.
  assert (∀ e w, inv b H [] (w_user w) →
    wp (let* _ := perform [Unref Null; Unref Null] in fail e) w (post (b + 8) H (λ _ : unit, []))) as Hfail.
  { intros e [m' h'] I'. apply wp_bind.
    eapply (wp_perform b [] H); [exact I'|by repeat constructor|].
    cbn [w_user w_mem] in *. intros h2 I2 _. finish_post. }
  destruct set; cbn [negb]; [|by apply wp_fail, Hfail].
  apply (wp_create_fill _ SenderChainKey b H); [done|..].
  - intros h' p Hp _. split; [|done]. by repeat constructor.
  - intros m1 l k h1 Hc I1. rewrite bool_decide_false by done. apply wp_ret.
    assert (∀ j u, type_at h j = Some u → type_at h1 j = Some u) as Ht.
    { intros j u. unfold type_at. destruct (h !! j) as [c|] eqn:Ej; [|done]. by rewrite (Hc _ _ Ej). }
    move_types Ht. apply wp_bind. eapply wp_mono.
    { eapply add_state_body_spec; [|done|exact Hr|exact T1|exact T2].
      eapply (inv_equiv b); [exact I1|intros j; cbn; lia|].
      intros x. cbn. rewrite !elem_of_cons. tauto. }
    intros ? [m2 h2] (state & code & -> & Hs & I2). apply wp_bind.
    eapply wp_unref; [exact I2|done|]. cbn [w_user w_mem]. intros h3 I3 _.
    destruct code as [e|]; [|finish_post]. apply wp_bind.
    eapply (wp_unref_ptr _ H TSenderState state); [exact I3|done|done|]. intros h4 I4 _. finish_post.
  - intros m1 l h1 _ _ I1. rewrite bool_decide_true by done. apply wp_bind.
    eapply wp_unref; [exact I1|done|]. intros h2 I2 _. by apply wp_fail, Hfail.
  - by apply Hfail.
Qed.

Lemma sender_key_record_add_sender_key_state_spec b H m h r (set : bool) k :
  inv b H [] h → b + 8 < 2 ^ 32 → (TSenderRecord, r) ∈ H → (TPublicKey, k) ∈ H →
  wp (sender_key_record_add_sender_key_state r set (Loc k)) (World m h) (post (b + 8) H (λ _, [])).
Proof.
  intros I Hb Hr Hk. apply sender_key_record_add_impl_spec; [done|done|done| |done].
  exact (inv_handle _ _ _ _ I _ _ Hk).
Qed.

(** The keys are read from the pair after the old states are gone; the caller's
    handle keeps them alive. *)
Lemma sender_key_record_set_sender_key_state_spec b H m h r (set : bool) kp :
  inv b H [] h → b + 8 < 2 ^ 32 → (TSenderRecord, r) ∈ H → (TKeyPair, kp) ∈ H →
  wp (sender_key_record_set_sender_key_state r set (Loc kp)) (World m h)
    (post (b + 8) H (λ _, [])).
Proof.
  intros I Hb Hr Hk. destruct (states_payload _ _ _ _ r I Hr) as [l P].
  apply wp_bind. eapply wp_load_states; [exact P|]. apply wp_bind.
  eapply wp_mono; [by eapply clear_states_spec|]. intros ? [m1 h1] (-> & I1 & P1). cbn [w_user] in *.
  apply wp_bind. eapply (wp_store b H [] H []); [exact I1|exact P1|done| | | |].
  - by eapply payload_ok.
  - intros k. lia.
  - intros t k Hin. exact (inv_handle _ _ _ _ I1 _ _ Hin).
  - cbn [w_user w_mem]. intros n En I2.
    destruct (handle_payload _ _ _ _ _ _ I2 Hk) as (o & P2 & Ho); [done|].
    destruct o as [| | |pub priv| | | | | | | | | | | | | | | | | | | | | | | | |]; try done.
    apply wp_bind. cbn [load_key_pair]. apply wp_bind. eapply wp_load; [exact P2|]. apply wp_ret.
    pose proof (payload_ok _ _ _ _ _ _ I2 P2) as [Hf _]. cbn [owns] in Hf.
    apply Forall_cons in Hf as [Hp Hf]. apply Forall_cons in Hf as [Hq _].
    by apply sender_key_record_add_impl_spec.
Qed.

(** * Sender message keys *)

Lemma unref_hkdf k m h : h !! k = Some (Obj 1 HkdfContext) →
  SIGNAL_UNREF (Loc k) (World m h) = (Ok tt, World m (delete k h)).
Proof. intros E. unfold SIGNAL_UNREF, heap_op. cbn. rewrite E. cbn. by rewrite E. Qed.

(** Releasing a sender message key with an unset pointer. *)
Lemma unref_unset l it iv ck seed m h :
  h !! l = Some (Obj 1 (SenderMessageKey it iv ck seed)) →
  iv = Wild ∨ (iv = Null ∧ ck = Wild) →
  SIGNAL_UNREF (Loc l) (World m h) = (Abort, World m h).
Proof.
  intros E Hw. unfold SIGNAL_UNREF, heap_op. cbn. rewrite E. cbn. by destruct Hw as [->|[-> ->]].
Qed.

(** The error path with an unset pointer in the object. *)
Lemma error_path_aborts (l : loc) it iv ck seed kdf d e m h :
  h !! l = Some (Obj 1 (SenderMessageKey it iv ck seed)) →
  iv = Wild ∨ (iv = Null ∧ ck = Wild) →
  (kdf = Null ∨ ∃ k, kdf = Loc k ∧ h !! k = Some (Obj 1 HkdfContext)) →
  (d = Null ∨ ∃ x, d = Loc x ∧ h !! x = Some Raw) →
  ((let* _ := SIGNAL_UNREF kdf in
    let* _ := mem_free d in
    let* _ := SIGNAL_UNREF (Loc l) in @fail mem loc e) (World m h)).1 = Abort.
Proof.
  intros El Hw Hk Hd.
  assert (∃ h', SIGNAL_UNREF kdf (World m h) = (Ok tt, World m h') ∧ h' !! l = h !! l ∧
    (∀ x, h !! x = Some Raw → h' !! x = Some Raw)) as (h1 & E1 & El1 & Hx1).
  { destruct Hk as [->|(k & -> & Ek)]; [by exists h|].
    exists (delete k h). split; [by apply unref_hkdf|].
    split; [rewrite lookup_delete_ne; [done|congruence]|].
    intros x Ex. rewrite lookup_delete_ne; [done|congruence]. }
  rewrite (bind_run _ _ _ _ _ E1).
  assert (∃ h2, mem_free d (World m h1) = (Ok tt, World m h2) ∧ h2 !! l = h !! l) as (h2 & E2 & El2).
  { destruct Hd as [->|(x & -> & Ex)]; [by exists h1|].
    exists (delete x h1). split.
    - unfold mem_free, heap_op. cbn. by rewrite (Hx1 _ Ex).
    - rewrite lookup_delete_ne; [done|congruence]. }
  rewrite (bind_run _ _ _ _ _ E2). rewrite El in El2.
  unfold bind. by rewrite (unref_unset _ _ _ _ _ _ _ El2 Hw).
Qed.

(** From the allocation of the object on: where the locals and the object stand
    when a buffer is missing. *)
Lemma fill_short l it n h :
  h !! l = Some (Obj 1 (SenderMessageKey it Wild Wild Wild)) → (n <= 3)%nat →
  ∃ kdf d e iv ck seed h',
    sender_message_key_fill l it true (World (Some n) h) = (Ok (kdf, d, Some e), World (Some O) h') ∧
    h' !! l = Some (Obj 1 (SenderMessageKey it iv ck seed)) ∧
    (iv = Wild ∨ (iv = Null ∧ ck = Wild)) ∧
    (kdf = Null ∨ ∃ k, kdf = Loc k ∧ h' !! k = Some (Obj 1 HkdfContext)) ∧
    (d = Null ∨ ∃ x, d = Loc x ∧ h' !! x = Some Raw).
Proof.
  intros El Hn. unfold sender_message_key_fill.
  destruct n as [|n]; [by eexists Null, Null, _, Wild, Wild, Wild, h; split_and!; eauto|].
  rewrite (bind_run _ _ _ _ _ (hkdf_create_ok (Some (S n)) h ltac:(done))). cbn [next_mem].
  rewrite Nat.sub_1_r. cbn [Nat.pred].
  pose proof (lookup_insert_eq h (new_loc h) (Obj 1 HkdfContext)) as Ek.
  apply (lookup_new _ (Obj 1 HkdfContext)) in El.
  revert El Ek. generalize (<[new_loc h := Obj 1 HkdfContext]> h) as h1. generalize (new_loc h) as k.
  intros k h1 El Ek.
  destruct n as [|n]; [eexists (Loc k), Null, _, Wild, Wild, Wild, h1; split_and!; eauto|].
  rewrite (bind_run _ _ _ _ _ (new_buffer_ok (Some (S n)) h1 ltac:(done))). cbn [next_mem].
  rewrite Nat.sub_1_r. cbn [Nat.pred]. rewrite bool_decide_false by done.
  pose proof (lookup_insert_eq h1 (new_loc h1) Raw) as Ed.
  apply (lookup_new _ Raw) in El, Ek.
  revert El Ek Ed. generalize (<[new_loc h1 := Raw]> h1) as h2. generalize (new_loc h1) as d.
  intros d h2 El Ek Ed.
  assert (k ≠ l ∧ d ≠ l) as [Hkl Hdl] by (split; congruence).
  destruct n as [|n].
  - rewrite (bind_run _ _ _ _ _ (new_buffer_full _)), (bind_run _ _ _ _ _ (store_ok _ _ _ _ _ _ El)).
    eexists (Loc k), (Loc d), _, Wild, Wild, Null, _. split; [done|].
    split_and!; [apply lookup_insert_eq|by left|right; exists k|right; exists d];
      by rewrite lookup_insert_ne.
  - assert (n = O) as -> by lia.
    rewrite (bind_run _ _ _ _ _ (new_buffer_ok (Some 1%nat) h2 ltac:(done))).
    apply (lookup_new _ Raw) in El, Ek, Ed. cbn [next_mem Nat.sub].
    revert El Ek Ed. generalize (<[new_loc h2 := Raw]> h2) as h3. generalize (new_loc h2) as x.
    intros x h3 El Ek Ed.
    rewrite (bind_run _ _ _ _ _ (store_ok _ _ _ _ _ _ El)), bool_decide_false by done.
    rewrite (bind_run _ _ _ _ _ (new_buffer_full _)).
    rewrite (bind_run _ _ _ _ _ (store_ok _ _ _ _ _ _ (lookup_insert_eq _ _ _))).
    eexists (Loc k), (Loc d), _, Null, Wild, (Loc x), _. split; [done|].
    rewrite insert_insert_eq.
    split_and!; [apply lookup_insert_eq|by right|right; exists k|right; exists d];
      by rewrite lookup_insert_ne.
Qed.

Lemma fill_underived l it m h : can_alloc m →
  sender_message_key_fill l it false (World m h)
  = (Ok (Loc (new_loc h), Null, Some SG_ERR_UNKNOWN),
     World (next_mem m) (<[new_loc h := Obj 1 HkdfContext]> h)).
Proof. intros E. unfold sender_message_key_fill. by rewrite (bind_run _ _ _ _ _ (hkdf_create_ok _ _ E)). Qed.

(** [sender_message_key_create] does not clear the object it allocates:
    when memory runs out after the object and before the last of its three
    buffers, or when the key derivation fails, its error path frees pointers
    that were never set. *)
Theorem sender_message_key_create_unset it m h :
  (∀ n, (1 <= n <= 4)%nat →
     (sender_message_key_create it true true (World (Some n) h)).1 = Abort) ∧
  (can_alloc m → can_alloc (next_mem m) →
     (sender_message_key_create it true false (World m h)).1 = Abort).
Proof.
  pose proof (lookup_insert_eq h (new_loc h) (Obj 1 (SenderMessageKey it Wild Wild Wild))) as El.
  unfold sender_message_key_create. cbn [negb]. split.
  - intros n Hn. rewrite (bind_run _ _ _ _ _ (new_object_ok _ (Some n) h ltac:(intros [=]; lia))).
    cbn [next_mem]. destruct (fill_short _ _ (n - 1) _ El) as (? & ? & ? & ? & ? & ? & ? & E & ?); [lia|].
    rewrite (bind_run _ _ _ _ _ E). eapply error_path_aborts; naive_solver.
  - intros H1 H2. rewrite (bind_run _ _ _ _ _ (new_object_ok _ m h H1)).
    pose proof (lookup_insert_eq (<[new_loc h := Obj 1 (SenderMessageKey it Wild Wild Wild)]> h)
      (new_loc (<[new_loc h := Obj 1 (SenderMessageKey it Wild Wild Wild)]> h))
      (Obj 1 HkdfContext)) as Ek.
    apply (lookup_new _ (Obj 1 HkdfContext)) in El.
    rewrite (bind_run _ _ _ _ _ (fill_underived _ _ _ _ H2)).
    eapply error_path_aborts; [exact El|by left|right; eauto|by left].
Qed.

(** [pending b H l o h]: the invariant holds once the object at [l] is taken
    to be [o]; what it really holds is not set yet. *)
Definition pending (b : Z) (H : list handle) (l : loc) (o : object) (h : heap) : Prop :=
  (∃ x, h !! l = Some (Obj 1 x)) ∧ inv b H [] (<[l := Obj 1 o]> h).

Lemma pending_raw b H l o h : pending b H l o h →
  pending b ((TRaw, new_loc h) :: H) l o (<[new_loc h := Raw]> h).
Proof.
  intros [[x E] I]. assert (new_loc h ≠ l) by (apply new_loc_ne; by rewrite E). split.
  - exists x. by apply lookup_new.
  - rewrite insert_insert_ne by done. apply inv_new_raw; [done|].
    rewrite lookup_insert_ne by done. apply new_loc_fresh.
Qed.

Lemma pending_kdf b H l o h : pending b H l o h →
  pending b ((THkdf, new_loc h) :: H) l o (<[new_loc h := Obj 1 HkdfContext]> h).
Proof.
  intros [[x E] I]. assert (new_loc h ≠ l) by (apply new_loc_ne; by rewrite E). split.
  - exists x. by apply lookup_new.
  - rewrite insert_insert_ne by done.
    apply (inv_new b H [] (<[l := Obj 1 o]> h) (new_loc h) HkdfContext); [done| |].
    + rewrite lookup_insert_ne by done. apply new_loc_fresh.
    + split; [constructor|done].
Qed.

Lemma pending_store b H l o x h : pending b H l o h → pending b H l o (<[l := Obj 1 x]> h).
Proof.
  intros [_ I]. split; [exists x; apply lookup_insert_eq|]. by rewrite insert_insert_eq.
Qed.

Lemma pending_done b H l it i c s h :
  pending b ((TRaw, c) :: (TRaw, i) :: (TRaw, s) :: H) l (SenderMessageKey it Null Null Null) h →
  inv b H [] (<[l := Obj 1 (SenderMessageKey it (Loc i) (Loc c) (Loc s))]> h).
Proof.
  intros [_ I]. pose proof (inv_bound _ _ _ _ I).
  rewrite <- (insert_insert_eq h l _ (Obj 1 (SenderMessageKey it Null Null Null))).
  pose proof (inv_handle _ _ _ _ I) as T.
  eapply inv_update; [exact I|apply lookup_insert_eq|done| |lia|lia| |].
  - split; [|done]. cbn. repeat constructor; apply T; rewrite !elem_of_cons; tauto.
  - intros k. cbn. lia.
  - intros t k Hk. apply T. by do 3 right.
Qed.

(** With memory for its six allocations the function creates the key. *)
Lemma sender_message_key_create_spec b H m h it (set : bool) :
  inv b H [] h → room 6 m →
  wp (sender_message_key_create it set true) (World m h)
    (post b H (λ l, [(TSenderMessageKey, l)])).
Proof.
  intros I (R1 & R2 & R3 & R4 & R5 & R6 & _). unfold sender_message_key_create.
  destruct set; cbn [negb]; [|finish_post].
  apply wp_bind. eapply wp_eq; [by apply new_object_ok|]. cbv beta iota.
  assert (pending b ((TSenderMessageKey, new_loc h) :: H) (new_loc h)
    (SenderMessageKey it Null Null Null)
    (<[new_loc h := Obj 1 (SenderMessageKey it Wild Wild Wild)]> h)) as P1.
  { split; [eexists; apply lookup_insert_eq|]. rewrite insert_insert_eq.
    apply (inv_new b H [] h (new_loc h) (SenderMessageKey it Null Null Null)); [done|apply new_loc_fresh|].
    split; [by repeat constructor|done]. }
  revert P1. generalize (<[new_loc h := Obj 1 (SenderMessageKey it Wild Wild Wild)]> h) as h1.
  generalize (new_loc h) as l. intros l h1 P1. apply wp_bind. unfold sender_message_key_fill.
  apply wp_bind. eapply wp_eq; [by apply hkdf_create_ok|]. cbv beta iota.
  apply pending_kdf in P1. revert P1.
  generalize (<[new_loc h1 := Obj 1 HkdfContext]> h1) as h2. generalize (new_loc h1) as k. intros k h2 P2.
  apply wp_bind. eapply wp_eq; [by apply new_buffer_ok|]. cbv beta iota.
  rewrite bool_decide_false by done. apply pending_raw in P2. revert P2.
  generalize (<[new_loc h2 := Raw]> h2) as h3. generalize (new_loc h2) as d. intros d h3 P3.
  apply wp_bind. eapply wp_eq; [by apply new_buffer_ok|]. cbv beta iota.
  apply pending_raw in P3. revert P3.
  generalize (<[new_loc h3 := Raw]> h3) as h4. generalize (new_loc h3) as s. intros s h4 P4.
  destruct (P4) as [[x4 E4] _]. apply wp_bind. eapply wp_eq; [by apply (store_ok _ x4)|]. cbv beta iota.
  rewrite bool_decide_false by done. apply (pending_store _ _ _ _ (SenderMessageKey it Wild Wild (Loc s))) in P4.
  revert P4. generalize (<[l := Obj 1 (SenderMessageKey it Wild Wild (Loc s))]> h4) as h5. intros h5 P5.
  apply wp_bind. eapply wp_eq; [by apply new_buffer_ok|]. cbv beta iota.
  apply pending_raw in P5. revert P5.
  generalize (<[new_loc h5 := Raw]> h5) as h6. generalize (new_loc h5) as i. intros i h6 P6.
  destruct (P6) as [[x6 E6] _]. apply wp_bind. eapply wp_eq; [by apply (store_ok _ x6)|]. cbv beta iota.
  rewrite bool_decide_false by done. apply (pending_store _ _ _ _ (SenderMessageKey it (Loc i) Wild (Loc s))) in P6.
  revert P6. generalize (<[l := Obj 1 (SenderMessageKey it (Loc i) Wild (Loc s))]> h6) as h7. intros h7 P7.
  apply wp_bind. eapply wp_eq; [by apply new_buffer_ok|]. cbv beta iota.
  apply pending_raw in P7. revert P7.
  generalize (<[new_loc h7 := Raw]> h7) as h8. generalize (new_loc h7) as c. intros c h8 P8.
  destruct (P8) as [[x8 E8] _]. apply wp_bind. eapply wp_eq; [by apply (store_ok _ x8)|]. cbv beta iota.
  rewrite bool_decide_false by done. apply wp_ret. apply pending_done in P8.
  apply wp_bind. eapply (wp_unref b ((TRaw, d) :: (TSenderMessageKey, l) :: H) THkdf k).
  { eapply inv_perm; [|exact P8]. apply Permutation_swap. }
  { done. }
  intros h9 I9 _. apply wp_bind. eapply (wp_free_raw b _ (Loc d)); [exact I9|done|].
  intros h10 I10 _. by apply wp_ret.
Qed.
