(* ===== verification/RefDecodeSpec.v ===== *)
(** Deserialization of a session state as an operation on the heap (RefOps.v):
    for the two session versions there are it hands over exactly one reference
    to a complete state or gives back everything; for any other version a chain
    key in the input makes it release freed memory. *)
From stdpp Require Import gmap.
From S2P Require Import Prelude RefCount RefCountInv RefOps RefRules RefOpsSpec RefStateSpec.

(** Handles in another order. *)
Ltac reorder I :=
  eapply inv_equiv;
  [ exact I
  | intros ?; rewrite ?occ_app; cbn [occ]; rewrite ?occ_app; cbn [occ]; lia
  | intros ?; rewrite ?elem_of_app, ?elem_of_cons, ?elem_of_app, ?elem_of_cons,
      ?elem_of_nil; tauto ].

Definition keeps_cells (h h' : heap) : Prop := ∀ j c, h !! j = Some c → h' !! j = Some c.

(** A new object without references: it is counted once. *)
Lemma wp_new_leaf o b H m h : inv b H [] h → obj_ok h o → handles (owns o) = [] →
  wp (new_object o) (World m h)
    (λ r w, keeps_cells h (w_user w) ∧
       match r with
       | inl l => inv b ((ty_of o, l) :: H) [] (w_user w) ∧ count (w_user w) l = 1
       | inr _ => inv b H [] (w_user w)
       end).
Proof.
  intros I Ho E. eapply wp_create; [exact I|exact Ho| |split; [by intros ? ?|done]].
  intros m' l h' _ El _ Hc I'. rewrite E in I'. split_and!; [done|done|].
  unfold count. cbn [w_user]. by rewrite El.
Qed.

(** An out parameter with its code. *)
Definition out (b : Z) (H : list handle) (t : ty) (h : heap) : (ptr * option Z) + Z → mem → Prop :=
  λ r w, keeps_cells h (w_user w) ∧ ∃ p code, r = inl (p, code) ∧
    ((code = None ∧ ∃ l, p = Loc l ∧ inv b ((t, l) :: H) [] (w_user w) ∧ count (w_user w) l = 1) ∨
     ((∃ e, code = Some e) ∧ p = Null ∧ inv b H [] (w_user w))).

Lemma outcome_public data b H m h : inv b H [] h →
  wp (outcome (curve_decode_point data)) (World m h) (out b H TPublicKey h).
Proof.
  intros I. apply wp_bind, wp_try. unfold curve_decode_point.
  assert (∀ e, wp (fail (A := loc) e) (World m h) (λ r w,
    wp (match r with inl l => ret (Loc l, None) | inr e => ret (Null, Some e) end) w
      (out b H TPublicKey h))) as Hf.
  { intros e. apply wp_fail, wp_ret. split; [by intros ? ?|]. eexists _, _. split; [done|]. right. eauto. }
  destruct (_ && _); [apply Hf|]. case_bool_decide; [|apply Hf].
  eapply wp_mono; [apply (wp_new_leaf (EcPublicKey _)); [exact I|split; [constructor|done]|done]|].
  intros [l|e] w [Hk Hr]; apply wp_ret; (split; [done|]); eexists _, _; (split; [done|]).
  - left. destruct Hr. eauto.
  - right. eauto.
Qed.

Lemma outcome_private data b H m h : inv b H [] h →
  wp (outcome (curve_decode_private_point data)) (World m h) (out b H TPrivateKey h).
Proof.
  intros I. apply wp_bind, wp_try. unfold curve_decode_private_point. case_bool_decide.
  - eapply wp_mono; [apply (wp_new_leaf EcPrivateKey); [exact I|split; [constructor|done]|done]|].
    intros [l|e] w [Hk Hr]; apply wp_ret; (split; [done|]); eexists _, _; (split; [done|]).
    + left. destruct Hr. eauto.
    + right. eauto.
  - apply wp_fail, wp_ret. split; [by intros ? ?|]. eexists _, _. split; [done|]. right. eauto.
Qed.

Section Pair.
Context (create : ptr → ptr → M mem loc) (t : ty).
Hypothesis create_spec : ∀ b b' H m h pub priv,
  inv b H [] h → b <= b' < 2 ^ 32 →
  type_at h pub = Some TPublicKey → type_at h priv = Some TPrivateKey →
  count h pub + 1 <= b' → count h priv + 1 <= b' →
  wp (create (Loc pub) (Loc priv)) (World m h) (postk b' H (λ l, [(t, l)]) h).

Lemma decode_pair_spec b H m h public private code : 2 <= b → inv b H [] h →
  wp (decode_pair create public private code) (World m h)
    (λ r w, ∃ pub priv kp code', r = inl (pub, priv, kp, code') ∧
       pub ≠ Wild ∧ priv ≠ Wild ∧ kp ≠ Wild ∧ kept h (w_user w) ∧
       inv b (ptr_handles TPublicKey pub ++ ptr_handles TPrivateKey priv ++ ptr_handles t kp ++ H)
         [] (w_user w)).
Proof using create_spec.
  intros Hb I.
  assert (wp (ret (Null, Null, Null, code)) (World m h)
    (λ r w, ∃ pub priv kp code', r = inl (pub, priv, kp, code') ∧
       pub ≠ Wild ∧ priv ≠ Wild ∧ kp ≠ Wild ∧ kept h (w_user w) ∧
       inv b (ptr_handles TPublicKey pub ++ ptr_handles TPrivateKey priv ++ ptr_handles t kp ++ H)
         [] (w_user w))) as Hnull.
  { apply wp_ret. exists Null, Null, Null, code. by split_and!; try apply kept_refl. }
  unfold decode_pair. destruct code as [e|]; [done|].
  destruct public as [public|]; [|done]. destruct private as [private|]; [|done]. clear Hnull.
  apply wp_bind. eapply wp_mono; [by apply outcome_public|].
  intros ? [m1 h1] [K1 (pub & c1 & -> & [[-> (lp & -> & I1 & C1)]|[[e ->] [-> I1]]])]; cbn [w_user] in *.
  2:{ cbn [unless_failed]. do 2 (apply wp_bind, wp_ret). apply wp_ret.
      exists Null, Null, Null, (Some e). by split_and!; try apply kept_cells. }
  apply wp_bind. cbn [unless_failed]. eapply wp_mono; [by apply outcome_private|].
  intros ? [m2 h2] [K2 (priv & c2 & -> & [[-> (lq & -> & I2 & C2)]|[[e ->] [-> I2]]])]; cbn [w_user] in *.
  2:{ cbn [unless_failed]. apply wp_bind, wp_ret. apply wp_ret.
      exists (Loc lp), Null, Null, (Some e). split_and!; try done.
      eapply kept_trans; [by apply kept_cells|by apply kept_cells]. }
  cbn [unless_failed]. apply wp_bind. unfold outcome. apply wp_bind, wp_try.
  pose proof (inv_bound _ _ _ _ I). pose proof (inv_handle _ _ _ _ I2) as T2.
  eapply wp_mono.
  { eapply create_spec; [exact I2|split; [reflexivity|lia]|apply T2; right; left|apply T2; left|..].
    - rewrite (count_mono h1 h2); [lia|done|]. eapply type_live, (inv_handle _ _ _ _ I1). left.
    - lia. }
  assert (kept h h2) as K12 by (eapply kept_trans; by apply kept_cells).
  intros [kp|e] [m3 h3]; unfold postk, post; cbn [w_user app]; intros [I3 K3]; apply wp_ret, wp_ret;
    apply (kept_trans _ _ _ K12) in K3.
  - exists (Loc lp), (Loc lq), (Loc kp), None. split_and!; try done. cbn [w_user ptr_handles app]. reorder I3.
  - exists (Loc lp), (Loc lq), Null, (Some e). split_and!; try done. cbn [w_user ptr_handles app]. reorder I3.
Qed.
End Pair.

Lemma decode_chain_key_spec v b H m h ck code : v = 2 ∨ v = 3 → 2 <= b → inv b H [] h →
  wp (decode_chain_key v ck code) (World m h)
    (λ r w, ∃ kdf chain code', r = inl (kdf, chain, code') ∧ kdf ≠ Wild ∧ chain ≠ Wild ∧
       kept h (w_user w) ∧
       inv b (ptr_handles THkdf kdf ++ ptr_handles TChainKey chain ++ H) [] (w_user w)).
Proof.
  intros Hv Hb I. pose proof (inv_bound _ _ _ _ I).
  assert (wp (ret (Null, Null, code)) (World m h)
    (λ r w, ∃ kdf chain code', r = inl (kdf, chain, code') ∧ kdf ≠ Wild ∧ chain ≠ Wild ∧
       kept h (w_user w) ∧
       inv b (ptr_handles THkdf kdf ++ ptr_handles TChainKey chain ++ H) [] (w_user w))) as Hnull.
  { apply wp_ret. exists Null, Null, code. by split_and!; try apply kept_refl. }
  unfold decode_chain_key. destruct code as [e|]; [done|].
  destruct ck as [[[key|] [idx|]]|]; try done. clear Hnull.
  apply wp_bind. eapply wp_mono; [by apply (hkdf_create_spec v b H)|].
  intros ? [m1 h1] (p & c & -> & I1 & K1 & [[-> (k & -> & E1)]|[-> ->]]); cbn [w_user] in *.
  2:{ cbn [unless_failed]. apply wp_bind, wp_ret. apply wp_ret.
      by exists Null, Null, (Some SG_ERR_NOMEM). }
  cbn [unless_failed ptr_handles app] in *. apply wp_bind. unfold outcome. apply wp_bind, wp_try.
  eapply wp_mono.
  { eapply (ratchet_chain_key_create_spec b b); [exact I1|lia|unfold type_at; by rewrite E1|].
    unfold count. rewrite E1. cbn. lia. }
  intros [l|e] [m2 h2]; unfold postk, post; cbn [w_user app]; intros [I2 K2]; apply wp_ret, wp_ret;
    apply (kept_trans _ _ _ K1) in K2.
  - exists (Loc k), (Loc l), None. split_and!; try done. cbn [w_user ptr_handles app]. reorder I2.
  - exists (Loc k), Null, (Some e). by split_and!.
Qed.

(** * Chains and the pending key exchange *)

(** The objects the caller holds are as they were. *)
Definition held_kept (H : list handle) (h h' : heap) : Prop :=
  ∀ t j o, (t, j) ∈ H → payload_at h j o → payload_at h' j o.

Lemma held_kept_shrinks b H H' h h1 h2 : kept h h1 → inv b H' [] h2 → (∀ x, x ∈ H → x ∈ H') →
  shrinks h1 h2 → held_kept H h h2.
Proof.
  intros K I Hs S t j o Hj P. eapply shrinks_payload; [exact I|by apply Hs|exact S|by apply K].
Qed.

Lemma held_kept_trans b H H' h h1 h2 : held_kept H h h1 → inv b H' [] h2 →
  (∀ x, x ∈ H → x ∈ H') → shrinks h1 h2 → held_kept H h h2.
Proof.
  intros K I Hs S t j o Hj P. eapply shrinks_payload; [exact I|by apply Hs|exact S|by eapply K].
Qed.

Lemma releases_unrefs (l : list (ty * ptr)) :
  Forall (λ '(t, p), t ≠ TRaw ∧ p ≠ Wild) l → releases ((λ '(_, p), Unref p) <$> l) (handles l).
Proof.
  induction 1 as [|[t p] l [Ht Hp] _ IH]; [constructor|]. cbn [fmap list_fmap].
  rewrite handles_cons. by apply releases_unref.
Qed.

Ltac unref_list l :=
  eapply (wp_perform _ (handles l));
  [ | apply (releases_unrefs l); repeat constructor; done | ].

Lemma sender_chain_spec v b H m h chain : v = 2 ∨ v = 3 → 2 <= b → inv b H [] h →
  wp (session_state_deserialize_protobuf_sender_chain v chain) (World m h)
    (λ r w, match r with
            | inl (kp, ck) => kp ≠ Wild ∧ ck ≠ Wild ∧
                inv b (ptr_handles TKeyPair kp ++ ptr_handles TChainKey ck ++ H) [] (w_user w)
            | inr _ => inv b H [] (w_user w)
            end ∧ held_kept H h (w_user w)).
Proof.
  intros Hv Hb I. apply wp_bind.
  eapply wp_mono; [by apply (decode_pair_spec _ TKeyPair ec_key_pair_create_spec)|].
  intros ? [m1 h1] (pub & priv & kp & c1 & -> & W1 & W2 & W3 & K1 & I1). apply wp_bind.
  eapply wp_mono; [by apply decode_chain_key_spec|].
  intros ? [m2 h2] (kdf & ck & c2 & -> & W4 & W5 & K2 & I2). cbn [w_user] in *. apply wp_bind.
  apply (kept_trans _ _ _ K1) in K2.
  unref_list [(THkdf, kdf); (TPublicKey, pub); (TPrivateKey, priv)].
  { instantiate (1 := ptr_handles TKeyPair kp ++ ptr_handles TChainKey ck ++ H).
    unfold handles. cbn [mbind list_bind w_user]. rewrite <- ?app_assoc. reorder I2. }
  cbn [w_user w_mem]. intros h3 I3 S3.
  assert (held_kept H h h3) as K3
    by (eapply held_kept_shrinks; [exact K2|exact I3| |exact S3]; intros ?; rewrite !elem_of_app; tauto).
  destruct c2 as [e|].
  - apply wp_bind. unref_list [(TKeyPair, kp); (TChainKey, ck)].
    { cbn [w_user]. unfold handles. cbn [mbind list_bind]. rewrite <- ?app_assoc. exact I3. }
    intros h4 I4 S4. apply wp_fail. split; [done|]. by eapply held_kept_trans.
  - by apply wp_ret.
Qed.

Lemma decode_message_keys_spec b H m h cs keys :
  inv b (handles (key_fields keys) ++ H) [] h →
  wp (decode_message_keys cs keys) (World m h)
    (λ r w, ∃ keys' code, r = inl (keys', code) ∧ kept h (w_user w) ∧
       inv b (handles (key_fields keys') ++ H) [] (w_user w)).
Proof.
  revert m h keys. induction cs as [|c cs IH]; intros m h keys I; cbn [decode_message_keys].
  - apply wp_ret. eauto using kept_refl.
  - apply wp_bind. eapply wp_buffer; [exact I| |apply wp_ret; eauto 10 using kept_refl].
    intros m' k h' _ _ Hc I'. eapply wp_mono.
    + apply IH. rewrite key_fields_app, handles_app. cbn. reorder I'.
    + intros r w (keys' & code & -> & K & Iw). eexists _, _. split_and!; [done| |done].
      eapply kept_trans; [by apply kept_cells|done].
Qed.

Lemma receiver_chain_spec v b H m h node chain : v = 2 ∨ v = 3 → 2 <= b →
  inv b ((TRaw, node) :: H) [] h →
  wp (session_state_deserialize_protobuf_receiver_chain v node chain) (World m h)
    (λ r w, match r with
            | inl rn => set_ptrs (receiver_node_fields rn) ∧
                inv b (handles (receiver_node_fields rn) ++ H) [] (w_user w)
            | inr _ => inv b ((TRaw, node) :: H) [] (w_user w)
            end ∧ held_kept H h (w_user w)).
Proof.
  intros Hv Hb I. apply wp_bind. eapply wp_mono with (P := λ r w, ∃ key code, r = inl (key, code) ∧
    key ≠ Wild ∧ kept h (w_user w) ∧ inv b (ptr_handles TPublicKey key ++ (TRaw, node) :: H) [] (w_user w)).
  { destruct (cs_sender_ratchet_key chain) as [data|]; [|apply wp_ret; exists Null, None; by split_and!; try apply kept_refl].
    eapply wp_mono; [by apply outcome_public|].
    intros ? w [K (p & c & -> & [[-> (l & -> & I1 & _)]|[[e ->] [-> I1]]])]; eexists _, _;
      by split_and!; try apply kept_cells. }
  intros ? [m1 h1] (key & c1 & -> & W1 & K1 & I1). cbn [w_user] in *. apply wp_bind.
  eapply wp_mono; [by apply decode_chain_key_spec|].
  intros ? [m2 h2] (kdf & ck & c2 & -> & W2 & W3 & K2 & I2). cbn [w_user] in *. apply wp_bind.
  eapply wp_mono with (P := λ r w, ∃ keys code, r = inl (keys, code) ∧ kept h2 (w_user w) ∧
    inv b (handles (key_fields keys) ++ ptr_handles THkdf kdf ++ ptr_handles TChainKey ck ++
      ptr_handles TPublicKey key ++ (TRaw, node) :: H) [] (w_user w)).
  { destruct c2 as [e|]; [apply wp_ret; exists [], (Some e); by split_and!; try apply kept_refl|].
    by apply decode_message_keys_spec. }
  intros ? [m3 h3] (keys & c3 & -> & K3 & I3). cbn [w_user] in *. apply wp_bind.
  apply (kept_trans _ _ _ K1) in K2. apply (kept_trans _ _ _ K2) in K3.
  eapply (wp_unref_ptr b (handles (key_fields keys) ++ ptr_handles TChainKey ck ++
    ptr_handles TPublicKey key ++ (TRaw, node) :: H) THkdf kdf); [|done|done|].
  { cbn [w_user]. reorder I3. }
  cbn [w_user w_mem]. intros h4 I4 S4.
  assert (held_kept H h h4) as K4.
  { eapply held_kept_shrinks; [exact K3|exact I4| |exact S4].
    intros ?. rewrite !elem_of_app, elem_of_cons. tauto. }
  destruct c3 as [e|].
  - apply wp_bind.
    eapply (wp_perform b (handles [(TPublicKey, key); (TChainKey, ck)] ++ handles (key_fields keys))
      ((TRaw, node) :: H)).
    + cbn [w_user]. unfold handles at 1. cbn [mbind list_bind]. rewrite <- ?app_assoc. reorder I4.
    + apply releases_app; [|apply releases_message_keys].
      apply (releases_unrefs [(TPublicKey, key); (TChainKey, ck)]). by repeat constructor.
    + intros h5 I5 S5. apply wp_fail. split; [done|].
      eapply held_kept_trans; [exact K4|exact I5|by right|exact S5].
  - apply wp_ret. split; [|done]. split.
    + repeat constructor; [done|done|]. apply Forall_app. split; [|by repeat constructor].
      cbn. apply Forall_fmap, Forall_true. by intros [? ?].
    + unfold receiver_node_fields. cbn [rn_node rn_sender_ratchet_key rn_chain_key rn_message_keys w_user].
      rewrite !handles_app. fold (key_fields keys). unfold handles at 1 3. cbn [mbind list_bind ptr_handles app].
      rewrite <- ?app_assoc. cbn [app]. reorder I4.
Qed.

Lemma pending_key_exchange_spec b H m h ex : 2 <= b → inv b H [] h →
  wp (session_state_deserialize_protobuf_pending_key_exchange ex) (World m h)
    (λ r w, match r with
            | inl (base, ratchet, idk) => base ≠ Wild ∧ ratchet ≠ Wild ∧ idk ≠ Wild ∧
                inv b (ptr_handles TKeyPair base ++ ptr_handles TKeyPair ratchet ++
                  ptr_handles TIdentityKeyPair idk ++ H) [] (w_user w)
            | inr _ => inv b H [] (w_user w)
            end ∧ held_kept H h (w_user w)).
Proof.
  intros Hb I. apply wp_bind.
  eapply wp_mono; [by apply (decode_pair_spec _ TKeyPair ec_key_pair_create_spec)|].
  intros ? [m1 h1] (pub1 & priv1 & kp1 & c1 & -> & W1 & W2 & W3 & K1 & I1). apply wp_bind.
  eapply wp_mono; [by apply (decode_pair_spec _ TKeyPair ec_key_pair_create_spec)|].
  intros ? [m2 h2] (pub2 & priv2 & kp2 & c2 & -> & W4 & W5 & W6 & K2 & I2). apply wp_bind.
  eapply wp_mono; [by apply (decode_pair_spec _ TIdentityKeyPair ratchet_identity_key_pair_create_spec)|].
  intros ? [m3 h3] (pub3 & priv3 & kp3 & c3 & -> & W7 & W8 & W9 & K3 & I3). cbn [w_user] in *.
  apply (kept_trans _ _ _ K1) in K2. apply (kept_trans _ _ _ K2) in K3. apply wp_bind.
  unref_list [(TPublicKey, pub1); (TPrivateKey, priv1); (TPublicKey, pub2); (TPrivateKey, priv2);
    (TPublicKey, pub3); (TPrivateKey, priv3)].
  { instantiate (1 := ptr_handles TKeyPair kp1 ++ ptr_handles TKeyPair kp2 ++
      ptr_handles TIdentityKeyPair kp3 ++ H).
    unfold handles. cbn [mbind list_bind w_user]. rewrite <- ?app_assoc. reorder I3. }
  cbn [w_user w_mem]. intros h4 I4 S4.
  assert (held_kept H h h4) as K4
    by (eapply held_kept_shrinks; [exact K3|exact I4| |exact S4]; intros ?; rewrite !elem_of_app; tauto).
  destruct c3 as [e|].
  - apply wp_bind. unref_list [(TKeyPair, kp1); (TKeyPair, kp2); (TIdentityKeyPair, kp3)].
    { cbn [w_user]. unfold handles. cbn [mbind list_bind]. rewrite <- ?app_assoc. exact I4. }
    intros h5 I5 S5. apply wp_fail. split; [done|]. by eapply held_kept_trans.
  - by apply wp_ret.
Qed.

(** * The state *)

(** A step on the state at [st], which is held: it leaves a state that
    satisfies [S], or fails. *)
Definition step (b : Z) (H : list handle) (st : loc) (S : state_fields → Prop)
    : unit + Z → mem → Prop :=
  λ r w, inv b H [] (w_user w) ∧
    (r = inl tt → ∃ s, S s ∧ payload_at (w_user w) st (SessionState s)).

Lemma step_none b H st s (S : state_fields → Prop) m h :
  inv b H [] h → payload_at h st (SessionState s) → S s → wp (ret tt) (World m h) (step b H st S).
Proof. intros I P HS. apply wp_ret. split; [done|]. eauto. Qed.

Lemma wp_step_bind b H st S k w (Q : unit + Z → mem → Prop) m' :
  wp m' w (step b H st S) →
  (∀ m h s, inv b H [] h → S s → payload_at h st (SessionState s) → wp k (World m h) Q) →
  (∀ m h e, inv b H [] h → Q (inr e) (World m h)) →
  wp (let* _ := m' in k) w Q.
Proof.
  intros Hm Hk He. apply wp_bind. eapply wp_mono; [exact Hm|].
  intros [[]|e] [m h] [I Hs]; cbn [w_user] in *; [|by apply He].
  destruct (Hs eq_refl) as (s & HS & P). by eapply Hk.
Qed.

Lemma decode_into_spec f b H st s m h data `{!FieldOk f TState TPublicKey} `{!FieldFree f TPublicKey} :
  inv b H [] h → payload_at h st (SessionState s) →
  field_get f (SessionState s) = Some Null →
  wp (decode_into st f data) (World m h)
    (step b H st (λ s', SessionState s' = SessionState s ∨
       ∃ k, SessionState s' = field_set f (Loc k) (SessionState s))).
Proof.
  intros I P E. destruct data as [data|]; [|by eapply step_none; eauto]. apply wp_bind.
  unfold curve_decode_point.
  assert (∀ e, wp (fail e) (World m h) (λ r w, match r with
    | inl key => wp (set_field st f (Loc key)) w
        (step b H st (λ s', SessionState s' = SessionState s ∨
           ∃ k, SessionState s' = field_set f (Loc k) (SessionState s)))
    | inr e => step b H st (λ s', SessionState s' = SessionState s ∨
           ∃ k, SessionState s' = field_set f (Loc k) (SessionState s)) (inr e) w end)) as Hf
    by (intros e; by apply wp_fail; split).
  destruct (_ && _); [apply Hf|]. case_bool_decide; [|apply Hf].
  eapply (wp_create (EcPublicKey _)); [exact I|split; [constructor|done]| |by split].
  intros m1 k h1 _ _ _ Hc I1. cbn in I1.
  eapply (wp_set_field f TState TPublicKey b H st); [exact I1|done|by eapply payload_mono|exact E|].
  cbn [w_user w_mem]. intros h2 I2 P2. split; [done|]. intros _.
  pose proof (field_set_ty _ _ (Loc k) E) as Hty.
  destruct (field_set f (Loc k) (SessionState s)) eqn:Es; try done.
  eexists. split; [right; exists k; by rewrite Es|done].
Qed.

Lemma decode_root_key_spec v b H st s m h key : v = 2 ∨ v = 3 → 2 <= b →
  inv b H [] h → (TState, st) ∈ H → payload_at h st (SessionState s) → sf_root_key s = Null →
  wp (decode_root_key st v key) (World m h) (step b H st (λ s', ∃ p, s' = set_root_key p s)).
Proof.
  intros Hv Hb I Hst P E. pose proof (inv_bound _ _ _ _ I). destruct key as [key|].
  2:{ eapply step_none; [exact I|exact P|]. exists Null. destruct s. cbn in *. by subst. }
  apply wp_bind. eapply wp_mono; [by apply (hkdf_create_spec v b H)|].
  intros ? [m1 h1] (p & c & -> & I1 & K1 & [[-> (k & -> & E1)]|[-> ->]]); cbn [w_user] in *;
    [|by apply wp_fail; split].
  cbn [ptr_handles app] in I1. apply wp_bind. unfold outcome. apply wp_bind, wp_try.
  eapply wp_mono.
  { eapply (ratchet_root_key_create_spec b b); [exact I1|lia|unfold type_at; by rewrite E1|].
    unfold count. rewrite E1. cbn. lia. }
  assert (∀ m2 h2 root code, inv b (ptr_handles TRootKey root ++ (THkdf, k) :: H) [] h2 →
    root ≠ Wild → payload_at h2 st (SessionState s) →
    wp (let* _ := set_field st f_root_key root in
        let* _ := SIGNAL_UNREF (Loc k) in
        match code with Some e => fail e | None => ret tt end) (World m2 h2)
      (step b H st (λ s', ∃ p, s' = set_root_key p s))) as Hrest.
  { intros m2 h2 root code I2 W2 P2. apply wp_bind.
    eapply (wp_set_field f_root_key TState TRootKey b ((THkdf, k) :: H) st);
      [exact I2|exact W2|exact P2|cbn; by rewrite E|].
    cbn [w_user w_mem]. intros h3 I3 P3. apply wp_bind.
    eapply wp_unref; [exact I3|done|]. cbn [w_user w_mem]. intros h4 I4 S4.
    pose proof (shrinks_payload _ _ _ _ _ _ _ _ I4 Hst S4 P3) as P4.
    destruct code as [e|]; [by apply wp_fail; split|]. eapply step_none; [exact I4|exact P4|].
    by eexists. }
  intros [l|e] [m2 h2]; unfold postk, post; cbn [w_user app]; intros [I2 K2]; apply wp_ret.
  - apply (Hrest _ _ (Loc l) None); [exact I2|done|by apply K2, K1].
  - apply (Hrest _ _ Null (Some e)); [exact I2|done|by apply K2, K1].
Qed.

(** The flag is set whatever became of the chain. *)
Lemma decode_sender_chain_spec v b H st s m h chain : v = 2 ∨ v = 3 → 2 <= b →
  inv b H [] h → (TState, st) ∈ H → payload_at h st (SessionState s) →
  sf_sender_ratchet_key_pair s = Null → sf_sender_chain_key s = Null →
  wp (decode_sender_chain st v chain) (World m h)
    (step b H st (λ s', ∃ x p q,
       s' = set_has_sender_chain x (set_sender_chain_key q (set_sender_ratchet_key_pair p s)))).
Proof.
  intros Hv Hb I Hst P E1 E2. destruct chain as [chain|].
  2:{ eapply step_none; [exact I|exact P|]. exists (sf_has_sender_chain s), Null, Null.
      destruct s. cbn in *. by subst. }
  apply wp_bind, wp_try. eapply wp_mono; [by apply sender_chain_spec|].
  assert (∀ m1 h1 s1, inv b H [] h1 → payload_at h1 st (SessionState s1) →
    (∃ p q, s1 = set_sender_chain_key q (set_sender_ratchet_key_pair p s)) →
    wp (update_state st (set_has_sender_chain true)) (World m1 h1)
      (step b H st (λ s', ∃ x p q,
         s' = set_has_sender_chain x (set_sender_chain_key q (set_sender_ratchet_key_pair p s)))))
    as Hflag.
  { intros m1 h1 s1 I1 P1 (p & q & Es). eapply (wp_update_state b []); [exact I1|exact P1| | |].
    - pose proof (payload_ok _ _ _ _ _ _ I1 P1) as Ho. clear Es. destruct s1.
      rewrite obj_ok_state in *. cbn in *. tauto.
    - intros k. clear Es. destruct s1. rewrite !occ_state. unfold receivers_own. cbn -[handles]. lia.
    - intros h2 _ P2 I2. split; [done|]. intros _. eexists. split; [|exact P2]. subst s1. eauto. }
  intros [[kp ck]|e] [m1 h1]; cbn [w_user]; intros [Hr K].
  - destruct Hr as (W1 & W2 & I1). specialize (K _ _ _ Hst P). apply wp_bind.
    eapply (wp_update_state b (ptr_handles TKeyPair kp ++ ptr_handles TChainKey ck));
      [rewrite <- app_assoc; exact I1|exact K| | |].
    + pose proof (payload_ok _ _ _ _ _ _ I1 K) as Ho. pose proof (inv_handle _ _ _ _ I1) as T.
      destruct s. rewrite obj_ok_state in *. cbn in *.
      assert (ptr_ok h1 TKeyPair kp) by (destruct kp; [done|apply T; left|done]).
      assert (ptr_ok h1 TChainKey ck).
      { destruct ck; [done| |done]. apply T. rewrite !elem_of_app. right. left. left. }
      tauto.
    + intros k. destruct s. cbn in E1, E2. subst. rewrite !occ_state, occ_app. unfold receivers_own.
      cbn -[handles occ]. cbn [occ]. lia.
    + intros h2 _ P2 I2. eapply Hflag; [exact I2|exact P2|]. eauto.
  - apply wp_bind, wp_ret. eapply (Hflag _ _ s); [exact Hr|exact (K _ _ _ Hst P)|].
    exists Null, Null. destruct s. cbn in *. by subst.
Qed.

Lemma ptrs_ok_of_handles b H D h fs : inv b (handles fs ++ H) D h → set_ptrs fs → ptrs_ok h fs.
Proof.
  intros I Hs. apply Forall_forall. intros [t p] Hin. pose proof Hin as Hp.
  eapply Forall_forall in Hp; [|exact Hs]. destruct p as [|k|]; [done| |done].
  apply (inv_handle _ _ _ _ I), elem_of_app. left. by apply elem_of_handles.
Qed.

Lemma decode_receiver_chains_spec v b H st chains s m h : v = 2 ∨ v = 3 → 2 <= b →
  inv b H [] h → (TState, st) ∈ H → payload_at h st (SessionState s) →
  wp (decode_receiver_chains st v chains) (World m h)
    (step b H st (λ s', ∃ rs, s' = set_receiver_chain rs s)).
Proof.
  intros Hv Hb. revert s m h. induction chains as [|chain chains IH]; intros s m h I Hst P;
    cbn [decode_receiver_chains].
  { eapply step_none; [exact I|exact P|]. exists (sf_receiver_chain s). by destruct s. }
  apply wp_bind. eapply wp_node; [exact I| |by split].
  intros m1 node h1 _ Hc I1. apply (payload_mono _ h1) in P; [|done].
  apply wp_bind, wp_try. eapply wp_mono; [by apply receiver_chain_spec|].
  intros [rn|e] [m2 h2] [Hr K]; cbn [w_user] in *; specialize (K _ _ _ Hst P).
  - destruct Hr as [Hs I2]. pose proof (ptrs_ok_of_handles _ _ _ _ _ I2 Hs) as Hok.
    apply wp_bind.
    eapply (wp_update_state b (handles (receiver_node_fields rn))); [exact I2|exact K| | |].
    + pose proof (payload_ok _ _ _ _ _ _ I2 K) as Ho. destruct s. rewrite obj_ok_state in *.
      unfold receivers_own in *. cbn -[receiver_node_fields] in *.
      assert (ptrs_ok h2 ((sf_receiver_chain ++ [rn]) ≫= receiver_node_fields)).
      { rewrite bind_app. apply Forall_app. split; [unfold ptrs_ok in Ho; tauto|].
        cbn [mbind list_bind]. by rewrite app_nil_r. }
      tauto.
    + intros k. destruct s. rewrite !occ_state. unfold receivers_own.
      cbn -[handles receiver_node_fields]. rewrite bind_app, occ_handles_app.
      cbn -[handles receiver_node_fields]. rewrite app_nil_r. lia.
    + intros h3 _ P3 I3. eapply wp_mono; [by eapply IH|].
      intros r w [I4 Hx]. split; [done|]. intros ->. destruct (Hx eq_refl) as (s' & [rs ->] & P4).
      eexists. split; [|exact P4]. exists rs. by destruct s.
  - apply wp_bind. eapply (wp_free_raw b H (Loc node)); [exact Hr|done|].
    cbn [w_user w_mem]. intros h3 I3 _. by apply wp_fail; split.
Qed.

Lemma decode_exchange_spec b H st s m h ex : 2 <= b →
  inv b H [] h → (TState, st) ∈ H → payload_at h st (SessionState s) →
  sf_local_base_key s = Null → sf_local_ratchet_key s = Null → sf_local_identity_key s = Null →
  wp (decode_exchange st ex) (World m h)
    (step b H st (λ s', s' = s ∨ ∃ p q r, s' = set_pending_key_exchange p q r s)).
Proof.
  intros Hb I Hst P E1 E2 E3. destruct ex as [ex|].
  2:{ eapply step_none; [exact I|exact P|]. by left. }
  apply wp_bind. eapply wp_mono; [by apply pending_key_exchange_spec|].
  intros [[[p q] r]|e] [m1 h1]; cbn [w_user]; intros [Hr K]; [|by split].
  destruct Hr as (W1 & W2 & W3 & I1). specialize (K _ _ _ Hst P).
  eapply (wp_update_state b (handles [(TKeyPair, p); (TKeyPair, q); (TIdentityKeyPair, r)]));
    [unfold handles; cbn [mbind list_bind]; rewrite <- ?app_assoc; exact I1|exact K| | |].
  - pose proof (payload_ok _ _ _ _ _ _ I1 K) as Ho.
    assert (ptrs_ok h1 [(TKeyPair, p); (TKeyPair, q); (TIdentityKeyPair, r)]) as Hp.
    { eapply (ptrs_ok_of_handles b H []); [|by repeat constructor].
      unfold handles; cbn [mbind list_bind]; rewrite <- ?app_assoc; exact I1. }
    unfold ptrs_ok in Hp. rewrite !Forall_cons in Hp.
    destruct s. rewrite obj_ok_state in *. cbn in *. split; [tauto|]. split; [done|tauto].
  - intros k. destruct s. cbn in E1, E2, E3. subst. rewrite !occ_state, !occ_handles_cons.
    unfold receivers_own. cbn -[handles occ]. cbn [occ handles mbind list_bind]. lia.
  - intros h2 _ P2 I2. split; [done|]. intros _. eexists. split; [|exact P2]. eauto 10.
Qed.

Lemma decode_pre_key_spec b H st s m h pk :
  inv b H [] h → (TState, st) ∈ H → payload_at h st (SessionState s) → sf_pending_base_key s = Null →
  wp (decode_pre_key st pk) (World m h) (step b H st (λ s', ∃ x p, s' = set_pending_pre_key x p s)).
Proof.
  intros I Hst P E. destruct pk as [[data|]|].
  - apply wp_bind. eapply wp_mono with (P := λ r w, match r with
      | inl l => inv b ((TPublicKey, l) :: H) [] (w_user w) ∧ keeps_cells h (w_user w)
      | inr _ => inv b H [] (w_user w) end).
    { unfold curve_decode_point. destruct (_ && _); [by apply wp_fail|].
      case_bool_decide; [|by apply wp_fail].
      eapply wp_mono; [apply (wp_new_leaf (EcPublicKey _)); [exact I|split; [constructor|done]|done]|].
      intros [l|e] w [K Hr]; [|done]. by destruct Hr. }
    intros [l|e] [m1 h1]; cbn [w_user]; [|by split]. intros [I1 K].
    apply (payload_mono _ h1) in P; [|done].
    eapply (wp_update_state b [(TPublicKey, l)]); [exact I1|exact P| | |].
    + pose proof (payload_ok _ _ _ _ _ _ I1 P) as Ho.
      assert (type_at h1 l = Some TPublicKey) by (apply (inv_handle _ _ _ _ I1); left).
      destruct s. rewrite obj_ok_state in *. cbn in *. split; [tauto|]. split; [tauto|done].
    + intros k. destruct s. cbn in E. subst. rewrite !occ_state.
      unfold receivers_own. cbn -[handles occ]. cbn [occ ptr_handles]. lia.
    + intros h2 _ P2 I2. split; [done|]. intros _. eexists. split; [|exact P2]. eauto.
  - eapply (wp_update_state b []); [exact I|exact P| | |].
    + pose proof (payload_ok _ _ _ _ _ _ I P) as Ho. destruct s. rewrite obj_ok_state in *.
      cbn in *. split; [tauto|]. split; [tauto|done].
    + intros k. destruct s. rewrite !occ_state. unfold receivers_own. cbn -[handles occ].
      cbn [occ]. lia.
    + intros h2 _ P2 I2. split; [done|]. intros _. eexists. split; [|exact P2]. eauto.
  - eapply step_none; [exact I|exact P|]. exists (sf_has_pending_pre_key s), Null.
    destruct s. cbn in *. by subst.
Qed.

Lemma decode_state_spec b H st0 st m h : default 2 (st_version st) = 2 ∨ default 2 (st_version st) = 3 →
  2 <= b → inv b H [] h → (TState, st0) ∈ H → payload_at h st0 (SessionState empty_state) →
  wp (decode_state st0 st) (World m h) (step b H st0 (λ _, True)).
Proof.
  intros Hv Hb I Hst P. unfold decode_state.
  eapply wp_step_bind; [eapply (decode_into_spec f_local_identity); [apply _|apply _|exact I|exact P|done]| |by split].
  intros m1 h1 s1 I1 E1 P1. assert (∃ p, s1 = set_local_identity_public p empty_state) as [p1 ->].
  { destruct E1 as [[= ->]|[k [= ->]]]; [by exists Null|by eexists]. } clear E1.
  eapply wp_step_bind; [eapply (decode_into_spec f_remote_identity); [apply _|apply _|exact I1|exact P1|done]| |by split].
  intros m2 h2 s2 I2 E2 P2.
  assert (∃ p, s2 = set_remote_identity_public p (set_local_identity_public p1 empty_state)) as [p2 ->].
  { destruct E2 as [[= ->]|[k [= ->]]]; [by exists Null|by eexists]. } clear E2.
  eapply wp_step_bind; [by eapply decode_root_key_spec| |by split].
  intros m3 h3 s3 I3 [p3 ->] P3.
  eapply wp_step_bind; [by eapply decode_sender_chain_spec| |by split].
  intros m4 h4 s4 I4 (x4 & p4 & q4 & ->) P4.
  eapply wp_step_bind; [by eapply decode_receiver_chains_spec| |by split].
  intros m5 h5 s5 I5 [rs ->] P5.
  eapply wp_step_bind; [by eapply decode_exchange_spec| |by split].
  intros m6 h6 s6 I6 E6 P6.
  assert (sf_pending_base_key s6 = Null ∧ sf_alice_base_key s6 = Null) as [N1 N2]
    by (destruct E6 as [->|(? & ? & ? & ->)]; done).
  eapply wp_step_bind; [by eapply decode_pre_key_spec| |by split].
  intros m7 h7 s7 I7 (x7 & p7 & ->) P7.
  eapply wp_mono; [eapply (decode_into_spec f_alice_base); [apply _|apply _|exact I7|exact P7|]|].
  - destruct s6. cbn in *. by subst.
  - intros r w [I8 Hx]. split; [done|]. intros ->. destruct (Hx eq_refl) as (s' & _ & ?). eauto.
Qed.

Lemma deserialize_spec b H st m h :
  default 2 (st_version st) = 2 ∨ default 2 (st_version st) = 3 → 2 <= b → inv b H [] h →
  wp (session_state_deserialize_protobuf st) (World m h) (post b H (λ l, [(TState, l)])).
Proof.
  intros Hv Hb I. apply wp_bind. eapply (wp_create (SessionState empty_state)); [exact I| | |exact I].
  - apply obj_ok_state. cbn. split_and!; try done. constructor.
  - intros m1 l h1 _ El _ _ I1. cbn in I1. apply wp_bind, wp_try. eapply wp_mono.
    { eapply (decode_state_spec b); [exact Hv|exact Hb|exact I1|left|by exists 1]. }
    intros [[]|e] [m2 h2] [I2 _]; cbn [w_user] in *; [by apply wp_ret|].
    apply wp_bind. eapply wp_unref; [exact I2|done|]. cbn [w_user w_mem]. intros h3 I3 _.
    by apply wp_fail.
Qed.

(** C36: for the session versions 2 and 3, whatever the stored message holds and
    whichever allocation fails, deserializing a session state returns; on
    success the caller holds exactly one reference to the new state, on an
    error everything that was allocated has been released. *)
Theorem session_state_deserialize_owned H st m h :
  default 2 (st_version st) = 2 ∨ default 2 (st_version st) = 3 → owned H h →
  match session_state_deserialize_protobuf st (World m h) with
  | (Ok l, w) => owned ((TState, l) :: H) (w_user w)
  | (Err _, w) => owned H (w_user w)
  | _ => False
  end.
Proof.
  intros Hv [b I]. pose proof (inv_bound _ _ _ _ I).
  assert (wp (session_state_deserialize_protobuf st) (World m h)
            (post (Z.max 2 b) H (λ l, [(TState, l)]))) as Hw.
  { apply deserialize_spec; [done|lia|]. eapply inv_weaken; [|exact I]. lia. }
  unfold wp, post, owned in *.
  destruct (session_state_deserialize_protobuf st (World m h)) as [[] ?]; eauto.
Qed.

(** A stored state of version 3 with a root key and a sender chain. *)
Definition demo_structure : session_structure :=
  SessionStructure (Some 3) None None (Some [1])
    (Some (ChainStructure (Some (5 :: replicate 32 9)) (Some (replicate 32 7))
             (Some (Some [1], Some 0)) [])) [] None None None.

Lemma session_state_deserialize_owned_witness :
  match session_state_deserialize_protobuf demo_structure (World None ∅) with
  | (Ok l, w) => owned [(TState, l)] (w_user w)
  | (Err _, w) => owned [] (w_user w)
  | _ => False
  end.
Proof.
  apply (session_state_deserialize_owned [] demo_structure None ∅).
  - right. reflexivity.
  - exists 2. exact empty_inv.
Defined.

(** [hkdf_create] with a version it does not know. *)
Lemma hkdf_create_bad v m h : v ≠ 2 → v ≠ 3 → can_alloc m →
  hkdf_create v (World m h) =
  (Ok (Loc (new_loc h), Some SG_ERR_INVAL),
   World (next_mem m) (delete (new_loc h) (<[new_loc h := Obj 1 HkdfContext]> h))).
Proof.
  intros N2 N3 R. unfold hkdf_create. rewrite (bind_run _ _ _ _ _ (new_cell_ok _ _ _ R)).
  rewrite !bool_decide_false by done. cbn [orb].
  unfold bind, mem_free, heap_op. cbn [w_user w_mem free]. by rewrite lookup_insert_eq.
Qed.

Lemma unref_freed l h acts w : w_user w = delete l h →
  perform (Unref (Loc l) :: acts) w = (Abort, w).
Proof.
  intros E. unfold perform, heap_op. rewrite E. cbn [run_actions signal_type_unref_at unref_depth].
  by rewrite lookup_delete_eq.
Qed.

Lemma sender_chain_bad_version v key idx m h : v ≠ 2 → v ≠ 3 → can_alloc m →
  (session_state_deserialize_protobuf_sender_chain v
    (ChainStructure None None (Some (Some key, Some idx)) []) (World m h)).1 = Abort.
Proof.
  intros N2 N3 R. unfold session_state_deserialize_protobuf_sender_chain.
  cbn [cs_sender_ratchet_key cs_sender_ratchet_key_private cs_chain_key decode_pair].
  rewrite (bind_run (ret _) _ _ _ _ eq_refl). cbv beta iota.
  assert (decode_chain_key v (Some (Some key, Some idx)) None (World m h) =
    (Ok (Loc (new_loc h), Null, Some SG_ERR_INVAL),
     World (next_mem m) (delete (new_loc h) (<[new_loc h := Obj 1 HkdfContext]> h)))) as Hd.
  { unfold decode_chain_key. by rewrite (bind_run _ _ _ _ _ (hkdf_create_bad v m h N2 N3 R)). }
  rewrite (bind_run _ _ _ _ _ Hd). unfold bind. by erewrite unref_freed.
Qed.

(** C40: for any other version [hkdf_create] frees the context it allocated and
    leaves its address in the caller's variable, which the caller releases
    again: a stored session without root key whose sender chain has a chain
    key makes deserialization touch freed memory. *)
Theorem session_state_deserialize_bad_version v key idx st m h :
  st_version st = Some v → v ≠ 2 → v ≠ 3 →
  st_local_identity_public st = None → st_remote_identity_public st = None →
  st_root_key st = None →
  st_sender_chain st = Some (ChainStructure None None (Some (Some key, Some idx)) []) →
  room 2 m →
  (session_state_deserialize_protobuf st (World m h)).1 = Abort.
Proof.
  intros Ev N2 N3 E1 E2 E3 E4 (R1 & R2 & _).
  unfold session_state_deserialize_protobuf, session_state_create.
  rewrite (bind_run _ _ _ _ _ (new_object_ok _ m h R1)).
  unfold decode_state. rewrite Ev, E1, E2, E3, E4.
  cbn [decode_into decode_root_key decode_sender_chain default].
  match goal with |- context [World (next_mem m) ?h1] =>
    pose proof (sender_chain_bad_version v key idx (next_mem m) h1 N2 N3 R2) as Ha end.
  unfold bind, try, ret. cbv beta iota. unfold id.
  destruct (session_state_deserialize_protobuf_sender_chain _ _ _) as [r w].
  cbn in Ha. by subst r.
Qed.

Lemma session_state_deserialize_bad_version_witness :
  (session_state_deserialize_protobuf
    (SessionStructure (Some 7) None None None
      (Some (ChainStructure None None (Some (Some [1], Some 0)) [])) [] None None None)
    (World None ∅)).1 = Abort.
Proof.
  apply (session_state_deserialize_bad_version 7 [1] 0); try reflexivity; try discriminate.
  repeat split; discriminate.
Defined.
