(* ===== verification/RefApi.v ===== *)
(** Programs that use the library: any sequence of calls whose arguments are
    references the program holds.

    [call] lists the functions of RefOps.v with their arguments, [exec] runs
    one and returns the references it hands over, [allowed] is what the caller
    owes: it holds the arguments, of the right type.  [api_step] is one call,
    or one [SIGNAL_REF] or [SIGNAL_UNREF] of a reference that is held. *)
From stdpp Require Import gmap.
From S2P Require Import Prelude RefCount RefCountInv RefOps RefRules RefOpsSpec RefStateSpec RefSenderSpec RefDecodeSpec.

Inductive call : Type :=
| CDecodePoint (data : bytes)
| CDecodePrivatePoint (data : bytes)
| CKeyPair (public private : loc)
| CIdentityKeyPair (public private : loc)
| CHkdf (message_version : Z)
| CChainKey (kdf : loc) (key_set : bool)
| CRootKey (kdf : loc) (key_set : bool)
| CSymmetric (a b c d e f : loc)
| CAlice (a b c d : loc) (one_time : option loc) (f : loc)
| CBob (a b : loc) (one_time : option loc) (d e f : loc)
| CState
| CSetLocalIdentity (st k : loc)
| CSetRemoteIdentity (st k : loc)
| CSetRootKey (st k : loc)
| CSetSenderChain (st kp ck : loc)
| CSetSenderChainKey (st ck : loc)
| CSetAliceBaseKey (st k : loc)
| CSetPendingKeyExchange (st base ratchet identity : loc)
| CSetUnacknowledged (st base : loc)
| CClearUnacknowledged (st : loc)
| CAddReceiverChain (st key ck : loc)
| CSetReceiverChainKey (st eph ck : loc)
| CSetMessageKeys (st eph : loc) (counter : Z)
| CRemoveMessageKeys (st eph : loc) (counter : Z)
| CDeserialize (message : session_structure)
| CRecord (state : option loc)
| CSetState (record state : loc)
| CPromote (record state : loc)
| CArchive (record : loc)
| CRemovePrevious (record : loc) (i : nat)
| CPreKey (kp : loc)
| CSignedPreKey (kp : loc) (signature_len : Z)
| CBundle (pre_key signed_pre_key : option loc) (has_signature : bool) (identity : option loc)
| CSenderChainKey (chain_key_set : bool)
| CSenderMessageKey (iteration : Z) (seed_set : bool)
| CSenderState (ck public : loc) (private : option loc)
| CSetChainKey (state ck : loc)
| CAddMessageKey (state key : loc)
| CRemoveMessageKey (state : loc) (iteration : Z)
| CSenderRecord
| CAddState (record : loc) (chain_key_set : bool) (public : loc)
| CSetSenderState (record : loc) (chain_key_set : bool) (kp : loc)
| CFingerprint (displayable scannable : option loc)
| CDisplayable (local_set remote_set : bool)
| CScannable (version : Z) (a b c d : bool)
| CSignature.

(** A call that creates an object, and one that creates none. *)
Definition gives (t : ty) (m : M mem loc) : M mem (list handle) :=
  let* l := m in ret [(t, l)].

Definition no_result {A} (m : M mem A) : M mem (list handle) := let* _ := m in ret [].

Definition exec (c : call) : M mem (list handle) :=
  match c with
  | CDecodePoint data => gives TPublicKey (curve_decode_point data)
  | CDecodePrivatePoint data => gives TPrivateKey (curve_decode_private_point data)
  | CKeyPair a b => gives TKeyPair (ec_key_pair_create (Loc a) (Loc b))
  | CIdentityKeyPair a b =>
      gives TIdentityKeyPair (ratchet_identity_key_pair_create (Loc a) (Loc b))
  | CHkdf v =>
      let* '(context, code) := hkdf_create v in
      match code with Some e => fail e | None => ret (ptr_handles THkdf context) end
  | CChainKey kdf set => gives TChainKey (ratchet_chain_key_create (Loc kdf) set)
  | CRootKey kdf set => gives TRootKey (ratchet_root_key_create (Loc kdf) set)
  | CSymmetric a b c d e f =>
      gives TSymmetric (symmetric_signal_protocol_parameters_create
        (Loc a) (Loc b) (Loc c) (Loc d) (Loc e) (Loc f))
  | CAlice a b c d e f =>
      gives TAlice (alice_signal_protocol_parameters_create
        (Loc a) (Loc b) (Loc c) (Loc d) (of_loc e) (Loc f))
  | CBob a b c d e f =>
      gives TBob (bob_signal_protocol_parameters_create
        (Loc a) (Loc b) (of_loc c) (Loc d) (Loc e) (Loc f))
  | CState => gives TState session_state_create
  | CSetLocalIdentity st k => no_result (session_state_set_local_identity_key st (Loc k))
  | CSetRemoteIdentity st k => no_result (session_state_set_remote_identity_key st (Loc k))
  | CSetRootKey st k => no_result (session_state_set_root_key st (Loc k))
  | CSetSenderChain st kp ck => no_result (session_state_set_sender_chain st (Loc kp) (Loc ck))
  | CSetSenderChainKey st ck => no_result (session_state_set_sender_chain_key st (Loc ck))
  | CSetAliceBaseKey st k => no_result (session_state_set_alice_base_key st (Loc k))
  | CSetPendingKeyExchange st a b c =>
      no_result (session_state_set_pending_key_exchange st (Loc a) (Loc b) (Loc c))
  | CSetUnacknowledged st k =>
      no_result (session_state_set_unacknowledged_pre_key_message st (Loc k))
  | CClearUnacknowledged st =>
      no_result (session_state_clear_unacknowledged_pre_key_message st)
  | CAddReceiverChain st k ck => no_result (session_state_add_receiver_chain st (Loc k) (Loc ck))
  | CSetReceiverChainKey st k ck =>
      no_result (session_state_set_receiver_chain_key st (Loc k) (Loc ck))
  | CSetMessageKeys st k c => no_result (session_state_set_message_keys st (Loc k) c)
  | CRemoveMessageKeys st k c => no_result (session_state_remove_message_keys st (Loc k) c)
  | CDeserialize message => gives TState (session_state_deserialize_protobuf message)
  | CRecord st => gives TRecord (session_record_create (of_loc st))
  | CSetState r st => no_result (session_record_set_state r (Loc st))
  | CPromote r st => no_result (session_record_promote_state r (Loc st))
  | CArchive r => no_result (session_record_archive_current_state r)
  | CRemovePrevious r i => no_result (session_record_get_previous_states_remove r i)
  | CPreKey kp => gives TPreKey (session_pre_key_create (Loc kp))
  | CSignedPreKey kp len => gives TSignedPreKey (session_signed_pre_key_create (Loc kp) len)
  | CBundle a b s c =>
      gives TBundle (session_pre_key_bundle_create (of_loc a) (of_loc b) s (of_loc c))
  | CSenderChainKey set => gives TSenderChainKey (sender_chain_key_create set)
  | CSenderMessageKey it set => gives TSenderMessageKey (sender_message_key_create it set true)
  | CSenderState a b c => gives TSenderState (sender_key_state_create (Loc a) (Loc b) (of_loc c))
  | CSetChainKey st ck => no_result (sender_key_state_set_chain_key st (Loc ck))
  | CAddMessageKey st k => no_result (sender_key_state_add_sender_message_key st (Loc k))
  | CRemoveMessageKey st it =>
      let* p := sender_key_state_remove_sender_message_key st it in
      ret (ptr_handles TSenderMessageKey p)
  | CSenderRecord => gives TSenderRecord sender_key_record_create
  | CAddState r set k => no_result (sender_key_record_add_sender_key_state r set (Loc k))
  | CSetSenderState r set kp => no_result (sender_key_record_set_sender_key_state r set (Loc kp))
  | CFingerprint a b => gives TFingerprint (fingerprint_create (of_loc a) (of_loc b))
  | CDisplayable a b => gives TDisplayable (displayable_fingerprint_create a b)
  | CScannable v a b c d => gives TScannable (scannable_fingerprint_create v a b c d)
  | CSignature => gives TSignature device_consistency_signature_create
  end.

(** The references a call takes, and what else its callers see to: a stored
    session and a key derivation have a version there is, a node is on the list, a
    signature is not empty, and the one function whose error path is unsound
    gets the memory it asks for. *)
Definition maybe (t : ty) (p : option loc) : list handle :=
  match p with Some l => [(t, l)] | None => [] end.

Definition arguments (c : call) : list handle :=
  match c with
  | CKeyPair a b | CIdentityKeyPair a b => [(TPublicKey, a); (TPrivateKey, b)]
  | CChainKey kdf _ | CRootKey kdf _ => [(THkdf, kdf)]
  | CSymmetric a b c d e f =>
      [(TIdentityKeyPair, a); (TKeyPair, b); (TKeyPair, c);
       (TPublicKey, d); (TPublicKey, e); (TPublicKey, f)]
  | CAlice a b c d e f =>
      [(TIdentityKeyPair, a); (TKeyPair, b); (TPublicKey, c); (TPublicKey, d)]
      ++ maybe TPublicKey e ++ [(TPublicKey, f)]
  | CBob a b c d e f =>
      [(TIdentityKeyPair, a); (TKeyPair, b)] ++ maybe TKeyPair c
      ++ [(TKeyPair, d); (TPublicKey, e); (TPublicKey, f)]
  | CSetLocalIdentity st k | CSetRemoteIdentity st k | CSetAliceBaseKey st k
  | CSetUnacknowledged st k | CSetMessageKeys st k _ | CRemoveMessageKeys st k _ =>
      [(TState, st); (TPublicKey, k)]
  | CSetRootKey st k => [(TState, st); (TRootKey, k)]
  | CSetSenderChain st kp ck => [(TState, st); (TKeyPair, kp); (TChainKey, ck)]
  | CSetSenderChainKey st ck => [(TState, st); (TChainKey, ck)]
  | CSetPendingKeyExchange st a b c =>
      [(TState, st); (TKeyPair, a); (TKeyPair, b); (TIdentityKeyPair, c)]
  | CClearUnacknowledged st => [(TState, st)]
  | CAddReceiverChain st k ck | CSetReceiverChainKey st k ck =>
      [(TState, st); (TPublicKey, k); (TChainKey, ck)]
  | CRecord st => maybe TState st
  | CSetState r st | CPromote r st => [(TRecord, r); (TState, st)]
  | CArchive r | CRemovePrevious r _ => [(TRecord, r)]
  | CPreKey kp | CSignedPreKey kp _ => [(TKeyPair, kp)]
  | CBundle a b _ c => maybe TPublicKey a ++ maybe TPublicKey b ++ maybe TPublicKey c
  | CSenderState a b c => [(TSenderChainKey, a); (TPublicKey, b)] ++ maybe TPrivateKey c
  | CSetChainKey st ck => [(TSenderState, st); (TSenderChainKey, ck)]
  | CAddMessageKey st k => [(TSenderState, st); (TSenderMessageKey, k)]
  | CRemoveMessageKey st _ => [(TSenderState, st)]
  | CAddState r _ k => [(TSenderRecord, r); (TPublicKey, k)]
  | CSetSenderState r _ kp => [(TSenderRecord, r); (TKeyPair, kp)]
  | CFingerprint a b => maybe TDisplayable a ++ maybe TScannable b
  | _ => []
  end.

Definition obligation (c : call) (w : mem) : Prop :=
  match c with
  | CDeserialize message =>
      default 2 (st_version message) = 2 ∨ default 2 (st_version message) = 3
  | CHkdf v => v = 2 ∨ v = 3
  | CRemovePrevious r i =>
      ∃ p l, payload_at (w_user w) r (SessionRecord p l) ∧ (i < length l)%nat
  | CSignedPreKey _ len => 0 < len
  | CSenderMessageKey _ _ => room 6 (w_mem w)
  | _ => True
  end.

Definition allowed (H : list handle) (c : call) (w : mem) : Prop :=
  (∀ x, x ∈ arguments c → x ∈ H) ∧ obligation c w.

(** The caller's references and the world, before and after. *)
Inductive api_step : list handle * mem → list handle * mem → Prop :=
| step_call H c w got w' :
    allowed H c w → exec c w = (Ok got, w') → api_step (H, w) (got ++ H, w')
| step_error H c w e w' :
    allowed H c w → exec c w = (Err e, w') → api_step (H, w) (H, w')
| step_ref H t l w w' :
    (t, l) ∈ H → t ≠ TRaw → SIGNAL_REF (Loc l) w = (Ok tt, w') →
    api_step (H, w) ((t, l) :: H, w')
| step_unref H H' t l w w' :
    H ≡ₚ (t, l) :: H' → t ≠ TRaw → SIGNAL_UNREF (Loc l) w = (Ok tt, w') →
    api_step (H, w) (H', w').

(** * Every call keeps the invariant *)

Definition all_held (b : Z) (H : list handle) : list handle + Z → mem → Prop :=
  post b H (λ got, got).

Lemma wp_gives b b' H t m w : b <= b' < 2 ^ 32 →
  wp m w (post b H (λ l, [(t, l)])) → wp (gives t m) w (all_held b' H).
Proof.
  intros Hb Hm. apply wp_bind. eapply wp_mono; [exact Hm|].
  intros [l|e] w' I; [apply wp_ret|]; by apply (inv_weaken b).
Qed.

Lemma wp_no_result {A} b b' H (m : M mem A) w : b <= b' < 2 ^ 32 →
  wp m w (post b H (λ _, [])) → wp (no_result m) w (all_held b' H).
Proof.
  intros Hb Hm. apply wp_bind. eapply wp_mono; [exact Hm|].
  intros [l|e] w' I; [apply wp_ret|]; by apply (inv_weaken b).
Qed.

Lemma postk_post {A} b H (R : A → list handle) h m w : wp m w (postk b H R h) → wp m w (post b H R).
Proof. intros Hm. eapply wp_mono; [exact Hm|]. by intros r w' [? _]. Qed.

Lemma ptr_of_loc b H D h t p :
  inv b H D h → (∀ x, x ∈ maybe t p → x ∈ H) → ptr_ok h t (of_loc p).
Proof.
  intros I Hx. destruct p as [l|]; [|done]. apply (inv_handle _ _ _ _ I), Hx. left.
Qed.

(** The held arguments of a call. *)
Ltac held :=
  match goal with Ha : ∀ x, x ∈ _ → x ∈ ?H |- _ ∈ ?H => apply Ha end;
  cbn [arguments maybe app];
  rewrite ?elem_of_app, ?elem_of_cons, ?elem_of_app, ?elem_of_cons, ?elem_of_app; tauto.

Ltac typed :=
  match goal with I : inv _ _ _ ?h |- type_at ?h _ = _ => apply (inv_handle _ _ _ _ I); held end.

Ltac optional :=
  match goal with I : inv _ _ _ ?h |- ptr_ok ?h _ (of_loc _) =>
    eapply (ptr_of_loc _ _ _ _ _ _ I); intros ? ?; held end.

Ltac counted :=
  match goal with I : inv ?b _ _ ?h |- count ?h ?k + 1 <= _ =>
    let Hc := fresh in
    assert (count h k <= b) as Hc by (eapply (count_le _ _ _ _ _ _ I); typed); lia end.

Ltac setter_call L :=
  match goal with |- context [all_held ?b _] =>
    eapply (wp_no_result b); [lia|]; apply L; try done; held end.

Ltac creator_call L :=
  match goal with |- context [all_held ?b _] =>
    eapply (wp_gives b); [lia|]; apply L; try done; first [typed|optional] end.

Lemma exec_spec b H c m h : inv b H [] h → 2 <= b → b + 8 < 2 ^ 32 → allowed H c (World m h) →
  wp (exec c) (World m h) (all_held (b + 8) H).
Proof.
  intros I Hb2 Hb [Ha Ho]. pose proof (inv_bound _ _ _ _ I) as Hbb.
  destruct c; cbn [exec obligation w_mem w_user] in *.
  1: eapply (wp_gives b); [lia|by apply curve_decode_point_spec].
  1: eapply (wp_gives b); [lia|by apply curve_decode_private_point_spec].
  1: eapply (wp_gives (b + 8)); [lia|]; eapply postk_post, ec_key_pair_create_spec;
      [exact I|lia|typed|typed|counted|counted].
  1: eapply (wp_gives (b + 8)); [lia|]; eapply postk_post, ratchet_identity_key_pair_create_spec;
      [exact I|lia|typed|typed|counted|counted].
  1: { apply wp_bind. eapply wp_mono; [by apply (hkdf_create_spec _ b H)|].
       intros ? w' (p & code & -> & I' & _ & [[-> (k & -> & _)]|[-> ->]]);
         [apply wp_ret|apply wp_fail]; by apply (inv_weaken b); [lia|]. }
  1: eapply (wp_gives (b + 8)); [lia|]; eapply postk_post, ratchet_chain_key_create_spec;
      [exact I|lia|typed|counted].
  1: eapply (wp_gives (b + 8)); [lia|]; eapply postk_post, ratchet_root_key_create_spec;
      [exact I|lia|typed|counted].
  1: creator_call symmetric_parameters_spec.
  1: creator_call alice_parameters_spec.
  1: creator_call bob_parameters_spec.
  1: eapply (wp_gives b); [lia|by apply session_state_create_spec].
  1: setter_call session_state_set_local_identity_key_spec.
  1: setter_call session_state_set_remote_identity_key_spec.
  1: setter_call session_state_set_root_key_spec.
  1: setter_call session_state_set_sender_chain_spec.
  1: setter_call session_state_set_sender_chain_key_spec.
  1: setter_call session_state_set_alice_base_key_spec.
  1: setter_call session_state_set_pending_key_exchange_spec.
  1: setter_call session_state_set_unacknowledged_pre_key_message_spec.
  1: setter_call session_state_clear_unacknowledged_pre_key_message_spec.
  1: setter_call session_state_add_receiver_chain_spec.
  1: setter_call session_state_set_receiver_chain_key_spec.
  1: setter_call session_state_set_message_keys_spec.
  1: setter_call session_state_remove_message_keys_spec.
  1: eapply (wp_gives b); [lia|by apply deserialize_spec].
  1: { eapply (wp_gives (b + 8)); [lia|]. apply session_record_create_spec; [done|done|].
       destruct state as [s|]; [right; exists s; split; [done|held]|by left]. }
  1: setter_call session_record_set_state_spec.
  1: eapply (wp_no_result (b + 1)); [lia|]; apply session_record_promote_state_spec;
      [done|lia|held|held].
  1: setter_call session_record_archive_current_state_spec.
  1: { destruct Ho as (p & l & P & Hi). eapply (wp_no_result (b + 8)); [lia|].
       eapply session_record_get_previous_states_remove_spec; [done|done|held|exact P|done]. }
  1: creator_call session_pre_key_create_spec.
  1: creator_call session_signed_pre_key_create_spec.
  1: creator_call session_pre_key_bundle_create_spec.
  1: eapply (wp_gives b); [lia|by apply sender_chain_key_create_spec].
  1: eapply (wp_gives b); [lia|by apply sender_message_key_create_spec].
  1: creator_call sender_key_state_create_spec.
  1: setter_call sender_key_state_set_chain_key_spec.
  1: setter_call sender_key_state_add_sender_message_key_spec.
  1: { apply wp_bind. eapply wp_mono.
       { apply sender_key_state_remove_sender_message_key_spec; [exact I|done|held]. }
       intros [p|e] w' I'; [apply wp_ret|]; exact I'. }
  1: eapply (wp_gives b); [lia|by apply sender_key_record_create_spec].
  1: setter_call sender_key_record_add_sender_key_state_spec.
  1: setter_call sender_key_record_set_sender_key_state_spec.
  1: creator_call fingerprint_create_spec.
  1: eapply (wp_gives b); [lia|by apply displayable_fingerprint_create_spec].
  1: eapply (wp_gives b); [lia|by apply scannable_fingerprint_create_spec].
  1: eapply (wp_gives b); [lia|by apply device_consistency_signature_create_spec].
Qed.

Lemma api_step_inv b H w H' w' : api_step (H, w) (H', w') → inv b H [] (w_user w) → 2 <= b →
  b + 8 < 2 ^ 32 → inv (b + 8) H' [] (w_user w').
Proof.
  intros S I Hb2 Hb. pose proof (inv_bound _ _ _ _ I). destruct w as [m h].
  inversion S as [? c ? got ? Ha E|? c ? e ? Ha E|? t l ? ? Hl Ht E|? ? t l ? ? Hp Ht E]; subst; clear S.
  - pose proof (exec_spec b H c m h I Hb2 Hb Ha) as Hw. unfold wp in Hw. by rewrite E in Hw.
  - pose proof (exec_spec b H' c m h I Hb2 Hb Ha) as Hw. unfold wp in Hw. by rewrite E in Hw.
  - assert (wp (SIGNAL_REF (Loc l)) (World m h)
      (λ _ w, inv (b + 8) ((t, l) :: H) [] (w_user w))) as Hw.
    { eapply wp_ref_held; [exact I|lia|exact Ht|exact Hl|]. intros h1 _ _ I1.
      eapply inv_weaken; [|exact I1]. lia. }
    unfold wp in Hw. by rewrite E in Hw.
  - assert (wp (SIGNAL_UNREF (Loc l)) (World m h) (λ _ w, inv (b + 8) H' [] (w_user w))) as Hw.
    { eapply wp_unref; [eapply inv_perm; [exact Hp|exact I]|exact Ht|]. intros h1 I1 _.
      eapply inv_weaken; [|exact I1]. lia. }
    unfold wp in Hw. by rewrite E in Hw.
Qed.

Lemma api_steps_inv n b x y : nsteps api_step n x y → inv b x.1 [] (w_user x.2) → 2 <= b →
  b + 8 * Z.of_nat n < 2 ^ 32 → inv (b + 8 * Z.of_nat n) y.1 [] (w_user y.2).
Proof.
  intros S. revert b. induction S as [x|n [H w] [H1 w1] y S _ IH]; intros b I Hb2 Hb.
  - by rewrite Z.add_0_r.
  - rewrite Nat2Z.inj_succ in *.
    replace (b + 8 * Z.succ (Z.of_nat n)) with (b + 8 + 8 * Z.of_nat n) by lia.
    apply IH; [|lia|lia]. apply (api_step_inv b H w); [done|done|done|lia].
Qed.

(** A program that holds nothing yet. *)
Definition start (m : option nat) : list handle * mem := ([], World m ∅).


(** ** A program *)

Definition demo_point : bytes := 5 :: replicate 32 9.
Definition demo_scalar : bytes := replicate 32 7.

(** Two keys, their pair, and the keys given up: the pair keeps them. *)
Definition demo_heap : heap :=
  {[ 2%positive := Obj 1 (EcPublicKey (replicate 32 9)); 3%positive := Obj 1 EcPrivateKey;
     4%positive := Obj 1 (EcKeyPair (Loc 2) (Loc 3)) ]}.

Lemma demo_program :
  nsteps api_step 5 (start None) ([(TKeyPair, 4%positive)], World None demo_heap).
Proof.
  eapply nsteps_l.
  { eapply (step_call _ (CDecodePoint demo_point)); [split; [intros ? []%not_elem_of_nil|done]|].
    vm_compute; reflexivity. }
  eapply nsteps_l.
  { eapply (step_call _ (CDecodePrivatePoint demo_scalar)); [split; [intros ? []%not_elem_of_nil|done]|].
    vm_compute; reflexivity. }
  eapply nsteps_l.
  { eapply (step_call _ (CKeyPair 2 3)); [split; [|done]|vm_compute; reflexivity].
    intros x. cbn. rewrite !elem_of_cons. tauto. }
  eapply nsteps_l.
  { eapply (step_unref _ [(TKeyPair, 4%positive); (TPrivateKey, 3%positive)] TPublicKey 2);
      [|done|vm_compute; reflexivity].
    symmetry. apply (Permutation_cons_append [(TKeyPair, 4%positive); (TPrivateKey, 3%positive)]). }
  eapply nsteps_l; [|apply nsteps_O].
  eapply (step_unref _ [(TKeyPair, 4%positive)] TPrivateKey 3);
    [apply Permutation_swap|done|vm_compute; reflexivity].
Qed.

